(* ===== verification/_CoqProject ===== *)
-Q . S2P
Prelude.v
GoStrings.v
GoPath.v
GoOs.v
GoFs.v
Configure.v
ConfigureProps.v
Storages.v
Value.v
Config.v
ConfigFacts.v
ConfigProps.v
Cluster.v
ClusterProps.v
Validators.v
ValidatorsProps.v
Sources.v
Etcd.v
EtcdProps.v
Tarantool.v
TarantoolProps.v
TarantoolSchema.v
Regexp.v
Version.v
VersionProps.v
Search.v
RpmTags.v
RpmProps.v
Uri.v
ClusterGet.v
Replicaset.v
CConfigSource.v
CConfigProps.v
Topology.v
ReplicasetProps.v
CConfigApp.v
CConfigAppProps.v
Cartridge.v
CartridgeProps.v
ClusterCmd.v
ClusterCmdProps.v
Running.v
RunningProps.v
History.v
Connector.v
Formatter.v
Console.v
ConsoleProps.v
Pack.v
Rpm.v
PackProps.v
ProcessUtils.v
HistoryProps.v
Install.v
Uninstall.v
Disk.v
UninstallProps.v
InstallProps.v
Instances.v
Control.v
InstanceCmds.v
Build.v
Bundle.v
TempDirs.v
BundleProps.v
Create.v
CreateProps.v
Commands.v
ConnectCmd.v
ReplicasetCmd.v
InstancesProps.v
Daemon.v
Watchdog.v
Tail.v
Programs.v
Cobra.v
CmdTree.v
Root.v
RootProps.v
Helpers.v
