(* ===== verification/Prelude.v ===== *)
(** * A verification of tt, the command line tool of Tarantool

    [tt] keeps the configuration of Tarantool clusters, runs applications and
    their instances, connects to them, changes the topology of their
    replicasets, installs programs, and creates, builds and packs applications.
    This development models the code that does so ([lib/cluster], [lib/connect] and the packages of [cli] listed
    below) and proves what makes it correct.

    ** The program and the files of the model

    A configuration is a tree of Go values behind string paths
    ([lib/cluster/config.go]).  A cluster configuration is such a tree read as
    groups, replicasets and instances, whose settings are inherited from the
    outside in ([lib/cluster/cluster.go]).  It is collected from several sources
    (environment, file, etcd, the Tarantool config storage), each of which
    yields YAML documents that are merged, the first one with the highest
    priority; etcd and Tarantool keep hashes and signatures beside the values.
    A schema of validators checks the result ([validators.go], [schema.go],
    [paths.go]).  The cluster commands show, validate and publish it.  Commands
    that change the role of an instance patch one of the documents and publish
    it, or patch the local file of a running application and ask its instances
    to reload, or ask Cartridge to edit its topology.

    [tt] finds its own configuration file, and from it the applications, their
    instances and the files of each; an instance runs under a watchdog and is
    known by its PID file.  The console connects to an instance over a socket or
    the binary protocol, sends what is typed and prints the answer in one of
    several formats.  Programs are installed into a directory of binaries, where
    links name the active versions, and removed from it.  An application is
    created from a template in a temporary directory and moved to its place,
    built with its rocks, and packed: a bundle is made in a temporary directory
    and becomes an archive, a DEB or an RPM package, or all of that is done in a
    container.

    Shared:

    - [Prelude] (this file): Go errors and pairs [(T, error)], loops that may
      fail, the unspecified order of [range] over a map ([GoMapOrder]) and of
      [sort.Slice] ([GoSort]), lemmas on lists that several files share.
    - [GoStrings], [Regexp]: the functions of Go's
      [strings], [strconv] and [regexp] packages that the sources call.  The
      matcher lists the ways to match in the order a backtracking engine tries
      them, over the runes of a string; it is proved to agree with the language
      of the pattern.
    - [GoPath], [GoOs]: [path/filepath], the operating system as the
      sources observe it, and the file helpers of [cli/util/util.go].
    - [GoFs]: programs that change the world as a monad of state and errors with
      its notation ([io]), the classes of the calls they make ([Files], [Host],
      [Processes], [Trees]), walks over trees of files, and [cli/docker].
    - [Disk]: a disk of directories, files and links that the laws of
      those classes hold for; [TempDirs]: the
      class of temporary directories, with the tactic that follows them through
      a program and a small world for packing and creating.
    - [Value]: Go values that reach a configuration.

    Configuration of clusters:

    - [Config], with [ConfigFacts], [ConfigProps]:
      [lib/cluster/config.go].  [Set_] is [Config.Set]; the other operations
      keep their names.  [mergev] is the reference for [Merge].
    - [Storages]: [lib/cluster/storages.go].
    - [Cluster], [ClusterProps]: [lib/cluster/cluster.go].
    - [Validators], [ValidatorsProps]: [lib/cluster/validators.go] and
      [schema.go]; [TarantoolSchema]: the generated schema of [paths.go].
    - [Sources]: the interfaces of collectors and publishers and
      [yaml.go], [file.go], [env.go], with the paths of [paths.go] that
      environment variables may set.
    - [Etcd], [EtcdProps]: [lib/cluster/etcd.go].
    - [Tarantool], [TarantoolProps]: [lib/cluster/tarantool.go], and the factories
      of [datacollector.go], [datapublisher.go], [collector.go].
    - [Uri]: [lib/connect/uri.go].
    - [ClusterGet]: [cli/cluster/cluster.go].
    - [ClusterCmd], [ClusterCmdProps]: [cli/cluster/cmd], [cli/cmd/common.go] and
      the entry points of [cli/cmd/cluster.go].

    Replicasets ([cli/replicaset]):

    - [Replicaset], [ReplicasetProps]: the data, [eval.go], [discovery.go],
      [orchestrator.go], [common.go].
    - [Topology]: the discovery of [cconfig.go].
    - [CConfigSource], [CConfigProps]: [configsource.go], [roles.go] and the
      patches of [cconfig.go].
    - [CConfigApp], [CConfigAppProps]: the operations on applications of
      [cconfig.go].
    - [Cartridge], [CartridgeProps]: [cartridge.go], [bootstrap.go], [custom.go].

    Running and connecting:

    - [Configure], [ConfigureProps]: [cli/config], [cli/configure],
      [cli/cmdcontext].
    - [Instances], [InstancesProps]: how an instance is started and stopped
      ([cli/running]: process controllers, instances that run a script or a
      cluster configuration, their environment and sockets; the sample world is a
      machine with processes); [Control]: starting
      under a watchdog or in the foreground, stopping, killing, rotating logs;
      [InstanceCmds]: [cli/cmd/start.go], [stop.go], [restart.go], [status.go],
      [kill.go], [clean.go], [logrotate.go], [check.go], [run.go], [cli/status].
    - [Running], [RunningProps]: the lookup of applications and instances of
      [cli/running], their layout, [cli/util/regexputil].
    - [ProcessUtils]: [cli/process_utils].
    - [Watchdog]: [cli/running/watchdog.go].
    - [Connector]: [cli/connector].
    - [Console], [ConsoleProps], [History], [HistoryProps]: [cli/connect];
      [ConnectCmd]: [cli/cmd/connect.go].
    - [ReplicasetCmd]: [cli/replicaset/cmd],
      [cli/cmd/replicaset.go], the rebootstrap of an instance.
    - [Formatter]: [cli/formatter].
    - [Tail]: [cli/tail/tail.go].

    Programs and packages:

    - [Version], [VersionProps]: [cli/version].
    - [Search]: [cli/search], [cli/binary].
    - [Install], [InstallProps]: [cli/install]; [Uninstall], [UninstallProps]:
      [cli/uninstall], [cli/binary].
    - [Pack], [Rpm], [RpmTags], [RpmProps], [PackProps]: names, versions, contexts
      and the RPM format of [cli/pack]; [Bundle], [BundleProps]: its bundles,
      archives and packers.
    - [Build]: [cli/build], [cli/rocks].
    - [Create], [CreateProps]: [cli/create], [cli/templates].
    - [Commands]: [cli/init], [cli/coredump], [cli/checkpoint], [cli/enable], [cli/instances],
      [cli/env], [cli/modules].
    - [Programs]: [cli/install_ee], [cli/download], the commands that list and
      switch programs, [cli/cfg], [cli/cmd/log.go].
    - [Daemon]: [cli/daemon].

    Command line:

    - [Cobra]: commands and flags as data, with what [pflag] and [cobra] check of
      them when they are made, and [lib/integrity] of the open version.
    - [CmdTree]: every command of [cli/cmd], with its texts, flags, checks of
      arguments and the function that it runs.
    - [Root], [RootProps]: [cli/cmd/root.go], [help.go], [completion.go],
      [cartridge.go], the external commands of [cli/configure], the start of [tt].
    - [Helpers]: smaller helpers of [cli/util], [cli/pack/tgz.go] and [cpio.go]; step
      relations for the run of a program with a spinner ([cli/util/execute.go]), the
      lines of a log ([cli/tail], [cli/cmd/log.go]) and instances side by side
      ([cli/cmd/start.go]); log files ([cli/ttlog]).

    ** How code becomes definitions

    A function that may fail returns a [result] or an [option error]; the errors
    keep the format text and the arguments of [fmt.Errorf].  Code that talks to
    the outside takes the world [W] and returns the next one.  What is not in
    the repository is a parameter: the YAML library ([Yaml]), the etcd client
    ([EtcdClient]), a connection to Tarantool ([TarantoolConn]), consoles of
    instances ([Connector]), the system ([OS]), the TLS library, the environment
    and connections ([Services]), the texts of floats and maps ([GoText]), the
    decoding of structures, the embedded Lua bodies and the decoding of their
    answers.  Theorems about stores state the
    documented behaviour of the service as a class of laws over its content
    ([EtcdProps], [TarantoolProps]) and have a sample store that satisfies it.
    Code that changes a Go map in place rebuilds the path it walks; where Go
    would panic (an index out of range, a nil pointer) the definition returns an
    error that says so; what a deferred function does is what it does for an error.  A 64-bit integer is a [Z] with its range checked or
    wrapped where the code converts; a byte of a package is a [Z] below 256.
    Code that runs beside other code (the watchdog, starters that compete for a
    PID file) is a step function over a shared state, and its properties hold
    for every interleaving.

    ** What the theorems show

    - The container: [Merge] refines a recursive merge under every iteration
      order and gives the high-priority value precedence; [Set] and [Get] are
      inverse and fail exactly on blocked paths; [ForEach] visits each leaf once;
      every value of a decoded YAML document is addressable.
    - Scopes and sources: a setting of an instance comes from the innermost scope
      that has it; a setting of the cluster from the first source that has it;
      environment variables override; the walks over instances agree.
    - Validation: all faults are reported, once each, in order; what a validator
      accepts has the type it describes; integers wrap above [MaxInt64]; what is
      published without force conforms to the schema of Tarantool; a collection
      that an environment variable sets never does.
    - Stores: keys of values, hashes and signatures do not meet and parse back;
      published data is what is collected, also under concurrent writers, and the
      publishers never send a transaction that etcd refuses for its keys; data
      is returned only after it was checked with its own hashes and signature; a
      publication with a revision is a compare-and-swap in etcd, and is reported
      as done when it was refused in Tarantool.
    - Replicasets: merged topologies describe each instance once; a forced
      promotion or demotion takes effect in the merged configuration; operations
      on an application change exactly one setting of one file, or hold an election,
      and reload what they changed; added roles can
      be lost; evaluation skips exactly the instances that are offline; bootstrap
      of Cartridge joins exactly the instances that are not there yet.
    - URIs: a URI with credentials is taken apart into parts that make it up
      again; the two forms of URI exclude each other.
    - Configuration of [tt]: the search for the file ends and finds the nearest
      one, paths become absolute, another [tt] runs only after its integrity is
      checked.
    - Instances: the search finds the instances of the file it reads; two of them
      share their files exactly when their names and places coincide.
    - PID files: at most one of several starters creates the file, a stale file
      apart; what is written is read back.
    - Watchdog: by induction over all interleavings, the flag that stops it is
      never raced on, and a stop signal that was taken is final, also when the
      instance outlives the stop; one that arrives
      in the pause before a restart is lost.
    - Console: an answer is read whole however the connection cuts it, a
      statement of several lines is sent once, history survives a restart, the
      rows of a table are those of the answer; connecting to a socket leaves the
      working directory as it was.
    - Versions: [Parse] accepts exactly the texts of a grammar; the order of
      versions is a strict order and the found versions are sorted by it.
    - Programs: an installation that succeeds makes the chosen version the active
      one; a removal takes away
      exactly the files of one version, and the links whose target mentions its
      name, and hands the links to the latest one that is left; the loop that looks for a writable directory ends
      for absolute paths.
    - Processes: an instance that was stopped is not alive; a path of a socket
      that is shortened leads to the same file and fits; the status of a
      replicaset does not depend on the order of answers.
    - Temporary directories: packing and creating leave none behind, however they
      end; the environment of a package lands where its units look for it; an
      application that exists is not touched without force; the variables of a
      template fit their patterns.
    - Smaller commands: an external module takes the place of the command of its
      name; credentials come from a private file; a declined download changes
      nothing; the daemon is not started twice and a request runs exactly one
      command.
    - Packages: a reader of RPM headers reads back what is written, the parts of
      a package are where a reader looks for them and its header describes its
      files.
    - Tail: the block-wise search finds the newline it should, those at the first
      offset of a block apart; what is printed is a beginning of the lines, all of
      them without an interrupt.
    - Command line: no command has two flags of one name and no two commands below
      one share a name; the variable of a
      flag starts with the default that the flag declares, three timeouts apart;
      a command runs the internal function or the external module of its path, or
      ends with an error below a group that an external module replaced.
    - Running side by side: a program with a spinner ends when its channel has
      room, and blocks without; the foreground start returns only when all
      instances have ended; a rotation replaces the log file, and one that fails
      leaves the old file open for good.

    ** Bounds

    The two etcd publishers that retry take a [fuel], the number of attempts:
    without other writers one is enough ([EtcdProps.publish_collect_all],
    [EtcdProps.publish_collect_signed]), with them the safety theorem holds for
    every number.  The other bounds come from the data and are never exhausted:
    the tail loop has one more than the blocks of the file, the search for the
    last lines of the history the size of the file, a star of a pattern the
    number of runes left, the search for the configuration file the length of
    the path (each step removes an element), the arguments of docker their
    number, the reads of an answer the bytes of the connection, the walks over a
    value its size ([value_size]), the binary search the length of its list, the
    loop over parents of a directory the length of its path and 2, the loop of the
    watchdog the number of starts.  A chain of links is followed for 40 steps,
    as in the kernel, and a tree of files for 4096 levels ([max_depth]), which no
    path exceeds.

    ** What is not modelled

    Parsing of the command line, the drawing of help and the scripts of
    completion, which are those of cobra; the colors of messages, the template of the
    usage, the styles of tables and the progress that is shown while a command runs,
    which no other code reads; log messages, where nothing depends on them.  The
    editor of the console and the library that follows a growing file are parameters
    or left out.  The generated code (codegen's results, the names of enumerations
    apart) and vendored code, the code generator ([cli/codegen]), the helpers of
    tests, and the build scripts ([magefile.go]) are not part of the program that
    runs. *)
From stdpp Require Export base tactics option list list_numbers strings gmap fin_maps sorting.
From Stdlib Require Export ZArith Lia Ascii.

#[global] Arguments String.append !_ _ /.

(** ** Automation

    [go]: the rewriting rules and closing lemmas of the development. *)
Create HintDb go discriminated.
Create Rewrite HintDb go.

(** ** Go errors

    A Go [error] value.  [Errorf f args] is [fmt.Errorf(f, args...)] without a
    wrapped error; [Wrapf f args e] is [fmt.Errorf] with one [%w] operand [e];
    [ErrJoin] is the value of [errors.Join]; [NotExistError] and
    [ValidateError] are the two error types [lib/cluster] declares.  A Go slice
    is nil or not: [option (list string)] keeps the difference for the
    [path] field of [ValidateError], which [reflect.DeepEqual] observes. *)
Inductive error :=
| Errorf (format : string) (args : list string)
| Wrapf (format : string) (args : list string) (wrapped : error)
| ErrJoin (errs : list error)
| NotExistError (path : list string)
| ValidateError (path : option (list string)) (errs : list error).

(** [errors.As(err, &notExistErr)] for a target of type
    [cluster.NotExistError]: a depth-first walk of the tree that [Unwrap]
    spans. *)
Fixpoint is_not_exist (e : error) : bool :=
  match e with
  | NotExistError _ => true
  | Errorf _ _ => false
  | Wrapf _ _ w => is_not_exist w
  | ErrJoin es => existsb is_not_exist es
  | ValidateError _ es => existsb is_not_exist es
  end.

(** ** Results: a Go pair [(T, error)] *)
Inductive result (A : Type) :=
| Ok (a : A)
| Err (e : error).
Arguments Ok {A} a.
Arguments Err {A} e.

Definition rbind {A B} (f : A -> result B) (r : result A) : result B :=
  match r with Ok a => f a | Err e => Err e end.

Definition rmap {A B} (f : A -> B) (r : result A) : result B :=
  match r with Ok a => Ok (f a) | Err e => Err e end.

(** Rewrap the error of a failed call, as [fmt.Errorf("...: %w", err)] does. *)
Definition rwrap {A} (f : string) (args : list string) (r : result A) : result A :=
  match r with Ok a => Ok a | Err e => Err (Wrapf f args e) end.

Definition is_ok {A} (r : result A) : bool :=
  match r with Ok _ => true | Err _ => false end.

Definition to_option {A} (r : result A) : option A :=
  match r with Ok a => Some a | Err _ => None end.

Declare Scope go_scope.
Delimit Scope go_scope with go.
Notation "x '<-?' c ;; k" := (rbind (fun x => k) c)
  (at level 100, c at next level, right associativity) : go_scope.
Lemma rbind_Ok {A B} (f : A -> result B) r b : rbind f r = Ok b -> exists a, r = Ok a /\ f a = Ok b.
Proof. destruct r; [eauto|done]. Qed.

(** Go's [for _, x := range xs { ...; return err }]: a loop whose body may
    leave the function with an error. *)
Fixpoint for_each {A S} (body : S -> A -> result S) (xs : list A) (s : S) : result S :=
  match xs with
  | [] => Ok s
  | x :: xs' => rbind (for_each body xs') (body s x)
  end.

(** ** Go maps: iteration order

    The language leaves the order of [range] over a map unspecified.  Code
    that ranges over a map takes the order as a parameter: any enumeration of
    the entries, each once. *)
Class GoMapOrder := {
  range_map : forall {K : Type} `{Countable K} {V : Type}, gmap K V -> list (K * V);
  range_map_perm : forall {K : Type} `{Countable K} {V : Type} (m : gmap K V),
    range_map m ≡ₚ map_to_list m
}.

Lemma elem_of_range_map `{GoMapOrder} `{Countable K} {V} (m : gmap K V) k v :
  (k, v) ∈ range_map m <-> m !! k = Some v.
Proof. rewrite (range_map_perm m). apply elem_of_map_to_list. Qed.

(** One order the runtime may choose; used where a theorem is evaluated. *)
#[export] Program Instance canonical_order : GoMapOrder | 100 :=
  {| range_map K _ _ V m := map_to_list m |}.
Next Obligation. done. Qed.

(** ** [sort.Slice]

    [sort.Slice] promises a sorted permutation and no stability: the
    specification leaves the order of elements that compare equal open. *)
Definition sorted_by {A} (less : A -> A -> bool) (l : list A) : Prop :=
  StronglySorted (fun x y => less y x = false) l.

Class StrictWeakOrder {A} (less : A -> A -> bool) : Prop := {
  swo_irrefl : forall x, less x x = false;
  swo_trans : forall x y z, less x y = true -> less y z = true -> less x z = true;
  swo_incomp : forall x y z,
    less x y = false -> less y z = false -> less x z = false
}.

Class GoSort := {
  sort_slice : forall {A : Type}, (A -> A -> bool) -> list A -> list A;
  sort_slice_perm : forall {A : Type} (less : A -> A -> bool) l,
    sort_slice less l ≡ₚ l;
  sort_slice_sorted : forall {A : Type} (less : A -> A -> bool) l,
    StrictWeakOrder less -> sorted_by less (sort_slice less l)
}.

(** Insertion sort, which [sort.Slice] runs on short slices. *)
Section insertion_sort.
  Context {A : Type} (less : A -> A -> bool).

Fixpoint insert_by (x : A) (l : list A) : list A :=
  match l with
  | [] => [x]
  | y :: l' => if less y x then y :: insert_by x l' else x :: y :: l'
  end.

Fixpoint insertion_sort (l : list A) : list A :=
  match l with
  | [] => []
  | x :: l' => insert_by x (insertion_sort l')
  end.

Lemma insert_by_perm x l : insert_by x l ≡ₚ x :: l.
Proof.
  induction l as [|y l IH]; simpl; [done|].
  destruct (less y x); [|done]. rewrite IH. constructor.
Qed.

Lemma insertion_sort_perm l : insertion_sort l ≡ₚ l.
Proof. induction l as [|x l IH]; simpl; [done|]. by rewrite insert_by_perm, IH. Qed.

Lemma insert_by_sorted `{!StrictWeakOrder less} x l :
  sorted_by less l -> sorted_by less (insert_by x l).
Proof.
  unfold sorted_by.
  induction l as [|y l IH]; simpl; intros Hs.
  { repeat constructor. }
  apply StronglySorted_cons in Hs as [Hy Hs].
  destruct (less y x) eqn:E; apply StronglySorted_cons; split.
  - rewrite insert_by_perm. constructor; [|done].
    destruct (less x y) eqn:E2; [|done].
    by rewrite <-(swo_irrefl (less:=less) y), (swo_trans (less:=less) y x y).
  - auto.
  - constructor; [done|].
    eapply Forall_impl; [exact Hy|]. intros z Hz. simpl.
    exact (swo_incomp (less:=less) z y x Hz E).
  - by apply StronglySorted_cons.
Qed.

Lemma insertion_sort_sorted `{!StrictWeakOrder less} l :
  sorted_by less (insertion_sort l).
Proof. induction l; simpl; [constructor|]. by apply insert_by_sorted. Qed.
End insertion_sort.

#[export] Program Instance insertion_go_sort : GoSort | 100 :=
  {| sort_slice A less l := insertion_sort less l |}.
Next Obligation. intros. apply insertion_sort_perm. Qed.
Next Obligation. intros. by apply insertion_sort_sorted. Qed.

(** An invariant of a loop. *)
Lemma fold_left_inv {A B} (I : A -> Prop) (f : A -> B -> A) l a :
  (forall a x, x ∈ l -> I a -> I (f a x)) -> I a -> I (fold_left f l a).
Proof.
  revert a. induction l as [|x l IH]; intros a Hf Ha; simpl; [done|].
  apply IH; [|apply Hf; [left|done]]. intros. apply Hf; [by right|done].
Qed.

(** Inserting the entries of a list, one after the other. *)
Lemma fold_insert_lookup `{Countable K} {V A} (f : A -> K) (g : A -> V) l (m : gmap K V) :
  NoDup (f <$> l) ->
  (forall a, a ∈ l -> fold_left (fun m a => <[f a := g a]> m) l m !! f a = Some (g a)) /\
  (forall k, k ∉ f <$> l -> fold_left (fun m a => <[f a := g a]> m) l m !! k = m !! k).
Proof.
  revert m. induction l as [|x l IH]; intros m Hnd.
  { split; [|done]. intros a Ha. by apply not_elem_of_nil in Ha. }
  rewrite fmap_cons in Hnd. apply NoDup_cons in Hnd as [Hx Hnd]. cbn [fold_left].
  destruct (IH (<[f x := g x]> m) Hnd) as [IH1 IH2]. split.
  - intros a [->|Ha]%elem_of_cons; [|by apply IH1]. by rewrite IH2, lookup_insert_eq.
  - intros k Hk. rewrite fmap_cons, not_elem_of_cons in Hk. destruct Hk as [Hne Hk].
    rewrite IH2 by done. by rewrite lookup_insert_ne.
Qed.

(** ** Lists *)
Lemma last_cons_default {A} (x d : A) l : List.last (x :: l) d = List.last l x.
Proof.
  revert x d. induction l as [|y l IH]; intros x d; [done|].
  change (List.last (x :: y :: l) d) with (List.last (y :: l) d). by rewrite !IH.
Qed.
