(* ===== verification/GoStrings.v ===== *)
(** * Go's [strings] and [strconv] packages, as far as the sources use them

    Strings are byte strings ([String.string], one [ascii] per byte).  Every
    definition here models a function of Go's standard library; the lemmas are
    the facts about them that the components rely on. *)
From S2P Require Import Prelude.

(** ** [strings.Join], [HasPrefix], [CutPrefix], [TrimRight], [Split] *)
Fixpoint Join (elems : list string) (sep : string) : string :=
  match elems with
  | [] => ""
  | [e] => e
  | e :: es => e +:+ sep +:+ Join es sep
  end.

(** [strconv.ParseBool]. *)
Definition ParseBool (s : string) : result bool :=
  if bool_decide (s ∈ ["1"; "t"; "T"; "TRUE"; "true"; "True"]) then Ok true
  else if bool_decide (s ∈ ["0"; "f"; "F"; "FALSE"; "false"; "False"]) then Ok false
  else Err (Errorf "strconv.ParseBool: parsing %q: invalid syntax" [s]).

(** [strings.CutPrefix(s, prefix)]: [Some] of the rest, or [None] for
    [found = false]. *)
Fixpoint CutPrefix (s prefix : string) {struct prefix} : option string :=
  match prefix with
  | EmptyString => Some s
  | String c prefix' =>
      match s with
      | String d s' => if decide (c = d) then CutPrefix s' prefix' else None
      | EmptyString => None
      end
  end.

Definition HasPrefix (s prefix : string) : bool :=
  match CutPrefix s prefix with Some _ => true | None => false end.

(** [strings.TrimRight(s, "/")] for a one-character cutset. *)
Fixpoint TrimRight (s : string) (c : ascii) : string :=
  match s with
  | EmptyString => ""
  | String d s' =>
      match TrimRight s' c with
      | EmptyString => if decide (d = c) then "" else String d ""
      | t => String d t
      end
  end.

(** [strings.SplitN(s, sep, 2)] for a one-character separator: [Some] of the
    two parts, [None] when [sep] does not occur (one part). *)
Fixpoint split2 (s : string) (sep : ascii) : option (string * string) :=
  match s with
  | EmptyString => None
  | String d s' =>
      if decide (d = sep) then Some ("", s')
      else match split2 s' sep with
           | Some (a, b) => Some (String d a, b)
           | None => None
           end
  end.

(** [strings.Split(s, sep)] for a one-character separator. *)
Fixpoint Split (s : string) (sep : ascii) : list string :=
  match s with
  | EmptyString => [""]
  | String d s' =>
      if decide (d = sep) then "" :: Split s' sep
      else match Split s' sep with
           | t :: ts => String d t :: ts
           | [] => [String d ""]
           end
  end.

(** [strings.LastIndex] for a one-character separator, as the pair of the
    slices before and after the last occurrence; [None] for [-1]. *)
Fixpoint cut_last (s : string) (sep : ascii) : option (string * string) :=
  match s with
  | EmptyString => None
  | String d s' =>
      match cut_last s' sep with
      | Some (a, b) => Some (String d a, b)
      | None => if decide (d = sep) then Some ("", s') else None
      end
  end.

(** [strings.TrimPrefix], [strings.HasSuffix], [strings.TrimSuffix] and
    [strings.Contains]. *)
Definition TrimPrefix (s prefix : string) : string := default s (CutPrefix s prefix).

Fixpoint CutSuffix (s suffix : string) : option string :=
  if decide (s = suffix) then Some ""
  else
    match s with
    | EmptyString => None
    | String c s' => option_map (String c) (CutSuffix s' suffix)
    end.

Definition HasSuffix (s suffix : string) : bool :=
  match CutSuffix s suffix with Some _ => true | None => false end.

Definition TrimSuffix (s suffix : string) : string := default s (CutSuffix s suffix).

Fixpoint Contains (s sub : string) : bool :=
  HasPrefix s sub ||
  match s with
  | EmptyString => false
  | String _ s' => Contains s' sub
  end.

(** ** ASCII case mapping: [strings.ToLower] and [strings.ToUpper] on ASCII *)
Definition lower_ascii (c : ascii) : ascii :=
  let n := nat_of_ascii c in
  if (Nat.leb 65 n && Nat.leb n 90)%bool then ascii_of_nat (n + 32) else c.

Definition upper_ascii (c : ascii) : ascii :=
  let n := nat_of_ascii c in
  if (Nat.leb 97 n && Nat.leb n 122)%bool then ascii_of_nat (n - 32) else c.

Fixpoint ToLower (s : string) : string :=
  match s with
  | EmptyString => ""
  | String c s' => String (lower_ascii c) (ToLower s')
  end.

Fixpoint ToUpper (s : string) : string :=
  match s with
  | EmptyString => ""
  | String c s' => String (upper_ascii c) (ToUpper s')
  end.

(** ** [strconv.ParseUint(s, 10, 64)] and [strconv.ParseInt(s, 10, 64)] *)
Definition digit_value (c : ascii) : option Z :=
  let n := Z.of_nat (nat_of_ascii c) in
  if ((48 <=? n) && (n <=? 57))%Z then Some (n - 48)%Z else None.

Fixpoint digits_value (acc : Z) (s : string) : option Z :=
  match s with
  | EmptyString => Some acc
  | String c s' =>
      match digit_value c with
      | Some d => digits_value (10 * acc + d)%Z s'
      | None => None
      end
  end.

Definition MaxUint64 : Z := (2 ^ 64 - 1)%Z.
Definition MaxInt64 : Z := (2 ^ 63 - 1)%Z.
Definition MinInt64 : Z := (- 2 ^ 63)%Z.

(** The value of a non-empty decimal numeral. *)
Definition numeral (s : string) : option Z :=
  match s with EmptyString => None | _ => digits_value 0 s end.

Definition ParseUint (s : string) : result Z :=
  match numeral s with
  | None => Err (Errorf "strconv.ParseUint: parsing %q: invalid syntax" [s])
  | Some n =>
      if (n <=? MaxUint64)%Z then Ok n
      else Err (Errorf "strconv.ParseUint: parsing %q: value out of range" [s])
  end.

Definition ParseInt (s : string) : result Z :=
  let '(neg, body) :=
    match s with
    | String "-" s' => (true, s')
    | String "+" s' => (false, s')
    | _ => (false, s)
    end in
  match numeral body with
  | None => Err (Errorf "strconv.ParseInt: parsing %q: invalid syntax" [s])
  | Some n =>
      let v := if neg : bool then (- n)%Z else n in
      if ((MinInt64 <=? v) && (v <=? MaxInt64))%Z then Ok v
      else Err (Errorf "strconv.ParseInt: parsing %q: value out of range" [s])
  end.

(** [strconv.FormatInt(n, 10)] (what [fmt.Sprint] prints for an integer). *)
Definition digit_char (d : Z) : ascii := ascii_of_nat (Z.to_nat (48 + d)).

Fixpoint format_pos (fuel : nat) (n : Z) (acc : string) : string :=
  match fuel with
  | O => acc
  | S fuel' =>
      let acc' := String (digit_char (n mod 10)) acc in
      if (n <? 10)%Z then acc' else format_pos fuel' (n / 10) acc'
  end.

(** [S (Z.to_nat (Z.log2 n))] rounds are enough: each divides [n] by ten. *)
Definition FormatUint (n : Z) : string := format_pos (S (Z.to_nat (Z.log2 n))) n "".

Definition FormatInt (n : Z) : string :=
  if (n <? 0)%Z then "-" +:+ FormatUint (- n) else FormatUint n.

(** ** Facts about byte strings *)
Lemma string_app_assoc (a b c : string) : (a +:+ b) +:+ c = a +:+ b +:+ c.
Proof. induction a; simpl; congruence. Qed.

Lemma string_app_nil_r (a : string) : a +:+ "" = a.
Proof. induction a; simpl; congruence. Qed.

Lemma string_length_app (a b : string) :
  String.length (a +:+ b) = String.length a + String.length b.
Proof. induction a; simpl; congruence. Qed.

Lemma CutPrefix_Some s p r : CutPrefix s p = Some r <-> s = p +:+ r.
Proof.
  revert s. induction p as [|c p IH]; intros s; simpl.
  - split; congruence.
  - destruct s as [|d s]; [done|]. case_decide as E; subst.
    + rewrite IH. split; congruence.
    + split; congruence.
Qed.

Lemma CutPrefix_app p r : CutPrefix (p +:+ r) p = Some r.
Proof. by apply CutPrefix_Some. Qed.

Lemma HasPrefix_true s p : HasPrefix s p = true <-> exists r, s = p +:+ r.
Proof.
  unfold HasPrefix. destruct (CutPrefix s p) as [r|] eqn:E.
  - apply CutPrefix_Some in E. naive_solver.
  - split; [done|]. intros [r ->]. by rewrite CutPrefix_app in E.
Qed.

Lemma CutSuffix_Some s x r : CutSuffix s x = Some r <-> s = r +:+ x.
Proof.
  revert r. induction s as [|c s IH]; intros r; cbn [CutSuffix].
  - case_decide as E; subst; [split; [by intros [= <-]|]|split; [done|]].
    + destruct r; [done|]. intros [=].
    + destruct r; [done|]. intros [=].
  - case_decide as E; subst.
    + split; [by intros [= <-]|]. destruct r as [|d r]; [done|]. intros Hr.
      apply (f_equal String.length) in Hr. simpl in Hr. rewrite string_length_app in Hr.
      simpl in Hr. lia.
    + destruct (CutSuffix s x) as [r'|]; cbn [option_map].
      * split; [intros [= <-]; simpl; f_equal; by apply IH|].
        destruct r as [|d r]; [done|]. intros [= <- Hr%IH]. congruence.
      * split; [done|]. destruct r as [|d r]; [done|]. intros [= <- Hr%IH]. done.
Qed.

Lemma HasSuffix_true s x : HasSuffix s x = true <-> exists r, s = r +:+ x.
Proof.
  unfold HasSuffix. destruct (CutSuffix s x) as [r|] eqn:E.
  - apply CutSuffix_Some in E. naive_solver.
  - split; [done|]. intros [r Hr%CutSuffix_Some]. congruence.
Qed.

(** Two prefixes of one string are comparable; the components use the
    negative form. *)
Lemma prefix_app_cancel (t p q r s : string) :
  (t +:+ p) +:+ r = (t +:+ q) +:+ s -> p +:+ r = q +:+ s.
Proof. rewrite !string_app_assoc. induction t; simpl; [done|]. intros [=]; auto. Qed.

(** [no_char c s]: the byte [c] does not occur in [s]. *)
Fixpoint no_char (c : ascii) (s : string) : bool :=
  match s with
  | EmptyString => true
  | String d s' => if decide (d = c) then false else no_char c s'
  end.

Lemma no_char_app c a b : no_char c (a +:+ b) = no_char c a && no_char c b.
Proof. induction a as [|d a IH]; [done|]. simpl. by case_decide. Qed.

Lemma split2_Some s c a b :
  split2 s c = Some (a, b) <-> s = a +:+ String c b /\ no_char c a = true.
Proof.
  revert a b. induction s as [|d s IH]; intros a b; simpl.
  { split; [done|]. intros [H _]. by destruct a. }
  case_decide as E; subst.
  - split.
    + intros [= <- <-]. done.
    + intros [H Hn]. destruct a as [|x a]; simpl in *; [congruence|].
      injection H as <- H. by rewrite decide_True in Hn.
  - destruct (split2 s c) as [[a' b']|] eqn:Es.
    + destruct (proj1 (IH a' b') eq_refl) as [-> Hn]. split.
      * intros [= <- <-]. simpl. by rewrite decide_False.
      * intros [H Hn']. destruct a as [|x a]; simpl in *; [congruence|].
        injection H as <- H. rewrite decide_False in Hn' by done.
        pose proof (proj2 (IH a b) (conj H Hn')) as [= -> ->]. done.
    + split; [done|]. intros [H Hn]. destruct a as [|x a]; simpl in *; [congruence|].
      injection H as <- H. rewrite decide_False in Hn by done.
      pose proof (proj2 (IH a b) (conj H Hn)). done.
Qed.

Lemma TrimRight_snoc s c : TrimRight (s +:+ String c "") c = TrimRight s c.
Proof.
  induction s as [|d s IH]; simpl.
  - by rewrite decide_True.
  - by rewrite IH.
Qed.

(** [repeat_char n c] is [n] copies of [c]. *)
Fixpoint repeat_char (n : nat) (c : ascii) : string :=
  match n with O => "" | S n' => String c (repeat_char n' c) end.

Lemma repeat_char_snoc n c : repeat_char (S n) c = repeat_char n c +:+ String c "".
Proof. induction n as [|n IH]; [done|]. simpl in *. by rewrite IH at 1. Qed.

Lemma TrimRight_repeat s n c : TrimRight (s +:+ repeat_char n c) c = TrimRight s c.
Proof.
  induction n as [|n IH].
  - by rewrite string_app_nil_r.
  - by rewrite repeat_char_snoc, <-string_app_assoc, TrimRight_snoc.
Qed.

(** ** The order of Go strings: bytewise *)
Lemma ascii_compare_lt_trans a b c :
  Ascii.compare a b = Lt -> Ascii.compare b c = Lt -> Ascii.compare a c = Lt.
Proof. unfold Ascii.compare. rewrite !N.compare_lt_iff. lia. Qed.

Lemma ascii_compare_refl a : Ascii.compare a a = Eq.
Proof. apply N.compare_refl. Qed.

Lemma string_compare_lt_trans (a b c : string) :
  String.compare a b = Lt -> String.compare b c = Lt -> String.compare a c = Lt.
Proof.
  revert b c. induction a as [|x a IH]; intros [|y b] [|z c]; simpl; try done.
  destruct (Ascii.compare x y) eqn:Exy; [|intros _|done].
  - apply Ascii.compare_eq_iff in Exy as ->.
    destruct (Ascii.compare y z); [|done..]. apply IH.
  - destruct (Ascii.compare y z) eqn:Eyz; [|intros _|done].
    + apply Ascii.compare_eq_iff in Eyz as ->. by rewrite Exy.
    + by rewrite (ascii_compare_lt_trans _ _ _ Exy Eyz).
Qed.

Lemma string_compare_refl (a : string) : String.compare a a = Eq.
Proof. induction a; simpl; [done|]. by rewrite ascii_compare_refl. Qed.

Lemma string_ltb_irrefl (a : string) : String.ltb a a = false.
Proof. unfold String.ltb. by rewrite string_compare_refl. Qed.

Lemma string_ltb_trans (a b c : string) :
  String.ltb a b = true -> String.ltb b c = true -> String.ltb a c = true.
Proof.
  unfold String.ltb. destruct (String.compare a b) eqn:Eab; try done.
  destruct (String.compare b c) eqn:Ebc; try done.
  by rewrite (string_compare_lt_trans _ _ _ Eab Ebc).
Qed.

Lemma string_ltb_total (a b : string) :
  String.ltb a b = false -> String.ltb b a = false -> a = b.
Proof.
  unfold String.ltb. rewrite (String.compare_antisym b a).
  destruct (String.compare a b) eqn:E; simpl; try done. by apply String.compare_eq_iff in E.
Qed.

(** ** Splitting *)
Lemma Split_no_char s c : no_char c s = true -> Split s c = [s].
Proof.
  induction s as [|d s IH]; cbn; [done|]. case_decide; [done|]. intros Hs. by rewrite IH.
Qed.

Lemma Split_app a b c : no_char c a = true -> Split (a +:+ String c b) c = a :: Split b c.
Proof.
  induction a as [|d a IH]; cbn; [by rewrite decide_True|].
  case_decide; [done|]. intros Ha. by rewrite IH.
Qed.

Lemma Split_not_nil s c : Split s c <> [].
Proof. destruct s; cbn; [done|]. case_decide; [done|]. by destruct (Split _ _). Qed.

(** ** Two ways to cut a text *)
Lemma string_app_split (a b c d : string) :
  a +:+ b = c +:+ d ->
  (exists x, c = a +:+ x /\ b = x +:+ d) \/ (exists x, a = c +:+ x /\ d = x +:+ b).
Proof.
  revert c. induction a as [|x a IH]; intros c Heq; cbn in *; [left; by exists c|].
  destruct c as [|y c]; cbn in *.
  - right. exists (String x a). by split.
  - injection Heq as -> Heq. destruct (IH _ Heq) as [(z & -> & ->)|(z & -> & ->)];
      [left|right]; by exists z.
Qed.

Lemma HasPrefix_extend s p r : HasPrefix s p = true -> HasPrefix (s +:+ r) p = true.
Proof.
  rewrite !HasPrefix_true. intros (x & ->). exists (x +:+ r). apply string_app_assoc.
Qed.

Lemma HasPrefix_shorten s p r : HasPrefix s (p +:+ r) = true -> HasPrefix s p = true.
Proof. rewrite !HasPrefix_true. intros (x & ->). exists (r +:+ x). apply string_app_assoc. Qed.
