(* ===== verification/GoPath.v ===== *)
(** * Go's [path/filepath] package, as far as the sources use it

    Paths of a Unix system; the functions look at the text only. *)
From S2P Require Import Prelude GoStrings.

(** ** [filepath.Clean] and [filepath.Join] *)
Definition clean_step (rooted : bool) (out : list string) (c : string) : list string :=
  if decide (c = "" \/ c = ".") then out
  else if decide (c = "..") then
    match out with
    | [] => if rooted then [] else [".."]
    | d :: out' => if decide (d = "..") then ".." :: out else out'
    end
  else c :: out.

Definition Clean (path : string) : string :=
  if decide (path = "") then "."
  else
    let rooted := HasPrefix path "/" in
    let out := rev (fold_left (clean_step rooted) (Split path "/") []) in
    if rooted then "/" +:+ Join out "/"
    else match out with [] => "." | _ => Join out "/" end.

Fixpoint filepath_Join (elems : list string) : string :=
  match elems with
  | [] => ""
  | e :: rest => if decide (e = "") then filepath_Join rest else Clean (Join elems "/")
  end.

(** ** [filepath.IsAbs], [filepath.Base], [filepath.Dir], [filepath.Ext] *)
Definition IsAbs (path : string) : bool := HasPrefix path "/".

Definition path_Base (p : string) : string :=
  if decide (p = "") then "."
  else
    let p := TrimRight p "/" in
    if decide (p = "") then "/" else match cut_last p "/" with Some (_, b) => b | None => p end.

(** What precedes the last slash, with it, cleaned. *)
Definition path_Dir (p : string) : string :=
  match cut_last p "/" with
  | Some (dir, _) => Clean (dir +:+ "/")
  | None => "."
  end.

(** The suffix from the last dot of the last element. *)
Definition path_Ext (p : string) : string :=
  let base := match cut_last p "/" with Some (_, b) => b | None => p end in
  match cut_last base "." with Some (_, e) => "." +:+ e | None => "" end.

(** ** [filepath.Rel]

    Both paths are cleaned and compared element by element; the first place where
    they differ is left upwards from the base. *)
Definition rel_elems (path : string) : list string :=
  List.filter (fun c => negb (bool_decide (c = ""))) (Split (if decide (path = ".") then "" else path) "/").

Fixpoint strip_common (base targ : list string) : list string * list string :=
  match base, targ with
  | b :: base', t :: targ' => if decide (b = t) then strip_common base' targ' else (base, targ)
  | _, _ => (base, targ)
  end.

Definition Rel (basepath targpath : string) : result string :=
  let base := Clean basepath in
  let targ := Clean targpath in
  if decide (targ = base) then Ok "."
  else if negb (Bool.eqb (IsAbs base) (IsAbs targ)) then
    Err (Errorf "Rel: can't make %s relative to %s" [targpath; basepath])
  else
    match strip_common (rel_elems base) (match rel_elems targ with [] => if IsAbs targ then [] else ["."]
                                         | cs => cs end) with
    | (".." :: _, _) => Err (Errorf "Rel: can't make %s relative to %s" [targpath; basepath])
    | (base, targ) => Ok (Join (map (fun _ => "..") base ++ targ) "/")
    end.

Example Rel_samples :
  Rel "/a/b" "/a/c/d" = Ok "../c/d" /\ Rel "/a" "/a/b" = Ok "b" /\ Rel "/a/b" "/a" = Ok ".." /\
  Rel "." "x" = Ok "x" /\ is_ok (Rel "/a" "b") = false /\ is_ok (Rel "../x" "y") = false /\
  Rel "/" "/a" = Ok "a" /\ Rel "a" "a/." = Ok "." /\ Rel "a" "." = Ok "../.".
Proof. vm_compute. done. Qed.

Example path_samples :
  path_Base "/a/b/" = "b" /\ path_Dir "a/b.c" = "a" /\ path_Dir "/a" = "/" /\ path_Dir "a" = "." /\
  path_Ext "x/a.tar.gz" = ".gz" /\ path_Ext "a.b/c" = "".
Proof. vm_compute. done. Qed.

(** * Facts about paths

    Absolute paths in the form that [filepath.Clean] gives, as the lists of
    their elements, and what the functions of [path/filepath] do to them. *)

(** The name of a file or directory. *)
Definition name (c : string) : Prop :=
  c <> "" /\ c <> "." /\ c <> ".." /\ no_char "/" c = true.

(** The clean absolute path with these elements. *)
Definition abs_path (cs : list string) : string := "/" +:+ Join cs "/".

Lemma Split_Join cs c :
  cs <> [] -> Forall (fun s => no_char c s = true) cs -> Split (Join cs (String c "")) c = cs.
Proof.
  induction cs as [|s [|s' cs] IH]; intros Hne Hcs; [done|..].
  - apply Forall_cons in Hcs as [Hs _]. by apply Split_no_char.
  - apply Forall_cons in Hcs as [Hs Hcs]. change (Join (s :: s' :: cs) (String c "")) with
      (s +:+ String c (Join (s' :: cs) (String c ""))).
    by rewrite Split_app, IH.
Qed.

Lemma Join_snoc cs c sep : cs <> [] -> Join (cs ++ [c]) sep = Join cs sep +:+ sep +:+ c.
Proof.
  induction cs as [|s [|s' cs] IH]; intros Hne; [done..|].
  change (Join ((s :: s' :: cs) ++ [c]) sep) with (s +:+ sep +:+ Join ((s' :: cs) ++ [c]) sep).
  rewrite IH by done. change (Join (s :: s' :: cs) sep) with (s +:+ sep +:+ Join (s' :: cs) sep).
  by rewrite !string_app_assoc.
Qed.

Lemma cut_last_app a b c : no_char c b = true -> cut_last (a +:+ String c b) c = Some (a, b).
Proof.
  intros Hb. assert (cut_last b c = None) as Hn.
  { induction b as [|d b IH]; cbn in *; [done|]. case_decide; [done|]. by rewrite IH. }
  induction a as [|d a IH]; cbn; [by rewrite Hn, decide_True|]. by rewrite IH.
Qed.

Lemma name_no_slash cs : Forall name cs -> Forall (fun s => no_char "/" s = true) cs.
Proof. intros Hcs. eapply Forall_impl; [exact Hcs|]. by intros c (_ & _ & _ & ?). Qed.

Lemma clean_step_name rooted out c : name c -> clean_step rooted out c = c :: out.
Proof. intros (? & ? & ? & _). unfold clean_step. by rewrite !decide_False by naive_solver. Qed.

Lemma clean_steps rooted cs out :
  Forall name cs -> fold_left (clean_step rooted) cs out = rev cs ++ out.
Proof.
  revert out. induction cs as [|c cs IH]; intros out Hcs; [done|].
  apply Forall_cons in Hcs as [Hc Hcs]. cbn [fold_left rev].
  by rewrite clean_step_name, IH, <- (assoc_L (++)).
Qed.

(** A clean path, also with slashes behind it or empty elements, stays. *)
Lemma Clean_elems cs s :
  Forall name cs -> Split s "/" = "" :: cs \/ Split s "/" = "" :: cs ++ [""] ->
  HasPrefix s "/" = true -> Clean s = abs_path cs.
Proof.
  intros Hcs Hs Hp. unfold Clean. rewrite decide_False by by intros ->.
  rewrite Hp. assert (fold_left (clean_step true) (Split s "/") [] = rev cs) as ->.
  { destruct Hs as [-> | ->]; cbn [fold_left]; change (clean_step true [] "") with (@nil string).
    - by rewrite clean_steps, app_nil_r.
    - rewrite fold_left_app, (clean_steps true cs), app_nil_r by done. cbn [fold_left].
      unfold clean_step. by rewrite decide_True by auto. }
  by rewrite rev_involutive.
Qed.

Lemma Split_abs cs :
  cs <> [] -> Forall name cs -> Split (abs_path cs) "/" = "" :: cs.
Proof.
  intros Hne Hcs. unfold abs_path. cbn [String.append Split].
  rewrite decide_True by done. f_equal. by apply Split_Join, name_no_slash.
Qed.

Lemma Clean_abs cs : Forall name cs -> Clean (abs_path cs) = abs_path cs.
Proof.
  intros Hcs. destruct cs as [|c cs]; [done|].
  apply Clean_elems; [done|left; by apply Split_abs|done].
Qed.

Lemma Split_app_last s x c : Split (s +:+ String c x) c = Split s c ++ Split x c.
Proof.
  induction s as [|d s IH]; cbn; [by rewrite decide_True|].
  case_decide; [by rewrite IH|]. rewrite IH.
  destruct (Split s c) as [|t ts] eqn:E; [|done].
  exfalso. clear -E. destruct s; cbn in E; [done|]. case_decide; [done|].
  by destruct (Split s c).
Qed.

Lemma path_Dir_abs cs c : Forall name cs -> name c -> path_Dir (abs_path (cs ++ [c])) = abs_path cs.
Proof.
  intros Hcs Hc. unfold path_Dir.
  assert (exists d, abs_path (cs ++ [c]) = d +:+ String "/" c /\ Clean (d +:+ "/") = abs_path cs)
    as (d & -> & Hd).
  { destruct cs as [|c' cs]; [by exists ""|]. exists (abs_path (c' :: cs)). split.
    - unfold abs_path. by rewrite Join_snoc, <- string_app_assoc by done.
    - apply Clean_elems; [done| |done]. right.
      rewrite (Split_app_last _ ""), Split_abs by done. done. }
  destruct Hc as (_ & _ & _ & Hc). by rewrite cut_last_app.
Qed.

Lemma Clean_root_elems cs s :
  Forall name cs -> Split s "/" = "" :: "" :: cs -> HasPrefix s "/" = true -> Clean s = abs_path cs.
Proof.
  intros Hcs Hs Hp. unfold Clean. rewrite decide_False by by intros ->. rewrite Hp, Hs.
  cbn [fold_left]. change (clean_step true (clean_step true [] "") "") with (@nil string).
  by rewrite clean_steps, app_nil_r, rev_involutive.
Qed.

Lemma Join_abs cs c :
  Forall name cs -> name c -> filepath_Join [abs_path cs; c] = abs_path (cs ++ [c]).
Proof.
  intros Hcs Hc. assert (Split c "/" = [c]) as Hs by (apply Split_no_char; by destruct Hc as (_ & _ & _ & ?)).
  assert (filepath_Join [abs_path cs; c] = Clean (abs_path cs +:+ String "/" c)) as -> by done.
  destruct cs as [|c' cs].
  - apply Clean_root_elems; [by constructor| |done]. rewrite Split_app_last, Hs. done.
  - apply Clean_elems; [by apply Forall_app_2; [|constructor]| |done]. left.
    by rewrite Split_app_last, Hs, Split_abs by done.
Qed.

Lemma IsAbs_Clean s : IsAbs s = true -> IsAbs (Clean s) = true.
Proof.
  unfold IsAbs. intros Hs. unfold Clean. case_decide; [by subst|]. by rewrite Hs.
Qed.

Lemma IsAbs_app s t : IsAbs s = true -> IsAbs (s +:+ t) = true.
Proof. unfold IsAbs. rewrite !HasPrefix_true. intros [r ->]. eexists. by rewrite string_app_assoc. Qed.

Lemma IsAbs_Join s es : IsAbs s = true -> IsAbs (filepath_Join (s :: es)) = true.
Proof.
  intros Hs. cbn [filepath_Join]. rewrite decide_False by by intros ->. apply IsAbs_Clean.
  destruct es as [|e es]; [done|]. change (Join (s :: e :: es) "/") with (s +:+ "/" +:+ Join (e :: es) "/").
  by apply IsAbs_app.
Qed.

(** ** Clean paths in general

    What [Clean] keeps of a path: whether it starts at the root, and its
    elements, the last first. *)
Definition render (rooted : bool) (out : list string) : string :=
  if rooted then "/" +:+ Join (rev out) "/"
  else match rev out with [] => "." | _ => Join (rev out) "/" end.

Definition elems (s : string) : list string :=
  fold_left (clean_step (HasPrefix s "/")) (Split s "/") [].

Fixpoint normal (rooted : bool) (out : list string) : Prop :=
  match out with
  | [] => True
  | c :: out' =>
      normal rooted out' /\
      (name c \/ (c = ".." /\ rooted = false /\ match out' with [] => True | d :: _ => d = ".." end))
  end.

Lemma Clean_render s : s <> "" -> Clean s = render (HasPrefix s "/") (elems s).
Proof. intros Hs. unfold Clean, render, elems. by rewrite decide_False. Qed.

Lemma clean_step_normal rooted out c :
  no_char "/" c = true -> normal rooted out -> normal rooted (clean_step rooted out c).
Proof.
  intros Hc Hout. unfold clean_step. case_decide as H1; [done|]. case_decide as H2.
  - subst. destruct out as [|d out]; [destruct rooted; cbn; naive_solver|].
    case_decide as H3; [subst|by destruct Hout].
    split; [done|]. right. destruct Hout as [_ [(_ & _ & ? & _)|(_ & ? & _)]]; [done|]. auto.
  - split; [done|]. left. unfold name. naive_solver.
Qed.

Lemma Split_no_sep s c : Forall (fun x => no_char c x = true) (Split s c).
Proof.
  induction s as [|d s IH]; cbn; [by constructor|]. case_decide as Hd; [by constructor|].
  destruct (Split s c) as [|t ts].
  - constructor; [cbn; by rewrite decide_False|done].
  - apply Forall_cons in IH as [Ht Hts]. constructor; [cbn; by rewrite decide_False|done].
Qed.

Lemma clean_steps_normal rooted cs out :
  Forall (fun x => no_char "/" x = true) cs -> normal rooted out ->
  normal rooted (fold_left (clean_step rooted) cs out).
Proof.
  revert out. induction cs as [|c cs IH]; intros out Hcs Hout; [done|].
  apply Forall_cons in Hcs as [Hc Hcs]. cbn. apply IH; [done|]. by apply clean_step_normal.
Qed.

Lemma elems_normal s : normal (HasPrefix s "/") (elems s).
Proof. apply clean_steps_normal; [apply Split_no_sep|done]. Qed.

(** The elements of a clean path are found again. *)
Lemma clean_steps_rev rooted out :
  normal rooted out -> fold_left (clean_step rooted) (rev out) [] = out.
Proof.
  induction out as [|c out IH]; [done|]. intros [Hout Hc]. cbn [rev].
  rewrite fold_left_app, IH by done. cbn [fold_left].
  destruct Hc as [Hc|(-> & -> & Hd)]; [by apply clean_step_name|].
  destruct out as [|d out]; [done|]. subst d. unfold clean_step.
  rewrite decide_False by naive_solver. by rewrite !decide_True.
Qed.

Lemma normal_no_slash rooted out : normal rooted out -> Forall (fun x => no_char "/" x = true) (rev out).
Proof.
  intros Hout. apply Forall_rev. induction out as [|c out IH]; [done|].
  destruct Hout as [Hout [(_ & _ & _ & Hc)|(-> & _)]]; constructor; auto.
Qed.

Lemma normal_ne rooted out c : normal rooted out -> c ∈ out -> c <> "".
Proof.
  induction out as [|d out IH]; [by intros _ ?%not_elem_of_nil|].
  intros [Hout Hd] [->|Hc]%elem_of_cons; [|auto]. destruct Hd as [[? _]|(-> & _)]; done.
Qed.

Lemma render_prefix rooted out : normal rooted out -> HasPrefix (render rooted out) "/" = rooted.
Proof.
  intros Hout. unfold render. destruct rooted; [done|]. destruct (rev out) as [|c cs] eqn:E; [done|].
  pose proof (normal_no_slash _ _ Hout) as Hs. rewrite E in Hs. apply Forall_cons in Hs as [Hs _].
  assert (c <> "") as Hne.
  { eapply normal_ne; [exact Hout|]. apply list_elem_of_In, in_rev. rewrite E. by left. }
  destruct c as [|a c]; [done|]. cbn in Hs.
  assert (a <> "/"%char) as Ha by (intros ->; done).
  destruct cs; unfold HasPrefix; cbn; by rewrite decide_False.
Qed.

Lemma Split_render rooted out :
  normal rooted out ->
  Split (render rooted out) "/" =
  (if rooted then "" :: match out with [] => [""] | _ => rev out end
   else match out with [] => ["."] | _ => rev out end).
Proof.
  intros Hout. pose proof (normal_no_slash _ _ Hout) as Hs. unfold render.
  destruct rooted.
  - change (Split ("/" +:+ ?x) "/") with (if decide ("/"%char = "/"%char) then "" :: Split x "/" else
      match Split x "/" with t :: ts => String "/" t :: ts | [] => [String "/" ""] end).
    rewrite decide_True by done. destruct out as [|c out]; [done|]. f_equal.
    apply Split_Join; [|done]. cbn. by destruct (rev out).
  - destruct out as [|c out]; [done|]. destruct (rev (c :: out)) as [|x xs] eqn:E.
    + cbn in E. by destruct (rev out).
    + by apply Split_Join.
Qed.

Lemma elems_render rooted out : normal rooted out -> elems (render rooted out) = out.
Proof.
  intros Hout. unfold elems. rewrite render_prefix, Split_render by done.
  destruct rooted, out as [|c out]; try done; cbn [fold_left].
  - change (clean_step true [] "") with (@nil string). by apply clean_steps_rev.
  - by apply clean_steps_rev.
Qed.

Lemma render_inj r1 out1 r2 out2 :
  normal r1 out1 -> normal r2 out2 -> render r1 out1 = render r2 out2 -> r1 = r2 /\ out1 = out2.
Proof.
  intros H1 H2 He. split.
  - by rewrite <- (render_prefix r1 out1), He, render_prefix.
  - by rewrite <- (elems_render r1 out1), He, elems_render.
Qed.

Lemma render_ne rooted out : normal rooted out -> render rooted out <> "".
Proof.
  intros Hout E. pose proof (elems_render _ _ Hout) as He. pose proof (render_prefix _ _ Hout) as Hp.
  rewrite E in *. cbn in *. subst. done.
Qed.

Lemma Clean_idem s : Clean (Clean s) = Clean s.
Proof.
  destruct (decide (s = "")) as [->|Hs]; [done|]. pose proof (elems_normal s) as Hn.
  rewrite (Clean_render s) by done. rewrite Clean_render by by apply render_ne.
  by rewrite render_prefix, elems_render.
Qed.

Lemma Clean_Join s es :
  IsAbs s = true -> Clean (filepath_Join (s :: es)) = filepath_Join (s :: es).
Proof.
  intros Hs. cbn [filepath_Join]. rewrite decide_False by by intros ->. apply Clean_idem.
Qed.

(** ** Joining to a path *)
Lemma HasPrefix_app s t : s <> "" -> HasPrefix (s +:+ t) "/" = HasPrefix s "/".
Proof. destruct s as [|c s]; [done|]. intros _. unfold HasPrefix. cbn. by case_decide. Qed.

Lemma Join_elems d x :
  d <> "" ->
  filepath_Join [d; x] =
  render (HasPrefix d "/") (fold_left (clean_step (HasPrefix d "/")) (Split x "/") (elems d)).
Proof.
  intros Hd. assert (filepath_Join [d; x] = Clean (d +:+ String "/" x)) as ->
    by (cbn [filepath_Join]; by rewrite decide_False).
  rewrite Clean_render by by destruct d. unfold elems.
  by rewrite HasPrefix_app, Split_app_last, fold_left_app by done.
Qed.

Lemma name_relative n : name n -> IsAbs n = false.
Proof.
  intros (Hne & _ & _ & Hs). destruct n as [|c n]; [done|]. cbn in Hs. unfold IsAbs, HasPrefix. cbn.
  by repeat case_decide.
Qed.

Lemma Join_name d n : d <> "" -> name n -> filepath_Join [d; n] = render (HasPrefix d "/") (n :: elems d).
Proof.
  intros Hd Hn. rewrite Join_elems by done. rewrite Split_no_char by by destruct Hn as (_ & _ & _ & ?).
  cbn [fold_left]. by rewrite clean_step_name.
Qed.

Lemma normal_cons rooted out n : name n -> normal rooted out -> normal rooted (n :: out).
Proof. split; auto. Qed.

Lemma Join_name_render rooted out n :
  normal rooted out -> name n -> filepath_Join [render rooted out; n] = render rooted (n :: out).
Proof.
  intros Hout Hn. rewrite Join_name by (done || by apply render_ne).
  by rewrite render_prefix, elems_render.
Qed.

(** The directory and the base of a clean path. *)
Lemma path_Dir_render rooted out n :
  normal rooted out -> name n -> path_Dir (render rooted (n :: out)) = render rooted out.
Proof.
  intros Hout Hn. assert (no_char "/" n = true) as Hs by by destruct Hn as (_ & _ & _ & ?).
  unfold path_Dir.
  destruct out as [|c out].
  { destruct rooted; cbn [render rev app Join].
    - change ("/" +:+ n) with ("" +:+ String "/" n). by rewrite cut_last_app.
    - assert (cut_last n "/" = None) as ->; [|done].
      clear Hn. induction n as [|a n IH]; [done|]. cbn in *. case_decide; [done|]. by rewrite IH. }
  assert (render rooted (n :: c :: out) = render rooted (c :: out) +:+ String "/" n) as ->.
  { unfold render. assert (rev (n :: c :: out) = rev (c :: out) ++ [n]) as -> by done.
    assert (rev (c :: out) <> []) as Hne by (cbn; by destruct (rev out)).
    rewrite Join_snoc by done. destruct rooted; [by rewrite <- string_app_assoc|].
    destruct (rev (c :: out)) eqn:E; [done|]. done. }
  rewrite cut_last_app by done.
  rewrite Clean_render by (pose proof (render_ne _ _ Hout); by destruct (render rooted (c :: out))).
  assert (HasPrefix (render rooted (c :: out) +:+ "/") "/" = rooted) as Hp
    by (rewrite HasPrefix_app by (by apply render_ne); by apply render_prefix).
  rewrite Hp. f_equal. unfold elems. rewrite Hp, (Split_app_last _ ""), fold_left_app.
  pose proof (elems_render _ _ Hout) as He. unfold elems in He. rewrite render_prefix in He by done.
  rewrite He. cbn [Split fold_left]. unfold clean_step. by rewrite decide_True by auto.
Qed.

Lemma Clean_ne s : Clean s <> "".
Proof.
  destruct (decide (s = "")) as [->|Hs]; [done|]. rewrite Clean_render by done.
  apply render_ne, elems_normal.
Qed.

Lemma Join_ne a b : b <> "" -> filepath_Join [a; b] <> "".
Proof.
  intros Hb. cbn [filepath_Join]. destruct (decide (a = "")); [rewrite decide_False by done|]; apply Clean_ne.
Qed.

Lemma Join_length cs sep : Forall name cs -> length cs <= String.length (Join cs sep).
Proof.
  induction cs as [|c [|c' cs] IH]; intros Hcs; [cbn; lia|..]; apply Forall_cons in Hcs as [[Hc _] Hcs].
  - destruct c; [done|]. cbn. lia.
  - change (Join (c :: c' :: cs) sep) with (c +:+ sep +:+ Join (c' :: cs) sep).
    rewrite !string_length_app. specialize (IH Hcs). destruct c; [done|]. cbn [length String.length] in *. lia.
Qed.

(** ** [Rel]: from the base, the relative path leads to the target. *)
Lemma normal_names out : normal true out -> Forall name out.
Proof.
  induction out as [|c out IH]; intros Hout; [constructor|]. destruct Hout as [Hout [Hc|(_ & ? & _)]]; [|done].
  constructor; auto.
Qed.

Lemma filter_names cs : Forall name cs -> List.filter (fun c => negb (bool_decide (c = ""))) cs = cs.
Proof.
  induction 1 as [|c cs [Hc _] _ IH]; [done|]. cbn. rewrite bool_decide_false by done. cbn. by rewrite IH.
Qed.

Lemma rel_elems_render out : normal true out -> rel_elems (render true out) = rev out.
Proof.
  intros Hout. unfold rel_elems. rewrite decide_False by done.
  rewrite Split_render by done. cbn [List.filter]. rewrite bool_decide_true by done. cbn [negb].
  destruct out as [|c out]; [done|]. apply filter_names, Forall_rev. by apply normal_names.
Qed.

Lemma strip_common_app b t b' t' :
  strip_common b t = (b', t') -> exists p, b = p ++ b' /\ t = p ++ t'.
Proof.
  revert t. induction b as [|x b IH]; intros t; destruct t as [|y t]; cbn;
    [intros [= <- <-]; by exists []..|]. case_decide as E.
  - subst. intros (p & -> & ->)%IH. by exists (y :: p).
  - intros [= <- <-]. by exists [].
Qed.

Lemma clean_dotdots rooted n out : Forall name out -> n <= length out ->
  fold_left (clean_step rooted) (repeat ".." n) out = drop n out.
Proof.
  revert out. induction n as [|n IH]; intros out Ho Hn; [done|]. destruct out as [|c out]; [cbn in Hn; lia|].
  apply Forall_cons in Ho as [(_ & _ & Hc & _) Ho]. cbn [repeat fold_left drop].
  assert (clean_step rooted (c :: out) ".." = out) as ->
    by (unfold clean_step; by rewrite decide_False, decide_True, decide_False by naive_solver).
  apply IH; [done|]. cbn in Hn. lia.
Qed.

Lemma Rel_Join base targ r :
  IsAbs base = true -> IsAbs targ = true -> Rel base targ = Ok r ->
  filepath_Join [base; r] = Clean targ.
Proof.
  intros Hb Ht Hr. assert (base <> "" /\ targ <> "") as [Hb0 Ht0] by (split; by intros ->).
  unfold IsAbs in Hb, Ht. pose proof (elems_normal base) as Nb. pose proof (elems_normal targ) as Nt.
  rewrite Hb in Nb. rewrite Ht in Nt.
  assert (Clean base = render true (elems base)) as Eb by (by rewrite Clean_render, Hb).
  assert (Clean targ = render true (elems targ)) as Et by (by rewrite Clean_render, Ht).
  unfold Rel in Hr. rewrite Eb, Et in Hr. rewrite Et.
  rewrite Join_elems, Hb by done. case_decide as E.
  { apply render_inj in E as [_ E]; [|done..]. injection Hr as <-. rewrite E.
    change (Split "." "/") with ["."]. cbn [fold_left]. unfold clean_step.
    rewrite decide_True by auto. done. }
  unfold IsAbs in Hr. rewrite !render_prefix, !rel_elems_render in Hr by done.
  cbn [Bool.eqb negb] in Hr.
  assert (match rev (elems targ) with [] => [] | cs => cs end = rev (elems targ)) as Hm
    by by destruct (rev (elems targ)).
  rewrite Hm in Hr.
  destruct (strip_common (rev (elems base)) (rev (elems targ))) as [b t] eqn:Es.
  apply strip_common_app in Es as (p & Hpb & Hpt).
  assert (Forall name (rev (elems base)) /\ Forall name (rev (elems targ))) as [Fb Ft]
    by (split; apply Forall_rev; by apply normal_names).
  assert (r = Join (repeat ".." (length b) ++ t) "/") as ->.
  { assert (map (fun _ => "..") b = repeat ".." (length b)) as <-
      by (clear; induction b; cbn; by f_equal).
    destruct b as [|x b]; [by injection Hr as <-|].
    rewrite Hpb in Fb. apply Forall_app in Fb as [_ [(_ & _ & Hx & _) _]%Forall_cons].
    revert Hr. repeat case_match; try (by intros [= <-]); simplify_eq; done. }
  rewrite Split_Join; [|intros En|].
  - rewrite fold_left_app, <- (rev_involutive (elems base)), Hpb, rev_app_distr.
    rewrite Hpb in Fb. rewrite Hpt in Ft. apply Forall_app in Fb as [Fp Fb], Ft as [_ Ft].
    rewrite clean_dotdots, drop_app_length', clean_steps; try done.
    + by rewrite <- rev_app_distr, <- Hpt, rev_involutive.
    + by rewrite length_rev.
    + apply Forall_app; split; by apply Forall_rev.
    + rewrite length_app, length_rev. lia.
  - destruct b as [|? b]; [|done]. cbn in En. subst t. rewrite app_nil_r in Hpb, Hpt.
    apply E. f_equal. rewrite <- (rev_involutive (elems targ)), Hpt, <- Hpb. apply rev_involutive.
  - apply Forall_app. split; [clear; by induction (length b); repeat constructor|].
    rewrite Hpt in Ft. apply Forall_app in Ft as [_ Ft]. by apply name_no_slash.
Qed.
