(* ===== verification/GoOs.v ===== *)
(** * The operating system, as far as the sources observe it, and the file
    helpers of [cli/util/util.go]

    A world [W] holds the working directory, the environment and the files; the
    class [OS] has the calls of Go's [os], [os/exec] and [path/filepath]
    packages that the modelled code makes.  The calls that only observe take the
    world and give a value; [Chdir] gives the next world. *)
From S2P Require Import Prelude GoStrings GoPath.

Inductive FileKind := RegularFile | Directory | Symlink | Socket | OtherFile.

#[export] Instance FileKind_eq_dec : EqDecision FileKind.
Proof. solve_decision. Defined.

(** [os.FileInfo]; [fi_file] identifies the file for [os.SameFile]. *)
Record FileInfo := mkFileInfo { fi_Name : string; fi_Kind : FileKind; fi_file : Z }.

Definition IsDir_info (fi : FileInfo) : bool := bool_decide (fi_Kind fi = Directory).
Definition SameFile (a b : FileInfo) : bool := (fi_file a =? fi_file b)%Z.

Class OS (W : Type) := {
  Getwd : W -> result string;
  Chdir : W -> string -> result W;
  Getenv : W -> string -> string;
  Stat : W -> string -> result FileInfo;
  Glob : W -> string -> result (list string);
  ReadDir : W -> string -> result (list string);
  ReadFile : W -> string -> result string;
  LookPath : W -> string -> result string;
  EvalSymlinks : W -> string -> result string;
  Executable : W -> result string
}.

(** [os.ErrNotExist] and the errors that [os.IsNotExist] accepts. *)
Definition ErrNotExist : error := Errorf "file does not exist" [].

Definition IsNotExist (e : error) : bool :=
  match e with
  | Errorf f args => bool_decide (f = "file does not exist") && bool_decide (args = [])
  | _ => false
  end.

Section util.
Context {W : Type} `{OS W} (w : W).

(** [filepath.Abs]. *)
Definition Abs (path : string) : result string :=
  if IsAbs path then Ok (Clean path)
  else match Getwd w with Err e => Err e | Ok wd => Ok (filepath_Join [wd; path]) end.

Definition IsDir (filePath : string) : bool :=
  match Stat w filePath with Err _ => false | Ok fileInfo => IsDir_info fileInfo end.

Definition IsRegularFile (filePath : string) : bool :=
  match Stat w filePath with
  | Err _ => false
  | Ok fileInfo => bool_decide (fi_Kind fileInfo = RegularFile)
  end.

Definition is_file_not_dir (filePath : string) : bool :=
  match Stat w filePath with Ok fileInfo => negb (IsDir_info fileInfo) | Err _ => false end.

Definition IsApp (path : string) : bool :=
  match Stat w path with
  | Err _ => false
  | Ok entry =>
      if IsDir_info entry then
        existsb (fun fileTocheck => is_file_not_dir (filepath_Join [path; fileTocheck]))
          ["init.lua"; "instances.yml"; "instances.yaml"]
      else bool_decide (path_Ext (fi_Name entry) = ".lua")
  end.

Definition CollectAppList (baseDir appsPath : string) : result (list string) :=
  if bool_decide (appsPath = ".") && IsApp baseDir then Ok [path_Base baseDir]
  else
    let appsPath := if decide (appsPath = ".") then baseDir else appsPath in
    match ReadDir w appsPath with
    | Err e => Err e
    | Ok dirEntries =>
        Ok (List.filter (fun name => IsApp (filepath_Join [appsPath; name])) dirEntries)
    end.

Definition getMissedBinaries (binaries : list string) : list string :=
  List.filter (fun binary => negb (is_ok (LookPath w binary))) binaries.

Definition CheckRequiredBinaries (binaries : list string) : option error :=
  let missedBinaries := getMissedBinaries binaries in
  if decide (0 < length missedBinaries) then
    Some (Errorf "missed required binaries %s" [Join missedBinaries ", "])
  else None.

Definition is_yaml_name (fileName : string) : bool :=
  bool_decide (path_Ext fileName = ".yaml") || bool_decide (path_Ext fileName = ".yml").

Definition GetYamlFileName (fileName : string) (mustExist : bool) : result string :=
  let search fileBaseName :=
    match Glob w (fileBaseName +:+ ".y*ml") with
    | Err e => Err e
    | Ok foundFiles =>
        let foundYamlFiles := List.filter is_yaml_name foundFiles in
        match foundYamlFiles with
        | _ :: _ :: _ =>
            Err (Errorf "more than one YAML files are found:
%s
Ambiguous selection" [Join foundYamlFiles ", "])
        | [f] => Ok f
        | [] => if negb mustExist then Ok "" else Err ErrNotExist
        end
    end in
  if decide (path_Ext fileName = ".yaml") then search (TrimSuffix fileName ".yaml")
  else if decide (path_Ext fileName = ".yml") then search (TrimSuffix fileName ".yml")
  else Err (Errorf "provided file '%s' has no .yaml/.yml extension" [fileName]).

End util.

(** ** Paths and lists *)
Definition JoinPaths (paths : list string) : string :=
  fold_left (fun path pathPart =>
    if IsAbs pathPart then pathPart else filepath_Join [path; pathPart]) paths "".

Definition JoinAbspath {W} `{OS W} (w : W) (paths : list string) : result string :=
  match Abs w (JoinPaths paths) with
  | Err e => Err (Wrapf "failed to get absolute path: %s" [] e)
  | Ok path => Ok path
  end.

Fixpoint Find_from (i : Z) (src : list string) (find : string) : Z :=
  match src with
  | [] => (-1)%Z
  | elem :: src => if decide (find = elem) then i else Find_from (i + 1) src find
  end.
Definition Find (src : list string) (find : string) : Z := Find_from 0 src find.
