(* ===== verification/GoFs.v ===== *)
(** * Changes of the file system, and the helpers of [cli/util] that make them

    Code that changes the world and may fail is a computation of the monad [io].
    The class [Files] has the calls of Go's [os] package that change files or
    look at links, beside those of [GoOs.OS]; the definitions below it are the
    functions of [cli/util/util.go] and [cli/util/execute.go] over them. *)
From S2P Require Import Prelude GoStrings GoPath GoOs.
Local Open Scope Z_scope.

(** ** Computations

    A failed computation may have changed the world. *)
Definition io (W A : Type) : Type := W -> result A * W.

Definition ret {W A} (a : A) : io W A := fun w => (Ok a, w).
Definition throw {W A} (e : error) : io W A := fun w => (Err e, w).
Definition io_bind {W A B} (f : A -> io W B) (m : io W A) : io W B := fun w =>
  match m w with
  | (Err e, w) => (Err e, w)
  | (Ok a, w) => f a w
  end.
(** A look at the world. *)
Definition look {W A} (f : W -> result A) : io W A := fun w => (f w, w).
Definition ask {W A} (f : W -> A) : io W A := fun w => (Ok (f w), w).
(** The result and the error of a call as a value. *)
Definition attempt {W A} (m : io W A) : io W (result A) := fun w =>
  let '(r, w) := m w in (Ok r, w).
(** [defer cleanup]: it runs when the body has returned, and its error is lost. *)
Definition finally {W A} (cleanup : io W unit) (body : io W A) : io W A := fun w =>
  let '(r, w) := body w in (r, (cleanup w).2).
(** [fmt.Errorf] around the error of a call. *)
Definition io_wrap {W A} (f : string) (args : list string) (m : io W A) : io W A := fun w =>
  let '(r, w) := m w in (rwrap f args r, w).

Declare Scope io_scope.
Delimit Scope io_scope with io.
Notation "x <- m ;; k" := (io_bind (fun x => k) m)
  (at level 100, m at next level, right associativity) : io_scope.
Notation "m ;;; k" := (io_bind (fun _ => k) m)
  (at level 100, right associativity) : io_scope.
Local Open Scope io_scope.

Lemma io_bind_Ok {W A B} (f : A -> io W B) (m : io W A) w b w' :
  io_bind f m w = (Ok b, w') -> exists a w1, m w = (Ok a, w1) /\ f a w1 = (Ok b, w').
Proof. unfold io_bind. destruct (m w) as [[a|e] w1]; [eauto|done]. Qed.

Lemma io_wrap_Ok {W A} f args (m : io W A) w a w' : io_wrap f args m w = (Ok a, w') -> m w = (Ok a, w').
Proof. unfold io_wrap. destruct (m w) as [[x|e] w1]; cbn [rwrap]; [done|by intros [= ]]. Qed.

Lemma look_Ok {W A} (f : W -> result A) w a w' : look f w = (Ok a, w') -> f w = Ok a /\ w' = w.
Proof. unfold look. by intros [= -> ->]. Qed.

Lemma io_bind_ask {W A B} (f : A -> io W B) (g : W -> A) w : io_bind f (ask g) w = f (g w) w.
Proof. done. Qed.

Lemma io_bind_look {W A B} (f : A -> io W B) (g : W -> result A) w :
  io_bind f (look g) w = match g w with Ok a => f a w | Err e => (Err e, w) end.
Proof. unfold io_bind, look. by destruct (g w). Qed.

(** A loop whose body may fail. *)
Fixpoint io_for {W A} (body : A -> io W unit) (xs : list A) : io W unit :=
  match xs with
  | [] => ret tt
  | x :: xs => body x ;;; io_for body xs
  end.

(** ** The file system *)

(** An entry of [os.ReadDir]: its name and whether it is a directory (links are
    not followed). *)
Record DirEntry := mkDirEntry { entry_Name : string; entry_IsDir : bool }.

Class Files (W : Type) := {
  os_Readlink : W -> string -> result string;
  os_ReadDir : W -> string -> result (list DirEntry);
  (** [Mode().Perm()] of [os.Stat]. *)
  os_Perm : W -> string -> result Z;
  os_Remove : string -> io W unit;
  os_RemoveAll : string -> io W unit;
  os_Symlink : string -> string -> io W unit;
  os_MkdirAll : string -> Z -> io W unit;
  os_WriteFile : string -> string -> Z -> io W unit
}.

(** Calls on directory trees; a [Lstat] does not follow a link. *)
Class Trees (W : Type) := {
  os_Lstat : W -> string -> result FileInfo;
  os_Mkdir : string -> Z -> io W unit;
  os_Chmod : string -> Z -> io W unit;
  os_Rename : string -> string -> io W unit
}.

(** ** [filepath.Walk] with a function that ends the walk when it gets an error

    The names in a directory are read before the function gets the directory; each
    file is looked at when it is its turn; [a] is what the function has collected.
    A path is shorter than [PATH_MAX], so no directory is deeper than
    [max_depth]. *)
Definition max_depth : nat := Z.to_nat 4096.

Fixpoint io_fold {W A B} (body : B -> A -> io W A) (xs : list B) (a : A) : io W A :=
  match xs with
  | [] => ret a
  | x :: xs => a <- body x a ;; io_fold body xs a
  end.

Section walk.
Context {W A : Type} `{Files W, Trees W} (fn : string -> FileInfo -> A -> io W A).

Fixpoint walk_tree (fuel : nat) (path : string) (info : FileInfo) (a : A) : io W A :=
  if IsDir_info info then
    match fuel with
    | O => throw (Errorf "file name too long" [])
    | S fuel =>
        entries <- look (fun w => os_ReadDir w path) ;;
        a <- fn path info a ;;
        io_fold (fun e a =>
          let filename := filepath_Join [path; entry_Name e] in
          info <- look (fun w => os_Lstat w filename) ;;
          walk_tree fuel filename info a) entries a
    end
  else fn path info a.

Definition filepath_Walk (root : string) (a : A) : io W A :=
  info <- look (fun w => os_Lstat w root) ;;
  walk_tree max_depth root info a.
End walk.

Section util.
Context {W : Type} `{OS W, Files W}.

(** *** [BitHas32] and [IsExecOwner] *)
Definition BitHas32 (b flag : Z) : bool := negb (Z.land b flag =? 0).
Definition execOwnerPerm : Z := 64.

Definition IsExecOwner (w : W) (path : string) : result bool :=
  rmap (fun perm => BitHas32 perm execOwnerPerm) (os_Perm w path).

(** *** Links *)
Definition CreateSymlink (oldName newName : string) (overwrite : bool) : io W unit :=
  stat <- ask (fun w => Stat w newName) ;;
  match stat with
  | Ok _ =>
      if overwrite then os_Remove newName ;;; os_Symlink oldName newName
      else throw (Errorf "symbolic link cannot be created: '%s' already exists" [newName])
  | Err err =>
      if IsNotExist err then os_Symlink oldName newName
      else throw (Wrapf "symbolic link cannot be created: %s" [] err)
  end.

Definition ResolveSymlink (w : W) (linkPath : string) : result string :=
  rmap (fun resolvedLink =>
    if IsAbs resolvedLink then resolvedLink else filepath_Join [path_Dir linkPath; resolvedLink])
    (EvalSymlinks w linkPath).

(** *** Copies and directories *)
Definition CopyFilePreserve (src dst : string) : io W unit :=
  perm <- look (fun w => os_Perm w src) ;;
  data <- look (fun w => ReadFile w src) ;;
  os_WriteFile dst data perm.

Definition CopyFileChangePerms (src dst : string) (perms : Z) : io W unit :=
  look (fun w => Stat w src) ;;;
  data <- look (fun w => ReadFile w src) ;;
  os_WriteFile dst data perms.

Definition CreateDirectory (dirName : string) (fileMode : Z) : io W unit :=
  stat <- ask (fun w => Stat w dirName) ;;
  match stat with
  | Err err => if IsNotExist err then os_MkdirAll dirName fileMode else throw err
  | Ok stat =>
      if IsDir_info stat then ret tt
      else throw (Errorf "'%s' already exists and is not a directory" [dirName])
  end.
End util.

(** * Containers ([cli/docker/docker.go])

    The client of Docker is the class [Docker]; the image is built, a container is
    created, started and waited for, and removed at the end. *)
Local Open Scope Z_scope.
Local Open Scope io_scope.

Record RunOptions := mkRunOptions {
  BuildCtxDir : string; ImageTag : string; docker_Command : list string; docker_Binds : list string;
  docker_Verbose : bool
}.

Definition dockerFileName : string := "Dockerfile".

(** What [ContainerWait] gives: an error, or the status of the container. *)
Inductive wait_result := WaitError (err : option error) | WaitStatus (code : Z).

Class Docker (W : Type) := {
  docker_NewClient : io W unit;
  (** [archive.TarWithOptions] of a directory, [ImageBuild] with the name of the
      Dockerfile and the tag: whether there is an answer to show; showing it. *)
  docker_Tar : string -> io W unit;
  docker_ImageBuild : string -> string -> io W bool;
  docker_Display : bool -> io W unit;
  (** Whether an interrupt has canceled the operation. *)
  docker_Canceled : W -> bool;
  user_Current : W -> result (string * string);
  (** [ContainerCreate] of an image, a command, a user and bound directories. *)
  docker_ContainerCreate : string -> list string -> string -> list string -> io W string;
  docker_ContainerStart : string -> io W unit;
  docker_ContainerLogs : string -> io W unit;
  docker_ContainerWait : string -> io W wait_result;
  docker_ContainerStop : string -> io W unit;
  docker_ContainerRemove : string -> io W unit
}.

Section Docker.
Context {W : Type} `{OS W, Files W, Docker W}.

Definition buildDockerImage (imageTag buildContextDir : string) (verbose : bool) : io W unit :=
  docker_Tar buildContextDir ;;;
  answer <- io_wrap "docker image build failed: %s" [] (docker_ImageBuild dockerFileName imageTag) ;;
  if answer : bool then
    shown <- attempt (docker_Display verbose) ;;
    match shown with
    | Ok _ => ret tt
    | Err err =>
        canceled <- ask docker_Canceled ;;
        throw (if canceled : bool then Errorf "the operation is interrupted" [] else err)
    end
  else ret tt.

(** The host directory of a bind, when it has a colon. *)
Definition host_dir (bind : string) : option string :=
  match Split bind ":" with
  | hostDir :: _ :: _ => if decide (hostDir <> "") then Some hostDir else None
  | _ => None
  end.

Definition createContainer (runOptions : RunOptions) : io W string :=
  io_for (fun bind => match host_dir bind with Some hostDir => os_MkdirAll hostDir 493 | None => ret tt end)
    (docker_Binds runOptions) ;;;
  currentUser <- look user_Current ;;
  docker_ContainerCreate (ImageTag runOptions) (docker_Command runOptions)
    (currentUser.1 +:+ ":" +:+ currentUser.2) (docker_Binds runOptions).

(** What waiting gives; an error of the other channel may be nil. *)
Definition wait_container (containerId : string) : io W unit :=
  r <- docker_ContainerWait containerId ;;
  match r with
  | WaitStatus code =>
      if code =? 0 then ret tt else throw (Errorf "container exit code is %d" [FormatInt code])
  | WaitError err =>
      canceled <- ask docker_Canceled ;;
      if canceled : bool then
        attempt (docker_ContainerStop containerId) ;;; throw (Errorf "the operation is interrupted" [])
      else match err with Some e => throw e | None => ret tt end
  end.

(** An error of [createContainer] is not returned. *)
Definition RunContainer (runOptions : RunOptions) : io W unit :=
  docker_NewClient ;;;
  buildDockerImage (ImageTag runOptions) (BuildCtxDir runOptions) (docker_Verbose runOptions) ;;;
  created <- attempt (createContainer runOptions) ;;
  match created with
  | Err _ => ret tt
  | Ok containerId =>
      finally (docker_ContainerRemove containerId) (
        docker_ContainerStart containerId ;;;
        docker_ContainerLogs containerId ;;;
        wait_container containerId)
  end.
End Docker.
