(* ===== verification/Configure.v ===== *)
(** * Configuration of tt itself ([cli/config/config.go],
    [cli/configure/configure.go], [cli/cmdcontext/cmdcontext.go])

    A pointer to a structure is an [option]; reading through a nil pointer is
    the error [nil_deref].  YAML and its decoding into structures, and the
    integrity repository, are parameters. *)
From S2P Require Import Prelude GoStrings GoPath GoOs.
Open Scope go_scope.

(** ** Options ([config.go]) *)
Record ModulesOpts := mkModulesOpts { mod_Directory : string }.
Record EEOpts := mkEEOpts { ee_CredPath : string }.
Record AppOpts := mkAppOpts {
  app_RunDir : string; app_LogDir : string; app_WalDir : string; app_MemtxDir : string;
  app_VinylDir : string }.
Record TtEnvOpts := mkTtEnvOpts {
  env_BinDir : string; env_IncludeDir : string; env_InstancesEnabled : string;
  env_Restartable : bool; env_TarantoolctlLayout : bool }.
Record TemplateOpts := mkTemplateOpts { tmpl_Path : string }.
Record RepoOpts := mkRepoOpts { repo_Rocks : string; repo_Install : string }.
Record CliOpts := mkCliOpts {
  opts_Env : option TtEnvOpts; opts_Modules : option ModulesOpts; opts_App : option AppOpts;
  opts_EE : option EEOpts; opts_Templates : list TemplateOpts; opts_Repo : option RepoOpts }.

Record DaemonOpts := mkDaemonOpts {
  daemon_PIDFile : string; daemon_Port : Z; daemon_LogDir : string; daemon_LogFile : string;
  daemon_ListenInterface : string; daemon_RunDir : string }.

Definition nil_deref {A} : result A :=
  Err (Errorf "panic: invalid memory address or nil pointer dereference" []).
Definition deref {A} (p : option A) : result A :=
  match p with Some a => Ok a | None => nil_deref end.

(** ** Constants and defaults ([configure.go]) *)
Definition ConfigName : string := "tt.yaml".
Definition cliExecutableName : string := "tt".
Definition systemConfigDirEnvName : string := "TT_SYSTEM_CONFIG_DIR".
Definition InstancesEnabledDirName : string := "instances.enabled".
Definition defaultDaemonPort : Z := 1024.
Definition defaultDaemonPidFile : string := "tt_daemon.pid".
Definition defaultDaemonLogFile : string := "tt_daemon.log".
Definition daemonCfgPath : string := "tt_daemon.yaml".
Definition configHomeEnvName : string := "XDG_CONFIG_HOME".

Definition BinPath : string := "bin".
Definition IncludePath : string := "include".
Definition ModulesPath : string := "modules".
Definition DistfilesPath : string := "distfiles".
Definition VarDataPath : string := filepath_Join ["var"; "lib"].
Definition VarWalPath : string := filepath_Join ["var"; "wal"].
Definition VarMemtxPath : string := filepath_Join ["var"; "snap"].
Definition VarVinylPath : string := filepath_Join ["var"; "vinyl"].
Definition VarLogPath : string := filepath_Join ["var"; "log"].
Definition VarRunPath : string := filepath_Join ["var"; "run"].

Definition getDefaultAppOpts : AppOpts :=
  mkAppOpts VarRunPath VarLogPath VarDataPath VarDataPath VarDataPath.

Definition getDefaultTtEnvOpts : TtEnvOpts := mkTtEnvOpts BinPath IncludePath "." false false.

Definition getSystemAppOpts : AppOpts :=
  let systemDataDir := filepath_Join ["/"; VarDataPath; "tarantool"] in
  mkAppOpts (filepath_Join ["/"; VarRunPath; "tarantool"])
    (filepath_Join ["/"; VarLogPath; "tarantool"]) systemDataDir systemDataDir systemDataDir.

Definition GetSystemCliOpts : CliOpts :=
  mkCliOpts (Some getDefaultTtEnvOpts) (Some (mkModulesOpts ModulesPath)) (Some getSystemAppOpts)
    (Some (mkEEOpts "")) [mkTemplateOpts "templates"] (Some (mkRepoOpts "" DistfilesPath)).

Definition GetDefaultCliOpts : CliOpts :=
  mkCliOpts (Some getDefaultTtEnvOpts) (Some (mkModulesOpts ModulesPath)) (Some getDefaultAppOpts)
    (Some (mkEEOpts "")) [mkTemplateOpts "templates"] (Some (mkRepoOpts "" DistfilesPath)).

Definition getDefaultDaemonOpts : DaemonOpts :=
  mkDaemonOpts defaultDaemonPidFile defaultDaemonPort VarLogPath defaultDaemonLogFile ""
    VarRunPath.

(** ** The context of a command ([cmdcontext.go]) *)
Record CliCtx := mkCliCtx {
  cli_IsSystem : bool;
  cli_LocalLaunchDir : string;
  cli_ConfigPath : string;
  cli_DaemonCfgPath : string;
  cli_IsTarantoolBinFromRepo : bool;
  cli_TarantoolExecutable : string;
  cli_IntegrityCheck : string;
  cli_IntegrityCheckPeriod : Z;
  cli_IsSelfExec : bool
}.

Definition set_ConfigPath (p : string) (c : CliCtx) : CliCtx :=
  mkCliCtx (cli_IsSystem c) (cli_LocalLaunchDir c) p (cli_DaemonCfgPath c)
    (cli_IsTarantoolBinFromRepo c) (cli_TarantoolExecutable c) (cli_IntegrityCheck c)
    (cli_IntegrityCheckPeriod c) (cli_IsSelfExec c).
Definition set_DaemonCfgPath (p : string) (c : CliCtx) : CliCtx :=
  mkCliCtx (cli_IsSystem c) (cli_LocalLaunchDir c) (cli_ConfigPath c) p
    (cli_IsTarantoolBinFromRepo c) (cli_TarantoolExecutable c) (cli_IntegrityCheck c)
    (cli_IntegrityCheckPeriod c) (cli_IsSelfExec c).
Definition set_Executable (p : string) (fromRepo : bool) (c : CliCtx) : CliCtx :=
  mkCliCtx (cli_IsSystem c) (cli_LocalLaunchDir c) (cli_ConfigPath c) (cli_DaemonCfgPath c)
    fromRepo p (cli_IntegrityCheck c) (cli_IntegrityCheckPeriod c) (cli_IsSelfExec c).

Definition ValidateCliOpts (cliCtx : CliCtx) : option error :=
  let integrity :=
    if bool_decide (String.length (cli_IntegrityCheck cliCtx) = 0)
       && negb (cli_IntegrityCheckPeriod cliCtx =? 0)%Z then
      Some (Errorf "need to specify public key in --integrity-check to use --integrity-check-period" [])
    else if (cli_IntegrityCheckPeriod cliCtx <? 0)%Z then
      Some (Errorf "--integrity-check-period must take non-negative value" [])
    else None in
  if decide (cli_LocalLaunchDir cliCtx <> "") then
    if cli_IsSystem cliCtx then
      Some (Errorf "you can specify only one of -L(--local) and -S(--system) options" [])
    else if decide (cli_ConfigPath cliCtx <> "") then
      Some (Errorf "you can specify only one of -L(--local), -c(--cfg) and 'TT_CLI_CFG' options" [])
    else integrity
  else if cli_IsSystem cliCtx && bool_decide (cli_ConfigPath cliCtx <> "") then
    Some (Errorf "you can specify only one of -S(--system), -c(--cfg) and 'TT_CLI_CFG' options" [])
  else integrity.

Fixpoint exclude_loop (skip : Z) (args filteredArgs : list string) : list string :=
  match args with
  | [] => filteredArgs
  | arg :: args =>
      if (0 <? skip)%Z then exclude_loop (skip - 1) args filteredArgs
      else if decide (arg = "-L" \/ arg = "--local") then exclude_loop 1 args filteredArgs
      else exclude_loop skip args (filteredArgs ++ [arg])
  end.
Definition excludeArgumentsForChildTt (args : list string) : list string := exclude_loop 0 args [].

Section configure.
Context {W : Type} `{OS W}.

(** ** Paths of the options *)
Definition adjustPathWithConfigLocation (w : W) (filePath configDir defaultDirName : string)
    : result string :=
  if decide (filePath = "") then
    if decide (defaultDirName = "") then Ok ""
    else Abs w (filepath_Join [configDir; defaultDirName])
  else if IsAbs filePath then Ok filePath
  else Abs w (filepath_Join [configDir; filePath]).

Fixpoint adjust_templates (w : W) (configDir : string) (ts : list TemplateOpts)
    : result (list TemplateOpts) :=
  match ts with
  | [] => Ok []
  | t :: ts =>
      p <-? adjustPathWithConfigLocation w (tmpl_Path t) configDir ".";;
      ts <-? adjust_templates w configDir ts;;
      Ok (mkTemplateOpts p :: ts)
  end.

Definition updateCliOpts (w : W) (cliOpts : CliOpts) (configDir : string) : result CliOpts :=
  env <-? deref (opts_Env cliOpts);;
  let enabled :=
    if decide (env_InstancesEnabled env = "") then "." else env_InstancesEnabled env in
  enabled <-?
    (if bool_decide (enabled <> ".") || (bool_decide (enabled = ".") && negb (IsApp w configDir))
     then adjustPathWithConfigLocation w enabled configDir "" else Ok enabled);;
  repo <-? deref (opts_Repo cliOpts);;
  bin <-? adjustPathWithConfigLocation w (env_BinDir env) configDir BinPath;;
  inc <-? adjustPathWithConfigLocation w (env_IncludeDir env) configDir IncludePath;;
  install <-? adjustPathWithConfigLocation w (repo_Install repo) configDir DistfilesPath;;
  rocks <-? adjustPathWithConfigLocation w (repo_Rocks repo) configDir "";;
  modules <-? match opts_Modules cliOpts with
              | None => Ok None
              | Some m =>
                  d <-? adjustPathWithConfigLocation w (mod_Directory m) configDir ModulesPath;;
                  Ok (Some (mkModulesOpts d))
              end;;
  templates <-? adjust_templates w configDir (opts_Templates cliOpts);;
  Ok (mkCliOpts
        (Some (mkTtEnvOpts bin inc enabled (env_Restartable env) (env_TarantoolctlLayout env)))
        modules (opts_App cliOpts) (opts_EE cliOpts) templates (Some (mkRepoOpts rocks install))).

(** ** Loading the options

    [Read] is the integrity repository, [decode path cfg] reads the YAML file
    and decodes it over [cfg]: [None] when the result is nil. *)
Context (Read : W -> string -> option error).
Context (decode : W -> string -> CliOpts -> result (option CliOpts)).
Context (decode_daemon : W -> string -> result (option DaemonOpts)).

Definition GetCliOpts (w : W) (configurePath : string) : result (CliOpts * string) :=
  let cfg := GetDefaultCliOpts in
  loaded <-?
    match GetYamlFileName w configurePath true with
    | Ok configPath =>
        match Abs w configPath with
        | Err e => Err (Wrapf "cannot determine config file path: %s" [] e)
        | Ok configPath =>
            match Read w configPath with
            | Some e => Err (Wrapf "failed to validate integrity of %q: %w" [configPath] e)
            | None =>
                match decode w configPath cfg with
                | Err e => Err (Wrapf "failed to parse Tarantool CLI configuration: %s" [] e)
                | Ok None => Err (Errorf
                    "failed to parse Tarantool CLI configuration: missing tt section" [])
                | Ok (Some cfg) => Ok (cfg, configPath)
                end
            end
        end
    | Err err =>
        if negb (IsNotExist err) then
          Err (Wrapf "failed to get access to configuration file: %s" [] err)
        else Ok (cfg, "")
    end;;
  let '(cfg, configPath) := loaded in
  configDir <-?
    (if decide (configPath = "") then Getwd w else Abs w (path_Dir configPath));;
  cfg <-? updateCliOpts w cfg configDir;;
  Ok (cfg, configPath).

Definition GetDaemonOpts (w : W) (configurePath : string) : result DaemonOpts :=
  if decide (configurePath = "") then Ok getDefaultDaemonOpts
  else
    match Stat w configurePath with
    | Err e => Err (Wrapf "failed to get access to daemon configuration file: %s" [] e)
    | Ok _ =>
        match decode_daemon w configurePath with
        | Err e => Err (Wrapf "failed to parse daemon configuration: %s" [] e)
        | Ok None => Err (Errorf "failed to parse daemon configuration: missing daemon section" [])
        | Ok (Some cfg) =>
            let or (s d : string) := if decide (s = "") then d else s in
            Ok (mkDaemonOpts (or (daemon_PIDFile cfg) defaultDaemonPidFile)
                  (if (daemon_Port cfg =? 0)%Z then defaultDaemonPort else daemon_Port cfg)
                  (or (daemon_LogDir cfg) (filepath_Join [path_Dir configurePath; VarLogPath]))
                  (or (daemon_LogFile cfg) defaultDaemonLogFile)
                  (daemon_ListenInterface cfg)
                  (or (daemon_RunDir cfg) (filepath_Join [path_Dir configurePath; VarRunPath])))
        end
    end.

(** ** Looking for configuration files *)

(** The loop of [getConfigPath]; [None] when the fuel is exhausted. *)
Fixpoint config_loop (w : W) (fuel : nat) (curDir : string) : option (result string) :=
  if decide (curDir = "/") then Some (Ok "")
  else
    match fuel with
    | O => None
    | S fuel =>
        match GetYamlFileName w (filepath_Join [curDir; ConfigName]) true with
        | Ok configPath => Some (Ok configPath)
        | Err err => if negb (IsNotExist err) then Some (Err err)
                     else config_loop w fuel (path_Dir curDir)
        end
    end.

(** A path has fewer elements than characters. *)
Definition getConfigPath (w : W) : result string :=
  match Getwd w with
  | Err e => Err (Wrapf "failed to detect current directory: %s" [] e)
  | Ok curDir =>
      default (Err (Errorf "out of fuel" [])) (config_loop w (String.length curDir) curDir)
  end.

Definition getSystemConfigPath (w : W) (defaultConfigPath : string) : string :=
  let configPathFromEnv := Getenv w systemConfigDirEnvName in
  if decide (configPathFromEnv <> "") then filepath_Join [configPathFromEnv; ConfigName]
  else filepath_Join [defaultConfigPath; ConfigName].

Definition getDaemonCfgPath (w : W) (configName : string) : result string :=
  let xdgConfigHome := Getenv w configHomeEnvName in
  let homeDir := Getenv w "HOME" in
  let xdgConfigDir :=
    if decide (xdgConfigHome <> "") then xdgConfigHome +:+ "/tt" else homeDir +:+ "/.config/tt" in
  let configPath := xdgConfigDir +:+ "/" +:+ configName in
  if is_ok (Stat w configPath) then Ok configPath
  else
    let configPath := homeDir +:+ "/." +:+ configName in
    if is_ok (Stat w configPath) then Ok configPath
    else
      match Getwd w with
      | Err e => Err (Wrapf "failed to detect current directory: %s" [] e)
      | Ok curDir =>
          let configPath := curDir +:+ "/" +:+ configName in
          if is_ok (Stat w configPath) then Ok configPath else Ok ""
      end.

(** ** The initial configuration of a run *)
Definition detectLocalTarantool (w : W) (c : CliCtx) (env : TtEnvOpts) : result CliCtx :=
  localTarantool <-? JoinAbspath w [env_BinDir env; "tarantool"];;
  match Stat w localTarantool with
  | Ok _ =>
      match LookPath w localTarantool with
      | Err e => Err (Wrapf "found Tarantool binary '%s' isn't executable: %s" [localTarantool] e)
      | Ok _ => Ok (set_Executable localTarantool true c)
      end
  | Err err =>
      if negb (IsNotExist err) then
        Err (Wrapf "failed to get access to Tarantool binary file: %s" [] err)
      else Ok c
  end.

Definition detectLocalTt (w : W) (env : TtEnvOpts) : result string :=
  localCli <-? JoinAbspath w [env_BinDir env; cliExecutableName];;
  match Stat w localCli with
  | Ok _ => EvalSymlinks w localCli
  | Err err => if IsNotExist err then Ok "" else Ok localCli
  end.

(** The configured context, or the program that takes the place of this one. *)
Inductive cli_outcome :=
| Configured (c : CliCtx)
| Exec (program : string) (args : list string).

(** [GetYamlFileName] returns an empty name with its error. *)
Definition find_local_config (w : W) (defaultConfigPath : string) (c : CliCtx) : result CliCtx :=
  if decide (cli_ConfigPath c = "") then
    launchDir <-? Getwd w;;
    match GetYamlFileName w (filepath_Join [launchDir; ConfigName]) true with
    | Ok p => Ok (set_ConfigPath p c)
    | Err err =>
        if negb (IsNotExist err) then
          Err (Wrapf "failed to get access to configuration file: %s" [] err)
        else
          match getConfigPath w with
          | Err e => Err (Wrapf "failed to get Tarantool CLI config: %s" [] e)
          | Ok p =>
              if decide (p = "") then
                if decide (cli_LocalLaunchDir c <> "") then
                  Err (Errorf "failed to find Tarantool CLI config for '%s'" [cli_LocalLaunchDir c])
                else Ok (set_ConfigPath (getSystemConfigPath w defaultConfigPath) c)
              else Ok (set_ConfigPath p c)
          end
    end
  else Ok c.

(** Whether to run the [tt] of the environment instead. *)
Definition switch_cli (w : W) (osArgs : list string) (launchDir localCli currentCli : string)
    (c : CliCtx) : result cli_outcome :=
  if bool_decide (localCli <> "") && bool_decide (localCli <> currentCli) then
    match Stat w localCli with
    | Ok _ =>
        match LookPath w localCli with
        | Err e => Err (Wrapf "found tt binary in local directory %q isn't executable: %s" [launchDir] e)
        | Ok _ =>
            match Read w localCli with
            | Some e => Err e
            | None => Ok (Exec localCli (localCli :: excludeArgumentsForChildTt osArgs))
            end
        end
    | Err err =>
        if negb (IsNotExist err) then
          Err (Wrapf "failed to get access to tt binary file: %s" [] err)
        else Ok (Configured c)
    end
  else Ok (Configured c).

Definition configureLocalCli (w : W) (defaultConfigPath : string) (osArgs : list string)
    (c : CliCtx) : result cli_outcome :=
  launchDir <-? Getwd w;;
  c <-? find_local_config w defaultConfigPath c;;
  loaded <-? GetCliOpts w (cli_ConfigPath c);;
  match opts_Env loaded.1 with
  | None => Ok (Configured c)
  | Some env =>
      if decide (env_BinDir env = "") then Ok (Configured c)
      else
        c <-? detectLocalTarantool w c env;;
        localCli <-? (if negb (cli_IsSelfExec c) then detectLocalTt w env else Ok "");;
        currentCli <-? Executable w;;
        currentCli <-? EvalSymlinks w currentCli;;
        switch_cli w osArgs launchDir localCli currentCli c
  end.

(** [util.Chdir] gives no error when the current directory is unknown. *)
Definition util_Chdir (w : W) (newPath : string) : result W :=
  match Getwd w with
  | Err _ => Ok w
  | Ok _ =>
      match Chdir w newPath with
      | Err e => Err (Wrapf "failed to change directory: %s" [] e)
      | Ok w => Ok w
      end
  end.

Definition configureLocalLaunch (w : W) (defaultConfigPath : string) (osArgs : list string)
    (c : CliCtx) : result cli_outcome :=
  w <-? (if decide (cli_LocalLaunchDir c <> "") then
           match Abs w (cli_LocalLaunchDir c) with
           | Err e => Err (Wrapf "failed to get absolute path to local directory: %s" [] e)
           | Ok launchDir =>
               match util_Chdir w launchDir with
               | Err e => Err (Wrapf "failed to change working directory: %s" [] e)
               | Ok w => Ok w
               end
           end
         else Ok w);;
  configureLocalCli w defaultConfigPath osArgs c.

Definition configureSystemCli (w : W) (defaultConfigPath : string) (osArgs : list string)
    (c : CliCtx) : result cli_outcome :=
  let c := if decide (cli_ConfigPath c = "")
           then set_ConfigPath (getSystemConfigPath w defaultConfigPath) c else c in
  configureLocalCli w defaultConfigPath osArgs c.

Definition configureDefaultCli (w : W) (defaultConfigPath : string) (osArgs : list string)
    (c : CliCtx) : result cli_outcome :=
  c <-? (if decide (cli_ConfigPath c = "") then
           match getConfigPath w with
           | Err e => Err (Wrapf "failed to get Tarantool CLI config: %s" [] e)
           | Ok p => Ok (set_ConfigPath p c)
           end
         else Ok c);;
  if decide (cli_ConfigPath c <> "") then configureLocalCli w defaultConfigPath osArgs c
  else configureSystemCli w defaultConfigPath osArgs c.

Definition Cli (w : W) (defaultConfigPath : string) (osArgs : list string) (c : CliCtx)
    : result cli_outcome :=
  _ <-? (if decide (cli_ConfigPath c <> "") then
           match Stat w (cli_ConfigPath c) with
           | Err e => Err (Wrapf "specified path to the configuration file is invalid: %s" [] e)
           | Ok _ => Ok tt
           end
         else Ok tt);;
  match getDaemonCfgPath w daemonCfgPath with
  | Err e => Err (Wrapf "failed to get tt daemon config: %s" [] e)
  | Ok p =>
      let c := set_DaemonCfgPath p c in
      let executable := match LookPath w "tarantool" with Ok f => f | Err _ => "" end in
      let c := set_Executable executable (cli_IsTarantoolBinFromRepo c) c in
      if cli_IsSystem c then configureSystemCli w defaultConfigPath osArgs c
      else if decide (cli_LocalLaunchDir c <> "") then
        configureLocalLaunch w defaultConfigPath osArgs c
      else configureDefaultCli w defaultConfigPath osArgs c
  end.

End configure.
