(* ===== verification/ConfigureProps.v ===== *)
(** * What the configuration of tt guarantees

    The search for the configuration file ends and finds the nearest one, the
    paths of the options are absolute, the flags are checked, and another [tt]
    is run only after its integrity is. *)
From S2P Require Import Prelude GoStrings GoPath GoOs Configure.

Section search.
Context {W : Type} `{OS W} (w : W).

(** ** The search for tt.yaml *)

(** What a look into the directory with these elements finds. *)
Definition look (cs : list string) : result string :=
  GetYamlFileName w (abs_path (cs ++ [ConfigName])) true.

Definition absent (cs : list string) : Prop := exists e, look cs = Err e /\ IsNotExist e = true.

(** The nearest of the first [n] elements, the root apart. *)
Definition nearest (cs : list string) (n : nat) (r : result string) : Prop :=
  (r = Ok "" /\ forall k, 0 < k <= n -> absent (take k cs)) \/
  (exists k, 0 < k <= n /\ r = look (take k cs) /\ ~ absent (take k cs) /\
     forall j, k < j <= n -> absent (take j cs)).

Lemma name_config : name ConfigName.
Proof. by repeat split. Qed.

Lemma abs_path_root cs : Forall name cs -> abs_path cs = "/" -> cs = [].
Proof.
  intros Hcs Hr. destruct cs as [|c cs]; [done|]. pose proof (Split_abs (c :: cs)) as Hs.
  rewrite Hr in Hs. apply Forall_cons in Hcs as [Hc Hcs]. specialize (Hs ltac:(done)).
  destruct Hc as [Hc ?]. cbn in Hs. rewrite decide_True in Hs by done.
  assert (Forall name (c :: cs)) as Hf by by constructor. apply Hs in Hf. congruence.
Qed.

Lemma take_snoc_name cs n :
  Forall name cs -> n < length cs ->
  exists c, take (S n) cs = take n cs ++ [c] /\ name c /\ Forall name (take n cs).
Proof.
  intros Hcs Hn. destruct (lookup_lt_is_Some_2 cs n Hn) as [c Hc]. exists c. split_and!.
  - by apply take_S_r.
  - by eapply Forall_lookup_1.
  - by apply Forall_take.
Qed.

Lemma nearest_step cs n r : absent (take (S n) cs) -> nearest cs n r -> nearest cs (S n) r.
Proof.
  intros Ha [[-> Hall]|(k & Hk & -> & Hn & Hj)]; [left|right].
  - split; [done|]. intros k Hk. destruct (decide (k = S n)) as [->|]; [done|]. apply Hall. lia.
  - exists k. split_and!; [lia..|done|done|]. intros j Hj'.
    destruct (decide (j = S n)) as [->|]; [done|]. apply Hj. lia.
Qed.

Lemma config_loop_nearest cs n fuel :
  Forall name cs -> n <= length cs -> n <= fuel ->
  exists r, config_loop w fuel (abs_path (take n cs)) = Some r /\ nearest cs n r.
Proof.
  intros Hcs. revert fuel. induction n as [|n IH]; intros fuel Hn Hf.
  { exists (Ok ""). split; [by destruct fuel|]. left. split; [done|lia]. }
  destruct fuel as [|fuel]; [lia|].
  destruct (take_snoc_name cs n Hcs) as (c & Ht & Hc & Hcs'); [lia|].
  assert (Forall name (take (S n) cs)) as Hall by by apply Forall_take.
  cbn [config_loop]. rewrite decide_False
    by (intros Hr; apply abs_path_root in Hr; [by rewrite Ht in Hr; destruct (take n cs)|done]).
  rewrite Join_abs by (done || apply name_config). change (GetYamlFileName w _ true) with (look (take (S n) cs)).
  destruct (look (take (S n) cs)) as [p|e] eqn:Hl; [|destruct (IsNotExist e) eqn:He; cbn [negb]].
  - eexists. split; [done|]. right. exists (S n).
    split_and!; [lia..|done| |lia]. intros (e & He & _). congruence.
  - destruct (IH fuel) as (r & Hr & Hnear); [lia..|]. exists r.
    rewrite Ht, path_Dir_abs by done. split; [done|]. apply nearest_step; [by exists e|done].
  - eexists. split; [done|]. right. exists (S n).
    split_and!; [lia..|done| |lia]. intros (e' & He' & Hx). congruence.
Qed.

Lemma config_loop_mono fuel fuel' d r :
  config_loop w fuel d = Some r -> fuel <= fuel' -> config_loop w fuel' d = Some r.
Proof.
  revert fuel' d. induction fuel as [|fuel IH]; intros fuel' d Hl Hf.
  - cbn in Hl. destruct fuel'; cbn; by case_decide.
  - destruct fuel' as [|fuel']; [lia|]. cbn [config_loop] in *. case_decide; [done|].
    destruct (GetYamlFileName _ _ _); [done|]. destruct (IsNotExist e); [|done]. apply IH; [done|lia].
Qed.

(** C23: For every absolute working directory without dot elements the search
    for a configuration file in it and its parents ends, after at most as many
    rounds as the directory has elements, with the answer for the nearest
    directory that has the file or cannot be read, and with an empty path when
    there is none; the root itself is never looked at, and a search that
    started at a relative directory would not end. *)
Theorem getConfigPath_nearest cs :
  Forall name cs -> Getwd w = Ok (abs_path cs) ->
  nearest cs (length cs) (getConfigPath w) /\
  (forall fuel, length cs <= fuel -> config_loop w fuel (abs_path cs) = Some (getConfigPath w)) /\
  (GetYamlFileName w ConfigName true = Err ErrNotExist ->
   forall fuel, config_loop w fuel "." = None).
Proof.
  intros Hcs Hwd.
  assert (forall fuel, length cs <= fuel -> exists r,
    config_loop w fuel (abs_path cs) = Some r /\ nearest cs (length cs) r) as Hloop.
  { intros fuel Hf. destruct (config_loop_nearest cs (length cs) fuel) as (r & Hr & Hn); [done..|].
    rewrite firstn_all in Hr. eauto. }
  assert (length cs <= String.length (abs_path cs)) as Hlen
    by (unfold abs_path; rewrite string_length_app; pose proof (Join_length cs "/" Hcs); lia).
  unfold getConfigPath. rewrite Hwd.
  destruct (Hloop _ Hlen) as (r & Hr & Hn). rewrite Hr. split_and!; [done| |].
  - intros fuel Hf. destruct (Hloop _ Hf) as (r' & Hr' & _). rewrite Hr'. f_equal.
    destruct (Nat.le_ge_cases fuel (String.length (abs_path cs))) as [Hle|Hle].
    + eapply config_loop_mono in Hr'; [|exact Hle]. cbn. congruence.
    + eapply config_loop_mono in Hr; [|exact Hle]. cbn. congruence.
  - intros Hg fuel. induction fuel as [|fuel IH]; [done|]. cbn [config_loop].
    change (filepath_Join ["."; ConfigName]) with ConfigName. rewrite Hg. exact IH.
Qed.

(** ** The options *)

(** The forms of a path of the options after [updateCliOpts]. *)
Record resolved (configDir : string) (o : CliOpts) : Prop := {
  r_env : exists env, opts_Env o = Some env /\
    IsAbs (env_BinDir env) = true /\ IsAbs (env_IncludeDir env) = true /\
    (IsAbs (env_InstancesEnabled env) = true \/
     (env_InstancesEnabled env = "." /\ IsApp w configDir = true));
  r_repo : exists repo, opts_Repo o = Some repo /\
    IsAbs (repo_Install repo) = true /\ (IsAbs (repo_Rocks repo) = true \/ repo_Rocks repo = "");
  r_modules : forall m, opts_Modules o = Some m -> IsAbs (mod_Directory m) = true;
  r_templates : Forall (fun t => IsAbs (tmpl_Path t) = true) (opts_Templates o)
}.

(** Where a path of the options leads to, given the directory of the file. *)
Definition place (configDir p default : string) : string :=
  if decide (p = "") then if decide (default = "") then "" else filepath_Join [configDir; default]
  else if IsAbs p then p else filepath_Join [configDir; p].

Lemma adjust_place p dir d :
  IsAbs dir = true -> adjustPathWithConfigLocation w p dir d = Ok (place dir p d).
Proof.
  intros Hd. unfold adjustPathWithConfigLocation, place, Abs. rewrite !IsAbs_Join by done.
  rewrite !Clean_Join by done. by repeat case_decide; [..|destruct (IsAbs p)].
Qed.

Record placed (configDir : string) (env : TtEnvOpts) (repo : RepoOpts) (o o' : CliOpts) : Prop := {
  pl_env : exists env', opts_Env o' = Some env' /\
    env_BinDir env' = place configDir (env_BinDir env) BinPath /\
    env_IncludeDir env' = place configDir (env_IncludeDir env) IncludePath /\
    env_InstancesEnabled env' =
      (if bool_decide (env_InstancesEnabled env = "" \/ env_InstancesEnabled env = ".")
          && IsApp w configDir then "." else place configDir (env_InstancesEnabled env) ".");
  pl_repo : opts_Repo o' = Some (mkRepoOpts (place configDir (repo_Rocks repo) "")
                                   (place configDir (repo_Install repo) DistfilesPath));
  pl_modules : opts_Modules o' =
    (fun m => mkModulesOpts (place configDir (mod_Directory m) ModulesPath)) <$> opts_Modules o;
  pl_templates : opts_Templates o' =
    map (fun t => mkTemplateOpts (place configDir (tmpl_Path t) ".")) (opts_Templates o);
  pl_rest : opts_App o' = opts_App o /\ opts_EE o' = opts_EE o
}.

Lemma adjust_templates_place dir ts :
  IsAbs dir = true ->
  adjust_templates w dir ts = Ok (map (fun t => mkTemplateOpts (place dir (tmpl_Path t) ".")) ts).
Proof.
  intros Hd. induction ts as [|t ts IH]; [done|]. cbn [adjust_templates map].
  by rewrite adjust_place, IH.
Qed.

Lemma place_enabled dir e :
  (if bool_decide (e = "" \/ e = ".") && IsApp w dir then "." else place dir e ".") =
  let enabled := if decide (e = "") then "." else e in
  if bool_decide (enabled <> ".") || bool_decide (enabled = ".") && negb (IsApp w dir)
  then place dir enabled "" else enabled.
Proof.
  cbv zeta. destruct (decide (e = "")) as [->|He]; [|destruct (decide (e = ".")) as [->|He']].
  - by destruct (IsApp w dir).
  - by destruct (IsApp w dir).
  - rewrite (bool_decide_eq_false_2 (_ \/ _)), (bool_decide_eq_true_2 (e <> ".")) by naive_solver.
    unfold place. cbn. by rewrite !(decide_False (P := e = "")).
Qed.

Lemma updateCliOpts_placed dir o env repo :
  IsAbs dir = true -> opts_Env o = Some env -> opts_Repo o = Some repo ->
  exists o', updateCliOpts w o dir = Ok o' /\ placed dir env repo o o'.
Proof.
  intros Hd He Hr. unfold updateCliOpts. rewrite He, Hr. cbn [deref rbind].
  rewrite !adjust_place, adjust_templates_place by done. cbn [rbind].
  assert (forall (b : bool) x y, (if b then Ok x else Ok y) = Ok (if b then x else y : string)) as -> by by intros [].
  cbn [rbind]. pose proof (place_enabled dir (env_InstancesEnabled env)) as Hen. cbv zeta in Hen.
  rewrite <- Hen. clear Hen.
  destruct (opts_Modules o) as [m|] eqn:Hm; [rewrite adjust_place by done|];
    (eexists; split; [reflexivity|]; split; cbn; [eexists; split; [reflexivity|done]|done|by rewrite Hm|done|done]).
Qed.

Lemma adjust_abs p dir d :
  IsAbs dir = true ->
  exists p', adjustPathWithConfigLocation w p dir d = Ok p' /\
    (IsAbs p' = true \/ (p' = "" /\ p = "" /\ d = "")) /\ (IsAbs p = true -> p' = p).
Proof.
  intros Hd. unfold adjustPathWithConfigLocation, Abs. repeat case_decide; subst.
  - exists "". split_and!; auto.
  - rewrite IsAbs_Join by done. eexists. split; [done|]. split; [left; by apply IsAbs_Clean, IsAbs_Join|done].
  - destruct (IsAbs p) eqn:Hp; [exists p; split_and!; auto|].
    rewrite IsAbs_Join by done. eexists. split; [done|]. split; [left; by apply IsAbs_Clean, IsAbs_Join|done].
Qed.

Lemma adjust_id p dir d : IsAbs p = true -> adjustPathWithConfigLocation w p dir d = Ok p.
Proof.
  intros Hp. unfold adjustPathWithConfigLocation. rewrite decide_False by by intros ->. by rewrite Hp.
Qed.

Lemma adjust_templates_abs dir ts :
  IsAbs dir = true ->
  exists ts', adjust_templates w dir ts = Ok ts' /\ Forall (fun t => IsAbs (tmpl_Path t) = true) ts'.
Proof.
  intros Hd. induction ts as [|t ts (ts' & IH & Hts)]; [by eexists|]. cbn [adjust_templates].
  destruct (adjust_abs (tmpl_Path t) dir "." Hd) as (p' & -> & [Hp|(_ & _ & [=])] & _).
  rewrite IH. eexists. split; [done|by constructor].
Qed.

Lemma adjust_templates_id dir ts :
  Forall (fun t => IsAbs (tmpl_Path t) = true) ts -> adjust_templates w dir ts = Ok ts.
Proof.
  induction 1 as [|[p] ts Ht _ IH]; [done|]. cbn [adjust_templates tmpl_Path].
  rewrite adjust_id by done. by rewrite IH.
Qed.

Lemma updateCliOpts_id dir o : resolved dir o -> updateCliOpts w o dir = Ok o.
Proof.
  intros [(env & He & Hb & Hi & Hen) (repo & Hr & Hin & Hro) Hm Ht].
  unfold updateCliOpts. rewrite He. cbn [deref rbind].
  assert ((if decide (env_InstancesEnabled env = "") then "." else env_InstancesEnabled env)
          = env_InstancesEnabled env) as ->
    by (destruct Hen as [Hen|[Hen _]]; [by rewrite decide_False by (intros Hx; by rewrite Hx in Hen)|by rewrite Hen]).
  assert (forall A (k : string -> result A), rbind k
    (if bool_decide (env_InstancesEnabled env <> ".") ||
        bool_decide (env_InstancesEnabled env = ".") && negb (IsApp w dir)
     then adjustPathWithConfigLocation w (env_InstancesEnabled env) dir ""
     else Ok (env_InstancesEnabled env)) = k (env_InstancesEnabled env)) as Hk.
  { intros A k. destruct Hen as [Hen|[Hen Happ]].
    - rewrite adjust_id by done. by destruct (_ || _).
    - rewrite Hen, Happ. done. }
  rewrite Hk, Hr. cbn [deref rbind].
  rewrite (adjust_id (env_BinDir env)), (adjust_id (env_IncludeDir env)), (adjust_id (repo_Install repo)) by done.
  cbn [rbind].
  assert (adjustPathWithConfigLocation w (repo_Rocks repo) dir "" = Ok (repo_Rocks repo)) as ->
    by (destruct Hro as [Hro| ->]; [by apply adjust_id|done]).
  cbn [rbind]. destruct o as [oe om oa oee ot orp]. cbn in *. subst.
  rewrite adjust_templates_id by done.
  destruct om as [[m]|]; [rewrite adjust_id by by apply (Hm _ eq_refl)|]; by destruct env, repo.
Qed.

Lemma adjust_modules_abs dir mo :
  IsAbs dir = true ->
  exists m', match mo with
    | None => Ok None
    | Some m => rbind (fun d => Ok (Some (mkModulesOpts d)))
        (adjustPathWithConfigLocation w (mod_Directory m) dir ModulesPath)
    end = Ok m' /\ forall m, m' = Some m -> IsAbs (mod_Directory m) = true.
Proof.
  intros Hd. destruct mo as [m|]; [|by exists None].
  destruct (adjust_abs (mod_Directory m) dir ModulesPath Hd) as (d & -> & [Hmd|(_ & _ & [=])] & _).
  eexists. split; [done|]. by intros ? [= <-].
Qed.

Lemma adjust_enabled_abs dir enabled :
  IsAbs dir = true -> enabled <> "" ->
  exists en', (if bool_decide (enabled <> ".") || bool_decide (enabled = ".") && negb (IsApp w dir)
     then adjustPathWithConfigLocation w enabled dir "" else Ok enabled) = Ok en' /\
     (IsAbs en' = true \/ (en' = "." /\ IsApp w dir = true)).
Proof.
  intros Hd Hne. destruct (adjust_abs enabled dir "" Hd) as (en & Hen & Habs & _).
  destruct (decide (enabled = ".")) as [E|E].
  - rewrite E in *. destruct (IsApp w dir); cbn; [eauto|]. exists en. split; [done|]. left. naive_solver.
  - rewrite (bool_decide_eq_true_2 (enabled <> ".")) by done. cbn. exists en.
    split; [done|]. left. naive_solver.
Qed.

(** updateCliOpts with an absolute directory of the configuration file
    succeeds and places every directory of the options: an absolute path
    stays, a relative one is joined to the directory of the file, an empty one
    becomes its default, and instances_enabled stays a dot exactly in the
    directory of an application; all paths are then absolute (rocks may stay
    empty), and a second call changes nothing. *)
Theorem updateCliOpts_resolved dir o env repo :
  IsAbs dir = true -> opts_Env o = Some env -> opts_Repo o = Some repo ->
  exists o', updateCliOpts w o dir = Ok o' /\ resolved dir o' /\ updateCliOpts w o' dir = Ok o' /\
    placed dir env repo o o' /\ (resolved dir o -> o' = o).
Proof.
  intros Hd He Hr.
  destruct (updateCliOpts_placed dir o env repo Hd He Hr) as (o' & Hu & Hpl).
  assert (exists o', updateCliOpts w o dir = Ok o' /\ resolved dir o') as (o1 & Hu' & Hres).
  { unfold updateCliOpts. rewrite He, Hr. cbn [deref rbind].
    set (enabled := if decide (env_InstancesEnabled env = "") then "." else _).
    destruct (adjust_abs (env_BinDir env) dir BinPath Hd) as (bin & -> & [Hbin|(_ & _ & [=])] & _).
    destruct (adjust_abs (env_IncludeDir env) dir IncludePath Hd) as (inc & -> & [Hinc|(_ & _ & [=])] & _).
    destruct (adjust_abs (repo_Install repo) dir DistfilesPath Hd) as (ins & -> & [Hins|(_ & _ & [=])] & _).
    destruct (adjust_abs (repo_Rocks repo) dir "" Hd) as (rocks & -> & Hrocks & _).
    destruct (adjust_templates_abs dir (opts_Templates o) Hd) as (ts & -> & Hts).
    destruct (adjust_modules_abs dir (opts_Modules o) Hd) as (m' & Hm & Hm').
    cbn [rbind]. rewrite Hm. cbn [rbind].
    destruct (adjust_enabled_abs dir enabled Hd) as (en' & -> & Hen'); [unfold enabled; by case_decide|].
    cbn [rbind]. eexists. split; [done|]. split; cbn.
    - eexists. by split_and!.
    - eexists. split; [done|]. cbn. split; [done|]. naive_solver.
    - naive_solver.
    - done. }
  assert (o1 = o') as -> by congruence.
  exists o'. split_and!; [done|done|by apply updateCliOpts_id|done|].
  intros Hro. apply updateCliOpts_id in Hro. congruence.
Qed.
End search.

(** ** The flags *)

(** Of the three ways to choose the configuration at most one, and a period of
    integrity checks only with a key. *)
Lemma ValidateCliOpts_ok c :
  ValidateCliOpts c = None <->
  (cli_LocalLaunchDir c = "" \/ (cli_IsSystem c = false /\ cli_ConfigPath c = "")) /\
  (cli_IsSystem c = false \/ cli_ConfigPath c = "") /\
  (cli_IntegrityCheckPeriod c = 0%Z \/
   ((0 < cli_IntegrityCheckPeriod c)%Z /\ cli_IntegrityCheck c <> "")).
Proof.
  unfold ValidateCliOpts.
  assert (String.length (cli_IntegrityCheck c) = 0 <-> cli_IntegrityCheck c = "") as Hk
    by (destruct (cli_IntegrityCheck c); naive_solver).
  rewrite (bool_decide_ext _ _ Hk).
  destruct (Z.eqb_spec (cli_IntegrityCheckPeriod c) 0) as [Hp|Hp],
    (Z.ltb_spec (cli_IntegrityCheckPeriod c) 0), (cli_IsSystem c);
    repeat (case_bool_decide || case_decide); cbn; naive_solver lia.
Qed.

(** ** Another tt *)
Section exec.
Context {W : Type} `{OS W}.
Context (Read : W -> string -> option error).
Context (decode : W -> string -> CliOpts -> result (option CliOpts)).

(** [program] may take the place of the running tt in the world [w], with the
    configuration at [path]: it is the tt of the bin_dir of these options and another file
    than the running one, it can be executed, and its integrity is confirmed. *)
Definition may_exec (w : W) (path program : string) : Prop :=
  program <> "" /\ is_ok (Stat w program) = true /\ is_ok (LookPath w program) = true /\
  Read w program = None /\
  (exists opts cfgPath env, GetCliOpts Read decode w path = Ok (opts, cfgPath) /\
     opts_Env opts = Some env /\ detectLocalTt w env = Ok program) /\
  exists self, rbind (EvalSymlinks w) (Executable w) = Ok self /\ self <> program.

(** The launch directory that counts; for the system there is none. *)
Definition launch_dir (c : CliCtx) : string := if cli_IsSystem c then "" else cli_LocalLaunchDir c.

(** The world in which tt goes on: in its launch directory, when it has one. *)
Definition launched (w : W) (c : CliCtx) (w' : W) : Prop :=
  if decide (launch_dir c = "") then w' = w
  else exists dir, Abs w (launch_dir c) = Ok dir /\ Chdir w dir = Ok w'.

(** The configuration that is loaded: the one that was given, that of the system, the one
    of the launch directory or above it, or the one of the current directory or above it
    and at last that of the system. *)
Definition config_used (w : W) (d : string) (c : CliCtx) (path : string) : Prop :=
  if decide (cli_ConfigPath c <> "") then path = cli_ConfigPath c
  else if cli_IsSystem c then path = getSystemConfigPath w d
  else if decide (cli_LocalLaunchDir c <> "") then
    exists wd, Getwd w = Ok wd /\
      match GetYamlFileName w (filepath_Join [wd; ConfigName]) true with
      | Ok p => path = p
      | Err _ => getConfigPath w = Ok path /\ path <> ""
      end
  else exists p, getConfigPath w = Ok p /\ path = if decide (p = "") then getSystemConfigPath w d else p.

(** The arguments without [-L] and [--local] and the argument that follows; the spellings
    [-Ldir] and [--local=dir] stay. *)
Fixpoint without_launch (args : list string) : list string :=
  match args with
  | [] => []
  | arg :: args =>
      if decide (arg = "-L" \/ arg = "--local")
      then match args with [] => [] | _ :: args => without_launch args end
      else arg :: without_launch args
  end.

Lemma exclude_loop_spec args acc :
  exclude_loop 0 args acc = acc ++ without_launch args /\
  exclude_loop 1 args acc = acc ++ match args with [] => [] | _ :: args => without_launch args end.
Proof.
  revert acc. induction args as [|arg args IH]; intros acc; cbn [exclude_loop without_launch].
  { by rewrite app_nil_r. }
  change (0 <? 1)%Z with true. change (0 <? 0)%Z with false. cbv iota. split; [|apply (IH acc)].
  case_decide; [apply (IH acc)|]. rewrite (proj1 (IH _)). by rewrite <-app_assoc.
Qed.

(** A test for the empty string that failed. *)
Ltac double_negation := match goal with H : ~ (?x <> ?y) |- ?x = ?y => destruct (decide (x = y)); [assumption|contradiction] end.

Lemma getSystemConfigPath_ne w d : getSystemConfigPath w d <> "".
Proof. unfold getSystemConfigPath. case_decide; by apply Join_ne. Qed.

Lemma find_local_config_self w d c c' :
  find_local_config w d c = Ok c' -> cli_IsSelfExec c' = cli_IsSelfExec c.
Proof.
  unfold find_local_config. case_decide; [|congruence]. intros (wd & _ & Hc)%rbind_Ok.
  repeat case_match; simplify_eq; done.
Qed.

Lemma detectLocalTarantool_self w c env c' :
  detectLocalTarantool w c env = Ok c' -> cli_IsSelfExec c' = cli_IsSelfExec c.
Proof.
  unfold detectLocalTarantool. intros (p & _ & Hc)%rbind_Ok. repeat case_match; by simplify_eq.
Qed.

Lemma configureLocalCli_exec w d args c p l :
  configureLocalCli Read decode w d args c = Ok (Exec p l) ->
  is_ok (Getwd w) = true /\ cli_IsSelfExec c = false /\ l = p :: without_launch args /\
  exists c', find_local_config w d c = Ok c' /\ may_exec w (cli_ConfigPath c') p.
Proof.
  unfold configureLocalCli. intros (wd & Hwd & Hc)%rbind_Ok.
  apply rbind_Ok in Hc as (c1 & Hf & ([lo lp] & Hlo & Hc)%rbind_Ok).
  cbn [fst] in Hc. destruct (opts_Env lo) as [env|] eqn:Henv; [|done]. case_decide; [done|].
  apply rbind_Ok in Hc as (c2 & Ht & (lc & Hlc & (e1 & He1 & (cur & Hcur & Hs)%rbind_Ok)%rbind_Ok)%rbind_Ok).
  pose proof (find_local_config_self _ _ _ _ Hf) as Hself. apply detectLocalTarantool_self in Ht.
  unfold switch_cli in Hs. destruct (bool_decide_reflect (lc <> "")) as [Hne|]; [|done].
  destruct (bool_decide_reflect (lc <> cur)) as [Hcu|]; [|done]. cbn [andb] in Hs.
  destruct (cli_IsSelfExec c2) eqn:Hse; [cbn in Hlc; congruence|].
  destruct (Stat w lc) eqn:Hst; [|by destruct (IsNotExist _)].
  destruct (LookPath w lc) eqn:Hlp; [|done]. destruct (Read w lc) eqn:Hrd; [done|].
  injection Hs as <- <-. split_and!; [by rewrite Hwd|congruence|by unfold excludeArgumentsForChildTt; rewrite (proj1 (exclude_loop_spec _ _))|].
  exists c1. split; [done|]. unfold may_exec. rewrite Hst, Hlp, He1. cbn in Hlc.
  split_and!; [done..|by exists lo, lp, env|]. exists cur. cbn. auto.
Qed.

Lemma find_local_config_given w d c c' : cli_ConfigPath c <> "" -> find_local_config w d c = Ok c' -> c' = c.
Proof. unfold find_local_config. intros. rewrite decide_False in * by done. congruence. Qed.

(** C24: When configuring tt replaces the process by another tt, this one was
    not started with self-exec; the working directory is the launch directory,
    when there is one, and has not changed otherwise; the options were loaded
    from the configuration file that was given, else from that of the system
    with the option --system, else from the one found in the working directory
    or above it, else, without a launch directory, from that of the system;
    the program is the tt of the bin_dir of these options, is not this
    program, exists and is executable, and the integrity repository accepted
    it; its arguments are those of this process without -L and --local and the
    argument after them (the spellings -Ldir and --local=dir stay). *)
Theorem Cli_exec_checked w d args c p l :
  Cli Read decode w d args c = Ok (Exec p l) ->
  cli_IsSelfExec c = false /\ l = p :: without_launch args /\
  exists w' path, launched w c w' /\ config_used w' d c path /\ may_exec w' path p.
Proof.
  unfold Cli. intros (u & _ & Hc)%rbind_Ok. destruct (getDaemonCfgPath _ _) as [dp|]; [|done].
  cbn [cli_IsSystem cli_LocalLaunchDir set_DaemonCfgPath set_Executable] in Hc. unfold launched, launch_dir, config_used.
  destruct (cli_IsSystem c).
  { unfold configureSystemCli in Hc. apply configureLocalCli_exec in Hc as (_ & Hs & Hl & c' & Hf & Hm).
    split_and!; [by case_decide|done|]. exists w, (cli_ConfigPath c'). rewrite decide_True by done. split_and!; [done| |done].
    cbn [cli_ConfigPath set_DaemonCfgPath set_Executable] in Hf. case_decide as E.
    - apply find_local_config_given in Hf as ->; [|apply getSystemConfigPath_ne]. by rewrite decide_False by auto.
    - apply find_local_config_given in Hf as ->; [|done]. by rewrite decide_True. }
  destruct (decide (cli_LocalLaunchDir c <> "")) as [Hld|Hld].
  - unfold configureLocalLaunch in Hc. cbn [cli_LocalLaunchDir set_Executable set_DaemonCfgPath] in Hc.
    destruct (decide (cli_LocalLaunchDir c <> "")); [|done].
    apply rbind_Ok in Hc as (w' & Hw & (Hwd & Hs & Hl & c' & Hf & Hm)%configureLocalCli_exec). split_and!; [done..|].
    exists w', (cli_ConfigPath c'). rewrite decide_False by done. split_and!; [| |done].
    + destruct (Abs w (cli_LocalLaunchDir c)) as [dir|]; [|done]. unfold util_Chdir in Hw. exists dir. split; [done|].
      destruct (Getwd w) eqn:Eg; [|exfalso; injection Hw as <-; by rewrite Eg in Hwd].
      by destruct (Chdir w dir); simplify_eq.
    + destruct (decide (cli_ConfigPath c <> "")) as [|Hne]; [by apply find_local_config_given in Hf as ->|].
      unfold find_local_config in Hf. cbn [cli_ConfigPath cli_LocalLaunchDir set_DaemonCfgPath set_Executable] in Hf.
      rewrite decide_True in Hf by (cbn; double_negation). apply rbind_Ok in Hf as (wd & Hg & Hf). exists wd. split; [done|].
      destruct (GetYamlFileName _ _ _) as [q|e]; [by injection Hf as <-|].
      destruct (negb _); [done|]. destruct (getConfigPath w') as [q|]; [|done].
      destruct (decide (q = "")); [by rewrite decide_True in Hf|by injection Hf as <-].
  - unfold configureDefaultCli in Hc. apply rbind_Ok in Hc as (c1 & Hc1 & Hc).
    cbn [cli_ConfigPath set_DaemonCfgPath set_Executable] in Hc1.
    assert (exists c', cli_IsSelfExec c = false /\ l = p :: without_launch args /\ may_exec w (cli_ConfigPath c') p /\
      cli_ConfigPath c' = if decide (cli_ConfigPath c1 <> "") then cli_ConfigPath c1 else getSystemConfigPath w d)
      as (c' & Hs & Hl & Hm & Hp).
    { assert (cli_IsSelfExec c1 = cli_IsSelfExec c) as Hse by (repeat case_match; by simplify_eq). rewrite <-Hse.
      destruct (decide (cli_ConfigPath c1 <> "")) as [Hne|Hne].
      - apply configureLocalCli_exec in Hc as (_ & Hs & Hl & c' & Hf & Hm). exists c'. split_and!; [done..|].
        by apply find_local_config_given in Hf as ->.
      - unfold configureSystemCli in Hc. rewrite decide_True in Hc by (cbn; double_negation).
        apply configureLocalCli_exec in Hc as (_ & Hs & Hl & c' & Hf & Hm). exists c'. split_and!; [done..|].
        by apply find_local_config_given in Hf as ->; [|apply getSystemConfigPath_ne]. }
    split_and!; [done..|]. exists w, (cli_ConfigPath c'). rewrite decide_True by (cbn; double_negation).
    split_and!; [done| |done]. rewrite Hp. destruct (decide (cli_ConfigPath c <> "")) as [Hne|Hne].
    + rewrite decide_False in Hc1 by done. injection Hc1 as <-. cbn. by rewrite decide_True.
    + rewrite decide_True in Hc1 by (cbn; double_negation). destruct (decide (cli_LocalLaunchDir c <> "")); [done|].
      destruct (getConfigPath w) as [q|]; [|done]. injection Hc1 as <-. exists q. split; [done|]. cbn.
      destruct (decide (q = "")) as [->|]; [by rewrite decide_False by auto|by rewrite decide_True].
Qed.
End exec.

(** ** A small system to run the definitions on *)
Record toy := mkToy { toy_wd : string; toy_files : list (string * FileKind) }.

Definition toy_stat (w : toy) (p : string) : result FileInfo :=
  match List.find (fun f => bool_decide (f.1 = p)) (toy_files w) with
  | Some (_, k) => Ok (mkFileInfo (path_Base p) k 1)
  | None => Err ErrNotExist
  end.

(** Patterns with one star. *)
Definition toy_glob (w : toy) (pattern : string) : result (list string) :=
  match split2 pattern "*" with
  | Some (a, b) =>
      Ok (List.filter (fun f => HasPrefix f a && HasSuffix f b) (map fst (toy_files w)))
  | None => Ok []
  end.

#[export] Instance toy_os : OS toy := {|
  Getwd w := Ok (toy_wd w);
  Chdir w p := Ok (mkToy p (toy_files w));
  Getenv _ _ := "";
  Stat := toy_stat;
  Glob := toy_glob;
  ReadDir _ _ := Ok [];
  ReadFile w p := rmap (fun _ => "") (toy_stat w p);
  LookPath w p := rmap (fun _ => p) (toy_stat w p);
  EvalSymlinks _ p := Ok p;
  Executable _ := Ok "/usr/bin/tt"
|}.

Definition toy_home : toy :=
  mkToy "/home/u/app" [("/home/u/tt.yaml", RegularFile); ("/home/u/bin/tt", RegularFile);
                       ("/tt.yaml", RegularFile)].

Lemma getConfigPath_nearest_witness :
  getConfigPath toy_home = Ok "/home/u/tt.yaml" /\
  nearest toy_home ["home"; "u"; "app"] 3 (getConfigPath toy_home).
Proof.
  split; [by vm_compute|].
  apply (getConfigPath_nearest toy_home ["home"; "u"; "app"]); [|done].
  by repeat constructor.
Defined.

Lemma updateCliOpts_resolved_witness :
  exists o', updateCliOpts toy_home GetDefaultCliOpts "/home/u" = Ok o' /\
    resolved toy_home "/home/u" o'.
Proof.
  destruct (updateCliOpts_resolved toy_home "/home/u" GetDefaultCliOpts getDefaultTtEnvOpts
    (mkRepoOpts "" DistfilesPath)) as (o' & Hu & Hr & _); [done..|].
  exists o'. split; [exact Hu|exact Hr].
Defined.

Lemma Cli_exec_checked_witness :
  exists w' path, launched toy_home (mkCliCtx false "" "" "" false "" "" 0 false) w' /\
    may_exec (fun _ _ => None) (fun _ _ cfg => Ok (Some cfg)) w' path "/home/u/bin/tt".
Proof.
  destruct (Cli_exec_checked (fun _ _ => None) (fun _ _ cfg => Ok (Some cfg)) toy_home "/etc"
    ["-L"; "x"; "start"] (mkCliCtx false "" "" "" false "" "" 0 false) "/home/u/bin/tt"
    ["/home/u/bin/tt"; "start"]) as (_ & _ & w' & path & Hw & _ & Hm); [by vm_compute|].
  exists w', path. split; [exact Hw|exact Hm].
Defined.
