(* ===== verification/Storages.v ===== *)
(** * Key layout of the configuration storages ([lib/cluster/storages.go])

    etcd and the Tarantool config storage keep a configuration under
    [<prefix>/config/<key>], its hashes under [<prefix>/hashes/<hash>/<key>]
    and its signature under [<prefix>/sig/<key>].  This file models the
    functions that build and take apart those keys. *)
From S2P Require Import Prelude GoStrings.

Definition slash : ascii := "/"%char.

Definition getConfigPrefix (basePrefix : string) : string :=
  let prefix := TrimRight basePrefix slash in
  prefix +:+ "/" +:+ "config" +:+ "/".

Definition getConfigKey (basePrefix key : string) : string :=
  getConfigPrefix basePrefix +:+ key.

Definition getHashesPrefix (basePrefix : string) : string :=
  let prefix := TrimRight basePrefix slash in
  prefix +:+ "/" +:+ "hashes" +:+ "/".

Definition getHashesKey (basePrefix hash key : string) : string :=
  getHashesPrefix basePrefix +:+ (hash +:+ "/" +:+ key).

Definition getSignPrefix (basePrefix : string) : string :=
  let prefix := TrimRight basePrefix slash in
  prefix +:+ "/" +:+ "sig" +:+ "/".

Definition getSignKey (basePrefix key : string) : string :=
  getSignPrefix basePrefix +:+ key.

(** [Some (hash, key)] stands for the Go result [true, hash, key], [None] for
    [false, "", ""]. *)
Definition parseHashPath (path prefix : string) : option (string * string) :=
  let hashesPrefix := getHashesPrefix prefix in
  match CutPrefix path hashesPrefix with
  | None => None
  | Some hashPath => split2 hashPath slash
  end.

Definition GetStorageKey (prefix source : string) : result string :=
  let cfgPrefix := getConfigPrefix prefix in
  match CutPrefix source cfgPrefix with
  | None => Err (Errorf "source must begin with: %s" [cfgPrefix])
  | Some key => Ok key
  end.

(** ** The three key spaces do not meet *)
Lemma config_not_hashes p k r : getConfigKey p k <> getHashesPrefix p +:+ r.
Proof.
  unfold getConfigKey, getConfigPrefix, getHashesPrefix.
  intros H. apply prefix_app_cancel in H. done.
Qed.

Lemma config_not_sign p k r : getConfigKey p k <> getSignPrefix p +:+ r.
Proof.
  unfold getConfigKey, getConfigPrefix, getSignPrefix.
  intros H. apply prefix_app_cancel in H. done.
Qed.

Lemma hashes_not_sign p r s : getHashesPrefix p +:+ r <> getSignPrefix p +:+ s.
Proof.
  unfold getHashesPrefix, getSignPrefix.
  intros H. apply prefix_app_cancel in H. done.
Qed.

Lemma getConfigKey_inj p k k' : getConfigKey p k = getConfigKey p k' -> k = k'.
Proof. apply (inj (String.append (getConfigPrefix p))). Qed.

Lemma getSignKey_inj p k k' : getSignKey p k = getSignKey p k' -> k = k'.
Proof. apply (inj (String.append (getSignPrefix p))). Qed.

Lemma parseHashPath_Some path p h k :
  parseHashPath path p = Some (h, k) <->
  path = getHashesKey p h k /\ no_char slash h = true.
Proof.
  unfold parseHashPath, getHashesKey.
  destruct (CutPrefix path (getHashesPrefix p)) as [r|] eqn:E.
  - apply CutPrefix_Some in E as ->. rewrite split2_Some. split.
    + intros [-> Hn]. done.
    + intros [H Hn]. split; [|done]. by apply (inj (String.append _)) in H.
  - split; [done|]. intros [-> _].
    by rewrite CutPrefix_app in E.
Qed.

Lemma parseHashPath_config p k : parseHashPath (getConfigKey p k) p = None.
Proof.
  destruct (parseHashPath _ p) as [[h k']|] eqn:E; [|done].
  apply parseHashPath_Some in E as [E _]. by apply config_not_hashes in E.
Qed.

Lemma parseHashPath_sign p k : parseHashPath (getSignKey p k) p = None.
Proof.
  destruct (parseHashPath _ p) as [[h k']|] eqn:E; [|done].
  apply parseHashPath_Some in E as [E _]. symmetry in E. by apply hashes_not_sign in E.
Qed.

(** ** Properties *)

(** parseHashPath accepts exactly the keys getHashesKey builds for a hash
    name without a slash, returns the hash and the key they were built from,
    and rejects every value key and every signature key of the same prefix. *)
Theorem hash_path_roundtrip path p h k :
  (parseHashPath path p = Some (h, k) <->
   path = getHashesKey p h k /\ no_char slash h = true) /\
  parseHashPath (getConfigKey p k) p = None /\
  parseHashPath (getSignKey p k) p = None.
Proof.
  split_and!.
  - apply parseHashPath_Some.
  - apply parseHashPath_config.
  - apply parseHashPath_sign.
Qed.

(** GetStorageKey returns a key exactly for the source getConfigKey
    builds from it, refuses signature and hash keys, and trailing slashes of
    the prefix do not change the key. *)
Theorem storage_key_roundtrip p n source k :
  (GetStorageKey p source = Ok k <-> source = getConfigKey p k) /\
  getConfigKey (p +:+ repeat_char n slash) k = getConfigKey p k /\
  is_ok (GetStorageKey p (getSignKey p k)) = false /\
  (forall h, is_ok (GetStorageKey p (getHashesKey p h k)) = false).
Proof.
  unfold GetStorageKey. split_and!.
  - destruct (CutPrefix source (getConfigPrefix p)) as [r|] eqn:E.
    + apply CutPrefix_Some in E as ->. split; [by intros [= <-]|].
      intros E%getConfigKey_inj. congruence.
    + split; [done|]. intros ->. unfold getConfigKey in E. by rewrite CutPrefix_app in E.
  - unfold getConfigKey, getConfigPrefix. by rewrite TrimRight_repeat.
  - destruct (CutPrefix _ _) as [r|] eqn:E; [|done]. apply CutPrefix_Some in E.
    symmetry in E. by apply (config_not_sign p r k) in E.
  - intros h. destruct (CutPrefix _ _) as [r|] eqn:E; [|done]. apply CutPrefix_Some in E.
    symmetry in E. by apply (config_not_hashes p r) in E.
Qed.
