(* ===== verification/Value.v ===== *)
(** * Go values of a deserialized configuration

    [lib/cluster.Config] keeps an [any].  A [value] is a Go interface value
    with one of the dynamic types that reach a configuration: the ones
    [yaml.v3] produces when it decodes into an [any], the [[]string] that
    [patchCConfigAddRole] stores, and a [*Config].  Maps are finite maps, so
    two values are equal when they hold the same entries, whatever order Go
    would enumerate them in. *)
From S2P Require Import Prelude.
From Stdlib Require Export SpecFloat.

(** ** Keys of a [map[any]any]

    [KOther] is a key of any other dynamic type, identified by its type and its
    printed form.  Two zeros of opposite sign are one key for Go and NaN is never
    equal to itself; neither is represented. *)
#[export] Instance spec_float_eq_dec : EqDecision spec_float.
Proof. solve_decision. Defined.

#[export] Instance spec_float_countable : Countable spec_float.
Proof.
  refine (inj_countable'
    (fun f => match f with
      | S754_zero s => inl s
      | S754_infinity s => inr (inl s)
      | S754_nan => inr (inr (inl tt))
      | S754_finite s m e => inr (inr (inr (s, m, e)))
      end)
    (fun x => match x with
      | inl s => S754_zero s
      | inr (inl s) => S754_infinity s
      | inr (inr (inl tt)) => S754_nan
      | inr (inr (inr (s, m, e))) => S754_finite s m e
      end) _).
  by intros [].
Defined.

Inductive gokey :=
| KStr (s : string)
| KInt (z : Z)
| KUint64 (z : Z)
| KFloat (f : spec_float)
| KBool (b : bool)
| KNil
| KOther (ty repr : string).

#[export] Instance gokey_eq_dec : EqDecision gokey.
Proof. solve_decision. Defined.

#[export] Instance gokey_countable : Countable gokey.
Proof.
  refine (inj_countable'
    (fun k => match k with
      | KStr s => inl s
      | KInt z => inr (inl z)
      | KBool b => inr (inr (inl b))
      | KNil => inr (inr (inr (inl tt)))
      | KUint64 z => inr (inr (inr (inr (inl z))))
      | KFloat f => inr (inr (inr (inr (inr (inl f)))))
      | KOther ty r => inr (inr (inr (inr (inr (inr (ty, r))))))
      end)
    (fun x => match x with
      | inl s => KStr s
      | inr (inl z) => KInt z
      | inr (inr (inl b)) => KBool b
      | inr (inr (inr (inl tt))) => KNil
      | inr (inr (inr (inr (inl z)))) => KUint64 z
      | inr (inr (inr (inr (inr (inl f))))) => KFloat f
      | inr (inr (inr (inr (inr (inr (ty, r)))))) => KOther ty r
      end) _).
  by intros [].
Defined.

#[export] Instance KStr_inj : Inj (=) (=) KStr.
Proof. by intros ?? [=]. Qed.

(** ** Values

    [VMap] is a [map[any]any] and [VStrMap] a [map[string]any]: a type
    assertion to one fails on the other.  [VFloat] is a [float64] as a
    [spec_float].  [VUint64] is what [yaml.v3] gives for an integer above
    [MaxInt64]. *)
Inductive value :=
| VNil
| VBool (b : bool)
| VInt (z : Z)
| VUint64 (z : Z)
| VFloat (f : spec_float)
| VStr (s : string)
| VOther (ty repr : string)
| VSlice (l : list value)
| VStrSlice (l : list string)
| VMap (m : gmap gokey value)
| VStrMap (m : gmap string value)
| VConfig (paths : value).

(** [m[k]] for a Go map: the zero value [nil] when the key is absent. *)
Definition index (m : gmap gokey value) (k : string) : value :=
  default VNil (m !! KStr k).

Definition is_nil (v : value) : bool :=
  match v with VNil => true | _ => false end.

(** [v.(map[any]any)] *)
Definition as_map (v : value) : option (gmap gokey value) :=
  match v with VMap m => Some m | _ => None end.

(** ** Induction *)
Fixpoint value_size (v : value) : nat :=
  match v with
  | VSlice l => S (list_sum (map value_size l))
  | VMap m => S (map_fold (fun _ v n => value_size v + n) 0 m)
  | VStrMap m => S (map_fold (fun _ v n => value_size v + n) 0 m)
  | VConfig p => S (value_size p)
  | _ => 1
  end.

Lemma map_fold_size_lookup `{Countable K} (m : gmap K value) k v :
  m !! k = Some v -> value_size v <= map_fold (fun _ v n => value_size v + n) 0 m.
Proof.
  intros Hk. rewrite (map_fold_delete_L _ _ k v m); [lia| |done].
  intros. lia.
Qed.

(** The induction principle of the nested type: every entry of a map and every
    element of a slice has the property. *)
Lemma value_ind' (P : value -> Prop)
  (Hleaf : forall v, (forall m, v <> VMap m) -> (forall m, v <> VStrMap m) ->
     (forall l, v <> VSlice l) -> (forall p, v <> VConfig p) -> P v)
  (Hslice : forall l, Forall P l -> P (VSlice l))
  (Hmap : forall m, map_Forall (fun _ => P) m -> P (VMap m))
  (Hsmap : forall m, map_Forall (fun _ => P) m -> P (VStrMap m))
  (Hcfg : forall p, P p -> P (VConfig p)) :
  forall v, P v.
Proof.
  intros v. remember (value_size v) as n eqn:Hn. revert v Hn.
  induction (lt_wf n) as [n _ IH]. intros v ->.
  destruct v as [| | | | | | |l| |m|m|p];
    try (apply Hleaf; congruence).
  - apply Hslice, Forall_forall. intros x Hx. eapply IH; [|done]. simpl.
    apply list_elem_of_split in Hx as (l1 & l2 & ->).
    rewrite map_app, list_sum_app. simpl. lia.
  - apply Hmap. intros k x Hx. eapply IH; [|done]. simpl.
    apply map_fold_size_lookup in Hx. lia.
  - apply Hsmap. intros k x Hx. eapply IH; [|done]. simpl.
    apply map_fold_size_lookup in Hx. lia.
  - apply Hcfg. eapply IH; [|done]. simpl. lia.
Qed.

(** ** Lookups of [index] *)
Lemma index_insert m k v : index (<[KStr k := v]> m) k = v.
Proof. unfold index. by rewrite lookup_insert_eq. Qed.

Lemma index_empty k : index ∅ k = VNil.
Proof. unfold index. by rewrite lookup_empty. Qed.

Lemma index_insert_ne m k k' v : k <> k' -> index (<[KStr k := v]> m) k' = index m k'.
Proof. intros. unfold index. by rewrite lookup_insert_ne by congruence. Qed.

Lemma index_Some m k v : m !! KStr k = Some v -> index m k = v.
Proof. intros H. unfold index. by rewrite H. Qed.

Lemma index_not_nil m k : index m k <> VNil -> m !! KStr k = Some (index m k).
Proof. unfold index. by destruct (m !! KStr k). Qed.

#[export] Hint Rewrite index_insert : go.
