(* ===== verification/Config.v ===== *)
(** * The configuration container ([lib/cluster/config.go])

    [Config] holds a tree of Go values addressed by string paths.  The Go code
    walks the tree with references to the inner maps and updates them in place;
    the model rebuilds the path it walks, so an operation returns the new
    [Config].  A path is a list of strings (a nil and an empty slice behave the
    same in this file). *)
From S2P Require Import Prelude Value.

Definition fmtPathNotMap : string := "path %q is not a map".

Record Config := mkConfig { paths : value }.

Definition NewConfig : Config := mkConfig VNil.

(** ** [deepCopyMap] *)
Fixpoint deepCopyMap (v : value) : value :=
  match v with
  | VMap srcMap => VMap (deepCopyMap <$> srcMap)
  | _ => v
  end.

(** ** [createMaps]

    The Go function returns the map at the end of the path, which the caller
    then updates; here [f] is that update.  [done] is [path[0:i]], the part of
    the path already walked.  The first component of the result is what is
    left in the tree, also when the walk fails. *)
Fixpoint createMaps_at (currentValue : value) (done path : list string)
    (f : gmap gokey value -> gmap gokey value) : value * option error :=
  let walk m :=
    match path with
    | [] => (VMap (f m), None)
    | key :: rest =>
        let '(child, err) := createMaps_at (index m key) (done ++ [key]) rest f in
        (VMap (<[KStr key := child]> m), err)
    end in
  match currentValue with
  | VNil => walk ∅
  | VMap m => walk m
  | _ => (currentValue, Some (Errorf fmtPathNotMap done))
  end.

Definition createMaps (config : Config) (path : list string)
    (f : gmap gokey value -> gmap gokey value) : Config * option error :=
  let '(v, err) := createMaps_at (paths config) [] path f in (mkConfig v, err).

(** ** [getMap] *)
Fixpoint getMap_at (currentValue : value) (done path : list string)
    : result (gmap gokey value) :=
  match currentValue with
  | VMap m =>
      match path with
      | [] => Ok m
      | key :: rest =>
          match m !! KStr key with
          | None => Err (NotExistError (done ++ [key]))
          | Some v => getMap_at v (done ++ [key]) rest
          end
      end
  | _ => Err (Errorf fmtPathNotMap done)
  end.

Definition getMap (config : Config) (path : list string) : result (gmap gokey value) :=
  getMap_at (paths config) [] path.

(** [path[0:last]] and [path[last]] of a non-empty path. *)
Fixpoint unsnoc (k : string) (rest : list string) : list string * string :=
  match rest with
  | [] => ([], k)
  | k' :: rest' => let '(init, last) := unsnoc k' rest' in (k :: init, last)
  end.

(** ** [Set]: the new configuration and the returned error *)
Definition Set_ (config : Config) (path : list string) (v : value) : Config * option error :=
  match path with
  | [] => (mkConfig v, None)
  | k :: rest =>
      let '(init, key) := unsnoc k rest in
      let stored := match v with VConfig p => deepCopyMap p | _ => v end in
      createMaps config init (fun m => <[KStr key := stored]> m)
  end.

(** ** [Get] *)
Definition Get (config : Config) (path : list string) : result value :=
  match path with
  | [] => match paths config with VNil => Err (NotExistError path) | v => Ok v end
  | k :: rest =>
      let '(init, key) := unsnoc k rest in
      match getMap config init with
      | Err e => Err e
      | Ok m => match index m key with VNil => Err (NotExistError path) | v => Ok v end
      end
  end.

(** ** [Elems]: the string keys of a map, in the order of [range] *)
Definition string_keys (m : gmap gokey value) : list string :=
  omap (fun kv => match kv.1 with KStr s => Some s | _ => None end) (map_to_list m).

Definition Elems (config : Config) (path : list string) : result (list string) :=
  match path with
  | [] =>
      match paths config with
      | VNil => Err (NotExistError path)
      | VMap m => Ok (string_keys m)
      | _ => Err (Errorf fmtPathNotMap path)
      end
  | _ => rmap string_keys (getMap config path)
  end.

(** ** [forEachMap] and [ForEach]

    The callback's calls, as the list of its arguments.  [forEachMap] visits
    the entries in one order of the runtime's; [visits] below relates a map to
    the calls under every order. *)
Fixpoint forEachMap (path : list string) (dst : value) {struct dst}
    : list (list string * value) :=
  match dst with
  | VMap m =>
      if decide (m = ∅) then [(path, dst)]
      else
        map_fold (fun k v calls =>
          match k with
          | KStr str =>
              match v with
              | VMap _ => forEachMap (path ++ [str]) v ++ calls
              | VNil => calls
              | _ => (path ++ [str], v) :: calls
              end
          | _ => calls
          end) [] m
  | _ => []
  end.

Definition ForEach (config : Config) (path : list string) : list (list string * value) :=
  let visit target :=
    match target with
    | VMap _ => forEachMap path target
    | _ => [(path, target)]
    end in
  match path with
  | [] => match paths config with VNil => [] | target => visit target end
  | k :: rest =>
      let '(init, key) := unsnoc k rest in
      match getMap config init with
      | Err _ => []
      | Ok m => visit (index m key)
      end
  end.

(** ** [Merge] *)
Definition merge_visit (config : Config) (call : list string * value) : Config :=
  match Get config call.1 with
  | Err _ => (Set_ config call.1 call.2).1
  | Ok _ => config
  end.

Definition Merge (config low : Config) : Config :=
  fold_left merge_visit (ForEach low []) config.

(** ** [deepCastStringMapToAnyMap] and [UnmarshalYAML] *)
Fixpoint deepCastStringMapToAnyMap (v : value) : value :=
  match v with
  | VStrMap x => VMap (kmap KStr (deepCastStringMapToAnyMap <$> x))
  | VMap x => VMap (deepCastStringMapToAnyMap <$> x)
  | VSlice x => VSlice (deepCastStringMapToAnyMap <$> x)
  | _ => v
  end.

(** [unmarshal] is the outcome of the YAML library's callback on [&rawPaths]. *)
Definition UnmarshalYAML (unmarshal : result value) : result Config :=
  match unmarshal with
  | Err e => Err (Wrapf "failed to unmarshal Config: %w" [] e)
  | Ok rawPaths => Ok (mkConfig (deepCastStringMapToAnyMap rawPaths))
  end.

(** [String()]: [encode] is the YAML encoder with an indent of two.  It is total
    here: the source panics when the encoder fails, which it does only for
    dynamic types ([chan], [func]) that are no [value]. *)
Definition Config_String (encode : value -> string) (config : Config) : string :=
  match paths config with
  | VNil => ""
  | v => encode v
  end.
