(* ===== verification/ConfigFacts.v ===== *)
(** * Facts about [Config]: paths, [Get] and [Set]

    A configuration is a tree; [lookup_path] and [set_path] are the reference
    reading of [Get] and [Set] on it, by structural recursion on the path. *)
From S2P Require Import Prelude Value Config.

(** ** Reference definitions *)
Fixpoint lookup_path (v : value) (path : list string) : value :=
  match path with
  | [] => v
  | k :: rest =>
      match v with
      | VMap m => lookup_path (index m k) rest
      | _ => VNil
      end
  end.

Fixpoint set_path (v : value) (path : list string) (x : value) : option value :=
  match path with
  | [] => Some x
  | k :: rest =>
      match v with
      | VNil => (fun c => VMap {[KStr k := c]}) <$> set_path VNil rest x
      | VMap m => (fun c => VMap (<[KStr k := c]> m)) <$> set_path (index m k) rest x
      | _ => None
      end
  end.

(** What [Set] stores for an argument at a path. *)
Definition stored (path : list string) (v : value) : value :=
  match path, v with
  | _ :: _, VConfig p => deepCopyMap p
  | _, _ => v
  end.

(** The value at a path stops every longer path: it is neither a map nor nil. *)
Definition blocks (v : value) : bool :=
  match v with VMap _ | VNil => false | _ => true end.

Lemma unsnoc_app init key :
  match init ++ [key] with
  | [] => False
  | k :: rest => unsnoc k rest = (init, key)
  end.
Proof.
  induction init as [|k init IH]; simpl; [done|].
  destruct init as [|k' init]; simpl in *; [done|]. by rewrite IH.
Qed.

(** Every path is empty or a prefix and a last key; the three operations in
    terms of that view. *)
Lemma Set_snoc c init key v :
  Set_ c (init ++ [key]) v =
  createMaps c init (fun m => <[KStr key := stored [key] v]> m).
Proof.
  pose proof (unsnoc_app init key) as H. unfold Set_.
  destruct (init ++ [key]); [done|]. by rewrite H.
Qed.

Lemma Get_snoc c init key :
  Get c (init ++ [key]) =
  match getMap c init with
  | Err e => Err e
  | Ok m => match index m key with VNil => Err (NotExistError (init ++ [key])) | v => Ok v end
  end.
Proof.
  pose proof (unsnoc_app init key) as H. unfold Get.
  destruct (init ++ [key]); [done|]. by rewrite H.
Qed.

(** ** [deepCopyMap] copies *)
Lemma deepCopyMap_id v : deepCopyMap v = v.
Proof.
  induction v as [v ? ? ? ?|l Hl|m Hm|m Hm|p Hp] using value_ind'; try done.
  - destruct v; naive_solver.
  - simpl. f_equal. apply map_eq. intros k. rewrite lookup_fmap.
    destruct (m !! k) as [x|] eqn:E; [|done]. simpl. f_equal. by apply (Hm k).
Qed.

(** ** [Get] reads [lookup_path] *)
Lemma getMap_at_lookup v d p :
  match getMap_at v d p with
  | Ok m => lookup_path v p = VMap m
  | Err _ => as_map (lookup_path v p) = None
  end.
Proof.
  revert v d. induction p as [|k p IH]; intros v d; simpl; destruct v; try done.
  unfold index. destruct (m !! KStr k) as [x|]; simpl; [apply IH|]. by destruct p.
Qed.

Lemma lookup_path_snoc v p k :
  lookup_path v (p ++ [k]) =
  match lookup_path v p with VMap m => index m k | _ => VNil end.
Proof.
  revert v. induction p as [|k' p IH]; intros v; simpl; [done|].
  by destruct v.
Qed.

Lemma Get_lookup c p :
  match Get c p with
  | Ok v => lookup_path (paths c) p = v /\ v <> VNil
  | Err _ => lookup_path (paths c) p = VNil
  end.
Proof.
  destruct p as [|key init _] using rev_ind.
  - unfold Get. by destruct (paths c).
  - rewrite Get_snoc, lookup_path_snoc. unfold getMap.
    pose proof (getMap_at_lookup (paths c) [] init) as H.
    destruct (getMap_at _ _ _) as [m|e].
    + rewrite H. by destruct (index m key).
    + by destruct (lookup_path (paths c) init).
Qed.

Lemma Get_Ok c p v : Get c p = Ok v <-> lookup_path (paths c) p = v /\ v <> VNil.
Proof.
  pose proof (Get_lookup c p) as H. destruct (Get c p) as [w|e].
  - split; [by intros [= <-]|]. destruct H as [-> _]. by intros [-> _].
  - split; [done|]. rewrite H. naive_solver.
Qed.

Lemma Get_Err c p : is_ok (Get c p) = false <-> lookup_path (paths c) p = VNil.
Proof.
  pose proof (Get_lookup c p) as H. destruct (Get c p) as [w|e]; simpl; naive_solver.
Qed.

Lemma to_option_Get c p :
  to_option (Get c p) =
  match lookup_path (paths c) p with VNil => None | v => Some v end.
Proof.
  pose proof (Get_lookup c p) as H. destruct (Get c p) as [w|e]; simpl.
  - destruct H as [-> Hn]. by destruct w.
  - by rewrite H.
Qed.

(** ** [Set] writes [set_path] *)
Lemma createMaps_at_set v d p key x :
  match set_path v (p ++ [key]) x with
  | Some t => createMaps_at v d p (fun m => <[KStr key := x]> m) = (t, None)
  | None => exists q1 q2, p = q1 ++ q2 /\ blocks (lookup_path v q1) = true /\
      createMaps_at v d p (fun m => <[KStr key := x]> m)
      = (v, Some (Errorf fmtPathNotMap (d ++ q1)))
  end.
Proof.
  revert v d. induction p as [|k p IH]; intros v d.
  - destruct v; simpl; try done; exists [], []; split_and!; by rewrite ?app_nil_r.
  - destruct v as [| | | | | | | | |m| |]; simpl;
      try (exists [], (k :: p); split_and!; by rewrite ?app_nil_r).
    + specialize (IH VNil (d ++ [k])). unfold index. rewrite lookup_empty; simpl.
      destruct (set_path VNil (p ++ [key]) x) as [t|]; simpl.
      * rewrite IH. by rewrite insert_empty.
      * destruct IH as (q1 & q2 & -> & Hb & _). by destruct q1.
    + specialize (IH (index m k) (d ++ [k])).
      destruct (set_path (index m k) (p ++ [key]) x) as [t|]; simpl.
      * by rewrite IH.
      * destruct IH as (q1 & q2 & -> & Hb & ->). exists (k :: q1), q2.
        split_and!; [done|done|]. rewrite <-app_assoc. simpl. f_equal. f_equal.
        apply insert_id, index_not_nil. intros E. rewrite E in Hb. by destruct q1.
Qed.

(** [Set] succeeds exactly when [set_path] does, and otherwise leaves the
    configuration as it was and names the prefix that is not a map. *)
Lemma Set_set_path c p x :
  match set_path (paths c) p (stored p x) with
  | Some t => Set_ c p x = (mkConfig t, None)
  | None => exists q1 q2, p = q1 ++ q2 /\ q2 <> [] /\
      blocks (lookup_path (paths c) q1) = true /\
      Set_ c p x = (c, Some (Errorf fmtPathNotMap q1))
  end.
Proof.
  destruct p as [|key init _] using rev_ind; [done|].
  rewrite Set_snoc. unfold createMaps.
  assert (stored (init ++ [key]) x = stored [key] x) as -> by by destruct init.
  pose proof (createMaps_at_set (paths c) [] init key (stored [key] x)) as H.
  destruct (set_path _ _ _) as [t|]; [by rewrite H|].
  destruct H as (q1 & q2 & -> & Hb & ->). exists q1, (q2 ++ [key]).
  rewrite <-app_assoc. simpl. destruct c as [v]. split_and!; try done. by destruct q2.
Qed.

(** ** Reading back what was written *)
Lemma lookup_set_path v p x t : set_path v p x = Some t -> lookup_path t p = x.
Proof.
  revert v t. induction p as [|k p IH]; intros v t; simpl; [by intros [= ->]|].
  destruct v as [| | | | | | | | |m| |]; try done; intros H;
    apply fmap_Some in H as (c & Hc & ->);
    [rewrite <-(insert_empty (M:=gmap gokey)), index_insert|rewrite index_insert]; eauto.
Qed.

(** Neither path is a prefix of the other. *)
Fixpoint diverge (p q : list string) : bool :=
  match p, q with
  | k :: p', k' :: q' => if decide (k = k') then diverge p' q' else true
  | _, _ => false
  end.

Lemma lookup_set_path_diverge v p q x t :
  diverge p q = true -> set_path v p x = Some t -> lookup_path t q = lookup_path v q.
Proof.
  revert v q t. induction p as [|k p IH]; intros v q t; simpl; [done|].
  destruct q as [|k' q]; [done|]. intros Hd Hs.
  destruct v as [| | | | | | | | |m| |]; simpl in Hs; try done;
    apply fmap_Some in Hs as (c & Hc & ->); simpl.
  - unfold index. case_decide as E; subst.
    + rewrite lookup_singleton_eq; simpl. rewrite (IH _ _ _ Hd Hc).
      by destruct q.
    + rewrite lookup_singleton_ne by congruence. by destruct q.
  - case_decide as E; subst.
    + rewrite index_insert. by apply IH.
    + by rewrite index_insert_ne.
Qed.

Lemma lookup_path_VNil p : lookup_path VNil p = VNil.
Proof. by destruct p. Qed.

Lemma set_path_VNil p x : is_Some (set_path VNil p x).
Proof. induction p; simpl; [eauto|]. by apply fmap_is_Some. Qed.

Lemma set_path_Some v p x :
  is_Some (set_path v p x) <->
  forall q1 q2, p = q1 ++ q2 -> q2 <> [] -> blocks (lookup_path v q1) = false.
Proof.
  revert v. induction p as [|k p IH]; intros v; simpl.
  { split; [|eauto]. intros _ q1 q2 E ?. by destruct q1, q2. }
  destruct v as [| | | | | | | | |m| |]; simpl;
    try (split; [by intros [? ?]|]; intros H; by specialize (H [] (k :: p) eq_refl ltac:(done))).
  - rewrite fmap_is_Some. split; [|intros _; apply set_path_VNil].
    intros _ q1 q2 _ _. by rewrite lookup_path_VNil.
  - rewrite fmap_is_Some, IH. split.
    + intros H q1 q2 E Hn. destruct q1 as [|k' q1]; [done|].
      simpl in *. injection E as <- E. by apply (H q1 q2).
    + intros H q1 q2 -> Hn. by apply (H (k :: q1) q2).
Qed.

(** * [Config.Merge] computes a recursive merge

    [Merge] walks the leaves of the low-priority configuration in the order Go
    enumerates its maps, and sets each leaf the high-priority configuration
    has no value for.  [mergev] is the same operation by structural recursion;
    [visits] is the set of orders of calls the runtime may produce. *)

(** ** The calls of [forEachMap] under every iteration order

    Paths are relative to the map; an entry contributes the calls of its
    subtree with its key in front. *)
Definition under (k : string) (calls : list (list string * value))
    : list (list string * value) :=
  (fun c => (k :: c.1, c.2)) <$> calls.

Inductive visits : value -> list (list string * value) -> Prop :=
| visits_empty : visits (VMap ∅) [([], VMap ∅)]
| visits_range m entries calls :
    m <> ∅ ->
    entries ≡ₚ map_to_list m ->
    Forall2 visits_entry entries calls ->
    visits (VMap m) (concat calls)
with visits_entry : gokey * value -> list (list string * value) -> Prop :=
| visits_other k v : (forall s, k <> KStr s) -> visits_entry (k, v) []
| visits_nil s : visits_entry (KStr s, VNil) []
| visits_map s m calls :
    visits (VMap m) calls -> visits_entry (KStr s, VMap m) (under s calls)
| visits_leaf s v :
    v <> VNil -> as_map v = None -> visits_entry (KStr s, v) (under s [([], v)]).

(** The calls of [ForEach(nil, ...)]. *)
Definition visits_root (v : value) (calls : list (list string * value)) : Prop :=
  match v with
  | VNil => calls = []
  | VMap _ => visits v calls
  | _ => calls = [([], v)]
  end.

(** ** The recursive merge *)
Definition is_str_key (k : gokey) : bool :=
  match k with KStr _ => true | _ => false end.

(** The entries of [merged] under string keys, and the other entries of [mh]. *)
Definition str_entries (merged mh : gmap gokey value) : gmap gokey value :=
  filter (fun kv => is_str_key kv.1 = true) merged ∪
  filter (fun kv => is_str_key kv.1 = false) mh.

(** A nil result leaves the entry of the high-priority map as it was. *)
Definition keep_entry (oh : option value) (merged : value) : option value :=
  match merged with VNil => oh | v => Some v end.

Definition map_or_nil (m : gmap gokey value) : value :=
  if decide (m = ∅) then VNil else VMap m.

Fixpoint mergev (hi lo : value) {struct lo} : value :=
  match lo with
  | VMap ml =>
      if decide (ml = ∅) then match hi with VNil => lo | _ => hi end
      else
        let go mh :=
          str_entries (merge (fun oh over =>
            match over with
            | None => oh
            | Some over_hi => keep_entry oh (over_hi (default VNil oh))
            end) mh ((fun l h => mergev h l) <$> ml)) mh in
        match hi with
        | VNil => map_or_nil (go ∅)
        | VMap mh => VMap (go mh)
        | _ => hi
        end
  | _ => match hi with VNil => lo | _ => hi end
  end.

(** No [*Config] inside: what every decoded configuration satisfies. *)
Fixpoint plain (v : value) : Prop :=
  match v with
  | VConfig _ => False
  | VMap m => map_fold (fun _ v P => plain v /\ P) True m
  | _ => True
  end.

Lemma plain_VMap m : plain (VMap m) <-> map_Forall (fun _ => plain) m.
Proof.
  simpl. induction m as [|k v m Hk Hfirst IH] using map_first_key_ind.
  { rewrite map_fold_empty. split; [|done]. intros _. apply map_Forall_empty. }
  by rewrite map_Forall_insert, map_fold_insert_first_key, IH by done.
Qed.

(** ** One call of the callback *)
Fixpoint fill (hi : value) (p : list string) (x : value) : value :=
  match p with
  | [] => match hi with VNil => x | _ => hi end
  | k :: p' =>
      match hi with
      | VNil => VMap {[KStr k := fill VNil p' x]}
      | VMap m => VMap (<[KStr k := fill (index m k) p' x]> m)
      | _ => hi
      end
  end.

Definition fills (hi : value) (calls : list (list string * value)) : value :=
  fold_left (fun h c => fill h c.1 c.2) calls hi.

Lemma fill_set_path hi p x :
  lookup_path hi p = VNil ->
  fill hi p x = match set_path hi p x with Some t => t | None => hi end.
Proof.
  revert hi. induction p as [|k p IH]; intros hi; simpl; [by intros ->|].
  destruct hi as [| | | | | | | | |m| |]; try done; intros H.
  - rewrite IH by apply lookup_path_VNil.
    destruct (set_path_VNil p x) as [t ->]. done.
  - rewrite IH by done. destruct (set_path (index m k) p x) eqn:E; simpl; [done|].
    f_equal. apply insert_id, index_not_nil. intros E'. rewrite E' in E.
    destruct (set_path_VNil p x). congruence.
Qed.

Lemma fill_present hi p x : lookup_path hi p <> VNil -> fill hi p x = hi.
Proof.
  revert hi. induction p as [|k p IH]; intros hi; simpl; [by destruct hi|].
  destruct hi as [| | | | | | | | |m| |]; try done; intros H.
  rewrite IH by done. f_equal. apply insert_id, index_not_nil. intros E.
  by rewrite E, lookup_path_VNil in H.
Qed.

Lemma merge_visit_fill c p x :
  (forall q, x <> VConfig q) -> merge_visit c (p, x) = mkConfig (fill (paths c) p x).
Proof.
  intros Hx. unfold merge_visit. simpl.
  pose proof (Get_lookup c p) as H. destruct (Get c p) as [v|e].
  - destruct H as [H Hv]. rewrite fill_present by congruence. by destruct c.
  - rewrite fill_set_path by done.
    assert (stored p x = x) as Es by (destruct p, x; naive_solver).
    pose proof (Set_set_path c p x) as HS. rewrite Es in HS.
    destruct (set_path (paths c) p x) as [t|].
    + by rewrite HS.
    + destruct HS as (? & ? & _ & _ & _ & ->). by destruct c.
Qed.

Lemma fill_not_nil hi p x : x <> VNil -> fill hi p x <> VNil.
Proof. intros. destruct p; simpl; by destruct hi. Qed.

Lemma fills_not_nil hi calls :
  calls <> [] -> Forall (fun c => c.2 <> VNil) calls -> fills hi calls <> VNil.
Proof.
  unfold fills. destruct calls as [|[p x] calls]; [done|]. intros _ [Hx Hc]%Forall_cons.
  simpl in *. pose proof (fill_not_nil hi p x Hx) as Hn.
  generalize dependent (fill hi p x). clear p x Hx.
  induction Hc as [|c calls Hc' Hc IH]; intros h Hn; simpl; [done|].
  apply IH. by apply fill_not_nil.
Qed.

Lemma fills_app hi a b : fills hi (a ++ b) = fills (fills hi a) b.
Proof. apply fold_left_app. Qed.

(** The calls of one entry change that entry of the map only. *)
Lemma fills_under_VMap m k calls :
  fills (VMap m) (under k calls) =
  if decide (calls = []) then VMap m else VMap (<[KStr k := fills (index m k) calls]> m).
Proof.
  revert m. induction calls as [|c calls IH]; intros m; [done|].
  rewrite decide_False by done. unfold fills, under in *. simpl. rewrite IH.
  case_decide; [by subst|]. by rewrite index_insert, insert_insert_eq.
Qed.

Lemma fills_under_VNil k calls :
  fills VNil (under k calls) =
  if decide (calls = []) then VNil else fills (VMap ∅) (under k calls).
Proof.
  destruct calls as [|c calls]; [done|]. rewrite decide_False by done.
  unfold fills. simpl. by rewrite <-insert_empty.
Qed.

Lemma fills_blocked hi k calls : blocks hi = true -> fills hi (under k calls) = hi.
Proof.
  intros Hb. unfold fills. induction calls as [|c calls IH]; [done|]. simpl.
  by destruct hi.
Qed.

(** ** [mergev] entry by entry *)
Definition merge_entry (oh : option value) (ol : option value) : option value :=
  match ol with
  | None => oh
  | Some l => keep_entry oh (mergev (default VNil oh) l)
  end.

Definition merge_map (mh ml : gmap gokey value) : gmap gokey value :=
  str_entries (merge (fun oh over =>
    match over with
    | None => oh
    | Some over_hi => keep_entry oh (over_hi (default VNil oh))
    end) mh ((fun l h => mergev h l) <$> ml)) mh.

Lemma mergev_nonempty hi ml :
  ml <> ∅ ->
  mergev hi (VMap ml) =
  match hi with
  | VNil => map_or_nil (merge_map ∅ ml)
  | VMap mh => VMap (merge_map mh ml)
  | _ => hi
  end.
Proof. intros Hml. simpl. rewrite decide_False by done. by destruct hi. Qed.

Lemma merge_map_lookup mh ml k :
  merge_map mh ml !! k =
  if is_str_key k then merge_entry (mh !! k) (ml !! k) else mh !! k.
Proof.
  unfold merge_map, str_entries.
  rewrite lookup_union, !map_lookup_filter, lookup_merge, lookup_fmap.
  unfold merge_entry. destruct (mh !! k) as [h|], (ml !! k) as [l|]; simpl;
    repeat (destruct (keep_entry _ _); simpl);
    destruct (is_str_key k) eqn:Ek; simpl; repeat case_guard; simpl in *;
    first [reflexivity | congruence].
Qed.

(** One entry of the low-priority map, applied to the high-priority one. *)
Definition entry_apply (mh : gmap gokey value) (kv : gokey * value) : gmap gokey value :=
  match kv.1 with
  | KStr s =>
      match mergev (index mh s) kv.2 with
      | VNil => mh
      | w => <[KStr s := w]> mh
      end
  | _ => mh
  end.

Lemma entry_apply_lookup mh k v k' :
  entry_apply mh (k, v) !! k' =
  if decide (k = k')
  then (if is_str_key k then merge_entry (mh !! k) (Some v) else mh !! k)
  else mh !! k'.
Proof.
  unfold entry_apply, merge_entry, keep_entry, index. simpl.
  destruct k; case_decide; subst; simpl; try done;
    destruct (mergev _ v); simpl; by simplify_map_eq.
Qed.

Lemma entries_apply_lookup entries mh k :
  NoDup entries.*1 ->
  fold_left entry_apply entries mh !! k =
  (if is_str_key k
   then merge_entry (mh !! k) ((list_to_map entries : gmap gokey value) !! k)
   else mh !! k).
Proof.
  revert mh. induction entries as [|[k0 v0] entries IH]; intros mh Hnd; simpl.
  { rewrite lookup_empty. by destruct (is_str_key k). }
  apply NoDup_cons in Hnd as [Hk0 Hnd]. rewrite IH, entry_apply_lookup by done.
  case_decide as E; subst.
  - rewrite lookup_insert_eq.
    rewrite (not_elem_of_list_to_map_1 entries k) by done. by destruct (is_str_key k).
  - by rewrite lookup_insert_ne.
Qed.

Lemma entries_apply_merge_map entries mh ml :
  entries ≡ₚ map_to_list ml -> fold_left entry_apply entries mh = merge_map mh ml.
Proof.
  intros Hp.
  assert (NoDup entries.*1) as Hnd by (rewrite Hp; apply NoDup_fst_map_to_list).
  apply map_eq. intros k. rewrite entries_apply_lookup, merge_map_lookup by done.
  rewrite (list_to_map_proper (M:=gmap gokey) _ _ Hnd Hp). by rewrite list_to_map_to_list.
Qed.

(** ** The calls carry no nil *)
Lemma under_Forall (P : value -> Prop) k calls :
  Forall (fun c => P c.2) calls -> Forall (fun c => P c.2) (under k calls).
Proof. intros H. apply Forall_fmap. by eapply Forall_impl. Qed.

Lemma visits_Forall (P : value -> Prop) v :
  (forall m, v = VMap m -> map_Forall (fun _ => fun x => x <> VNil -> forall calls,
     visits_root x calls -> Forall (fun c => P c.2) calls) m) ->
  P (VMap ∅) ->
  forall calls, visits v calls -> Forall (fun c => P c.2) calls.
Proof.
  intros Hm Hempty calls Hv. destruct Hv as [|m entries css Hne Hp Hcss].
  { by constructor. }
  apply Forall_concat. specialize (Hm m eq_refl).
  assert (Forall (fun kv => m !! kv.1 = Some kv.2) entries) as Hin.
  { rewrite Hp. apply Forall_forall. intros [k x] Hx. by apply elem_of_map_to_list. }
  clear Hp Hne. induction Hcss as [|[k x] cs entries css Hcs Hcss IH]; [constructor|].
  apply Forall_cons in Hin as [Hk Hin]. simpl in Hk. constructor; [|by apply IH].
  specialize (Hm k x Hk).
  inversion Hcs as [| |? ? calls Hv|? ? Hn Hmap]; subst.
  - constructor.
  - constructor.
  - apply under_Forall. by apply Hm.
  - apply under_Forall, (Hm Hn [([], x)]). by destruct x.
Qed.

Lemma visits_values_not_nil v :
  forall calls, visits v calls -> Forall (fun c => c.2 <> VNil) calls.
Proof.
  induction v as [v ? ? ? ?|l Hl|m Hm|m Hm|p Hp] using value_ind';
    intros calls Hv; try by inversion Hv.
  - inversion Hv; subst; naive_solver.
  - apply (visits_Forall (fun x => x <> VNil) (VMap m)); [|done..].
    intros m' [= <-] k x Hx Hn calls' Hr.
    destruct x; simpl in Hr; subst; try by repeat constructor.
    by eapply (Hm k).
Qed.

(** ** The calls of a subtree compute its merge *)
Lemma mergev_leaf hi x :
  x <> VNil -> as_map x = None -> fills hi [([], x)] = mergev hi x.
Proof. intros Hn Hm. unfold fills. simpl. by destruct x. Qed.

Lemma entry_calls_VMap mh k x calls :
  (forall hi calls, visits x calls -> fills hi calls = mergev hi x) ->
  visits_entry (k, x) calls ->
  fills (VMap mh) calls = VMap (entry_apply mh (k, x)).
Proof.
  intros IH Hc. unfold entry_apply.
  assert (forall s, fills (index mh s) [] = VNil \/
    <[KStr s := fills (index mh s) []]> mh = mh) as Hid.
  { intros s. unfold fills. simpl. destruct (index mh s) eqn:E; [by left|right..];
      (apply insert_id; rewrite <-E; apply index_not_nil; congruence). }
  inversion Hc as [? ? Hk|s|s m cs Hv|s ? Hn Hm]; subst; cbn [fst snd].
  - destruct k; naive_solver.
  - specialize (Hid s). unfold fills in *. simpl in *.
    destruct (index mh s); destruct Hid as [?|E]; try done; by rewrite E.
  - rewrite fills_under_VMap, <-(IH (index mh s) cs) by done.
    case_decide as E; subst.
    + destruct (Hid s) as [->|E]; [done|]. destruct (fills _ _); by rewrite ?E.
    + pose proof (fills_not_nil (index mh s) cs E (visits_values_not_nil _ _ Hv)).
      by destruct (fills (index mh s) cs).
  - rewrite fills_under_VMap, <-mergev_leaf by done. rewrite decide_False by done.
    pose proof (fills_not_nil (index mh s) [([], x)]).
    destruct (fills (index mh s) [([], x)]); naive_solver.
Qed.

Lemma entry_calls_VNil k x calls :
  visits_entry (k, x) calls ->
  fills VNil calls = if decide (calls = []) then VNil else fills (VMap ∅) calls.
Proof.
  inversion 1; subst; [by rewrite decide_True|by rewrite decide_True|..].
  - rewrite fills_under_VNil. repeat case_decide; subst; try done.
    by destruct calls0.
  - rewrite fills_under_VNil. by rewrite !decide_False.
Qed.

Lemma entries_calls_VMap entries css mh :
  Forall (fun kv => forall hi calls, visits kv.2 calls -> fills hi calls = mergev hi kv.2)
    entries ->
  Forall2 visits_entry entries css ->
  fills (VMap mh) (concat css) = VMap (fold_left entry_apply entries mh).
Proof.
  intros Hall Hc. revert mh. induction Hc as [|[k x] calls entries css Hx Hc IH]; intros mh.
  { done. }
  apply Forall_cons in Hall as [Hk Hall]. simpl. rewrite fills_app.
  rewrite (entry_calls_VMap mh k x) by done. by apply IH.
Qed.

Lemma entries_calls_VNil entries css :
  Forall2 visits_entry entries css ->
  fills VNil (concat css) =
  if decide (concat css = []) then VNil else fills (VMap ∅) (concat css).
Proof.
  induction 1 as [|[k x] calls entries css Hx Hc IH]; [done|]. simpl.
  rewrite !fills_app, (entry_calls_VNil k x) by done.
  destruct calls as [|c calls]; [exact IH|]. by rewrite !decide_False.
Qed.

Lemma entries_calls_blocked hi entries css :
  blocks hi = true -> Forall2 visits_entry entries css -> fills hi (concat css) = hi.
Proof.
  intros Hb. induction 1 as [|[k x] calls entries css Hx Hc IH]; [done|]. simpl.
  rewrite fills_app. inversion Hx; subst; rewrite ?fills_blocked by done; done.
Qed.

Lemma fills_VMap_nonempty mh calls :
  Forall (fun c => c.2 <> VNil /\ c.1 <> []) calls -> calls <> [] ->
  exists m, fills (VMap mh) calls = VMap m /\ m <> ∅.
Proof.
  intros Hc. revert mh. induction Hc as [|[p x] calls [Hx Hp] Hc IH]; [done|].
  intros mh _. unfold fills in *. simpl in *. destruct p as [|k p]; [done|]. simpl.
  destruct calls as [|c calls].
  - eexists. split; [done|]. apply insert_non_empty.
  - by apply IH.
Qed.

Theorem visits_fills v : forall hi calls, visits v calls -> fills hi calls = mergev hi v.
Proof.
  induction v as [v ? ? ? ?|l Hl|m Hm|m Hm|p Hp] using value_ind';
    intros hi calls Hv; try by inversion Hv.
  { inversion Hv; subst; naive_solver. }
  inversion Hv as [E|m' entries css Hne Hp Hc]; subst.
  { unfold fills. simpl. by destruct hi. }
  assert (Forall (fun kv => forall hi calls, visits kv.2 calls ->
    fills hi calls = mergev hi kv.2) entries) as Hall.
  { rewrite Hp. apply Forall_forall. intros [k x] Hx%elem_of_map_to_list.
    by apply (Hm k). }
  rewrite mergev_nonempty by done.
  destruct hi as [| | | | | | | | |mh| |];
    try (by apply (entries_calls_blocked _ entries)).
  - rewrite (entries_calls_VNil entries) by done. unfold map_or_nil.
    rewrite (entries_calls_VMap entries), (entries_apply_merge_map _ _ m) by done.
    destruct (decide (concat css = [])) as [E|E].
    + pose proof (entries_calls_VMap entries css ∅ Hall Hc) as H'.
      rewrite E, (entries_apply_merge_map _ _ m) in H' by done.
      injection H' as <-. by rewrite decide_True.
    + rewrite decide_False; [done|].
      destruct (fills_VMap_nonempty ∅ (concat css)) as (r & Hr & Hrne); [|done|].
      * apply Forall_and. split; [by apply (visits_values_not_nil (VMap m))|].
        apply Forall_concat. clear -Hc.
        induction Hc as [|[k x] cs entries css Hx Hc IH]; constructor; [|done].
        inversion Hx; subst; try constructor; try done.
        by apply Forall_fmap, Forall_true.
      * rewrite (entries_calls_VMap entries), (entries_apply_merge_map _ _ m) in Hr by done.
        by injection Hr as <-.
  - by rewrite (entries_calls_VMap entries), (entries_apply_merge_map _ _ m).
Qed.

(** ** [forEachMap] is one of the orders *)
Definition prefixed (path : list string) (calls : list (list string * value))
    : list (list string * value) :=
  (fun c => (path ++ c.1, c.2)) <$> calls.

Lemma prefixed_under path s calls :
  prefixed (path ++ [s]) calls = prefixed path (under s calls).
Proof.
  unfold prefixed, under. rewrite <-list_fmap_compose. apply list_fmap_ext.
  intros i c _. simpl. by rewrite <-app_assoc.
Qed.

Lemma prefixed_nil calls : prefixed [] calls = calls.
Proof. unfold prefixed. rewrite <-(list_fmap_id calls) at 2. apply list_fmap_ext. by intros ? [] _. Qed.

Definition forEachMap_entry (path : list string) (k : gokey) (v : value)
    : list (list string * value) :=
  match k with
  | KStr str =>
      match v with
      | VMap _ => forEachMap (path ++ [str]) v
      | VNil => []
      | _ => [(path ++ [str], v)]
      end
  | _ => []
  end.

Lemma forEachMap_entries path m :
  m <> ∅ ->
  forEachMap path (VMap m) =
  concat ((fun kv => forEachMap_entry path kv.1 kv.2) <$> map_to_list m).
Proof.
  intros Hm. simpl. rewrite decide_False by done. clear Hm.
  rewrite map_fold_foldr. induction (map_to_list m) as [|[k v] l IH]; [done|]. simpl.
  unfold forEachMap_entry at 1. simpl. rewrite IH.
  by destruct k as [s| | | | | |], v.
Qed.

Lemma forEachMap_visits v :
  is_Some (as_map v) -> exists calls, visits v calls /\
    forall path, forEachMap path v = prefixed path calls.
Proof.
  induction v as [v ? ? ? ?|l Hl|m Hm|m Hm|p Hp] using value_ind';
    intros [m' Hv]; try done.
  { destruct v; naive_solver. }
  destruct (decide (m = ∅)) as [->|Hne].
  { exists [([], VMap ∅)]. split; [constructor|]. intros path.
    unfold prefixed. simpl. by rewrite app_nil_r. }
  assert (exists css, Forall2 visits_entry (map_to_list m) css /\
    forall path, Forall2 (fun kv cs => forEachMap_entry path kv.1 kv.2 = prefixed path cs)
      (map_to_list m) css) as (css & H1 & H2).
  { assert (Forall (fun kv => exists cs, visits_entry kv cs /\
      forall path, forEachMap_entry path kv.1 kv.2 = prefixed path cs) (map_to_list m)) as HF.
    { apply Forall_forall. intros [k x] Hx%elem_of_map_to_list. simpl.
      destruct k as [s| | | | | |]; try (exists []; split; [by constructor|done]).
      destruct (as_map x) as [mx|] eqn:Ex.
      - destruct x; try done. destruct (Hm _ _ Hx) as (cs & Hv' & Heq); [done|].
        exists (under s cs). split; [by apply visits_map|]. intros path.
        unfold forEachMap_entry. cbn [fst snd]. by rewrite Heq, prefixed_under.
      - destruct (decide (is_nil x = true)).
        + destruct x; try done. exists []. split; [apply visits_nil|done].
        + exists (under s [([], x)]). split; [apply visits_leaf; by destruct x|].
          intros path. by destruct x. }
    apply Forall_exists_Forall2_l in HF as (css & HF). exists css. split.
    - eapply Forall2_impl; [exact HF|]. naive_solver.
    - intros path. eapply Forall2_impl; [exact HF|]. naive_solver. }
  exists (concat css). split; [by eapply visits_range|].
  intros path. rewrite forEachMap_entries by done. specialize (H2 path). clear -H2.
  induction H2 as [|kv cs l css Hkv HF IH]; [done|].
  rewrite fmap_cons. cbn [concat]. rewrite Hkv, IH. unfold prefixed. by rewrite fmap_app.
Qed.

Lemma ForEach_visits_root c : visits_root (paths c) (ForEach c []).
Proof.
  unfold ForEach. destruct (paths c) as [| | | | | | | | |m| |]; try done.
  destruct (forEachMap_visits (VMap m)) as (calls & Hv & Heq); [eauto|].
  cbn [visits_root]. by rewrite Heq, prefixed_nil.
Qed.

(** ** [Merge] refines [mergev] *)
Lemma visits_plain v :
  plain v -> forall calls, visits v calls -> Forall (fun c => forall q, c.2 <> VConfig q) calls.
Proof.
  induction v as [v ? ? ? ?|l Hl|m Hm|m Hm|p Hp] using value_ind';
    intros Hpl calls Hv; try by inversion Hv.
  - inversion Hv; subst; naive_solver.
  - apply (visits_Forall (fun x => forall q, x <> VConfig q) (VMap m)); [|done..].
    intros m' [= <-] k x Hx Hn calls' Hr.
    pose proof (proj1 (plain_VMap m) Hpl k x Hx) as Hpx.
    destruct x; simpl in Hr; subst; try by repeat constructor.
    by eapply (Hm k).
Qed.

Lemma merge_visits_fills c calls :
  Forall (fun x => forall q, x.2 <> VConfig q) calls ->
  fold_left merge_visit calls c = mkConfig (fills (paths c) calls).
Proof.
  intros Hc. revert c. induction Hc as [|[p x] calls Hx Hc IH]; intros c; simpl.
  - by destruct c.
  - by rewrite merge_visit_fill, IH.
Qed.

Lemma merge_any_order c low calls :
  plain (paths low) -> visits_root (paths low) calls ->
  fold_left merge_visit calls c = mkConfig (mergev (paths c) (paths low)).
Proof.
  intros Hpl Hv. destruct (paths low) as [| | | | | | | | |m| |] eqn:E; simpl in Hv;
    subst; try done;
    try (rewrite merge_visits_fills by (by repeat constructor); by destruct (paths c)).
  rewrite merge_visits_fills by (by eapply visits_plain). by erewrite visits_fills.
Qed.

Lemma Merge_mergev c low :
  plain (paths low) -> Merge c low = mkConfig (mergev (paths c) (paths low)).
Proof. intros Hpl. apply merge_any_order; [done|]. apply ForEach_visits_root. Qed.

(** ** [mergev] path by path *)
Definition child (v : value) (k : string) : value :=
  match v with VMap m => index m k | _ => VNil end.

Lemma lookup_path_cons v k p : lookup_path v (k :: p) = lookup_path (child v k) p.
Proof. destruct v; simpl; by rewrite ?lookup_path_VNil. Qed.

Lemma mergev_VNil_r hi : mergev hi VNil = hi.
Proof. by destruct hi. Qed.

Lemma mergev_is_nil hi lo : mergev hi lo = VNil -> hi = VNil.
Proof.
  destruct lo; simpl; try (by destruct hi).
  case_decide; [by destruct hi|]. by destruct hi.
Qed.

Lemma index_merge_map mh ml k :
  index (merge_map mh ml) k = mergev (index mh k) (index ml k).
Proof.
  unfold index. rewrite merge_map_lookup. simpl. unfold merge_entry.
  destruct (ml !! KStr k) as [l|]; simpl; [|by destruct (mh !! KStr k) as [[]|]].
  destruct (mergev (default VNil (mh !! KStr k)) l) eqn:E; simpl; try done.
  by apply mergev_is_nil in E.
Qed.

Lemma mergev_atom hi lo :
  (forall k, child lo k = VNil) -> (forall m, lo = VMap m -> m = ∅) ->
  forall k, child (mergev hi lo) k = if blocks hi then VNil else child hi k.
Proof.
  intros Hc Hm k.
  assert (mergev hi lo = match hi with VNil => lo | _ => hi end) as ->.
  { destruct lo; try done. by rewrite (Hm m eq_refl). }
  by destruct hi.
Qed.

Lemma child_mergev hi lo k :
  child (mergev hi lo) k = if blocks hi then VNil else mergev (child hi k) (child lo k).
Proof.
  assert ((exists ml, lo = VMap ml /\ ml <> ∅) \/ ~ (exists ml, lo = VMap ml /\ ml <> ∅))
    as [(ml & -> & Hne)|Hl].
  { destruct lo as [| | | | | | | | |ml| |]; try (right; naive_solver).
    destruct (decide (ml = ∅)); naive_solver. }
  - rewrite mergev_nonempty by done. destruct hi; try done.
    + pose proof (index_merge_map ∅ ml k) as H. rewrite index_empty in H.
      unfold map_or_nil. case_decide as E; cbn [child blocks]; [|done].
      by rewrite E, index_empty in H.
    + apply index_merge_map.
  - assert (forall k, child lo k = VNil) as Hc.
    { intros k'. destruct lo as [| | | | | | | | |ml| |]; try done.
      destruct (decide (ml = ∅)) as [->|]; [|naive_solver].
      apply index_empty. }
    rewrite Hc, mergev_VNil_r. apply mergev_atom; [done|].
    intros m ->. destruct (decide (m = ∅)); [done|naive_solver].
Qed.

(** No proper prefix of the path is blocked by a value that is not a map. *)
Fixpoint open_path (v : value) (p : list string) : bool :=
  match p with
  | [] => true
  | k :: p' => negb (blocks v) && open_path (child v k) p'
  end.

Lemma lookup_mergev hi lo p :
  lookup_path (mergev hi lo) p =
  if open_path hi p then mergev (lookup_path hi p) (lookup_path lo p) else VNil.
Proof.
  revert hi lo. induction p as [|k p IH]; intros hi lo; [done|].
  rewrite !lookup_path_cons, child_mergev. simpl.
  destruct (blocks hi); simpl; [by rewrite lookup_path_VNil|]. apply IH.
Qed.

Lemma lookup_open hi p : lookup_path hi p <> VNil -> open_path hi p = true.
Proof.
  revert hi. induction p as [|k p IH]; intros hi; [done|].
  rewrite lookup_path_cons. intros H. simpl. rewrite IH by done.
  destruct hi; simpl in *; by rewrite ?lookup_path_VNil in H.
Qed.

Lemma mergev_keep hi lo : blocks hi = true -> mergev hi lo = hi.
Proof. destruct lo; destruct hi; try done; intros _; cbn [mergev]; by case_decide. Qed.
