(* ===== verification/ConfigProps.v ===== *)
(** * What the configuration container guarantees

    The properties of [Set], [Get], [Elems], [ForEach], [Merge] and
    [UnmarshalYAML] ([lib/cluster/config.go]), from the facts of
    [ConfigFacts]. *)
From S2P Require Import Prelude Value Config ConfigFacts.

(** A concrete configuration the witnesses use:
    [{a: {b: 1, c: {}}, d: "x"}]. *)
Definition sample : Config :=
  mkConfig (VMap {[
    KStr "a" := VMap {[ KStr "b" := VInt 1; KStr "c" := VMap ∅ ]};
    KStr "d" := VStr "x" ]}).

(** ** [Set] and [Get] *)

(** C32: After a successful Set a Get of the same path returns the value
    stored (the copy of the tree for a *Config argument), and every path that
    neither extends nor is a prefix of it reads as before. *)
Theorem Get_after_Set c p v c' :
  Set_ c p v = (c', None) -> stored p v <> VNil ->
  Get c' p = Ok (stored p v) /\
  forall q, diverge p q = true -> to_option (Get c' q) = to_option (Get c q).
Proof.
  intros HS Hn. pose proof (Set_set_path c p v) as H.
  destruct (set_path _ _ _) as [t|] eqn:E.
  - rewrite HS in H. injection H as ->. split.
    + apply Get_Ok. split; [|done]. by eapply lookup_set_path.
    + intros q Hq. rewrite !to_option_Get. simpl. by erewrite lookup_set_path_diverge.
  - destruct H as (? & ? & _ & _ & _ & H). congruence.
Qed.

Lemma Get_after_Set_witness :
  Get (Set_ sample ["a"; "e"; "f"] (VInt 7)).1 ["a"; "e"; "f"] = Ok (VInt 7) /\
  to_option (Get (Set_ sample ["a"; "e"; "f"] (VInt 7)).1 ["a"; "b"]) = Some (VInt 1).
Proof.
  destruct (Get_after_Set sample ["a"; "e"; "f"] (VInt 7)
    (Set_ sample ["a"; "e"; "f"] (VInt 7)).1 ltac:(vm_compute; reflexivity)
    ltac:(discriminate)) as [H1 H2].
  split; [exact H1|]. rewrite (H2 ["a"; "b"]); vm_compute; reflexivity.
Defined.

(** Set succeeds exactly when no proper prefix of the path holds a value
    that is neither a map nor nil; when it fails it leaves the configuration
    unchanged and returns the not-a-map error naming that prefix, which is not
    a NotExistError. *)
Theorem Set_outcome c p v :
  ((Set_ c p v).2 = None <->
   forall q1 q2, p = q1 ++ q2 -> q2 <> [] -> blocks (lookup_path (paths c) q1) = false) /\
  (forall e, (Set_ c p v).2 = Some e ->
   (Set_ c p v).1 = c /\ is_not_exist e = false /\
   exists q1 q2, p = q1 ++ q2 /\ q2 <> [] /\ e = Errorf fmtPathNotMap q1 /\
     blocks (lookup_path (paths c) q1) = true).
Proof.
  rewrite <-(set_path_Some _ _ (stored p v)).
  pose proof (Set_set_path c p v) as H. destruct (set_path _ _ _) as [t|].
  - rewrite H. simpl. split; [|done]. split; [by eexists|done].
  - destruct H as (q1 & q2 & Hp & Hq & Hb & ->). simpl. split.
    + split; [done|]. by intros [? ?].
    + intros e [= <-]. split_and!; [done|done|]. eauto 10.
Qed.

(** ** [ForEach] *)
Definition is_leaf (x : value) : bool :=
  match x with
  | VNil => false
  | VMap m => bool_decide (m = ∅)
  | _ => true
  end.

Lemma elem_of_under q x s calls :
  (q, x) ∈ under s calls <-> exists q', q = s :: q' /\ (q', x) ∈ calls.
Proof.
  unfold under. rewrite list_elem_of_fmap. split.
  - intros ([q' x'] & [= -> ->] & H). eauto.
  - intros (q' & -> & H). by exists (q', x).
Qed.

Lemma under_fst s calls : (under s calls).*1 = cons s <$> calls.*1.
Proof. unfold under. by rewrite <-!list_fmap_compose. Qed.

Lemma Forall2_elem_of_l {A B} (R : A -> B -> Prop) l k x :
  Forall2 R l k -> x ∈ l -> exists y, y ∈ k /\ R x y.
Proof.
  induction 1 as [|a b l k HR HF IH]; intros Hx; [by apply not_elem_of_nil in Hx|].
  apply elem_of_cons in Hx as [->|Hx]; [exists b; split; [left|done]|].
  destruct (IH Hx) as (y & ? & ?). exists y. split; [by right|done].
Qed.

Lemma Forall2_elem_of_r {A B} (R : A -> B -> Prop) l k y :
  Forall2 R l k -> y ∈ k -> exists x, x ∈ l /\ R x y.
Proof. intros H Hy. apply Forall2_flip in H. by eapply (Forall2_elem_of_l _ _ _ _ H). Qed.

Lemma visits_elem_of v : forall calls, visits v calls ->
  forall q x, (q, x) ∈ calls <-> lookup_path v q = x /\ is_leaf x = true.
Proof.
  induction v as [v ? ? ? ?|l Hl|m Hm|m Hm|p Hp] using value_ind';
    intros calls Hv q x; try by inversion Hv.
  { inversion Hv; subst; naive_solver. }
  inversion Hv as [E|m' entries css Hne Hp Hc]; subst.
  { rewrite list_elem_of_singleton. split.
    - intros [= -> ->]. done.
    - destruct q as [|k q]; simpl; [naive_solver|].
      rewrite index_empty, lookup_path_VNil. by intros [<- ?]. }
  rewrite list_elem_of_In, in_concat. setoid_rewrite <-list_elem_of_In. split.
  - intros (cs & Hcs & Hq).
    destruct (Forall2_elem_of_r _ _ _ _ Hc Hcs) as ([k y] & Hk & Hy).
    rewrite Hp in Hk. apply elem_of_map_to_list in Hk. specialize (Hm k y Hk).
    inversion Hy as [| |s my cs' Hv'|s ? Hn Hmap]; subst;
      try (by apply not_elem_of_nil in Hq);
      apply elem_of_under in Hq as (q' & -> & Hq); simpl; rewrite (index_Some _ _ _ Hk).
    + by apply (Hm cs').
    + apply list_elem_of_singleton in Hq as [= -> ->]. by destruct y.
  - destruct q as [|s q]; simpl.
    { intros [<- Hl]. by apply bool_decide_eq_true in Hl. }
    intros [Hl Hx].
    assert (index m s <> VNil) as Hn0.
    { intros E. rewrite E, lookup_path_VNil in Hl. by subst. }
    pose proof (index_not_nil m s Hn0) as Hk.
    assert ((KStr s, index m s) ∈ entries) as Hin
      by (rewrite Hp; by apply elem_of_map_to_list).
    destruct (Forall2_elem_of_l _ _ _ _ Hc Hin) as (cs & Hcs & Hy).
    exists cs. split; [done|]. specialize (Hm _ _ Hk).
    inversion Hy as [? ? Hk'| |s' my cs' Hv'|s' ? Hn Hmap]; subst.
    + by destruct (Hk' s).
    + congruence.
    + apply elem_of_under. exists q. split; [done|]. apply Hm; [congruence|].
      split; [congruence|done].
    + apply elem_of_under. exists q. split; [done|]. apply list_elem_of_singleton.
      destruct q; [done|]. simpl in Hx. by destruct (index m s).
Qed.

Lemma visits_NoDup v : forall calls, visits v calls -> NoDup calls.*1.
Proof.
  induction v as [v ? ? ? ?|l Hl|m Hm|m Hm|p Hp] using value_ind';
    intros calls Hv; try by inversion Hv.
  { inversion Hv; subst; naive_solver. }
  inversion Hv as [E|m' entries css Hne Hp Hc]; subst; [apply NoDup_singleton|].
  assert (NoDup entries.*1) as Hnd by (rewrite Hp; apply NoDup_fst_map_to_list).
  assert (Forall (fun kv => m !! kv.1 = Some kv.2) entries) as Hin.
  { rewrite Hp. apply Forall_forall. intros [k x] Hx. by apply elem_of_map_to_list. }
  clear Hp Hne Hv. induction Hc as [|[k y] cs entries css Hy Hc IH]; [constructor|].
  apply NoDup_cons in Hnd as [Hk Hnd]. apply Forall_cons in Hin as [Hky Hin].
  simpl in *. rewrite fmap_app. apply NoDup_app. split_and!; [| |by apply IH].
  - inversion Hy as [| |s my cs' Hv'|s ? Hn Hmap]; subst; simpl; try constructor;
      [|by apply not_elem_of_nil|constructor].
    rewrite under_fst.
    apply (NoDup_fmap_2 (cons s)). by apply (Hm _ _ Hky).
  - intros q ([q1 x1] & -> & Hq1)%list_elem_of_fmap ([q2 x2] & Heq & Hq2)%list_elem_of_fmap.
    simpl in Heq. subst q2.
    apply list_elem_of_In, in_concat in Hq2 as (cs2 & Hcs2 & Hq2).
    apply list_elem_of_In in Hcs2, Hq2.
    destruct (Forall2_elem_of_r _ _ _ _ Hc Hcs2) as ([k2 y2] & Hk2 & Hy2).
    apply Hk. apply list_elem_of_fmap. exists (k2, y2). split; [|done].
    inversion Hy; inversion Hy2; subst; simpl;
      repeat match goal with
      | H : _ ∈ [] |- _ => by apply not_elem_of_nil in H
      | H : _ ∈ under _ _ |- _ => apply elem_of_under in H as (? & ? & _)
      end; congruence.
Qed.

(** Under every iteration order ForEach calls the callback exactly once
    for each leaf of the configuration (a value that is not a map, or an empty
    map), with the path under which Get returns that leaf. *)
Theorem ForEach_leaves c calls :
  visits_root (paths c) calls ->
  NoDup calls.*1 /\
  forall q x, (q, x) ∈ calls <-> Get c q = Ok x /\ is_leaf x = true.
Proof.
  intros Hv. assert (forall q x, (q, x) ∈ calls <->
    lookup_path (paths c) q = x /\ is_leaf x = true) as H.
  { destruct (paths c) eqn:E; simpl in Hv; subst; try (by apply visits_elem_of);
      intros [|k q] x; simpl; rewrite ?list_elem_of_singleton;
      set_solver. }
  split.
  - destruct (paths c) eqn:E; simpl in Hv; subst;
      try apply NoDup_singleton; [constructor|by eapply visits_NoDup].
  - intros q x. rewrite H, Get_Ok. split; [|naive_solver].
    intros [? Hl]. split; [|done]. split; [done|]. by destruct x.
Qed.

Lemma ForEach_leaves_witness :
  NoDup (ForEach sample []).*1 /\
  (["a"; "b"], VInt 1) ∈ ForEach sample [].
Proof.
  destruct (ForEach_leaves sample (ForEach sample []) (ForEach_visits_root sample)) as [H1 H2].
  split; [exact H1|]. apply H2. split; vm_compute; reflexivity.
Defined.

(** ** [Elems] *)

(** Elems returns each string key of the map at the path exactly once and
    nothing else. *)
Theorem Elems_keys c p ks :
  Elems c p = Ok ks ->
  NoDup ks /\
  exists m, lookup_path (paths c) p = VMap m /\ forall k, k ∈ ks <-> is_Some (m !! KStr k).
Proof.
  assert (forall m, NoDup (string_keys m) /\
    forall k, k ∈ string_keys m <-> is_Some (m !! KStr k)) as Hkeys.
  { intros m. unfold string_keys. split.
    - pose proof (NoDup_fst_map_to_list m) as H.
      induction (map_to_list m) as [|[k v] l IH]; simpl; [constructor|].
      apply NoDup_cons in H as [Hk H]. destruct k as [s| | | | | |]; simpl; auto.
      apply NoDup_cons. split; [|auto]. rewrite list_elem_of_omap.
      intros ([k' v'] & Hin & E). simpl in *. destruct k'; simplify_eq.
      apply Hk, list_elem_of_fmap. by exists (KStr s, v').
    - intros k. rewrite list_elem_of_omap. split.
      + intros ([k' v'] & Hin%elem_of_map_to_list & E). simpl in *.
        destruct k'; simplify_eq. eauto.
      + intros [v Hv]. exists (KStr k, v). by rewrite elem_of_map_to_list. }
  unfold Elems. destruct p as [|k p].
  - destruct (paths c) as [| | | | | | | | |m| |]; try done. intros [= <-].
    split; [apply Hkeys|]. exists m. split; [done|apply Hkeys].
  - unfold getMap. pose proof (getMap_at_lookup (paths c) [] (k :: p)) as H.
    destruct (getMap_at _ _ _) as [m|e]; simpl; [|done]. intros [= <-].
    split; [apply Hkeys|]. exists m. split; [done|apply Hkeys].
Qed.

Lemma Elems_keys_witness :
  exists ks, Elems sample ["a"] = Ok ks /\ NoDup ks.
Proof.
  eexists. split; [vm_compute; reflexivity|].
  refine (proj1 (Elems_keys sample ["a"] _ _)). vm_compute. reflexivity.
Defined.

(** ** [Merge] *)

(** C1: Merge, run with the calls of ForEach in any order Go may enumerate the
    maps of the low-priority configuration, gives the recursive merge of the
    two trees; in particular the result does not depend on the iteration
    order. *)
Theorem Merge_refines_mergev c low calls :
  plain (paths low) -> visits_root (paths low) calls ->
  fold_left merge_visit calls c = mkConfig (mergev (paths c) (paths low)) /\
  Merge c low = fold_left merge_visit calls c.
Proof.
  intros Hpl Hv. split; [by apply merge_any_order|].
  rewrite Merge_mergev by done. symmetry. by apply merge_any_order.
Qed.

(** A second configuration, [{a: {b: 2, e: 3}, d: {z: 1}, n: null}]. *)
Definition sample_low : Config :=
  mkConfig (VMap {[
    KStr "a" := VMap {[ KStr "b" := VInt 2; KStr "e" := VInt 3 ]};
    KStr "d" := VMap {[ KStr "z" := VInt 1 ]};
    KStr "n" := VNil ]}).

Lemma Merge_refines_mergev_witness :
  Merge sample sample_low = mkConfig (mergev (paths sample) (paths sample_low)).
Proof.
  destruct (Merge_refines_mergev sample sample_low (ForEach sample_low [])
    ltac:(vm_compute; tauto) (ForEach_visits_root sample_low)) as [H1 H2].
  congruence.
Defined.

(** C2: After Merge a value that is not a map is read at a path exactly when
    the high-priority configuration has it there, or has nothing there and the
    low-priority one has it; a low-priority value is copied to every path that
    no high-priority value blocks. *)
Theorem Merge_priority c low p v :
  plain (paths low) -> as_map v = None ->
  (Get c p = Ok v -> Get (Merge c low) p = Ok v) /\
  (is_ok (Get c p) = false -> open_path (paths c) p = true -> Get low p = Ok v ->
   Get (Merge c low) p = Ok v) /\
  (Get (Merge c low) p = Ok v -> Get c p = Ok v \/ (is_ok (Get c p) = false /\ Get low p = Ok v)).
Proof.
  intros Hpl Hv. rewrite Merge_mergev by done. rewrite Get_Err, !Get_Ok. simpl.
  rewrite lookup_mergev. split_and!.
  - intros [<- Hn]. rewrite lookup_open by done.
    split; [|done]. destruct (lookup_path (paths c) p) eqn:E; try done;
      destruct (lookup_path (paths low) p); try done; simpl; by case_decide.
  - intros -> -> [<- Hn]. split; [|done].
    destruct (lookup_path (paths low) p); by try done.
  - destruct (open_path (paths c) p); [|by intros [<- ?]]. intros [Hm Hn].
    destruct (lookup_path (paths low) p) as [| | | | | | | | |ml| |] eqn:El;
      destruct (lookup_path (paths c) p) as [| | | | | | | | |mh| |] eqn:Ec;
      simpl in Hm; try (by left); try (by right); try (left; by subst);
      try (right; by subst); revert Hm; case_decide; subst;
      unfold map_or_nil; try case_decide; intros <-; try done; by left.
Qed.

Lemma Merge_priority_witness :
  Get (Merge sample sample_low) ["a"; "b"] = Ok (VInt 1) /\
  Get (Merge sample sample_low) ["a"; "e"] = Ok (VInt 3).
Proof.
  split.
  - destruct (Merge_priority sample sample_low ["a"; "b"] (VInt 1)
      ltac:(vm_compute; tauto) eq_refl) as (H & _ & _).
    apply H; vm_compute; reflexivity.
  - destruct (Merge_priority sample sample_low ["a"; "e"] (VInt 3)
      ltac:(vm_compute; tauto) eq_refl) as (_ & H & _).
    apply H; vm_compute; reflexivity.
Defined.

(** ** [UnmarshalYAML] *)

(** A path read through maps of both kinds, as the YAML document has them. *)
Fixpoint lookup_raw (v : value) (path : list string) : value :=
  match path with
  | [] => v
  | k :: rest =>
      match v with
      | VMap m => lookup_raw (index m k) rest
      | VStrMap m => lookup_raw (default VNil (m !! k)) rest
      | _ => VNil
      end
  end.

Lemma lookup_cast v p :
  lookup_path (deepCastStringMapToAnyMap v) p = deepCastStringMapToAnyMap (lookup_raw v p).
Proof.
  revert v. induction p as [|k p IH]; intros v; [done|].
  destruct v as [| | | | | | | | |m|m|]; simpl; try done; rewrite <-IH; f_equal; unfold index.
  - rewrite lookup_fmap. by destruct (m !! KStr k).
  - rewrite lookup_kmap, lookup_fmap by apply _. by destruct (m !! k).
Qed.

Lemma cast_is_nil v : deepCastStringMapToAnyMap v = VNil <-> v = VNil.
Proof. by destruct v. Qed.

(** After UnmarshalYAML every value of the decoded document that string
    keys lead to, through map[string]any and map[any]any alike, is returned by
    Get under those keys, and Get returns nothing else. *)
Theorem UnmarshalYAML_addressable raw c :
  UnmarshalYAML (Ok raw) = Ok c ->
  forall p v, Get c p = Ok v <->
    v = deepCastStringMapToAnyMap (lookup_raw raw p) /\ lookup_raw raw p <> VNil.
Proof.
  intros [= <-] p v. rewrite Get_Ok. simpl. rewrite lookup_cast.
  rewrite <-(cast_is_nil (lookup_raw raw p)). naive_solver.
Qed.

(** A document with nested string maps inside a map with an integer key. *)
Definition sample_raw : value :=
  VMap {[ KStr "a" := VStrMap {[ "b" := VSlice [VStrMap {[ "c" := VInt 1 ]}] ]}; KInt 1 := VNil ]}.

Lemma UnmarshalYAML_addressable_witness :
  exists c, UnmarshalYAML (Ok sample_raw) = Ok c /\
    Get c ["a"; "b"] = Ok (VSlice [VMap {[ KStr "c" := VInt 1 ]}]).
Proof.
  eexists. split; [reflexivity|].
  apply (UnmarshalYAML_addressable sample_raw _ eq_refl). split; [vm_compute; reflexivity|].
  vm_compute. discriminate.
Defined.
