(* ===== verification/Cluster.v ===== *)
(** * Cluster configuration ([lib/cluster/cluster.go])

    A cluster configuration is a tree of groups, replicasets and instances,
    each with its own scope of settings.  This file models its parsing from a
    [Config] and the operations that find, read and replace an instance. *)
From S2P Require Import Prelude Value Config.

Definition groupsLabel : string := "groups".
Definition replicasetsLabel : string := "replicasets".
Definition instancesLabel : string := "instances".

(** ** Data

    [RawConfig] is a pointer; it is nil ([None]) when the YAML document has a
    null in the place of the scope. *)
Record InstanceConfig := mkInstance { inst_raw : option Config }.

Record ReplicasetConfig := mkReplicaset {
  repl_raw : option Config;
  Instances_of : gmap string InstanceConfig
}.

Record GroupConfig := mkGroup {
  group_raw : option Config;
  Replicasets_of : gmap string ReplicasetConfig
}.

(** The connection parameters under [config.etcd] and [config.storage]; the
    numbers are seconds, as [float64]. *)
Record EtcdConnection := mkEtcdConnection {
  etcd_endpoints : list string;
  etcd_username : string;
  etcd_password : string;
  etcd_prefix : string;
  ssl_key : string;
  cert_file : string;
  ca_path : string;
  ca_file : string;
  verify_peer : bool;
  verify_host : bool;
  http_request_timeout : spec_float
}.

Record StorageEndpoint := mkStorageEndpoint {
  ep_uri : string;
  ep_login : string;
  ep_password : string;
  ep_transport : string;
  ep_ssl_key_file : string;
  ep_ssl_cert_file : string;
  ep_ssl_ca_file : string;
  ep_ssl_ciphers : string;
  ep_ssl_password : string;
  ep_ssl_password_file : string
}.

Record StorageConnection := mkStorageConnection {
  storage_prefix : string;
  storage_timeout : spec_float;
  storage_endpoints : list StorageEndpoint
}.

Record ClusterConfig := mkCluster {
  cluster_etcd : EtcdConnection;
  cluster_storage : StorageConnection;
  cluster_raw : option Config;
  Groups : gmap string GroupConfig
}.

(** Go's zero values. *)
Definition zero_etcd : EtcdConnection :=
  mkEtcdConnection [] "" "" "" "" "" "" "" false false (S754_zero false).
Definition zero_storage : StorageConnection :=
  mkStorageConnection "" (S754_zero false) [].

(** ** The YAML library

    [gopkg.in/yaml.v3] is a parameter.  A document node is represented by the
    value it decodes to.  [yaml_parse] gives [None] for an empty document;
    [yaml_struct] is the decoding of a node into a struct whose fields are all
    skipped; [yaml_map_field name node] is what the library hands to the
    elements of a field [name] of type [map[string]T]: the node of each entry,
    or [None] for a null, which leaves the element's zero value. *)
Class Yaml := {
  yaml_encode : value -> string;
  yaml_parse : string -> result (option value);
  yaml_struct : value -> result unit;
  yaml_map_field : string -> value -> result (gmap string (option value));
  yaml_connections : value -> result (EtcdConnection * StorageConnection)
}.

(** Decode every entry of a map, failing when one fails. *)
Definition decode_entries {A} (decode : value -> result A) (zero : A)
    (m : gmap string (option value)) : result (gmap string A) :=
  for_each (fun acc kv =>
    rmap (fun a => <[kv.1 := a]> acc)
      (match kv.2 with Some v => decode v | None => Ok zero end))
    (map_to_list m) ∅.

Section WithYaml.
Context `{Yaml}.

(** ** [UnmarshalYAML] of the scopes *)
Definition InstanceConfig_UnmarshalYAML (node : value) : result InstanceConfig :=
  match UnmarshalYAML (Ok node) with
  | Err e => Err (Wrapf "failed to unmarshal InstanceConfig: %w" [] e)
  | Ok raw =>
      match yaml_struct node with
      | Err e => Err (Wrapf "failed to unmarshal InstanceConfig: %w" [] e)
      | Ok _ => Ok (mkInstance (Some raw))
      end
  end.

Definition ReplicasetConfig_UnmarshalYAML (node : value) : result ReplicasetConfig :=
  match UnmarshalYAML (Ok node) with
  | Err e => Err (Wrapf "failed to unmarshal ReplicasetConfig: %w" [] e)
  | Ok raw =>
      match rbind (decode_entries InstanceConfig_UnmarshalYAML (mkInstance None))
              (yaml_map_field instancesLabel node) with
      | Err e => Err (Wrapf "failed to unmarshal ReplicasetConfig: %w" [] e)
      | Ok instances => Ok (mkReplicaset (Some raw) instances)
      end
  end.

Definition GroupConfig_UnmarshalYAML (node : value) : result GroupConfig :=
  match UnmarshalYAML (Ok node) with
  | Err e => Err (Wrapf "failed to unmarshal GroupConfig: %w" [] e)
  | Ok raw =>
      match rbind (decode_entries ReplicasetConfig_UnmarshalYAML (mkReplicaset None ∅))
              (yaml_map_field replicasetsLabel node) with
      | Err e => Err (Wrapf "failed to unmarshal GroupConfig: %w" [] e)
      | Ok replicasets => Ok (mkGroup (Some raw) replicasets)
      end
  end.

Definition ClusterConfig_UnmarshalYAML (node : value) : result ClusterConfig :=
  match UnmarshalYAML (Ok node) with
  | Err e => Err (Wrapf "failed to unmarshal ClusterConfig: %w" [] e)
  | Ok raw =>
      match yaml_connections node,
            rbind (decode_entries GroupConfig_UnmarshalYAML (mkGroup None ∅))
              (yaml_map_field groupsLabel node) with
      | Ok (etcd, storage), Ok groups => Ok (mkCluster etcd storage (Some raw) groups)
      | Err e, _ | _, Err e => Err (Wrapf "failed to unmarshal ClusterConfig: %w" [] e)
      end
  end.

(** ** [MakeClusterConfig] and [MakeInstanceConfig]

    An empty document and a null leave the target as it was. *)
Definition MakeClusterConfig (config : Config) : result ClusterConfig :=
  let cconfig := mkCluster zero_etcd zero_storage (Some NewConfig) ∅ in
  let decoded :=
    match yaml_parse (Config_String yaml_encode config) with
    | Err e => Err e
    | Ok None => Ok cconfig
    | Ok (Some VNil) => Ok cconfig
    | Ok (Some node) => ClusterConfig_UnmarshalYAML node
    end in
  rwrap "failed to parse a configuration data as a cluster config: %w" [] decoded.

Definition MakeInstanceConfig (config : Config) : result InstanceConfig :=
  match yaml_parse (Config_String yaml_encode config) with
  | Err e => Err e
  | Ok None => Ok (mkInstance None)
  | Ok (Some VNil) => Ok (mkInstance None)
  | Ok (Some node) => InstanceConfig_UnmarshalYAML node
  end.
End WithYaml.

(** ** [mergeExclude] *)
Definition mergeExclude (high low : Config) (excludePath : list string) : Config :=
  let lowCopy := Merge NewConfig low in
  let lowCopy := (Set_ lowCopy excludePath VNil).1 in
  Merge high lowCopy.

(** ** Walks over the instances

    The three nested [range] loops, as the list of the places they visit. *)
Record place := mkPlace {
  place_group : string * GroupConfig;
  place_replicaset : string * ReplicasetConfig;
  place_instance : string * InstanceConfig
}.

Section Walks.
Context `{GoMapOrder}.

Definition places (cluster : ClusterConfig) : list place :=
  group ← range_map (Groups cluster);
  replicaset ← range_map (Replicasets_of group.2);
  instance ← range_map (Instances_of replicaset.2);
  [mkPlace group replicaset instance].

(** The first place the loops reach whose instance has the name. *)
Definition first_place (cluster : ClusterConfig) (name : string) : option place :=
  head (filter (fun p => fst (place_instance p) = name) (places cluster)).

(** The scopes of a replicaset that has instances, of its group and of the
    cluster are never null; a nil pointer there is a panic in Go. *)
Definition raw_or_panic (raw : option Config) : Config := default NewConfig raw.

Definition findInstance (cluster : ClusterConfig) (name : string) : option Config :=
  match first_place cluster name with
  | None => None
  | Some p =>
      let config := NewConfig in
      let config :=
        match inst_raw (place_instance p).2 with
        | Some raw => Merge config raw
        | None => config
        end in
      let config := mergeExclude config (raw_or_panic (repl_raw (place_replicaset p).2))
                      [instancesLabel] in
      let config := mergeExclude config (raw_or_panic (group_raw (place_group p).2))
                      [replicasetsLabel] in
      let config := mergeExclude config (raw_or_panic (cluster_raw cluster))
                      [groupsLabel] in
      Some config
  end.

Definition Instances (cluster : ClusterConfig) : list string :=
  (fun p => fst (place_instance p)) <$> places cluster.

Definition HasInstance (cluster : ClusterConfig) (name : string) : bool :=
  match findInstance cluster name with Some _ => true | None => false end.

Definition Instantiate (cluster : ClusterConfig) (name : string) : Config :=
  match findInstance cluster name with
  | Some iconfig => iconfig
  | None => mergeExclude NewConfig (raw_or_panic (cluster_raw cluster)) [groupsLabel]
  end.

(** [Some (group, replicaset)] for the result with [true]. *)
Definition FindInstance (cconfig : ClusterConfig) (name : string) : option (string * string) :=
  match first_place cconfig name with
  | Some p => Some (fst (place_group p), fst (place_replicaset p))
  | None => None
  end.

Definition FindGroupByReplicaset (cconfig : ClusterConfig) (replicaset : string)
    : option string :=
  head (group ← range_map (Groups cconfig);
        r ← range_map (Replicasets_of group.2);
        if decide (r.1 = replicaset) then [group.1] else []).

Context `{Yaml}.

(** ** Replacing an instance's configuration

    The Go functions return the old cluster with an error; the model returns
    the error. *)
Definition set_at (cconfig : ClusterConfig) (path : list string) (iconfig : Config)
    : result ClusterConfig :=
  let newConfig := Merge NewConfig (raw_or_panic (cluster_raw cconfig)) in
  match Set_ newConfig path (VConfig (paths iconfig)) with
  | (_, Some err) => Err (Wrapf "failed to set configuration: %w" [] err)
  | (newConfig', None) => MakeClusterConfig newConfig'
  end.

Definition SetInstanceConfig (cconfig : ClusterConfig) (group replicaset instance : string)
    (iconfig : Config) : result ClusterConfig :=
  set_at cconfig
    [groupsLabel; group; replicasetsLabel; replicaset; instancesLabel; instance] iconfig.

Definition ReplaceInstanceConfig (cconfig : ClusterConfig) (instance : string)
    (iconfig : Config) : result ClusterConfig :=
  match first_place cconfig instance with
  | Some p =>
      set_at cconfig
        [groupsLabel; fst (place_group p); replicasetsLabel; fst (place_replicaset p);
         instancesLabel; fst (place_instance p)] iconfig
  | None => Err (Errorf "cluster configuration has not an instance %q" [instance])
  end.
End Walks.
