(* ===== verification/ClusterProps.v ===== *)
(** * What the cluster configuration guarantees

    Where an instance is found, which scope a setting of an instantiated
    configuration comes from, and what a replaced instance reads as. *)
From S2P Require Import Prelude Value Config ConfigFacts Cluster.

(** ** The walk visits every instance *)
Section Walks.
Context `{GoMapOrder}.

(** A place of the cluster: a group, one of its replicasets and one of the
    instances of that. *)
Definition has_place (cc : ClusterConfig) (p : place) : Prop :=
  Groups cc !! fst (place_group p) = Some (snd (place_group p)) /\
  Replicasets_of (snd (place_group p)) !! fst (place_replicaset p)
    = Some (snd (place_replicaset p)) /\
  Instances_of (snd (place_replicaset p)) !! fst (place_instance p)
    = Some (snd (place_instance p)).

Lemma elem_of_places cc p : p ∈ places cc <-> has_place cc p.
Proof.
  unfold places, has_place. rewrite list_elem_of_bind. split.
  - intros ([g group] & Hp & Hg). apply list_elem_of_bind in Hp as ([r repl] & Hp & Hr).
    apply list_elem_of_bind in Hp as ([i inst] & Hp & Hi).
    apply list_elem_of_singleton in Hp as ->. simpl.
    by rewrite !elem_of_range_map in *.
  - destruct p as [[g group] [r repl] [i inst]]. simpl. intros (Hg & Hr & Hi).
    exists (g, group). rewrite elem_of_range_map. split; [|done].
    apply list_elem_of_bind. exists (r, repl). rewrite elem_of_range_map. split; [|done].
    apply list_elem_of_bind. exists (i, inst). rewrite elem_of_range_map.
    split; [|done]. by apply list_elem_of_singleton.
Qed.

Lemma first_place_Some cc name p :
  first_place cc name = Some p -> has_place cc p /\ fst (place_instance p) = name.
Proof.
  unfold first_place. intros Hh.
  assert (p ∈ filter (fun p => fst (place_instance p) = name) (places cc)) as Hp.
  { destruct (filter _ _); simplify_eq/=. left. }
  apply list_elem_of_filter in Hp as [? ?]. by rewrite <-elem_of_places.
Qed.

Lemma first_place_None cc name :
  first_place cc name = None <-> ~ exists p, has_place cc p /\ fst (place_instance p) = name.
Proof.
  unfold first_place.
  destruct (filter (fun p => fst (place_instance p) = name) (places cc)) as [|p ps] eqn:E;
    simpl; split; try done.
  - intros _ (p & Hp & Hn). apply elem_of_places in Hp.
    assert (p ∈ filter (fun p => fst (place_instance p) = name) (places cc)) as Hin
      by by apply list_elem_of_filter.
    rewrite E in Hin. by apply not_elem_of_nil in Hin.
  - intros Hno. exfalso. apply Hno. exists p.
    assert (p ∈ filter (fun p => fst (place_instance p) = name) (places cc)) as Hin
      by (rewrite E; left).
    apply list_elem_of_filter in Hin as [? ?]. by rewrite <-elem_of_places.
Qed.

Lemma findInstance_is_Some cc name :
  is_Some (findInstance cc name) <-> is_Some (first_place cc name).
Proof. unfold findInstance. destruct (first_place cc name); naive_solver. Qed.

(** Instances, HasInstance and FindInstance agree under every iteration
    order: they know exactly the instance names of the tree of groups,
    replicasets and instances, and FindInstance names a group and a replicaset
    that hold the instance. *)
Theorem instance_lookups_agree cc name :
  (name ∈ Instances cc <-> exists p, has_place cc p /\ fst (place_instance p) = name) /\
  (HasInstance cc name = true <-> name ∈ Instances cc) /\
  (is_Some (FindInstance cc name) <-> name ∈ Instances cc) /\
  (forall g r, FindInstance cc name = Some (g, r) ->
   exists p, has_place cc p /\ fst (place_group p) = g /\
     fst (place_replicaset p) = r /\ fst (place_instance p) = name).
Proof.
  assert (name ∈ Instances cc <-> exists p, has_place cc p /\ fst (place_instance p) = name)
    as HI.
  { unfold Instances. rewrite list_elem_of_fmap. setoid_rewrite elem_of_places. naive_solver. }
  assert (is_Some (first_place cc name) <-> name ∈ Instances cc) as HF.
  { rewrite HI. destruct (first_place cc name) as [p|] eqn:E.
    - apply first_place_Some in E. split; eauto.
    - pose proof (proj1 (first_place_None cc name) E). split; [by intros [? ?]|]. naive_solver. }
  split_and!; [done| | |].
  - unfold HasInstance. rewrite <-HF, <-findInstance_is_Some.
    destruct (findInstance cc name); naive_solver.
  - rewrite <-HF. unfold FindInstance. destruct (first_place cc name); naive_solver.
  - intros g r. unfold FindInstance. destruct (first_place cc name) as [p|] eqn:E; [|done].
    intros [= <- <-]. apply first_place_Some in E as [? ?]. eauto 6.
Qed.
End Walks.

(** ** Scopes *)

(** A scope of settings with the label whose subtree is left out. *)
Record scope := mkScope { sc_config : Config; sc_exclude : option string }.

(** What a scope has at a path that is not empty, the excluded subtree taken
    out. *)
Definition hidden (s : scope) (p : list string) : bool :=
  match sc_exclude s, p with
  | Some label, k :: _ => bool_decide (k = label)
  | _, _ => false
  end.

Definition scope_lookup (s : scope) (p : list string) : value :=
  if hidden s p then VNil else lookup_path (paths (sc_config s)) p.

Definition scope_open (s : scope) (p : list string) : bool :=
  if hidden s p then negb (blocks (paths (sc_config s)))
  else open_path (paths (sc_config s)) p.

(** The scopes of an instance, from the innermost. *)
Definition scopes_of (cc : ClusterConfig) (p : place) : list scope :=
  [ mkScope (default NewConfig (inst_raw (snd (place_instance p)))) None;
    mkScope (raw_or_panic (repl_raw (snd (place_replicaset p)))) (Some instancesLabel);
    mkScope (raw_or_panic (group_raw (snd (place_group p)))) (Some replicasetsLabel);
    mkScope (raw_or_panic (cluster_raw cc)) (Some groupsLabel) ].

Definition plain_scope (s : scope) : Prop := plain (paths (sc_config s)).

(** The tree a scope contributes. *)
Definition scope_tree (s : scope) : value :=
  match sc_exclude s with
  | None => paths (sc_config s)
  | Some label =>
      let v := mergev VNil (paths (sc_config s)) in
      default v (set_path v [label] VNil)
  end.

Lemma plain_lookup m k v : plain (VMap m) -> m !! k = Some v -> plain v.
Proof. intros Hp%plain_VMap Hk. exact (Hp k v Hk). Qed.

Lemma plain_mergev lo : forall hi, plain hi -> plain lo -> plain (mergev hi lo).
Proof.
  induction lo as [v ? ? ? ?|l Hl|ml Hm|m Hm|p Hp] using value_ind'; intros hi Hhi Hlo;
    try (by destruct hi).
  { destruct v; try (by destruct hi); naive_solver. }
  destruct (decide (ml = ∅)) as [->|Hne].
  { simpl. by destruct hi. }
  assert (forall mh, plain (VMap mh) -> plain (VMap (merge_map mh ml))) as Hmap.
  { intros mh Hmh. apply plain_VMap. intros k x. rewrite merge_map_lookup.
    destruct (is_str_key k); [|apply (plain_lookup mh); done].
    unfold merge_entry.
    destruct (ml !! k) as [l|] eqn:El; [|apply (plain_lookup mh); done].
    assert (plain (mergev (default VNil (mh !! k)) l)) as Hpl.
    { apply (Hm k l El); [|by apply (plain_lookup ml k)].
      destruct (mh !! k) eqn:Emh; [by apply (plain_lookup mh k)|done]. }
    destruct (mergev _ l); simpl; intros; simplify_eq; try done.
    by apply (plain_lookup mh k). }
  rewrite mergev_nonempty by done. destruct hi; try done.
  - unfold map_or_nil. case_decide; [done|]. apply Hmap. by apply plain_VMap, map_Forall_empty.
  - by apply Hmap.
Qed.

Lemma plain_scope_tree s : plain_scope s -> plain (scope_tree s).
Proof.
  intros Hs. unfold scope_tree. destruct (sc_exclude s) as [label|]; [|done].
  assert (plain (mergev VNil (paths (sc_config s)))) as Hp by by apply plain_mergev.
  destruct (mergev VNil _) as [| | | | | | | | |m| |]; try done; cbn [set_path fmap option_fmap
    option_map default]; apply plain_VMap.
  - by apply map_Forall_singleton.
  - apply map_Forall_insert_2; [done|]. by apply plain_VMap.
Qed.

Lemma mergeExclude_tree high s label :
  plain_scope s -> sc_exclude s = Some label ->
  mergeExclude high (sc_config s) [label] = mkConfig (mergev (paths high) (scope_tree s)).
Proof.
  intros Hs Hl. unfold mergeExclude.
  assert ((Set_ (Merge NewConfig (sc_config s)) [label] VNil).1 = mkConfig (scope_tree s)) as ->.
  { rewrite Merge_mergev by done. change (paths NewConfig) with VNil.
    unfold scope_tree. rewrite Hl.
    pose proof (Set_set_path (mkConfig (mergev VNil (paths (sc_config s)))) [label] VNil) as HS.
    simpl stored in HS. simpl paths in HS. destruct (set_path _ _ _) as [t|].
    - by rewrite HS.
    - destruct HS as (? & ? & _ & _ & _ & ->). done. }
  rewrite Merge_mergev; [done|]. by apply plain_scope_tree.
Qed.

(** ** Reading the tree of a scope *)
Lemma lookup_mergev_VNil v p : lookup_path (mergev VNil v) p = mergev VNil (lookup_path v p).
Proof.
  rewrite lookup_mergev, lookup_path_VNil.
  assert (open_path VNil p = true) as -> by (induction p; [done|]; simpl; by rewrite IHp).
  done.
Qed.

(** [mergev VNil] keeps what is not a map. *)
Lemma mergev_VNil_atom v : as_map v = None -> mergev VNil v = v.
Proof. by destruct v. Qed.

Lemma mergev_VNil_blocks v : blocks (mergev VNil v) = blocks v.
Proof.
  destruct v; try done. simpl. case_decide; [done|].
  unfold map_or_nil. by case_decide.
Qed.

Lemma scope_tree_child s k :
  child (scope_tree s) k =
  if hidden s [k] then VNil
  else match sc_exclude s with
       | None => child (paths (sc_config s)) k
       | Some _ => mergev VNil (child (paths (sc_config s)) k)
       end.
Proof.
  unfold scope_tree, hidden. destruct (sc_exclude s) as [label|]; [|done].
  assert (child (mergev VNil (paths (sc_config s))) k
    = mergev VNil (child (paths (sc_config s)) k)) as Hc by by rewrite child_mergev.
  rewrite <-Hc. clear Hc.
  destruct (mergev VNil (paths (sc_config s))) as [| | | | | | | | |m| |];
    simpl; case_bool_decide; subst; try done.
  - unfold index. by rewrite lookup_singleton_eq.
  - unfold index. by rewrite lookup_singleton_ne by congruence.
  - apply index_insert.
  - by rewrite index_insert_ne.
Qed.

Lemma scope_tree_blocks s : blocks (scope_tree s) = blocks (paths (sc_config s)).
Proof.
  unfold scope_tree. destruct (sc_exclude s) as [label|]; [|done].
  rewrite <-(mergev_VNil_blocks (paths (sc_config s))). by destruct (mergev VNil _).
Qed.

Lemma scope_tree_lookup s k p :
  as_map (scope_lookup s (k :: p)) = None ->
  lookup_path (scope_tree s) (k :: p) = scope_lookup s (k :: p).
Proof.
  unfold scope_lookup. intros Ha. rewrite lookup_path_cons, scope_tree_child.
  assert (hidden s (k :: p) = hidden s [k]) as E by by unfold hidden; destruct (sc_exclude s).
  rewrite E in *. destruct (hidden s [k]); [by rewrite lookup_path_VNil|].
  rewrite lookup_path_cons in *. destruct (sc_exclude s); [|done].
  by rewrite lookup_mergev_VNil, mergev_VNil_atom.
Qed.

Lemma open_mergev hi lo p :
  open_path hi p = true -> open_path lo p = true -> open_path (mergev hi lo) p = true.
Proof.
  revert hi lo. induction p as [|k p IH]; intros hi lo; [done|]. simpl.
  intros [Hb1 Ho1]%andb_true_iff [Hb2 Ho2]%andb_true_iff.
  apply negb_true_iff in Hb1, Hb2. rewrite child_mergev, Hb1, IH by done.
  destruct hi; try done; destruct lo; try done; simpl; case_decide; try done;
    unfold map_or_nil; by try case_decide.
Qed.

Lemma scope_tree_open s k p :
  scope_open s (k :: p) = true -> open_path (scope_tree s) (k :: p) = true.
Proof.
  unfold scope_open. simpl.
  assert (hidden s (k :: p) = hidden s [k]) as -> by by unfold hidden; destruct (sc_exclude s).
  rewrite scope_tree_blocks, scope_tree_child.
  assert (forall q, open_path VNil q = true) as Hnil
    by (induction q as [|? ? IHq]; [done|]; simpl; by rewrite IHq).
  destruct (hidden s [k]); intros Ho.
  - by rewrite Ho, Hnil.
  - apply andb_true_iff in Ho as [-> Ho]. destruct (sc_exclude s); [|done].
    by apply open_mergev.
Qed.

(** Merge a list of scopes, the first with the highest priority. *)
Definition merge_scopes (hi : value) (ss : list scope) : value :=
  fold_left (fun acc s => mergev acc (scope_tree s)) ss hi.

Lemma merge_scopes_keep hi ss p v :
  lookup_path hi p = v -> v <> VNil -> as_map v = None ->
  lookup_path (merge_scopes hi ss) p = v.
Proof.
  unfold merge_scopes. revert hi. induction ss as [|s ss IH]; intros hi <- Hn Ha; [done|].
  simpl. apply IH; [|done..]. rewrite lookup_mergev, lookup_open by done.
  destruct (lookup_path hi p); try done; destruct (lookup_path _ p); try done; simpl;
    by case_decide.
Qed.

Lemma merge_scopes_first hi ss1 s ss2 k p v :
  lookup_path hi (k :: p) = VNil -> open_path hi (k :: p) = true ->
  Forall (fun s' => scope_lookup s' (k :: p) = VNil /\ scope_open s' (k :: p) = true) ss1 ->
  scope_lookup s (k :: p) = v -> v <> VNil -> as_map v = None ->
  lookup_path (merge_scopes hi (ss1 ++ s :: ss2)) (k :: p) = v.
Proof.
  intros Hl Ho Hss1 Hs Hn Ha. revert hi Hl Ho.
  induction Hss1 as [|s' ss1 [Hl' Ho'] Hss1 IH]; intros hi Hl Ho.
  - unfold merge_scopes. simpl app. cbn [fold_left].
    apply merge_scopes_keep; [|done..].
    rewrite lookup_mergev, Ho, Hl, scope_tree_lookup by (by rewrite Hs).
    rewrite Hs. by apply mergev_VNil_atom.
  - apply IH.
    + rewrite lookup_mergev, Ho, Hl, scope_tree_lookup by (by rewrite Hl'). by rewrite Hl'.
    + apply open_mergev; [done|]. by apply scope_tree_open.
Qed.

Section Instantiate.
Context `{GoMapOrder}.

Lemma findInstance_scopes cc name p :
  first_place cc name = Some p -> Forall plain_scope (scopes_of cc p) ->
  findInstance cc name = Some (mkConfig (merge_scopes VNil (scopes_of cc p))).
Proof.
  intros Hp Hpl. unfold findInstance. rewrite Hp. unfold scopes_of in *.
  apply Forall_cons in Hpl as [Hi Hpl]. apply Forall_cons in Hpl as [Hr Hpl].
  apply Forall_cons in Hpl as [Hg Hpl]. apply Forall_cons in Hpl as [Hc _].
  f_equal. unfold merge_scopes. cbn [fold_left].
  set (i := mkScope (default NewConfig _) None) in *.
  set (r := mkScope _ (Some instancesLabel)) in *.
  set (g := mkScope _ (Some replicasetsLabel)) in *.
  set (c := mkScope _ (Some groupsLabel)) in *.
  rewrite (mergeExclude_tree _ r instancesLabel), (mergeExclude_tree _ g replicasetsLabel),
    (mergeExclude_tree _ c groupsLabel) by done. cbn [paths].
  do 4 f_equal. subst i. unfold scope_tree, plain_scope in *. simpl in *.
  destruct (inst_raw _) as [raw|]; simpl in *; [|done].
  by rewrite Merge_mergev.
Qed.

(** C3: A setting of an instantiated configuration is the one of the innermost
    scope that has it: instance, then replicaset, group and cluster, each
    without the subtree that lists its children, under the sole condition that
    no scope further in blocks the path. *)
Theorem Instantiate_first_scope cc name p ss1 s ss2 k path v :
  first_place cc name = Some p ->
  Forall plain_scope (scopes_of cc p) ->
  scopes_of cc p = ss1 ++ s :: ss2 ->
  Forall (fun s' => scope_lookup s' (k :: path) = VNil /\ scope_open s' (k :: path) = true) ss1 ->
  scope_lookup s (k :: path) = v -> v <> VNil -> as_map v = None ->
  Get (Instantiate cc name) (k :: path) = Ok v.
Proof.
  intros Hp Hpl Hss Hss1 Hs Hn Ha. unfold Instantiate.
  rewrite (findInstance_scopes _ _ _ Hp Hpl). apply Get_Ok. split; [|done].
  rewrite Hss. cbn [paths]. apply merge_scopes_first; try done.
  clear. revert k. induction path as [|k' path IH]; [done|]. intros k. exact (IH k').
Qed.

(** An instance that is not in the cluster gets the global scope without the
    groups. *)
Lemma Instantiate_unknown cc name k path v :
  first_place cc name = None ->
  plain (paths (raw_or_panic (cluster_raw cc))) ->
  k <> groupsLabel ->
  Get (raw_or_panic (cluster_raw cc)) (k :: path) = Ok v -> as_map v = None ->
  Get (Instantiate cc name) (k :: path) = Ok v.
Proof.
  intros Hp Hpl Hk Hv Ha. apply Get_Ok in Hv as [Hv Hn]. unfold Instantiate, findInstance.
  rewrite Hp.
  pose proof (mergeExclude_tree NewConfig
    (mkScope (raw_or_panic (cluster_raw cc)) (Some groupsLabel)) groupsLabel Hpl eq_refl) as E.
  cbn [sc_config] in E. rewrite E.
  apply Get_Ok. split; [|done]. cbn [paths].
  apply (merge_scopes_first VNil [] _ []); try done.
  - clear. revert k. induction path as [|k' path IH]; [done|]. intros k. exact (IH k').
  - unfold scope_lookup, hidden. simpl. by rewrite bool_decide_false.
Qed.
End Instantiate.

(** A cluster with one instance: the global scope sets [app.cfg] and
    [iproto.listen], the replicaset overrides [app.cfg], the instance sets
    [database.mode]. *)
Definition sample_instance : Config :=
  mkConfig (VMap {[ KStr "database" := VMap {[ KStr "mode" := VStr "rw" ]} ]}).
Definition sample_replicaset : Config :=
  mkConfig (VMap {[
    KStr "app" := VMap {[ KStr "cfg" := VStr "r" ]};
    KStr "instances" := VMap {[ KStr "i1" := paths sample_instance ]} ]}).
Definition sample_group : Config :=
  mkConfig (VMap {[ KStr "replicasets" := VMap {[ KStr "r1" := paths sample_replicaset ]} ]}).
Definition sample_global : Config :=
  mkConfig (VMap {[
    KStr "app" := VMap {[ KStr "cfg" := VStr "g" ]};
    KStr "iproto" := VMap {[ KStr "listen" := VStr "3301" ]};
    KStr "groups" := VMap {[ KStr "g1" := paths sample_group ]} ]}).
Definition sample_cluster : ClusterConfig :=
  mkCluster zero_etcd zero_storage (Some sample_global)
    {[ "g1" := mkGroup (Some sample_group)
         {[ "r1" := mkReplicaset (Some sample_replicaset)
              {[ "i1" := mkInstance (Some sample_instance) ]} ]} ]}.
Definition sample_place : place :=
  mkPlace
    ("g1", mkGroup (Some sample_group)
         {[ "r1" := mkReplicaset (Some sample_replicaset)
              {[ "i1" := mkInstance (Some sample_instance) ]} ]})
    ("r1", mkReplicaset (Some sample_replicaset)
              {[ "i1" := mkInstance (Some sample_instance) ]})
    ("i1", mkInstance (Some sample_instance)).

Lemma Instantiate_first_scope_witness :
  Get (Instantiate sample_cluster "i1") ["app"; "cfg"] = Ok (VStr "r") /\
  Get (Instantiate sample_cluster "i1") ["iproto"; "listen"] = Ok (VStr "3301").
Proof.
  assert (first_place sample_cluster "i1" = Some sample_place) as Hp by reflexivity.
  assert (Forall plain_scope (scopes_of sample_cluster sample_place)) as Hpl
    by (apply Forall_cons_2; [|apply Forall_cons_2; [|apply Forall_cons_2;
      [|apply Forall_cons_2; [|apply Forall_nil_2]]]]; vm_compute; tauto).
  split.
  - apply (Instantiate_first_scope sample_cluster "i1" sample_place
      (take 1 (scopes_of sample_cluster sample_place))
      (mkScope sample_replicaset (Some instancesLabel))
      (drop 2 (scopes_of sample_cluster sample_place)) "app" ["cfg"] (VStr "r") Hp Hpl);
      [reflexivity
      |repeat first [apply Forall_nil_2 | apply Forall_cons_2]; vm_compute; split; reflexivity
      |vm_compute; reflexivity|discriminate|reflexivity].
  - apply (Instantiate_first_scope sample_cluster "i1" sample_place
      (take 3 (scopes_of sample_cluster sample_place))
      (mkScope sample_global (Some groupsLabel)) [] "iproto" ["listen"] (VStr "3301") Hp Hpl);
      [reflexivity
      |repeat first [apply Forall_nil_2 | apply Forall_cons_2]; vm_compute; split; reflexivity
      |vm_compute; reflexivity|discriminate|reflexivity].
Defined.

(** ** Parsed clusters have no null scope around an instance *)
Lemma decode_entries_lookup {A} (decode : value -> result A) zero m r k a :
  decode_entries decode zero m = Ok r -> r !! k = Some a ->
  (m !! k = Some None /\ a = zero) \/
  exists v, m !! k = Some (Some v) /\ decode v = Ok a.
Proof.
  unfold decode_entries. intros Hd Hk.
  assert (forall l (acc r : gmap string A), for_each (fun acc kv =>
      rmap (fun a => <[kv.1 := a]> acc)
        (match kv.2 with Some v => decode v | None => Ok zero end)) l acc = Ok r ->
    forall a, r !! k = Some a -> acc !! k = Some a \/
      ((k, None) ∈ l /\ a = zero) \/ exists v, (k, Some v) ∈ l /\ decode v = Ok a) as Hl.
  { clear. induction l as [|[k' o] l IH]; intros acc r; simpl.
    - intros [= <-]. eauto.
    - destruct o as [v|]; simpl; [destruct (decode v) as [b|e] eqn:Ev; simpl; [|done]|];
        intros Hf a Ha; destruct (IH _ _ Hf a Ha) as [Hi|[[Hi ->]|(w & Hi & Hw)]];
        try (right; left; split; [by right|done]);
        try (right; right; exists w; split; [by right|done]);
        rewrite lookup_insert in Hi; case_decide; simplify_eq; eauto.
      + right; right. exists v. split; [left|done].
      + right; left. split; [left|done]. }
  destruct (Hl _ _ _ Hd a Hk) as [Hi|[[Hi ->]|(w & Hi & Hw)]].
  - by rewrite lookup_empty in Hi.
  - left. by apply elem_of_map_to_list in Hi.
  - right. exists w. by apply elem_of_map_to_list in Hi.
Qed.

Lemma ReplicasetConfig_raw `{Yaml} node r :
  ReplicasetConfig_UnmarshalYAML node = Ok r -> is_Some (repl_raw r).
Proof.
  unfold ReplicasetConfig_UnmarshalYAML, UnmarshalYAML.
  destruct (rbind _ _); [|done]. intros [= <-]. by eexists.
Qed.

Lemma GroupConfig_raw `{Yaml} node g :
  GroupConfig_UnmarshalYAML node = Ok g ->
  is_Some (group_raw g) /\
  forall k r, Replicasets_of g !! k = Some r -> Instances_of r <> ∅ -> is_Some (repl_raw r).
Proof.
  unfold GroupConfig_UnmarshalYAML, UnmarshalYAML.
  destruct (rbind _ _) as [rs|] eqn:E; [|done]. intros [= <-]. split; [by eexists|].
  simpl. intros k r Hr Hi. apply rbind_Ok in E as (m & _ & Hd).
  destruct (decode_entries_lookup _ _ _ _ _ _ Hd Hr) as [[_ ->]|(v & _ & Hv)]; [done|].
  by eapply ReplicasetConfig_raw.
Qed.

(** In a cluster that MakeClusterConfig built, the RawConfig pointers
    that findInstance dereferences without a nil check (of the cluster, of the
    group and of the replicaset of an instance) are not nil. *)
Theorem parsed_scopes_not_nil `{Yaml} config cc p :
  MakeClusterConfig config = Ok cc -> has_place cc p ->
  is_Some (cluster_raw cc) /\ is_Some (group_raw (snd (place_group p))) /\
  is_Some (repl_raw (snd (place_replicaset p))).
Proof.
  unfold MakeClusterConfig, rwrap. intros Hm (Hg & Hr & Hi).
  destruct (yaml_parse _) as [[node|]|e]; [|simplify_eq/=; by rewrite lookup_empty in Hg|done].
  assert (ClusterConfig_UnmarshalYAML node = Ok cc \/ Groups cc = ∅) as [Hc|Hc].
  { destruct node; try (left; by destruct (ClusterConfig_UnmarshalYAML _); simplify_eq/=);
      right; by simplify_eq/=. }
  2: { by rewrite Hc, lookup_empty in Hg. }
  unfold ClusterConfig_UnmarshalYAML, UnmarshalYAML in Hc.
  destruct (yaml_connections node) as [[e s]|]; [|done].
  destruct (rbind _ _) as [gs|] eqn:E; [|done]. simplify_eq/=.
  apply rbind_Ok in E as (m & _ & Hd). split; [by eexists|].
  destruct (decode_entries_lookup _ _ _ _ _ _ Hd Hg) as [[_ E]|(v & _ & Hv)].
  - rewrite E in Hr. simpl in Hr. by rewrite lookup_empty in Hr.
  - apply GroupConfig_raw in Hv as [? Hrs]. split; [done|].
    apply (Hrs _ _ Hr). intros E. by rewrite E, lookup_empty in Hi.
Qed.

(** ** Replacing an instance's configuration *)

(** The documented decoding of a [map[string]T] field: an entry that is not
    null reaches its element with the node it has in the document. *)
Class YamlFields `{Yaml} : Prop :=
  yaml_field_entry : forall name node nodes k x,
    yaml_map_field name node = Ok nodes ->
    lookup_path (deepCastStringMapToAnyMap node) [name; k] = x -> x <> VNil ->
    exists n, nodes !! k = Some (Some n) /\ deepCastStringMapToAnyMap n = x.

Lemma decode_entries_complete {A} (decode : value -> result A) zero m r k v :
  decode_entries decode zero m = Ok r -> m !! k = Some (Some v) ->
  exists a, r !! k = Some a /\ decode v = Ok a.
Proof.
  unfold decode_entries. intros Hd Hk. apply elem_of_map_to_list in Hk.
  pose proof (NoDup_fst_map_to_list m) as Hnd. revert Hk Hnd Hd.
  generalize (∅ : gmap string A) as acc. generalize (map_to_list m) as l.
  induction l as [|[k' o] l IH]; intros acc Hk Hnd Hd; [by apply not_elem_of_nil in Hk|].
  apply NoDup_cons in Hnd as [Hk' Hnd]. simpl in *.
  destruct (match o with Some v0 => decode v0 | None => Ok zero end) as [b|] eqn:Eb;
    simpl in Hd; [|done].
  apply elem_of_cons in Hk as [[= <- <-]|Hk]; [|by eapply IH].
  exists b. split; [|done]. clear IH.
  assert ((<[k:=b]> acc) !! k = Some b) as Ha by apply lookup_insert_eq.
  revert Hd Ha. generalize (<[k:=b]> acc). clear -Hk'.
  induction l as [|[k2 o2] l IH]; intros acc Hd Ha; simpl in *; [by simplify_eq|].
  rewrite not_elem_of_cons in Hk'. destruct Hk' as [Hne Hk'].
  destruct (match o2 with Some v0 => decode v0 | None => Ok zero end); simpl in Hd; [|done].
  eapply IH; [done|exact Hd|]. by rewrite lookup_insert_ne.
Qed.

Section Replace.
Context `{Y : Yaml} `{GoMapOrder} {YF : YamlFields}.

Lemma decode_field {A} (decode : value -> result A) zero name node r k x :
  rbind (decode_entries decode zero) (yaml_map_field name node) = Ok r ->
  lookup_path (deepCastStringMapToAnyMap node) [name; k] = x -> x <> VNil ->
  exists n a, r !! k = Some a /\ decode n = Ok a /\ deepCastStringMapToAnyMap n = x.
Proof.
  intros (nodes & Hf & Hd)%rbind_Ok Hx Hn.
  destruct (yaml_field_entry name node nodes k x Hf Hx Hn) as (n & Hk & Hc).
  destruct (decode_entries_complete _ _ _ _ _ _ Hd Hk) as (a & ? & ?). eauto.
Qed.

(** The instance a parsed cluster has under three names. *)
Definition instance_at (cc : ClusterConfig) (g r i : string) : option InstanceConfig :=
  group ← Groups cc !! g; replicaset ← Replicasets_of group !! r;
  Instances_of replicaset !! i.

Lemma unmarshal_instance_at node cc g r i v :
  ClusterConfig_UnmarshalYAML node = Ok cc ->
  lookup_path (deepCastStringMapToAnyMap node)
    [groupsLabel; g; replicasetsLabel; r; instancesLabel; i] = v -> v <> VNil ->
  instance_at cc g r i = Some (mkInstance (Some (mkConfig v))).
Proof.
  intros Hc Hv Hn. unfold ClusterConfig_UnmarshalYAML, UnmarshalYAML in Hc.
  destruct (yaml_connections node) as [[e s]|]; [|done].
  destruct (rbind _ _) as [gs|] eqn:Egs; [|done]. injection Hc as <-.
  assert (forall w a b p, lookup_path w (a :: b :: p) = lookup_path (lookup_path w [a; b]) p)
    as Hsplit by (intros; by rewrite !lookup_path_cons).
  rewrite Hsplit in Hv.
  destruct (decode_field _ _ _ _ _ g _ Egs eq_refl) as (ng & grp & Hg & Hdg & Hcg).
  { intros E. rewrite E, lookup_path_VNil in Hv. by subst. }
  unfold GroupConfig_UnmarshalYAML, UnmarshalYAML in Hdg.
  destruct (rbind (decode_entries ReplicasetConfig_UnmarshalYAML _) _) as [rs|] eqn:Ers; [|done].
  injection Hdg as <-.
  rewrite <-Hcg, Hsplit in Hv.
  destruct (decode_field _ _ _ _ _ r _ Ers eq_refl) as (nr & rep & Hr & Hdr & Hcr).
  { intros E. rewrite E, lookup_path_VNil in Hv. by subst. }
  unfold ReplicasetConfig_UnmarshalYAML, UnmarshalYAML in Hdr.
  destruct (rbind (decode_entries InstanceConfig_UnmarshalYAML _) _) as [insts|] eqn:Eis; [|done].
  injection Hdr as <-. rewrite <-Hcr in Hv.
  destruct (decode_field _ _ _ _ _ i _ Eis Hv Hn) as (ni & inst & Hi & Hdi & Hci).
  unfold InstanceConfig_UnmarshalYAML, UnmarshalYAML in Hdi.
  destruct (yaml_struct ni); [|done]. injection Hdi as <-.
  unfold instance_at. simpl. rewrite Hg. simpl. rewrite Hr. simpl. by rewrite Hi, Hci.
Qed.

(** When SetInstanceConfig succeeds, and the YAML text of the updated
    configuration reads back as the tree it was printed from, the cluster it
    returns has exactly the given configuration as the instance under that
    group and replicaset. *)
Theorem SetInstanceConfig_reads_back cc g r i iconfig cc' newConfig node :
  SetInstanceConfig cc g r i iconfig = Ok cc' ->
  Set_ (Merge NewConfig (raw_or_panic (cluster_raw cc)))
    [groupsLabel; g; replicasetsLabel; r; instancesLabel; i] (VConfig (paths iconfig))
    = (newConfig, None) ->
  yaml_parse (Config_String yaml_encode newConfig) = Ok (Some node) ->
  deepCastStringMapToAnyMap node = paths newConfig ->
  paths iconfig <> VNil ->
  instance_at cc' g r i = Some (mkInstance (Some iconfig)) /\ cluster_raw cc' = Some newConfig.
Proof.
  intros Hset HS Hparse Hcast Hn. unfold SetInstanceConfig, set_at in Hset.
  rewrite HS in Hset. unfold MakeClusterConfig, rwrap in Hset. rewrite Hparse in Hset.
  pose proof (Set_set_path (Merge NewConfig (raw_or_panic (cluster_raw cc)))
    [groupsLabel; g; replicasetsLabel; r; instancesLabel; i] (VConfig (paths iconfig))) as Hsp.
  rewrite HS in Hsp. cbn [stored] in Hsp. rewrite deepCopyMap_id in Hsp.
  destruct (set_path _ _ _) as [t|] eqn:Et; [|naive_solver].
  assert (newConfig = mkConfig t) as -> by congruence.
  apply lookup_set_path in Et. cbn [paths] in Hcast. rewrite <-Hcast in Et.
  assert (ClusterConfig_UnmarshalYAML node = Ok cc') as Hc.
  { destruct node; try (by rewrite lookup_path_VNil in Et; subst; done);
      (destruct (ClusterConfig_UnmarshalYAML _); simplify_eq/=; done). }
  split.
  - rewrite (unmarshal_instance_at _ _ _ _ _ _ Hc Et Hn). by destruct iconfig.
  - unfold ClusterConfig_UnmarshalYAML, UnmarshalYAML in Hc.
    destruct (yaml_connections node) as [[e s]|]; [|done].
    destruct (rbind _ _); [|done]. injection Hc as <-. simpl. by rewrite Hcast.
Qed.

(** The first place of the instance decides what is replaced. *)
Lemma ReplaceInstanceConfig_eq cc i iconfig :
  ReplaceInstanceConfig cc i iconfig =
  match FindInstance cc i with
  | Some (g, r) => SetInstanceConfig cc g r i iconfig
  | None => Err (Errorf "cluster configuration has not an instance %q" [i])
  end.
Proof.
  unfold ReplaceInstanceConfig, SetInstanceConfig, FindInstance.
  destruct (first_place cc i) as [p|] eqn:E; [|done].
  by apply first_place_Some in E as [_ <-].
Qed.
End Replace.

(** ** A YAML library for the witnesses

    A library that reads every text as one document and hands out the entries
    of its maps. *)
Lemma deepCast_idem v :
  deepCastStringMapToAnyMap (deepCastStringMapToAnyMap v) = deepCastStringMapToAnyMap v.
Proof.
  induction v as [v ? ? ? ?|l Hl|m Hm|m Hm|p Hp] using value_ind'; try done.
  - by destruct v; naive_solver.
  - simpl. f_equal. rewrite <-list_fmap_compose. apply list_fmap_ext.
    intros i x Hx. eapply Forall_lookup_1 in Hl; eauto.
  - simpl. f_equal. rewrite <-map_fmap_compose. apply map_fmap_ext. exact Hm.
  - simpl. f_equal. rewrite <-kmap_fmap by apply _.
    f_equal. rewrite <-map_fmap_compose. apply map_fmap_ext. exact Hm.
Qed.

Definition string_entries (m : gmap gokey value) : gmap string (option value) :=
  map_fold (fun k v acc =>
    match k with
    | KStr s => <[s := if is_nil v then None else Some v]> acc
    | _ => acc
    end) ∅ m.

Lemma string_entries_lookup m k v :
  m !! KStr k = Some v -> v <> VNil -> string_entries m !! k = Some (Some v).
Proof.
  intros Hk Hv. unfold string_entries.
  rewrite (map_fold_delete_L _ _ (KStr k) v m); [|by intros [] [] ? ? ? ?; try done;
    intros; apply insert_insert_ne; congruence|done].
  rewrite lookup_insert_eq. by destruct v.
Qed.

Definition document_yaml (doc : value) : Yaml := {|
  yaml_encode _ := "";
  yaml_parse _ := Ok (Some doc);
  yaml_struct _ := Ok tt;
  yaml_map_field name node :=
    match lookup_path (deepCastStringMapToAnyMap node) [name] with
    | VMap m => Ok (string_entries m)
    | _ => Ok ∅
    end;
  yaml_connections _ := Ok (zero_etcd, zero_storage)
|}.

Lemma lookup_path_cast v p x :
  lookup_path (deepCastStringMapToAnyMap v) p = x -> deepCastStringMapToAnyMap x = x.
Proof.
  revert v x. induction p as [|k p IH]; intros v ? <-; [apply deepCast_idem|].
  destruct v as [| | | | | | | | |m|m|]; try done; simpl.
  - unfold index. rewrite lookup_fmap. destruct (m !! KStr k) as [w|]; simpl.
    + by eapply IH.
    + by rewrite lookup_path_VNil.
  - unfold index. rewrite lookup_kmap, lookup_fmap by apply _.
    destruct (m !! k) as [w|]; simpl; [by eapply IH|by rewrite lookup_path_VNil].
Qed.

Lemma document_yaml_fields doc : @YamlFields (document_yaml doc).
Proof.
  intros name node nodes k x Hf Hx Hn. exists x. split; [|by eapply lookup_path_cast].
  simpl in Hf. rewrite lookup_path_cons in Hx. simpl in Hx.
  destruct (child (deepCastStringMapToAnyMap node) name) as [| | | | | | | | |m| |] eqn:Ec;
    try by subst.
  assert (lookup_path (deepCastStringMapToAnyMap node) [name] = VMap m) as E
    by (rewrite lookup_path_cons; exact Ec).
  simpl in E. rewrite E in Hf. injection Hf as <-.
  apply string_entries_lookup; [|done]. rewrite <-Hx. apply index_not_nil. by rewrite Hx.
Qed.

(** No string-keyed map and no slice inside, as a test. *)
Fixpoint cast_fixed (v : value) : bool :=
  match v with
  | VSlice _ | VStrMap _ => false
  | VMap m => map_fold (fun _ v b => cast_fixed v && b) true m
  | _ => true
  end.

Lemma cast_fixed_spec v : cast_fixed v = true -> deepCastStringMapToAnyMap v = v.
Proof.
  induction v as [v ? ? ? ?|l Hl|m Hm|m Hm|p Hp] using value_ind'; try done.
  { by destruct v; naive_solver. }
  intros Hc. simpl. f_equal. transitivity (id <$> m); [|apply map_fmap_id].
  apply map_fmap_ext. intros k v Hk. apply (Hm k v Hk). simpl in Hc.
  rewrite (map_fold_delete_L _ _ k v m) in Hc; [|by intros; destruct (cast_fixed _), (cast_fixed _)|done].
  by apply andb_prop in Hc as [? _].
Qed.

Definition sample_document : value :=
  paths (Set_ (Merge NewConfig sample_global)
    [groupsLabel; "g1"; replicasetsLabel; "r1"; instancesLabel; "i1"]
    (VConfig (paths sample_replicaset))).1.

Lemma parsed_scopes_not_nil_witness :
  exists cc p, @MakeClusterConfig (document_yaml (paths sample_global)) sample_global = Ok cc /\
    has_place cc p /\ is_Some (cluster_raw cc) /\ is_Some (repl_raw (snd (place_replicaset p))).
Proof.
  assert (match @MakeClusterConfig (document_yaml (paths sample_global)) sample_global with
    | Ok cc => negb (bool_decide (places cc = []))
    | Err _ => false end = true) as Hp by (vm_compute; reflexivity).
  destruct (@MakeClusterConfig _ sample_global) as [cc|] eqn:E; [|discriminate Hp].
  destruct (places cc) as [|p ps] eqn:Eps; [discriminate Hp|]. exists cc, p.
  assert (has_place cc p) as Hh by (apply elem_of_places; rewrite Eps; left).
  destruct (@parsed_scopes_not_nil (document_yaml (paths sample_global)) _ _ _ E Hh)
    as (? & ? & ?). tauto.
Defined.

Lemma SetInstanceConfig_reads_back_witness :
  exists cc', @SetInstanceConfig (document_yaml sample_document) sample_cluster "g1" "r1" "i1"
    sample_replicaset = Ok cc' /\
  instance_at cc' "g1" "r1" "i1" = Some (mkInstance (Some sample_replicaset)).
Proof.
  assert (is_ok (@SetInstanceConfig (document_yaml sample_document) sample_cluster
    "g1" "r1" "i1" sample_replicaset) = true) as Hok by (vm_compute; reflexivity).
  destruct (@SetInstanceConfig (document_yaml sample_document) sample_cluster "g1" "r1" "i1"
    sample_replicaset) as [cc'|] eqn:E; [|discriminate Hok].
  exists cc'. split; [reflexivity|].
  destruct (@SetInstanceConfig_reads_back (document_yaml sample_document)
    (document_yaml_fields _) sample_cluster "g1" "r1" "i1" sample_replicaset cc'
    (mkConfig sample_document) sample_document E) as [? ?];
    [reflexivity|reflexivity|apply cast_fixed_spec; vm_compute; reflexivity|discriminate|done].
Defined.
