(* ===== verification/Validators.v ===== *)
(** * Schema validation ([lib/cluster/validators.go], [lib/cluster/schema.go])

    The validators of configuration values, the errors they report with the
    path of the value, and the validation of a configuration by a schema. *)
From S2P Require Import Prelude GoStrings Value Config.

(** ** Text of values

    [strconv.ParseFloat], the shortest text of a [float64] and the text of a
    map (its order depends on the addresses of type descriptors) are
    parameters. *)
Class GoText := {
  ParseFloat : string -> option spec_float;
  FormatFloat : spec_float -> string;
  Sprint_map : value -> string
}.

(** [float64(z)], rounded to nearest even. *)
Definition float64_of_int (z : Z) : spec_float := binary_normalize 53 1024 z 0 false.

(** [int(z)] of a 64-bit unsigned integer. *)
Definition int_of_uint64 (z : Z) : Z := if (z <=? MaxInt64)%Z then z else (z - 2 ^ 64)%Z.

(** [fmt.Sprint(v)] of one operand. *)
Fixpoint Sprint `{GoText} (v : value) : string :=
  match v with
  | VNil => "<nil>"
  | VBool b => if b then "true" else "false"
  | VInt z => FormatInt z
  | VUint64 z => FormatUint z
  | VFloat f => FormatFloat f
  | VStr s => s
  | VOther _ repr => repr
  | VSlice l => "[" +:+ Join (map Sprint l) " " +:+ "]"
  | VStrSlice l => "[" +:+ Join l " " +:+ "]"
  | VMap _ | VStrMap _ | VConfig _ => Sprint_map v
  end.

(** [reflect.TypeOf(v)], printed with [%v]. *)
Definition TypeOf (v : value) : string :=
  match v with
  | VNil => "<nil>"
  | VBool _ => "bool"
  | VInt _ => "int"
  | VUint64 _ => "uint64"
  | VFloat _ => "float64"
  | VStr _ => "string"
  | VOther ty _ => ty
  | VSlice _ => "[]interface {}"
  | VStrSlice _ => "[]string"
  | VMap _ => "map[interface {}]interface {}"
  | VStrMap _ => "map[string]interface {}"
  | VConfig _ => "*cluster.Config"
  end.

Definition fmtUnexpected : string := "unexpected value %q of type %v, expected %s".
Definition fmtParseFailed : string := "failed to parse value %q to type %s".

(** ** Validation errors

    A [ValidateError] as a record, before it is boxed in an [error]. *)
Record validate_error := mkValidateError {
  ve_path : option (list string);
  ve_errs : list error
}.

Definition box (e : validate_error) : error := ValidateError (ve_path e) (ve_errs e).

(** [append(a, b...)]: nil only when [a] is nil and [b] has no elements. *)
Definition append_path (a b : option (list string)) : option (list string) :=
  match a, default [] b with
  | None, [] => None
  | _, b' => Some (default [] a ++ b')
  end.

(** The order of [mergeValidateErrors]: by length, then lexicographic. *)
Fixpoint lex_less (left right : list string) : bool :=
  match left, right with
  | l :: left', r :: right' =>
      if decide (l = r) then lex_less left' right' else String.ltb l r
  | _, _ => false
  end.

Definition path_less (left right : list string) : bool :=
  if decide (length left = length right) then lex_less left right
  else bool_decide (length left < length right).

Definition error_less (a b : validate_error) : bool :=
  path_less (default [] (ve_path a)) (default [] (ve_path b)).

(** One step of the merging loop; the accumulator is [merged], last first. *)
Definition merge_step (merged : list validate_error) (err : validate_error)
    : list validate_error :=
  match merged with
  | last :: rest =>
      if decide (ve_path last = ve_path err)
      then mkValidateError (ve_path last) (ve_errs last ++ ve_errs err) :: rest
      else err :: merged
  | [] => [err]
  end.

Section Errors.
Context `{GoSort}.

Definition mergeValidateErrors (errs : list validate_error) : list validate_error :=
  reverse (fold_left merge_step (sort_slice error_less errs) []).

(** The flattening loop: an error with [Unwrap() []error] gives its parts, the
    [ValidateError]s among them with the path in front. *)
Definition split_part (path : option (list string)) (e : error)
    : list error * list validate_error :=
  match e with
  | ValidateError p es => ([], [mkValidateError (append_path path p) es])
  | _ => ([e], [])
  end.

Definition unwrap_error (e : error) : option (list error) :=
  match e with
  | ErrJoin es | ValidateError _ es => Some es
  | _ => None
  end.

Definition flatten_error (path : option (list string)) (e : error)
    : list error * list validate_error :=
  match unwrap_error e with
  | Some es => (concat (map (fun x => (split_part path x).1) es),
                concat (map (fun x => (split_part path x).2) es))
  | None => ([e], [])
  end.

Definition wrapValidateErrors (path : option (list string)) (errs : list error) : error :=
  let rawErrs := concat (map (fun e => (flatten_error path e).1) errs) in
  let validateErrs := concat (map (fun e => (flatten_error path e).2) errs) in
  let validateErrs :=
    if decide (validateErrs = [] \/ rawErrs <> [])
    then validateErrs ++ [mkValidateError path rawErrs] else validateErrs in
  ErrJoin (map box (mergeValidateErrors validateErrs)).
End Errors.

(** ** Validators

    The literals of an [AllowedValidator]: the schema lists strings and
    integers. *)
Inductive literal := LStr (s : string) | LInt (z : Z).

Inductive Validator :=
| AnyValidator
| StringValidator
| BooleanValidator
| IntegerValidator
| NumberValidator
| SequenceValidator (validators : list Validator)
| AllowedValidator (item : Validator) (allowed : list literal)
| ArrayValidator (item : Validator)
| RecordValidator (items : gmap string Validator)
| MapValidator (key val : Validator).

(** [string(rune(z))]: the UTF-8 encoding of a code point, of U+FFFD for an
    integer that is none. *)
Definition byte (z : Z) : ascii := ascii_of_nat (Z.to_nat z).

Definition rune_string (z : Z) : string :=
  let r := if ((z <? 0) || (0x10FFFF <? z) || ((0xD800 <=? z) && (z <=? 0xDFFF)))%Z
           then 0xFFFD%Z else z in
  let cont shift := byte (0x80 + Z.land (Z.shiftr r shift) 0x3F) in
  if (r <? 0x80)%Z then String (byte r) ""
  else if (r <? 0x800)%Z then String (byte (0xC0 + Z.shiftr r 6)) (String (cont 0%Z) "")
  else if (r <? 0x10000)%Z then
    String (byte (0xE0 + Z.shiftr r 12)) (String (cont 6%Z) (String (cont 0%Z) ""))
  else String (byte (0xF0 + Z.shiftr r 18))
         (String (cont 12%Z) (String (cont 6%Z) (String (cont 0%Z) ""))).

(** [allowedValue.CanConvert(val.Type()) && val.Equal(allowedValue.Convert(...))] *)
Definition literal_equal (val : value) (allowed : literal) : bool :=
  match val, allowed with
  | VStr s, LStr a => bool_decide (s = a)
  | VStr s, LInt z => bool_decide (s = rune_string z)
  | VInt z, LInt a => bool_decide (z = a)
  | VUint64 z, LInt a => bool_decide (z = a mod 2 ^ 64)%Z
  | VFloat f, LInt a => SFeqb f (float64_of_int a)
  | _, _ => false
  end.

(** [reflect.ValueOf(v).Comparable()] *)
Definition Comparable (v : value) : bool :=
  match v with
  | VSlice _ | VStrSlice _ | VMap _ | VStrMap _ => false
  | _ => true
  end.

(** A key of a [map[any]any] as an [any], and back; a value that is not
    comparable is no key (Go panics), [validated_key_comparable] shows that a
    validated key always is one. *)
Definition key_value (k : gokey) : value :=
  match k with
  | KStr s => VStr s
  | KInt z => VInt z
  | KUint64 z => VUint64 z
  | KFloat f => VFloat f
  | KBool b => VBool b
  | KNil => VNil
  | KOther ty repr => VOther ty repr
  end.

Definition value_key (v : value) : gokey :=
  match v with
  | VStr s => KStr s
  | VInt z => KInt z
  | VUint64 z => KUint64 z
  | VFloat f => KFloat f
  | VBool b => KBool b
  | VOther ty repr => KOther ty repr
  | _ => KNil
  end.

Section Validate.
Context `{GoSort} `{GoMapOrder} `{GoText}.

Definition unexpected {A} (v : value) (expected : string) : result A :=
  Err (wrapValidateErrors (Some [])
    [Errorf fmtUnexpected [Sprint v; TypeOf v; expected]]).

Definition parse_failed {A} (v : value) (expected : string) : result A :=
  Err (wrapValidateErrors (Some []) [Errorf fmtParseFailed [Sprint v; expected]]).

Definition validate_any (v : value) : result value :=
  match v with
  | VNil => Err (wrapValidateErrors (Some []) [Errorf "a value expected, got nil" []])
  | _ => Ok v
  end.

Definition validate_string (v : value) : result value :=
  match v with
  | VStr s => Ok (VStr s)
  | VInt _ | VUint64 _ | VFloat _ | VBool _ => Ok (VStr (Sprint v))
  | _ => unexpected v "string"
  end.

Definition validate_boolean (v : value) : result value :=
  let dst := match v with VStr s => VStr (ToLower s) | _ => v end in
  match dst with
  | VBool b => Ok (VBool b)
  | VInt 1 => Ok (VBool true)
  | VInt 0 => Ok (VBool false)
  | VStr s =>
      if decide (s = "true") then Ok (VBool true)
      else if decide (s = "false") then Ok (VBool false)
      else unexpected v "boolean"
  | _ => unexpected v "boolean"
  end.

Definition validate_integer (v : value) : result value :=
  match v with
  | VStr s =>
      match ParseInt s with
      | Ok ivalue => Ok (VInt ivalue)
      | Err _ => parse_failed v "integer"
      end
  | VInt z => Ok (VInt z)
  | VUint64 z => Ok (VInt (int_of_uint64 z))
  | _ => unexpected v "integer"
  end.

Definition validate_number (v : value) : result value :=
  match v with
  | VStr s =>
      match ParseFloat s with
      | Some fvalue => Ok (VFloat fvalue)
      | None => parse_failed v "number"
      end
  | VInt z | VUint64 z => Ok (VFloat (float64_of_int z))
  | VFloat f => Ok (VFloat f)
  | _ => unexpected v "number"
  end.

(** The loop of [SequenceValidator.Validate] over its validators. *)
Fixpoint first_valid (outcomes : list (result value)) (errs : list error) : value + list error :=
  match outcomes with
  | [] => inr errs
  | Ok ret :: _ => inl ret
  | Err e :: rest => first_valid rest (errs ++ [e])
  end.

Definition validate_sequence (outcomes : list (result value)) (v : value) : result value :=
  match first_valid outcomes [] with
  | inl ret => Ok ret
  | inr [] => Ok v
  | inr errs => Err (wrapValidateErrors (Some []) errs)
  end.

Definition validate_allowed (outcome : result value) (allowed : list literal) (v : value)
    : result value :=
  match outcome with
  | Err e => Err e
  | Ok validated =>
      if negb (Comparable validated)
      then Err (wrapValidateErrors (Some []) [Errorf "value %q is not comparable" [Sprint v]])
      else if existsb (literal_equal validated) allowed then Ok validated
      else Err (wrapValidateErrors (Some [])
        [Errorf "value %q should be one of %v"
           [Sprint v;
            "[" +:+ Join (map (fun a => match a with LStr s => s | LInt z => FormatInt z end)
                           allowed) " " +:+ "]"]])
  end.

(** The loops of the composite validators: [out] and [errs] so far. *)
Definition validate_items (outcomes : list (result value)) : list value * list error :=
  fold_left (fun '(out, errs) r =>
    match r with
    | Ok ret => (out ++ [ret], errs)
    | Err e => (out, errs ++ [wrapValidateErrors (Some []) [e]])
    end) outcomes ([], []).

Definition validate_array (outcomes : list (result value)) : result value :=
  match validate_items outcomes with
  | (out, []) => Ok (VSlice out)
  | (_, errs) => Err (wrapValidateErrors None errs)
  end.

Definition validate_record (items : list (string * (value -> result value)))
    (vmap : gmap gokey value) : result value :=
  match fold_left (fun '(out, errs) '(k, validate) =>
    match vmap !! KStr k with
    | Some val =>
        match validate val with
        | Ok ret => (<[KStr k := ret]> out, errs)
        | Err e => (out, errs ++ [wrapValidateErrors (Some [k]) [e]])
        end
    | None => (out, errs)
    end) items ((∅ : gmap gokey value), ([] : list error)) with
  | (out, []) => Ok (VMap out)
  | (_, errs) => Err (wrapValidateErrors None errs)
  end.

Definition validate_map (key val : value -> result value) (entries : list (gokey * value))
    : result value :=
  match fold_left (fun '(out, errs) '(k, v) =>
    match key (key_value k) with
    | Err e => (out, errs ++ [wrapValidateErrors None [e]])
    | Ok rkey =>
        match val v with
        | Err e => (out, errs ++ [wrapValidateErrors (Some [Sprint (key_value k)]) [e]])
        | Ok rvalue => (<[value_key rkey := rvalue]> out, errs)
        end
    end) entries ((∅ : gmap gokey value), ([] : list error)) with
  | (out, []) => Ok (VMap out)
  | (_, errs) => Err (wrapValidateErrors None errs)
  end.

Definition not_a {A} (v : value) (msg : string) : result A :=
  Err (wrapValidateErrors (Some [Sprint v]) [Errorf msg []]).

(** [Validator.Validate] *)
Fixpoint validate (validator : Validator) (v : value) {struct validator} : result value :=
  match validator with
  | AnyValidator => validate_any v
  | StringValidator => validate_string v
  | BooleanValidator => validate_boolean v
  | IntegerValidator => validate_integer v
  | NumberValidator => validate_number v
  | SequenceValidator validators => validate_sequence (map (fun w => validate w v) validators) v
  | AllowedValidator item allowed => validate_allowed (validate item v) allowed v
  | ArrayValidator item =>
      match v with
      | VSlice array => validate_array (map (validate item) array)
      | _ => not_a v "must be an array"
      end
  | RecordValidator items =>
      match v with
      | VMap vmap => validate_record (range_map (validate <$> items)) vmap
      | _ => not_a v "must be a map"
      end
  | MapValidator key val =>
      match v with
      | VMap vmap => validate_map (validate key) (validate val) (range_map vmap)
      | _ => not_a v "must be a map"
      end
  end.

(** ** [schema.go] *)
Record SchemaPath := mkSchemaPath { Path : list string; PathValidator : Validator }.

(** The errors the loop of [Validate] gathers. *)
Definition schema_errors (config : Config) (schema : list SchemaPath) : list error :=
  concat (map (fun p =>
    match Get config (Path p) with
    | Err _ => []
    | Ok v =>
        match validate (PathValidator p) v with
        | Ok _ => []
        | Err e => [wrapValidateErrors (Some (Path p)) [e]]
        end
    end) schema).

Definition Validate (config : Config) (schema : list SchemaPath) : option error :=
  match schema_errors config schema with
  | [] => None
  | errs => Some (wrapValidateErrors None errs)
  end.
End Validate.
