(* ===== verification/ValidatorsProps.v ===== *)
(** * What validation guarantees

    The order in which errors are reported, that none is lost, and the shape of
    validated values. *)
From S2P Require Import Prelude GoStrings Value Config Validators.

(** ** The order of paths *)
Lemma lex_less_irrefl p : lex_less p p = false.
Proof. induction p; simpl; [done|]. by rewrite decide_True. Qed.

Lemma lex_less_trans p q r :
  lex_less p q = true -> lex_less q r = true -> lex_less p r = true.
Proof.
  revert q r. induction p as [|x p IH]; intros [|y q] [|z r]; simpl; try done.
  destruct (decide (x = y)) as [->|]; [case_decide; eauto|].
  destruct (decide (y = z)) as [->|]; [by rewrite decide_False|].
  intros Hxy Hyz. rewrite decide_False; [by eapply string_ltb_trans|].
  intros ->. pose proof (string_ltb_trans _ _ _ Hxy Hyz) as E.
  by rewrite string_ltb_irrefl in E.
Qed.

Lemma lex_less_total p q :
  length p = length q -> lex_less p q = false -> lex_less q p = false -> p = q.
Proof.
  revert q. induction p as [|x p IH]; intros [|y q] Hlen; simpl; try done.
  destruct (decide (x = y)) as [->|Hne].
  - rewrite decide_True by done. intros. f_equal. eauto.
  - rewrite decide_False by done. intros. by destruct Hne; apply string_ltb_total.
Qed.

Lemma path_less_irrefl p : path_less p p = false.
Proof. unfold path_less. rewrite decide_True by done. apply lex_less_irrefl. Qed.

Lemma path_less_trans p q r :
  path_less p q = true -> path_less q r = true -> path_less p r = true.
Proof.
  unfold path_less. repeat case_decide; rewrite ?bool_decide_eq_true; try lia.
  apply lex_less_trans.
Qed.

Lemma path_less_total p q : path_less p q = false -> path_less q p = false -> p = q.
Proof.
  unfold path_less. repeat case_decide; rewrite ?bool_decide_eq_false; try lia.
  by apply lex_less_total.
Qed.

#[export] Instance error_less_order : StrictWeakOrder error_less.
Proof.
  unfold error_less. split.
  - intros. apply path_less_irrefl.
  - intros x y z. apply path_less_trans.
  - intros x y z Hxy Hyz.
    destruct (path_less (default [] (ve_path x)) (default [] (ve_path z))) eqn:Hxz; [|done].
    destruct (path_less (default [] (ve_path y)) (default [] (ve_path x))) eqn:Hyx.
    + by rewrite (path_less_trans _ _ _ Hyx Hxz) in Hyz.
    + by rewrite (path_less_total _ _ Hxy Hyx), Hyz in Hxz.
Qed.

(** ** Merging loses nothing

    A report: each error with the path it is reported under. *)
Definition report_error (e : validate_error) : list (list string * error) :=
  map (fun x => (default [] (ve_path e), x)) (ve_errs e).

Definition report_of (es : list validate_error) : list (list string * error) :=
  concat (map report_error es).

Definition report_part (e : error) : list (list string * error) :=
  match e with
  | ValidateError p xs => report_error (mkValidateError p xs)
  | _ => []
  end.

Definition report (e : error) : list (list string * error) :=
  match e with
  | ErrJoin es => concat (map report_part es)
  | _ => []
  end.

Definition prefixed (path : list string) (r : list (list string * error)) :=
  map (fun x => (path ++ x.1, x.2)) r.

(** An error the validators return: some [ValidateError]s, joined. *)
Definition structured (e : error) : Prop :=
  exists es, e = ErrJoin (map box es) /\ es <> [].

Lemma report_join es : report (ErrJoin (map box es)) = report_of es.
Proof. simpl. unfold report_of. by rewrite map_map. Qed.

Lemma merge_step_report acc e :
  report_of (merge_step acc e) ≡ₚ report_of acc ++ report_of [e].
Proof.
  destruct acc as [|l acc]; simpl; [done|].
  unfold report_of. case_decide as E; simpl; rewrite ?app_nil_r.
  - unfold report_error. simpl. rewrite map_app, E. solve_Permutation.
  - solve_Permutation.
Qed.

Lemma merge_steps_report es acc :
  report_of (fold_left merge_step es acc) ≡ₚ report_of acc ++ report_of es.
Proof.
  revert acc. induction es as [|e es IH]; intros acc; simpl.
  - unfold report_of at 3. simpl. by rewrite app_nil_r.
  - rewrite IH, merge_step_report. unfold report_of. simpl. by rewrite app_nil_r, <-app_assoc.
Qed.

#[export] Instance report_of_Proper : Proper ((≡ₚ) ==> (≡ₚ)) report_of.
Proof. intros a b E. unfold report_of. by rewrite E. Qed.

Lemma merge_report `{GoSort} es : report_of (mergeValidateErrors es) ≡ₚ report_of es.
Proof.
  unfold mergeValidateErrors. rewrite reverse_Permutation, merge_steps_report. simpl.
  by rewrite sort_slice_perm.
Qed.

Lemma merge_step_nonempty e acc : merge_step acc e <> [].
Proof. destruct acc; simpl; [done|]. by case_decide. Qed.

Lemma merge_steps_nonempty es acc : acc <> [] -> fold_left merge_step es acc <> [].
Proof. revert acc. induction es; simpl; [done|]. intros. apply IHes, merge_step_nonempty. Qed.

Lemma merge_nonempty `{GoSort} es : es <> [] -> mergeValidateErrors es <> [].
Proof.
  intros Hes. unfold mergeValidateErrors.
  destruct (sort_slice error_less es) as [|e l] eqn:E.
  - pose proof (sort_slice_perm error_less es) as Hp. rewrite E in Hp.
    by apply Permutation_nil_l in Hp.
  - simpl. intros Hr. apply (f_equal reverse) in Hr. rewrite reverse_involutive in Hr.
    revert Hr. apply merge_steps_nonempty. done.
Qed.

Lemma wrap_structured `{GoSort} path errs : structured (wrapValidateErrors path errs).
Proof.
  unfold wrapValidateErrors. eexists. split; [done|]. apply merge_nonempty.
  case_decide as E; [|naive_solver]. by intros []%app_eq_nil.
Qed.

(** ** The reported paths are in order and distinct *)

(** Nil and empty paths are not mixed: the path [[]] is written as nil. *)
Definition nil_root (e : validate_error) : Prop := ve_path e <> Some [].

Lemma nil_root_path a b :
  nil_root a -> nil_root b ->
  default [] (ve_path a) = default [] (ve_path b) -> ve_path a = ve_path b.
Proof.
  unfold nil_root. destruct (ve_path a) as [p|], (ve_path b) as [q|]; simpl; congruence.
Qed.

Lemma error_less_total a b :
  nil_root a -> nil_root b -> ve_path a <> ve_path b -> error_less b a = false ->
  error_less a b = true.
Proof.
  intros Ha Hb Hne Hba. destruct (error_less a b) eqn:E; [done|].
  destruct Hne. apply nil_root_path; [done..|]. by apply path_less_total.
Qed.

Lemma merge_steps_sorted es acc :
  Forall nil_root es -> Forall nil_root acc -> sorted_by error_less es ->
  StronglySorted (fun a b => error_less b a = true) acc ->
  (forall a e, head acc = Some a -> e ∈ es -> error_less e a = false) ->
  StronglySorted (fun a b => error_less b a = true) (fold_left merge_step es acc) /\
  Forall nil_root (fold_left merge_step es acc).
Proof.
  revert acc. induction es as [|e es IH]; intros acc Hes Hacc Hs Hsa Hle; simpl; [done|].
  apply Forall_cons in Hes as [He Hes]. apply StronglySorted_cons in Hs as [Hfe Hs].
  apply IH; clear IH; [done| |done| |].
  - destruct acc as [|l acc]; simpl; [by repeat constructor|].
    apply Forall_cons in Hacc as [Hl Hacc]. case_decide; by repeat constructor.
  - destruct acc as [|l acc]; simpl; [by repeat constructor|].
    apply Forall_cons in Hacc as [Hl Hacc]. apply StronglySorted_cons in Hsa as [Hf Hsa].
    case_decide; apply StronglySorted_cons; [exact (conj Hf Hsa)|].
    assert (error_less l e = true) as Hle'.
    { apply error_less_total; try done. apply Hle; [done|left]. }
    split; [|by apply StronglySorted_cons]. apply Forall_cons. split; [done|].
    eapply Forall_impl; [exact Hf|]. intros x Hx. simpl in *.
    by apply (swo_trans (less:=error_less) x l e).
  - intros a x Ha Hx. destruct acc as [|l acc]; simpl in Ha.
    + simplify_eq. exact (proj1 (Forall_forall _ _) Hfe x Hx).
    + case_decide as E; simplify_eq/=; [|exact (proj1 (Forall_forall _ _) Hfe x Hx)].
      assert (error_less x l = false) as Hxl by (apply Hle; [done|by right]). exact Hxl.
Qed.

Lemma StronglySorted_reverse {A} (R : A -> A -> Prop) l :
  StronglySorted (fun a b => R b a) l -> StronglySorted R (reverse l).
Proof.
  induction l as [|x l IH]; [intros _; constructor|]. intros [Hx Hl]%StronglySorted_cons.
  rewrite reverse_cons. apply StronglySorted_app. split; [|split].
  - intros a b Ha Hb. apply list_elem_of_singleton in Hb as ->.
    apply (proj1 (elem_of_reverse _ _)) in Ha. exact (proj1 (Forall_forall _ _) Hx a Ha).
  - by apply IH.
  - repeat constructor.
Qed.

Lemma merge_sorted `{GoSort} es :
  Forall nil_root es ->
  StronglySorted (fun a b => error_less a b = true) (mergeValidateErrors es).
Proof.
  intros Hes. unfold mergeValidateErrors. apply StronglySorted_reverse.
  apply merge_steps_sorted; [by rewrite sort_slice_perm|done|apply sort_slice_sorted, _|constructor|done].
Qed.

(** ** [wrapValidateErrors] on errors of validators *)
Lemma flatten_structured path es :
  flatten_error path (ErrJoin (map box es)) =
  ([], map (fun e => mkValidateError (append_path path (ve_path e)) (ve_errs e)) es).
Proof.
  unfold flatten_error. simpl. rewrite !map_map. simpl.
  f_equal; induction es as [|e es IH]; simpl; by rewrite ?IH.
Qed.

Lemma default_append_path a b : default [] (append_path a b) = default [] a ++ default [] b.
Proof. by destruct a, b as [[|]|]; simpl; rewrite ?app_nil_r. Qed.

Lemma report_prefixed path es :
  report_of (map (fun e => mkValidateError (append_path path (ve_path e)) (ve_errs e)) es) =
  prefixed (default [] path) (report_of es).
Proof.
  unfold report_of, prefixed. induction es as [|e es IH]; [done|]. simpl.
  rewrite IH, map_app. f_equal. unfold report_error. simpl.
  by rewrite default_append_path, map_map.
Qed.

(** The validation errors of structured errors, with the path in front. *)
Definition raised (path : option (list string)) (errs : list error) : list validate_error :=
  concat (map (fun e => (flatten_error path e).2) errs).

Lemma raised_structured path errs :
  Forall structured errs ->
  concat (map (fun e => (flatten_error path e).1) errs) = [] /\
  (errs <> [] -> raised path errs <> []) /\
  report_of (raised path errs) = prefixed (default [] path) (concat (map report errs)).
Proof.
  unfold raised. induction 1 as [|e errs (es & -> & Hes) Herrs IH]; [done|].
  destruct IH as (IH1 & _ & IH3). cbn [map concat].
  rewrite flatten_structured, IH1. split; [done|]. split.
  - intros _ [H _]%app_eq_nil. destruct es; done.
  - unfold report_of in *. rewrite map_app, concat_app, IH3. unfold prefixed.
    rewrite map_app, report_join. f_equal. apply report_prefixed.
Qed.

Lemma wrap_report `{GoSort} path errs :
  Forall structured errs -> errs <> [] ->
  wrapValidateErrors path errs = ErrJoin (map box (mergeValidateErrors (raised path errs))) /\
  report (wrapValidateErrors path errs) ≡ₚ prefixed (default [] path) (concat (map report errs)).
Proof.
  intros Hs Hne. destruct (raised_structured path errs Hs) as (Hraw & Hv & Hrep).
  assert (wrapValidateErrors path errs = ErrJoin (map box (mergeValidateErrors (raised path errs))))
    as E.
  { unfold wrapValidateErrors. rewrite Hraw. fold (raised path errs).
    by rewrite decide_False by naive_solver. }
  split; [done|]. by rewrite E, report_join, merge_report, Hrep.
Qed.

Lemma append_path_nil_root p : append_path None p <> Some [].
Proof. by destruct p as [[|]|]. Qed.

Lemma raised_nil_root errs : Forall structured errs -> Forall nil_root (raised None errs).
Proof.
  unfold raised. induction 1 as [|e errs (es & -> & _) _ IH]; cbn [map concat]; [done|].
  rewrite flatten_structured. apply Forall_app. split; [|done]. cbn [snd].
  clear. induction es; simpl; constructor; [|done]. apply append_path_nil_root.
Qed.

(** ** Validation with a schema *)
Section Schema.
Context `{GoSort} `{GoMapOrder} `{GoText}.

Lemma validate_structured w v e : validate w v = Err e -> structured e.
Proof.
  revert v e. induction w; intros v e; simpl.
  - destruct v; simpl; try done. intros [= <-]. apply wrap_structured.
  - destruct v; simpl; try done; intros [= <-]; apply wrap_structured.
  - unfold validate_boolean, unexpected. intros Hv.
    repeat case_match; simplify_eq/=; apply wrap_structured.
  - unfold validate_integer, unexpected, parse_failed. intros Hv.
    repeat case_match; simplify_eq/=; apply wrap_structured.
  - unfold validate_number, unexpected, parse_failed. intros Hv.
    repeat case_match; simplify_eq/=; apply wrap_structured.
  - unfold validate_sequence. intros Hv. repeat case_match; simplify_eq/=; apply wrap_structured.
  - unfold validate_allowed. intros Hv.
    repeat case_match; simplify_eq/=; eauto; apply wrap_structured.
  - unfold not_a, validate_array. intros Hv.
    repeat case_match; simplify_eq/=; apply wrap_structured.
  - unfold not_a, validate_record. intros Hv.
    repeat case_match; simplify_eq/=; apply wrap_structured.
  - unfold not_a, validate_map. intros Hv.
    repeat case_match; simplify_eq/=; apply wrap_structured.
Qed.

Lemma schema_errors_structured config schema : Forall structured (schema_errors config schema).
Proof.
  unfold schema_errors. induction schema as [|p schema IH]; simpl; [done|].
  apply Forall_app. split; [|done]. repeat case_match; repeat constructor.
  apply wrap_structured.
Qed.

(** The faults of one schema path. *)
Definition path_faults (config : Config) (p : SchemaPath) : list (list string * error) :=
  match Get config (Path p) with
  | Err _ => []
  | Ok v =>
      match validate (PathValidator p) v with
      | Ok _ => []
      | Err e => prefixed (Path p) (report e)
      end
  end.

Lemma schema_errors_report config schema :
  concat (map report (schema_errors config schema)) ≡ₚ
  concat (map (path_faults config) schema).
Proof.
  unfold schema_errors, path_faults. induction schema as [|p schema IH]; simpl; [done|].
  rewrite map_app, concat_app, IH. apply Permutation_app_tail.
  destruct (Get config (Path p)) as [v|]; [|done].
  destruct (validate (PathValidator p) v) as [|e] eqn:E; [done|]. cbn [map concat].
  apply validate_structured in E.
  rewrite (proj2 (wrap_report (Some (Path p)) [e] ltac:(by repeat constructor) ltac:(done))).
  cbn [map concat]. by rewrite !app_nil_r.
Qed.

Lemma schema_errors_nil config schema :
  schema_errors config schema = [] <->
  forall p v, p ∈ schema -> Get config (Path p) = Ok v ->
    is_ok (validate (PathValidator p) v) = true.
Proof.
  unfold schema_errors. induction schema as [|p schema IH]; simpl.
  { split; [|done]. intros _ p v Hp. by apply not_elem_of_nil in Hp. }
  rewrite app_nil, IH. setoid_rewrite elem_of_cons. split.
  - intros [Hp Hs] q v [->|Hq] Hg; [|by eapply Hs]. rewrite Hg in Hp.
    by destruct (validate _ v).
  - intros Hs. split; [|by eauto]. destruct (Get config (Path p)) as [v|] eqn:E; [|done].
    specialize (Hs p v (or_introl eq_refl) E). by destruct (validate _ v).
Qed.

(** C5: Validate returns nil exactly when every schema path that the
    configuration has passes its validator; otherwise its error lists the
    faults of all validators, each under the schema path followed by its own
    path, none lost or invented, merged into one entry per path in strictly
    increasing order, whatever order sort.Slice leaves equal elements in. *)
Theorem Validate_reports_all config schema :
  (Validate config schema = None <->
   forall p v, p ∈ schema -> Get config (Path p) = Ok v ->
     is_ok (validate (PathValidator p) v) = true) /\
  (forall e, Validate config schema = Some e ->
   exists es, e = ErrJoin (map box es) /\
     StronglySorted (fun a b => error_less a b = true) es /\
     report e ≡ₚ concat (map (path_faults config) schema)).
Proof.
  rewrite <-schema_errors_nil. unfold Validate.
  pose proof (schema_errors_structured config schema) as Hs.
  pose proof (schema_errors_report config schema) as Hrep.
  destruct (schema_errors config schema) as [|e0 errs]; [done|].
  split; [done|]. intros e [= <-].
  destruct (wrap_report None (e0 :: errs) Hs) as [E Hr]; [done|].
  exists (mergeValidateErrors (raised None (e0 :: errs))).
  split; [done|]. split; [by apply merge_sorted, raised_nil_root|].
  rewrite Hr, <-Hrep. unfold prefixed. simpl. rewrite map_ext with (g := id) by (by intros []).
  by rewrite map_id.
Qed.
End Schema.

(** ** The shape of a validated value *)
Fixpoint validator_size (w : Validator) : nat :=
  match w with
  | SequenceValidator ws => S (list_sum (map validator_size ws))
  | AllowedValidator item _ | ArrayValidator item => S (validator_size item)
  | RecordValidator items => S (map_fold (fun _ w n => validator_size w + n) 0 items)
  | MapValidator key val => S (validator_size key + validator_size val)
  | _ => 1
  end.

Lemma Validator_ind' (P : Validator -> Prop)
  (Hany : P AnyValidator) (Hstr : P StringValidator) (Hbool : P BooleanValidator)
  (Hint : P IntegerValidator) (Hnum : P NumberValidator)
  (Hseq : forall ws, Forall P ws -> P (SequenceValidator ws))
  (Hallowed : forall w a, P w -> P (AllowedValidator w a))
  (Harray : forall w, P w -> P (ArrayValidator w))
  (Hrecord : forall items, map_Forall (fun _ => P) items -> P (RecordValidator items))
  (Hmap : forall k v, P k -> P v -> P (MapValidator k v)) :
  forall w, P w.
Proof.
  intros w. remember (validator_size w) as n eqn:Hn. revert w Hn.
  induction (lt_wf n) as [n _ IH]. intros w ->.
  destruct w as [| | | | |ws|w a|w|items|k v]; try done.
  - apply Hseq, Forall_forall. intros x Hx. eapply IH; [|done]. simpl.
    apply list_elem_of_split in Hx as (l1 & l2 & ->).
    rewrite map_app, list_sum_app. simpl. lia.
  - apply Hallowed. eapply IH; [|done]. simpl. lia.
  - apply Harray. eapply IH; [|done]. simpl. lia.
  - apply Hrecord. intros k x Hx. eapply IH; [|done]. simpl.
    rewrite (map_fold_delete_L _ _ k x items); [lia| |done]. intros. lia.
  - apply Hmap; (eapply IH; [|done]; simpl; lia).
Qed.

(** [conforms w v]: [v] has the type that [w] describes. *)
Fixpoint conforms (w : Validator) (v : value) {struct w} : Prop :=
  match w with
  | AnyValidator => v <> VNil
  | StringValidator => exists s, v = VStr s
  | BooleanValidator => exists b, v = VBool b
  | IntegerValidator => exists z, v = VInt z
  | NumberValidator => exists f, v = VFloat f
  | SequenceValidator ws => ws = [] \/ Exists (fun P => P v) (map conforms ws)
  | AllowedValidator item allowed => conforms item v /\ existsb (literal_equal v) allowed = true
  | ArrayValidator item => exists l, v = VSlice l /\ Forall (conforms item) l
  | RecordValidator items => exists m, v = VMap m /\
      map_Forall (fun k x => exists s P, k = KStr s /\ (conforms <$> items) !! s = Some P /\ P x) m
  | MapValidator key val => exists m, v = VMap m /\
      map_Forall (fun k x => conforms key (key_value k) /\ conforms val x) m
  end.

Section Conforms.
Context `{GoSort} `{GoMapOrder} `{GoText}.

Lemma first_valid_inl outcomes errs ret :
  first_valid outcomes errs = inl ret -> Ok ret ∈ outcomes.
Proof.
  revert errs. induction outcomes as [|[a|e] os IH]; intros errs; simpl; [done| |].
  - intros [= ->]. left.
  - intros Hf. right. by eapply IH.
Qed.

Lemma first_valid_nil outcomes errs :
  first_valid outcomes errs = inr [] -> outcomes = [].
Proof.
  intros Hf. destruct outcomes as [|[a|e] os]; [done..|]. simpl in Hf. exfalso.
  assert (errs ++ [e] <> []) as Hne by (by destruct errs). revert Hne Hf.
  generalize (errs ++ [e]). induction os as [|[a|e'] os IH]; intros l Hne; simpl; [congruence|done|].
  apply IH. by destruct l.
Qed.

(** The loops that gather [out] and [errs] return without errors only when
    every step succeeded. *)
Lemma validate_items_Ok outcomes out :
  validate_items outcomes = (out, []) -> outcomes = map Ok out.
Proof.
  unfold validate_items.
  assert (forall os acc errs, fold_left (fun '(out, errs) (r : result value) =>
    match r with
    | Ok ret => (out ++ [ret], errs)
    | Err e => (out, errs ++ [wrapValidateErrors (Some []) [e]])
    end) os (acc, errs) = (out, []) ->
    errs = [] /\ exists out', out = acc ++ out' /\ os = map Ok out') as Hgen.
  { induction os as [|[a|e] os IH]; intros acc errs; simpl.
    - intros [= -> ->]. split; [done|]. exists []. by rewrite app_nil_r.
    - intros (-> & out' & -> & ->)%IH. split; [done|]. exists (a :: out').
      by rewrite <-app_assoc.
    - intros ([]%app_eq_nil & _)%IH. done. }
  intros (_ & out' & -> & ->)%Hgen. done.
Qed.

Lemma record_conforms items m l ret :
  (forall k w, (k, w) ∈ l -> exists P, (conforms <$> items) !! k = Some P /\
     forall v r, w v = Ok r -> P r) ->
  validate_record l m = Ok ret -> conforms (RecordValidator items) ret.
Proof.
  intros Hl. unfold validate_record. destruct (fold_left _ _ _) as [out errs] eqn:E.
  destruct errs; [|done]. intros [= <-]. simpl. exists out. split; [done|].
  change out with ((out, [] : list error).1). rewrite <-E. clear E out.
  apply (fold_left_inv (fun s => map_Forall (fun k x => exists s P,
    k = KStr s /\ (conforms <$> items) !! s = Some P /\ P x) s.1));
    [|apply map_Forall_empty].
  intros [acc errs] [k w] Hin Hacc. destruct (m !! KStr k) as [val|]; [|done].
  destruct (w val) as [r|] eqn:Ew; [|done]. apply map_Forall_insert_2; [|done].
  destruct (Hl k w Hin) as (P & HP & Hr). eauto 6.
Qed.

Lemma value_key_value v : Comparable v = true -> v <> VNil -> (forall p, v <> VConfig p) ->
  key_value (value_key v) = v.
Proof. destruct v; naive_solver. Qed.

(** A validated key can be a key again. *)
Lemma validated_key_comparable w k r :
  validate w (key_value k) = Ok r -> key_value (value_key r) = r.
Proof.
  induction w as [| | | | |ws IH|w a IH|w|items|kw vw] using Validator_ind'; simpl.
  - by destruct k; intros [= <-].
  - by destruct k; intros [= <-].
  - unfold validate_boolean, unexpected. intros Hv. repeat case_match; by simplify_eq/=.
  - unfold validate_integer, unexpected, parse_failed. intros Hv. repeat case_match; by simplify_eq/=.
  - unfold validate_number, unexpected, parse_failed. intros Hv. repeat case_match; by simplify_eq/=.
  - unfold validate_sequence. destruct (first_valid _ _) as [ret|[|]] eqn:E; try done.
    + intros [= <-]. apply first_valid_inl in E. apply list_elem_of_In, in_map_iff in E as (w & Hw & Hin).
      apply list_elem_of_In in Hin. exact (proj1 (Forall_forall _ _) IH w Hin Hw).
    + intros [= <-]. by destruct k.
  - unfold validate_allowed. intros Hv. repeat case_match; simplify_eq/=; eauto.
  - by destruct k.
  - by destruct k.
  - by destruct k.
Qed.

Lemma map_conforms key val l ret :
  (forall k r, validate key (key_value k) = Ok r -> conforms key r) ->
  (forall v r, validate val v = Ok r -> conforms val r) ->
  validate_map (validate key) (validate val) l = Ok ret -> conforms (MapValidator key val) ret.
Proof.
  intros Hk Hv. unfold validate_map. destruct (fold_left _ _ _) as [out errs] eqn:E.
  destruct errs; [|done]. intros [= <-]. simpl. exists out. split; [done|].
  change out with ((out, [] : list error).1). rewrite <-E. clear E out.
  apply (fold_left_inv (fun s => map_Forall (fun k x =>
    conforms key (key_value k) /\ conforms val x) s.1)); [|apply map_Forall_empty].
  intros [acc errs] [k v] _ Hacc.
  destruct (validate key (key_value k)) as [rk|] eqn:Ek; [|done].
  destruct (validate val v) as [rv|] eqn:Ev; [|done]. apply map_Forall_insert_2; [|done].
  rewrite (validated_key_comparable _ _ _ Ek). eauto.
Qed.

(** A validated value has the type of its validator, by induction on it. *)
Lemma validated_conforms w v r : validate w v = Ok r -> conforms w r.
Proof.
  revert v r. induction w as [| | | | |ws IH|w a IH|w IH|items IH|kw vw IHk IHv]
    using Validator_ind'; intros v r; cbn [validate conforms].
  - by destruct v; intros [= <-].
  - destruct v; intros [= <-]; eauto.
  - unfold validate_boolean, unexpected. intros Hv. repeat case_match; simplify_eq/=; eauto.
  - unfold validate_integer, unexpected, parse_failed. intros Hv.
    repeat case_match; simplify_eq/=; eauto.
  - unfold validate_number, unexpected, parse_failed. intros Hv.
    repeat case_match; simplify_eq/=; eauto.
  - unfold validate_sequence. destruct (first_valid _ _) as [ret|[|]] eqn:E; try done.
    + intros [= <-]. right. apply first_valid_inl in E.
      apply list_elem_of_In, in_map_iff in E as (w & Hw & Hin).
      apply Exists_exists. exists (conforms w). rewrite !list_elem_of_In. split; [by apply in_map|].
      apply list_elem_of_In in Hin. exact (proj1 (Forall_forall _ _) IH w Hin _ _ Hw).
    + intros _. left. apply first_valid_nil in E. by destruct ws.
  - unfold validate_allowed. intros Hv. repeat case_match; simplify_eq/=; eauto.
  - destruct v; try done. unfold validate_array.
    destruct (validate_items _) as [out [|]] eqn:E; [|done]. intros [= <-].
    exists out. split; [done|]. apply validate_items_Ok in E.
    revert l E. clear -IH. induction out as [|x out IHout]; intros [|y l] [=]; constructor; eauto.
  - destruct v; try done. intros Hv. eapply (record_conforms items); [|exact Hv].
    intros k w. rewrite elem_of_range_map, lookup_fmap.
    intros (w' & Hk & ->)%fmap_Some. exists (conforms w'). rewrite lookup_fmap, Hk.
    split; [done|]. apply (IH _ _ Hk).
  - destruct v; try done. intros Hv. eapply map_conforms; eauto.
Qed.

(** C37: A value that a validator returns has the type the validator
    describes: scalars of the right dynamic type, allowed values from the
    list, arrays of conforming items, records with declared keys only, maps
    with conforming keys and values. *)
Theorem validate_conforms w v r : validate w v = Ok r -> conforms w r.
Proof. apply validated_conforms. Qed.

(** C38: IntegerValidator returns an int in the 64-bit signed range that is
    the int given or the int its text denotes, and for a uint64 the same
    number modulo 2^64, which differs from the input exactly above MaxInt64.
    *)
Theorem integer_bounds v r :
  (forall z, v = VInt z -> MinInt64 <= z <= MaxInt64)%Z ->
  (forall z, v = VUint64 z -> 0 <= z <= MaxUint64)%Z ->
  validate IntegerValidator v = Ok r ->
  exists z, r = VInt z /\ (MinInt64 <= z <= MaxInt64)%Z /\
    match v with
    | VInt n => z = n
    | VUint64 n => (z = n <-> (n <= MaxInt64)%Z) /\ (z mod 2 ^ 64 = n)%Z
    | VStr s => ParseInt s = Ok z
    | _ => False
    end.
Proof.
  intros Hi Hu. simpl. unfold validate_integer, unexpected, parse_failed.
  destruct v as [|b|n|n|f|s|ty re|l|l|m|m|p]; try done.
  - intros [= <-]. exists n. by specialize (Hi n eq_refl).
  - intros [= <-]. specialize (Hu n eq_refl). unfold int_of_uint64.
    unfold MaxUint64, MaxInt64, MinInt64 in *.
    eexists. split; [done|]. case_match.
    + split; [lia|]. split; [lia|]. apply Z.mod_small. lia.
    + split; [lia|]. split; [lia|]. symmetry. apply (Z.mod_unique_pos _ _ (-1)); lia.
  - destruct (ParseInt s) as [n|] eqn:E; [|done]. intros [= <-]. exists n.
    split; [done|]. split; [|done]. revert E. unfold ParseInt.
    repeat case_match; intros; simplify_eq; lia.
Qed.
End Conforms.

(** ** Samples *)
Definition integer_text : GoText := {|
  ParseFloat s := match ParseInt s with Ok z => Some (float64_of_int z) | Err _ => None end;
  FormatFloat _ := "1.5";
  Sprint_map _ := "map[]"
|}.

Definition sample_validator : Validator :=
  RecordValidator {[ "port" := AllowedValidator IntegerValidator [LInt 1; LInt 3301];
                     "roles" := ArrayValidator StringValidator ]}.
Definition sample_value : value :=
  VMap {[ KStr "port" := VStr "3301"; KStr "roles" := VSlice [VInt 7; VStr "router"] ]}.

Lemma validate_conforms_witness :
  exists r, @validate _ _ integer_text sample_validator sample_value = Ok r /\
    conforms sample_validator r.
Proof.
  assert (is_ok (@validate _ _ integer_text sample_validator sample_value) = true) as Hok
    by (vm_compute; reflexivity).
  destruct (@validate _ _ integer_text sample_validator sample_value) as [r|] eqn:E;
    [|discriminate Hok].
  exists r. split; [reflexivity|]. exact (@validate_conforms _ _ integer_text _ _ _ E).
Defined.

Lemma integer_bounds_witness :
  @validate _ _ integer_text IntegerValidator (VUint64 (2 ^ 63)) = Ok (VInt (- 2 ^ 63)) /\
  exists z, VInt (- 2 ^ 63) = VInt z /\ (MinInt64 <= z <= MaxInt64)%Z.
Proof.
  assert (@validate _ _ integer_text IntegerValidator (VUint64 (2 ^ 63)) = Ok (VInt (- 2 ^ 63)))
    as E by reflexivity.
  split; [exact E|].
  destruct (@integer_bounds _ _ integer_text (VUint64 (2 ^ 63)) (VInt (- 2 ^ 63)))
    as (z & Hz & Hb & _); [discriminate|intros z [= <-]; unfold MaxUint64; lia|exact E|].
  exists z. split; [exact Hz|exact Hb].
Defined.

(** A configuration with two faults: both are reported, in the order of their
    paths, although the schema lists them the other way round. *)
Example two_faults :
  let config := mkConfig (VMap {[ KStr "b" := VMap {[ KStr "c" := VStr "x" ]};
                                  KStr "a" := VNil; KStr "d" := VStr "maybe" ]}) in
  let schema := [mkSchemaPath ["b"; "c"] IntegerValidator;
                 mkSchemaPath ["d"] BooleanValidator;
                 mkSchemaPath ["z"] IntegerValidator] in
  (map fst ∘ report) <$> (@Validate _ _ integer_text config schema) = Some [["d"]; ["b"; "c"]].
Proof. vm_compute. reflexivity. Qed.
