(* ===== verification/Sources.v ===== *)
(** * Sources of a configuration

    The interfaces of collectors and publishers ([collector.go],
    [datacollector.go], [datapublisher.go], [publisher.go], [integrity.go]) and
    their implementations over YAML text, files and environment variables
    ([yaml.go], [file.go], [env.go]), all in [lib/cluster]. *)
From S2P Require Import Prelude GoStrings Value Config Cluster.

(** ** Interfaces

    An operation on the outside world takes the world and returns the next
    one.  A [[]byte] that may be nil is an [option string]. *)
Record Data := mkData { Source : string; Value : string; Revision : Z }.

Section Interfaces.
Context {W : Type}.

Record DataCollector := mkDataCollector { collect_data : W -> result (list Data) * W }.
Record Collector := mkCollector { collect : W -> result Config * W }.
Record DataPublisher := mkDataPublisher {
  publish_data : Z -> option string -> W -> option error * W
}.
Record ConfigPublisher := mkConfigPublisher { publish : option Config -> W -> option error * W }.

(** [SignFunc] gives the hashes by name and the signature of the data;
    [CheckFunc] gets the data with nil for hashes or a signature it has not. *)
Definition SignFunc := option string -> result (gmap string string * string).
Definition CheckFunc := string -> option (gmap string string) -> option string -> option error.

(** [FileReadFunc] opens a file; the reader is what reading it to the end
    gives. *)
Definition FileReadFunc := string -> W -> result (result string) * W.
End Interfaces.
Arguments DataCollector : clear implicits.
Arguments Collector : clear implicits.
Arguments DataPublisher : clear implicits.
Arguments ConfigPublisher : clear implicits.
Arguments FileReadFunc : clear implicits.

(** ** [yaml.go] *)
Section YamlSources.
Context `{Yaml}.

(** [yaml.Unmarshal(data, config)] for a new [*Config]: an empty document and a
    null leave it as it was. *)
Definition yaml_unmarshal_config (data : string) : result Config :=
  match yaml_parse data with
  | Err e => Err e
  | Ok None => Ok NewConfig
  | Ok (Some VNil) => Ok NewConfig
  | Ok (Some node) => UnmarshalYAML (Ok node)
  end.

Definition YamlCollector_Collect (data : string) : result Config :=
  rwrap "unable to unmarshal YAML: %w" [] (yaml_unmarshal_config data).

Definition YamlDataMergeCollector_Collect (data : list Data) : result Config :=
  for_each (fun cconfig src =>
    match YamlCollector_Collect (Value src) with
    | Err e => Err (Wrapf "failed to decode config from %q: %w" [Source src] e)
    | Ok config => Ok (Merge cconfig config)
    end) data NewConfig.

Definition NewYamlCollectorDecorator {W} (rawCollector : DataCollector W) : Collector W :=
  mkCollector (fun w =>
    match collect_data rawCollector w with
    | (Err e, w') => (Err e, w')
    | (Ok raw, w') => (YamlDataMergeCollector_Collect raw, w')
    end).

Definition NewYamlConfigPublisher {W} (publisher : DataPublisher W) : ConfigPublisher W :=
  mkConfigPublisher (fun config w =>
    match config with
    | None => (Some (Errorf "config does not exist" []), w)
    | Some config => publish_data publisher 0 (Some (Config_String yaml_encode config)) w
    end).
End YamlSources.

(** ** [file.go] *)
Section FileSources.
Context {W : Type}.
(** [os.Open] followed by reading, and [os.WriteFile] with mode 0644. *)
Variable os_Open : FileReadFunc W.
Variable os_WriteFile : string -> string -> W -> option error * W.

Definition defaultFileReadFunc : FileReadFunc W := os_Open.

Definition FileCollector_Collect (path : string) (fileReadFunc : FileReadFunc W) (w : W)
    : result (list Data) * W :=
  match fileReadFunc path w with
  | (Err e, w') => (Err (Wrapf "unable to read file %q: %w" [path] e), w')
  | (Ok (Err e), w') => (Err (Wrapf "unable to read file %q: %w" [path] e), w')
  | (Ok (Ok data), w') => (Ok [mkData path data 0], w')
  end.

Definition NewFileCollector (path : string) : DataCollector W :=
  mkDataCollector (FileCollector_Collect path defaultFileReadFunc).

Definition NewIntegrityFileCollector (fileReadFunc : FileReadFunc W) (path : string)
    : DataCollector W :=
  mkDataCollector (FileCollector_Collect path fileReadFunc).

Definition FileDataPublisher_Publish (path : string) (revision : Z) (data : option string)
    (w : W) : option error * W :=
  if decide (revision <> 0%Z) then
    (Some (Errorf "failed to publish data into file: target revision %d is not supported"
       [FormatInt revision]), w)
  else if decide (path = "") then (Some (Errorf "file path is empty" []), w)
  else
    match data with
    | None =>
        (Some (Errorf "failed to publish data into %q: data does not exist" [path]), w)
    | Some bytes =>
        match os_WriteFile path bytes w with
        | (Some err, w') => (Some (Wrapf "failed to publish data into %q: %w" [path] err), w')
        | (None, w') => (None, w')
        end
    end.

Definition NewFileDataPublisher (path : string) : DataPublisher W :=
  mkDataPublisher (FileDataPublisher_Publish path).
End FileSources.

(** ** [env.go]

    The paths of a configuration that an environment variable may set, from
    [paths.go]. *)
Definition ConfigEnvPaths_1 : list (list string) := [
    ["app"; "cfg"];
    ["app"; "file"];
    ["app"; "module"];
    ["audit_log"; "extract_key"];
    ["audit_log"; "file"];
    ["audit_log"; "filter"];
    ["audit_log"; "format"];
    ["audit_log"; "nonblock"];
    ["audit_log"; "pipe"];
    ["audit_log"; "spaces"];
    ["audit_log"; "syslog"; "facility"];
    ["audit_log"; "syslog"; "identity"];
    ["audit_log"; "syslog"; "server"];
    ["audit_log"; "to"];
    ["compat"; "binary_data_decoding"];
    ["compat"; "box_cfg_replication_sync_timeout"];
    ["compat"; "box_error_serialize_verbose"];
    ["compat"; "box_error_unpack_type_and_code"];
    ["compat"; "box_info_cluster_meaning"];
    ["compat"; "box_session_push_deprecation"];
    ["compat"; "box_space_execute_priv"];
    ["compat"; "box_space_max"];
    ["compat"; "box_tuple_extension"];
    ["compat"; "box_tuple_new_vararg"];
    ["compat"; "c_func_iproto_multireturn"];
    ["compat"; "fiber_channel_close_mode"];
    ["compat"; "fiber_slice_default"];
    ["compat"; "json_escape_forward_slash"];
    ["compat"; "sql_priv"];
    ["compat"; "sql_seq_scan_default"];
    ["compat"; "yaml_pretty_multiline"];
    ["config"; "context"];
    ["config"; "etcd"; "endpoints"];
    ["config"; "etcd"; "http"; "request"; "timeout"];
    ["config"; "etcd"; "http"; "request"; "unix_socket"];
    ["config"; "etcd"; "password"];
    ["config"; "etcd"; "prefix"];
    ["config"; "etcd"; "ssl"; "ca_file"];
    ["config"; "etcd"; "ssl"; "ca_path"];
    ["config"; "etcd"; "ssl"; "ssl_key"];
    ["config"; "etcd"; "ssl"; "verify_host"];
    ["config"; "etcd"; "ssl"; "verify_peer"];
    ["config"; "etcd"; "username"];
    ["config"; "etcd"; "watchers"; "reconnect_max_attempts"];
    ["config"; "etcd"; "watchers"; "reconnect_timeout"];
    ["config"; "reload"];
    ["config"; "storage"; "endpoints"];
    ["config"; "storage"; "prefix"];
    ["config"; "storage"; "reconnect_after"];
    ["config"; "storage"; "timeout"];
    ["console"; "enabled"];
    ["console"; "socket"];
    ["credentials"; "roles"];
    ["credentials"; "users"];
    ["database"; "hot_standby"];
    ["database"; "instance_uuid"];
    ["database"; "mode"];
    ["database"; "replicaset_uuid"];
    ["database"; "txn_isolation"];
    ["database"; "txn_timeout"];
    ["database"; "use_mvcc_engine"];
    ["failover"; "call_timeout"];
    ["failover"; "connect_timeout"];
    ["failover"; "lease_interval"];
    ["failover"; "probe_interval"];
    ["failover"; "renew_interval"];
    ["feedback"; "crashinfo"];
    ["feedback"; "enabled"];
    ["feedback"; "host"];
    ["feedback"; "interval"];
    ["feedback"; "metrics_collect_interval"];
    ["feedback"; "metrics_limit"];
    ["feedback"; "send_metrics"];
    ["fiber"; "io_collect_interval"];
    ["fiber"; "slice"; "err"];
    ["fiber"; "slice"; "warn"];
    ["fiber"; "too_long_threshold"];
    ["fiber"; "top"; "enabled"];
    ["fiber"; "worker_pool_threads"];
    ["flightrec"; "enabled"];
    ["flightrec"; "logs_log_level"];
    ["flightrec"; "logs_max_msg_size"];
    ["flightrec"; "logs_size"];
    ["flightrec"; "metrics_interval"];
    ["flightrec"; "metrics_period"];
    ["flightrec"; "requests_max_req_size"];
    ["flightrec"; "requests_max_res_size"];
    ["flightrec"; "requests_size"];
    ["iproto"; "advertise"; "client"];
    ["iproto"; "advertise"; "peer"; "login"];
    ["iproto"; "advertise"; "peer"; "params"; "ssl_ca_file"];
    ["iproto"; "advertise"; "peer"; "params"; "ssl_cert_file"];
    ["iproto"; "advertise"; "peer"; "params"; "ssl_ciphers"];
    ["iproto"; "advertise"; "peer"; "params"; "ssl_key_file"];
    ["iproto"; "advertise"; "peer"; "params"; "ssl_password"];
    ["iproto"; "advertise"; "peer"; "params"; "ssl_password_file"];
    ["iproto"; "advertise"; "peer"; "params"; "transport"];
    ["iproto"; "advertise"; "peer"; "password"];
    ["iproto"; "advertise"; "peer"; "uri"];
    ["iproto"; "advertise"; "sharding"; "login"];
    ["iproto"; "advertise"; "sharding"; "params"; "ssl_ca_file"];
    ["iproto"; "advertise"; "sharding"; "params"; "ssl_cert_file"];
    ["iproto"; "advertise"; "sharding"; "params"; "ssl_ciphers"];
    ["iproto"; "advertise"; "sharding"; "params"; "ssl_key_file"];
    ["iproto"; "advertise"; "sharding"; "params"; "ssl_password"];
    ["iproto"; "advertise"; "sharding"; "params"; "ssl_password_file"];
    ["iproto"; "advertise"; "sharding"; "params"; "transport"]
].

Definition ConfigEnvPaths_2 : list (list string) := [
    ["iproto"; "advertise"; "sharding"; "password"];
    ["iproto"; "advertise"; "sharding"; "uri"];
    ["iproto"; "listen"];
    ["iproto"; "net_msg_max"];
    ["iproto"; "readahead"];
    ["iproto"; "threads"];
    ["log"; "file"];
    ["log"; "format"];
    ["log"; "level"];
    ["log"; "modules"];
    ["log"; "nonblock"];
    ["log"; "pipe"];
    ["log"; "syslog"; "facility"];
    ["log"; "syslog"; "identity"];
    ["log"; "syslog"; "server"];
    ["log"; "to"];
    ["memtx"; "allocator"];
    ["memtx"; "max_tuple_size"];
    ["memtx"; "memory"];
    ["memtx"; "min_tuple_size"];
    ["memtx"; "slab_alloc_factor"];
    ["memtx"; "slab_alloc_granularity"];
    ["memtx"; "sort_threads"];
    ["metrics"; "exclude"];
    ["metrics"; "include"];
    ["metrics"; "labels"];
    ["process"; "background"];
    ["process"; "coredump"];
    ["process"; "pid_file"];
    ["process"; "strip_core"];
    ["process"; "title"];
    ["process"; "username"];
    ["process"; "work_dir"];
    ["replication"; "anon"];
    ["replication"; "bootstrap_strategy"];
    ["replication"; "connect_timeout"];
    ["replication"; "election_fencing_mode"];
    ["replication"; "election_mode"];
    ["replication"; "election_timeout"];
    ["replication"; "failover"];
    ["replication"; "peers"];
    ["replication"; "skip_conflict"];
    ["replication"; "sync_lag"];
    ["replication"; "sync_timeout"];
    ["replication"; "synchro_quorum"];
    ["replication"; "synchro_timeout"];
    ["replication"; "threads"];
    ["replication"; "timeout"];
    ["roles"];
    ["roles_cfg"];
    ["security"; "auth_delay"];
    ["security"; "auth_retries"];
    ["security"; "auth_type"];
    ["security"; "disable_guest"];
    ["security"; "password_enforce_digits"];
    ["security"; "password_enforce_lowercase"];
    ["security"; "password_enforce_specialchars"];
    ["security"; "password_enforce_uppercase"];
    ["security"; "password_history_length"];
    ["security"; "password_lifetime_days"];
    ["security"; "password_min_length"];
    ["security"; "secure_erasing"];
    ["sharding"; "bucket_count"];
    ["sharding"; "connection_outdate_delay"];
    ["sharding"; "discovery_mode"];
    ["sharding"; "failover_ping_timeout"];
    ["sharding"; "lock"];
    ["sharding"; "rebalancer_disbalance_threshold"];
    ["sharding"; "rebalancer_max_receiving"];
    ["sharding"; "rebalancer_max_sending"];
    ["sharding"; "rebalancer_mode"];
    ["sharding"; "roles"];
    ["sharding"; "sched_move_quota"];
    ["sharding"; "sched_ref_quota"];
    ["sharding"; "shard_index"];
    ["sharding"; "sync_timeout"];
    ["sharding"; "weight"];
    ["sharding"; "zone"];
    ["snapshot"; "by"; "interval"];
    ["snapshot"; "by"; "wal_size"];
    ["snapshot"; "count"];
    ["snapshot"; "dir"];
    ["snapshot"; "snap_io_rate_limit"];
    ["sql"; "cache_size"];
    ["vinyl"; "bloom_fpr"];
    ["vinyl"; "cache"];
    ["vinyl"; "defer_deletes"];
    ["vinyl"; "dir"];
    ["vinyl"; "max_tuple_size"];
    ["vinyl"; "memory"];
    ["vinyl"; "page_size"];
    ["vinyl"; "range_size"];
    ["vinyl"; "read_threads"];
    ["vinyl"; "run_count_per_level"];
    ["vinyl"; "run_size_ratio"];
    ["vinyl"; "timeout"];
    ["vinyl"; "write_threads"];
    ["wal"; "cleanup_delay"];
    ["wal"; "dir"];
    ["wal"; "dir_rescan_delay"];
    ["wal"; "ext"; "new"];
    ["wal"; "ext"; "old"];
    ["wal"; "ext"; "spaces"];
    ["wal"; "max_size"];
    ["wal"; "mode"];
    ["wal"; "queue_max_size"];
    ["wal"; "retention_period"]
].

Definition ConfigEnvPaths : list (list string) := ConfigEnvPaths_1 ++ ConfigEnvPaths_2.

Section Env.
(** [os.LookupEnv], and the name of the variable of a path. *)
Variable LookupEnv : string -> option string.
Variable formatter : list string -> string.

Definition env_step (config : Config) (p : list string) : result Config :=
  match LookupEnv (formatter p) with
  | Some value =>
      match Set_ config p (VStr value) with
      | (_, Some err) => Err (Wrapf "unable to create a config from ENV: %w" [] err)
      | (config', None) => Ok config'
      end
  | None => Ok config
  end.

Definition EnvCollector_Collect : result Config :=
  for_each env_step ConfigEnvPaths NewConfig.

Definition NewEnvCollector {W} : Collector W := mkCollector (fun w => (EnvCollector_Collect, w)).
End Env.

(** * What the sources of a configuration guarantee *)
From S2P Require Import ConfigFacts.
From S2P Require Import ClusterProps.

(** ** Environment variables *)
Lemma set_path_prefix v q k r x t :
  set_path v (q ++ k :: r) x = Some t -> exists m, lookup_path t q = VMap m.
Proof.
  revert v t. induction q as [|k' q IH]; intros v t Hs; simpl in *.
  - destruct v; simpl in Hs; try done; apply fmap_Some in Hs as (c & _ & ->); eauto.
  - destruct v as [| | | | | | | | |m| |]; try done; apply fmap_Some in Hs as (c & Hc & ->).
    + rewrite <-(insert_empty (M:=gmap gokey)), index_insert. eauto.
    + rewrite index_insert. eauto.
Qed.

Lemma diverge_false p q : diverge p q = false -> exists r, p = q ++ r \/ q = p ++ r.
Proof.
  revert q. induction p as [|k p IH]; intros [|k' q]; simpl; try by eauto.
  case_decide as E; [|done]. subst. intros (r & [->| ->])%IH; eauto.
Qed.

Lemma diverge_app_l p r : diverge (p ++ r) p = false.
Proof. induction p; simpl; [by destruct r|]. by rewrite decide_True. Qed.

Lemma diverge_sym p q : diverge p q = diverge q p.
Proof.
  revert q. induction p as [|k p IH]; intros [|k' q]; simpl; try done.
  repeat case_decide; subst; auto; done.
Qed.

(** Every value of the tree was set under one of the paths. *)
Definition leaves_at (done_ : list (list string)) (t : value) : Prop :=
  forall q, blocks (lookup_path t q) = true -> q ∈ done_.

Lemma leaves_at_set done_ t p s t' :
  leaves_at done_ t -> set_path t p (VStr s) = Some t' -> leaves_at (p :: done_) t'.
Proof.
  intros Hl Hs q Hq. destruct (diverge p q) eqn:E.
  - rewrite (lookup_set_path_diverge _ _ _ _ _ E Hs) in Hq. right. by apply Hl.
  - apply diverge_false in E as ([|k r] & [-> | ->]); rewrite ?app_nil_r in *; try by left.
    + apply set_path_prefix in Hs as [m Hm]. by rewrite Hm in Hq.
    + apply lookup_set_path in Hs. exfalso. revert Hq. clear -Hs. revert t' Hs.
      induction p as [|k' p IH]; intros t'; simpl; [by intros ->|].
      destruct t'; try done. apply IH.
Qed.

Lemma set_path_free done_ t p x :
  leaves_at done_ t -> Forall (fun q => diverge p q = true) done_ ->
  is_Some (set_path t p x).
Proof.
  intros Hl Hd. apply set_path_Some. intros q1 q2 -> _.
  destruct (blocks (lookup_path t q1)) eqn:E; [|done]. apply Hl in E.
  apply (proj1 (Forall_forall _ _) Hd) in E. by rewrite diverge_app_l in E.
Qed.

Fixpoint pairwise_diverge (ps : list (list string)) : bool :=
  match ps with
  | [] => true
  | p :: ps' => forallb (diverge p) ps' && pairwise_diverge ps'
  end.

Section Env.
Context (LookupEnv : string -> option string) (formatter : list string -> string).

(** What the loop reads of a path. *)
Definition env_value (p : list string) : value :=
  match LookupEnv (formatter p) with Some s => VStr s | None => VNil end.

Lemma env_steps ps done_ c :
  pairwise_diverge ps = true ->
  Forall (fun p => Forall (fun q => diverge p q = true) done_) ps ->
  leaves_at done_ (paths c) ->
  exists c', for_each (env_step LookupEnv formatter) ps c = Ok c' /\
    (forall p, p ∈ ps -> lookup_path (paths c) p = VNil -> lookup_path (paths c') p = env_value p) /\
    (forall q, Forall (fun p => diverge p q = true) ps ->
       lookup_path (paths c') q = lookup_path (paths c) q).
Proof.
  revert done_ c. induction ps as [|p ps IH]; intros done_ c Hpw Hd Hl; simpl.
  { exists c. split; [done|]. split; [|done]. intros p Hp. by apply not_elem_of_nil in Hp. }
  apply andb_prop in Hpw as [Hp Hpw]. apply Forall_cons in Hd as [Hdp Hd].
  assert (Forall (fun q => diverge q p = true) ps) as Hps.
  { apply Forall_forall. intros q Hq. rewrite diverge_sym.
    apply list_elem_of_In in Hq. by apply (proj1 (forallb_forall _ _) Hp). }
  unfold env_step at 2. pose proof (fun s => Set_set_path c p (VStr s)) as HS.
  unfold env_value.
  destruct (LookupEnv (formatter p)) as [s|] eqn:Elu; simpl.
  - specialize (HS s). replace (stored p (VStr s)) with (VStr s) in HS by (by destruct p).
    destruct (set_path_free _ _ _ (VStr s) Hl Hdp) as [t Ht]. rewrite Ht in HS. rewrite HS.
    simpl. destruct (IH (p :: done_) (mkConfig t)) as (c' & Hc' & Hin & Hout); [done| |..].
    { apply Forall_forall. intros q Hq. apply Forall_cons. split.
      - exact (proj1 (Forall_forall _ _) Hps q Hq).
      - exact (proj1 (Forall_forall _ _) Hd q Hq). }
    { by eapply leaves_at_set. }
    exists c'. split; [done|]. simpl in *. split.
    + intros q [->|Hq]%elem_of_cons Hnil.
      * rewrite Hout by done. rewrite Elu. by eapply lookup_set_path.
      * apply Hin; [done|]. rewrite (lookup_set_path_diverge (paths c) p q (VStr s) t); [done| |done].
        rewrite diverge_sym. exact (proj1 (Forall_forall _ _) Hps q Hq).
    + intros q [Hpq Hq]%Forall_cons. rewrite Hout by done. by eapply lookup_set_path_diverge.
  - destruct (IH done_ c) as (c' & Hc' & Hin & Hout); [done..|].
    exists c'. split; [done|]. split.
    + intros q [->|Hq]%elem_of_cons Hnil; [rewrite Elu; by rewrite Hout|by apply Hin].
    + intros q [_ Hq]%Forall_cons. by apply Hout.
Qed.
End Env.

Lemma ConfigEnvPaths_diverge : pairwise_diverge ConfigEnvPaths = true.
Proof. vm_compute. reflexivity. Qed.

Lemma EnvCollector_collected LookupEnv formatter :
  exists c, EnvCollector_Collect LookupEnv formatter = Ok c /\
    forall p, p ∈ ConfigEnvPaths ->
      to_option (Get c p) = VStr <$> LookupEnv (formatter p).
Proof.
  destruct (env_steps LookupEnv formatter ConfigEnvPaths [] NewConfig) as (c & Hc & Hin & _).
  - apply ConfigEnvPaths_diverge.
  - apply Forall_forall. intros. constructor.
  - intros q Hq. by rewrite lookup_path_VNil in Hq.
  - exists c. split; [done|]. intros p Hp. rewrite to_option_Get, (Hin p Hp) by apply lookup_path_VNil.
    unfold env_value. by destruct (LookupEnv (formatter p)).
Qed.

(** EnvCollector never fails, and the configuration it collects has at
    each path of ConfigEnvPaths the value of its environment variable and
    nothing when the variable is not set. *)
Theorem EnvCollector_collects LookupEnv formatter :
  exists c, EnvCollector_Collect LookupEnv formatter = Ok c /\
    forall p, p ∈ ConfigEnvPaths ->
      to_option (Get c p) = VStr <$> LookupEnv (formatter p).
Proof. apply EnvCollector_collected. Qed.

(** ** Documents in the order of their priority *)
Section YamlMerge.
Context `{Yaml}.

Definition decodes (d : Data) (c : Config) : Prop := YamlCollector_Collect (Value d) = Ok c.

Definition document_scope (c : Config) : scope := mkScope c None.

Lemma yaml_merge_steps data cs acc :
  Forall2 decodes data cs -> Forall (fun c => plain (paths c)) cs ->
  for_each (fun cconfig src =>
    match YamlCollector_Collect (Value src) with
    | Err e => Err (Wrapf "failed to decode config from %q: %w" [Source src] e)
    | Ok config => Ok (Merge cconfig config)
    end) data acc = Ok (mkConfig (merge_scopes (paths acc) (document_scope <$> cs))).
Proof.
  intros Hd. revert acc. induction Hd as [|d c data cs Hdc Hd IH]; intros acc Hpl; simpl.
  { by destruct acc. }
  apply Forall_cons in Hpl as [Hc Hpl]. unfold decodes in Hdc. rewrite Hdc. simpl.
  rewrite IH by done. unfold merge_scopes. simpl. rewrite Merge_mergev by done. done.
Qed.

(** Merging several documents, a setting is the one of the first document
    that has it, under the sole condition that no earlier document blocks the
    path. *)
Theorem YamlDataMerge_first data cs cs1 c0 cs2 k path v :
  Forall2 decodes data cs -> Forall (fun c => plain (paths c)) cs ->
  cs = cs1 ++ c0 :: cs2 ->
  Forall (fun c => lookup_path (paths c) (k :: path) = VNil /\
                   open_path (paths c) (k :: path) = true) cs1 ->
  Get c0 (k :: path) = Ok v -> as_map v = None ->
  exists c, YamlDataMergeCollector_Collect data = Ok c /\ Get c (k :: path) = Ok v.
Proof.
  intros Hd Hpl -> Hcs1 [Hv Hn]%Get_Ok Ha. eexists.
  split; [by apply yaml_merge_steps|]. apply Get_Ok. split; [|done]. cbn [paths].
  rewrite fmap_app. cbn [fmap list_fmap]. apply merge_scopes_first; try done.
  - clear. revert k. induction path as [|k' path IH]; [done|]. intros k. exact (IH k').
  - apply Forall_fmap. eapply Forall_impl; [exact Hcs1|]. done.
Qed.
End YamlMerge.

(** The configuration of documents merged in the order they were collected. *)
Definition merge_documents (cs : list Config) : Config := fold_left Merge cs NewConfig.

Lemma merge_documents_scopes cs :
  Forall (fun c => plain (paths c)) cs ->
  merge_documents cs = mkConfig (merge_scopes VNil (document_scope <$> cs)).
Proof.
  unfold merge_documents, merge_scopes. change VNil with (paths NewConfig).
  generalize NewConfig as acc. induction cs as [|c cs IH]; intros acc Hpl; [by destruct acc|].
  apply Forall_cons in Hpl as [Hc Hpl]. cbn [fold_left fmap list_fmap].
  rewrite IH by done. rewrite Merge_mergev by done. done.
Qed.

Lemma plain_set_path v p x t :
  set_path v p x = Some t -> plain v -> plain x -> plain t.
Proof.
  revert v t. induction p as [|k p IH]; intros v t; cbn [set_path]; [by intros [= ->]|].
  destruct v as [| | | | | | | | |m| |]; try done; intros (c & Hc & ->)%fmap_Some Hv Hx.
  - apply plain_VMap, map_Forall_singleton. by eapply IH.
  - apply plain_VMap. rewrite plain_VMap in Hv. apply map_Forall_insert_2; [|done].
    eapply IH; [done| |done]. unfold index. destruct (m !! KStr k) eqn:E; [|done].
    by apply (Hv _ _ E).
Qed.

Lemma merge_documents_first cs1 c0 cs2 k path v :
  Forall (fun c => plain (paths c)) (cs1 ++ c0 :: cs2) ->
  Forall (fun c => lookup_path (paths c) (k :: path) = VNil /\
                   open_path (paths c) (k :: path) = true) cs1 ->
  Get c0 (k :: path) = Ok v -> as_map v = None ->
  Get (merge_documents (cs1 ++ c0 :: cs2)) (k :: path) = Ok v.
Proof.
  intros Hpl Hcs1 [Hv Hn]%Get_Ok Ha. rewrite merge_documents_scopes by done.
  apply Get_Ok. split; [|done]. cbn [paths].
  rewrite fmap_app. cbn [fmap list_fmap]. apply merge_scopes_first; try done.
  - clear. revert k. induction path as [|k' path IH]; [done|]. intros k. exact (IH k').
  - apply Forall_fmap. eapply Forall_impl; [exact Hcs1|]. done.
Qed.

Definition sample_low_document : Config :=
  mkConfig (VMap {[ KStr "app" := VMap {[ KStr "file" := VStr "b.lua" ]} ]}).
Definition sample_high_document : Config :=
  mkConfig (VMap {[ KStr "log" := VMap {[ KStr "to" := VStr "file" ]} ]}).

(** A library that knows two texts. *)
Definition two_documents : Yaml := {|
  yaml_encode _ := "";
  yaml_parse s := if decide (s = "1") then Ok (Some (paths sample_high_document))
                  else Ok (Some (paths sample_low_document));
  yaml_struct _ := Ok tt;
  yaml_map_field _ _ := Ok ∅;
  yaml_connections _ := Ok (zero_etcd, zero_storage)
|}.

Lemma YamlDataMerge_first_witness :
  exists c, @YamlDataMergeCollector_Collect two_documents [mkData "a" "1" 0; mkData "b" "2" 0]
    = Ok c /\ Get c ["app"; "file"] = Ok (VStr "b.lua").
Proof.
  apply (@YamlDataMerge_first two_documents _ [sample_high_document; sample_low_document]
    [sample_high_document] sample_low_document [] "app" ["file"] (VStr "b.lua")).
  - repeat constructor; unfold decodes, YamlCollector_Collect, yaml_unmarshal_config;
      cbn [yaml_parse two_documents Value]; simpl decide; unfold rwrap, UnmarshalYAML;
      cbn; do 2 f_equal; apply cast_fixed_spec; vm_compute; reflexivity.
  - apply Forall_cons_2; [|apply Forall_cons_2; [|apply Forall_nil_2]]; vm_compute; tauto.
  - reflexivity.
  - apply Forall_cons_2; [|apply Forall_nil_2]. split; vm_compute; reflexivity.
  - vm_compute; reflexivity.
  - reflexivity.
Defined.
