(* ===== verification/Etcd.v ===== *)
(** * etcd as a source of configuration ([lib/cluster/etcd.go])

    The collectors and publishers over an etcd client, with and without
    integrity data, and the options of a connection.  The client library and
    the server behind it are a parameter. *)
From S2P Require Import Prelude GoStrings Storages Value Config Cluster Sources.

(** ** The client library *)
Record KV := mkKV { Key : string; KValue : string; ModRevision : Z }.

(** [clientv3.Compare(clientv3.ModRevision(key), "=", revision)] *)
Record Cmp := mkCmp { cmp_key : string; cmp_revision : Z }.

Inductive Op :=
| OpGet (key : string) (with_prefix : bool)
| OpPut (key val : string)
| OpDelete (key : string).

(** [Responses]: the [Kvs] of [GetResponseRange()] of each response. *)
Record TxnResponse := mkTxnResponse { Succeeded : bool; Responses : list (list KV) }.

Inductive context := Background | WithTimeout (timeout : Z).

(** [ctx := context.Background(); if timeout != 0 { ctx, ... }] *)
Definition make_context (timeout : Z) : context :=
  if decide (timeout = 0%Z) then Background else WithTimeout timeout.

(** [EtcdGetter] and [EtcdTxnGetter]: [Get] and [Txn().If().Then().Else().Commit()].
    [ctx_Done] is the [select] on [ctx.Done()]: the error of a context that is
    done. *)
Class EtcdClient (W : Type) := {
  etcd_Get : context -> string -> bool -> W -> result (list KV) * W;
  etcd_Commit : context -> list Cmp -> list Op -> list Op -> W -> result TxnResponse * W;
  ctx_Done : context -> W -> option error * W;
  print_kvs : list KV -> string
}.

(** ** Connection options *)
Record EtcdOpts := mkEtcdOpts {
  Endpoints : list string;
  Username : string;
  Password : string;
  KeyFile : string;
  CertFile : string;
  CaPath : string;
  CaFile : string;
  SkipHostVerify : bool;
  Timeout : Z
}.

(** [tls.Config]: the certificate pool and the switch the code sets, and what
    [transport.TLSInfo] put into the rest. *)
Record TLSConfig (Base Pool : Type) := mkTLSConfig {
  tls_base : Base;
  RootCAs : option Pool;
  InsecureSkipVerify : bool
}.
Arguments mkTLSConfig {Base Pool}.
Arguments tls_base {Base Pool}.
Arguments RootCAs {Base Pool}.
Arguments InsecureSkipVerify {Base Pool}.

Record DirEntry := mkDirEntry { Name : string; is_symlink : bool }.

Section Connect.
Context {Base Pool Client : Type}.
(** [TLSInfo.ClientConfig] for a certificate, a key and a trusted CA file;
    [x509.NewCertPool] and [AppendCertsFromPEM]; the file system, with
    [os.Readlink] of the path [filepath.Join] makes of a directory and a name;
    [clientv3.New]. *)
Variable ClientConfig : string -> string -> string -> result (TLSConfig Base Pool).
Variable NewCertPool : Pool.
Variable AppendCertsFromPEM : Pool -> string -> Pool.
Variable ReadDir : string -> result (list DirEntry).
Variable Readlink : string -> string -> option string.
Variable ReadFile : string -> option string.
Variable clientv3_New :
  list string -> Z -> string -> string -> option (TLSConfig Base Pool) -> result Client.

Definition isSameDirSymlink (f : DirEntry) (dir : string) : bool :=
  if negb (is_symlink f) then false
  else
    match Readlink dir (Name f) with
    | Some target => no_char "/" target
    | None => false
    end.

Definition readUniqueDirectoryEntries (dir : string) : result (list DirEntry) :=
  match ReadDir dir with
  | Err e => Err e
  | Ok files => Ok (filter (fun f => negb (isSameDirSymlink f dir)) files)
  end.

Definition loadRootCA (path : string) : result Pool :=
  match readUniqueDirectoryEntries path with
  | Err e => Err e
  | Ok fis =>
      Ok (fold_left (fun roots fi =>
        match ReadFile (path +:+ "/" +:+ Name fi) with
        | Some data => AppendCertsFromPEM roots data
        | None => roots
        end) fis NewCertPool)
  end.

Definition uses_tls (opts : EtcdOpts) : bool :=
  negb (bool_decide (KeyFile opts = "")) || negb (bool_decide (CertFile opts = ""))
  || negb (bool_decide (CaFile opts = "")) || negb (bool_decide (CaPath opts = ""))
  || SkipHostVerify opts.

Definition tls_config (opts : EtcdOpts) : result (option (TLSConfig Base Pool)) :=
  if uses_tls opts then
    match ClientConfig (CertFile opts) (KeyFile opts) (CaFile opts) with
    | Err e => Err (Wrapf "fail to create tls client config: %w" [] e)
    | Ok tlsConfig =>
        let with_ca :=
          if decide (CaPath opts = "") then Ok tlsConfig
          else
            match loadRootCA (CaPath opts) with
            | Err e => Err (Wrapf "fail to load CA directory: %w" [] e)
            | Ok roots =>
                Ok (mkTLSConfig (tls_base tlsConfig) (Some roots) (InsecureSkipVerify tlsConfig))
            end in
        rmap (fun tlsConfig =>
          Some (if SkipHostVerify opts
                then mkTLSConfig (tls_base tlsConfig) (RootCAs tlsConfig) true
                else tlsConfig)) with_ca
    end
  else Ok None.

Definition ConnectEtcd (opts : EtcdOpts) : result Client :=
  rbind (clientv3_New (Endpoints opts) (Timeout opts) (Username opts) (Password opts))
    (tls_config opts).
End Connect.

(** ** Collectors *)
Section Collectors.
Context {W : Type} `{EtcdClient W}.

Definition kv_data (kv : KV) : Data := mkData (Key kv) (KValue kv) (ModRevision kv).

Definition EtcdAllCollector_Collect (prefix : string) (timeout : Z) (w : W)
    : result (list Data) * W :=
  let prefix := getConfigPrefix prefix in
  match etcd_Get (make_context timeout) prefix true w with
  | (Err e, w') => (Err (Wrapf "failed to fetch data from etcd: %w" [] e), w')
  | (Ok [], w') =>
      (Err (Errorf "a configuration data not found in etcd for prefix %q" [prefix]), w')
  | (Ok kvs, w') => (Ok (map kv_data kvs), w')
  end.

Definition EtcdKeyCollector_Collect (prefix key : string) (timeout : Z) (w : W)
    : result (list Data) * W :=
  let key := getConfigPrefix prefix +:+ key in
  match etcd_Get (make_context timeout) key false w with
  | (Err e, w') => (Err (Wrapf "failed to fetch data from etcd: %w" [] e), w')
  | (Ok [], w') =>
      (Err (Errorf "a configuration data not found in etcd for key %q" [key]), w')
  | (Ok [kv], w') => (Ok [kv_data kv], w')
  | (Ok kvs, w') =>
      (Err (Errorf "too many responses (%v) from etcd for key %q" [print_kvs kvs; key]), w')
  end.

(** ** Integrity collectors *)
Record valueNode := mkNode {
  node_value : string;
  node_hashes : option (gmap string string);
  node_sig : option string
}.

(** The loop over the values: [keys] and [nodes]. *)
Definition add_value (valuesPrefix : string) (s : list string * gmap string valueNode) (data : KV)
    : list string * gmap string valueNode :=
  match CutPrefix (Key data) valuesPrefix with
  | Some key => (s.1 ++ [key], <[key := mkNode (KValue data) None None]> s.2)
  | None => s
  end.

Definition add_hash (prefix : string) (nodes : gmap string valueNode) (data : KV)
    : gmap string valueNode :=
  match parseHashPath (Key data) prefix with
  | Some (hash, key) =>
      match nodes !! key with
      | Some node =>
          <[key := mkNode (node_value node)
                     (Some (<[hash := KValue data]> (default ∅ (node_hashes node))))
                     (node_sig node)]> nodes
      | None => nodes
      end
  | None => nodes
  end.

Definition add_sig (prefix signsPrefix : string) (nodes : gmap string valueNode) (data : KV)
    : result (gmap string valueNode) :=
  match CutPrefix (Key data) signsPrefix with
  | Some key =>
      match nodes !! key with
      | Some node =>
          Ok (<[key := mkNode (node_value node) (node_hashes node) (Some (KValue data))]> nodes)
      | None => Ok nodes
      end
  | None => Err (Errorf "missing signature for key %q" [getConfigKey prefix (Key data)])
  end.

Definition check_node (checkFunc : CheckFunc) (prefix : string)
    (nodes : gmap string valueNode) (data : list Data) (key : string) : result (list Data) :=
  let node := default (mkNode "" None None) (nodes !! key) in
  let fullKey := getConfigKey prefix key in
  match checkFunc (node_value node) (node_hashes node) (node_sig node) with
  | Some err =>
      Err (Wrapf "failed to perform integrity checks for key %q: %w" [fullKey] err)
  | None => Ok (data ++ [mkData fullKey (node_value node) 0])
  end.

(** What [Collect] makes of the three lists. *)
Definition integrity_collect (checkFunc : CheckFunc) (prefix : string)
    (values hashes sigs : list KV) : result (list Data) :=
  let '(keys, nodes) := fold_left (add_value (getConfigPrefix prefix)) values ([], ∅) in
  let nodes := fold_left (add_hash prefix) hashes nodes in
  rbind (fun nodes => for_each (check_node checkFunc prefix nodes) keys [])
    (for_each (add_sig prefix (getSignPrefix prefix)) sigs nodes).

Definition missing_responses : error :=
  Errorf "failed to fetch data from etcd: some of transaction responses are missing" [].

Definition IntegrityEtcdAllCollector_Collect (checkFunc : CheckFunc) (prefix : string)
    (timeout : Z) (w : W) : result (list Data) * W :=
  match etcd_Commit (make_context timeout) []
          [OpGet (getConfigPrefix prefix) true; OpGet (getHashesPrefix prefix) true;
           OpGet (getSignPrefix prefix) true] [] w with
  | (Err e, w') => (Err (Wrapf "failed to fetch data from etcd: %w" [] e), w')
  | (Ok resp, w') =>
      match Responses resp with
      | [values; hashes; sigs] => (integrity_collect checkFunc prefix values hashes sigs, w')
      | _ => (Err missing_responses, w')
      end
  end.

Definition integrity_collect_key (checkFunc : CheckFunc) (prefix ckey : string)
    (values hashes sigs : list KV) : result (list Data) :=
  let valueKey := getConfigKey prefix ckey in
  match values, hashes, sigs with
  | [], _, _ => Err (Errorf "a configuration data not found in etcd for key %q" [valueKey])
  | _ :: _ :: _, _, _ =>
      Err (Errorf "too many responses (%v) from etcd for key %q" [print_kvs values; valueKey])
  | _, [], _ => Err (Errorf "hashes not found in etcd" [])
  | _, _, [] => Err (Errorf "signature not found in etcd for key %q" [valueKey])
  | _, _, _ :: _ :: _ =>
      Err (Errorf "too many signatures (%v) from etcd for key %q" [print_kvs sigs; valueKey])
  | [value], _, [sig] =>
      let hashMap := fold_left (fun (m : gmap string string) resp =>
        match parseHashPath (Key resp) prefix with
        | Some (hash, key) => if decide (key = ckey) then <[hash := KValue resp]> m else m
        | None => m
        end) hashes ∅ in
      match checkFunc (KValue value) (Some hashMap) (Some (KValue sig)) with
      | Some err =>
          Err (Wrapf "failed to perform integrity check for key %q: %w" [valueKey] err)
      | None => Ok [mkData valueKey (KValue value) 0]
      end
  end.

Definition IntegrityEtcdKeyCollector_Collect (checkFunc : CheckFunc) (prefix key : string)
    (timeout : Z) (w : W) : result (list Data) * W :=
  match etcd_Commit (make_context timeout) []
          [OpGet (getConfigKey prefix key) false; OpGet (getHashesPrefix prefix) true;
           OpGet (getSignKey prefix key) false] [] w with
  | (Err e, w') => (Err (Wrapf "failed to fetch data from etcd: %w" [] e), w')
  | (Ok resp, w') =>
      match Responses resp with
      | [values; hashes; sigs] => (integrity_collect_key checkFunc prefix key values hashes sigs, w')
      | _ => (Err missing_responses, w')
      end
  end.
End Collectors.

(** ** Publishers

    The loops end when a transaction succeeds, an operation fails or the
    context is done; a run takes a bound on the iterations, and [None] stands
    for a loop that has not ended by then. *)
Section Publishers.
Context {W : Type} `{EtcdClient W} `{GoMapOrder}.

(** The keys to remove with the revisions they were read at, as the compares
    and the deletes of a transaction. *)
Definition delete_cmps (kvs : list KV) : list Cmp :=
  map (fun kv => mkCmp (Key kv) (ModRevision kv)) kvs.
Definition delete_ops (kvs : list KV) : list Op := map (fun kv => OpDelete (Key kv)) kvs.

Definition other_keys (key : string) (kvs : list KV) : list KV :=
  filter (fun kv => Key kv <> key) kvs.

Fixpoint publish_all_loop (fuel : nat) (ctx : context) (prefix key data : string) (w : W)
    : option (option error) * W :=
  match fuel with
  | O => (None, w)
  | S fuel' =>
      match ctx_Done ctx w with
      | (Some err, w1) => (Some (Some err), w1)
      | (None, w1) =>
          match etcd_Get ctx prefix true w1 with
          | (Err e, w2) =>
              (Some (Some (Wrapf "failed to fetch data from etcd: %w" [] e)), w2)
          | (Ok kvs, w2) =>
              let deleted := other_keys key kvs in
              match etcd_Commit ctx (delete_cmps deleted)
                      (delete_ops deleted ++ [OpPut key data]) [] w2 with
              | (Err e, w3) =>
                  (Some (Some (Wrapf "failed to put data into etcd: %w" [] e)), w3)
              | (Ok tresp, w3) =>
                  if Succeeded tresp then (Some None, w3)
                  else publish_all_loop fuel' ctx prefix key data w3
              end
          end
      end
  end.

Definition unsupported_revision (revision : Z) : error :=
  Errorf "failed to publish data into etcd: target revision %d is not supported"
    [FormatInt revision].
Definition no_data : error := Errorf "failed to publish data into etcd: data does not exist" [].

Definition EtcdAllDataPublisher_Publish (fuel : nat) (pprefix : string) (timeout : Z)
    (revision : Z) (data : option string) (w : W) : option (option error) * W :=
  if decide (revision <> 0%Z) then (Some (Some (unsupported_revision revision)), w)
  else
    match data with
    | None => (Some (Some no_data), w)
    | Some bytes =>
        let prefix := getConfigPrefix pprefix in
        publish_all_loop fuel (make_context timeout) prefix (prefix +:+ "all") bytes w
    end.

(** *** With integrity data *)
Definition txn_get_ops (prefix : string) : list Op :=
  [OpGet (getConfigPrefix prefix) true; OpGet (getHashesPrefix prefix) true;
   OpGet (getSignPrefix prefix) true].

Definition stale_hashes (hashKeys : gmap string string) (kvs : list KV) : list KV :=
  filter (fun kv => hashKeys !! Key kv = None) kvs.

Definition put_hashes (hashKeys : gmap string string) : list Op :=
  map (fun kv => OpPut kv.1 kv.2) (range_map hashKeys).

Fixpoint publish_signed_loop (fuel : nat) (ctx : context) (prefix data sig : string)
    (hashKeys : gmap string string) (resp : result TxnResponse) (w : W)
    : option (option error) * W :=
  match fuel with
  | O => (None, w)
  | S fuel' =>
      match ctx_Done ctx w with
      | (Some err, w1) => (Some (Some err), w1)
      | (None, w1) =>
          match resp with
          | Err e => (Some (Some (Wrapf "failed to fetch data from etcd: %w" [] e)), w1)
          | Ok r =>
              match Responses r with
              | [values; hashes; sigs] =>
                  let valueKey := getConfigKey prefix "all" in
                  let sigKey := getSignKey prefix "all" in
                  let deleted := other_keys valueKey values ++ stale_hashes hashKeys hashes
                                 ++ other_keys sigKey sigs in
                  match etcd_Commit ctx (delete_cmps deleted)
                          (delete_ops deleted ++ [OpPut valueKey data; OpPut sigKey sig]
                           ++ put_hashes hashKeys) (txn_get_ops prefix) w1 with
                  | (Err e, w2) =>
                      (Some (Some (Wrapf "failed to put data into etcd: %w" [] e)), w2)
                  | (Ok tresp, w2) =>
                      if Succeeded tresp then (Some None, w2)
                      else publish_signed_loop fuel' ctx prefix data sig hashKeys (Ok tresp) w2
                  end
              | _ => (Some (Some missing_responses), w1)
              end
          end
      end
  end.

Definition hash_keys (prefix key : string) (hashes : gmap string string) : gmap string string :=
  fold_left (fun m kv => <[getHashesKey prefix kv.1 key := kv.2]> m) (range_map hashes) ∅.

Definition IntegrityEtcdAllDataPublisher_Publish (fuel : nat) (signFunc : SignFunc)
    (prefix : string) (timeout : Z) (revision : Z) (data : option string) (w : W)
    : option (option error) * W :=
  if decide (revision <> 0%Z) then (Some (Some (unsupported_revision revision)), w)
  else
    match data with
    | None => (Some (Some no_data), w)
    | Some bytes =>
        match signFunc data with
        | Err e => (Some (Some e), w)
        | Ok (hashes, sig) =>
            let ctx := make_context timeout in
            match etcd_Commit ctx [] (txn_get_ops prefix) [] w with
            | (resp, w') =>
                publish_signed_loop fuel ctx prefix bytes sig (hash_keys prefix "all" hashes)
                  resp w'
            end
        end
    end.

(** *** One key *)
Definition sign_ops (signFunc : option SignFunc) (prefix key : string) (data : option string)
    : result (list Op) :=
  match signFunc with
  | None => Ok []
  | Some sign =>
      match sign data with
      | Err e => Err (Wrapf "failed to sign data: %w" [] e)
      | Ok (hashes, sig) =>
          Ok (map (fun kv => OpPut (getHashesKey prefix kv.1 key) kv.2) (range_map hashes)
              ++ [OpPut (getSignKey prefix key) sig])
      end
  end.

Definition EtcdKeyDataPublisher_Publish (signFunc : option SignFunc) (pprefix pkey : string)
    (timeout : Z) (revision : Z) (data : option string) (w : W) : option error * W :=
  match data with
  | None => (Some no_data, w)
  | Some bytes =>
      let key := getConfigPrefix pprefix +:+ pkey in
      let cmps := if decide (revision <> 0%Z) then [mkCmp key revision] else [] in
      match sign_ops signFunc pprefix pkey data with
      | Err e => (Some e, w)
      | Ok signed =>
          match etcd_Commit (make_context timeout) cmps (OpPut key bytes :: signed) [] w with
          | (Err e, w') => (Some (Wrapf "failed to put data into etcd: %w" [] e), w')
          | (Ok tresp, w') =>
              if Succeeded tresp then (None, w')
              else (Some (Errorf "failed to put data into etcd: wrong revision" []), w')
          end
      end
  end.
End Publishers.

(** ** Constructors

    A collector or a publisher is an object whose only method is [Collect] or [Publish]:
    the method with the fields of the structure. *)
Section Constructors.
Context {W : Type} `{GoMapOrder}.

Definition NewEtcdAllCollector (getter : EtcdClient W) (prefix : string) (timeout : Z) : DataCollector W :=
  mkDataCollector (EtcdAllCollector_Collect (H := getter) prefix timeout).
Definition NewIntegrityEtcdAllCollector (checkFunc : CheckFunc) (getter : EtcdClient W) (prefix : string)
    (timeout : Z) : DataCollector W :=
  mkDataCollector (IntegrityEtcdAllCollector_Collect (H := getter) checkFunc prefix timeout).
Definition NewEtcdKeyCollector (getter : EtcdClient W) (prefix key : string) (timeout : Z) : DataCollector W :=
  mkDataCollector (EtcdKeyCollector_Collect (H := getter) prefix key timeout).
Definition NewIntegrityEtcdKeyCollector (checkFunc : CheckFunc) (getter : EtcdClient W) (prefix key : string)
    (timeout : Z) : DataCollector W :=
  mkDataCollector (IntegrityEtcdKeyCollector_Collect (H := getter) checkFunc prefix key timeout).

(** A loop that exceeds the bound reports it. *)
Definition loop_bound : error := Errorf "loop bound" [].
Definition bounded (r : option (option error) * W) : option error * W :=
  match r with
  | (Some res, w) => (res, w)
  | (None, w) => (Some loop_bound, w)
  end.

Definition NewEtcdAllDataPublisher (fuel : nat) (getter : EtcdClient W) (prefix : string) (timeout : Z)
    : DataPublisher W :=
  mkDataPublisher (fun revision data w =>
    bounded (EtcdAllDataPublisher_Publish (H := getter) fuel prefix timeout revision data w)).
Definition NewIntegrityEtcdAllDataPublisher (fuel : nat) (signFunc : SignFunc) (getter : EtcdClient W)
    (prefix : string) (timeout : Z) : DataPublisher W :=
  mkDataPublisher (fun revision data w =>
    bounded (IntegrityEtcdAllDataPublisher_Publish (H := getter) fuel signFunc prefix timeout revision data w)).
Definition NewEtcdKeyDataPublisher (getter : EtcdClient W) (prefix key : string) (timeout : Z) : DataPublisher W :=
  mkDataPublisher (EtcdKeyDataPublisher_Publish (H := getter) None prefix key timeout).
Definition NewIntegrityEtcdKeyDataPublisher (signFunc : SignFunc) (getter : EtcdClient W) (prefix key : string)
    (timeout : Z) : DataPublisher W :=
  mkDataPublisher (EtcdKeyDataPublisher_Publish (H := getter) (Some signFunc) prefix key timeout).
End Constructors.
