(* ===== verification/EtcdProps.v ===== *)
(** * What the etcd collectors and publishers guarantee

    The documented behaviour of the server is stated as a class of laws over
    the content of the store; the theorems hold for every client that keeps
    them, also when other clients change the store between two calls. *)
From S2P Require Import Prelude GoStrings Storages Value Config Cluster Sources Etcd.

(** ** The content of the store *)
Notation store := (gmap string (string * Z)).

Definition key_matches (key : string) (with_prefix : bool) (k : string) : bool :=
  if with_prefix then HasPrefix k key else bool_decide (k = key).

(** A read returns each matching entry once. *)
Definition reads (s : store) (key : string) (with_prefix : bool) (kvs : list KV) : Prop :=
  NoDup (Key <$> kvs) /\
  forall kv, kv ∈ kvs <->
    s !! Key kv = Some (KValue kv, ModRevision kv) /\ key_matches key with_prefix (Key kv) = true.

(** The revision of a key that is absent is zero. *)
Definition revision_of (s : store) (k : string) : Z :=
  match s !! k with Some (_, r) => r | None => 0%Z end.

Definition cmp_holds (s : store) (c : Cmp) : bool :=
  bool_decide (revision_of s (cmp_key c) = cmp_revision c).

Definition run_op (rev : Z) (s : store) (op : Op) : store :=
  match op with
  | OpGet _ _ => s
  | OpPut k v => <[k := (v, rev)]> s
  | OpDelete k => delete k s
  end.

Definition read_response (s : store) (op : Op) (kvs : list KV) : Prop :=
  match op with OpGet k p => reads s k p kvs | _ => False end.

(** The laws.  [others s s'] is what other clients may have done to the store
    when a call starts; a call that succeeds is atomic. *)
Class EtcdLaws (W : Type) `{EtcdClient W} (others : store -> store -> Prop) := {
  view : W -> store;
  law_done : forall ctx w e w', ctx_Done ctx w = (e, w') -> view w' = view w;
  law_get : forall ctx key p w kvs w',
    etcd_Get ctx key p w = (Ok kvs, w') ->
    others (view w) (view w') /\ reads (view w') key p kvs;
  law_commit : forall ctx cmps ops elses w r w',
    etcd_Commit ctx cmps ops elses w = (Ok r, w') ->
    exists s rev, others (view w) s /\
      Succeeded r = forallb (cmp_holds s) cmps /\
      view w' = (if Succeeded r then fold_left (run_op rev) ops s else s) /\
      let run := if Succeeded r then ops else elses in
      (Forall (fun op => exists k p, op = OpGet k p) run ->
       Forall2 (read_response s) run (Responses r))
}.

(** ** The operations of a replacing transaction *)
Lemma lookup_delete_ops rev kvs (s : store) k :
  fold_left (run_op rev) (delete_ops kvs) s !! k =
  if decide (k ∈ Key <$> kvs) then None else s !! k.
Proof.
  revert s. induction kvs as [|kv kvs IH]; intros s; [done|].
  change (delete_ops (kv :: kvs)) with (OpDelete (Key kv) :: delete_ops kvs).
  cbn [fold_left run_op]. rewrite fmap_cons, IH.
  destruct (decide (k ∈ Key <$> kvs)) as [Hin|Hin];
      destruct (decide (k ∈ Key kv :: (Key <$> kvs))) as [Hin'|Hin']; try done.
  - destruct Hin'. apply elem_of_cons. by right.
  - apply elem_of_cons in Hin' as [->|?]; [apply lookup_delete_eq|done].
  - apply lookup_delete_ne. intros E. destruct Hin'. apply elem_of_cons. by left.
Qed.

Lemma elem_of_other_keys (s : store) key prefix kvs k :
  reads s prefix true kvs ->
  k ∈ Key <$> other_keys key kvs <-> k <> key /\ HasPrefix k prefix = true /\ is_Some (s !! k).
Proof.
  intros [_ Hr]. unfold other_keys. rewrite list_elem_of_fmap. split.
  - intros (kv & -> & Hkv). apply list_elem_of_filter in Hkv as [Hne Hin].
    apply Hr in Hin as [Hs Hm]. simpl in Hm. eauto.
  - intros (Hne & Hp & [[v r] Hs]). exists (mkKV k v r). split; [done|].
    apply list_elem_of_filter. split; [done|]. by apply Hr.
Qed.

Lemma delete_cmps_hold (s0 s : store) kvs prefix key k v r :
  reads s prefix true kvs ->
  forallb (cmp_holds s0) (delete_cmps (other_keys key kvs)) = true ->
  k <> key -> HasPrefix k prefix = true -> s !! k = Some (v, r) -> revision_of s0 k = r.
Proof.
  intros [_ Hr] Hc Hne Hp Hs.
  assert (mkKV k v r ∈ kvs) as Hin by by apply Hr.
  rewrite forallb_forall in Hc. specialize (Hc (mkCmp k r)). unfold cmp_holds in Hc. simpl in Hc.
  apply bool_decide_eq_true in Hc; [done|]. unfold delete_cmps. apply in_map_iff.
  exists (mkKV k v r). split; [done|]. apply list_elem_of_In, list_elem_of_filter. done.
Qed.

Section All.
Context {W : Type} `{EC : EtcdClient W} {others : store -> store -> Prop}
  {EL : EtcdLaws W others}.

Lemma publish_all_loop_success fuel ctx prefix key data w w' :
  publish_all_loop fuel ctx prefix key data w = (Some None, w') ->
  exists sg s0 rev, others sg s0 /\
    (forall k, view w' !! k =
       if decide (k = key) then Some (data, rev)
       else if HasPrefix k prefix && bool_decide (is_Some (sg !! k)) then None else s0 !! k) /\
    (forall k v r, k <> key -> HasPrefix k prefix = true -> sg !! k = Some (v, r) ->
       revision_of s0 k = r).
Proof.
  revert w. induction fuel as [|fuel IH]; intros w; simpl; [done|].
  destruct (ctx_Done ctx w) as [[|] w1]; [done|].
  destruct (etcd_Get ctx prefix true w1) as [[kvs|] w2] eqn:Eg; [|done].
  destruct (etcd_Commit _ _ _ _ w2) as [[r|] w3] eqn:Ec; [|done].
  destruct (Succeeded r) eqn:Es; [|apply IH]. intros [= ->].
  apply law_get in Eg as [_ Hr]. apply law_commit in Ec as (s0 & rev & Ho & Hsu & Hv & _).
  rewrite Es in *. exists (view w2), s0, rev. split; [done|]. split.
  - intros k. rewrite Hv, fold_left_app. simpl. case_decide as E; subst.
    { by rewrite lookup_insert_eq. }
    rewrite lookup_insert_ne by done. rewrite lookup_delete_ops.
    pose proof (elem_of_other_keys _ key _ _ k Hr) as Hin.
    destruct (HasPrefix k prefix) eqn:Ep; simpl.
    + case_bool_decide; case_decide; naive_solver.
    + rewrite decide_False; [done|]. naive_solver.
  - intros k v rv Hne Hp Hs. by eapply delete_cmps_hold.
Qed.

(** C10: Under concurrent writers, when EtcdAllDataPublisher returns nil the
    target key holds the data, every other key of the prefix that was read is
    gone and had not been changed since it was read, and all other keys are as
    the other writers left them. *)
Theorem publish_all_replaces fuel pprefix timeout bytes w w' :
  EtcdAllDataPublisher_Publish fuel pprefix timeout 0 (Some bytes) w = (Some None, w') ->
  exists sg s0 rev, others sg s0 /\
    (forall k, view w' !! k =
       if decide (k = getConfigKey pprefix "all") then Some (bytes, rev)
       else if HasPrefix k (getConfigPrefix pprefix) && bool_decide (is_Some (sg !! k))
       then None else s0 !! k) /\
    (forall k v r, k <> getConfigKey pprefix "all" ->
       HasPrefix k (getConfigPrefix pprefix) = true -> sg !! k = Some (v, r) ->
       revision_of s0 k = r).
Proof. apply publish_all_loop_success. Qed.
End All.

(** ** A store without other writers

    [Quiet]: nobody else changes the store.  [Responsive]: the context is not done, reads
    are answered, and so are the transactions that the server accepts.  It refuses one
    that puts a key twice, or puts and deletes a key, and one with too many operations. *)
Notation Quiet W := (EtcdLaws W eq).

Definition put_key (op : Op) : option string := match op with OpPut k _ => Some k | _ => None end.
Definition deleted_key (op : Op) : option string := match op with OpDelete k => Some k | _ => None end.

Definition distinct_writes (ops : list Op) : bool :=
  bool_decide (NoDup (omap put_key ops)) &&
  bool_decide (Forall (fun k => k ∉ omap put_key ops) (omap deleted_key ops)).

Definition accepted (max_ops : nat) (cmps : list Cmp) (ops elses : list Op) : bool :=
  bool_decide (length cmps <= max_ops) && bool_decide (length ops <= max_ops) &&
  bool_decide (length elses <= max_ops) && distinct_writes ops && distinct_writes elses.

Class Responsive (W : Type) `{EtcdClient W} (max_ops : nat) : Prop := {
  get_answers : forall ctx key p w, exists kvs w', etcd_Get ctx key p w = (Ok kvs, w');
  commit_answers : forall ctx cmps ops elses w, accepted max_ops cmps ops elses = true ->
    exists r w', etcd_Commit ctx cmps ops elses w = (Ok r, w');
  not_done : forall ctx w, exists w', ctx_Done ctx w = (None, w')
}.

(** How many keys of a store have a prefix. *)
Definition key_count (s : store) (prefix : string) : nat :=
  size (filter (fun kv : string * (string * Z) => HasPrefix kv.1 prefix = true) s).

Lemma reads_length (s : store) prefix kvs : reads s prefix true kvs -> length kvs <= key_count s prefix.
Proof.
  intros [Hnd Hr]. unfold key_count. rewrite <-size_dom, <-(length_fmap Key kvs), <-(size_list_to_set (C:=gset string)) by done.
  apply subseteq_size. intros k. rewrite elem_of_list_to_set, list_elem_of_fmap. intros (kv & -> & Hkv).
  apply Hr in Hkv as [Hs Hm]. apply elem_of_dom. eexists. by apply map_lookup_filter_Some.
Qed.

Lemma accepted_intro max_ops cmps ops elses :
  length cmps <= max_ops -> length ops <= max_ops -> length elses <= max_ops ->
  NoDup (omap put_key ops) -> (forall k, k ∈ omap deleted_key ops -> k ∉ omap put_key ops) ->
  distinct_writes elses = true -> accepted max_ops cmps ops elses = true.
Proof.
  intros H1 H2 H3 H4 H5 H6. unfold accepted, distinct_writes at 1. rewrite H6, !bool_decide_true; [done|..]; try done.
  by apply Forall_forall.
Qed.

Lemma put_keys_delete kvs : omap put_key (delete_ops kvs) = [].
Proof. induction kvs; [done|]. cbn. done. Qed.
Lemma deleted_keys_delete kvs : omap deleted_key (delete_ops kvs) = Key <$> kvs.
Proof. induction kvs; [done|]. cbn. by f_equal. Qed.

Lemma reads_singleton (s : store) key p kvs k v r :
  reads s key p kvs -> s !! k = Some (v, r) -> key_matches key p k = true ->
  (forall k', key_matches key p k' = true -> k' <> k -> s !! k' = None) ->
  kvs = [mkKV k v r].
Proof.
  intros [Hnd Hr] Hs Hm Hn.
  assert (forall kv, kv ∈ kvs -> kv = mkKV k v r) as Hall.
  { intros [k' v' r'] [Hk' Hm']%Hr. simpl in *. destruct (decide (k' = k)) as [->|Hne].
    - congruence.
    - by rewrite (Hn _ Hm' Hne) in Hk'. }
  assert (mkKV k v r ∈ kvs) as Hin by (apply Hr; done).
  destruct kvs as [|a [|b kvs]].
  - by apply not_elem_of_nil in Hin.
  - f_equal. apply Hall. left.
  - exfalso. rewrite !fmap_cons in Hnd. apply NoDup_cons in Hnd as [Ha _]. apply Ha.
    rewrite (Hall a), (Hall b); [left|right; left|left].
Qed.

Section Quiet.
Context {W : Type} `{EC : EtcdClient W} {Q : Quiet W} {max_ops : nat} {R : Responsive W max_ops}.

(** What was just read compares equal. *)
Lemma quiet_cmps (s : store) kvs key p :
  reads s key p kvs -> forall kvs', (forall kv, kv ∈ kvs' -> kv ∈ kvs) ->
  forallb (cmp_holds s) (delete_cmps kvs') = true.
Proof.
  intros [_ Hr] kvs' Hsub. apply forallb_forall. intros c Hc.
  apply in_map_iff in Hc as (kv & <- & Hkv). apply list_elem_of_In, Hsub, Hr in Hkv as [Hs _].
  unfold cmp_holds, revision_of. simpl. rewrite Hs. by apply bool_decide_eq_true.
Qed.

Lemma other_keys_sub key kvs kv : kv ∈ other_keys key kvs -> kv ∈ kvs.
Proof. unfold other_keys. by intros [_ ?]%list_elem_of_filter. Qed.

Lemma other_keys_length key kvs : length (other_keys key kvs) <= length kvs.
Proof. apply length_filter. Qed.

Lemma replace_accepted (s : store) prefix key data kvs :
  reads s prefix true kvs -> key_count s prefix < max_ops ->
  accepted max_ops (delete_cmps (other_keys key kvs)) (delete_ops (other_keys key kvs) ++ [OpPut key data]) [] = true.
Proof.
  intros Hr Hc. pose proof (reads_length _ _ _ Hr). pose proof (other_keys_length key kvs).
  apply accepted_intro; unfold delete_cmps; rewrite ?length_app, ?length_map; try (unfold delete_ops; rewrite ?length_map; cbn; lia).
  - rewrite omap_app, put_keys_delete. apply NoDup_singleton.
  - intros k. rewrite !omap_app, put_keys_delete, deleted_keys_delete, app_nil_r. cbn.
    intros (Hne & _)%(elem_of_other_keys s key prefix kvs k Hr). by intros ->%list_elem_of_singleton.
Qed.

Lemma publish_all_quiet fuel ctx prefix key data w :
  key_count (view w) prefix < max_ops ->
  exists w', publish_all_loop (S fuel) ctx prefix key data w = (Some None, w').
Proof.
  intros Hc. simpl. destruct (not_done ctx w) as [w1 Ed]. rewrite Ed. apply law_done in Ed.
  destruct (get_answers ctx prefix true w1) as (kvs & w2 & Eg). rewrite Eg. apply law_get in Eg as [Hv Hr].
  destruct (commit_answers ctx (delete_cmps (other_keys key kvs))
    (delete_ops (other_keys key kvs) ++ [OpPut key data]) [] w2) as (r & w3 & Ec).
  { eapply replace_accepted; [exact Hr|]. by rewrite <-Hv, Ed. }
  rewrite Ec. apply law_commit in Ec as (s & rev & <- & -> & _).
  rewrite (quiet_cmps _ _ _ _ Hr _ (other_keys_sub _ _)). eauto.
Qed.

(** C31: In a store without other writers, whose server answers in time what
    it accepts, EtcdAllDataPublisher ends with success in its first iteration,
    leaves keys outside the prefix alone, and EtcdAllCollector then returns
    exactly the published data. The server need not accept a transaction that
    puts a key twice, puts and deletes a key, or has more operations than its
    limit, which the stored keys of the prefix are below: the publisher never
    sends such a one. *)
Theorem publish_collect_all fuel pprefix timeout timeout' bytes w :
  key_count (view w) (getConfigPrefix pprefix) < max_ops ->
  exists w1 rev w2,
    EtcdAllDataPublisher_Publish (S fuel) pprefix timeout 0 (Some bytes) w = (Some None, w1) /\
    EtcdAllCollector_Collect pprefix timeout' w1 =
      (Ok [mkData (getConfigKey pprefix "all") bytes rev], w2) /\
    (forall k, HasPrefix k (getConfigPrefix pprefix) = false -> view w1 !! k = view w !! k).
Proof.
  intros Hcount. unfold EtcdAllDataPublisher_Publish. rewrite decide_False by (by intros []).
  set (prefix := getConfigPrefix pprefix). set (ctx := make_context timeout).
  destruct (publish_all_quiet fuel ctx prefix (prefix +:+ "all") bytes w Hcount) as [w1 Hp].
  assert (exists rev, forall k, view w1 !! k =
     if decide (k = prefix +:+ "all") then Some (bytes, rev)
     else if HasPrefix k prefix then None else view w !! k) as [rev Hview].
  { simpl in Hp. destruct (not_done ctx w) as [wa Ed]. rewrite Ed in Hp.
    destruct (get_answers ctx prefix true wa) as (kvs & wb & Eg). rewrite Eg in Hp.
    destruct (etcd_Commit _ _ _ _ wb) as [[r|] wc] eqn:Ec; [|done].
    apply law_done in Ed. apply law_get in Eg as [Hv Hr].
    apply law_commit in Ec as (s & rev & <- & Hsu & Hvc & _).
    rewrite (quiet_cmps _ _ _ _ Hr _ (other_keys_sub _ _)) in Hsu.
    rewrite Hsu in Hp, Hvc. injection Hp as <-. exists rev. intros k.
    rewrite Hvc, fold_left_app. simpl. case_decide as E; subst; [by rewrite lookup_insert_eq|].
    rewrite lookup_insert_ne, lookup_delete_ops by done. rewrite <-Ed, Hv.
    pose proof (elem_of_other_keys _ (prefix +:+ "all") _ _ k Hr) as Hin.
    clear Hr Hvc Hsu. destruct (HasPrefix k prefix); case_decide as Ein; try done.
    - destruct (view wb !! k) eqn:Ek; [|done]. destruct Ein. apply Hin. eauto.
    - by apply Hin in Ein as (_ & ? & _). }
  destruct (get_answers (make_context timeout') prefix true w1) as (kvs & w2 & Eg).
  assert (HasPrefix (prefix +:+ "all") prefix = true) as Hpre by (apply HasPrefix_true; eauto).
  exists w1, rev, w2. split; [done|]. split.
  - unfold EtcdAllCollector_Collect. fold prefix. rewrite Eg. apply law_get in Eg as [Hv Hr].
    rewrite (reads_singleton _ _ _ _ (prefix +:+ "all") bytes rev Hr); [done| |done|].
    + by rewrite <-Hv, Hview, decide_True.
    + intros k' Hm Hne. rewrite <-Hv, Hview, decide_False by done. simpl in Hm. by rewrite Hm.
  - intros k Hk. rewrite Hview, decide_False by (intros ->; congruence). by rewrite Hk.
Qed.
End Quiet.

(** ** One key: compare and swap *)
Section OneKey.
Context {W : Type} `{EC : EtcdClient W} `{GoMapOrder} {others : store -> store -> Prop}
  {EL : EtcdLaws W others}.

(** EtcdKeyDataPublisher with a revision writes the key exactly when the
    key still has that revision, and otherwise changes nothing and reports a
    wrong revision; revision zero always writes. *)
Theorem publish_key_swaps pprefix pkey timeout revision bytes w res w' :
  EtcdKeyDataPublisher_Publish None pprefix pkey timeout revision (Some bytes) w = (res, w') ->
  (exists e, res = Some (Wrapf "failed to put data into etcd: %w" [] e)) \/
  exists s, others (view w) s /\
    (if decide (revision = 0%Z \/ revision_of s (getConfigKey pprefix pkey) = revision)
     then res = None /\
       exists rev, view w' = <[getConfigKey pprefix pkey := (bytes, rev)]> s
     else res = Some (Errorf "failed to put data into etcd: wrong revision" []) /\ view w' = s).
Proof.
  unfold EtcdKeyDataPublisher_Publish. simpl.
  destruct (etcd_Commit _ _ _ _ w) as [[r|e] w1] eqn:Ec; [|intros [= <- <-]; eauto].
  apply law_commit in Ec as (s & rev & Ho & Hsu & Hv & _).
  intros Hres. right. exists s. split; [done|]. fold (getConfigKey pprefix pkey) in *.
  assert (Succeeded r = bool_decide (revision = 0%Z \/
    revision_of s (getConfigKey pprefix pkey) = revision)) as Hs.
  { rewrite Hsu. case_decide as E; simpl.
    - unfold cmp_holds. simpl. rewrite andb_true_r. apply bool_decide_ext. naive_solver.
    - symmetry. apply bool_decide_eq_true. left. lia. }
  clear Hsu. rewrite Hs in Hres, Hv. clear Hs.
  destruct (decide (revision = 0%Z \/ revision_of s (getConfigKey pprefix pkey) = revision)) as [E|E].
  - rewrite bool_decide_true in Hres, Hv by done. simplify_eq. eauto.
  - rewrite bool_decide_false in Hres, Hv by done. by simplify_eq.
Qed.
End OneKey.

(** ** Signed data

    The keys of the hashes, and what the transaction of the signing publisher
    leaves under each of the three prefixes. *)
Definition plain_names (hashes : gmap string string) : Prop :=
  map_Forall (fun h _ => no_char slash h = true) hashes.

Lemma parse_hash_key p h k : no_char slash h = true ->
  parseHashPath (getHashesKey p h k) p = Some (h, k).
Proof. intros. by apply parseHashPath_Some. Qed.

Lemma hash_key_names `{GoMapOrder} p hashes :
  plain_names hashes ->
  NoDup ((fun kv => getHashesKey p kv.1 "all") <$> range_map hashes).
Proof.
  intros Hpl. apply NoDup_fmap_2_strong.
  - intros [h1 v1] [h2 v2] H1%elem_of_range_map H2%elem_of_range_map. simpl. intros E.
    pose proof (parse_hash_key p h1 "all" (Hpl _ _ H1)) as P1.
    rewrite E, (parse_hash_key p h2 "all" (Hpl _ _ H2)) in P1. congruence.
  - rewrite range_map_perm. apply NoDup_map_to_list.
Qed.

Lemma hash_keys_lookup `{GoMapOrder} p hashes k v :
  plain_names hashes ->
  hash_keys p "all" hashes !! k = Some v <->
  exists h, k = getHashesKey p h "all" /\ hashes !! h = Some v.
Proof.
  intros Hpl. unfold hash_keys.
  pose proof (hash_key_names p hashes Hpl) as Hnd.
  destruct (fold_insert_lookup (fun kv => getHashesKey p kv.1 "all") snd (range_map hashes)
    (∅ : gmap string string) Hnd) as [Hin Hout]. split.
  - intros Hk. destruct (decide (k ∈ (fun kv => getHashesKey p kv.1 "all") <$> range_map hashes))
      as [He|He]; [|by rewrite (Hout k He), lookup_empty in Hk].
    apply list_elem_of_fmap in He as ([h v'] & -> & He). exists h. split; [done|].
    pose proof (Hin _ He) as Hk'. apply elem_of_range_map in He. cbn [fst snd] in *. congruence.
  - intros (h & -> & Hh). apply elem_of_range_map in Hh. by apply (Hin (h, v)).
Qed.

Lemma lookup_put_hashes `{GoMapOrder} rev hk (s : store) k :
  fold_left (run_op rev) (put_hashes hk) s !! k =
  match hk !! k with Some v => Some (v, rev) | None => s !! k end.
Proof.
  assert (forall l s, fold_left (run_op rev) (map (fun kv => OpPut kv.1 kv.2) l) s =
    fold_left (fun (m : store) (kv : string * string) => <[kv.1 := (kv.2, rev)]> m) l s) as E.
  { induction l as [|x l IH]; intros s0; simpl; [done|]. apply IH. }
  unfold put_hashes. rewrite E.
  assert (NoDup (fst <$> range_map hk)) as Hnd
    by (rewrite range_map_perm; apply NoDup_fst_map_to_list).
  destruct (fold_insert_lookup fst (fun kv : string * string => (kv.2, rev)) (range_map hk) s Hnd)
    as [Hin Hout].
  destruct (hk !! k) as [v|] eqn:Hk.
  - apply elem_of_range_map in Hk. apply (Hin (k, v) Hk).
  - apply Hout. intros ([k' v'] & -> & He)%list_elem_of_fmap.
    apply elem_of_range_map in He. simpl in *. congruence.
Qed.

(** The node of the only key, with the hashes of a list of entries. *)
Definition hash_name (p : string) (kv : KV) : string :=
  match parseHashPath (Key kv) p with Some (h, _) => h | None => "" end.

Lemma add_hashes_all p kvs b hm sg :
  (forall kv, kv ∈ kvs -> exists h, parseHashPath (Key kv) p = Some (h, "all")) ->
  fold_left (add_hash p) kvs {[ "all" := mkNode b hm sg ]} =
  {[ "all" := mkNode b
       (match kvs with
        | [] => hm
        | _ => Some (fold_left (fun (m : gmap string string) kv => <[hash_name p kv := KValue kv]> m)
                       kvs (default ∅ hm))
        end) sg ]}.
Proof.
  revert hm. induction kvs as [|kv kvs IH]; intros hm Hp; [done|]. cbn [fold_left].
  assert (add_hash p {[ "all" := mkNode b hm sg ]} kv =
    {[ "all" := mkNode b (Some (<[hash_name p kv := KValue kv]> (default ∅ hm))) sg ]}) as ->.
  { unfold add_hash, hash_name. destruct (Hp kv) as [h ->]; [left|].
    rewrite lookup_singleton_eq. simpl. by rewrite insert_singleton_eq. }
  rewrite IH; [|intros; apply Hp; by right]. by destruct kvs.
Qed.

Lemma collected_hashes p hashes kvs (s : store) rev :
  plain_names hashes -> reads s (getHashesPrefix p) true kvs ->
  (forall k, HasPrefix k (getHashesPrefix p) = true -> forall v r,
     s !! k = Some (v, r) <-> r = rev /\ exists h, k = getHashesKey p h "all" /\ hashes !! h = Some v) ->
  (forall kv, kv ∈ kvs -> exists h, parseHashPath (Key kv) p = Some (h, "all") /\
     hashes !! h = Some (KValue kv)) /\
  fold_left (fun (m : gmap string string) kv => <[hash_name p kv := KValue kv]> m) kvs ∅ = hashes /\
  (kvs = [] <-> hashes = ∅).
Proof.
  intros Hpl [Hnd Hr] Hs.
  assert (forall kv, kv ∈ kvs -> exists h, Key kv = getHashesKey p h "all" /\
    parseHashPath (Key kv) p = Some (h, "all") /\ hashes !! h = Some (KValue kv)) as Hkv.
  { intros kv [Hk Hm]%Hr. apply Hs in Hk as (_ & h & E & Hh); [|done].
    exists h. rewrite E. split; [done|]. split; [|done]. apply parse_hash_key. by eapply Hpl. }
  assert (forall h v, hashes !! h = Some v -> mkKV (getHashesKey p h "all") v rev ∈ kvs) as Hall.
  { intros h v Hh. apply Hr. simpl.
    assert (HasPrefix (getHashesKey p h "all") (getHashesPrefix p) = true) as Hpre
      by (apply HasPrefix_true; unfold getHashesKey; eauto).
    split; [|done]. apply Hs; eauto. }
  split; [by intros kv (h & _ & ? & ?)%Hkv; eauto|]. split.
  - assert (NoDup (hash_name p <$> kvs)) as Hnd'.
    { apply NoDup_fmap_2_strong; [|by eapply NoDup_fmap_1].
      intros a b Ha Hb E. destruct (Hkv a Ha) as (h1 & K1 & P1 & _).
      destruct (Hkv b Hb) as (h2 & K2 & P2 & _). unfold hash_name in E. rewrite P1, P2 in E.
      subst h2. assert (Key a = Key b) as EK by congruence.
      apply Hr in Ha as [Ha _]. apply Hr in Hb as [Hb _]. rewrite EK, Hb in Ha.
      destruct a, b; simpl in *; congruence. }
    destruct (fold_insert_lookup (hash_name p) KValue kvs (∅ : gmap string string) Hnd')
      as [Hin Hout]. apply map_eq. intros h. destruct (hashes !! h) as [v|] eqn:Hh.
    + pose proof (Hall _ _ Hh) as Hm. pose proof (Hin _ Hm) as E.
      assert (hash_name p (mkKV (getHashesKey p h "all") v rev) = h) as N.
      { unfold hash_name. cbn [Key]. by rewrite parse_hash_key by (by eapply Hpl). }
      rewrite N in E. exact E.
    + rewrite Hout; [apply lookup_empty|]. intros (kv & -> & Hm)%list_elem_of_fmap.
      destruct (Hkv kv Hm) as (h & _ & P & E). unfold hash_name in Hh. rewrite P in Hh. congruence.
  - split; intros E.
    + apply map_eq. intros h. rewrite lookup_empty. destruct (hashes !! h) eqn:Hh; [|done].
      apply Hall in Hh. rewrite E in Hh. by apply not_elem_of_nil in Hh.
    + destruct kvs as [|kv kvs]; [done|]. destruct (Hkv kv) as (h & _ & _ & Hh); [left|].
      by rewrite E, lookup_empty in Hh.
Qed.

Section Signed.
Context {W : Type} `{EC : EtcdClient W} `{GoMapOrder} {Q : Quiet W} {max_ops : nat} {R : Responsive W max_ops}.

(** A transaction of the three reads. *)
Lemma quiet_reads ctx p w :
  3 <= max_ops ->
  exists values hashes sigs r w', etcd_Commit ctx [] (txn_get_ops p) [] w = (Ok r, w') /\
    Responses r = [values; hashes; sigs] /\ view w' = view w /\
    reads (view w) (getConfigPrefix p) true values /\
    reads (view w) (getHashesPrefix p) true hashes /\
    reads (view w) (getSignPrefix p) true sigs.
Proof.
  intros Hmax. destruct (commit_answers ctx [] (txn_get_ops p) [] w) as (r & w' & Ec).
  { apply accepted_intro; cbn; lia || done || apply NoDup_nil_2 || (intros ? []%not_elem_of_nil). }
  pose proof Ec as (s & rev & <- & Hsu & Hv & Hresp)%law_commit.
  simpl in Hsu. rewrite Hsu in *. simpl in *.
  assert (Forall2 (read_response (view w)) (txn_get_ops p) (Responses r)) as Hf.
  { apply Hresp. repeat constructor; eauto. }
  unfold txn_get_ops in Hf. apply Forall2_cons_inv_l in Hf as (values & ? & H1 & Hf & E).
  apply Forall2_cons_inv_l in Hf as (hashes & ? & H2 & Hf & E2).
  apply Forall2_cons_inv_l in Hf as (sigs & ? & H3 & Hf & E3).
  apply Forall2_nil_inv_l in Hf. subst.
  exists values, hashes, sigs, r, w'. done.
Qed.

Lemma stale_hashes_sub hk kvs kv : kv ∈ stale_hashes hk kvs -> kv ∈ kvs.
Proof. unfold stale_hashes. by intros [_ ?]%list_elem_of_filter. Qed.

Lemma elem_of_stale_hashes (s : store) hk prefix kvs k :
  reads s prefix true kvs ->
  k ∈ Key <$> stale_hashes hk kvs <->
  hk !! k = None /\ HasPrefix k prefix = true /\ is_Some (s !! k).
Proof.
  intros [_ Hr]. unfold stale_hashes. rewrite list_elem_of_fmap. split.
  - intros (kv & -> & Hkv). apply list_elem_of_filter in Hkv as [Hne Hin].
    apply Hr in Hin as [Hs Hm]. simpl in Hm. eauto.
  - intros (Hne & Hp & [[v r] Hs]). exists (mkKV k v r). split; [done|].
    apply list_elem_of_filter. split; [done|]. by apply Hr.
Qed.

(** The store after the publisher's transaction. *)
Definition signed_store (s' : store) (p data sig : string) (hk : gmap string string) (rev : Z)
    : Prop :=
  s' !! getConfigKey p "all" = Some (data, rev) /\
  s' !! getSignKey p "all" = Some (sig, rev) /\
  (forall k, HasPrefix k (getConfigPrefix p) = true -> k <> getConfigKey p "all" -> s' !! k = None) /\
  (forall k, HasPrefix k (getSignPrefix p) = true -> k <> getSignKey p "all" -> s' !! k = None) /\
  (forall k, HasPrefix k (getHashesPrefix p) = true ->
     s' !! k = (fun v => (v, rev)) <$> hk !! k).

Lemma HasPrefix_config p k : HasPrefix (getConfigKey p k) (getConfigPrefix p) = true.
Proof. apply HasPrefix_true. by exists k. Qed.

Lemma HasPrefix_sign p k : HasPrefix (getSignKey p k) (getSignPrefix p) = true.
Proof. apply HasPrefix_true. by exists k. Qed.

Lemma signed_txn_store (s : store) p data sig hashes rev values hkvs sigs :
  plain_names hashes ->
  reads s (getConfigPrefix p) true values -> reads s (getHashesPrefix p) true hkvs ->
  reads s (getSignPrefix p) true sigs ->
  let hk := hash_keys p "all" hashes in
  let deleted := other_keys (getConfigKey p "all") values ++ stale_hashes hk hkvs
                 ++ other_keys (getSignKey p "all") sigs in
  signed_store (fold_left (run_op rev)
    (delete_ops deleted ++ [OpPut (getConfigKey p "all") data; OpPut (getSignKey p "all") sig]
     ++ put_hashes hk) s) p data sig hk rev.
Proof.
  intros Hpl Hv Hh Hg hk deleted.
  assert (forall k v, hk !! k = Some v -> exists r, k = getHashesPrefix p +:+ r) as Hhk.
  { intros k v (h & -> & _)%hash_keys_lookup; [|done]. unfold getHashesKey. eauto. }
  assert (forall k, HasPrefix k (getConfigPrefix p) = true -> hk !! k = None) as Hc.
  { intros k [r ->]%HasPrefix_true. destruct (hk !! _) eqn:E; [|done].
    apply Hhk in E as [r' E]. by apply (config_not_hashes p r r') in E. }
  assert (forall k, HasPrefix k (getSignPrefix p) = true -> hk !! k = None) as Hsg.
  { intros k [r ->]%HasPrefix_true. destruct (hk !! _) eqn:E; [|done].
    apply Hhk in E as [r' E]. symmetry in E. by apply hashes_not_sign in E. }
  assert (forall k, fold_left (run_op rev)
    (delete_ops deleted ++ [OpPut (getConfigKey p "all") data; OpPut (getSignKey p "all") sig]
     ++ put_hashes hk) s !! k =
    match hk !! k with
    | Some v => Some (v, rev)
    | None =>
        if decide (k = getSignKey p "all") then Some (sig, rev)
        else if decide (k = getConfigKey p "all") then Some (data, rev)
        else if decide (k ∈ Key <$> deleted) then None else s !! k
    end) as Hlook.
  { intros k. rewrite !fold_left_app, lookup_put_hashes. destruct (hk !! k); [done|].
    cbn [fold_left run_op]. case_decide as E; subst; [by rewrite lookup_insert_eq|].
    rewrite lookup_insert_ne by done. case_decide as E'; subst; [by rewrite lookup_insert_eq|].
    by rewrite lookup_insert_ne, lookup_delete_ops by done. }
  assert (forall k, k ∈ Key <$> deleted <->
    (k <> getConfigKey p "all" /\ HasPrefix k (getConfigPrefix p) = true /\ is_Some (s !! k)) \/
    (hk !! k = None /\ HasPrefix k (getHashesPrefix p) = true /\ is_Some (s !! k)) \/
    (k <> getSignKey p "all" /\ HasPrefix k (getSignPrefix p) = true /\ is_Some (s !! k))) as Hdel.
  { intros k. subst deleted. rewrite !fmap_app, !elem_of_app.
    by rewrite (elem_of_other_keys _ _ _ _ k Hv), (elem_of_stale_hashes _ _ _ _ k Hh),
      (elem_of_other_keys _ _ _ _ k Hg). }
  assert (forall k, k <> getConfigKey p "all" -> k <> getSignKey p "all" -> hk !! k = None ->
    (is_Some (s !! k) -> k ∈ Key <$> deleted) -> fold_left (run_op rev)
    (delete_ops deleted ++ [OpPut (getConfigKey p "all") data; OpPut (getSignKey p "all") sig]
     ++ put_hashes hk) s !! k = None) as Hgone.
  { intros k H1 H2 H3 H4. rewrite Hlook, H3, !decide_False by done. case_decide as Hd; [done|].
    destruct (s !! k); [|done]. destruct Hd. by apply H4. }
  unfold signed_store. split_and!.
  - rewrite Hlook, Hc by apply HasPrefix_config.
    rewrite decide_False by apply config_not_sign. by rewrite decide_True.
  - rewrite Hlook, Hsg by apply HasPrefix_sign. by rewrite decide_True.
  - intros k Hk Hne. apply Hgone; [done| |by apply Hc|].
    + apply HasPrefix_true in Hk as [r ->]. apply config_not_sign.
    + intros Hsome. apply Hdel. by left.
  - intros k Hk Hne. apply Hgone; [|done|by apply Hsg|].
    + apply HasPrefix_true in Hk as [r ->]. intros E. symmetry in E. by apply config_not_sign in E.
    + intros Hsome. apply Hdel. by right; right.
  - intros k Hk. destruct (hk !! k) as [v|] eqn:E; [by rewrite Hlook, E|]. simpl.
    apply Hgone; [| |done|].
    + apply HasPrefix_true in Hk as [r ->]. intros E'. symmetry in E'. by apply config_not_hashes in E'.
    + apply HasPrefix_true in Hk as [r ->]. apply hashes_not_sign.
    + intros Hsome. apply Hdel. by right; left.
Qed.

(** How many operations the transaction of the publisher has at most. *)
Definition signed_ops (s : store) (p : string) (hashes : gmap string string) : nat :=
  key_count s (getConfigPrefix p) + key_count s (getHashesPrefix p) + key_count s (getSignPrefix p) + 2 + size hashes.

Lemma hash_keys_size p key hashes : size (hash_keys p key hashes) <= size hashes.
Proof.
  unfold hash_keys. rewrite <-(length_map_to_list hashes), <-(range_map_perm hashes).
  assert (forall l (m : gmap string string),
    size (fold_left (fun m kv => <[getHashesKey p kv.1 key := kv.2]> m) l m) <= size m + length l) as Hl;
    [|specialize (Hl (range_map hashes) ∅); by rewrite map_size_empty in Hl].
  induction l as [|kv l IH]; intros m; cbn [fold_left length]; [lia|].
  specialize (IH (<[getHashesKey p kv.1 key := kv.2]> m)). rewrite map_size_insert in IH.
  destruct (m !! getHashesKey p kv.1 key); cbn [id] in *; lia.
Qed.

Lemma put_keys_hashes hk : omap put_key (put_hashes hk) = fst <$> range_map hk.
Proof. unfold put_hashes. induction (range_map hk); [done|]. cbn. by f_equal. Qed.
Lemma deleted_keys_hashes hk : omap deleted_key (put_hashes hk) = [].
Proof. unfold put_hashes. induction (range_map hk); [done|]. cbn. done. Qed.

Lemma signed_accepted (s : store) p data sig hashes values hkvs sigs :
  plain_names hashes -> 3 <= max_ops -> signed_ops s p hashes <= max_ops ->
  reads s (getConfigPrefix p) true values -> reads s (getHashesPrefix p) true hkvs ->
  reads s (getSignPrefix p) true sigs ->
  let hk := hash_keys p "all" hashes in
  let deleted := other_keys (getConfigKey p "all") values ++ stale_hashes hk hkvs
                 ++ other_keys (getSignKey p "all") sigs in
  accepted max_ops (delete_cmps deleted)
    (delete_ops deleted ++ [OpPut (getConfigKey p "all") data; OpPut (getSignKey p "all") sig] ++ put_hashes hk)
    (txn_get_ops p) = true.
Proof.
  intros Hpl H3 Hmax Hv Hh Hg hk deleted. unfold signed_ops in Hmax.
  assert (length deleted + 2 + size hk <= max_ops) as Hlen.
  { pose proof (hash_keys_size p "all" hashes). pose proof (reads_length _ _ _ Hv).
    pose proof (reads_length _ _ _ Hh). pose proof (reads_length _ _ _ Hg).
    pose proof (other_keys_length (getConfigKey p "all") values). pose proof (other_keys_length (getSignKey p "all") sigs).
    assert (length (stale_hashes hk hkvs) <= length hkvs) by apply length_filter.
    unfold deleted, hk in *. rewrite !length_app. lia. }
  assert (length (put_hashes hk) = size hk) as Hphk.
  { unfold put_hashes. by rewrite length_map, (Permutation_length (range_map_perm hk)), length_map_to_list. }
  assert (forall k, k ∈ fst <$> range_map hk -> exists h, k = getHashesKey p h "all" /\ is_Some (hk !! k)) as Hhk.
  { intros k ([k' v] & -> & Hin%elem_of_range_map)%list_elem_of_fmap. cbn [fst].
    pose proof Hin as (h & -> & _)%hash_keys_lookup; [|done]. eauto. }
  assert (omap put_key (delete_ops deleted ++ [OpPut (getConfigKey p "all") data; OpPut (getSignKey p "all") sig]
    ++ put_hashes hk) = getConfigKey p "all" :: getSignKey p "all" :: (fst <$> range_map hk)) as Hputs.
  { rewrite omap_app, put_keys_delete. cbn. by rewrite put_keys_hashes. }
  apply accepted_intro; rewrite ?Hputs; unfold delete_cmps; rewrite ?length_app, ?length_map; try (unfold delete_ops; rewrite ?length_map; cbn; lia).
  - apply NoDup_cons. split; [|apply NoDup_cons; split].
    + intros [E|(h & E & _)%Hhk]%elem_of_cons; [by apply config_not_sign in E|by apply config_not_hashes in E].
    + intros (h & E & _)%Hhk. symmetry in E. by apply hashes_not_sign in E.
    + rewrite range_map_perm. apply NoDup_fst_map_to_list.
  - intros k. rewrite omap_app, deleted_keys_delete. cbn. rewrite deleted_keys_hashes, app_nil_r.
    unfold deleted. rewrite !fmap_app, !elem_of_app, (elem_of_other_keys _ _ _ _ k Hv),
      (elem_of_stale_hashes _ _ _ _ k Hh), (elem_of_other_keys _ _ _ _ k Hg), !elem_of_cons.
    intros [(Hne & [x ->]%HasPrefix_true & _)|[(Hne & [x ->]%HasPrefix_true & _)|(Hne & [x ->]%HasPrefix_true & _)]]
      [E|[E|(h & E & [v Hs])%Hhk]]; try done; try congruence.
    + by apply (config_not_sign p x) in E.
    + by apply (config_not_hashes p x) in E.
    + symmetry in E. by apply config_not_hashes in E.
    + by apply hashes_not_sign in E.
    + symmetry in E. by apply config_not_sign in E.
    + symmetry in E. by apply hashes_not_sign in E.
Qed.

Lemma publish_signed_quiet fuel ctx p data sig hashes resp w values hkvs sigs :
  plain_names hashes -> 3 <= max_ops -> signed_ops (view w) p hashes <= max_ops ->
  Responses resp = [values; hkvs; sigs] ->
  reads (view w) (getConfigPrefix p) true values ->
  reads (view w) (getHashesPrefix p) true hkvs ->
  reads (view w) (getSignPrefix p) true sigs ->
  exists w' rev,
    publish_signed_loop (S fuel) ctx p data sig (hash_keys p "all" hashes) (Ok resp) w
      = (Some None, w') /\
    signed_store (view w') p data sig (hash_keys p "all" hashes) rev.
Proof.
  intros Hpl H3 Hmax Hresp Hv Hh Hg. cbn [publish_signed_loop].
  pose proof (signed_accepted _ _ data sig _ _ _ _ Hpl H3 Hmax Hv Hh Hg) as Hacc.
  destruct (not_done ctx w) as [w1 Ed]. rewrite Ed, Hresp.
  set (deleted := other_keys _ values ++ _).
  match goal with |- context [etcd_Commit ctx ?c ?o ?e w1] =>
    destruct (commit_answers ctx c o e w1 Hacc) as (r & w2 & Ec) end.
  rewrite Ec. apply law_done in Ed. apply law_commit in Ec as (s & rev & <- & Hsu & Hv2 & _).
  rewrite Ed in *.
  assert (forallb (cmp_holds (view w)) (delete_cmps deleted) = true) as Hc.
  { unfold deleted, delete_cmps. rewrite !map_app, !forallb_app.
    rewrite (quiet_cmps _ _ _ _ Hv _ (other_keys_sub _ _)),
      (quiet_cmps _ _ _ _ Hh _ (stale_hashes_sub _ _)),
      (quiet_cmps _ _ _ _ Hg _ (other_keys_sub _ _)). done. }
  rewrite Hc in Hsu. rewrite Hsu in *. exists w2, rev. split; [done|].
  rewrite Hv2. by apply signed_txn_store.
Qed.

Lemma collect_signed p data sig hashes rev (s : store) values hkvs sigs checkFunc :
  plain_names hashes ->
  signed_store s p data sig (hash_keys p "all" hashes) rev ->
  reads s (getConfigPrefix p) true values -> reads s (getHashesPrefix p) true hkvs ->
  reads s (getSignPrefix p) true sigs ->
  integrity_collect checkFunc p values hkvs sigs =
  match checkFunc data (if decide (hashes = ∅) then None else Some hashes) (Some sig) with
  | Some err => Err (Wrapf "failed to perform integrity checks for key %q: %w"
                       [getConfigKey p "all"] err)
  | None => Ok [mkData (getConfigKey p "all") data 0]
  end.
Proof.
  intros Hpl (Hc & Hg & Hc' & Hg' & Hh) Rv Rh Rg.
  rewrite (reads_singleton _ _ _ _ _ _ _ Rv Hc (HasPrefix_config _ _) Hc').
  rewrite (reads_singleton _ _ _ _ _ _ _ Rg Hg (HasPrefix_sign _ _) Hg').
  destruct (collected_hashes p hashes hkvs s rev Hpl Rh) as (Hparse & Hfold & Hnil).
  { intros k Hk v r. rewrite (Hh k Hk). rewrite fmap_Some. setoid_rewrite hash_keys_lookup; [|done].
    naive_solver. }
  unfold integrity_collect, getConfigKey, getSignKey. cbn [fold_left].
  unfold add_value. cbn [Key KValue fst snd]. rewrite CutPrefix_app. cbn [app].
  rewrite insert_empty, add_hashes_all by (intros kv (h & ? & _)%Hparse; eauto).
  cbn [for_each]. unfold add_sig. cbn [Key KValue]. rewrite CutPrefix_app, lookup_singleton_eq.
  cbn [rbind for_each node_value node_hashes]. rewrite insert_singleton_eq.
  unfold check_node. rewrite lookup_singleton_eq. cbn [default node_value node_hashes node_sig id].
  assert ((match hkvs with
    | [] => None
    | _ => Some (fold_left (fun (m : gmap string string) kv => <[hash_name p kv := KValue kv]> m)
                   hkvs ∅) end) = if decide (hashes = ∅) then None else Some hashes) as ->.
  { case_decide as E.
    - by rewrite (proj2 Hnil E).
    - destruct hkvs; [by destruct E; apply Hnil|]. by rewrite Hfold. }
  unfold getConfigKey. by destruct (checkFunc _ _ _).
Qed.

End Signed.

(** ** A server that keeps the laws

    The store in memory, with a revision counter; [other] is what the other
    clients do before each call.  It refuses what a server refuses, with the limit of
    operations that is the default. *)
Definition default_max_ops : nat := 128.
Record sim := mkSim { sim_store : store; sim_rev : Z }.

Definition kvs_of (s : store) (key : string) (p : bool) : list KV :=
  omap (fun e => if key_matches key p e.1 then Some (mkKV e.1 e.2.1 e.2.2) else None)
    (map_to_list s).

Lemma kvs_of_reads s key p : reads s key p (kvs_of s key p).
Proof.
  unfold reads, kvs_of. split.
  - pose proof (NoDup_fst_map_to_list s) as Hnd. revert Hnd.
    induction (map_to_list s) as [|[k [v r]] l IH]; [constructor|].
    rewrite fmap_cons. intros [Hk Hnd]%NoDup_cons. simpl.
    destruct (key_matches key p k); [|by apply IH].
    rewrite fmap_cons. apply NoDup_cons. split; [|by apply IH].
    intros (kv & Ek & Hkv)%list_elem_of_fmap. apply Hk.
    apply list_elem_of_omap in Hkv as ([k' [v' r']] & Hin & E). simpl in E, Ek.
    case_match; simplify_eq/=. apply list_elem_of_fmap. by exists (k', (v', r')).
  - intros [k v r]. rewrite list_elem_of_omap. simpl. split.
    + intros ([k' [v' r']] & Hin & E). simpl in E. case_match; simplify_eq/=.
      by apply elem_of_map_to_list in Hin.
    + intros [Hs Hm]. exists (k, (v, r)). rewrite elem_of_map_to_list. simpl. by rewrite Hm.
Qed.

Definition sim_etcd (other : store -> store) : EtcdClient sim := {|
  etcd_Get _ key p w :=
    let s := other (sim_store w) in (Ok (kvs_of s key p), mkSim s (sim_rev w));
  etcd_Commit _ cmps ops elses w :=
    let s := other (sim_store w) in
    if negb (accepted default_max_ops cmps ops elses) then
      (Err (Errorf "etcdserver: duplicate key given in txn request" []), mkSim s (sim_rev w))
    else
    let ok := forallb (cmp_holds s) cmps in
    let run := if ok then ops else elses in
    let rev := (sim_rev w + 1)%Z in
    (Ok (mkTxnResponse ok
       (map (fun op => match op with OpGet k p => kvs_of s k p | _ => [] end) run)),
     mkSim (if ok then fold_left (run_op rev) ops s else s) rev);
  ctx_Done _ w := (None, w);
  print_kvs _ := ""
|}.

Definition sim_laws (other : store -> store) (others : store -> store -> Prop)
    (Ho : forall s, others s (other s)) : @EtcdLaws sim (sim_etcd other) others.
Proof.
  refine (@Build_EtcdLaws sim (sim_etcd other) others sim_store _ _ _).
  - by intros ctx w e w' [= _ <-].
  - intros ctx key p w kvs w' [= <- <-]. split; [apply Ho|apply kvs_of_reads].
  - intros ctx cmps ops elses w r w'. cbn [sim_etcd etcd_Commit].
    destruct (accepted _ _ _ _); [|done]. cbn [negb]. intros [= <- <-]. exists (other (sim_store w)), (sim_rev w + 1)%Z.
    cbn [Succeeded Responses sim_store]. split; [apply Ho|]. split; [done|]. split; [done|].
    generalize (if forallb (cmp_holds (other (sim_store w))) cmps then ops else elses) as run.
    induction 1 as [|op run (k & p & ->) _ IH]; constructor; [|done]. apply kvs_of_reads.
Defined.

Lemma sim_responsive other : @Responsive sim (sim_etcd other) default_max_ops.
Proof.
  split; [simpl; eauto| |simpl; eauto]. intros ctx cmps ops elses w Ha. cbn [sim_etcd etcd_Commit]. rewrite Ha. eauto.
Qed.

(** The other client keeps writing a part of the configuration. *)
Definition busy (s : store) : store := <["/p/config/b" := ("b: 1", 7%Z)]> s.

Lemma publish_all_replaces_witness :
  exists w', @EtcdAllDataPublisher_Publish sim (sim_etcd busy) 1 "/p" 0 0 (Some "a: 1")
      (mkSim {[ "/p/config/a" := ("a: 0", 3%Z) ]} 7) = (Some None, w') /\
    exists rev, sim_store w' !! "/p/config/all" = Some ("a: 1", rev).
Proof.
  assert ((@EtcdAllDataPublisher_Publish sim (sim_etcd busy) 1 "/p" 0 0 (Some "a: 1")
      (mkSim {[ "/p/config/a" := ("a: 0", 3%Z) ]} 7)).1 = Some None) as E
    by (vm_compute; reflexivity).
  destruct (@EtcdAllDataPublisher_Publish sim (sim_etcd busy) 1 "/p" 0 0 (Some "a: 1")
      (mkSim {[ "/p/config/a" := ("a: 0", 3%Z) ]} 7)) as [res w'] eqn:Ep.
  simpl in E. subst res. exists w'. split; [reflexivity|].
  destruct (@publish_all_replaces sim (sim_etcd busy) (fun s s' => s' = busy s)
    (sim_laws busy _ (fun s => eq_refl)) _ _ _ _ _ _ Ep) as (sg & s0 & rev & _ & Hview & _).
  exists rev. exact (Hview "/p/config/all").
Defined.

Definition sim_quiet : @EtcdLaws sim (sim_etcd id) eq := sim_laws id eq (fun s => eq_refl).

Definition sample_stored : store := {[ "/p/config/a" := ("a: 0", 3%Z); "/p/config/all" := ("b: 0", 4%Z) ]}.

Lemma publish_collect_all_witness :
  exists w1 rev w2,
    @EtcdAllDataPublisher_Publish sim (sim_etcd id) 1 "/p" 0 0 (Some "a: 1")
      (mkSim sample_stored 7) = (Some None, w1) /\
    @EtcdAllCollector_Collect sim (sim_etcd id) "/p" 0 w1 =
      (Ok [mkData (getConfigKey "/p" "all") "a: 1" rev], w2).
Proof.
  destruct (@publish_collect_all sim (sim_etcd id) sim_quiet default_max_ops (sim_responsive id)
    0 "/p" 0 0 "a: 1" (mkSim sample_stored 7)
    ltac:(vm_compute; lia))
    as (w1 & rev & w2 & H1 & H2 & _).
  exists w1, rev, w2. split; [exact H1|exact H2].
Defined.

Lemma publish_key_swaps_witness :
  exists w', @EtcdKeyDataPublisher_Publish sim (sim_etcd id) _ None "/p" "k" 0 5 (Some "x")
    (mkSim ∅ 7) = (Some (Errorf "failed to put data into etcd: wrong revision" []), w') /\
    ((exists e, Some (Errorf "failed to put data into etcd: wrong revision" []) =
       Some (Wrapf "failed to put data into etcd: %w" [] e)) \/
     exists s, (∅ : store) = s).
Proof.
  exists (mkSim ∅ 8).
  assert (@EtcdKeyDataPublisher_Publish sim (sim_etcd id) _ None "/p" "k" 0 5 (Some "x")
    (mkSim ∅ 7) = (Some (Errorf "failed to put data into etcd: wrong revision" []), mkSim ∅ 8))
    as E by reflexivity.
  split; [exact E|].
  destruct (@publish_key_swaps sim (sim_etcd id) _ eq sim_quiet _ _ _ _ _ _ _ _ E)
    as [He|(s & Hs & _)]; [left; exact He|right; exists s; exact Hs].
Defined.

(** A signature scheme with one hash. *)
Definition sample_sign : SignFunc := fun d => Ok ({[ "sha256" := default "" d ]}, "sig").
Definition sample_check : CheckFunc := fun d hs sg =>
  if decide ((hs ≫= fun m : gmap string string => m !! "sha256") = Some d /\ sg = Some "sig")
  then None else Some (Errorf "bad" []).

