(* ===== verification/Tarantool.v ===== *)
(** * The Tarantool config storage as a source ([lib/cluster/tarantool.go])

    The collectors and publishers over a connection to a Tarantool with the
    [config.storage] functions.  The connector, the instance behind it and
    [mapstructure] are parameters; requests are the Go values the code builds. *)
From S2P Require Import Prelude GoStrings Storages Value Config Cluster Sources Etcd.

(** One entry of a response of [config.storage.get], and of a [get] inside a
    transaction. *)
Record get_entry := mkGetEntry { ge_path : string; ge_value : string; ge_revision : Z }.
Record txn_entry := mkTxnEntry { te_path : string; te_value : string }.

(** [tarantoolGetResponse] and [tarantoolTxnGetResponse] *)
Definition tarantoolGetResponse := list get_entry.
Definition tarantoolTxnGetResponse := list (list txn_entry).

(** [conn_call fun args timeout]: [conn.Do(req).GetTyped(&result)]; the context
    of the request carries the timeout.  [decode_get] and [decode_txn] are
    [mapstructure.Decode] into the two response types. *)
Class TarantoolConn (W : Type) := {
  conn_call : string -> list value -> context -> W -> result (list (list value)) * W;
  decode_get : value -> result tarantoolGetResponse;
  decode_txn : value -> result tarantoolTxnGetResponse;
  print_data : list (list value) -> string;
  print_row : list value -> string;
  print_get : tarantoolGetResponse -> string
}.

Section Calls.
Context {W : Type} `{TarantoolConn W}.

Definition tarantoolCall (fun_ : string) (args : list value) (timeout : Z) (w : W)
    : result (list (list value)) * W :=
  conn_call fun_ args (make_context timeout) w.

Definition unexpected_response {A} (data : list (list value)) : result A :=
  Err (Errorf "unexpected response from tarantool: %q" [print_data data]).

Definition decode_first {A} (decode : value -> result A) (data : list (list value)) : result A :=
  match data with
  | [(first :: _) as row] =>
      match decode first with
      | Ok resp => Ok resp
      | Err _ => Err (Errorf "failed to map response from tarantool: %q" [print_row row])
      end
  | _ => unexpected_response data
  end.

Definition tarantoolGet (path : string) (timeout : Z) (w : W) : result tarantoolGetResponse * W :=
  match tarantoolCall "config.storage.get" [VStr path] timeout w with
  | (Err e, w') => (Err (Wrapf "failed to fetch data from tarantool: %w" [] e), w')
  | (Ok data, w') => (decode_first decode_get data, w')
  end.

(** [map[any]any{"on_success": onSuccess}] *)
Definition txn_request (onSuccess : list value) : value :=
  VMap {[ KStr "on_success" := VSlice onSuccess ]}.

Definition tarantoolTxnGet (paths : list string) (timeout : Z) (w : W)
    : result tarantoolTxnGetResponse * W :=
  let onSuccess := map (fun path => VSlice [VStr "get"; VStr path]) paths in
  match tarantoolCall "config.storage.txn" [txn_request onSuccess] timeout w with
  | (Err e, w') => (Err (Wrapf "failed to fetch data from tarantool: %w" [] e), w')
  | (Ok data, w') =>
      match decode_first decode_txn data with
      | Err e => (Err e, w')
      | Ok [] =>
          (Err (Errorf "unexpected response from tarantool: %q" [print_row (default [] (head data))]),
           w')
      | Ok resp => (Ok resp, w')
      end
  end.

(** ** Collectors *)
Definition TarantoolAllCollector_Collect (cprefix : string) (timeout : Z) (w : W)
    : result (list Data) * W :=
  let prefix := getConfigPrefix cprefix in
  match tarantoolGet prefix timeout w with
  | (Err e, w') => (Err e, w')
  | (Ok [], w') =>
      (Err (Errorf "a configuration data not found in tarantool for prefix %q" [prefix]), w')
  | (Ok resp, w') =>
      (Ok (map (fun data => mkData (ge_path data) (ge_value data) (ge_revision data)) resp), w')
  end.

Definition TarantoolKeyCollector_Collect (cprefix ckey : string) (timeout : Z) (w : W)
    : result (list Data) * W :=
  let key := getConfigPrefix cprefix +:+ ckey in
  match tarantoolGet key timeout w with
  | (Err e, w') => (Err e, w')
  | (Ok [], w') =>
      (Err (Errorf "a configuration data not found in tarantool for key %q" [key]), w')
  | (Ok [data], w') => (Ok [mkData key (ge_value data) (ge_revision data)], w')
  | (Ok resp, w') =>
      (Err (Errorf "too many responses (%v) from tarantool for key %q" [print_get resp; key]), w')
  end.

(** ** Integrity collectors

    A [valueNode] as in [etcd.go], with nil and empty values written [""].  An
    entry of a response updates the node of its key. *)
Inductive node_update :=
| UpdValue (val : string)
| UpdHash (hash val : string)
| UpdSig (val : string).

Definition classify (prefix : string) (data : txn_entry) : option (string * node_update) :=
  match CutPrefix (te_path data) (getConfigPrefix prefix) with
  | Some key => Some (key, UpdValue (te_value data))
  | None =>
      match parseHashPath (te_path data) prefix with
      | Some (hash, key) => Some (key, UpdHash hash (te_value data))
      | None =>
          match CutPrefix (te_path data) (getSignPrefix prefix) with
          | Some key => Some (key, UpdSig (te_value data))
          | None => None
          end
      end
  end.

(** A node that does not exist yet becomes the update itself. *)
Definition new_node (u : node_update) : valueNode :=
  match u with
  | UpdValue v => mkNode v None None
  | UpdHash h v => mkNode "" (Some {[ h := v ]}) None
  | UpdSig v => mkNode "" None (Some v)
  end.

Definition update_node (node : valueNode) (u : node_update) : valueNode :=
  match u with
  | UpdValue v => if decide (v = "") then node else mkNode v (node_hashes node) (node_sig node)
  | UpdHash h v =>
      mkNode (node_value node) (Some (<[h := v]> (default ∅ (node_hashes node)))) (node_sig node)
  | UpdSig v =>
      if decide (v = "") then node else mkNode (node_value node) (node_hashes node) (Some v)
  end.

Definition gather_step (prefix : string) (s : list string * gmap string valueNode)
    (data : txn_entry) : list string * gmap string valueNode :=
  match classify prefix data with
  | None => s
  | Some (key, u) =>
      match s.2 !! key with
      | Some node => (s.1, <[key := update_node node u]> s.2)
      | None => (s.1 ++ [key], <[key := new_node u]> s.2)
      end
  end.

Definition check_gathered (checkFunc : CheckFunc) (prefix : string)
    (nodes : gmap string valueNode) (data : list Data) (key : string) : result (list Data) :=
  let node := default (mkNode "" None None) (nodes !! key) in
  if decide (node_value node = "") then Ok data
  else
    let fullKey := getConfigKey prefix key in
    match checkFunc (node_value node) (node_hashes node) (node_sig node) with
    | Some err =>
        Err (Wrapf "failed to perform integrity checks for key %q: %w" [fullKey] err)
    | None => Ok (data ++ [mkData fullKey (node_value node) 0])
    end.

Definition gather_and_check (checkFunc : CheckFunc) (prefix : string)
    (resp : tarantoolTxnGetResponse) : result (list Data) :=
  let '(keys, nodes) := fold_left (gather_step prefix) (concat resp) ([], ∅) in
  for_each (check_gathered checkFunc prefix nodes) keys [].

Definition IntegrityTarantoolAllCollector_Collect (checkFunc : CheckFunc) (prefix : string)
    (timeout : Z) (w : W) : result (list Data) * W :=
  match tarantoolTxnGet [getConfigPrefix prefix; getHashesPrefix prefix; getSignPrefix prefix]
          timeout w with
  | (Err e, w') => (Err e, w')
  | (Ok resp, w') => (gather_and_check checkFunc prefix resp, w')
  end.

(** The variables [value], [hashes] and [sig] of the key collector. *)
Definition key_step (prefix ckey : string) (node : valueNode) (data : txn_entry) : valueNode :=
  if decide (te_path data = getConfigKey prefix ckey) then
    mkNode (te_value data) (node_hashes node) (node_sig node)
  else if decide (te_path data = getSignKey prefix ckey) then
    mkNode (node_value node) (node_hashes node) (Some (te_value data))
  else
    match parseHashPath (te_path data) prefix with
    | Some (hash, key) =>
        if decide (key = ckey) then
          mkNode (node_value node)
            (Some (<[hash := te_value data]> (default ∅ (node_hashes node)))) (node_sig node)
        else node
    | None => node
    end.

Definition gather_key (checkFunc : CheckFunc) (prefix ckey : string)
    (resp : tarantoolTxnGetResponse) : result (list Data) :=
  let valueKey := getConfigKey prefix ckey in
  let node := fold_left (key_step prefix ckey) (concat resp) (mkNode "" (Some ∅) None) in
  if decide (node_value node = "") then Err (Errorf "value for key %q not found" [valueKey])
  else
    match checkFunc (node_value node) (node_hashes node) (node_sig node) with
    | Some err =>
        Err (Wrapf "failed to perform integrity checks for key %q: %w" [valueKey] err)
    | None => Ok [mkData valueKey (node_value node) 0]
    end.

Definition IntegrityTarantoolKeyCollector_Collect (checkFunc : CheckFunc) (prefix key : string)
    (timeout : Z) (w : W) : result (list Data) * W :=
  match tarantoolTxnGet [getConfigKey prefix key; getHashesPrefix prefix; getSignKey prefix key]
          timeout w with
  | (Err e, w') => (Err e, w')
  | (Ok resp, w') => (gather_key checkFunc prefix key resp, w')
  end.

(** ** Publishers *)
Definition op_delete (path : string) : value := VSlice [VStr "delete"; VStr path].
Definition op_put (path data : string) : value := VSlice [VStr "put"; VStr path; VStr data].

Definition publish_txn (txn : value) (timeout : Z) (w : W) : option error * W :=
  match tarantoolCall "config.storage.txn" [txn] timeout w with
  | (Err e, w') => (Some (Wrapf "failed to put data into tarantool: %w" [] e), w')
  | (Ok _, w') => (None, w')
  end.

Context `{GoMapOrder}.

Definition put_signed_hashes (prefix key : string) (hashes : gmap string string) : list value :=
  map (fun kv => op_put (getHashesKey prefix kv.1 key) kv.2) (range_map hashes).

Definition TarantoolAllDataPublisher_Publish (signFunc : option SignFunc) (prefix : string)
    (timeout : Z) (revision : Z) (data : option string) (w : W) : option error * W :=
  if decide (revision <> 0%Z) then
    (Some (Errorf "failed to publish data into tarantool: target revision %d is not supported"
       [FormatInt revision]), w)
  else
    let onSuccess := [op_delete (getConfigPrefix prefix);
                      op_put (getConfigKey prefix "all") (default "" data)] in
    match signFunc with
    | None => publish_txn (txn_request onSuccess) timeout w
    | Some sign =>
        match sign data with
        | Err e => (Some (Wrapf "failed to sign data: %w" [] e), w)
        | Ok (hashes, sig) =>
            publish_txn (txn_request
              (onSuccess ++ [op_delete (getHashesPrefix prefix)]
               ++ put_signed_hashes prefix "all" hashes
               ++ [op_delete (getSignPrefix prefix); op_put (getSignKey prefix "all") sig]))
              timeout w
        end
    end.

Definition TarantoolKeyDataPublisher_Publish (signFunc : option SignFunc) (prefix pkey : string)
    (timeout : Z) (revision : Z) (data : option string) (w : W) : option error * W :=
  let key := getConfigKey prefix pkey in
  let signed :=
    match signFunc with
    | None => Ok []
    | Some sign =>
        match sign data with
        | Err e => Err (Wrapf "failed to sign data: %w" [] e)
        | Ok (hashes, sig) =>
            Ok (put_signed_hashes prefix pkey hashes ++ [op_put (getSignKey prefix pkey) sig])
        end
    end in
  match signed with
  | Err e => (Some e, w)
  | Ok ops =>
      let onSuccess := op_put key (default "" data) :: ops in
      let txn : gmap gokey value := {[ KStr "on_success" := VSlice onSuccess ]} in
      let txn :=
        if decide (revision <> 0%Z) then
          <[KStr "predicates" :=
              VSlice [VSlice [VStr "mod_revision"; VStr "=="; VInt revision; VStr key]]]> txn
        else txn in
      publish_txn (VMap txn) timeout w
  end.
End Calls.

(** ** Constructors *)
Section Constructors.
Context {W : Type} `{GoMapOrder}.

Definition NewTarantoolAllCollector (conn : TarantoolConn W) (prefix : string) (timeout : Z) : DataCollector W :=
  mkDataCollector (TarantoolAllCollector_Collect (H := conn) prefix timeout).
Definition NewIntegrityTarantoolAllCollector (checkFunc : CheckFunc) (conn : TarantoolConn W) (prefix : string)
    (timeout : Z) : DataCollector W :=
  mkDataCollector (IntegrityTarantoolAllCollector_Collect (H := conn) checkFunc prefix timeout).
Definition NewTarantoolKeyCollector (conn : TarantoolConn W) (prefix key : string) (timeout : Z) : DataCollector W :=
  mkDataCollector (TarantoolKeyCollector_Collect (H := conn) prefix key timeout).
Definition NewIntegrityTarantoolKeyCollector (checkFunc : CheckFunc) (conn : TarantoolConn W) (prefix key : string)
    (timeout : Z) : DataCollector W :=
  mkDataCollector (IntegrityTarantoolKeyCollector_Collect (H := conn) checkFunc prefix key timeout).
Definition NewTarantoolAllDataPublisher (conn : TarantoolConn W) (prefix : string) (timeout : Z) : DataPublisher W :=
  mkDataPublisher (TarantoolAllDataPublisher_Publish (H := conn) None prefix timeout).
Definition NewIntegrityTarantoolAllDataPublisher (signFunc : SignFunc) (conn : TarantoolConn W) (prefix : string)
    (timeout : Z) : DataPublisher W :=
  mkDataPublisher (TarantoolAllDataPublisher_Publish (H := conn) (Some signFunc) prefix timeout).
Definition NewTarantoolKeyDataPublisher (conn : TarantoolConn W) (prefix key : string) (timeout : Z)
    : DataPublisher W :=
  mkDataPublisher (TarantoolKeyDataPublisher_Publish (H := conn) None prefix key timeout).
Definition NewIntegrityTarantoolKeyDataPublisher (signFunc : SignFunc) (conn : TarantoolConn W) (prefix key : string)
    (timeout : Z) : DataPublisher W :=
  mkDataPublisher (TarantoolKeyDataPublisher_Publish (H := conn) (Some signFunc) prefix key timeout).
End Constructors.

(** * Factories of collectors and publishers

    [datacollector.go], [datapublisher.go] and [collector.go] of [lib/cluster]:
    which collector or publisher a source, a key and the integrity settings
    select.  A client of a service is represented by its operations.  The two publishers of etcd that loop are given the bound [fuel] on
    their iterations; a run that exceeds it reports [loop_bound]. *)

Record DataCollectorFactory (W : Type) := mkDataCollectorFactory {
  collector_NewFile : string -> result (DataCollector W);
  collector_NewEtcd : EtcdClient W -> string -> string -> Z -> result (DataCollector W);
  collector_NewTarantool : TarantoolConn W -> string -> string -> Z -> result (DataCollector W)
}.
Arguments mkDataCollectorFactory {W}.
Arguments collector_NewFile {W}.
Arguments collector_NewEtcd {W}.
Arguments collector_NewTarantool {W}.

Record DataPublisherFactory (W : Type) := mkDataPublisherFactory {
  publisher_NewFile : string -> result (DataPublisher W);
  publisher_NewEtcd : EtcdClient W -> string -> string -> Z -> result (DataPublisher W);
  publisher_NewTarantool : TarantoolConn W -> string -> string -> Z -> result (DataPublisher W)
}.
Arguments mkDataPublisherFactory {W}.
Arguments publisher_NewFile {W}.
Arguments publisher_NewEtcd {W}.
Arguments publisher_NewTarantool {W}.

(** [CollectorFactory] *)
Record CollectorFactory (W : Type) := mkCollectorFactory {
  NewFile : string -> result (Collector W);
  NewEtcd : EtcdClient W -> string -> string -> Z -> result (Collector W);
  NewTarantool : TarantoolConn W -> string -> string -> Z -> result (Collector W)
}.
Arguments mkCollectorFactory {W}.
Arguments NewFile {W}.
Arguments NewEtcd {W}.
Arguments NewTarantool {W}.

Section Factories.
Context {W : Type} `{GoMapOrder}.
Variable os_Open : FileReadFunc W.
Variable os_WriteFile : string -> string -> W -> option error * W.
Variable fuel : nat.

(** ** [collectorsFactory] *)
Definition NewDataCollectorFactory : DataCollectorFactory W := mkDataCollectorFactory
  (fun path => Ok (NewFileCollector os_Open path))
  (fun etcdcli prefix key timeout =>
     if decide (key = "") then Ok (NewEtcdAllCollector etcdcli prefix timeout)
     else Ok (NewEtcdKeyCollector etcdcli prefix key timeout))
  (fun conn prefix key timeout =>
     if decide (key = "") then Ok (NewTarantoolAllCollector conn prefix timeout)
     else Ok (NewTarantoolKeyCollector conn prefix key timeout)).

(** ** [integrityCollectorsFactory] *)
Definition NewIntegrityDataCollectorFactory (checkFunc : CheckFunc)
    (fileReadFunc : FileReadFunc W) : DataCollectorFactory W := mkDataCollectorFactory
  (fun path => Ok (NewIntegrityFileCollector fileReadFunc path))
  (fun etcdcli prefix key timeout =>
     if decide (key = "") then Ok (NewIntegrityEtcdAllCollector checkFunc etcdcli prefix timeout)
     else Ok (NewIntegrityEtcdKeyCollector checkFunc etcdcli prefix key timeout))
  (fun conn prefix key timeout =>
     if decide (key = "") then Ok (NewIntegrityTarantoolAllCollector checkFunc conn prefix timeout)
     else Ok (NewIntegrityTarantoolKeyCollector checkFunc conn prefix key timeout)).

(** ** [publishersFactory] *)
Definition NewDataPublisherFactory : DataPublisherFactory W := mkDataPublisherFactory
  (fun path => Ok (NewFileDataPublisher os_WriteFile path))
  (fun etcdcli prefix key timeout =>
     if decide (key = "") then Ok (NewEtcdAllDataPublisher fuel etcdcli prefix timeout)
     else Ok (NewEtcdKeyDataPublisher etcdcli prefix key timeout))
  (fun conn prefix key timeout =>
     if decide (key = "") then Ok (NewTarantoolAllDataPublisher conn prefix timeout)
     else Ok (NewTarantoolKeyDataPublisher conn prefix key timeout)).

(** ** [integrityPublishersFactory] *)
Definition NewIntegrityDataPublisherFactory (signFunc : SignFunc) : DataPublisherFactory W :=
  mkDataPublisherFactory
  (fun path => Err (Errorf "publishing into a file with integrity data is not supported" []))
  (fun etcdcli prefix key timeout =>
     if decide (key = "") then Ok (NewIntegrityEtcdAllDataPublisher fuel signFunc etcdcli prefix timeout)
     else Ok (NewIntegrityEtcdKeyDataPublisher signFunc etcdcli prefix key timeout))
  (fun conn prefix key timeout =>
     if decide (key = "") then Ok (NewIntegrityTarantoolAllDataPublisher signFunc conn prefix timeout)
     else Ok (NewIntegrityTarantoolKeyDataPublisher signFunc conn prefix key timeout)).

(** ** [yamlDataCollectorFactoryDecorator] *)
Context `{Yaml}.

Definition NewCollectorFactory (factory : DataCollectorFactory W) : CollectorFactory W :=
  mkCollectorFactory
  (fun path => rmap NewYamlCollectorDecorator (collector_NewFile factory path))
  (fun etcdcli prefix key timeout =>
     rmap NewYamlCollectorDecorator (collector_NewEtcd factory etcdcli prefix key timeout))
  (fun conn prefix key timeout =>
     rmap NewYamlCollectorDecorator (collector_NewTarantool factory conn prefix key timeout)).
End Factories.
