(* ===== verification/TarantoolProps.v ===== *)
(** * What the Tarantool collectors and publishers guarantee

    As for etcd, the documented behaviour of [config.storage.txn] is a class of
    laws over the content of the storage. *)
From S2P Require Import Prelude GoStrings Storages Value Config Cluster Sources.
From S2P Require Import Etcd EtcdProps Tarantool.

(** ** Requests

    What a request asks for, read back from the Go value: the operations of
    [on_success] and the revisions that [predicates] demands. *)
Inductive storage_op := SPut (path val : string) | SDelete (path : string) | SGet (path : string).

Definition read_op (v : value) : option storage_op :=
  match v with
  | VSlice [VStr name; VStr path] =>
      if decide (name = "delete") then Some (SDelete path)
      else if decide (name = "get") then Some (SGet path) else None
  | VSlice [VStr name; VStr path; VStr val] =>
      if decide (name = "put") then Some (SPut path val) else None
  | _ => None
  end.

Definition read_predicate (v : value) : option Cmp :=
  match v with
  | VSlice [VStr target; VStr op; VInt rev; VStr key] =>
      if decide (target = "mod_revision" /\ op = "==") then Some (mkCmp key rev) else None
  | _ => None
  end.

Definition request_part {A} (read : value -> option A) (name : string) (req : value) : list A :=
  match req with
  | VMap m => match index m name with VSlice l => omap read l | _ => [] end
  | _ => []
  end.

(** A path that ends with a slash stands for every key that starts with it. *)
Fixpoint ends_with_slash (s : string) : bool :=
  match s with
  | "" => false
  | String c "" => bool_decide (c = slash)
  | String _ s' => ends_with_slash s'
  end.

Definition run_storage_op (rev : Z) (s : store) (op : storage_op) : store :=
  match op with
  | SPut k v => <[k := (v, rev)]> s
  | SDelete path =>
      if ends_with_slash path then filter (fun kv => HasPrefix kv.1 path = false) s
      else delete path s
  | SGet _ => s
  end.

Class StorageLaws (W : Type) `{TarantoolConn W} (others : store -> store -> Prop) := {
  storage_view : W -> store;
  law_txn : forall ctx req w d w',
    conn_call "config.storage.txn" [req] ctx w = (Ok d, w') ->
    exists s rev, others (storage_view w) s /\
      storage_view w' =
        if forallb (cmp_holds s) (request_part read_predicate "predicates" req)
        then fold_left (run_storage_op rev) (request_part read_op "on_success" req) s
        else s
}.

Lemma ends_with_slash_app a b : b <> "" -> ends_with_slash (a +:+ b) = ends_with_slash b.
Proof.
  intros Hb. induction a as [|c a IH]; [done|]. simpl. rewrite IH.
  destruct (a +:+ b) eqn:E; [|done]. destruct a, b; done.
Qed.

Lemma lookup_delete_prefix (s : store) rev p k :
  ends_with_slash p = true ->
  run_storage_op rev s (SDelete p) !! k = if HasPrefix k p then None else s !! k.
Proof.
  intros Hp. simpl. rewrite Hp. destruct (HasPrefix k p) eqn:E.
  - apply map_lookup_filter_None. right. simpl. intros x _. by rewrite E.
  - destruct (s !! k) as [x|] eqn:Es.
    + by apply map_lookup_filter_Some.
    + apply map_lookup_filter_None. by left.
Qed.

Lemma config_prefix_slash p : ends_with_slash (getConfigPrefix p) = true.
Proof. unfold getConfigPrefix. by rewrite ends_with_slash_app. Qed.
Lemma hashes_prefix_slash p : ends_with_slash (getHashesPrefix p) = true.
Proof. unfold getHashesPrefix. by rewrite ends_with_slash_app. Qed.
Lemma sign_prefix_slash p : ends_with_slash (getSignPrefix p) = true.
Proof. unfold getSignPrefix. by rewrite ends_with_slash_app. Qed.

Section Publish.
Context {W : Type} `{TC : TarantoolConn W} `{GoMapOrder} {others : store -> store -> Prop}
  {SL : StorageLaws W others}.

Lemma publish_txn_success txn timeout w w' :
  publish_txn txn timeout w = (None, w') ->
  exists s rev, others (storage_view w) s /\
    storage_view w' =
      if forallb (cmp_holds s) (request_part read_predicate "predicates" txn)
      then fold_left (run_storage_op rev) (request_part read_op "on_success" txn) s else s.
Proof.
  unfold publish_txn, tarantoolCall.
  destruct (conn_call _ _ _ w) as [[d|] w1] eqn:E; [|done]. intros [= <-]. by eapply law_txn.
Qed.

Lemma txn_request_parts ops :
  request_part read_predicate "predicates" (txn_request ops) = [] /\
  request_part read_op "on_success" (txn_request ops) = omap read_op ops.
Proof. by split. Qed.

Lemma read_put_hashes p hashes :
  omap read_op (put_signed_hashes p "all" hashes) =
  map (fun kv => SPut (getHashesKey p kv.1 "all") kv.2) (range_map hashes).
Proof.
  unfold put_signed_hashes. induction (range_map hashes) as [|x l IH]; [done|].
  cbn [map]. by rewrite <-IH.
Qed.

Lemma lookup_put_signed rev p hashes (s : store) k :
  plain_names hashes ->
  fold_left (run_storage_op rev)
    (map (fun kv => SPut (getHashesKey p kv.1 "all") kv.2) (range_map hashes)) s !! k =
  match hash_keys p "all" hashes !! k with Some v => Some (v, rev) | None => s !! k end.
Proof.
  intros Hpl.
  assert (forall (l : list (string * string)) s, fold_left (run_storage_op rev)
    (map (fun kv => SPut (getHashesKey p kv.1 "all") kv.2) l) s =
    fold_left (fun (m : store) kv => <[getHashesKey p kv.1 "all" := (kv.2, rev)]> m) l s) as E.
  { induction l as [|x l IH]; intros s0; simpl; [done|]. apply IH. }
  rewrite E.
  destruct (fold_insert_lookup (fun kv => getHashesKey p kv.1 "all")
    (fun kv : string * string => (kv.2, rev)) (range_map hashes) s (hash_key_names p hashes Hpl))
    as [Hin Hout].
  destruct (hash_keys p "all" hashes !! k) as [v|] eqn:Hk.
  - apply hash_keys_lookup in Hk as (h & -> & Hh); [|done]. apply elem_of_range_map in Hh.
    apply (Hin (h, v) Hh).
  - apply Hout. intros ([h v] & -> & He)%list_elem_of_fmap. apply elem_of_range_map in He.
    assert (hash_keys p "all" hashes !! getHashesKey p h "all" = Some v)
      by (apply hash_keys_lookup; eauto). simpl in *. congruence.
Qed.

Lemma signed_storage_ops (s : store) p data sig hashes rev :
  plain_names hashes ->
  signed_store
    (fold_left (run_storage_op rev)
      ([SDelete (getConfigPrefix p); SPut (getConfigKey p "all") data;
        SDelete (getHashesPrefix p)]
       ++ map (fun kv => SPut (getHashesKey p kv.1 "all") kv.2) (range_map hashes)
       ++ [SDelete (getSignPrefix p); SPut (getSignKey p "all") sig]) s)
    p data sig (hash_keys p "all" hashes) rev.
Proof.
  intros Hpl. rewrite !fold_left_app. cbn [fold_left].
  set (s1 := run_storage_op rev (run_storage_op rev (run_storage_op rev s _) _)
    (SDelete (getHashesPrefix p))).
  set (s2 := fold_left (run_storage_op rev) _ s1).
  assert (forall k, s1 !! k = if HasPrefix k (getHashesPrefix p) then None
    else if decide (k = getConfigKey p "all") then Some (data, rev)
    else if HasPrefix k (getConfigPrefix p) then None else s !! k) as H1.
  { intros k. unfold s1. rewrite lookup_delete_prefix by apply hashes_prefix_slash.
    destruct (HasPrefix k (getHashesPrefix p)); [done|]. cbn [run_storage_op].
    case_decide as E; [subst; by rewrite lookup_insert_eq|].
    rewrite lookup_insert_ne by done.
    exact (lookup_delete_prefix s rev _ k (config_prefix_slash p)). }
  assert (forall k, run_storage_op rev (run_storage_op rev s2 (SDelete (getSignPrefix p)))
    (SPut (getSignKey p "all") sig) !! k =
    if decide (k = getSignKey p "all") then Some (sig, rev)
    else if HasPrefix k (getSignPrefix p) then None
    else match hash_keys p "all" hashes !! k with Some v => Some (v, rev) | None => s1 !! k end)
    as H2.
  { intros k. change (run_storage_op rev ?x (SPut ?a ?b)) with (<[a := (b, rev)]> x).
    case_decide as E; [subst; by rewrite lookup_insert_eq|].
    rewrite lookup_insert_ne by done.
    rewrite (lookup_delete_prefix s2 rev _ k (sign_prefix_slash p)).
    destruct (HasPrefix k (getSignPrefix p)); [done|]. by apply lookup_put_signed. }
  assert (forall k, HasPrefix k (getConfigPrefix p) = true ->
    HasPrefix k (getSignPrefix p) = false /\ HasPrefix k (getHashesPrefix p) = false /\
    hash_keys p "all" hashes !! k = None /\ k <> getSignKey p "all") as Hc.
  { intros k [r ->]%HasPrefix_true. split_and!.
    - destruct (HasPrefix _ _) eqn:E; [|done]. apply HasPrefix_true in E as [r' E].
      by apply (config_not_sign p r r') in E.
    - destruct (HasPrefix _ _) eqn:E; [|done]. apply HasPrefix_true in E as [r' E].
      by apply (config_not_hashes p r r') in E.
    - destruct (hash_keys _ _ _ !! _) eqn:E; [|done].
      apply hash_keys_lookup in E as (h & E & _); [|done]. by apply (config_not_hashes p r) in E.
    - apply (config_not_sign p r). }
  unfold signed_store. split_and!.
  - destruct (Hc _ (HasPrefix_config p "all")) as (E1 & E2 & E3 & E4).
    by rewrite H2, decide_False, E1, E3, H1, E2, decide_True by done.
  - by rewrite H2, decide_True.
  - intros k Hk Hne. destruct (Hc _ Hk) as (E1 & E2 & E3 & E4).
    by rewrite H2, decide_False, E1, E3, H1, E2, decide_False, Hk by done.
  - intros k Hk Hne. by rewrite H2, decide_False, Hk by done.
  - intros k Hk. rewrite H2. pose proof Hk as [r ->]%HasPrefix_true.
    rewrite decide_False by apply hashes_not_sign.
    destruct (HasPrefix _ (getSignPrefix p)) eqn:E.
    { apply HasPrefix_true in E as [r' E]. by apply hashes_not_sign in E. }
    destruct (hash_keys _ _ _ !! _); [done|]. by rewrite H1, Hk.
Qed.

(** When TarantoolAllDataPublisher returns nil the storage has the data
    under the target key and nothing else under the prefix; with a signature
    also exactly the new hashes and the new signature, although deletions and
    puts of the one transaction interleave. *)
Theorem tarantool_publish_all_replaces signFunc p timeout data w w' :
  TarantoolAllDataPublisher_Publish signFunc p timeout 0 data w = (None, w') ->
  exists s rev, others (storage_view w) s /\
    match signFunc with
    | None => forall k, storage_view w' !! k =
        if decide (k = getConfigKey p "all") then Some (default "" data, rev)
        else if HasPrefix k (getConfigPrefix p) then None else s !! k
    | Some sign => exists hashes sig, sign data = Ok (hashes, sig) /\
        (plain_names hashes ->
         signed_store (storage_view w') p (default "" data) sig (hash_keys p "all" hashes) rev)
    end.
Proof.
  unfold TarantoolAllDataPublisher_Publish. rewrite decide_False by (intros Hne; by apply Hne).
  destruct signFunc as [sign|].
  - destruct (sign data) as [[hashes sig]|] eqn:Es; [|done].
    intros (s & rev & Ho & Hv)%publish_txn_success. exists s, rev. split; [done|].
    exists hashes, sig. split; [done|]. intros Hpl.
    rewrite (proj1 (txn_request_parts _)), (proj2 (txn_request_parts _)) in Hv. simpl forallb in Hv.
    rewrite Hv, !omap_app, read_put_hashes. by apply signed_storage_ops.
  - intros (s & rev & Ho & Hv)%publish_txn_success. exists s, rev. split; [done|].
    rewrite (proj1 (txn_request_parts _)), (proj2 (txn_request_parts _)) in Hv. simpl forallb in Hv.
    assert (omap read_op [op_delete (getConfigPrefix p);
      op_put (getConfigKey p "all") (default "" data)] =
      [SDelete (getConfigPrefix p); SPut (getConfigKey p "all") (default "" data)]) as Eop
      by reflexivity.
    rewrite Eop in Hv. intros k. rewrite Hv. cbn [fold_left].
    change (run_storage_op rev ?x (SPut ?a ?b)) with (<[a := (b, rev)]> x). case_decide as E; [subst; by rewrite lookup_insert_eq|].
    rewrite lookup_insert_ne by done.
    exact (lookup_delete_prefix s rev _ k (config_prefix_slash p)).
Qed.

(** TarantoolKeyDataPublisher with a target revision writes the key only
    when the key has that revision, but returns nil in both cases as long as
    the call itself succeeds: a refused write is reported as a success. *)
Theorem tarantool_publish_key_ignores_revision p key timeout revision data w res w' :
  revision <> 0%Z ->
  TarantoolKeyDataPublisher_Publish None p key timeout revision data w = (res, w') ->
  (exists e, res = Some (Wrapf "failed to put data into tarantool: %w" [] e)) \/
  (res = None /\ exists s rev, others (storage_view w) s /\
    storage_view w' =
      if decide (revision_of s (getConfigKey p key) = revision)
      then <[getConfigKey p key := (default "" data, rev)]> s else s).
Proof.
  intros Hrev. unfold TarantoolKeyDataPublisher_Publish. rewrite decide_True by done.
  set (txn := VMap _). destruct (publish_txn txn timeout w) as [[e|] w1] eqn:E.
  - intros [= <- <-]. left. revert E. unfold publish_txn.
    destruct (tarantoolCall _ _ _ _) as [[|e'] ?]; [done|]. intros [= <- <-]. eauto.
  - intros [= <- <-]. right. split; [done|].
    apply publish_txn_success in E as (s & rev & Ho & Hv). exists s, rev. split; [done|].
    assert (request_part read_predicate "predicates" txn = [mkCmp (getConfigKey p key) revision])
      as Hp by reflexivity.
    assert (request_part read_op "on_success" txn = [SPut (getConfigKey p key) (default "" data)])
      as Hop by reflexivity.
    rewrite Hp, Hop in Hv. rewrite Hv. simpl. rewrite andb_true_r. unfold cmp_holds. simpl.
    case_bool_decide; case_decide; done.
Qed.
End Publish.

(** ** Gathering the parts of a key

    The reference, which does not mention nodes or updates: the values that the
    responses hold at a path, in order, and what a node of a key has to hold.
    An empty value or signature never replaces another one, and an empty
    signature counts as none; the last hash of a name wins. *)
Definition entries_at (path : string) (items : list txn_entry) : list string :=
  omap (fun d => if decide (te_path d = path) then Some (te_value d) else None) items.

Definition last_nonempty (l : list string) : string :=
  default "" (last (filter (fun v => v <> "") l)).

Record node_parts (p key : string) (items : list txn_entry) (n : valueNode) : Prop := {
  parts_value : node_value n = last_nonempty (entries_at (getConfigKey p key) items);
  parts_sig : default "" (node_sig n) = last_nonempty (entries_at (getSignKey p key) items);
  parts_hashes : forall h, default ∅ (node_hashes n) !! h =
    if no_char slash h then last (entries_at (getHashesKey p h key) items) else None
}.

Lemma entries_at_snoc path items d :
  entries_at path (items ++ [d]) =
  entries_at path items ++ (if decide (te_path d = path) then [te_value d] else []).
Proof. unfold entries_at. rewrite omap_app. simpl. by case_decide. Qed.

Lemma entries_at_here path items d :
  te_path d = path -> entries_at path (items ++ [d]) = entries_at path items ++ [te_value d].
Proof. intros E. by rewrite entries_at_snoc, decide_True. Qed.

Lemma entries_at_elsewhere path items d :
  te_path d <> path -> entries_at path (items ++ [d]) = entries_at path items.
Proof. intros E. by rewrite entries_at_snoc, decide_False, app_nil_r. Qed.

Lemma last_nonempty_snoc l v :
  last_nonempty (l ++ [v]) = if decide (v = "") then last_nonempty l else v.
Proof.
  unfold last_nonempty. rewrite filter_app. destruct (decide (v = "")) as [->|Hv].
  - rewrite filter_cons_False, filter_nil, app_nil_r by (intros Hne; by apply Hne). done.
  - by rewrite filter_cons_True, filter_nil, last_snoc.
Qed.

Lemma getHashesKey_inj p h h' k k' :
  no_char slash h = true -> no_char slash h' = true ->
  getHashesKey p h k = getHashesKey p h' k' -> h = h' /\ k = k'.
Proof.
  intros Hh Hh' E. pose proof (parse_hash_key p h k Hh) as P.
  rewrite E, (parse_hash_key p h' k' Hh') in P. by simplify_eq.
Qed.

(** The path an update of a key was read from. *)
Definition update_path (p key : string) (u : node_update) : string :=
  match u with
  | UpdValue _ => getConfigKey p key
  | UpdHash h _ => getHashesKey p h key
  | UpdSig _ => getSignKey p key
  end.

Definition update_value (u : node_update) : string :=
  match u with UpdValue v | UpdHash _ v | UpdSig v => v end.

Definition update_plain (u : node_update) : Prop :=
  match u with UpdHash h _ => no_char slash h = true | _ => True end.

Lemma update_path_inj p k k' u u' :
  update_plain u -> update_plain u' -> update_path p k u = update_path p k' u' -> k = k'.
Proof.
  destruct u, u'; simpl; intros Hu Hu' E.
  - by apply getConfigKey_inj in E.
  - by apply config_not_hashes in E.
  - by apply config_not_sign in E.
  - symmetry in E. by apply config_not_hashes in E.
  - by apply getHashesKey_inj in E as [_ ?].
  - by apply hashes_not_sign in E.
  - symmetry in E. by apply config_not_sign in E.
  - symmetry in E. by apply hashes_not_sign in E.
  - by apply getSignKey_inj in E.
Qed.

Lemma classify_Some p d k u :
  classify p d = Some (k, u) ->
  te_path d = update_path p k u /\ te_value d = update_value u /\ update_plain u.
Proof.
  unfold classify. destruct (CutPrefix _ (getConfigPrefix p)) as [key|] eqn:E1.
  { intros [= <- <-]. by apply CutPrefix_Some in E1. }
  destruct (parseHashPath _ p) as [[h key]|] eqn:E2.
  { intros [= <- <-]. by apply parseHashPath_Some in E2 as [? ?]. }
  destruct (CutPrefix _ (getSignPrefix p)) as [key|] eqn:E3; [|done].
  intros [= <- <-]. by apply CutPrefix_Some in E3.
Qed.

Lemma classify_None p d k u :
  classify p d = None -> update_plain u -> te_path d <> update_path p k u.
Proof.
  unfold classify. destruct (CutPrefix _ (getConfigPrefix p)) as [key|] eqn:E1; [done|].
  destruct (parseHashPath _ p) as [[h key]|] eqn:E2; [done|].
  destruct (CutPrefix _ (getSignPrefix p)) as [key|] eqn:E3; [done|].
  intros _ Hu E. rewrite E in *. destruct u; simpl in *.
  - unfold getConfigKey in E1. by rewrite CutPrefix_app in E1.
  - by rewrite parse_hash_key in E2.
  - unfold getSignKey in E3. by rewrite CutPrefix_app in E3.
Qed.

(** An entry of no part of the key changes nothing of what the node holds. *)
Lemma parts_other p key items d n :
  (forall u, update_plain u -> te_path d <> update_path p key u) ->
  node_parts p key items n -> node_parts p key (items ++ [d]) n.
Proof.
  intros Hd [Hv Hs Hh]. split.
  - by rewrite entries_at_elsewhere by (by apply (Hd (UpdValue ""))).
  - by rewrite entries_at_elsewhere by (by apply (Hd (UpdSig ""))).
  - intros h. rewrite Hh. destruct (no_char slash h) eqn:E; [|done].
    by rewrite entries_at_elsewhere by (by apply (Hd (UpdHash h ""))).
Qed.

Lemma parts_update_value p key items d n v :
  te_path d = getConfigKey p key -> te_value d = v ->
  node_parts p key items n -> node_parts p key (items ++ [d]) (update_node n (UpdValue v)).
Proof.
  intros Hp <- [Hv Hs Hh]. cbn [update_node]. split.
  - rewrite entries_at_here, last_nonempty_snoc by done. by case_decide.
  - rewrite entries_at_elsewhere by (rewrite Hp; apply (config_not_sign p key)). by case_decide.
  - intros h. rewrite entries_at_elsewhere by (rewrite Hp; apply (config_not_hashes p key)).
    case_decide; apply Hh.
Qed.

Lemma parts_update_hash p key items d n g v :
  te_path d = getHashesKey p g key -> te_value d = v -> no_char slash g = true ->
  node_parts p key items n -> node_parts p key (items ++ [d]) (update_node n (UpdHash g v)).
Proof.
  intros Hp <- Hg [Hv Hs Hh].
  split; [| |intros h]; cbn [update_node node_value node_hashes node_sig from_option id].
  - rewrite entries_at_elsewhere; [done|]. rewrite Hp. intros E. symmetry in E.
    by apply config_not_hashes in E.
  - rewrite entries_at_elsewhere; [done|]. rewrite Hp. apply hashes_not_sign.
  - destruct (decide (g = h)) as [<-|Hne].
    + by rewrite Hg, entries_at_here, last_snoc, lookup_insert_eq.
    + rewrite lookup_insert_ne, Hh by done. destruct (no_char slash h) eqn:E; [|done].
      rewrite entries_at_elsewhere; [done|]. rewrite Hp. by intros [? _]%getHashesKey_inj.
Qed.

Lemma parts_update_sig p key items d n v :
  te_path d = getSignKey p key -> te_value d = v ->
  node_parts p key items n -> node_parts p key (items ++ [d]) (update_node n (UpdSig v)).
Proof.
  intros Hp <- [Hv Hs Hh]. cbn [update_node]. split.
  - rewrite entries_at_elsewhere; [by case_decide|]. rewrite Hp. intros E. symmetry in E.
    by apply config_not_sign in E.
  - rewrite entries_at_here, last_nonempty_snoc by done. by case_decide.
  - intros h. rewrite entries_at_elsewhere; [case_decide; apply Hh|]. rewrite Hp. intros E.
    symmetry in E. by apply hashes_not_sign in E.
Qed.

Lemma parts_update p key items d n u :
  te_path d = update_path p key u -> te_value d = update_value u -> update_plain u ->
  node_parts p key items n -> node_parts p key (items ++ [d]) (update_node n u).
Proof.
  destruct u; simpl; intros.
  - by apply parts_update_value.
  - by apply parts_update_hash.
  - by apply parts_update_sig.
Qed.

Definition empty_node : valueNode := mkNode "" None None.

(** A new node holds what an update of the empty node would hold. *)
Lemma parts_new p key items u :
  node_parts p key items (update_node empty_node u) -> node_parts p key items (new_node u).
Proof.
  destruct u as [v|h v|v]; simpl; try case_decide; try subst v; try done;
    intros [Hv Hs Hh]; by split.
Qed.

Lemma gather_parts p items key :
  node_parts p key items
    (default empty_node ((fold_left (gather_step p) items ([], ∅)).2 !! key)).
Proof.
  revert key. induction items as [|d items IH] using rev_ind; intros key.
  { split; [done|done|]. intros h. simpl. rewrite lookup_empty. by destruct (no_char _ _). }
  rewrite fold_left_app. specialize (IH key). destruct (fold_left _ _ _) as [keys nodes].
  cbn [fold_left]. unfold gather_step. cbn [fst snd] in *.
  destruct (classify p d) as [[k u]|] eqn:E.
  - apply classify_Some in E as (Hp & Hu & Hpl). destruct (decide (k = key)) as [->|Hne].
    + destruct (nodes !! key) as [n|] eqn:En; cbn [snd]; rewrite lookup_insert_eq; cbn [default] in *.
      * by apply parts_update.
      * by apply parts_new, parts_update.
    + assert (node_parts p key (items ++ [d]) (default empty_node (nodes !! key))).
      { apply parts_other; [|done]. intros u' Hpl' E. apply Hne. rewrite Hp in E.
        by apply update_path_inj in E. }
      destruct (nodes !! k); cbn [snd]; by rewrite lookup_insert_ne.
  - cbn [snd]. apply parts_other; [|done]. intros u Hpl. by apply classify_None.
Qed.

(** [keys] lists each key of [nodes] once. *)
Lemma gather_keys p items s :
  NoDup s.1 -> (forall k, k ∈ s.1 <-> is_Some (s.2 !! k)) ->
  let s' := fold_left (gather_step p) items s in
  NoDup s'.1 /\ (forall k, k ∈ s'.1 <-> is_Some (s'.2 !! k)).
Proof.
  intros Hnd Hk. cbn zeta.
  apply (fold_left_inv (fun s => NoDup s.1 /\ forall k, k ∈ s.1 <-> is_Some (s.2 !! k))); [|done].
  clear. intros [keys nodes] d _ [Hnd Hk]. unfold gather_step. cbn [fst snd] in *.
  destruct (classify p d) as [[k u]|]; [|done].
  destruct (nodes !! k) as [n|] eqn:E; cbn [fst snd].
  - split; [done|]. intros k'. rewrite Hk. destruct (decide (k = k')) as [<-|Hne].
    + rewrite lookup_insert_eq, E. split; eauto.
    + by rewrite lookup_insert_ne.
  - split.
    + apply NoDup_app. split; [done|]. split; [|apply NoDup_singleton].
      intros x Hx ->%list_elem_of_singleton. apply Hk in Hx as [? ?]. congruence.
    + intros k'. rewrite elem_of_app, list_elem_of_singleton, Hk.
      destruct (decide (k = k')) as [<-|Hne].
      * rewrite lookup_insert_eq. split; eauto.
      * rewrite lookup_insert_ne by done. naive_solver.
Qed.

Lemma check_gathered_result checkFunc p nodes keys acc :
  match for_each (check_gathered checkFunc p nodes) keys acc with
  | Ok ds =>
      (forall key, key ∈ keys -> let n := default empty_node (nodes !! key) in
         node_value n <> "" -> checkFunc (node_value n) (node_hashes n) (node_sig n) = None) /\
      ds = acc ++ omap (fun key =>
        let n := default empty_node (nodes !! key) in
        if decide (node_value n = "") then None
        else Some (mkData (getConfigKey p key) (node_value n) 0)) keys
  | Err e => exists key err, let n := default empty_node (nodes !! key) in
      node_value n <> "" /\
      checkFunc (node_value n) (node_hashes n) (node_sig n) = Some err /\
      e = Wrapf "failed to perform integrity checks for key %q: %w" [getConfigKey p key] err
  end.
Proof.
  revert acc. induction keys as [|key keys IH]; intros acc.
  { split; [|by rewrite app_nil_r]. intros ? He. by apply not_elem_of_nil in He. }
  cbn [for_each]. unfold check_gathered at 2. fold empty_node.
  set (n := default empty_node (nodes !! key)).
  destruct (decide (node_value n = "")) as [Ev|Ev];
    [|destruct (checkFunc (node_value n) (node_hashes n) (node_sig n)) as [err|] eqn:Ec];
    cbn [rbind].
  - specialize (IH acc). destruct (for_each _ _ _) as [ds|e]; [|done]. destruct IH as [Hc ->].
    split; [intros key' [->|Hin]%elem_of_cons; [done|by apply Hc]|].
    simpl. fold n. by rewrite decide_True.
  - exists key, err. by fold n.
  - specialize (IH (acc ++ [mkData (getConfigKey p key) (node_value n) 0])).
    destruct (for_each _ _ _) as [ds|e]; [|done]. destruct IH as [Hc ->].
    split; [intros key' [->|Hin]%elem_of_cons; [done|by apply Hc]|].
    rewrite <-app_assoc. simpl. fold n. by rewrite decide_False.
Qed.

Lemma gathered_sources p (nodes : gmap string valueNode) keys :
  NoDup keys ->
  NoDup (Source <$> omap (fun key =>
    let n := default empty_node (nodes !! key) in
    if decide (node_value n = "") then None
    else Some (mkData (getConfigKey p key) (node_value n) 0)) keys).
Proof.
  induction 1 as [|key keys Hkey Hnd IH]; [constructor|]. simpl. case_decide; [done|].
  rewrite fmap_cons. apply NoDup_cons. split; [|done]. simpl.
  intros (d & E & Hd)%list_elem_of_fmap. apply Hkey.
  apply list_elem_of_omap in Hd as (key' & Hin & Ed). cbn zeta in Ed. case_decide; simplify_eq.
  simpl in E. by apply getConfigKey_inj in E as ->.
Qed.


(** ** A storage that keeps the law *)
Definition sim_tarantool : TarantoolConn sim := {|
  conn_call f args _ w :=
    match args with
    | [req] =>
        let ok := forallb (cmp_holds (sim_store w))
                    (request_part read_predicate "predicates" req) in
        let rev := (sim_rev w + 1)%Z in
        (Ok [[VNil]],
         mkSim (if ok then fold_left (run_storage_op rev) (request_part read_op "on_success" req)
                             (sim_store w) else sim_store w) rev)
    | _ => (Ok [[VNil]], w)
    end;
  decode_get _ := Ok [];
  decode_txn _ := Ok [];
  print_data _ := "";
  print_row _ := "";
  print_get _ := ""
|}.

Definition sim_storage_laws : @StorageLaws sim sim_tarantool eq.
Proof.
  refine (@Build_StorageLaws sim sim_tarantool eq sim_store _).
  intros ctx req w d w' [= <- <-]. eexists _, _. split; reflexivity.
Defined.

Definition old_storage : sim := mkSim {[ "/p/config/a" := ("a: 0", 3%Z) ]} 7.

Lemma tarantool_publish_all_replaces_witness :
  exists w', @TarantoolAllDataPublisher_Publish sim sim_tarantool _ None "/p" 0 0 (Some "a: 1")
    old_storage = (None, w') /\ sim_store w' !! "/p/config/a" = None.
Proof.
  eexists. split; [reflexivity|].
  destruct (@tarantool_publish_all_replaces sim sim_tarantool _ eq sim_storage_laws None "/p" 0
    (Some "a: 1") old_storage _ eq_refl) as (s & rev & _ & Hview).
  exact (Hview "/p/config/a").
Defined.

Lemma tarantool_publish_key_ignores_revision_witness :
  exists w', @TarantoolKeyDataPublisher_Publish sim sim_tarantool _ None "/p" "a" 0 2 (Some "x")
    old_storage = (None, w') /\
    exists s, sim_store old_storage = s /\ revision_of s (getConfigKey "/p" "a") <> 2%Z.
Proof.
  eexists. split; [reflexivity|].
  destruct (@tarantool_publish_key_ignores_revision sim sim_tarantool _ eq sim_storage_laws
    "/p" "a" 0 2 (Some "x") old_storage None _ ltac:(discriminate) eq_refl)
    as [[e He]|(_ & s & rev & Hs & _)]; [discriminate He|].
  exists s. split; [exact Hs|]. rewrite <-Hs. vm_compute. discriminate.
Defined.

Definition sample_response : tarantoolTxnGetResponse :=
  [[mkTxnEntry "/p/config/all" "a: 1"]; [mkTxnEntry "/p/hashes/sha256/all" "a: 1"];
   [mkTxnEntry "/p/sig/all" "sig"]].

