(* ===== verification/TarantoolSchema.v ===== *)
(** * The schema of a Tarantool configuration

    [TarantoolSchema] of [lib/cluster/paths.go], in pieces: the validator of every
    path of a configuration, which the cluster commands validate with. *)
From S2P Require Import Prelude Value Validators.

Definition record (fields : list (string * Validator)) : Validator := RecordValidator (list_to_map fields).

Definition TarantoolSchema_1 : list SchemaPath := [
    mkSchemaPath ["app"; "cfg"] (MapValidator StringValidator AnyValidator);
    mkSchemaPath ["app"; "file"] StringValidator;
    mkSchemaPath ["app"; "module"] StringValidator;
    mkSchemaPath ["audit_log"; "extract_key"] BooleanValidator;
    mkSchemaPath ["audit_log"; "file"] StringValidator;
    mkSchemaPath ["audit_log"; "filter"] (ArrayValidator (AllowedValidator StringValidator
      [LStr "audit_enable"; LStr "custom"; LStr "auth_ok"; LStr "auth_fail"; LStr "disconnect";
      LStr "user_create"; LStr "user_drop"; LStr "role_create"; LStr "role_drop"; LStr "user_enable";
      LStr "user_disable"; LStr "user_grant_rights"; LStr "user_revoke_rights"; LStr "role_grant_rights";
      LStr "role_revoke_rights"; LStr "password_change"; LStr "access_denied"; LStr "eval"; LStr "call";
      LStr "space_select"; LStr "space_create"; LStr "space_alter"; LStr "space_drop"; LStr "space_insert";
      LStr "space_replace"; LStr "space_delete"; LStr "none"; LStr "all"; LStr "audit"; LStr "auth";
      LStr "priv"; LStr "ddl"; LStr "dml"; LStr "data_operations"; LStr "compatibility"]));
    mkSchemaPath ["audit_log"; "format"] (AllowedValidator StringValidator [LStr "plain"; LStr "json";
      LStr "csv"]);
    mkSchemaPath ["audit_log"; "nonblock"] BooleanValidator;
    mkSchemaPath ["audit_log"; "pipe"] StringValidator;
    mkSchemaPath ["audit_log"; "spaces"] (ArrayValidator StringValidator);
    mkSchemaPath ["audit_log"; "syslog"; "facility"] StringValidator;
    mkSchemaPath ["audit_log"; "syslog"; "identity"] StringValidator;
    mkSchemaPath ["audit_log"; "syslog"; "server"] StringValidator;
    mkSchemaPath ["audit_log"; "to"] (AllowedValidator StringValidator [LStr "devnull"; LStr "file";
      LStr "pipe"; LStr "syslog"]);
    mkSchemaPath ["compat"; "binary_data_decoding"] (AllowedValidator StringValidator [LStr "old";
      LStr "new"]);
    mkSchemaPath ["compat"; "box_cfg_replication_sync_timeout"] (AllowedValidator StringValidator [LStr "old";
      LStr "new"]);
    mkSchemaPath ["compat"; "box_error_serialize_verbose"] (AllowedValidator StringValidator [LStr "old";
      LStr "new"]);
    mkSchemaPath ["compat"; "box_error_unpack_type_and_code"] (AllowedValidator StringValidator [LStr "old";
      LStr "new"])].

Definition TarantoolSchema_2 : list SchemaPath := [
    mkSchemaPath ["compat"; "box_info_cluster_meaning"] (AllowedValidator StringValidator [LStr "old";
      LStr "new"]);
    mkSchemaPath ["compat"; "box_session_push_deprecation"] (AllowedValidator StringValidator [LStr "old";
      LStr "new"]);
    mkSchemaPath ["compat"; "box_space_execute_priv"] (AllowedValidator StringValidator [LStr "old";
      LStr "new"]);
    mkSchemaPath ["compat"; "box_space_max"] (AllowedValidator StringValidator [LStr "old"; LStr "new"]);
    mkSchemaPath ["compat"; "box_tuple_extension"] (AllowedValidator StringValidator [LStr "old"; LStr "new"]);
    mkSchemaPath ["compat"; "box_tuple_new_vararg"] (AllowedValidator StringValidator [LStr "old";
      LStr "new"]);
    mkSchemaPath ["compat"; "c_func_iproto_multireturn"] (AllowedValidator StringValidator [LStr "old";
      LStr "new"]);
    mkSchemaPath ["compat"; "fiber_channel_close_mode"] (AllowedValidator StringValidator [LStr "old";
      LStr "new"]);
    mkSchemaPath ["compat"; "fiber_slice_default"] (AllowedValidator StringValidator [LStr "old"; LStr "new"]);
    mkSchemaPath ["compat"; "json_escape_forward_slash"] (AllowedValidator StringValidator [LStr "old";
      LStr "new"]);
    mkSchemaPath ["compat"; "sql_priv"] (AllowedValidator StringValidator [LStr "old"; LStr "new"]);
    mkSchemaPath ["compat"; "sql_seq_scan_default"] (AllowedValidator StringValidator [LStr "old";
      LStr "new"]);
    mkSchemaPath ["compat"; "yaml_pretty_multiline"] (AllowedValidator StringValidator [LStr "old";
      LStr "new"]);
    mkSchemaPath ["config"; "context"] (MapValidator StringValidator (record [("file", StringValidator);
      ("from", AllowedValidator StringValidator [LStr "env"; LStr "file"]); ("rstrip", BooleanValidator);
      ("env", StringValidator)]));
    mkSchemaPath ["config"; "etcd"; "endpoints"] (ArrayValidator StringValidator);
    mkSchemaPath ["config"; "etcd"; "http"; "request"; "timeout"] NumberValidator;
    mkSchemaPath ["config"; "etcd"; "http"; "request"; "unix_socket"] StringValidator;
    mkSchemaPath ["config"; "etcd"; "password"] StringValidator].

Definition TarantoolSchema_3 : list SchemaPath := [
    mkSchemaPath ["config"; "etcd"; "prefix"] StringValidator;
    mkSchemaPath ["config"; "etcd"; "ssl"; "ca_file"] StringValidator;
    mkSchemaPath ["config"; "etcd"; "ssl"; "ca_path"] StringValidator;
    mkSchemaPath ["config"; "etcd"; "ssl"; "ssl_key"] StringValidator;
    mkSchemaPath ["config"; "etcd"; "ssl"; "verify_host"] BooleanValidator;
    mkSchemaPath ["config"; "etcd"; "ssl"; "verify_peer"] BooleanValidator;
    mkSchemaPath ["config"; "etcd"; "username"] StringValidator;
    mkSchemaPath ["config"; "etcd"; "watchers"; "reconnect_max_attempts"] IntegerValidator;
    mkSchemaPath ["config"; "etcd"; "watchers"; "reconnect_timeout"] NumberValidator;
    mkSchemaPath ["config"; "reload"] (AllowedValidator StringValidator [LStr "auto"; LStr "manual"]);
    mkSchemaPath ["config"; "storage"; "endpoints"] (ArrayValidator (record [("password", StringValidator);
      ("params", record [("ssl_password", StringValidator); ("ssl_key_file", StringValidator); ("transport",
      AllowedValidator StringValidator [LStr "plain"; LStr "ssl"]); ("ssl_password_file", StringValidator);
      ("ssl_cert_file", StringValidator); ("ssl_ciphers", StringValidator); ("ssl_ca_file",
      StringValidator)]); ("uri", StringValidator); ("login", StringValidator)]));
    mkSchemaPath ["config"; "storage"; "prefix"] StringValidator;
    mkSchemaPath ["config"; "storage"; "reconnect_after"] NumberValidator;
    mkSchemaPath ["config"; "storage"; "timeout"] NumberValidator;
    mkSchemaPath ["console"; "enabled"] BooleanValidator;
    mkSchemaPath ["console"; "socket"] StringValidator;
    mkSchemaPath ["credentials"; "roles"] (MapValidator StringValidator (record [("privileges", ArrayValidator
      (record [("sequences", ArrayValidator StringValidator); ("spaces", ArrayValidator StringValidator);
      ("sql", ArrayValidator (AllowedValidator StringValidator [LStr "all"])); ("lua_call", ArrayValidator
      (AllowedValidator StringValidator [LStr "all"])); ("universe", BooleanValidator); ("lua_eval",
      BooleanValidator); ("permissions", ArrayValidator (AllowedValidator StringValidator [LStr "read";
      LStr "write"; LStr "execute"; LStr "create"; LStr "alter"; LStr "drop"; LStr "usage"; LStr "session"]));
      ("functions", ArrayValidator StringValidator)])); ("roles", ArrayValidator StringValidator)]))].

Definition TarantoolSchema_4 : list SchemaPath := [
    mkSchemaPath ["credentials"; "users"] (MapValidator StringValidator (record [("password",
      StringValidator); ("roles", ArrayValidator StringValidator); ("privileges", ArrayValidator (record
      [("sequences", ArrayValidator StringValidator); ("spaces", ArrayValidator StringValidator); ("sql",
      ArrayValidator (AllowedValidator StringValidator [LStr "all"])); ("lua_call", ArrayValidator
      (AllowedValidator StringValidator [LStr "all"])); ("universe", BooleanValidator); ("lua_eval",
      BooleanValidator); ("permissions", ArrayValidator (AllowedValidator StringValidator [LStr "read";
      LStr "write"; LStr "execute"; LStr "create"; LStr "alter"; LStr "drop"; LStr "usage"; LStr "session"]));
      ("functions", ArrayValidator StringValidator)]))]));
    mkSchemaPath ["database"; "hot_standby"] BooleanValidator;
    mkSchemaPath ["database"; "instance_uuid"] StringValidator;
    mkSchemaPath ["database"; "mode"] (AllowedValidator StringValidator [LStr "ro"; LStr "rw"]);
    mkSchemaPath ["database"; "replicaset_uuid"] StringValidator;
    mkSchemaPath ["database"; "txn_isolation"] (AllowedValidator StringValidator [LStr "read-committed";
      LStr "read-confirmed"; LStr "best-effort"]);
    mkSchemaPath ["database"; "txn_timeout"] NumberValidator;
    mkSchemaPath ["database"; "use_mvcc_engine"] BooleanValidator;
    mkSchemaPath ["failover"; "call_timeout"] NumberValidator;
    mkSchemaPath ["failover"; "connect_timeout"] NumberValidator;
    mkSchemaPath ["failover"; "lease_interval"] NumberValidator;
    mkSchemaPath ["failover"; "probe_interval"] NumberValidator;
    mkSchemaPath ["failover"; "renew_interval"] NumberValidator;
    mkSchemaPath ["feedback"; "crashinfo"] BooleanValidator;
    mkSchemaPath ["feedback"; "enabled"] BooleanValidator;
    mkSchemaPath ["feedback"; "host"] StringValidator;
    mkSchemaPath ["feedback"; "interval"] NumberValidator;
    mkSchemaPath ["feedback"; "metrics_collect_interval"] NumberValidator;
    mkSchemaPath ["feedback"; "metrics_limit"] IntegerValidator;
    mkSchemaPath ["feedback"; "send_metrics"] BooleanValidator;
    mkSchemaPath ["fiber"; "io_collect_interval"] NumberValidator;
    mkSchemaPath ["fiber"; "slice"; "err"] NumberValidator;
    mkSchemaPath ["fiber"; "slice"; "warn"] NumberValidator;
    mkSchemaPath ["fiber"; "too_long_threshold"] NumberValidator].

Definition TarantoolSchema_5 : list SchemaPath := [
    mkSchemaPath ["fiber"; "top"; "enabled"] BooleanValidator;
    mkSchemaPath ["fiber"; "worker_pool_threads"] NumberValidator;
    mkSchemaPath ["flightrec"; "enabled"] BooleanValidator;
    mkSchemaPath ["flightrec"; "logs_log_level"] (AllowedValidator IntegerValidator [LInt 0; LInt 1; LInt 2;
      LInt 3; LInt 4; LInt 5; LInt 6; LInt 7]);
    mkSchemaPath ["flightrec"; "logs_max_msg_size"] IntegerValidator;
    mkSchemaPath ["flightrec"; "logs_size"] IntegerValidator;
    mkSchemaPath ["flightrec"; "metrics_interval"] NumberValidator;
    mkSchemaPath ["flightrec"; "metrics_period"] NumberValidator;
    mkSchemaPath ["flightrec"; "requests_max_req_size"] IntegerValidator;
    mkSchemaPath ["flightrec"; "requests_max_res_size"] IntegerValidator;
    mkSchemaPath ["flightrec"; "requests_size"] IntegerValidator;
    mkSchemaPath ["iproto"; "advertise"; "client"] StringValidator;
    mkSchemaPath ["iproto"; "advertise"; "peer"; "login"] StringValidator;
    mkSchemaPath ["iproto"; "advertise"; "peer"; "params"; "ssl_ca_file"] StringValidator;
    mkSchemaPath ["iproto"; "advertise"; "peer"; "params"; "ssl_cert_file"] StringValidator;
    mkSchemaPath ["iproto"; "advertise"; "peer"; "params"; "ssl_ciphers"] StringValidator;
    mkSchemaPath ["iproto"; "advertise"; "peer"; "params"; "ssl_key_file"] StringValidator;
    mkSchemaPath ["iproto"; "advertise"; "peer"; "params"; "ssl_password"] StringValidator;
    mkSchemaPath ["iproto"; "advertise"; "peer"; "params"; "ssl_password_file"] StringValidator;
    mkSchemaPath ["iproto"; "advertise"; "peer"; "params"; "transport"] (AllowedValidator StringValidator
      [LStr "plain"; LStr "ssl"]);
    mkSchemaPath ["iproto"; "advertise"; "peer"; "password"] StringValidator;
    mkSchemaPath ["iproto"; "advertise"; "peer"; "uri"] StringValidator;
    mkSchemaPath ["iproto"; "advertise"; "sharding"; "login"] StringValidator;
    mkSchemaPath ["iproto"; "advertise"; "sharding"; "params"; "ssl_ca_file"] StringValidator;
    mkSchemaPath ["iproto"; "advertise"; "sharding"; "params"; "ssl_cert_file"] StringValidator;
    mkSchemaPath ["iproto"; "advertise"; "sharding"; "params"; "ssl_ciphers"] StringValidator;
    mkSchemaPath ["iproto"; "advertise"; "sharding"; "params"; "ssl_key_file"] StringValidator;
    mkSchemaPath ["iproto"; "advertise"; "sharding"; "params"; "ssl_password"] StringValidator;
    mkSchemaPath ["iproto"; "advertise"; "sharding"; "params"; "ssl_password_file"] StringValidator;
    mkSchemaPath ["iproto"; "advertise"; "sharding"; "params"; "transport"] (AllowedValidator StringValidator
      [LStr "plain"; LStr "ssl"]);
    mkSchemaPath ["iproto"; "advertise"; "sharding"; "password"] StringValidator;
    mkSchemaPath ["iproto"; "advertise"; "sharding"; "uri"] StringValidator].

Definition TarantoolSchema_6 : list SchemaPath := [
    mkSchemaPath ["iproto"; "listen"] (ArrayValidator (record [("uri", StringValidator); ("params", record
      [("ssl_password", StringValidator); ("ssl_key_file", StringValidator); ("transport", AllowedValidator
      StringValidator [LStr "plain"; LStr "ssl"]); ("ssl_password_file", StringValidator); ("ssl_cert_file",
      StringValidator); ("ssl_ciphers", StringValidator); ("ssl_ca_file", StringValidator)])]));
    mkSchemaPath ["iproto"; "net_msg_max"] IntegerValidator;
    mkSchemaPath ["iproto"; "readahead"] IntegerValidator;
    mkSchemaPath ["iproto"; "threads"] IntegerValidator;
    mkSchemaPath ["log"; "file"] StringValidator;
    mkSchemaPath ["log"; "format"] (AllowedValidator StringValidator [LStr "plain"; LStr "json"]);
    mkSchemaPath ["log"; "level"] (AllowedValidator (SequenceValidator [NumberValidator; StringValidator])
      [LInt 0; LStr "fatal"; LInt 1; LStr "syserror"; LInt 2; LStr "error"; LInt 3; LStr "crit"; LInt 4;
      LStr "warn"; LInt 5; LStr "info"; LInt 6; LStr "verbose"; LInt 7; LStr "debug"]);
    mkSchemaPath ["log"; "modules"] (MapValidator StringValidator (SequenceValidator [NumberValidator;
      StringValidator]));
    mkSchemaPath ["log"; "nonblock"] BooleanValidator;
    mkSchemaPath ["log"; "pipe"] StringValidator;
    mkSchemaPath ["log"; "syslog"; "facility"] StringValidator;
    mkSchemaPath ["log"; "syslog"; "identity"] StringValidator;
    mkSchemaPath ["log"; "syslog"; "server"] StringValidator;
    mkSchemaPath ["log"; "to"] (AllowedValidator StringValidator [LStr "stderr"; LStr "file"; LStr "pipe";
      LStr "syslog"]);
    mkSchemaPath ["memtx"; "allocator"] (AllowedValidator StringValidator [LStr "small"; LStr "system"]);
    mkSchemaPath ["memtx"; "max_tuple_size"] IntegerValidator;
    mkSchemaPath ["memtx"; "memory"] IntegerValidator;
    mkSchemaPath ["memtx"; "min_tuple_size"] IntegerValidator;
    mkSchemaPath ["memtx"; "slab_alloc_factor"] NumberValidator;
    mkSchemaPath ["memtx"; "slab_alloc_granularity"] IntegerValidator;
    mkSchemaPath ["memtx"; "sort_threads"] IntegerValidator].

Definition TarantoolSchema_7 : list SchemaPath := [
    mkSchemaPath ["metrics"; "exclude"] (ArrayValidator (AllowedValidator StringValidator [LStr "all";
      LStr "network"; LStr "operations"; LStr "system"; LStr "replicas"; LStr "info"; LStr "slab";
      LStr "runtime"; LStr "memory"; LStr "spaces"; LStr "fibers"; LStr "cpu"; LStr "vinyl"; LStr "memtx";
      LStr "luajit"; LStr "clock"; LStr "event_loop"]));
    mkSchemaPath ["metrics"; "include"] (ArrayValidator (AllowedValidator StringValidator [LStr "all";
      LStr "network"; LStr "operations"; LStr "system"; LStr "replicas"; LStr "info"; LStr "slab";
      LStr "runtime"; LStr "memory"; LStr "spaces"; LStr "fibers"; LStr "cpu"; LStr "vinyl"; LStr "memtx";
      LStr "luajit"; LStr "clock"; LStr "event_loop"]));
    mkSchemaPath ["metrics"; "labels"] (MapValidator StringValidator StringValidator);
    mkSchemaPath ["process"; "background"] BooleanValidator;
    mkSchemaPath ["process"; "coredump"] BooleanValidator;
    mkSchemaPath ["process"; "pid_file"] StringValidator;
    mkSchemaPath ["process"; "strip_core"] BooleanValidator;
    mkSchemaPath ["process"; "title"] StringValidator;
    mkSchemaPath ["process"; "username"] StringValidator;
    mkSchemaPath ["process"; "work_dir"] StringValidator;
    mkSchemaPath ["replication"; "anon"] BooleanValidator;
    mkSchemaPath ["replication"; "bootstrap_strategy"] (AllowedValidator StringValidator [LStr "auto";
      LStr "config"; LStr "supervised"; LStr "legacy"]);
    mkSchemaPath ["replication"; "connect_timeout"] NumberValidator;
    mkSchemaPath ["replication"; "election_fencing_mode"] (AllowedValidator StringValidator [LStr "off";
      LStr "soft"; LStr "strict"]);
    mkSchemaPath ["replication"; "election_mode"] (AllowedValidator StringValidator [LStr "off"; LStr "voter";
      LStr "manual"; LStr "candidate"]);
    mkSchemaPath ["replication"; "election_timeout"] NumberValidator;
    mkSchemaPath ["replication"; "failover"] (AllowedValidator StringValidator [LStr "off"; LStr "manual";
      LStr "election"; LStr "supervised"]);
    mkSchemaPath ["replication"; "peers"] (ArrayValidator StringValidator);
    mkSchemaPath ["replication"; "skip_conflict"] BooleanValidator].

Definition TarantoolSchema_8 : list SchemaPath := [
    mkSchemaPath ["replication"; "sync_lag"] NumberValidator;
    mkSchemaPath ["replication"; "sync_timeout"] NumberValidator;
    mkSchemaPath ["replication"; "synchro_quorum"] (SequenceValidator [NumberValidator; StringValidator]);
    mkSchemaPath ["replication"; "synchro_timeout"] NumberValidator;
    mkSchemaPath ["replication"; "threads"] IntegerValidator;
    mkSchemaPath ["replication"; "timeout"] NumberValidator;
    mkSchemaPath ["roles"] (ArrayValidator StringValidator);
    mkSchemaPath ["roles_cfg"] (MapValidator StringValidator AnyValidator);
    mkSchemaPath ["security"; "auth_delay"] NumberValidator;
    mkSchemaPath ["security"; "auth_retries"] IntegerValidator;
    mkSchemaPath ["security"; "auth_type"] (AllowedValidator StringValidator [LStr "chap-sha1";
      LStr "pap-sha256"]);
    mkSchemaPath ["security"; "disable_guest"] BooleanValidator;
    mkSchemaPath ["security"; "password_enforce_digits"] BooleanValidator;
    mkSchemaPath ["security"; "password_enforce_lowercase"] BooleanValidator;
    mkSchemaPath ["security"; "password_enforce_specialchars"] BooleanValidator;
    mkSchemaPath ["security"; "password_enforce_uppercase"] BooleanValidator;
    mkSchemaPath ["security"; "password_history_length"] IntegerValidator;
    mkSchemaPath ["security"; "password_lifetime_days"] IntegerValidator;
    mkSchemaPath ["security"; "password_min_length"] IntegerValidator;
    mkSchemaPath ["security"; "secure_erasing"] BooleanValidator;
    mkSchemaPath ["sharding"; "bucket_count"] IntegerValidator;
    mkSchemaPath ["sharding"; "connection_outdate_delay"] NumberValidator;
    mkSchemaPath ["sharding"; "discovery_mode"] (AllowedValidator StringValidator [LStr "on"; LStr "off";
      LStr "once"]);
    mkSchemaPath ["sharding"; "failover_ping_timeout"] NumberValidator;
    mkSchemaPath ["sharding"; "lock"] BooleanValidator;
    mkSchemaPath ["sharding"; "rebalancer_disbalance_threshold"] NumberValidator;
    mkSchemaPath ["sharding"; "rebalancer_max_receiving"] IntegerValidator;
    mkSchemaPath ["sharding"; "rebalancer_max_sending"] IntegerValidator;
    mkSchemaPath ["sharding"; "rebalancer_mode"] (AllowedValidator StringValidator [LStr "manual";
      LStr "auto"; LStr "off"]);
    mkSchemaPath ["sharding"; "roles"] (ArrayValidator (AllowedValidator StringValidator [LStr "router";
      LStr "storage"; LStr "rebalancer"]))].

Definition TarantoolSchema_9 : list SchemaPath := [
    mkSchemaPath ["sharding"; "sched_move_quota"] NumberValidator;
    mkSchemaPath ["sharding"; "sched_ref_quota"] NumberValidator;
    mkSchemaPath ["sharding"; "shard_index"] StringValidator;
    mkSchemaPath ["sharding"; "sync_timeout"] NumberValidator;
    mkSchemaPath ["sharding"; "weight"] NumberValidator;
    mkSchemaPath ["sharding"; "zone"] IntegerValidator;
    mkSchemaPath ["snapshot"; "by"; "interval"] NumberValidator;
    mkSchemaPath ["snapshot"; "by"; "wal_size"] IntegerValidator;
    mkSchemaPath ["snapshot"; "count"] IntegerValidator;
    mkSchemaPath ["snapshot"; "dir"] StringValidator;
    mkSchemaPath ["snapshot"; "snap_io_rate_limit"] NumberValidator;
    mkSchemaPath ["sql"; "cache_size"] IntegerValidator;
    mkSchemaPath ["vinyl"; "bloom_fpr"] NumberValidator;
    mkSchemaPath ["vinyl"; "cache"] IntegerValidator;
    mkSchemaPath ["vinyl"; "defer_deletes"] BooleanValidator;
    mkSchemaPath ["vinyl"; "dir"] StringValidator;
    mkSchemaPath ["vinyl"; "max_tuple_size"] IntegerValidator;
    mkSchemaPath ["vinyl"; "memory"] IntegerValidator;
    mkSchemaPath ["vinyl"; "page_size"] IntegerValidator;
    mkSchemaPath ["vinyl"; "range_size"] IntegerValidator;
    mkSchemaPath ["vinyl"; "read_threads"] IntegerValidator;
    mkSchemaPath ["vinyl"; "run_count_per_level"] IntegerValidator;
    mkSchemaPath ["vinyl"; "run_size_ratio"] NumberValidator;
    mkSchemaPath ["vinyl"; "timeout"] NumberValidator;
    mkSchemaPath ["vinyl"; "write_threads"] IntegerValidator;
    mkSchemaPath ["wal"; "cleanup_delay"] NumberValidator;
    mkSchemaPath ["wal"; "dir"] StringValidator;
    mkSchemaPath ["wal"; "dir_rescan_delay"] NumberValidator;
    mkSchemaPath ["wal"; "ext"; "new"] BooleanValidator;
    mkSchemaPath ["wal"; "ext"; "old"] BooleanValidator;
    mkSchemaPath ["wal"; "ext"; "spaces"] (MapValidator StringValidator (record [("old", BooleanValidator);
      ("new", BooleanValidator)]));
    mkSchemaPath ["wal"; "max_size"] IntegerValidator;
    mkSchemaPath ["wal"; "mode"] (AllowedValidator StringValidator [LStr "none"; LStr "write"; LStr "fsync"]);
    mkSchemaPath ["wal"; "queue_max_size"] IntegerValidator].

Definition TarantoolSchema_10 : list SchemaPath := [
    mkSchemaPath ["wal"; "retention_period"] NumberValidator].

Definition TarantoolSchema : list SchemaPath :=
  TarantoolSchema_1 ++ TarantoolSchema_2 ++ TarantoolSchema_3 ++ TarantoolSchema_4 ++ TarantoolSchema_5 ++ TarantoolSchema_6 ++ TarantoolSchema_7 ++ TarantoolSchema_8 ++ TarantoolSchema_9 ++ TarantoolSchema_10.
