(* ===== verification/Regexp.v ===== *)
(** * Go's [regexp] package, as far as the sources use it

    A pattern matches runes, so a Go string is first cut into the units that
    [utf8.DecodeRuneInString] takes off it.  The matcher lists the ways to match
    a prefix in the order a backtracking engine tries them; the package
    promises the first of them (leftmost-first).  [lang] is the language of a
    pattern. *)
From S2P Require Import Prelude GoStrings.

(** ** Runes

    A unit is the bytes of one rune: a well-formed UTF-8 sequence, or a single
    byte that starts none (which Go reads as U+FFFD). *)
Definition byte_in (lo hi : nat) (c : ascii) : bool :=
  (Nat.leb lo (nat_of_ascii c) && Nat.leb (nat_of_ascii c) hi)%bool.

Definition cont_byte : ascii -> bool := byte_in 128 191.

Definition utf8_2 (a b : ascii) : bool := byte_in 194 223 a && cont_byte b.

Definition utf8_3 (a b c : ascii) : bool :=
  ((byte_in 224 224 a && byte_in 160 191 b) || (byte_in 225 236 a && cont_byte b)
   || (byte_in 237 237 a && byte_in 128 159 b) || (byte_in 238 239 a && cont_byte b))
  && cont_byte c.

Definition utf8_4 (a b c d : ascii) : bool :=
  ((byte_in 240 240 a && byte_in 144 191 b) || (byte_in 241 243 a && cont_byte b)
   || (byte_in 244 244 a && byte_in 128 143 b))
  && cont_byte c && cont_byte d.

Definition unit1 (a : ascii) : string := String a "".

Fixpoint runes (s : string) : list string :=
  match s with
  | EmptyString => []
  | String a s1 =>
      match s1 with
      | String b s2 =>
          if utf8_2 a b then String a (unit1 b) :: runes s2
          else
            match s2 with
            | String c s3 =>
                if utf8_3 a b c then String a (String b (unit1 c)) :: runes s3
                else
                  match s3 with
                  | String d s4 =>
                      if utf8_4 a b c d then String a (String b (String c (unit1 d))) :: runes s4
                      else unit1 a :: runes s1
                  | EmptyString => unit1 a :: runes s1
                  end
            | EmptyString => unit1 a :: runes s1
            end
      | EmptyString => unit1 a :: runes s1
      end
  end.

(** The string of a sequence of units. *)
Definition text (l : list string) : string := String.concat "" l.

(** ** Patterns *)
Inductive re :=
| REps
| RUnit (p : string -> bool)
| RSeq (r1 r2 : re)
| RAlt (r1 r2 : re)
| RStar (r : re)
| RGroup (name : string) (r : re).

Declare Scope re_scope.
Delimit Scope re_scope with re.
Bind Scope re_scope with re.
Infix "@@" := RSeq (at level 60, right associativity) : re_scope.
Infix "||" := RAlt (at level 50, left associativity) : re_scope.

(** [r?] and [r+], which prefer to match. *)
Definition ROpt (r : re) : re := RAlt r REps.
Definition RPlus (r : re) : re := RSeq r (RStar r).

(** Literals and classes. *)
Definition is_char (a : ascii) (u : string) : bool := bool_decide (u = unit1 a).

Fixpoint one_of (cs : string) (u : string) : bool :=
  match cs with
  | EmptyString => false
  | String a cs' => is_char a u || one_of cs' u
  end.

Definition none_of (cs : string) (u : string) : bool := negb (one_of cs u).

Fixpoint lit (s : string) : re :=
  match s with
  | EmptyString => REps
  | String a s' => RSeq (RUnit (is_char a)) (lit s')
  end.

Definition newline : ascii := ascii_of_nat 10.
(** [.] without the [s] flag. *)
Definition any_char (u : string) : bool := negb (is_char newline u).

Definition digits : string := "0123456789".
Definition letters : string := "ABCDEFGHIJKLMNOPQRSTUVWXYZabcdefghijklmnopqrstuvwxyz".
Definition word_char : string -> bool := one_of (digits +:+ letters +:+ "_").

(** ** The matcher *)
Definition groups := list (string * list string).
Definition outcome := (list string * list string * groups)%type.

(** [then_run k o]: go on after the outcome [o] with [k]. *)
Definition then_run (k : list string -> list outcome) (o : outcome) : list outcome :=
  let '(t1, rest1, g1) := o in
  map (fun o2 => let '(t2, rest2, g2) := o2 in (t1 ++ t2, rest2, g1 ++ g2)) (k rest1).

(** Iterations are tried before leaving the loop; an iteration that takes
    nothing is not repeated.  [fuel] bounds the iterations: the number of units
    left is enough, for each takes at least one. *)
Fixpoint star_run (one : list string -> list outcome) (fuel : nat) (s : list string)
    : list outcome :=
  match fuel with
  | O => [([], s, [])]
  | S fuel' =>
      flat_map (fun o => if decide (o.1.1 = []) then [] else then_run (star_run one fuel') o) (one s)
      ++ [([], s, [])]
  end.

Fixpoint run (r : re) (s : list string) : list outcome :=
  match r with
  | REps => [([], s, [])]
  | RUnit p =>
      match s with
      | u :: rest => if p u then [([u], rest, [])] else []
      | [] => []
      end
  | RSeq r1 r2 => flat_map (then_run (run r2)) (run r1 s)
  | RAlt r1 r2 => run r1 s ++ run r2 s
  | RStar r => star_run (run r) (length s) s
  | RGroup name r => map (fun o => let '(t, rest, g) := o in (t, rest, (name, t) :: g)) (run r s)
  end.

Definition complete (o : outcome) : bool := match o.1.2 with [] => true | _ => false end.

(** [^r$]: the groups of the first match of the whole text. *)
Definition match_all (r : re) (s : list string) : option groups :=
  option_map snd (head (List.filter complete (run r s))).

(** [regexp.MatchString] of [^r$]. *)
Definition MatchString (r : re) (s : string) : bool :=
  match match_all r (runes s) with Some _ => true | None => false end.

(** The leftmost match, as what precedes it, what it takes and what follows. *)
Fixpoint find_match (r : re) (s : list string) : option (list string * list string * list string) :=
  match run r s with
  | (t, rest, _) :: _ => Some ([], t, rest)
  | [] =>
      match s with
      | [] => None
      | u :: s' =>
          option_map (fun m => let '(pre, t, rest) := m in (u :: pre, t, rest)) (find_match r s')
      end
  end.

(** ** The language of a pattern *)
Fixpoint lang (r : re) (l : list string) : Prop :=
  match r with
  | REps => l = []
  | RUnit p => exists u, l = [u] /\ p u = true
  | RSeq r1 r2 => exists l1 l2, l = l1 ++ l2 /\ lang r1 l1 /\ lang r2 l2
  | RAlt r1 r2 => lang r1 l \/ lang r2 l
  | RStar r => exists ls, l = concat ls /\ Forall (fun x => x <> [] /\ lang r x) ls
  | RGroup _ r => lang r l
  end.

(** ** The matcher and the language agree *)
Lemma elem_of_flat_map {A B} (f : A -> list B) l y :
  y ∈ flat_map f l <-> exists x, x ∈ l /\ y ∈ f x.
Proof.
  rewrite list_elem_of_In, in_flat_map. setoid_rewrite list_elem_of_In. done.
Qed.

Lemma elem_of_then_run k o t rest g :
  (t, rest, g) ∈ then_run k o ->
  exists t2 g2, t = o.1.1 ++ t2 /\ g = o.2 ++ g2 /\ (t2, rest, g2) ∈ k o.1.2.
Proof.
  destruct o as [[t1 rest1] g1]. unfold then_run. rewrite list_elem_of_In, in_map_iff.
  intros ([[t2 rest2] g2] & [= <- <- <-] & Hin). apply list_elem_of_In in Hin. eauto.
Qed.

Lemma then_run_elem k t1 rest1 g1 t2 rest2 g2 :
  (t2, rest2, g2) ∈ k rest1 -> (t1 ++ t2, rest2, g1 ++ g2) ∈ then_run k (t1, rest1, g1).
Proof.
  intros Hin. unfold then_run. rewrite list_elem_of_In, in_map_iff.
  exists (t2, rest2, g2). split; [done|]. by apply list_elem_of_In.
Qed.

Lemma star_run_sound one (P : list string -> Prop) fuel s t rest g :
  (forall s t rest g, (t, rest, g) ∈ one s -> s = t ++ rest /\ P t) ->
  (t, rest, g) ∈ star_run one fuel s ->
  s = t ++ rest /\ exists ls, t = concat ls /\ Forall (fun x => x <> [] /\ P x) ls.
Proof.
  intros Hone. revert s t rest g. induction fuel as [|fuel IH]; intros s t rest g; cbn [star_run].
  { intros [= -> -> ->]%list_elem_of_singleton. split; [done|]. by exists []. }
  rewrite elem_of_app. intros [Hin|[= -> -> ->]%list_elem_of_singleton]; [|by split; [|exists []]].
  apply elem_of_flat_map in Hin as ([[t1 rest1] g1] & H1 & H2). cbn [fst snd] in H2.
  destruct (decide (t1 = [])) as [|Hne]; [by apply not_elem_of_nil in H2|].
  apply elem_of_then_run in H2 as (t2 & g2 & -> & -> & H2). cbn [fst snd] in *.
  apply Hone in H1 as [-> HP]. apply IH in H2 as [-> (ls & -> & Hls)].
  split; [by rewrite app_assoc|]. exists (t1 :: ls). split; [done|]. by constructor.
Qed.

Lemma run_sound r s t rest g : (t, rest, g) ∈ run r s -> s = t ++ rest /\ lang r t.
Proof.
  revert s t rest g. induction r as [|p|r1 IH1 r2 IH2|r1 IH1 r2 IH2|r IH|name r IH];
    intros s t rest g; cbn [run lang].
  - by intros [= -> -> ->]%list_elem_of_singleton.
  - destruct s as [|u s]; [by intros ?%not_elem_of_nil|]. destruct (p u) eqn:E.
    + intros [= -> -> ->]%list_elem_of_singleton. eauto.
    + by intros ?%not_elem_of_nil.
  - intros ([[t1 rest1] g1] & H1 & H2)%elem_of_flat_map.
    apply elem_of_then_run in H2 as (t2 & g2 & -> & -> & H2). cbn [fst snd] in *.
    apply IH1 in H1 as [-> Hl1]. apply IH2 in H2 as [-> Hl2].
    split; [by rewrite app_assoc|]. eauto.
  - rewrite elem_of_app. intros [H1|H2]; [apply IH1 in H1|apply IH2 in H2]; tauto.
  - by apply star_run_sound.
  - rewrite list_elem_of_In, in_map_iff. intros ([[t' rest'] g'] & [= <- <- <-] & Hin).
    apply list_elem_of_In in Hin. by apply IH in Hin.
Qed.

Lemma star_run_complete one ls fuel rest :
  Forall (fun x => x <> [] /\ forall rest, exists g, (x, rest, g) ∈ one (x ++ rest)) ls ->
  length (concat ls) <= fuel ->
  exists g, (concat ls, rest, g) ∈ star_run one fuel (concat ls ++ rest).
Proof.
  revert fuel. induction ls as [|x ls IH]; intros fuel Hls Hf.
  { exists []. destruct fuel; cbn [star_run concat app]; [by left|].
    apply elem_of_app. right. by left. }
  apply Forall_cons in Hls as [[Hne Hx] Hls]. cbn [concat] in *. rewrite length_app in Hf.
  assert (length x <> 0) as Hlen by (by destruct x).
  destruct fuel as [|fuel]; [lia|]. destruct (IH fuel Hls) as [g2 H2]; [lia|].
  destruct (Hx (concat ls ++ rest)) as [g1 H1]. exists (g1 ++ g2). cbn [star_run].
  apply elem_of_app. left. rewrite <-app_assoc. apply elem_of_flat_map.
  eexists. split; [exact H1|]. cbn [fst snd]. destruct (decide (x = [])); [done|].
  by apply then_run_elem.
Qed.

Lemma run_complete r t rest : lang r t -> exists g, (t, rest, g) ∈ run r (t ++ rest).
Proof.
  revert t rest. induction r as [|p|r1 IH1 r2 IH2|r1 IH1 r2 IH2|r IH|name r IH];
    intros t rest; cbn [run lang].
  - intros ->. exists []. by left.
  - intros (u & -> & Hu). exists []. simpl. rewrite Hu. by left.
  - intros (l1 & l2 & -> & H1 & H2). rewrite <-app_assoc.
    destruct (IH1 l1 (l2 ++ rest) H1) as [g1 G1]. destruct (IH2 l2 rest H2) as [g2 G2].
    exists (g1 ++ g2). apply elem_of_flat_map. eexists. split; [exact G1|]. by apply then_run_elem.
  - intros [H1|H2].
    + destruct (IH1 t rest H1) as [g G]. exists g. apply elem_of_app. by left.
    + destruct (IH2 t rest H2) as [g G]. exists g. apply elem_of_app. by right.
  - intros (ls & -> & Hls). apply star_run_complete.
    + eapply Forall_impl; [exact Hls|]. intros x [Hne Hx]. split; [done|]. intros rest'. by apply IH.
    + rewrite length_app. lia.
  - intros [g G]%(IH t rest). exists ((name, t) :: g). rewrite list_elem_of_In, in_map_iff.
    exists (t, rest, g). split; [done|]. by apply list_elem_of_In.
Qed.

Lemma elem_of_complete r s o :
  o ∈ List.filter complete (run r s) <-> o ∈ run r s /\ o.1.2 = [].
Proof.
  rewrite !list_elem_of_In, filter_In. unfold complete.
  destruct (o.1.2); split; intros [? ?]; split; done.
Qed.

Lemma match_all_Some r s g :
  match_all r s = Some g -> (s, [], g) ∈ run r s /\ lang r s.
Proof.
  unfold match_all. destruct (List.filter _ _) as [|[[t rest] g'] l] eqn:E; [done|]. intros [= <-].
  assert ((t, rest, g') ∈ List.filter complete (run r s)) as Hin by (rewrite E; left).
  apply elem_of_complete in Hin as [Hin Hr]. cbn in Hr. subst rest.
  destruct (run_sound _ _ _ _ _ Hin) as [Hs Hl]. rewrite app_nil_r in Hs. by subst t.
Qed.

Lemma MatchString_lang r s : MatchString r s = true <-> lang r (runes s).
Proof.
  unfold MatchString. split.
  - destruct (match_all r (runes s)) as [g|] eqn:E; [|done]. intros _.
    by apply match_all_Some in E as [_ ?].
  - intros Hl. destruct (run_complete r (runes s) [] Hl) as [g Hg]. rewrite app_nil_r in Hg.
    unfold match_all. destruct (List.filter _ _) as [|o l] eqn:E; [|done].
    assert ((runes s, [], g) ∈ List.filter complete (run r (runes s))) as Hin
      by (by apply elem_of_complete).
    rewrite E in Hin. by apply not_elem_of_nil in Hin.
Qed.

(** ** Runes *)
Lemma text_app l1 l2 : text (l1 ++ l2) = text l1 +:+ text l2.
Proof.
  unfold text. induction l1 as [|u [|u' l1] IH]; [done| |].
  - destruct l2; simpl; [by rewrite string_app_nil_r|done].
  - change ((u :: u' :: l1) ++ l2) with (u :: (u' :: l1) ++ l2).
    change (String.concat "" (u :: (u' :: l1) ++ l2))
      with (u +:+ "" +:+ String.concat "" ((u' :: l1) ++ l2)).
    change (String.concat "" (u :: u' :: l1)) with (u +:+ "" +:+ String.concat "" (u' :: l1)).
    rewrite IH. by rewrite !string_app_assoc.
Qed.

Lemma text_cons u l : text (u :: l) = u +:+ text l.
Proof. change (u :: l) with ([u] ++ l). by rewrite text_app. Qed.

(** A unit of several bytes has no ASCII byte. *)
Fixpoint high_bytes (s : string) : bool :=
  match s with
  | EmptyString => true
  | String c s' => Nat.leb 128 (nat_of_ascii c) && high_bytes s'
  end.

Definition unit_ok (u : string) : Prop := (exists a, u = unit1 a) \/ high_bytes u = true.

Lemma byte_in_high lo hi c : 128 <= lo -> byte_in lo hi c = true -> Nat.leb 128 (nat_of_ascii c) = true.
Proof.
  intros Hlo [H1 _]%andb_prop. apply Nat.leb_le in H1. apply Nat.leb_le. lia.
Qed.

Ltac split_bools := repeat match goal with
  | H : (_ && _)%bool = true |- _ => apply andb_prop in H as [? ?]
  | H : (_ || _)%bool = true |- _ => apply orb_prop in H as [H|H]
  end.

Ltac solve_high := cbn [high_bytes unit1]; rewrite ?andb_true_iff; repeat split; try done;
  match goal with
  | H : byte_in _ _ ?c = true |- Nat.leb 128 (nat_of_ascii ?c) = true =>
      by apply (byte_in_high _ _ _) in H; [|lia]
  end.

Lemma runes_units s : text (runes s) = s /\ Forall unit_ok (runes s).
Proof.
  assert (forall n s, String.length s <= n -> text (runes s) = s /\ Forall unit_ok (runes s)) as Hn;
    [|by eapply Hn].
  clear s. induction n as [|n IH]; intros [|a s1] Hl; try (by split); [simpl in Hl; lia|].
  assert (text (unit1 a :: runes s1) = String a s1 /\ Forall unit_ok (unit1 a :: runes s1)) as H1.
  { destruct (IH s1) as [E F]; [simpl in Hl; lia|]. rewrite text_cons, E. split; [done|].
    constructor; [|done]. left. eauto. }
  cbn [runes]. destruct s1 as [|b s2]; [done|]. destruct (utf8_2 a b) eqn:E2.
  { destruct (IH s2) as [E F]; [simpl in Hl; lia|]. rewrite text_cons, E. split; [done|].
    constructor; [|done]. right. unfold utf8_2, cont_byte in E2. split_bools. solve_high. }
  destruct s2 as [|c s3]; [done|]. destruct (utf8_3 a b c) eqn:E3.
  { destruct (IH s3) as [E F]; [simpl in Hl; lia|]. rewrite text_cons, E. split; [done|].
    constructor; [|done]. right. unfold utf8_3, cont_byte in E3. split_bools; solve_high. }
  destruct s3 as [|d s4]; [done|]. destruct (utf8_4 a b c d) eqn:E4; [|done].
  destruct (IH s4) as [E F]; [simpl in Hl; lia|]. rewrite text_cons, E. split; [done|].
  constructor; [|done]. right. unfold utf8_4, cont_byte in E4. split_bools; solve_high.
Qed.

Lemma text_runes s : text (runes s) = s.
Proof. apply runes_units. Qed.

(** * Facts about patterns and matches

    What the clients of [Regexp] share: the languages of the simple patterns,
    the text that the groups of a match capture, the first match of a
    concatenation, and how ASCII characters cut a text into runes. *)

(** ** Patterns of one class *)
Definition all_units (p : string -> bool) (l : list string) : Prop := Forall (fun u => p u = true) l.

Lemma concat_units p ls :
  Forall (fun x => x <> [] /\ exists u, x = [u] /\ p u = true) ls -> all_units p (concat ls).
Proof.
  induction 1 as [|x ls [_ (u & -> & Hu)] _ IH]; [constructor|]. by constructor.
Qed.

Lemma lang_star_unit p l : lang (RStar (RUnit p)) l -> all_units p l.
Proof. intros (ls & -> & Hls). by apply concat_units. Qed.

Lemma lang_plus_unit p l : lang (RPlus (RUnit p)) l -> l <> [] /\ all_units p l.
Proof.
  intros (l1 & l2 & -> & (u & -> & Hu) & H2). split; [done|]. constructor; [done|].
  by apply lang_star_unit.
Qed.

Lemma lang_lit_cons a s l : lang (lit (String a s)) l -> exists l', l = unit1 a :: l' /\ lang (lit s) l'.
Proof.
  intros (l1 & l2 & -> & (u & -> & Hu) & H2). apply bool_decide_eq_true in Hu as ->. by exists l2.
Qed.

Lemma lang_plus_units p l : l <> [] -> all_units p l -> lang (RPlus (RUnit p)) l.
Proof.
  destruct l as [|u l]; [done|]. intros _ [Hu Hl]%Forall_cons. exists [u], l.
  split; [done|]. split; [by exists u|]. exists (map (fun u => [u]) l). split.
  - clear. induction l as [|x l IH]; [done|]. simpl. by rewrite <-IH.
  - apply Forall_forall. intros x Hx%list_elem_of_In. apply in_map_iff in Hx as (y & <- & Hy).
    apply list_elem_of_In in Hy. split; [done|]. exists y.
    split; [done|]. exact (proj1 (Forall_forall _ _) Hl y Hy).
Qed.

(** A literal matches its own characters. *)
Definition chars (s : string) : list string := map unit1 (String.list_ascii_of_string s).

Lemma lang_lit s l : lang (lit s) l -> l = chars s.
Proof.
  revert l. induction s as [|a s IH]; intros l; [done|].
  intros (l' & -> & Hl)%lang_lit_cons. by rewrite (IH l' Hl).
Qed.

Lemma text_chars s : text (chars s) = s.
Proof.
  induction s as [|a s IH]; [done|]. change (chars (String a s)) with (unit1 a :: chars s).
  rewrite text_cons, IH. done.
Qed.

(** The longest prefix of one class. *)
Fixpoint span (p : string -> bool) (l : list string) : list string * list string :=
  match l with
  | u :: l' => if p u then let '(a, b) := span p l' in (u :: a, b) else ([], l)
  | [] => ([], [])
  end.

Lemma span_app p a b :
  all_units p a -> (forall u b', b = u :: b' -> p u = false) -> span p (a ++ b) = (a, b).
Proof.
  intros Ha Hb. induction Ha as [|u a Hu _ IH]; simpl.
  - destruct b as [|u b']; [done|]. simpl. by rewrite (Hb u b').
  - by rewrite Hu, IH.
Qed.

(** ** Groups

    [gmatch r l g]: the pattern takes [l] and its groups capture [g]. *)
Fixpoint gmatch (r : re) (l : list string) (g : groups) : Prop :=
  match r with
  | REps => l = [] /\ g = []
  | RUnit p => exists u, l = [u] /\ p u = true /\ g = []
  | RSeq r1 r2 => exists l1 l2 g1 g2, l = l1 ++ l2 /\ g = g1 ++ g2 /\
      gmatch r1 l1 g1 /\ gmatch r2 l2 g2
  | RAlt r1 r2 => gmatch r1 l g \/ gmatch r2 l g
  | RStar r => exists ls : list (list string * groups), l = concat ls.*1 /\ g = concat ls.*2 /\
      Forall (fun x => x.1 <> [] /\ gmatch r x.1 x.2) ls
  | RGroup name r => exists g', g = (name, l) :: g' /\ gmatch r l g'
  end.

Lemma star_run_gmatch one (P : list string -> groups -> Prop) fuel s t rest g :
  (forall s t rest g, (t, rest, g) ∈ one s -> s = t ++ rest /\ P t g) ->
  (t, rest, g) ∈ star_run one fuel s ->
  s = t ++ rest /\ exists ls : list (list string * groups), t = concat ls.*1 /\ g = concat ls.*2 /\
    Forall (fun x => x.1 <> [] /\ P x.1 x.2) ls.
Proof.
  intros Hone. revert s t rest g. induction fuel as [|fuel IH]; intros s t rest g; cbn [star_run].
  { intros [= -> -> ->]%list_elem_of_singleton. split; [done|]. by exists []. }
  rewrite elem_of_app. intros [Hin|[= -> -> ->]%list_elem_of_singleton]; [|by split; [|exists []]].
  apply elem_of_flat_map in Hin as ([[t1 rest1] g1] & H1 & H2). cbn [fst snd] in H2.
  destruct (decide (t1 = [])) as [|Hne]; [by apply not_elem_of_nil in H2|].
  apply elem_of_then_run in H2 as (t2 & g2 & -> & -> & H2). cbn [fst snd] in *.
  apply Hone in H1 as [-> HP]. apply IH in H2 as [-> (ls & -> & -> & Hls)].
  split; [by rewrite app_assoc|]. exists ((t1, g1) :: ls). split_and!; [done..|]. by constructor.
Qed.

Lemma run_gmatch r s t rest g : (t, rest, g) ∈ run r s -> s = t ++ rest /\ gmatch r t g.
Proof.
  revert s t rest g. induction r as [|p|r1 IH1 r2 IH2|r1 IH1 r2 IH2|r IH|name r IH];
    intros s t rest g; cbn [run gmatch].
  - by intros [= -> -> ->]%list_elem_of_singleton.
  - destruct s as [|u s]; [by intros ?%not_elem_of_nil|]. destruct (p u) eqn:E.
    + intros [= -> -> ->]%list_elem_of_singleton. eauto.
    + by intros ?%not_elem_of_nil.
  - intros ([[t1 rest1] g1] & H1 & H2)%elem_of_flat_map.
    apply elem_of_then_run in H2 as (t2 & g2 & -> & -> & H2). cbn [fst snd] in *.
    apply IH1 in H1 as [-> Hl1]. apply IH2 in H2 as [-> Hl2].
    split; [by rewrite app_assoc|]. exists t1, t2, g1, g2. done.
  - rewrite elem_of_app. intros [H1|H2]; [apply IH1 in H1|apply IH2 in H2]; tauto.
  - by apply star_run_gmatch.
  - rewrite list_elem_of_In, in_map_iff. intros ([[t' rest'] g'] & [= <- <- <-] & Hin).
    apply list_elem_of_In in Hin. apply IH in Hin as [-> Hg]. eauto.
Qed.

(** The first match of a concatenation: some match of its first part, and the
    first match of its second part in what is left. *)
Lemma head_filter_flat_map {A B} (q : B -> bool) (f : A -> list B) l y :
  head (List.filter q (flat_map f l)) = Some y ->
  exists x, x ∈ l /\ head (List.filter q (f x)) = Some y.
Proof.
  induction l as [|x l IH]; [done|]. cbn [flat_map]. rewrite List.filter_app.
  destruct (List.filter q (f x)) as [|z zs] eqn:E.
  - intros (x' & Hx & Hy)%IH. exists x'. split; [by right|done].
  - intros [= ->]. exists x. rewrite E. split; [left|done].
Qed.

Lemma match_all_seq r1 r2 s g :
  match_all (RSeq r1 r2) s = Some g ->
  exists t1 rest g1 g2, s = t1 ++ rest /\ g = g1 ++ g2 /\ gmatch r1 t1 g1 /\
    match_all r2 rest = Some g2.
Proof.
  unfold match_all. cbn [run].
  destruct (head (List.filter _ (flat_map _ _))) as [o|] eqn:E; [|done]. intros [= <-].
  apply head_filter_flat_map in E as ([[t1 rest1] g1] & Hin & Ho).
  apply run_gmatch in Hin as [-> Hg1]. unfold then_run in Ho.
  exists t1, rest1, g1. revert Ho.
  induction (run r2 rest1) as [|[[t2 rest2] g2] outs IH]; [done|]. cbn [map List.filter].
  unfold complete at 1 3. cbn [fst snd]. destruct rest2.
  - intros [= <-]. exists g2. done.
  - intros Ho. destruct (IH Ho) as (g2' & _ & H2 & H3 & H4). by exists g2'.
Qed.

Lemma match_all_complete r s : lang r s -> exists g, match_all r s = Some g.
Proof.
  intros Hl. destruct (run_complete r s [] Hl) as [g Hg]. rewrite app_nil_r in Hg.
  unfold match_all. destruct (List.filter _ _) as [|o l] eqn:E; [|by exists o.2].
  assert ((s, [], g) ∈ List.filter complete (run r s)) as Hin by (by apply elem_of_complete).
  rewrite E in Hin. by apply not_elem_of_nil in Hin.
Qed.

Lemma gmatch_lang r l g : gmatch r l g -> lang r l.
Proof.
  revert l g. induction r as [|p|r1 IH1 r2 IH2|r1 IH1 r2 IH2|r IH|name r IH]; intros l g; cbn.
  - by intros [-> _].
  - intros (u & -> & Hu & _). eauto.
  - intros (l1 & l2 & g1 & g2 & -> & -> & H1%IH1 & H2%IH2). eauto.
  - intros [H%IH1|H%IH2]; eauto.
  - intros (ls & -> & -> & Hls). exists ls.*1. split; [done|].
    apply Forall_fmap. eapply Forall_impl; [exact Hls|]. intros [x gx] [Hne Hx]. eauto.
  - intros (g' & -> & H%IH). done.
Qed.

(** ** ASCII characters cut a text into runes *)
Definition ascii_char (c : ascii) : bool := Nat.ltb (nat_of_ascii c) 128.

Lemma byte_in_ascii lo hi c : 128 <= lo -> ascii_char c = true -> byte_in lo hi c = false.
Proof.
  unfold ascii_char, byte_in. intros Hlo Hc%Nat.ltb_lt. apply andb_false_iff. left.
  apply Nat.leb_gt. lia.
Qed.

Ltac ascii_bytes := repeat match goal with
  | H : ascii_char ?c = true |- context [byte_in ?lo ?hi ?c] =>
      rewrite (byte_in_ascii lo hi c) by (lia || done)
  end; rewrite ?andb_false_r, ?andb_false_l, ?orb_false_r, ?orb_false_l.

Lemma runes_ascii_cons c s : ascii_char c = true -> runes (String c s) = unit1 c :: runes s.
Proof.
  intros Hc. cbn [runes]. destruct s as [|b [|d [|e s]]]; [done| | |];
    unfold utf8_2, utf8_3, utf8_4; ascii_bytes; done.
Qed.

Lemma runes_app_ascii a c t :
  ascii_char c = true -> runes (a +:+ String c t) = runes a ++ unit1 c :: runes t.
Proof.
  intros Hc.
  assert (forall n a, String.length a <= n ->
    runes (a +:+ String c t) = runes a ++ unit1 c :: runes t) as Hn; [|by eapply Hn].
  clear a. induction n as [|n IH]; intros [|a1 s1] Hl; try (by apply runes_ascii_cons);
    [simpl in Hl; lia|].
  assert (runes (s1 +:+ String c t) = runes s1 ++ unit1 c :: runes t) as H1
    by (apply IH; simpl in Hl; lia).
  apply (f_equal (cons (unit1 a1))) in H1.
  destruct s1 as [|a2 s2].
  { etransitivity; [|exact H1]. cbn [String.append runes].
    destruct t as [|b [|d t]]; unfold utf8_2, utf8_3, utf8_4, cont_byte; by ascii_bytes. }
  change (String a1 (String a2 s2) +:+ String c t) with (String a1 (String a2 (s2 +:+ String c t))).
  change (String a2 s2 +:+ String c t) with (String a2 (s2 +:+ String c t)) in H1.
  assert (runes (s2 +:+ String c t) = runes s2 ++ unit1 c :: runes t) as H2
    by (apply IH; simpl in Hl; lia).
  destruct (utf8_2 a1 a2) eqn:E2.
  { cbn [runes]. rewrite E2, H2. done. }
  destruct s2 as [|a3 s3].
  { etransitivity; [|etransitivity; [exact H1|]].
    - cbn [String.append runes]. rewrite E2. destruct t as [|d t]; unfold utf8_3, utf8_4, cont_byte;
        by ascii_bytes.
    - cbn [runes]. by rewrite E2. }
  change (String a3 s3 +:+ String c t) with (String a3 (s3 +:+ String c t)) in *.
  destruct (utf8_3 a1 a2 a3) eqn:E3.
  { cbn [runes]. rewrite E2, E3, IH by (simpl in Hl; lia). done. }
  destruct s3 as [|a4 s4].
  { etransitivity; [|etransitivity; [exact H1|]].
    - cbn [String.append runes]. rewrite E2, E3. unfold utf8_4, cont_byte. by ascii_bytes.
    - cbn [runes]. by rewrite E2, E3. }
  change (String a4 s4 +:+ String c t) with (String a4 (s4 +:+ String c t)) in *.
  destruct (utf8_4 a1 a2 a3 a4) eqn:E4.
  { cbn [runes]. rewrite E2, E3, E4, IH by (simpl in Hl; lia). done. }
  etransitivity; [|etransitivity; [exact H1|]]; cbn [runes]; by rewrite E2, E3, E4.
Qed.

Fixpoint ascii_string (s : string) : bool :=
  match s with
  | EmptyString => true
  | String c s' => ascii_char c && ascii_string s'
  end.

Lemma runes_ascii s : ascii_string s = true -> runes s = chars s.
Proof.
  induction s as [|c s IH]; [done|]. cbn [ascii_string]. intros [Hc Hs]%andb_prop.
  rewrite runes_ascii_cons, IH by done. done.
Qed.

Lemma runes_ascii_app s t : ascii_string s = true -> runes (s +:+ t) = chars s ++ runes t.
Proof.
  induction s as [|c s IH]; [done|]. cbn [ascii_string]. intros [Hc Hs]%andb_prop.
  change (String c s +:+ t) with (String c (s +:+ t)). rewrite runes_ascii_cons, IH by done. done.
Qed.

Lemma chars_app s t : chars (s +:+ t) = chars s ++ chars t.
Proof. unfold chars. induction s as [|c s IH]; [done|]. simpl in *. by rewrite IH. Qed.

#[export] Instance chars_inj : Inj (=) (=) chars.
Proof. intros a b E. rewrite <-(text_chars a), E. apply text_chars. Qed.

(** * The functions of Go's [strings] package that look at runes

    [strings.TrimSpace] and [strings.Fields] cut a string at Unicode white
    space.  The units of [Regexp.runes] are the runes; a byte that is not part of
    a rune is no space. *)

Fixpoint bytes (l : list nat) : string :=
  match l with [] => "" | n :: l' => String (ascii_of_nat n) (bytes l') end.

(** [unicode.IsSpace]: the Latin-1 spaces, then the other runes of the class
    White_Space, as UTF-8. *)
Definition space_units : list string :=
  map bytes
    ([[9]; [10]; [11]; [12]; [13]; [32]; [194; 133]; [194; 160]; [225; 154; 128]]
     ++ map (fun n => [226; 128; 128 + n]) (seq 0 11)
     ++ [[226; 128; 168]; [226; 128; 169]; [226; 128; 175]; [226; 129; 159]; [227; 128; 128]]).

Definition is_space (u : string) : bool := bool_decide (u ∈ space_units).

Fixpoint drop_while (p : string -> bool) (l : list string) : list string :=
  match l with
  | u :: l' => if p u then drop_while p l' else l
  | [] => []
  end.

Definition trim_units (p : string -> bool) (l : list string) : list string :=
  rev (drop_while p (rev (drop_while p l))).

Definition TrimSpace (s : string) : string := text (trim_units is_space (runes s)).

(** [strings.Fields]: the maximal runs of runes that are not spaces. *)
Fixpoint fields_go (word : list string) (l : list string) : list string :=
  match l with
  | [] => match word with [] => [] | _ => [text word] end
  | u :: l' =>
      if is_space u then match word with [] => fields_go [] l' | _ => text word :: fields_go [] l' end
      else fields_go (word ++ [u]) l'
  end.

Definition Fields (s : string) : list string := fields_go [] (runes s).

(** [strings.Trim(s, cutset)] for a cutset of ASCII characters. *)
Definition Trim (s cutset : string) : string := text (trim_units (one_of cutset) (runes s)).

Example TrimSpace_sample : TrimSpace "  a b " = "a b".
Proof. vm_compute. reflexivity. Qed.

Example Fields_sample : Fields " a  bc " = ["a"; "bc"].
Proof. vm_compute. reflexivity. Qed.
