(* ===== verification/Version.v ===== *)
(** * Versions ([cli/version], [cli/util])

    Versions of Tarantool and tt: how they are parsed, compared and printed. *)
From S2P Require Import Prelude GoStrings Regexp.

(** ** Releases and versions

    A [uint64] is a [Z] in [0, 2^64); the parser keeps that range. *)
Inductive ReleaseType := TypeNightly | TypeAlpha | TypeBeta | TypeRC | TypeRelease.
#[export] Instance ReleaseType_eq_dec : EqDecision ReleaseType.
Proof. solve_decision. Defined.

(** [iota] numbers the constants from zero. *)
Definition release_type_num (t : ReleaseType) : Z :=
  match t with
  | TypeNightly => 0
  | TypeAlpha => 1
  | TypeBeta => 2
  | TypeRC => 3
  | TypeRelease => 4
  end.

Record Release := mkRelease { rel_Type : ReleaseType; rel_Num : Z; rel_str : string }.

Record Version := mkVersion {
  Major : Z;
  Minor : Z;
  Patch : Z;
  Additional : Z;
  Version_Revision : Z;
  Version_Release : Release;
  Hash : string;
  Str : string;
  Tarball : string;
  BuildName : string
}.

Definition zero_release : Release := mkRelease TypeNightly 0 "".
Definition zero_version : Version := mkVersion 0 0 0 0 0 zero_release "" "" "" "".

(** ** [util.AtoiUint64], [util.FindNamedMatches], [util.Max],
    [util.IsValidCommitHash] *)
Definition AtoiUint64 (str : string) : result Z :=
  match ParseUint str with
  | Err err => Err err
  | Ok res => Ok res
  end.

(** [FindNamedMatches] for a pattern [^r$]: the text of each named group, the
    empty text for a group that took part in no match, and the empty map
    ([None]) when the pattern does not match.  Groups without a name, whose
    entry nobody reads, are left out of the patterns. *)
Definition group_text (g : groups) (name : string) : string :=
  match list_find (fun x => x.1 = name) g with
  | Some (_, x) => text x.2
  | None => ""
  end.

Definition FindNamedMatches (r : re) (str : string) : option (string -> string) :=
  option_map group_text (match_all r (runes str)).

Definition util_Max (x y : Z) : Z := if (x <? y)%Z then y else x.

Definition MinCommitHashLength : nat := 7.

Definition hex_digits : string := "0123456789abcdef".

Definition IsValidCommitHash (hash : string) : bool * option error :=
  if Nat.ltb (String.length hash) MinCommitHashLength
  then (false, Some (Errorf "the hash must contain at least 7 characters" []))
  else (MatchString (RPlus (RUnit (one_of hex_digits))) hash, None).

(** ** Parsing *)
Definition newRelease (release releaseNum : string) : result Release :=
  if decide (release = "") then Ok (mkRelease TypeRelease 0 release)
  else
    let with_type (t : ReleaseType) :=
      if decide (releaseNum = "") then Ok (mkRelease t 0 release)
      else
        match AtoiUint64 releaseNum with
        | Err err => Err (Wrapf "bad release number format %q: %w" [releaseNum] err)
        | Ok num => Ok (mkRelease t num (release +:+ releaseNum))
        end in
    if decide (release = "rc") then with_type TypeRC
    else if decide (release = "alpha") then with_type TypeAlpha
    else if decide (release = "beta") then with_type TypeBeta
    else if decide (release = "entrypoint") then with_type TypeNightly
    else Err (Errorf "unknown release type %q" [release]).

Definition Release_String (release : Release) : string := rel_str release.

Open Scope re_scope.
Definition digits_re : re := RPlus (RUnit (one_of digits)).

(** The pattern of [Parse], up to the additional commits and after them. *)
Definition version_front_re : re :=
  ROpt (RGroup "buildname" (RPlus (RUnit any_char)) @@ lit "-")
  @@ ROpt (lit "v") @@ RGroup "major" digits_re @@ lit "." @@ RGroup "minor" digits_re
  @@ lit "." @@ RGroup "patch" digits_re
  @@ ROpt (lit "-" @@ RGroup "release" (lit "entrypoint" || lit "rc" || lit "alpha" || lit "beta")
           @@ ROpt (RGroup "releaseNum" digits_re))
  @@ ROpt (lit "-" @@ RGroup "additional" digits_re).

Definition version_back_re : re :=
  ROpt (lit "-" @@ RGroup "hash" (lit "g" @@ RPlus (RUnit (one_of "abcdef0123456789"))))
  @@ ROpt (lit "-r" @@ RGroup "revision" digits_re)
  @@ ROpt (lit "-gc64" || lit "-nogc64").

Definition version_re : re := version_front_re @@ version_back_re.
Close Scope re_scope.

Definition optional_number (s : string) : result Z :=
  if decide (s = "") then Ok 0%Z else AtoiUint64 s.

Open Scope go_scope.
(** On an error [Parse] also returns the fields it has filled so far, which no
    caller reads. *)
Definition Parse (verStr : string) : result Version :=
  match FindNamedMatches version_re verStr with
  | None => Err (Errorf "failed to parse version %q: format is not valid" [verStr])
  | Some matches =>
      major <-? AtoiUint64 (matches "major");;
      minor <-? AtoiUint64 (matches "minor");;
      patch <-? AtoiUint64 (matches "patch");;
      release <-? newRelease (matches "release") (matches "releaseNum");;
      additional <-? optional_number (matches "additional");;
      revision <-? optional_number (matches "revision");;
      Ok (mkVersion major minor patch additional revision release (matches "hash") verStr ""
            (matches "buildname"))
  end.

Definition ParseTt (verStr : string) : result Version :=
  let verToParse := Trim verStr (unit1 newline) in
  match cut_last verToParse "." with
  | None => Err (Errorf "failed to parse version %q: format is not valid" [verStr])
  | Some (verStr, hashStr) =>
      match Split verStr "." with
      | [n0; n1; n2] =>
          major <-? AtoiUint64 n0;;
          minor <-? AtoiUint64 n1;;
          patch <-? AtoiUint64 n2;;
          match IsValidCommitHash hashStr with
          | (_, Some err) => Err err
          | (false, None) => Err (Errorf "hash %q has a wrong format" [hashStr])
          | (true, None) =>
              Ok (mkVersion major minor patch 0 0 zero_release hashStr verToParse "" "")
          end
      | _ =>
          Err (Errorf "the version of %q does not match <major>.<minor>.<patch> format" [verStr])
      end
  end.
Close Scope go_scope.

(** ** Order *)

(** The loop of [IsLess]: indexes beyond the end of a slice read as zero. *)
Fixpoint less_loop (n : nat) (left right : list Z) : bool :=
  match n with
  | O => false
  | S n' =>
      let valLeft := match left with v :: _ => v | [] => 0%Z end in
      let valRight := match right with v :: _ => v | [] => 0%Z end in
      if negb (valLeft =? valRight)%Z then (valLeft <? valRight)%Z
      else less_loop n' (tail left) (tail right)
  end.

Definition version_key (v : Version) : list Z :=
  [Major v; Minor v; Patch v; release_type_num (rel_Type (Version_Release v));
   rel_Num (Version_Release v); Additional v; Version_Revision v].

Definition IsLess (verLeft verRight : Version) : bool :=
  let left := version_key verLeft in
  let right := version_key verRight in
  let largestLen := util_Max (Z.of_nat (length left)) (Z.of_nat (length right)) in
  less_loop (Z.to_nat largestLen) left right.

(** [sort.Stable(VersionSlice(versions))]: of a strict weak order there is one
    stable sorted permutation, the one that insertion computes. *)
Definition sort_versions (versions : list Version) : list Version :=
  insertion_sort IsLess versions.

(** [sort.Stable(sort.Reverse(VersionSlice(versions)))]. *)
Definition sort_versions_reverse (versions : list Version) : list Version :=
  insertion_sort (fun a b => IsLess b a) versions.

(** ** [GetVersion]

    The variables are set when tt is built; [NewVersion] is the parser of
    [hashicorp/go-version], whose segments are printed. *)
Record BuildInfo := mkBuildInfo {
  gitTag : string;
  gitCommit : string;
  gitCommitSinceTag : string;
  versionLabel : string;
  GOOS : string;
  GOARCH : string
}.

Definition unknownVersion : string := "<unknown>".
Definition cliVersionTitle : string := "Tarantool CLI".

Definition GetVersion (NewVersion : string -> result (list Z)) (info : BuildInfo)
    (showShort needCommit : bool) : string :=
  let version :=
    if decide (gitTag info = "") then unknownVersion
    else
      let version :=
        match NewVersion (gitTag info) with
        | Err _ => gitTag info
        | Ok segments => Join (map FormatInt segments) "."
        end in
      if decide (versionLabel info <> "") then version +:+ "/" +:+ versionLabel info else version in
  if (showShort || needCommit)%bool then
    if needCommit then version +:+ "." +:+ gitCommit info else version
  else
    let head := cliVersionTitle +:+ " version " +:+ version +:+ ", " +:+ GOOS info +:+ "/"
                +:+ GOARCH info +:+ ". commit: " +:+ gitCommit info in
    if decide (gitCommitSinceTag info <> "" /\ gitCommitSinceTag info <> "0" /\ gitTag info <> "")
    then head +:+ " (" +:+ gitTag info +:+ ")" else head.

Example Parse_full :
  Parse "debug-2.11.0-rc2-14-gc9673ebb7-r575-nogc64" =
  Ok (mkVersion 2 11 0 14 575 (mkRelease TypeRC 2 "rc2") "gc9673ebb7"
        "debug-2.11.0-rc2-14-gc9673ebb7-r575-nogc64" "" "debug").
Proof. vm_compute. reflexivity. Qed.

Example ParseTt_sample :
  ParseTt (String.append "2.1.0.abcdef0" (unit1 newline)) =
  Ok (mkVersion 2 1 0 0 0 zero_release "abcdef0" "2.1.0.abcdef0" "" "").
Proof. vm_compute. reflexivity. Qed.
