(* ===== verification/VersionProps.v ===== *)
(** * What parsing and ordering of versions guarantee *)
From S2P Require Import Prelude GoStrings Regexp Version.

(** ** The grammar of version texts

    The reference for [Parse]: the parts of a version, how they are written,
    and what they mean. *)
Record version_parts := mkParts {
  p_build : option string;
  p_v : bool;
  p_major : string;
  p_minor : string;
  p_patch : string;
  p_release : option (string * string);
  p_additional : option string;
  p_hash : option string;
  p_revision : option string;
  p_gc : option bool
}.

Definition opt_text {A} (f : A -> string) (o : option A) : string :=
  match o with Some a => f a | None => "" end.

Definition print_tail (p : version_parts) : string :=
  opt_text (fun h => "-g" +:+ h) (p_hash p) +:+ opt_text (fun r => "-r" +:+ r) (p_revision p)
  +:+ opt_text (fun b : bool => if b then "-gc64" else "-nogc64") (p_gc p).

Definition print_parts (p : version_parts) : string :=
  opt_text (fun b => b +:+ "-") (p_build p) +:+ (if p_v p then "v" else "")
  +:+ p_major p +:+ "." +:+ p_minor p +:+ "." +:+ p_patch p
  +:+ opt_text (fun r => "-" +:+ r.1 +:+ r.2) (p_release p)
  +:+ opt_text (fun a => "-" +:+ a) (p_additional p) +:+ print_tail p.

(** Characters of a class, at least one. *)
Definition word_of (cs s : string) : Prop := s <> "" /\ all_units (one_of cs) (chars s).
Definition number : string -> Prop := word_of digits.

Definition opt_ok {A} (P : A -> Prop) (o : option A) : Prop :=
  match o with Some a => P a | None => True end.

Record wf_parts (p : version_parts) : Prop := {
  wf_build : opt_ok (fun b => b <> "" /\ all_units any_char (runes b)) (p_build p);
  wf_major : number (p_major p);
  wf_minor : number (p_minor p);
  wf_patch : number (p_patch p);
  wf_release : opt_ok (fun r => r.1 ∈ ["entrypoint"; "rc"; "alpha"; "beta"] /\
                          (r.2 = "" \/ number r.2)) (p_release p);
  wf_additional : opt_ok number (p_additional p);
  wf_hash : opt_ok (word_of "abcdef0123456789") (p_hash p);
  wf_revision : opt_ok number (p_revision p)
}.

(** The suffix [-gc64] right after the numbers reads as a hash. *)
Definition gc_as_hash (p : version_parts) : Prop :=
  p_hash p = None /\ p_revision p = None /\ p_gc p = Some true.

Open Scope go_scope.
Definition meaning (p : version_parts) : result Version :=
  major <-? AtoiUint64 (p_major p);;
  minor <-? AtoiUint64 (p_minor p);;
  patch <-? AtoiUint64 (p_patch p);;
  release <-? match p_release p with
              | None => Ok (mkRelease TypeRelease 0 "")
              | Some (t, num) => newRelease t num
              end;;
  additional <-? match p_additional p with None => Ok 0%Z | Some a => AtoiUint64 a end;;
  revision <-? match p_revision p with None => Ok 0%Z | Some r => AtoiUint64 r end;;
  Ok (mkVersion major minor patch additional revision release
        (opt_text (fun h => "g" +:+ h) (p_hash p)) (print_parts p) "" (default "" (p_build p))).
Close Scope go_scope.

(** ** Units of the parts *)
Definition opt_units {A} (f : A -> list string) (o : option A) : list string :=
  match o with Some a => f a | None => [] end.

Definition dash : string := unit1 "-".
Definition dot : string := unit1 ".".

Definition front_units (B : option (list string)) (v : bool) (M N P : list string)
    (R : option (list string * list string)) (A : option (list string)) : list string :=
  opt_units (fun b => b ++ [dash]) B ++ (if v then [unit1 "v"] else [])
  ++ M ++ dot :: N ++ dot :: P ++ opt_units (fun r => dash :: r.1 ++ r.2) R
  ++ opt_units (fun a => dash :: a) A.

Definition back_units (H Rv : option (list string)) (G : option bool) : list string :=
  opt_units (fun h => dash :: unit1 "g" :: h) H ++ opt_units (fun r => dash :: unit1 "r" :: r) Rv
  ++ opt_units (fun b : bool => chars (if b then "-gc64" else "-nogc64")) G.

Definition digit_units (l : list string) : Prop := l <> [] /\ all_units (one_of digits) l.
Definition hex_units (l : list string) : Prop := l <> [] /\ all_units (one_of "abcdef0123456789") l.
Definition release_units (r : list string * list string) : Prop :=
  r.1 ∈ map chars ["entrypoint"; "rc"; "alpha"; "beta"] /\ (r.2 = [] \/ digit_units r.2).

(** ** Matches of the pattern have parts *)
Lemma gmatch_lit s l g : gmatch (lit s) l g -> l = chars s /\ g = [].
Proof.
  revert l g. induction s as [|a s IH]; intros l g; [done|].
  intros (l1 & l2 & g1 & g2 & -> & -> & (u & -> & Hu & ->) & [-> ->]%IH).
  by apply bool_decide_eq_true in Hu as ->.
Qed.

Lemma gmatch_plus_unit p l g :
  gmatch (RPlus (RUnit p)) l g -> l <> [] /\ all_units p l /\ g = [].
Proof.
  intros (l1 & l2 & g1 & g2 & -> & -> & (u & -> & Hu & ->) & ls & -> & -> & Hls).
  split; [done|]. assert (all_units p (concat ls.*1) /\ concat ls.*2 = []) as [H1 H2].
  { induction Hls as [|[x gx] ls [_ (w & Hx & Hw & Hg)] _ [IH1 IH2]]; [by split; [constructor|]|].
    cbn [fst snd] in *. subst x gx. split; [by constructor|done]. }
  split; [by constructor|]. by rewrite H2.
Qed.

Lemma gmatch_opt r l g : gmatch (ROpt r) l g -> gmatch r l g \/ (l = [] /\ g = []).
Proof. intros [H|[-> ->]]; auto. Qed.

Lemma gmatch_digits name l g :
  gmatch (RGroup name digits_re) l g -> digit_units l /\ g = [(name, l)].
Proof. intros (g' & -> & (H1 & H2 & ->)%gmatch_plus_unit). by split. Qed.

Definition opt_group (name : string) (o : option (list string)) : groups :=
  match o with Some l => [(name, l)] | None => [] end.

(** The groups of a release and its number. *)
Definition release_groups (R : option (list string * list string)) : groups :=
  match R with
  | None => []
  | Some (t, []) => [("release", t)]
  | Some (t, n) => [("release", t); ("releaseNum", n)]
  end.

Definition front_groups (B : option (list string)) (M N P : list string)
    (R : option (list string * list string)) (A : option (list string)) : groups :=
  opt_group "buildname" B ++ ("major", M) :: ("minor", N) :: ("patch", P)
  :: release_groups R ++ opt_group "additional" A.

Definition build_units (b : list string) : Prop := b <> [] /\ all_units any_char b.

Lemma gmatch_opt_digits name l g pre :
  gmatch (ROpt (RSeq (lit pre) (RGroup name digits_re))) l g ->
  exists o, l = opt_units (fun a => chars pre ++ a) o /\ g = opt_group name o /\ opt_ok digit_units o.
Proof.
  intros [(l1 & l2 & g1 & g2 & -> & -> & [-> ->]%gmatch_lit & [Hd ->]%gmatch_digits)|[-> ->]]%gmatch_opt.
  - by exists (Some l2).
  - by exists None.
Qed.

Lemma gmatch_release l g :
  gmatch (ROpt (RSeq (lit "-") (RSeq
    (RGroup "release" (RAlt (RAlt (RAlt (lit "entrypoint") (lit "rc")) (lit "alpha")) (lit "beta")))
    (ROpt (RGroup "releaseNum" digits_re))))) l g ->
  exists R, l = opt_units (fun r => dash :: r.1 ++ r.2) R /\ g = release_groups R /\
    opt_ok release_units R.
Proof.
  intros [(l1 & l2 & g1 & g2 & -> & -> & [-> ->]%gmatch_lit & l3 & l4 & g3 & g4 & -> & -> &
    (g' & -> & Ht) & Hn)|[-> ->]]%gmatch_opt; [|by exists None].
  assert (l3 ∈ map chars ["entrypoint"; "rc"; "alpha"; "beta"] /\ g' = []) as [Hl3 ->].
  { destruct Ht as [[[[-> ->]%gmatch_lit|[-> ->]%gmatch_lit]|[-> ->]%gmatch_lit]|[-> ->]%gmatch_lit];
      (split; [|done]); vm_compute; set_solver. }
  apply gmatch_opt in Hn as [[Hd ->]%gmatch_digits|[-> ->]].
  - exists (Some (l3, l4)). split; [done|]. split; [by destruct l4, Hd|]. split; [done|by right].
  - exists (Some (l3, [])). split; [done|]. split; [done|]. split; [done|by left].
Qed.

Lemma gmatch_front l g :
  gmatch version_front_re l g ->
  exists B v M N P R A, l = front_units B v M N P R A /\ g = front_groups B M N P R A /\
    opt_ok build_units B /\ digit_units M /\ digit_units N /\ digit_units P /\
    opt_ok release_units R /\ opt_ok digit_units A.
Proof.
  intros (lB & l1 & gB & g1 & -> & -> & HB & lV & l2 & gV & g2 & -> & -> & HV & M & l3 & gM & g3 &
    -> & -> & [HM ->]%gmatch_digits & ld1 & l4 & gd1 & g4 & -> & -> & [-> ->]%gmatch_lit & N & l5 &
    gN & g5 & -> & -> & [HN ->]%gmatch_digits & ld2 & l6 & gd2 & g6 & -> & -> & [-> ->]%gmatch_lit &
    P & l7 & gP & g7 & -> & -> & [HP ->]%gmatch_digits & lR & lA & gR & gA & -> & -> &
    (R & -> & -> & HR)%gmatch_release & (A & -> & -> & HA)%gmatch_opt_digits).
  assert (exists B, lB = opt_units (fun b => b ++ [dash]) B /\ gB = opt_group "buildname" B /\
    opt_ok build_units B) as (B & -> & -> & HB').
  { apply gmatch_opt in HB as [(b & ld & gb & gd & -> & -> & (g' & -> & (H1 & H2 & ->)%gmatch_plus_unit)
      & [-> ->]%gmatch_lit)|[-> ->]]; [by exists (Some b)|by exists None]. }
  assert (exists v : bool, lV = (if v then [unit1 "v"] else []) /\ gV = []) as (v & -> & ->).
  { apply gmatch_opt in HV as [[-> ->]%gmatch_lit|[-> ->]]; [by exists true|by exists false]. }
  exists B, v, M, N, P, R, A. unfold front_units, front_groups. split_and!; done.
Qed.

Lemma gmatch_back l g :
  gmatch version_back_re l g ->
  exists H Rv G, l = back_units H Rv G /\
    g = opt_group "hash" (option_map (cons (unit1 "g")) H) ++ opt_group "revision" Rv /\
    opt_ok hex_units H /\ opt_ok digit_units Rv.
Proof.
  intros (lH & l1 & gH & g1 & -> & -> & HH & lR & lG & gR & gG & -> & -> &
    (Rv & -> & -> & HR)%gmatch_opt_digits & HG).
  assert (exists H, lH = opt_units (fun h => dash :: unit1 "g" :: h) H /\
    gH = opt_group "hash" (option_map (cons (unit1 "g")) H) /\ opt_ok hex_units H)
    as (H & -> & -> & HH').
  { apply gmatch_opt in HH as [(ld & l2 & gd & g2 & -> & -> & [-> ->]%gmatch_lit & g' & -> &
      lg & h & gg & gh & -> & -> & [-> ->]%gmatch_lit & (H1 & H2 & ->)%gmatch_plus_unit)|[-> ->]];
      [by exists (Some h)|by exists None]. }
  assert (exists G : option bool,
    lG = opt_units (fun b : bool => chars (if b then "-gc64" else "-nogc64")) G /\ gG = [])
    as (G & -> & ->).
  { apply gmatch_opt in HG as [[[-> ->]%gmatch_lit|[-> ->]%gmatch_lit]|[-> ->]];
      [by exists (Some true)|by exists (Some false)|by exists None]. }
  exists H, Rv, G. unfold back_units. rewrite app_nil_r. done.
Qed.

(** ** Texts have one decomposition *)
Lemma first_sep_unique {A} (x : A) X1 Y1 X2 Y2 :
  x ∉ X1 -> x ∉ X2 -> X1 ++ x :: Y1 = X2 ++ x :: Y2 -> X1 = X2 /\ Y1 = Y2.
Proof.
  revert X2. induction X1 as [|a X1 IH]; intros [|b X2] H1 H2; simpl.
  - by intros [= ->].
  - intros [= -> _]. exfalso. apply H2. left.
  - intros [= -> _]. exfalso. apply H1. left.
  - intros [= -> E]. rewrite not_elem_of_cons in H1, H2.
    by destruct (IH X2 (proj2 H1) (proj2 H2) E) as [-> ->].
Qed.

Lemma last_sep_unique {A} (x : A) X1 Y1 X2 Y2 :
  x ∉ Y1 -> x ∉ Y2 -> X1 ++ x :: Y1 = X2 ++ x :: Y2 -> X1 = X2 /\ Y1 = Y2.
Proof.
  intros H1 H2 E. apply (f_equal (@rev _)) in E. rewrite !rev_app_distr in E. simpl in E.
  rewrite <-!app_assoc in E.
  destruct (first_sep_unique x (rev Y1) (rev X1) (rev Y2) (rev X2)) as [EY EX]; [..|done|].
  - by rewrite list_elem_of_In, <-in_rev, <-list_elem_of_In.
  - by rewrite list_elem_of_In, <-in_rev, <-list_elem_of_In.
  - apply (f_equal (@rev _)) in EY, EX. by rewrite !rev_involutive in EY, EX.
Qed.

Lemma all_units_notin p l u : all_units p l -> p u = false -> u ∉ l.
Proof. intros Hl Hu Hin. pose proof (proj1 (Forall_forall _ _) Hl u Hin). simpl in *. congruence. Qed.

(** The segments of a tail, each after a dash. *)
Definition no_dash (u : string) : bool := negb (is_char "-" u).
Definition segments (ss : list (list string)) : list string := flat_map (cons dash) ss.

Lemma segments_head ss u l : segments ss = u :: l -> no_dash u = false.
Proof. destruct ss as [|s ss]; [done|]. intros [= <- _]. done. Qed.

Lemma segments_not_digit ss u l : segments ss = u :: l -> one_of digits u = false.
Proof.
  intros Hu%segments_head. apply negb_false_iff, bool_decide_eq_true in Hu as ->. reflexivity.
Qed.

Lemma segments_inj ss1 ss2 :
  Forall (all_units no_dash) ss1 -> Forall (all_units no_dash) ss2 ->
  segments ss1 = segments ss2 -> ss1 = ss2.
Proof.
  intros H1. revert ss2. induction H1 as [|s1 ss1 Hs1 _ IH]; intros ss2 H2.
  - by destruct ss2.
  - destruct H2 as [|s2 ss2 Hs2 H2]; [done|]. unfold segments. cbn [flat_map app].
    intros [= E]. fold (segments ss1) (segments ss2) in E.
    pose proof (span_app no_dash s1 (segments ss1) Hs1 (segments_head ss1)) as P1.
    rewrite E, (span_app no_dash s2 (segments ss2) Hs2 (segments_head ss2)) in P1.
    injection P1 as -> E'. by rewrite (IH ss2).
Qed.

Definition opt_list {A B} (f : A -> B) (o : option A) : list B :=
  match o with Some a => [f a] | None => [] end.

Definition gc_units (b : bool) : list string := chars (if b then "gc64" else "nogc64").

Definition tail_segments (R : option (list string * list string)) (A H Rv : option (list string))
    (G : option bool) : list (list string) :=
  opt_list (fun r => r.1 ++ r.2) R ++ opt_list id A ++ opt_list (cons (unit1 "g")) H
  ++ opt_list (cons (unit1 "r")) Rv ++ opt_list gc_units G.

Lemma tail_units R A H Rv G :
  opt_units (fun r => dash :: r.1 ++ r.2) R ++ opt_units (fun a => dash :: a) A ++ back_units H Rv G =
  segments (tail_segments R A H Rv G).
Proof.
  unfold back_units, segments, tail_segments. rewrite !flat_map_app.
  f_equal; [destruct R; simpl; by rewrite ?app_nil_r|].
  f_equal; [destruct A; simpl; by rewrite ?app_nil_r|].
  f_equal; [destruct H; simpl; by rewrite ?app_nil_r|].
  f_equal; [destruct Rv; simpl; by rewrite ?app_nil_r|].
  destruct G as [[]|]; done.
Qed.

(** What a segment is, read off its first characters. *)
Definition kind (s : list string) : nat :=
  match s with
  | [] => 0
  | u :: s' =>
      if one_of digits u then 2
      else if is_char "g" u || is_char "n" u then 3
      else if is_char "r" u then
        match s' with
        | w :: _ => if is_char "c" w then 1 else 4
        | [] => 0
        end
      else 1
  end.

Lemma all_units_weaken (p q : string -> bool) l :
  (forall u, p u = true -> q u = true) -> all_units p l -> all_units q l.
Proof. intros Hpq Hl. eapply Forall_impl; [exact Hl|]. exact Hpq. Qed.

Lemma one_of_char cs u : one_of cs u = true -> exists c, c ∈ String.list_ascii_of_string cs /\ u = unit1 c.
Proof.
  induction cs as [|c cs IH]; [done|]. simpl. intros [H|H]%orb_prop.
  - apply bool_decide_eq_true in H. exists c. split; [left|done].
  - destruct (IH H) as (d & Hd & ->). exists d. split; [by right|done].
Qed.

(** A class that is not met by a character. *)
Lemma one_of_imp cs (q : string -> bool) :
  forallb (fun c => q (unit1 c)) (String.list_ascii_of_string cs) = true ->
  forall u, one_of cs u = true -> q u = true.
Proof.
  intros Hq u (c & Hc & ->)%one_of_char. rewrite forallb_forall in Hq.
  apply Hq. by apply list_elem_of_In.
Qed.

Lemma digit_no_dash l : digit_units l -> all_units no_dash l.
Proof. intros [_ H]. eapply all_units_weaken; [|exact H]. apply one_of_imp. reflexivity. Qed.
Lemma hex_no_dash l : hex_units l -> all_units no_dash l.
Proof. intros [_ H]. eapply all_units_weaken; [|exact H]. apply one_of_imp. reflexivity. Qed.
Lemma digit_no_dot l : digit_units l -> dot ∉ l.
Proof. intros [_ H]. by eapply all_units_notin. Qed.

Lemma digit_dash l : digit_units l -> dash ∉ l.
Proof. intros [_ H]. by eapply all_units_notin. Qed.

Lemma kind_digits l : digit_units l -> kind l = 2.
Proof. intros [Hne H]. destruct H as [|u l Hu _]; [done|]. cbn [kind]. by rewrite Hu. Qed.

Lemma kind_revision l : digit_units l -> kind (unit1 "r" :: l) = 4.
Proof.
  intros [Hne H]. destruct H as [|u l Hu _]; [done|]. cbn [kind].
  change (one_of digits (unit1 "r")) with false. cbn iota.
  change (is_char "g" (unit1 "r") || is_char "n" (unit1 "r")) with false. cbn iota.
  change (is_char "r" (unit1 "r")) with true. cbn iota.
  replace (is_char "c" u) with false; [done|]. symmetry. apply negb_true_iff.
  clear Hne; revert u Hu. apply (one_of_imp digits (fun u => negb (is_char "c" u))). reflexivity.
Qed.

Lemma release_segment r : release_units r -> kind (r.1 ++ r.2) = 1 /\ all_units no_dash (r.1 ++ r.2).
Proof.
  intros [Ht Hn]. destruct r as [t n]. cbn [fst snd] in *.
  assert (all_units no_dash n) as Hn'.
  { destruct Hn as [->|Hn]; [constructor|]. by apply digit_no_dash. }
  simpl in Ht. rewrite !elem_of_cons, elem_of_nil in Ht.
  destruct Ht as [->|[->|[->|[->|[]]]]]; (split; [reflexivity|]); repeat (constructor; [done|]); done.
Qed.

Lemma tail_segments_ok R A H Rv G :
  opt_ok release_units R -> opt_ok digit_units A -> opt_ok hex_units H -> opt_ok digit_units Rv ->
  Forall (all_units no_dash) (tail_segments R A H Rv G) /\
  List.filter (fun s => Nat.eqb (kind s) 1) (tail_segments R A H Rv G)
    = opt_list (fun r => r.1 ++ r.2) R /\
  List.filter (fun s => Nat.eqb (kind s) 2) (tail_segments R A H Rv G) = opt_list id A /\
  List.filter (fun s => Nat.eqb (kind s) 4) (tail_segments R A H Rv G)
    = opt_list (cons (unit1 "r")) Rv.
Proof.
  intros HR HA HH HRv. unfold tail_segments.
  assert (Forall (fun s => kind s = 1 /\ all_units no_dash s) (opt_list (fun r => r.1 ++ r.2) R)) as FR.
  { destruct R; constructor; [by apply release_segment|done]. }
  assert (Forall (fun s => kind s = 2 /\ all_units no_dash s) (opt_list id A)) as FA.
  { destruct A; constructor; [|done]. split; [by apply kind_digits|by apply digit_no_dash]. }
  assert (Forall (fun s => kind s = 3 /\ all_units no_dash s) (opt_list (cons (unit1 "g")) H)) as FH.
  { destruct H; constructor; [|done]. split; [done|]. constructor; [done|by apply hex_no_dash]. }
  assert (Forall (fun s => kind s = 4 /\ all_units no_dash s) (opt_list (cons (unit1 "r")) Rv)) as FRv.
  { destruct Rv; constructor; [|done]. split; [by apply kind_revision|].
    constructor; [done|by apply digit_no_dash]. }
  assert (Forall (fun s => kind s = 3 /\ all_units no_dash s) (opt_list gc_units G)) as FG.
  { destruct G as [[]|]; constructor; try done; (split; [reflexivity|]);
      repeat (constructor; [done|]); constructor. }
  set (lR := opt_list _ R) in *. set (lA := opt_list _ A) in *. set (lH := opt_list _ H) in *.
  set (lRv := opt_list _ Rv) in *. set (lG := opt_list _ G) in *.
  split; [by repeat (apply Forall_app; split); eapply Forall_impl; eauto; intros ? []|].
  assert (forall k j l, Forall (fun s => kind s = k /\ all_units no_dash s) l ->
    List.filter (fun s => Nat.eqb (kind s) j) l = if Nat.eqb k j then l else []) as Hf.
  { intros k j l Hl. induction Hl as [|s l [Hk _] _ IH]; [by destruct (Nat.eqb k j)|]. simpl.
    rewrite Hk, IH. by destruct (Nat.eqb k j). }
  rewrite !List.filter_app.
  rewrite !(Hf 1 _ _ FR), !(Hf 2 _ _ FA), !(Hf 3 _ _ FH), !(Hf 4 _ _ FRv), !(Hf 3 _ _ FG).
  cbn. rewrite !app_nil_r. done.
Qed.

(** The numbers of a version, between a build name and a tail. *)
Lemma numbers_unique B v M N P ss B' v' M' N' P' ss' :
  digit_units M -> digit_units N -> digit_units P ->
  digit_units M' -> digit_units N' -> digit_units P' ->
  dot ∉ segments ss -> dot ∉ segments ss' ->
  opt_units (fun b => b ++ [dash]) B ++ (if v : bool then [unit1 "v"] else [])
    ++ M ++ dot :: N ++ dot :: P ++ segments ss =
  opt_units (fun b => b ++ [dash]) B' ++ (if v' : bool then [unit1 "v"] else [])
    ++ M' ++ dot :: N' ++ dot :: P' ++ segments ss' ->
  B = B' /\ v = v' /\ M = M' /\ N = N' /\ P = P' /\ segments ss = segments ss'.
Proof.
  intros HM HN HP HM' HN' HP' Hs Hs'.
  set (b := opt_units _ B). set (b' := opt_units _ B').
  intros E.
  assert (forall b (V M N X : list string), b ++ V ++ M ++ dot :: N ++ dot :: X =
    ((b ++ V ++ M) ++ dot :: N) ++ dot :: X) as Eassoc.
  { intros. rewrite <-!app_assoc. simpl. done. }
  rewrite !Eassoc in E. clear Eassoc.
  apply last_sep_unique in E as [E EP];
    [|by rewrite elem_of_app; intros [?%digit_no_dot|?]..].
  apply last_sep_unique in E as [E ->]; [|by apply digit_no_dot..].
  pose proof (span_app _ P (segments ss) (proj2 HP) (segments_not_digit ss)) as SP.
  rewrite EP, (span_app _ P' (segments ss') (proj2 HP') (segments_not_digit ss')) in SP.
  injection SP as -> Ess.
  set (V := if v then _ else _) in E. set (V' := if v' then _ else _) in E.
  assert (dash ∉ V ++ M) as Hd.
  { rewrite elem_of_app. intros [HV|HV].
    - destruct v; [apply list_elem_of_singleton in HV; done|by apply not_elem_of_nil in HV].
    - revert HV. by apply digit_dash. }
  assert (dash ∉ V' ++ M') as Hd'.
  { rewrite elem_of_app. intros [HV|HV].
    - destruct v'; [apply list_elem_of_singleton in HV; done|by apply not_elem_of_nil in HV].
    - revert HV. by apply digit_dash. }
  assert (B = B' /\ V ++ M = V' ++ M') as [-> EV].
  { unfold b, b' in E. destruct B as [c|], B' as [c'|]; cbn [opt_units] in E;
      rewrite <- ?app_assoc in E; cbn [app] in E.
    - apply last_sep_unique in E as [-> ->]; done.
    - exfalso. apply Hd'. rewrite <-E, elem_of_app, elem_of_cons. auto.
    - exfalso. apply Hd. rewrite E, elem_of_app, elem_of_cons. auto.
    - done. }
  assert (forall X, digit_units X -> forall Y, X <> unit1 "v" :: Y) as Hv.
  { intros X [_ HX] Y ->. apply Forall_cons in HX as [HX _]. done. }
  destruct v, v'; simpl in EV; try (injection EV as ->).
  - done.
  - by apply eq_sym, Hv in EV.
  - by apply Hv in EV.
  - by subst M'.
Qed.

Lemma segments_no_dot R A H Rv G :
  opt_ok release_units R -> opt_ok digit_units A -> opt_ok hex_units H -> opt_ok digit_units Rv ->
  dot ∉ segments (tail_segments R A H Rv G).
Proof.
  intros HR HA HH HRv. rewrite <-tail_units. unfold back_units.
  rewrite !not_elem_of_app. split_and!.
  - destruct R as [[t n]|]; [|apply not_elem_of_nil]. destruct HR as [Ht Hn]. cbn in *.
    apply not_elem_of_cons. split; [done|]. apply not_elem_of_app. split.
    + rewrite !elem_of_cons, elem_of_nil in Ht.
      destruct Ht as [->|[->|[->|[->|[]]]]]; vm_compute; set_solver.
    + destruct Hn as [->|Hn]; [apply not_elem_of_nil|by apply digit_no_dot].
  - destruct A; [|apply not_elem_of_nil]. apply not_elem_of_cons. split; [done|by apply digit_no_dot].
  - destruct H; [|apply not_elem_of_nil]. cbn [opt_units]. rewrite !not_elem_of_cons. split_and!; [done..|].
    by eapply all_units_notin; [apply HH|].
  - destruct Rv; [|apply not_elem_of_nil]. cbn [opt_units]. rewrite !not_elem_of_cons.
    split_and!; [done..|by apply digit_no_dot].
  - destruct G as [[]|]; vm_compute; set_solver.
Qed.

Lemma release_units_inj r r' :
  release_units r -> release_units r' -> r.1 ++ r.2 = r'.1 ++ r'.2 -> r = r'.
Proof.
  assert (forall t n, t ∈ map chars ["entrypoint"; "rc"; "alpha"; "beta"] ->
    n = [] \/ digit_units n ->
    span (fun u => negb (one_of digits u)) (t ++ n) = (t, n)) as Hspan.
  { intros t n Ht Hn. apply span_app.
    - simpl in Ht. rewrite !elem_of_cons, elem_of_nil in Ht.
      destruct Ht as [->|[->|[->|[->|[]]]]]; repeat (constructor; [done|]); constructor.
    - intros u l ->. destruct Hn as [|[_ Hn]]; [done|]. apply Forall_cons in Hn as [Hn _].
      by rewrite Hn. }
  destruct r as [t n], r' as [t' n']. intros [Ht Hn] [Ht' Hn'] E. cbn [fst snd] in *.
  pose proof (Hspan t n Ht Hn) as S. rewrite E, (Hspan t' n' Ht' Hn') in S. by simplify_eq.
Qed.

Lemma opt_list_inj {A B} (f : A -> B) (P : A -> Prop) o o' :
  (forall a b, P a -> P b -> f a = f b -> a = b) -> opt_ok P o -> opt_ok P o' ->
  opt_list f o = opt_list f o' -> o = o'.
Proof. intros Hf Ho Ho' E. destruct o, o'; simplify_eq/=; [|done]. f_equal. by apply Hf. Qed.

(** Two decompositions of one text agree up to the hash and the suffix. *)
Lemma parts_unique B v M N P R A H Rv G B' v' M' N' P' R' A' H' Rv' G' :
  digit_units M -> digit_units N -> digit_units P -> opt_ok release_units R ->
  opt_ok digit_units A -> opt_ok hex_units H -> opt_ok digit_units Rv ->
  digit_units M' -> digit_units N' -> digit_units P' -> opt_ok release_units R' ->
  opt_ok digit_units A' -> opt_ok hex_units H' -> opt_ok digit_units Rv' ->
  front_units B v M N P R A ++ back_units H Rv G =
  front_units B' v' M' N' P' R' A' ++ back_units H' Rv' G' ->
  B = B' /\ v = v' /\ M = M' /\ N = N' /\ P = P' /\ R = R' /\ A = A' /\ Rv = Rv' /\
  opt_list (cons (unit1 "g")) H ++ opt_list (cons (unit1 "r")) Rv ++ opt_list gc_units G =
  opt_list (cons (unit1 "g")) H' ++ opt_list (cons (unit1 "r")) Rv ++ opt_list gc_units G'.
Proof.
  intros HM HN HP HR HA HH HRv HM' HN' HP' HR' HA' HH' HRv' E.
  assert (forall B v M N P R A H Rv G, front_units B v M N P R A ++ back_units H Rv G =
    opt_units (fun b => b ++ [dash]) B ++ (if v then [unit1 "v"] else [])
      ++ M ++ dot :: N ++ dot :: P ++ segments (tail_segments R A H Rv G)) as Ef.
  { clear. intros. unfold front_units. rewrite <-tail_units, <-!app_assoc. simpl.
    rewrite <-!app_assoc. simpl. rewrite <-!app_assoc. done. }
  rewrite !Ef in E. apply numbers_unique in E as (-> & -> & -> & -> & -> & E);
    [|done..|by apply segments_no_dot|by apply segments_no_dot].
  destruct (tail_segments_ok R A H Rv G) as (Hnd & F1 & F2 & F4); [done..|].
  destruct (tail_segments_ok R' A' H' Rv' G') as (Hnd' & F1' & F2' & F4'); [done..|].
  apply segments_inj in E; [|done..]. rewrite E, F1' in F1. rewrite E, F2' in F2.
  rewrite E, F4' in F4.
  assert (R = R') as ->.
  { eapply opt_list_inj; [|exact HR|exact HR'|exact (eq_sym F1)]. apply release_units_inj. }
  assert (A = A') as ->.
  { eapply (opt_list_inj id); [|exact HA|exact HA'|exact (eq_sym F2)]. done. }
  assert (Rv = Rv') as ->.
  { eapply (opt_list_inj (cons (unit1 "r"))); [|exact HRv|exact HRv'|exact (eq_sym F4)].
    intros. by simplify_eq. }
  unfold tail_segments in E. by do 2 apply app_inv_head in E.
Qed.

(** ** Strings and units *)
Lemma ascii_string_app a b : ascii_string (a +:+ b) = ascii_string a && ascii_string b.
Proof. induction a as [|c a IH]; [done|]. simpl. by rewrite IH, andb_assoc. Qed.

Lemma word_ascii cs s : ascii_string cs = true -> word_of cs s -> ascii_string s = true.
Proof.
  intros Hcs [_ Hs]. induction s as [|c s IH]; [done|]. apply Forall_cons in Hs as [Hc Hs].
  simpl. rewrite IH, andb_true_r by done. apply one_of_char in Hc as (d & Hd & [= ->]).
  clear -Hcs Hd. induction cs as [|e cs IH]; [by apply not_elem_of_nil in Hd|].
  simpl in *. apply andb_prop in Hcs as [He Hcs]. apply elem_of_cons in Hd as [->|Hd]; auto.
Qed.

Lemma chars_nil s : chars s = [] -> s = "".
Proof. by destruct s. Qed.

Lemma number_units s : number s -> digit_units (chars s).
Proof. intros [Hne Hs]. split; [|done]. by intros ?%chars_nil. Qed.

(** A sequence of characters of a class is the text of a string. *)
Lemma units_chars cs l : all_units (one_of cs) l -> l = chars (text l).
Proof.
  induction 1 as [|u l Hu _ IH]; [done|]. apply one_of_char in Hu as (c & _ & ->).
  rewrite text_cons, chars_app, <-IH. done.
Qed.

Lemma units_word cs l : l <> [] -> all_units (one_of cs) l -> word_of cs (text l).
Proof.
  intros Hne Hl. split; [|by rewrite <-(units_chars cs)].
  destruct Hl as [|u l Hu _]; [done|]. apply one_of_char in Hu as (c & _ & ->).
  by rewrite text_cons.
Qed.

Definition pair_chars (r : string * string) : list string * list string := (chars r.1, chars r.2).

Definition parts_front (p : version_parts) : list string :=
  front_units (option_map runes (p_build p)) (p_v p) (chars (p_major p)) (chars (p_minor p))
    (chars (p_patch p)) (option_map pair_chars (p_release p)) (option_map chars (p_additional p)).
Definition parts_back (p : version_parts) : list string :=
  back_units (option_map chars (p_hash p)) (option_map chars (p_revision p)) (p_gc p).

(** What follows the build name is ASCII. *)
Definition print_rest (p : version_parts) : string :=
  (if p_v p then "v" else "")
  +:+ p_major p +:+ "." +:+ p_minor p +:+ "." +:+ p_patch p
  +:+ opt_text (fun r => "-" +:+ r.1 +:+ r.2) (p_release p)
  +:+ opt_text (fun a => "-" +:+ a) (p_additional p) +:+ print_tail p.

Lemma print_rest_ascii p : wf_parts p -> ascii_string (print_rest p) = true.
Proof.
  intros [_ HM HN HP HR HA HH HRv]. unfold print_rest, print_tail.
  assert (forall s, number s -> ascii_string s = true) as Hnum by (intros s; by apply word_ascii).
  rewrite !ascii_string_app, (Hnum (p_major p)), (Hnum (p_minor p)), (Hnum (p_patch p)) by done.
  replace (ascii_string (if p_v p then "v" else "")) with true by (by destruct (p_v p)).
  replace (ascii_string (opt_text _ (p_release p))) with true; [|destruct (p_release p) as [[t n]|]; [|done]].
  2: { destruct HR as [Ht Hn]. cbn in *. rewrite ascii_string_app.
    replace (ascii_string n) with true
      by (destruct Hn as [->|Hn]; [done|]; symmetry; by apply Hnum).
    rewrite !elem_of_cons, elem_of_nil in Ht. by destruct Ht as [->|[->|[->|[->|[]]]]]. }
  replace (ascii_string (opt_text _ (p_additional p))) with true
    by (destruct (p_additional p); [|done]; symmetry; exact (Hnum _ HA)).
  replace (ascii_string (opt_text _ (p_hash p))) with true
    by (destruct (p_hash p); [|done]; symmetry; exact (word_ascii "abcdef0123456789" s eq_refl HH)).
  replace (ascii_string (opt_text _ (p_revision p))) with true
    by (destruct (p_revision p); [|done]; symmetry; exact (Hnum _ HRv)).
  by destruct (p_gc p) as [[]|].
Qed.

Lemma chars_opt {A} (f : A -> string) (g : A -> list string) o :
  (forall a, chars (f a) = g a) -> chars (opt_text f o) = opt_units g o.
Proof. intros H. destruct o; [apply H|done]. Qed.

Lemma opt_units_map {A B} (f : A -> B) (g : B -> list string) o :
  opt_units g (option_map f o) = opt_units (fun a => g (f a)) o.
Proof. by destruct o. Qed.

Lemma print_units p : wf_parts p -> runes (print_parts p) = parts_front p ++ parts_back p.
Proof.
  intros Hwf. assert (runes (print_parts p) =
    opt_units (fun b => b ++ [dash]) (option_map runes (p_build p)) ++ chars (print_rest p)) as ->.
  { change (print_parts p) with (opt_text (fun b => b +:+ "-") (p_build p) +:+ print_rest p).
    rewrite <-(runes_ascii (print_rest p)) by (by apply print_rest_ascii).
    destruct (p_build p) as [b|]; [|done]. cbn [opt_text option_map opt_units].
    rewrite string_app_assoc, <-app_assoc. simpl. by rewrite runes_app_ascii. }
  unfold parts_front, parts_back, front_units, back_units, print_rest, print_tail.
  rewrite !chars_app, !opt_units_map. rewrite <-!app_assoc. f_equal.
  replace (chars (if p_v p then "v" else "")) with (if p_v p then [unit1 "v"] else [])
    by (by destruct (p_v p)).
  cbn [app]. rewrite <-!app_assoc. cbn [app]. rewrite <-!app_assoc.
  rewrite (chars_opt _ (fun r : string * string => dash :: chars r.1 ++ chars r.2))
    by (intros; by rewrite !chars_app).
  rewrite (chars_opt _ (fun a => dash :: chars a) (p_additional p)) by (intros; by rewrite !chars_app).
  rewrite (chars_opt _ (fun h => dash :: unit1 "g" :: chars h)) by (intros; by rewrite !chars_app).
  rewrite (chars_opt _ (fun h => dash :: unit1 "r" :: chars h)) by (intros; by rewrite !chars_app).
  rewrite (chars_opt _ (fun b : bool => chars (if b then "-gc64" else "-nogc64"))) by (by intros []).
  done.
Qed.

(** ** Well-formed parts match *)
Lemma lang_lit_chars s : lang (lit s) (chars s).
Proof.
  induction s as [|a s IH]; [done|]. exists [unit1 a], (chars s). split; [done|]. split; [|done].
  exists (unit1 a). split; [done|]. by apply bool_decide_eq_true.
Qed.

Lemma lang_seq r1 r2 l1 l2 : lang r1 l1 -> lang r2 l2 -> lang (RSeq r1 r2) (l1 ++ l2).
Proof. intros. by exists l1, l2. Qed.

Lemma lang_opt {A} r (f : A -> list string) o :
  opt_ok (fun a => lang r (f a)) o -> lang (ROpt r) (opt_units f o).
Proof. destruct o; [by left|by right]. Qed.

Lemma lang_digits l : digit_units l -> lang digits_re l.
Proof. intros [Hne Hl]. by apply lang_plus_units. Qed.

Lemma opt_ok_impl {A} (P Q : A -> Prop) o : (forall a, P a -> Q a) -> opt_ok P o -> opt_ok Q o.
Proof. destruct o; simpl; auto. Qed.

Lemma lang_front B v M N P R A :
  opt_ok build_units B -> digit_units M -> digit_units N -> digit_units P ->
  opt_ok release_units R -> opt_ok digit_units A -> lang version_front_re (front_units B v M N P R A).
Proof.
  intros HB HM HN HP HR HA. unfold version_front_re, front_units.
  apply lang_seq.
  { apply lang_opt. eapply opt_ok_impl; [|exact HB]. intros b [Hne Hb].
    apply lang_seq; [by apply lang_plus_units|apply (lang_lit_chars "-")]. }
  apply lang_seq.
  { destruct v; [left; apply (lang_lit_chars "v")|by right]. }
  apply lang_seq; [by apply lang_digits|].
  change (dot :: ?x) with ([dot] ++ x). apply lang_seq; [apply (lang_lit_chars ".")|].
  apply lang_seq; [by apply lang_digits|].
  change (dot :: ?x) with ([dot] ++ x). apply lang_seq; [apply (lang_lit_chars ".")|].
  apply lang_seq; [by apply lang_digits|].
  apply lang_seq; apply lang_opt.
  - eapply opt_ok_impl; [|exact HR]. intros [t n] [Ht Hn].
    apply (lang_seq _ _ [dash]); [apply (lang_lit_chars "-")|]. cbn [fst snd] in *.
    apply lang_seq.
    + simpl in Ht. rewrite !elem_of_cons, elem_of_nil in Ht.
      destruct Ht as [->|[->|[->|[->|[]]]]]; [do 3 left|do 2 left; right|left; right|right];
        apply lang_lit_chars.
    + destruct Hn as [->|Hn]; [by right|left; by apply lang_digits].
  - eapply opt_ok_impl; [|exact HA]. intros a Ha.
    apply (lang_seq _ _ [dash]); [apply (lang_lit_chars "-")|by apply lang_digits].
Qed.

Lemma lang_back H Rv G :
  opt_ok hex_units H -> opt_ok digit_units Rv -> lang version_back_re (back_units H Rv G).
Proof.
  intros HH HRv. unfold version_back_re, back_units. apply lang_seq; [|apply lang_seq]; apply lang_opt.
  - eapply opt_ok_impl; [|exact HH]. intros h [Hne Hh].
    apply (lang_seq _ _ [dash]); [apply (lang_lit_chars "-")|].
    apply (lang_seq _ _ [unit1 "g"]); [apply (lang_lit_chars "g")|by apply lang_plus_units].
  - eapply opt_ok_impl; [|exact HRv]. intros r Hr.
    apply (lang_seq _ _ [dash; unit1 "r"]); [apply (lang_lit_chars "-r")|by apply lang_digits].
  - destruct G as [[]|]; [left; apply (lang_lit_chars "-gc64")|right; apply (lang_lit_chars "-nogc64")|done].
Qed.

Lemma opt_ok_map {A B} (f : A -> B) (P : B -> Prop) o :
  opt_ok (fun a => P (f a)) o -> opt_ok P (option_map f o).
Proof. by destruct o. Qed.

(** The conditions on parts, for their units. *)
Record wf_units (p : version_parts) : Prop := {
  wu_build : opt_ok build_units (option_map runes (p_build p));
  wu_major : digit_units (chars (p_major p));
  wu_minor : digit_units (chars (p_minor p));
  wu_patch : digit_units (chars (p_patch p));
  wu_release : opt_ok release_units (option_map pair_chars (p_release p));
  wu_additional : opt_ok digit_units (option_map chars (p_additional p));
  wu_hash : opt_ok hex_units (option_map chars (p_hash p));
  wu_revision : opt_ok digit_units (option_map chars (p_revision p))
}.

Lemma wf_parts_units p : wf_parts p -> wf_units p.
Proof.
  intros [HB HM HN HP HR HA HH HRv]. split; try (by apply number_units); apply opt_ok_map.
  - eapply opt_ok_impl; [|exact HB]. intros b [Hne Hb]. split; [|done].
    intros E. apply Hne. by rewrite <-(text_runes b), E.
  - eapply opt_ok_impl; [|exact HR]. intros [t n] [Ht Hn]. split; cbn [fst snd pair_chars] in *.
    + change (map chars ?l) with (chars <$> l). by apply list_elem_of_fmap_2.
    + destruct Hn as [->|Hn]; [by left|right; by apply number_units].
  - eapply opt_ok_impl; [|exact HA]. apply number_units.
  - eapply opt_ok_impl; [|exact HH]. intros h [Hne Hh]. split; [|done]. by intros ?%chars_nil.
  - eapply opt_ok_impl; [|exact HRv]. apply number_units.
Qed.

(** ** Reading the groups *)
Lemma group_text_cons name l g m :
  group_text ((name, l) :: g) m = if decide (name = m) then text l else group_text g m.
Proof.
  unfold group_text. cbn [list_find fst]. destruct (decide (name = m)); [done|].
  fold (list_find (fun x : string * list string => x.1 = m) g). by destruct (list_find _ g) as [[]|].
Qed.

Lemma group_text_opt name o g m :
  group_text (opt_group name o ++ g) m =
  if decide (name = m) then match o with Some l => text l | None => group_text g m end
  else group_text g m.
Proof. destruct o; [apply group_text_cons|by case_decide]. Qed.

Lemma group_text_release R g m :
  opt_ok release_units R ->
  group_text (release_groups R ++ g) m =
  if decide ("release" = m) then match R with Some r => text r.1 | None => group_text g m end
  else if decide ("releaseNum" = m) then
    match R with Some (_, (_ :: _) as n) => text n | _ => group_text g m end
  else group_text g m.
Proof.
  intros _. destruct R as [[t [|u n]]|]; cbn [release_groups app]; rewrite ?group_text_cons;
    repeat case_decide; done.
Qed.

(** All the texts that [Parse] reads. *)
Lemma version_groups B M N P R A H Rv :
  let g := front_groups B M N P R A ++
    opt_group "hash" (option_map (cons (unit1 "g")) H) ++ opt_group "revision" Rv in
  opt_ok release_units R ->
  group_text g "buildname" = text (opt_units id B) /\
  group_text g "major" = text M /\ group_text g "minor" = text N /\ group_text g "patch" = text P /\
  group_text g "release" = text (opt_units fst R) /\
  group_text g "releaseNum" = text (opt_units snd R) /\
  group_text g "additional" = text (opt_units id A) /\
  group_text g "hash" = text (opt_units (cons (unit1 "g")) H) /\
  group_text g "revision" = text (opt_units id Rv).
Proof.
  intros g HR. subst g. unfold front_groups. rewrite <-!app_assoc. cbn [app]. rewrite <-!app_assoc.
  rewrite <-(app_nil_r (opt_group "revision" Rv)).
  split_and!; rewrite ?group_text_opt, ?group_text_cons, ?group_text_release by done;
    repeat (first [rewrite decide_True by done|rewrite decide_False by done]);
    rewrite ?group_text_opt, ?group_text_cons, ?group_text_release by done;
    repeat (first [rewrite decide_True by done|rewrite decide_False by done]).
  all: try (by destruct B). all: try (by destruct R as [[t [|u n]]|]). all: try (by destruct A).
  all: try (by destruct H). all: try (by destruct Rv). all: done.
Qed.

(** ** [Parse] and the grammar *)

(** A match of the pattern, taken apart. *)
Lemma version_match s g :
  match_all version_re s = Some g ->
  exists B v M N P R A H Rv G,
    s = front_units B v M N P R A ++ back_units H Rv G /\
    g = front_groups B M N P R A ++
      opt_group "hash" (option_map (cons (unit1 "g")) H) ++ opt_group "revision" Rv /\
    opt_ok build_units B /\ digit_units M /\ digit_units N /\ digit_units P /\
    opt_ok release_units R /\ opt_ok digit_units A /\ opt_ok hex_units H /\ opt_ok digit_units Rv /\
    (H = None -> back_units H Rv G <> chars "-gc64").
Proof.
  intros (t1 & rest & g1 & g2 & -> & -> & Hf & Hb)%match_all_seq.
  apply gmatch_front in Hf as (B & v & M & N & P & R & A & -> & -> & HB & HM & HN & HP & HR & HA).
  destruct (match_all_Some _ _ _ Hb) as [Hin _]. apply run_gmatch in Hin as [_ Hg].
  apply gmatch_back in Hg as (H & Rv & G & -> & -> & HH & HRv).
  exists B, v, M, N, P, R, A, H, Rv, G. split_and!; try done.
  intros -> E. rewrite E in Hb. vm_compute in Hb. by destruct Rv.
Qed.

(** The hash of a text that the grammar allows. *)
Lemma hash_unique H Rv G H' G' :
  opt_list (cons (unit1 "g")) H ++ opt_list (cons (unit1 "r")) Rv ++ opt_list gc_units G =
  opt_list (cons (unit1 "g")) H' ++ opt_list (cons (unit1 "r")) Rv ++ opt_list gc_units G' ->
  H = H' \/ (H = None /\ Rv = None /\ G = Some true) \/
  (H' = None /\ back_units H' Rv G' = chars "-gc64").
Proof.
  destruct H as [h|], H' as [h'|]; [|destruct Rv as [r|]|destruct Rv as [r|]|by left]; cbn.
  - intros E. left. by simplify_eq.
  - intros [=].
  - destruct G' as [[]|], G as [[]|]; cbn; intros E; simplify_eq. right; right. done.
  - intros [=].
  - destruct G as [[]|]; cbn; intros E; simplify_eq. right; left. done.
Qed.

(** The parts that a sequence of units spells. *)
Definition unit_parts (B : option (list string)) (v : bool) (M N P : list string)
    (R : option (list string * list string)) (A H Rv : option (list string)) (G : option bool)
    : version_parts :=
  mkParts (option_map text B) v (text M) (text N) (text P)
    (option_map (fun r => (text r.1, text r.2)) R) (option_map text A) (option_map text H)
    (option_map text Rv) G.

Lemma digit_text l : digit_units l -> number (text l).
Proof. intros [Hne Hl]. by apply units_word. Qed.

Lemma Parse_of_parts s B v M N P R A H Rv G :
  match_all version_re (runes s) = Some (front_groups B M N P R A ++
    opt_group "hash" (option_map (cons (unit1 "g")) H) ++ opt_group "revision" Rv) ->
  opt_ok release_units R -> opt_ok digit_units A -> opt_ok digit_units Rv ->
  let p := unit_parts B v M N P R A H Rv G in
  s = print_parts p -> Parse s = meaning p.
Proof.
  intros Hg HR HA HRv p Hs. unfold Parse, FindNamedMatches. rewrite Hg. cbn [option_map].
  destruct (version_groups B M N P R A H Rv HR) as (-> & -> & -> & -> & -> & -> & -> & -> & ->).
  unfold meaning. cbn [p unit_parts p_major p_minor p_patch p_release p_additional p_hash p_revision
    p_build]. rewrite Hs.
  assert (forall o, opt_ok digit_units o -> optional_number (text (opt_units id o)) =
    match option_map text o with None => Ok 0%Z | Some a => AtoiUint64 a end) as Hopt.
  { intros [l|]; [|done]. intros Hl. cbn. unfold optional_number, id.
    rewrite decide_False; [done|]. by apply digit_text. }
  rewrite (Hopt A), (Hopt Rv) by done.
  replace (newRelease (text (opt_units fst R)) (text (opt_units snd R))) with
    (match option_map (fun r : list string * list string => (text r.1, text r.2)) R with
     | None => Ok (mkRelease TypeRelease 0 "") | Some (t, num) => newRelease t num end)
    by (by destruct R as [[t n]|]).
  replace (text (opt_units (cons (unit1 "g")) H)) with
    (opt_text (fun h => "g" +:+ h) (option_map text H)) by (destruct H; [symmetry; apply text_cons|done]).
  replace (text (opt_units id B)) with (default "" (option_map text B)) by (by destruct B). done.
Qed.

Lemma option_map_id_on {A B} (f : A -> B) (g : B -> A) o :
  (forall a, g (f a) = a) -> option_map g (option_map f o) = o.
Proof. intros H. destruct o; simpl; by rewrite ?H. Qed.

Lemma Parse_print p : wf_parts p -> ~ gc_as_hash p -> Parse (print_parts p) = meaning p.
Proof.
  intros Hwf Hgc. destruct (wf_parts_units p Hwf) as [UB UM UN UP UR UA UH URv].
  destruct (match_all_complete version_re (runes (print_parts p))) as [g Hg].
  { rewrite print_units by done. apply lang_seq; [by apply lang_front|by apply lang_back]. }
  destruct (version_match _ _ Hg) as (B & v & M & N & P & R & A & H & Rv & G & E & -> & HB & HM & HN &
    HP & HR & HA & HH & HRv & Hng).
  rewrite print_units in E by done.
  apply parts_unique in E as (<- & <- & <- & <- & <- & <- & <- & <- & E); [|done..].
  apply hash_unique in E as [<-|[(H1 & H2 & H3)|[-> H2]]].
  - assert (unit_parts (option_map runes (p_build p)) (p_v p) (chars (p_major p)) (chars (p_minor p))
      (chars (p_patch p)) (option_map pair_chars (p_release p)) (option_map chars (p_additional p))
      (option_map chars (p_hash p)) (option_map chars (p_revision p)) (p_gc p) = p) as Ep.
    { unfold unit_parts. rewrite !text_chars.
      rewrite (option_map_id_on runes text) by apply text_runes.
      rewrite (option_map_id_on chars text (p_additional p)) by apply text_chars.
      rewrite (option_map_id_on chars text (p_hash p)) by apply text_chars.
      rewrite (option_map_id_on chars text (p_revision p)) by apply text_chars.
      rewrite (option_map_id_on pair_chars); [by destruct p|].
      intros [t n]. cbn [pair_chars fst snd]. by rewrite !text_chars. }
    rewrite <-Ep at 2. apply (Parse_of_parts _ _ (p_v p)) with (G := p_gc p); try done.
    by rewrite Ep.
  - exfalso. apply Hgc. unfold gc_as_hash.
    destruct (p_hash p); [done|]. by destruct (p_revision p).
  - by destruct (Hng eq_refl).
Qed.

Lemma text_opt_units {A B} (f : A -> list string) (g : B -> string) (h : A -> B) o :
  (forall a, text (f a) = g (h a)) -> text (opt_units f o) = opt_text g (option_map h o).
Proof. intros E. destruct o; [apply E|done]. Qed.

Lemma text_parts B v M N P R A H Rv G :
  text (front_units B v M N P R A ++ back_units H Rv G) =
  print_parts (unit_parts B v M N P R A H Rv G).
Proof.
  unfold front_units, back_units, print_parts, print_tail.
  cbn [unit_parts p_major p_minor p_patch p_release p_additional p_hash p_revision p_build p_v p_gc].
  rewrite !text_app. rewrite !text_cons, !text_app, !text_cons, !text_app.
  rewrite (text_opt_units _ (fun b => b +:+ "-") text B) by (intros; by rewrite text_app).
  rewrite (text_opt_units _ (fun r => "-" +:+ r.1 +:+ r.2) (fun r => (text r.1, text r.2)) R)
    by (intros; by rewrite text_cons, text_app).
  rewrite (text_opt_units _ (fun a => "-" +:+ a) text A) by (intros; by rewrite text_cons).
  rewrite (text_opt_units _ (fun h => "-g" +:+ h) text H) by (intros; by rewrite !text_cons).
  rewrite (text_opt_units _ (fun h => "-r" +:+ h) text Rv) by (intros; by rewrite !text_cons).
  replace (text (opt_units _ G)) with (opt_text (fun b : bool => if b then "-gc64" else "-nogc64") G)
    by (by destruct G as [[]|]).
  replace (text (if v then [unit1 "v"] else [])) with (if v then "v" else "") by (by destruct v).
  by rewrite !string_app_assoc.
Qed.

Lemma opt_chars cs o :
  opt_ok (all_units (one_of cs)) o -> option_map chars (option_map text o) = o.
Proof. destruct o; [|done]. intros Hl. cbn. by rewrite <-(units_chars cs). Qed.

Lemma release_chars R :
  opt_ok release_units R ->
  option_map pair_chars (option_map (fun r => (text r.1, text r.2)) R) = R.
Proof.
  destruct R as [[t n]|]; [|done]. intros [Ht Hn]. cbn [option_map fst snd pair_chars] in *.
  unfold pair_chars. cbn [fst snd].
  replace (chars (text n)) with n
    by (destruct Hn as [->|[_ Hn]]; [done|by apply (units_chars digits)]).
  change (map chars ?l) with (chars <$> l) in Ht.
  apply list_elem_of_fmap in Ht as (t' & -> & _). by rewrite text_chars.
Qed.

(** Every match of the pattern is a text of the grammar. *)
Lemma match_parts s g :
  match_all version_re (runes s) = Some g -> exists p, wf_parts p /\ s = print_parts p.
Proof.
  intros (B & v & M & N & P & R & A & H & Rv & G & E & -> & HB & HM & HN & HP & HR & HA & HH & HRv &
    _)%version_match.
  exists (unit_parts B v M N P R A H Rv G).
  split; [|by rewrite <-text_parts, <-E, text_runes].
  assert (wf_parts (unit_parts None v M N P R A H Rv G)) as W.
  { split; try (by apply digit_text); cbn [unit_parts p_build p_release p_additional p_hash p_revision];
      [done|apply opt_ok_map..].
    - eapply opt_ok_impl; [|exact HR]. intros [t n] [Ht Hn]. cbn [fst snd] in *. split.
      + simpl in Ht. rewrite !elem_of_cons, elem_of_nil in Ht.
        destruct Ht as [->|[->|[->|[->|[]]]]]; vm_compute; set_solver.
      + destruct Hn as [->|Hn]; [by left|right; by apply digit_text].
    - eapply opt_ok_impl; [|exact HA]. apply digit_text.
    - eapply opt_ok_impl; [|exact HH]. intros h [Hne Hh]. by apply units_word.
    - eapply opt_ok_impl; [|exact HRv]. apply digit_text. }
  destruct B as [b|]; [|done]. pose proof (print_units _ W) as HW.
  assert (s = text b +:+ String "-" (print_parts (unit_parts None v M N P R A H Rv G))) as Hs.
  { rewrite <-(text_runes s), E, text_parts. unfold print_parts at 1. cbn [unit_parts p_build option_map].
    cbn [opt_text]. by rewrite string_app_assoc. }
  assert (runes (text b) = b) as Hrb.
  { assert (runes s = runes (text b) ++ dash :: front_units None v M N P R A ++ back_units H Rv G) as E2.
    { rewrite Hs, runes_app_ascii, HW by done. unfold parts_front, parts_back.
      cbn [unit_parts p_major p_minor p_patch p_release p_additional p_hash p_revision p_build p_v p_gc].
      rewrite <-(units_chars digits M), <-(units_chars digits N), <-(units_chars digits P)
        by (by apply HM || apply HN || apply HP).
      rewrite (opt_chars digits A), (opt_chars digits Rv), (opt_chars "abcdef0123456789" H).
      - rewrite release_chars by done. done.
      - eapply opt_ok_impl; [|exact HH]. by intros ? [].
      - eapply opt_ok_impl; [|exact HRv]. by intros ? [].
      - eapply opt_ok_impl; [|exact HA]. by intros ? []. }
    rewrite E in E2. unfold front_units at 1 in E2. cbn [opt_units] in E2.
    rewrite <-!app_assoc in E2. cbn [app] in E2. symmetry. eapply app_inv_tail.
    etransitivity; [|exact E2]. unfold front_units. cbn [opt_units app].
    repeat (rewrite <-!app_assoc; cbn [app]). done. }
  destruct W as [_ W1 W2 W3 W4 W5 W6 W7]. split; try done. cbn. rewrite Hrb.
  destruct HB as [Hne Hb]. split; [|done]. intros Hb'. apply Hne. by rewrite <-Hrb, Hb'.
Qed.

(** C19: Parse accepts exactly the texts of the grammar of versions (build
    name, major, minor and patch, release with its number, commits, hash,
    revision and the gc64 mark) and gives the parts that the grammar names;
    the one exception is a gc64 mark directly after the numbers, which is read
    as the hash gc64. *)
Theorem Parse_grammar s :
  (forall p, wf_parts p -> ~ gc_as_hash p -> s = print_parts p -> Parse s = meaning p) /\
  ((forall p, wf_parts p -> s <> print_parts p) ->
   Parse s = Err (Errorf "failed to parse version %q: format is not valid" [s])) /\
  (forall p, wf_parts p -> gc_as_hash p -> s = print_parts p ->
   Parse s = meaning (mkParts (p_build p) (p_v p) (p_major p) (p_minor p) (p_patch p) (p_release p)
                        (p_additional p) (Some "c64") None None)).
Proof.
  split_and!.
  - intros p Hwf Hgc ->. by apply Parse_print.
  - intros Hno. unfold Parse, FindNamedMatches.
    destruct (match_all version_re (runes s)) as [g|] eqn:E; [|done].
    apply match_parts in E as (p & Hwf & Hs). by destruct (Hno p Hwf).
  - intros p Hwf (Hh & Hr & Hg) ->. set (q := mkParts _ _ _ _ _ _ _ _ _ _).
    assert (print_parts p = print_parts q) as ->.
    { unfold print_parts, print_tail. cbn [q p_build p_v p_major p_minor p_patch p_release
        p_additional p_hash p_revision p_gc]. by rewrite Hh, Hr, Hg. }
    apply Parse_print; [|by intros []]. destruct Hwf. split; try done.
    split; [done|]. repeat (constructor; [done|]); constructor.
Qed.
