(* ===== verification/Search.v ===== *)
(** * Searching versions of programs ([cli/search], [cli/binary])

    The versions that git repositories, the download service, a directory of
    archives and the directory of installed binaries offer.  Running programs,
    the network and the file system are parameters. *)
From S2P Require Import Prelude GoStrings GoPath Regexp Version.

Definition ProgramCe : string := "tarantool".
Definition ProgramEe : string := "tarantool-ee".
Definition ProgramTt : string := "tt".
Definition ProgramDev : string := "tarantool-dev".

Definition GitRepoTarantool : string := "https://github.com/tarantool/tarantool.git".
Definition GitRepoTT : string := "https://github.com/tarantool/tt.git".

Definition FsSeparator : string := "_".

(** ** [isMasked] *)
Definition isMasked (version : Version) : bool :=
  let major := Major version in let minor := Minor version in let patch := Patch version in
  if ((major =? 1) && (minor <? 10))%Z then true
  else if ((major =? 1) && (minor =? 10) && (patch <? 11))%Z then true
  else if ((major =? 2) && (minor <? 7))%Z then true
  else if ((major =? 2) && (minor =? 10) && (patch =? 1))%Z then true
  else if ((major =? 2) && (minor <? 10) && (patch =? 0))%Z then true
  else false.

(** ** Versions from git

    [LookPath] is [exec.LookPath("git")]; [output args] is the standard output of
    git with these arguments. *)
Section Git.
Context (LookPath : option error) (output : list string -> result string).

Definition output_lines (out : string) : list string := Split (TrimSpace out) newline.

(** The loop over the lines: a line that is no version is skipped, and so is a
    masked version when [mask] is set. *)
Definition collect_version (mask : bool) (versions : list Version) (tag : string) : list Version :=
  match Parse tag with
  | Err _ => versions
  | Ok version => if (isMasked version && mask)%bool then versions else versions ++ [version]
  end.

Definition remote_tag (repo line : string) : result string :=
  match cut_last line "/" with
  | None => Err (Errorf "unexpected Data from %s" [repo])
  | Some (_, ver) => Ok ver
  end.

Definition GetVersionsFromGitRemote (repo : string) : result (list Version) :=
  match LookPath with
  | Some _ => Err (Errorf "'git' is required for 'tt search' to work" [])
  | None =>
      match output ["ls-remote"; "--tags"; "--refs"; repo] with
      | Err err => Err (Wrapf "failed to get versions from %s: %s" [repo] err)
      | Ok out =>
          let lines := output_lines out in
          if decide (lines = [""]) then Ok []
          else
            rmap sort_versions
              (for_each (fun versions line =>
                 rmap (collect_version (bool_decide (repo = GitRepoTarantool)) versions)
                   (remote_tag repo line)) lines [])
      end
  end.

Definition GetVersionsFromGitLocal (repo : string) : result (list Version) :=
  match LookPath with
  | Some _ => Err (Errorf "'git' is required for 'tt search' to work" [])
  | None =>
      match output ["-C"; repo; "tag"] with
      | Err err => Err (Wrapf "failed to get versions from %s: %s" [repo] err)
      | Ok out =>
          let lines := output_lines out in
          if decide (lines = [""]) then Ok []
          else Ok (sort_versions (fold_left (collect_version (Contains repo "tarantool")) lines []))
      end
  end.

(** [util.IsPullRequest]: the part after the first slash of [pr/...], when it is
    a number. *)
Definition IsPullRequest (input : string) : bool * string :=
  let input := ToLower input in
  if HasPrefix input "pr/" then
    let prNum := match split2 input "/" with Some (_, n) => n | None => "" end in
    (MatchString (RPlus (RUnit (one_of digits))) prNum, prNum)
  else (false, "").

(** [strings.Split(lines[0], " ")[1]] panics when the line has no blank. *)
Definition GetCommitFromGitLocal (input : string) : result string :=
  match LookPath with
  | Some _ => Err (Errorf "unable to get commits: `git` command is missing" [])
  | None =>
      let '(isPullRequest, pullRequestID) := IsPullRequest input in
      let fetched :=
        if isPullRequest
        then output ["fetch"; "origin"; "pull/" +:+ pullRequestID +:+ "/head:" +:+ input]
        else Ok "" in
      match fetched with
      | Err err => Err err
      | Ok _ =>
          match output ["show"; input; "--quiet"] with
          | Err err => Err err
          | Ok out =>
              match Split (hd "" (output_lines out)) " " with
              | _ :: hash :: _ => Ok hash
              | _ => Err (Errorf "panic: index out of range" [])
              end
          end
      end
  end.
End Git.

(** ** SDK bundles *)
Record BundleInfo := mkBundle {
  bundle_Version : Version;
  bundle_Package : string;
  bundle_Release : string;
  bundle_Token : string
}.

(** [search.Less], a second copy of [version.IsLess]. *)
Definition search_Less (verLeft verRight : Version) : bool :=
  let left := version_key verLeft in
  let right := version_key verRight in
  let largestLen := util_Max (Z.of_nat (length left)) (Z.of_nat (length right)) in
  less_loop (Z.to_nat largestLen) left right.

Definition bundle_Less (a b : BundleInfo) : bool := search_Less (bundle_Version a) (bundle_Version b).

Inductive SearchFlags := SearchRelease | SearchDebug | SearchAll.

Open Scope re_scope.
Definition bundle_re : re :=
  RGroup "tarball"
    (lit "tarantool-enterprise-sdk-"
     @@ RGroup "version"
          (RStar (RUnit any_char) @@ lit "r" @@ RUnit (one_of digits)
           @@ ROpt (RUnit (one_of digits) @@ ROpt (RUnit (one_of digits))))
     @@ RStar (RUnit any_char) @@ lit ".tar.gz").
Close Scope re_scope.

Definition with_tarball (v : Version) (file : string) : Version :=
  mkVersion (Major v) (Minor v) (Patch v) (Additional v) (Version_Revision v) (Version_Release v)
    (Hash v) (Str v) file (BuildName v).

Definition wanted (flags : SearchFlags) (pkg : string) : bool :=
  match flags with
  | SearchRelease => negb (Contains pkg "-debug-")
  | SearchDebug => Contains pkg "-debug-"
  | SearchAll => true
  end.

(** One package of the reply: other files are skipped, a bundle whose version
    does not parse fails. *)
Definition collect_bundle (release : string) (flags : SearchFlags) (bundles : list BundleInfo)
    (pkg : string) : result (list BundleInfo) :=
  match FindNamedMatches bundle_re pkg with
  | None => Ok bundles
  | Some parsedData =>
      match Parse (parsedData "version") with
      | Err err => Err err
      | Ok version =>
          if wanted flags pkg
          then Ok (bundles ++ [mkBundle (with_tarball version pkg) "enterprise" release ""])
          else Ok bundles
      end
  end.

Definition getBundles `{GoMapOrder} `{GoSort} (rawBundleInfoList : gmap string (list string))
    (flags : SearchFlags) : result (list BundleInfo) :=
  match for_each (fun bundles '(release, pkgs) =>
          for_each (collect_bundle release flags) pkgs bundles) (range_map rawBundleInfoList) [] with
  | Err err => Err err
  | Ok [] => Err (Errorf "no packages found for this OS or release version" [])
  | Ok bundles => Ok (sort_slice bundle_Less bundles)
  end.

Definition collect_archive (versions : list BundleInfo) (file : string) : result (list BundleInfo) :=
  match FindNamedMatches bundle_re file with
  | None => Ok versions
  | Some parsedData =>
      match Parse (parsedData "version") with
      | Err err => Err err
      | Ok version => Ok (versions ++ [mkBundle (with_tarball version file) "" "" ""])
      end
  end.

Definition FetchBundlesInfoLocal `{GoSort} (files : list string) : result (list BundleInfo) :=
  rmap (sort_slice bundle_Less) (for_each collect_archive files []).

(** ** The download service *)
Record SearchCtx := mkSearchCtx {
  Filter : SearchFlags;
  search_Package : string;
  ReleaseVersion : string;
  ProgramName : string;
  DevBuilds : bool
}.

Inductive OsType := OsLinux | OsMacos | OsUnknown.

Definition PkgURI : string := "https://www.tarantool.io/en/accounts/customer_zone/packages".

Definition os_name (os : OsType) : option string :=
  match os with OsLinux => Some "linux" | OsMacos => Some "macos" | OsUnknown => None end.

Definition build_type (dev : bool) : string := if dev then "dev" else "release".

Section Service.
(** [util.GetArch], [util.GetOs], [install_ee.GetCreds] and the request to the
    service, which answers with the packages of each release and a session. *)
Context (GetArch : result string) (GetOs : result OsType) (GetCreds : result (string * string))
  (request : string -> string -> string -> result (gmap string (list string) * string)).

Definition TntIoMakePkgURI (package release tarball : string) (devBuilds : bool) : result string :=
  match GetArch, GetOs with
  | Err err, _ => Err err
  | Ok _, Err err => Err err
  | Ok arch, Ok os =>
      match os_name os with
      | None => Err (Errorf "unsupported OS" [])
      | Some osType =>
          Ok (Join [PkgURI; package; build_type devBuilds; osType; arch; release; tarball] "/")
      end
  end.

Definition tntIoGetPkgVersions (searchCtx : SearchCtx)
    : result (gmap string (list string) * string) :=
  match GetArch, GetOs with
  | Err err, _ => Err err
  | Ok _, Err err => Err err
  | Ok arch, Ok os =>
      match os_name os with
      | None => Err (Errorf "unsupported OS" [])
      | Some osType =>
          match GetCreds with
          | Err err => Err err
          | Ok (username, password) =>
              let base := [search_Package searchCtx; build_type (DevBuilds searchCtx); osType; arch] in
              let query :=
                if decide (ReleaseVersion searchCtx <> "")
                then Join (base ++ [ReleaseVersion searchCtx]) "/" else Join base "/" in
              match request username password query with
              | Err err => Err err
              | Ok (apiReply, token) =>
                  Ok (List.filter (fun pkg => negb (HasSuffix pkg ".sha256")) <$> apiReply, token)
              end
          end
      end
  end.

Definition FetchBundlesInfo `{GoMapOrder} `{GoSort} (searchCtx : SearchCtx)
    : result (list BundleInfo * string) :=
  match tntIoGetPkgVersions searchCtx with
  | Err err => Err err
  | Ok (bundleReferences, token) =>
      rmap (fun bundles => (bundles, token)) (getBundles bundleReferences (Filter searchCtx))
  end.

Definition find_version (expectedVersion : string) (bundles : list BundleInfo) : option BundleInfo :=
  snd <$> list_find (fun b => Str (bundle_Version b) = expectedVersion) bundles.

(** Of the local files the code ignores the error and, without an expected
    version, reads the last element, which panics when there is none. *)
Definition GetTarantoolBundleInfo `{GoMapOrder} `{GoSort} (local devBuild : bool)
    (files : list string) (expectedVersion : string) : result BundleInfo :=
  let missing := Errorf "%s version doesn't exist" [expectedVersion] in
  if local then
    let bundles := match FetchBundlesInfoLocal files with Ok bundles => bundles | Err _ => [] end in
    if decide (expectedVersion = "") then
      match last bundles with
      | Some bundle => Ok bundle
      | None => Err (Errorf "panic: index out of range" [])
      end
    else
      match find_version expectedVersion bundles with
      | Some bundle => Ok bundle
      | None => Err missing
      end
  else
    match FetchBundlesInfo (mkSearchCtx SearchAll "enterprise" "" "" devBuild) with
    | Err err => Err err
    | Ok (bundles, token) =>
        match find_version expectedVersion bundles with
        | Some b =>
            Ok (mkBundle (bundle_Version b) (bundle_Package b) (bundle_Release b) token)
        | None => Err missing
        end
    end.
End Service.

(** ** Installed programs

    [Stat] tells whether a file exists, [ResolveSymlink] follows a link (the
    code ignores its error and compares with the empty path). *)
Definition printVersion (Stat : string -> bool) (ResolveSymlink : string -> result string)
    (bindir program versionStr : string) : string :=
  let file := program +:+ FsSeparator +:+ versionStr in
  if Stat (filepath_Join [bindir; file]) then
    let link := if decide (program = ProgramEe) then "tarantool" else program in
    let target := match ResolveSymlink (filepath_Join [bindir; link]) with Ok t => t | Err _ => "" end in
    if decide (path_Base target = file) then versionStr +:+ " [active]"
    else versionStr +:+ " [installed]"
  else versionStr.

(** A program in the directory of binaries: what the symbolic link names. *)
Inductive lstat_result := NoFile | NotSymlink | Symlink.
#[export] Instance lstat_result_eq_dec : EqDecision lstat_result.
Proof. solve_decision. Defined.

Definition with_str (v : Version) (s : string) : Version :=
  mkVersion (Major v) (Minor v) (Patch v) (Additional v) (Version_Revision v) (Version_Release v)
    (Hash v) s (Tarball v) (BuildName v).

Definition with_major (v : Version) (m : Z) : Version :=
  mkVersion m (Minor v) (Patch v) (Additional v) (Version_Revision v) (Version_Release v)
    (Hash v) (Str v) (Tarball v) (BuildName v).

(** One entry of the directory: [master] is made the newest version and a commit
    hash the oldest. *)
Definition add_binary (binActive versionPrefix : string) (versions : list Version) (name : string)
    : result (list Version) :=
  match CutPrefix name versionPrefix with
  | None => Ok versions
  | Some rest =>
      let versionStr := TrimPrefix rest "v" in
      let isRightFormat := (IsValidCommitHash versionStr).1 in
      let ver :=
        if decide (versionStr = "master") then Ok (with_major zero_version MaxUint64)
        else if isRightFormat then Ok zero_version
        else Parse versionStr in
      match ver with
      | Err err => Err err
      | Ok ver =>
          let str := if decide (binActive = name) then versionStr +:+ " [active]" else versionStr in
          Ok (versions ++ [with_str ver str])
      end
  end.

Section Installed.
(** [os.Lstat], [install.IsTarantoolDev] (the target of the link and whether it is
    a build of Tarantool), the version a binary reports, [util.ResolveSymlink]
    ([Ok None] when the target does not exist). *)
Context (Lstat : string -> lstat_result) (IsTarantoolDev : string -> string -> result (string * bool))
  (binary_version : string -> result Version) (ResolveSymlink : string -> result (option string)).

(** [filepath.Base("")] is ["."]. *)
Definition ParseBinaries (fileList : list string) (programName binDir : string)
    : result (list Version) :=
  let symlinkName :=
    if decide (programName = ProgramEe \/ programName = ProgramDev) then ProgramCe else programName in
  let programPath := filepath_Join [binDir; symlinkName] in
  let rest (binActive : string) (versions : list Version) :=
    for_each (add_binary binActive (programName +:+ FsSeparator)) fileList versions in
  match Lstat programPath with
  | NoFile => rest "" []
  | kind =>
      if decide (programName = ProgramDev /\ kind = Symlink) then
        match IsTarantoolDev programPath binDir with
        | Err err => Err err
        | Ok (binActive, true) =>
            Ok [with_str zero_version (programName +:+ " -> " +:+ binActive +:+ " [active]")]
        | Ok (_, false) => Ok []
        end
      else if decide (programName = ProgramCe /\ kind = NotSymlink) then
        match binary_version programPath with
        | Err err => Err err
        | Ok v => rest "" [with_str v (Str v +:+ " [active]")]
        end
      else
        match ResolveSymlink programPath with
        | Err err => Err err
        | Ok target => rest (path_Base (default "" target)) []
        end
  end.
End Installed.

(** * What the order of versions and the searches guarantee *)
From S2P Require Import VersionProps.

(** ** The order of versions *)

(** The reference: numbers, then the type of the release (nightly, alpha, beta,
    rc, release), its number, additional commits, revision. *)
Definition release_rank (t : ReleaseType) : Z :=
  match t with TypeNightly => 0 | TypeAlpha => 1 | TypeBeta => 2 | TypeRC => 3 | TypeRelease => 4 end.

Definition before (x y : Z) (rest : Prop) : Prop := (x < y)%Z \/ (x = y /\ rest).

#[export] Instance before_proper x y : Proper (iff ==> iff) (before x y).
Proof. intros P Q HPQ. unfold before. by rewrite HPQ. Qed.

Definition older (a b : Version) : Prop :=
  before (Major a) (Major b) (before (Minor a) (Minor b) (before (Patch a) (Patch b)
    (before (release_rank (rel_Type (Version_Release a))) (release_rank (rel_Type (Version_Release b)))
      (before (rel_Num (Version_Release a)) (rel_Num (Version_Release b))
        (before (Additional a) (Additional b)
          (Version_Revision a < Version_Revision b)%Z))))).

(** The fields that the order looks at. *)
Definition same_version (a b : Version) : Prop :=
  Major a = Major b /\ Minor a = Minor b /\ Patch a = Patch b /\
  rel_Type (Version_Release a) = rel_Type (Version_Release b) /\
  rel_Num (Version_Release a) = rel_Num (Version_Release b) /\
  Additional a = Additional b /\ Version_Revision a = Version_Revision b.

Lemma less_loop_cons n x left y right :
  less_loop (S n) (x :: left) (y :: right) = true <-> before x y (less_loop n left right = true).
Proof.
  cbn [less_loop tail]. unfold before. destruct (Z.eqb_spec x y) as [->|Hne]; cbn [negb].
  - split; [by right|]. intros [?|[_ ?]]; [lia|done].
  - rewrite Z.ltb_lt. split; [by left|]. intros [?|[? _]]; done.
Qed.

Lemma less_loop_last x y : less_loop 1 [x] [y] = true <-> (x < y)%Z.
Proof. rewrite less_loop_cons. unfold before. cbn. split; [intros [?|[_ ?]]; done|by left]. Qed.

Lemma IsLess_older a b : IsLess a b = true <-> older a b.
Proof.
  unfold IsLess, version_key, older. change (Z.to_nat _) with 7.
  do 6 rewrite less_loop_cons. by rewrite less_loop_last.
Qed.

Lemma older_irrefl a : ~ older a a.
Proof. unfold older, before. lia. Qed.

Lemma older_trans a b c : older a b -> older b c -> older a c.
Proof. unfold older, before. lia. Qed.

Lemma release_rank_inj t t' : release_rank t = release_rank t' -> t = t'.
Proof. by destruct t, t'. Qed.

Lemma older_total a b : ~ older a b -> ~ older b a -> same_version a b.
Proof.
  unfold older, before, same_version. intros H1 H2. split_and!; try lia.
  apply release_rank_inj. lia.
Qed.

Lemma same_not_older a b : same_version a b -> ~ older a b.
Proof. unfold same_version, older, before. intros (-> & -> & -> & -> & -> & -> & ->). lia. Qed.

Lemma IsLess_false a b : IsLess a b = false <-> ~ older a b.
Proof. rewrite <-IsLess_older. by destruct (IsLess a b). Qed.

#[export] Instance IsLess_order : StrictWeakOrder IsLess.
Proof.
  split.
  - intros x. apply IsLess_false, older_irrefl.
  - intros x y z. rewrite !IsLess_older. apply older_trans.
  - intros x y z. rewrite !IsLess_false. unfold older, before. lia.
Qed.

(** IsLess is the lexicographic order of major, minor, patch, release
    type, release number and additional commits: irreflexive and transitive,
    two versions that it does not order agree in all these parts, and the
    order of bundles is the same one. *)
Theorem IsLess_strict_order a b c :
  (IsLess a b = true <-> older a b) /\
  IsLess a a = false /\
  (IsLess a b = true -> IsLess b c = true -> IsLess a c = true) /\
  (IsLess a b = false -> IsLess b a = false -> same_version a b) /\
  search_Less a b = IsLess a b.
Proof.
  split_and!.
  - apply IsLess_older.
  - apply (swo_irrefl (less := IsLess)).
  - apply (swo_trans (less := IsLess)).
  - rewrite !IsLess_false. apply older_total.
  - done.
Qed.

(** ** Stable sorting *)
Lemma insert_by_filter {A} (less : A -> A -> bool) (P : A -> bool) x l :
  (forall y, P x = true -> P y = true -> less y x = false) ->
  List.filter P (insert_by less x l) = List.filter P (x :: l).
Proof.
  intros HP. induction l as [|y l IH]; [done|]. cbn [insert_by]. destruct (less y x) eqn:E; [|done].
  cbn [List.filter] in *. rewrite IH. destruct (P x) eqn:Ex, (P y) eqn:Ey; try done.
  rewrite HP in E by done. done.
Qed.

Lemma insertion_sort_stable {A} (less : A -> A -> bool) (P : A -> bool) l :
  (forall x y, P x = true -> P y = true -> less y x = false) ->
  List.filter P (insertion_sort less l) = List.filter P l.
Proof.
  intros HP. induction l as [|x l IH]; [done|]. cbn [insertion_sort].
  rewrite insert_by_filter by auto. cbn [List.filter]. by rewrite IH.
Qed.

#[export] Instance same_version_dec a b : Decision (same_version a b).
Proof.
  unfold same_version. assert (EqDecision ReleaseType) by solve_decision. apply _.
Defined.

(** The versions of a list that compare equal to one. *)
Definition same_as (v : Version) (l : list Version) : list Version :=
  List.filter (fun w => bool_decide (same_version v w)) l.

Lemma sort_versions_stable v l : same_as v (sort_versions l) = same_as v l.
Proof.
  apply insertion_sort_stable. intros x y Hx%bool_decide_eq_true Hy%bool_decide_eq_true.
  apply IsLess_false, same_not_older. unfold same_version in *.
  destruct Hx as (<- & <- & <- & <- & <- & <- & <-), Hy as (<- & <- & <- & <- & <- & <- & <-). done.
Qed.

Lemma strongly_sorted_impl {A} (R S : A -> A -> Prop) l :
  (forall a b, R a b -> S a b) -> StronglySorted R l -> StronglySorted S l.
Proof.
  intros HRS. induction 1 as [|x l Hl IH Hx]; constructor; [done|].
  eapply Forall_impl; [exact Hx|]. auto.
Qed.

(** ** Versions of a git repository *)

(** The reference: the tags that are versions and not masked, in the order git
    lists them. *)
Definition tag_version (mask : bool) (tag : string) : option Version :=
  match Parse tag with
  | Ok v => if mask && isMasked v then None else Some v
  | Err _ => None
  end.

Lemma collect_versions mask tags acc :
  fold_left (collect_version mask) tags acc = acc ++ omap (tag_version mask) tags.
Proof.
  revert acc. induction tags as [|t tags IH]; intros acc; [by rewrite app_nil_r|].
  cbn [fold_left]. rewrite IH. unfold collect_version. simpl. unfold tag_version at 2.
  destruct (Parse t) as [v|]; [|done]. rewrite andb_comm. destruct (mask && isMasked v); [done|].
  by rewrite <-app_assoc.
Qed.

Lemma remote_loop repo mask lines acc :
  for_each (fun versions line => rmap (collect_version mask versions) (remote_tag repo line)) lines acc =
  match for_each (fun tags line => rmap (fun t => tags ++ [t]) (remote_tag repo line)) lines [] with
  | Ok tags => Ok (fold_left (collect_version mask) tags acc)
  | Err e => Err e
  end.
Proof.
  assert (forall lines acc tags0,
    for_each (fun versions line => rmap (collect_version mask versions) (remote_tag repo line)) lines
      (fold_left (collect_version mask) tags0 acc) =
    match for_each (fun tags line => rmap (fun t => tags ++ [t]) (remote_tag repo line)) lines tags0 with
    | Ok tags => Ok (fold_left (collect_version mask) tags acc)
    | Err e => Err e
    end) as H; [|apply (H lines acc [])].
  clear. induction lines as [|l lines IH]; intros acc tags0; [done|]. cbn [for_each].
  destruct (remote_tag repo l) as [t|e]; [|done]. cbn [rmap rbind].
  rewrite <-IH, fold_left_app. done.
Qed.

Lemma Split_empty s c : Split s c = [""] -> s = "".
Proof.
  destruct s as [|d s]; [done|]. simpl. case_decide.
  - intros [= E]. by apply Split_not_nil in E.
  - by destruct (Split s c).
Qed.

(** The name of a tag is what follows the last slash of a line. *)
Lemma remote_tags repo lines tags0 :
  match for_each (fun tags line => rmap (fun t => tags ++ [t]) (remote_tag repo line)) lines tags0 with
  | Ok tags => exists new, tags = tags0 ++ new /\
      Forall2 (fun line tag => exists dir, line = dir +:+ "/" +:+ tag /\ no_char "/" tag = true) lines new
  | Err e => e = Errorf "unexpected Data from %s" [repo] /\ Exists (fun l => no_char "/" l = true) lines
  end.
Proof.
  assert (forall s, match cut_last s "/" with
    | Some (a, b) => s = a +:+ "/" +:+ b /\ no_char "/" b = true
    | None => no_char "/" s = true end) as Hcut.
  { induction s as [|c s IH]; [done|]. cbn [cut_last no_char].
    destruct (cut_last s "/") as [[a b]|]; [destruct IH as [-> Hb]; by split|].
    destruct (decide (c = "/"%char)) as [->|Hne]; [by split|done]. }
  revert tags0. induction lines as [|l lines IH]; intros tags0; cbn [for_each].
  { exists []. by rewrite app_nil_r. }
  pose proof (Hcut l) as Hl.
  destruct (remote_tag repo l) as [tag|e] eqn:Et; unfold remote_tag in Et;
    (destruct (cut_last l "/") as [[dir t]|]; simplify_eq).
  - cbn [rmap rbind]. specialize (IH (tags0 ++ [tag])). destruct (for_each _ _ _) as [tags|e].
    + destruct IH as (new & -> & HF). exists (tag :: new). rewrite <-app_assoc.
      split; [done|]. constructor; [by exists dir|done].
    + destruct IH as [-> HE]. split; [done|by right].
  - cbn [rmap rbind]. split; [done|by left].
Qed.

(** The versions of a remote repository are those of its tags (the text
    after the last slash of each line of git ls-remote) that parse and are not
    masked, sorted by the order of versions with equal ones in the order of
    the tags; an error means that git is missing or failed or printed a line
    without a slash. *)
Theorem GetVersionsFromGitRemote_sorted LookPath output repo :
  match GetVersionsFromGitRemote LookPath output repo with
  | Ok versions => exists out tags, output ["ls-remote"; "--tags"; "--refs"; repo] = Ok out /\
      (TrimSpace out = "" /\ tags = [] \/
       Forall2 (fun line tag => exists dir, line = dir +:+ "/" +:+ tag /\ no_char "/" tag = true)
         (Split (TrimSpace out) newline) tags) /\
      let found := omap (tag_version (bool_decide (repo = GitRepoTarantool))) tags in
      versions ≡ₚ found /\ StronglySorted (fun a b => ~ older b a) versions /\
      forall v, same_as v versions = same_as v found
  | Err _ => is_Some LookPath \/
      exists r, output ["ls-remote"; "--tags"; "--refs"; repo] = r /\
        match r with
        | Err _ => True
        | Ok out => Exists (fun l => no_char "/" l = true) (Split (TrimSpace out) newline)
        end
  end.
Proof.
  unfold GetVersionsFromGitRemote, output_lines. destruct LookPath; [left; eauto|].
  destruct (output _) as [out|e] eqn:Eo; [|right; by exists (Err e)].
  assert (forall found : list Version, sort_versions found ≡ₚ found /\
    StronglySorted (fun a b => ~ older b a) (sort_versions found) /\
    forall v, same_as v (sort_versions found) = same_as v found) as Hsort.
  { intros found. split; [apply insertion_sort_perm|]. split; [|intros; apply sort_versions_stable].
    eapply strongly_sorted_impl; [|apply (insertion_sort_sorted IsLess)].
    intros a b. apply IsLess_false. }
  case_decide as Hl.
  - exists out, []. split; [done|]. split; [|apply (Hsort [])]. left. split; [|done].
    by apply Split_empty in Hl.
  - rewrite remote_loop. pose proof (remote_tags repo (Split (TrimSpace out) newline) []) as Ht.
    destruct (for_each _ _ []) as [tags|e]; cbn [rmap].
    + destruct Ht as (new & -> & HF). exists out, new. split; [done|]. split; [by right|].
      rewrite collect_versions. cbn [app]. apply Hsort.
    + right. exists (Ok out). split; [done|]. apply Ht.
Qed.
