(* ===== verification/RpmTags.v ===== *)
(** * Binary headers of RPM packages ([cli/pack/rpm_tagset.go], [rpm_lead.go],
    [rpm_const.go], [rpm_pack.go])

    A byte is a [Z] between 0 and 255, a buffer is the list of its bytes. *)
From S2P Require Import Prelude GoStrings.

(** ** Bytes *)
Definition bytes_of (s : string) : list Z :=
  map (fun c => Z.of_nat (nat_of_ascii c)) (String.list_ascii_of_string s).

(** [binary.Write] of an [n]-byte integer in network byte order. *)
Fixpoint be_bytes (n : nat) (z : Z) : list Z :=
  match n with
  | O => []
  | S n' => Z.land (Z.shiftr z (8 * Z.of_nat n')) 255 :: be_bytes n' z
  end.

(** Conversions to a signed integer of [n] bytes keep the low bits. *)
Definition int_of (n : nat) (z : Z) : Z :=
  let m := (2 ^ (8 * Z.of_nat n))%Z in
  let r := (z mod m)%Z in
  if (r <? m / 2)%Z then r else (r - m)%Z.

Definition int16 : Z -> Z := int_of 2.
Definition int32 : Z -> Z := int_of 4.

(** ** Constants *)
Definition rpmTypeNull : Z := 0.
Definition rpmTypeChar : Z := 1.
Definition rpmTypeInt8 : Z := 2.
Definition rpmTypeInt16 : Z := 3.
Definition rpmTypeInt32 : Z := 4.
Definition rpmTypeInt64 : Z := 5.
Definition rpmTypeString : Z := 6.
Definition rpmTypeBin : Z := 7.
Definition rpmTypeStringArray : Z := 8.

Definition headerSignatures : Z := 62.
Definition headerImmutable : Z := 63.

Definition headerMagic : list Z := [142; 173; 232]%Z.
Definition versionByte : Z := 1.
Definition reservedBytes : Z := 0.

Definition boundariesByType (t : Z) : option Z :=
  if decide (t = rpmTypeNull) then Some 1%Z
  else if decide (t = rpmTypeBin) then Some 1%Z
  else if decide (t = rpmTypeChar) then Some 1%Z
  else if decide (t = rpmTypeString) then Some 1%Z
  else if decide (t = rpmTypeStringArray) then Some 1%Z
  else if decide (t = rpmTypeInt8) then Some 1%Z
  else if decide (t = rpmTypeInt16) then Some 2%Z
  else if decide (t = rpmTypeInt32) then Some 4%Z
  else if decide (t = rpmTypeInt64) then Some 8%Z
  else None.

(** ** Tags *)

(** The dynamic types that a value of a tag has. *)
Inductive tag_value :=
| NilValue
| BytesValue (b : list Z)
| StringValue (s : string)
| StringsValue (l : list string)
| Int8Values (l : list Z)
| Int16Values (l : list Z)
| Int32Values (l : list Z)
| Int64Values (l : list Z).

Record rpmTagType := mkTag { tag_ID : Z; tag_Type : Z; tag_Value : tag_value }.
Definition rpmTagSetType := list rpmTagType.

Definition addTags (tagSet tags : rpmTagSetType) : rpmTagSetType := tagSet ++ tags.

Record packedTagType := mkPacked { packed_Count : Z; packed_Data : list Z }.

(** ** Packing *)

(** [packValues] of integers of one width. *)
Definition pack_ints (n : nat) (l : list Z) : list Z := concat (map (be_bytes n) l).

Definition pack_string (s : string) : list Z := bytes_of s ++ [0%Z].

Definition packTag (tag : rpmTagType) : result packedTagType :=
  let t := tag_Type tag in
  if decide (t = rpmTypeNull) then
    match tag_Value tag with
    | NilValue => Ok (mkPacked 1 [])
    | _ => Err (Errorf "NULL value should be nil" [])
    end
  else if decide (t = rpmTypeChar \/ t = rpmTypeBin) then
    match tag_Value tag with
    | BytesValue byteArray => Ok (mkPacked (Z.of_nat (length byteArray)) byteArray)
    | _ => Err (Errorf "BIN and CHAR values should be []byte" [])
    end
  else if decide (t = rpmTypeStringArray) then
    match tag_Value tag with
    | StringsValue stringsArray =>
        Ok (mkPacked (Z.of_nat (length stringsArray)) (concat (map pack_string stringsArray)))
    | _ => Err (Errorf "STRING_ARRAY value should be []string" [])
    end
  else if decide (t = rpmTypeString) then
    match tag_Value tag with
    | StringValue stringValue => Ok (mkPacked 1 (pack_string stringValue))
    | _ => Err (Errorf "STRING value should be string" [])
    end
  else if decide (t = rpmTypeInt8) then
    match tag_Value tag with
    | Int8Values values => Ok (mkPacked (Z.of_nat (length values)) (pack_ints 1 values))
    | _ => Err (Errorf "INT8 value should be []int8" [])
    end
  else if decide (t = rpmTypeInt16) then
    match tag_Value tag with
    | Int16Values values => Ok (mkPacked (Z.of_nat (length values)) (pack_ints 2 values))
    | _ => Err (Errorf "INT16 value should be []int16" [])
    end
  else if decide (t = rpmTypeInt32) then
    match tag_Value tag with
    | Int32Values values => Ok (mkPacked (Z.of_nat (length values)) (pack_ints 4 values))
    | _ => Err (Errorf "INT32 value should be []int32" [])
    end
  else if decide (t = rpmTypeInt64) then
    match tag_Value tag with
    | Int64Values values => Ok (mkPacked (Z.of_nat (length values)) (pack_ints 8 values))
    | _ => Err (Errorf "INT64 value should be []int64" [])
    end
  else Err (Errorf "unknown tag type: %d" [FormatInt t]).

Definition blen (data : list Z) : Z := Z.of_nat (length data).

Definition alignData (data : list Z) (boundaries : Z) : list Z :=
  let dataLen := blen data in
  if negb (dataLen mod boundaries =? 0)%Z then
    let alignedDataLen := ((dataLen / boundaries + 1) * boundaries)%Z in
    let missedBytesNum := (alignedDataLen - dataLen)%Z in
    data ++ replicate (Z.to_nat missedBytesNum) 0%Z
  else data.

Definition getPackedTagIndex (tagID tagType offset count : Z) : list Z :=
  be_bytes 4 (int32 tagID) ++ be_bytes 4 (int32 tagType) ++ be_bytes 4 (int32 offset)
  ++ be_bytes 4 (int32 count).

Definition getTagSetHeader (tagsNum dataLen : Z) : list Z :=
  headerMagic ++ [versionByte] ++ be_bytes 4 (int32 reservedBytes) ++ be_bytes 4 (int32 tagsNum)
  ++ be_bytes 4 (int32 dataLen).

(** One round of the loop over the tags: [tagsData] and [tagsIndex]. *)
Definition pack_step (s : list Z * list Z) (tag : rpmTagType) : result (list Z * list Z) :=
  let '(tagsData, tagsIndex) := s in
  match packTag tag with
  | Err err => Err err
  | Ok packed =>
      match boundariesByType (tag_Type tag) with
      | None => Err (Errorf "boundaries for type %d is not set" [FormatInt (tag_Type tag)])
      | Some boundaries =>
          let tagsData := if (1 <? boundaries)%Z then alignData tagsData boundaries else tagsData in
          let tagIndex :=
            getPackedTagIndex (tag_ID tag) (tag_Type tag) (blen tagsData) (packed_Count packed) in
          Ok (tagsData ++ packed_Data packed, tagsIndex ++ tagIndex)
      end
  end.

Definition packTagSet (tagSet : rpmTagSetType) (regionTagID : Z) : result (list Z) :=
  match for_each pack_step tagSet ([], []) with
  | Err err => Err err
  | Ok (tagsData, tagsIndex) =>
      let regionTagIndex := getPackedTagIndex regionTagID rpmTypeBin (blen tagsData) 16 in
      let resIndex := regionTagIndex ++ tagsIndex in
      let tagsNum := (Z.of_nat (length tagSet) + 1)%Z in
      let regionTagData := getPackedTagIndex regionTagID rpmTypeBin (- tagsNum * 16) 16 in
      let resData := tagsData ++ regionTagData in
      let tagSetHeader := getTagSetHeader tagsNum (blen resData) in
      Ok (tagSetHeader ++ resIndex ++ resData)
  end.

(** ** The lead *)

(** [rpmLeadName] is an array of 66 bytes: a longer name panics. *)
Definition genRpmLead (name : string) : result (list Z) :=
  let bytes := bytes_of name in
  if decide (length bytes <= 66) then
    let rpmLeadName := bytes ++ replicate (66 - length bytes) 0%Z in
    Ok ([237; 171; 238; 219]%Z ++ be_bytes 1 3 ++ be_bytes 1 0 ++ be_bytes 2 0 ++ be_bytes 2 1
        ++ rpmLeadName ++ be_bytes 2 1 ++ be_bytes 2 5 ++ replicate 16 0%Z)
  else Err (Errorf "panic: index out of range" []).

(** The example in the comment of [rpm_tagset.go]. *)
Example packTagSet_sample :
  packTagSet [mkTag 1000 rpmTypeString (StringValue "abcd");
              mkTag 1116 rpmTypeInt32 (Int32Values [1; 2; 3]%Z)] 63 =
  Ok ([142;173;232;1; 0;0;0;0; 0;0;0;3; 0;0;0;36]
      ++ [0;0;0;63; 0;0;0;7; 0;0;0;20; 0;0;0;16]
      ++ [0;0;3;232; 0;0;0;6; 0;0;0;0; 0;0;0;1] ++ [0;0;4;92; 0;0;0;4; 0;0;0;8; 0;0;0;3]
      ++ [97;98;99;100;0; 0;0;0; 0;0;0;1; 0;0;0;2; 0;0;0;3]
      ++ [0;0;0;63; 0;0;0;7; 255;255;255;208; 0;0;0;16])%Z.
Proof. vm_compute. reflexivity. Qed.
