(* ===== verification/RpmProps.v ===== *)
(** * Properties of the binary headers of RPM packages

    A reader of the format of RPM headers, written from the description of the
    format in [rpm_tagset.go] and from the sizes of its fields, and the theorem
    that it reads back what [packTagSet] writes; the values that [packTagSet]
    accepts; the size of the lead. *)
From S2P Require Import Prelude GoStrings RpmTags.

Local Open Scope Z_scope.

(** ** A reader of headers *)

(** An unsigned integer in network byte order. *)
Definition be_val (b : list Z) : Z := fold_left (fun acc x => acc * 256 + x) b 0.

Definition read_int (n : nat) (b : list Z) : option (Z * list Z) :=
  if decide (length b < n)%nat then None else Some (int_of n (be_val (take n b)), drop n b).

Record entry := mkEntry { entry_tag : Z; entry_type : Z; entry_offset : Z; entry_count : Z }.

Definition read_entry (b : list Z) : option (entry * list Z) :=
  '(tag, b) ← read_int 4 b;
  '(type, b) ← read_int 4 b;
  '(offset, b) ← read_int 4 b;
  '(count, b) ← read_int 4 b;
  Some (mkEntry tag type offset count, b).

Fixpoint read_many {A} (read : list Z -> option (A * list Z)) (n : nat) (b : list Z) :
    option (list A * list Z) :=
  match n with
  | O => Some ([], b)
  | S n' =>
      '(x, b) ← read b;
      '(xs, b) ← read_many read n' b;
      Some (x :: xs, b)
  end.

(** The entries of the index, the store and what follows the header. *)
Definition read_header (b : list Z) : option (list entry * list Z * list Z) :=
  if decide (take 4 b = [142; 173; 232; 1]) then
    '(reserved, b) ← read_int 4 (drop 4 b);
    '(nindex, b) ← read_int 4 b;
    '(hsize, b) ← read_int 4 b;
    '(entries, b) ← read_many read_entry (Z.to_nat nindex) b;
    if decide (length b < Z.to_nat hsize)%nat then None
    else Some (entries, take (Z.to_nat hsize) b, drop (Z.to_nat hsize) b)
  else None.

(** A string ends with a zero byte. *)
Fixpoint read_string (b : list Z) : option (string * list Z) :=
  match b with
  | [] => None
  | x :: b =>
      if decide (x = 0) then Some ("", b)
      else '(s, b) ← read_string b; Some (String (ascii_of_nat (Z.to_nat x)) s, b)
  end.

Definition read_ints (n : nat) (count : nat) (b : list Z) : option (list Z) :=
  fst <$> read_many (read_int n) count b.

(** The value an entry stands for. *)
Definition read_value (store : list Z) (e : entry) : option tag_value :=
  let b := drop (Z.to_nat (entry_offset e)) store in
  let count := Z.to_nat (entry_count e) in
  match entry_type e with
  | 0 => Some NilValue
  | 1 | 7 => Some (BytesValue (take count b))
  | 2 => Int8Values <$> read_ints 1 count b
  | 3 => Int16Values <$> read_ints 2 count b
  | 4 => Int32Values <$> read_ints 4 count b
  | 5 => Int64Values <$> read_ints 8 count b
  | 6 => (fun r => StringValue (fst r)) <$> read_string b
  | 8 => (fun r => StringsValue (fst r)) <$> read_many read_string count b
  | _ => None
  end.

(** ** What a tag set may hold *)

(** The type of a tag says what its value is. *)
Definition tag_typed (tag : rpmTagType) : Prop :=
  match tag_Value tag with
  | NilValue => tag_Type tag = 0
  | BytesValue _ => tag_Type tag = 1 \/ tag_Type tag = 7
  | Int8Values _ => tag_Type tag = 2
  | Int16Values _ => tag_Type tag = 3
  | Int32Values _ => tag_Type tag = 4
  | Int64Values _ => tag_Type tag = 5
  | StringValue _ => tag_Type tag = 6
  | StringsValue _ => tag_Type tag = 8
  end.

(** A signed integer of [n] bytes. *)
Definition fits (n : nat) (z : Z) : Prop := - (2 ^ (8 * Z.of_nat n) / 2) <= z < 2 ^ (8 * Z.of_nat n) / 2.

Definition no_nul (s : string) : Prop := Forall (fun c => c <> Ascii.zero) (String.list_ascii_of_string s).

(** Values of Go types: integers are of their width.  Strings hold no zero byte. *)
Definition tag_wf (tag : rpmTagType) : Prop :=
  fits 4 (tag_ID tag) /\
  match tag_Value tag with
  | Int8Values l => Forall (fits 1) l
  | Int16Values l => Forall (fits 2) l
  | Int32Values l => Forall (fits 4) l
  | Int64Values l => Forall (fits 8) l
  | StringValue s => no_nul s
  | StringsValue l => Forall no_nul l
  | NilValue | BytesValue _ => True
  end.

(** The boundary to which the data of a type is aligned: the size of its
    integers. *)
Definition width (t : Z) : Z := match t with 3 => 2 | 4 => 4 | 5 => 8 | _ => 1 end.

(** ** Integers *)
Lemma be_bytes_length n z : length (be_bytes n z) = n.
Proof. induction n; simpl; congruence. Qed.

Lemma be_val_app a b : be_val (a ++ b) = be_val a * 256 ^ Z.of_nat (length b) + be_val b.
Proof.
  unfold be_val. rewrite fold_left_app. generalize (fold_left (fun acc x => acc * 256 + x) a 0).
  induction b as [|x b IH] using rev_ind; intros z; [simpl; lia|].
  rewrite !fold_left_app, length_app, IH, Nat2Z.inj_add, Z.pow_add_r by lia.
  cbn [fold_left length]. change (256 ^ Z.of_nat 1) with 256. ring.
Qed.

Lemma be_val_be_bytes n z : be_val (be_bytes n z) = z mod 2 ^ (8 * Z.of_nat n).
Proof.
  induction n as [|n IH]; [simpl; by rewrite Z.mod_1_r|]. cbn [be_bytes].
  change (?x :: ?l) with ([x] ++ l). rewrite be_val_app, be_bytes_length, IH.
  change (be_val [?x]) with (0 * 256 + x). change 255 with (Z.ones 8).
  rewrite Z.land_ones, Z.shiftr_div_pow2 by lia.
  replace (8 * Z.of_nat (S n)) with (8 * Z.of_nat n + 8) by lia.
  rewrite Z.pow_add_r, Z.rem_mul_r by lia. change 256 with (2 ^ 8).
  rewrite <- Z.pow_mul_r by lia. lia.
Qed.

Lemma int_of_mod n z : int_of n (z mod 2 ^ (8 * Z.of_nat n)) = int_of n z.
Proof. unfold int_of. by rewrite Z.mod_mod by lia. Qed.

Lemma int_of_fits n z : (0 < n)%nat -> fits n z -> int_of n z = z.
Proof.
  unfold fits, int_of. intros Hn Hz.
  replace (8 * Z.of_nat n) with (1 + (8 * Z.of_nat n - 1)) in * by lia.
  rewrite Z.pow_add_r in * by lia. change (2 ^ 1) with 2 in *.
  set (h := 2 ^ (8 * Z.of_nat n - 1)) in *.
  assert (0 < h) by (apply Z.pow_pos_nonneg; lia).
  rewrite (Z.mul_comm 2 h), Z.div_mul in * by lia.
  destruct (Z_lt_dec z 0).
  - rewrite <- (Z_mod_plus_full z 1), Z.mod_small by lia.
    destruct (Z.ltb_spec (z + 1 * (h * 2)) h); lia.
  - rewrite Z.mod_small by lia. destruct (Z.ltb_spec z h); lia.
Qed.

Lemma int_of_range n z : (0 < n)%nat -> fits n (int_of n z).
Proof.
  unfold fits, int_of. intros Hn.
  replace (8 * Z.of_nat n) with (1 + (8 * Z.of_nat n - 1)) in * by lia.
  rewrite Z.pow_add_r in * by lia. change (2 ^ 1) with 2 in *.
  set (h := 2 ^ (8 * Z.of_nat n - 1)) in *.
  assert (0 < h) by (apply Z.pow_pos_nonneg; lia).
  rewrite (Z.mul_comm 2 h), Z.div_mul in * by lia.
  pose proof (Z.mod_pos_bound z (h * 2)). destruct (Z.ltb_spec (z mod (h * 2)) h); lia.
Qed.

Lemma read_int_app n z b : read_int n (be_bytes n z ++ b) = Some (int_of n z, b).
Proof.
  unfold read_int. rewrite length_app, be_bytes_length, decide_False by lia.
  rewrite take_app_length', drop_app_length' by (by rewrite be_bytes_length).
  by rewrite be_val_be_bytes, int_of_mod.
Qed.

Lemma read_int32_app z b : fits 4 z -> read_int 4 (be_bytes 4 (int32 z) ++ b) = Some (z, b).
Proof.
  intros Hz. rewrite read_int_app. unfold int32.
  by rewrite (int_of_fits 4 z), int_of_fits by (done || lia).
Qed.

Lemma read_many_app {A} (put : A -> list Z) read l b :
  (forall x b, x ∈ l -> read (put x ++ b) = Some (x, b)) ->
  read_many read (length l) (concat (map put l) ++ b) = Some (l, b).
Proof.
  revert b. induction l as [|x l IH]; intros b Hr; [done|]. cbn [length map concat read_many].
  rewrite <- (assoc_L (++)), Hr by left. cbn. rewrite IH; [done|]. intros. apply Hr. by right.
Qed.

Lemma read_ints_app n l b :
  (0 < n)%nat -> Forall (fits n) l -> read_ints n (length l) (pack_ints n l ++ b) = Some l.
Proof.
  intros Hn Hl. unfold read_ints, pack_ints. rewrite read_many_app; [done|].
  intros x b' Hx. rewrite read_int_app, int_of_fits; [done..|]. by eapply Forall_forall in Hl.
Qed.

(** ** Strings *)
Lemma read_string_app s b : no_nul s -> read_string (pack_string s ++ b) = Some (s, b).
Proof.
  unfold no_nul, pack_string. rewrite <- (assoc_L (++)). change ([0] ++ b) with (0 :: b).
  induction s as [|c s IH]; intros Hs; [done|]. cbn [String.list_ascii_of_string] in Hs.
  apply Forall_cons in Hs as [Hc Hs]. unfold bytes_of in *.
  cbn [String.list_ascii_of_string map app read_string]. rewrite decide_False.
  - rewrite IH by done. cbn. by rewrite Nat2Z.id, ascii_nat_embedding.
  - intros Hz. apply Hc. rewrite <- (ascii_nat_embedding c), <- (ascii_nat_embedding Ascii.zero).
    f_equal. change (nat_of_ascii Ascii.zero) with 0%nat. lia.
Qed.

Lemma read_strings_app l b :
  Forall no_nul l ->
  read_many read_string (length l) (concat (map pack_string l) ++ b) = Some (l, b).
Proof.
  intros Hl. apply read_many_app. intros s b' Hs. apply read_string_app.
  by eapply Forall_forall in Hl.
Qed.

(** ** Entries of the index *)
Definition entry_bytes (e : entry) : list Z :=
  getPackedTagIndex (entry_tag e) (entry_type e) (entry_offset e) (entry_count e).

Definition entry_wf (e : entry) : Prop :=
  fits 4 (entry_tag e) /\ fits 4 (entry_type e) /\ fits 4 (entry_offset e) /\ fits 4 (entry_count e).

Lemma read_entry_app e b : entry_wf e -> read_entry (entry_bytes e ++ b) = Some (e, b).
Proof.
  destruct e as [t ty o c]. intros (Ht & Hty & Ho & Hc). cbn in Ht, Hty, Ho, Hc.
  unfold read_entry, entry_bytes, getPackedTagIndex. cbn [entry_tag entry_type entry_offset entry_count].
  rewrite <- !(assoc_L (++)), read_int32_app by done. cbn [mbind option_bind].
  do 3 (rewrite read_int32_app by done; cbn [mbind option_bind]). done.
Qed.

Lemma entry_bytes_length e : length (entry_bytes e) = 16%nat.
Proof. unfold entry_bytes, getPackedTagIndex. by rewrite !length_app, !be_bytes_length. Qed.

(** ** One tag *)

(** What [packTag] gives for a value of its type, and that it refuses others. *)
Lemma packTag_ok tag : is_ok (packTag tag) = true <-> tag_typed tag.
Proof.
  destruct tag as [id t v]. unfold packTag, tag_typed, rpmTypeNull, rpmTypeChar, rpmTypeBin,
    rpmTypeStringArray, rpmTypeString, rpmTypeInt8, rpmTypeInt16, rpmTypeInt32, rpmTypeInt64. cbn.
  repeat case_decide; subst; destruct v; cbn; naive_solver lia.
Qed.

Lemma boundaries_width t : 0 <= t <= 8 -> boundariesByType t = Some (width t).
Proof.
  intros Ht.
  assert (t = 0 \/ t = 1 \/ t = 2 \/ t = 3 \/ t = 4 \/ t = 5 \/ t = 6 \/ t = 7 \/ t = 8)
    as Hc by lia.
  by destruct_or! Hc; subst t.
Qed.

Lemma packTag_type tag p : packTag tag = Ok p -> 0 <= tag_Type tag <= 8.
Proof.
  intros Hp. assert (tag_typed tag) as Ht by (apply packTag_ok; by rewrite Hp).
  unfold tag_typed in Ht. destruct (tag_Value tag); lia.
Qed.

(** The data of a tag, wherever it is in the store, is its value. *)
Lemma read_value_packed tag p pre post :
  packTag tag = Ok p -> tag_wf tag ->
  read_value (pre ++ packed_Data p ++ post)
    (mkEntry (tag_ID tag) (tag_Type tag) (blen pre) (packed_Count p)) = Some (tag_Value tag).
Proof.
  intros Hp [_ Hwf]. assert (tag_typed tag) as Ht by (apply packTag_ok; by rewrite Hp).
  unfold read_value, blen. cbn [entry_offset entry_count entry_type].
  rewrite Nat2Z.id, drop_app_length. destruct tag as [id t v]. unfold tag_typed in Ht. cbn in *.
  destruct v; destruct_or? Ht; subst t; injection Hp as <-; cbn [packed_Data packed_Count];
    rewrite ?Nat2Z.id, ?take_app_length, ?read_ints_app, ?read_string_app, ?read_strings_app
      by (done || lia); done.
Qed.

Lemma concat_length_ge {A} (f : A -> list Z) l :
  (forall x, (0 < length (f x))%nat) -> (length l <= length (concat (map f l)))%nat.
Proof.
  intros Hf. induction l as [|x l IH]; [done|]. cbn. rewrite length_app.
  specialize (Hf x). lia.
Qed.

Lemma packed_count_bound tag p :
  packTag tag = Ok p -> 0 <= packed_Count p <= Z.max 1 (blen (packed_Data p)).
Proof.
  intros Hp. assert (tag_typed tag) as Ht by (apply packTag_ok; by rewrite Hp).
  destruct tag as [id t v]. unfold tag_typed in Ht. cbn in Ht.
  destruct v; destruct_or? Ht; subst t; injection Hp as <-; unfold blen, pack_ints;
    cbn [packed_Data packed_Count]; rewrite ?length_app; cbn [length]; try lia.
  all: match goal with |- context [concat (map ?f ?l)] =>
    assert (length l <= length (concat (map f l)))%nat; [|lia] end.
  all: apply concat_length_ge; intros; unfold pack_string;
    rewrite ?length_app, ?be_bytes_length; cbn [length]; lia.
Qed.

(** ** The loop over the tags *)

(** The entry [e] of the index describes the data of [tag] in the store [d]. *)
Definition stored (d : list Z) (tag : rpmTagType) (e : entry) : Prop :=
  exists p pre post,
    packTag tag = Ok p /\ d = pre ++ packed_Data p ++ post /\
    e = mkEntry (tag_ID tag) (tag_Type tag) (blen pre) (packed_Count p) /\
    blen pre mod width (tag_Type tag) = 0.

Lemma stored_app d d' tag e : stored d tag e -> stored (d ++ d') tag e.
Proof.
  intros (p & pre & post & Hp & -> & He & Ha). exists p, pre, (post ++ d').
  by rewrite <- !(assoc_L (++)).
Qed.

Lemma alignData_aligned data b :
  0 < b -> exists pad, alignData data b = data ++ pad /\ blen (alignData data b) mod b = 0.
Proof.
  intros Hb. unfold alignData. destruct (Z.eqb_spec (blen data mod b) 0) as [E|E]; cbn [negb].
  - exists []. by rewrite app_nil_r.
  - eexists. split; [done|]. unfold blen in *. rewrite length_app, length_replicate.
    set (n := Z.of_nat (length data)) in *. pose proof (Z.div_mod n b). pose proof (Z.mod_pos_bound n b).
    rewrite Nat2Z.inj_add, Z2Nat.id by lia. fold n.
    replace (n + _) with ((n / b + 1) * b) by lia. by apply Z_mod_mult.
Qed.

Lemma pack_step_ok d i tag d' i' :
  pack_step (d, i) tag = Ok (d', i') ->
  exists pad e, d' = d ++ pad /\ i' = i ++ entry_bytes e /\ stored d' tag e.
Proof.
  unfold pack_step. destruct (packTag tag) as [p|] eqn:Hp; [|done].
  assert (0 <= tag_Type tag <= 8) as Ht by by eapply packTag_type.
  rewrite boundaries_width by done.
  destruct (alignData_aligned d (width (tag_Type tag))) as (pad & Hpad & Ha).
  { unfold width. repeat case_match; lia. }
  destruct (Z.ltb_spec 1 (width (tag_Type tag))) as [Hw|Hw]; intros [= <- <-].
  - rewrite Hpad. exists (pad ++ packed_Data p), (mkEntry (tag_ID tag) (tag_Type tag) (blen (d ++ pad)) (packed_Count p)).
    rewrite (assoc_L (++)). split_and!; [done..|]. exists p, (d ++ pad), []. rewrite app_nil_r.
    rewrite Hpad in Ha. done.
  - exists (packed_Data p), (mkEntry (tag_ID tag) (tag_Type tag) (blen d) (packed_Count p)).
    split_and!; [done..|]. exists p, d, []. rewrite app_nil_r. split_and!; [done..|].
    replace (width (tag_Type tag)) with 1; [apply Z.mod_1_r|].
    revert Hw. unfold width. repeat case_match; lia.
Qed.

Lemma pack_loop_ok tags d i d' i' :
  for_each pack_step tags (d, i) = Ok (d', i') ->
  exists pad es, d' = d ++ pad /\ i' = i ++ concat (map entry_bytes es) /\
    Forall2 (stored d') tags es.
Proof.
  revert d i. induction tags as [|tag tags IH]; intros d i; cbn [for_each].
  { intros [= <- <-]. exists [], []. cbn. by rewrite !app_nil_r. }
  destruct (pack_step (d, i) tag) as [[d1 i1]|] eqn:Hs; [|done]. cbn [rbind]. intros Hl.
  apply pack_step_ok in Hs as (pad & e & -> & -> & He).
  apply IH in Hl as (pad' & es & -> & -> & Hes).
  exists (pad ++ pad'), (e :: es). rewrite (assoc_L (++) d). split_and!; [done| |].
  - cbn [map concat]. by rewrite (assoc_L (++)).
  - constructor; [by apply stored_app|done].
Qed.

Lemma pack_loop_typed tags s :
  is_ok (for_each pack_step tags s) = true <-> Forall tag_typed tags.
Proof.
  revert s. induction tags as [|tag tags IH]; intros [d i]; cbn [for_each]; [done|].
  rewrite Forall_cons, <- packTag_ok. cbn [pack_step].
  destruct (packTag tag) as [p|] eqn:Hp; cbn [rbind is_ok]; [|naive_solver].
  rewrite boundaries_width by by eapply packTag_type. cbn [rbind].
  destruct (1 <? width (tag_Type tag)); cbn [rbind]; rewrite IH; naive_solver.
Qed.

Lemma stored_wf d tag e : stored d tag e -> tag_wf tag -> blen d < 2 ^ 31 -> entry_wf e.
Proof.
  intros (p & pre & post & Hp & -> & -> & _) [Hid _] Hd.
  pose proof (packed_count_bound _ _ Hp) as Hc. pose proof (packTag_type _ _ Hp) as Ht.
  unfold blen in *. rewrite !length_app in Hd. unfold entry_wf, fits in *.
  change (2 ^ (8 * Z.of_nat 4) / 2) with (2 ^ 31) in *. cbn [entry_tag entry_type entry_offset entry_count].
  lia.
Qed.

Lemma blen_app a b : blen (a ++ b) = blen a + blen b.
Proof. unfold blen. rewrite length_app. lia. Qed.

Lemma fits_4 z : fits 4 z <-> - 2 ^ 31 <= z < 2 ^ 31.
Proof. done. Qed.

(** A header made of well-formed entries and a store is read back. *)
Lemma read_header_app es store rest :
  Forall entry_wf es -> fits 4 (Z.of_nat (length es)) -> fits 4 (blen store) ->
  read_header ((getTagSetHeader (Z.of_nat (length es)) (blen store)
                ++ concat (map entry_bytes es) ++ store) ++ rest) = Some (es, store, rest).
Proof.
  intros Hes Hn Hs. unfold read_header, getTagSetHeader. rewrite <- !(assoc_L (++)).
  change (take 4 _) with [142; 173; 232; 1]. rewrite decide_True by done.
  change (drop 4 (headerMagic ++ [versionByte] ++ ?b)) with b.
  rewrite read_int32_app by done. cbn [mbind option_bind].
  do 2 (rewrite read_int32_app by done; cbn [mbind option_bind]).
  rewrite Nat2Z.id, (read_many_app entry_bytes).
  - cbn [mbind option_bind]. unfold blen. rewrite Nat2Z.id, decide_False by (rewrite length_app; lia).
    by rewrite take_app_length, drop_app_length.
  - intros e b He. apply read_entry_app. by eapply Forall_forall in Hes.
Qed.

(** The parts of a packed set. *)
Lemma packTagSet_layout tagSet region data :
  packTagSet tagSet region = Ok data ->
  let n := Z.of_nat (length tagSet) + 1 in
  exists d es,
    let index := mkEntry region 7 (blen d) 16 :: es in
    let store := d ++ entry_bytes (mkEntry region 7 (- n * 16) 16) in
    data = getTagSetHeader (Z.of_nat (length index)) (blen store)
           ++ concat (map entry_bytes index) ++ store /\
    Forall2 (stored d) tagSet es.
Proof.
  unfold packTagSet. destruct (for_each _ _ _) as [[d i]|] eqn:Hl; [|done]. intros [= <-].
  apply pack_loop_ok in Hl as (pad & es & -> & -> & Hes). exists pad, es. split; [|done].
  cbn [app map concat length]. rewrite <- (Forall2_length _ _ _ Hes).
  by replace (Z.of_nat (S (length tagSet))) with (Z.of_nat (length tagSet) + 1) by lia.
Qed.

Lemma index_blen es : blen (concat (map entry_bytes es)) = 16 * Z.of_nat (length es).
Proof.
  induction es as [|e es IH]; [done|]. cbn [map concat]. rewrite blen_app, IH.
  unfold blen. rewrite entry_bytes_length. cbn [length]. lia.
Qed.

Lemma stored_all_wf d tags es :
  Forall2 (stored d) tags es -> Forall tag_wf tags -> blen d < 2 ^ 31 -> Forall entry_wf es.
Proof. induction 1; inversion 1; subst; intros; constructor; eauto using stored_wf. Qed.

Lemma stored_read d d' tag e :
  stored d tag e -> tag_wf tag ->
  entry_tag e = tag_ID tag /\ entry_type e = tag_Type tag /\
  entry_offset e mod width (tag_Type tag) = 0 /\ read_value (d ++ d') e = Some (tag_Value tag).
Proof.
  intros (p & pre & post & Hp & -> & -> & Ha) Hwf. split_and!; [done..|].
  rewrite <- !(assoc_L (++)). by apply read_value_packed.
Qed.

(** A reader of [data ++ rest] finds the entry of the region, an aligned entry
    with the value of every tag, and the trailer of the region. *)
Definition reads_back (tagSet : rpmTagSetType) (region : Z) (data rest : list Z) : Prop :=
  exists entries store,
    read_header (data ++ rest) =
      Some (mkEntry region 7 (blen store - 16) 16 :: entries, store, rest) /\
    Forall2 (fun tag e =>
      entry_tag e = tag_ID tag /\ entry_type e = tag_Type tag /\
      entry_offset e mod width (tag_Type tag) = 0 /\
      read_value store e = Some (tag_Value tag)) tagSet entries /\
    read_entry (drop (Z.to_nat (blen store - 16)) store) =
      Some (mkEntry region 7 (- (16 * (Z.of_nat (length tagSet) + 1))) 16, []).

Lemma packTagSet_read tagSet region :
  (is_ok (packTagSet tagSet region) = true <-> Forall tag_typed tagSet) /\
  forall data rest,
  packTagSet tagSet region = Ok data ->
  Forall tag_wf tagSet -> fits 4 region -> blen data < 2 ^ 31 ->
  reads_back tagSet region data rest.
Proof.
  split.
  { unfold packTagSet. rewrite <- (pack_loop_typed tagSet ([], [])).
    by destruct (for_each _ _ _) as [[d i]|]. }
  intros data rest Hp Hwf Hr Hlen. unfold reads_back.
  apply packTagSet_layout in Hp as (d & es & -> & Hes).
  assert (length tagSet = length es) as Hl by by eapply Forall2_length.
  assert (forall e, blen (entry_bytes e) = 16) as He
    by (intros; unfold blen; by rewrite entry_bytes_length).
  rewrite blen_app, (blen_app (concat _)), index_blen, blen_app, He in Hlen. cbn [length] in Hlen.
  assert (0 <= blen d /\ forall z b, 0 <= blen (getTagSetHeader z b)) as [? Hh]
    by (split; intros; unfold blen; lia).
  specialize (Hh (Z.of_nat (S (length es))) (blen d + 16)).
  set (te := mkEntry region 7 (- (_ + 1) * 16) 16) in *. exists es, (d ++ entry_bytes te).
  assert (blen (d ++ entry_bytes te) = blen d + 16) as Hs by by rewrite blen_app, He.
  assert (entry_wf te) as Hte by (unfold entry_wf; rewrite !fits_4 in *; cbn; lia).
  rewrite (read_header_app (mkEntry region 7 (blen d) 16 :: es)), Hs; [|..].
  - replace (blen d + 16 - 16) with (blen d) by lia. split; [done|]. split.
    + generalize (entry_bytes te). clear -Hes Hwf. intros b. induction Hes as [|tag e tags es Hst _ IH]; [constructor|].
      apply Forall_cons in Hwf as [Hw Hwf]. constructor; [by apply stored_read|by apply IH].
    + unfold blen. rewrite Nat2Z.id, drop_app_length.
      rewrite <- (app_nil_r (entry_bytes te)), read_entry_app by done. unfold te. do 3 f_equal. lia.
  - constructor; [unfold entry_wf; rewrite !fits_4 in *; cbn; lia|].
    eapply stored_all_wf; [done..|lia].
  - rewrite fits_4. cbn [length]. lia.
  - rewrite fits_4, Hs. lia.
Qed.

(** C12: packTagSet succeeds exactly when the value of every tag has the type
    of the tag, and a reader written from the description of the RPM header
    gets back from the bytes every tag with its id, type and value at an
    aligned offset, the region tag first with its trailer, and stops exactly
    at the end of the bytes, for every text that follows. *)
Theorem packTagSet_reads_back tagSet region :
  (is_ok (packTagSet tagSet region) = true <-> Forall tag_typed tagSet) /\
  forall data rest,
  packTagSet tagSet region = Ok data ->
  Forall tag_wf tagSet -> fits 4 region -> blen data < 2 ^ 31 ->
  reads_back tagSet region data rest.
Proof. apply packTagSet_read. Qed.

Lemma packTagSet_reads_back_witness :
  exists entries store rest,
    read_header ([142;173;232;1; 0;0;0;0; 0;0;0;3; 0;0;0;36]
      ++ [0;0;0;63; 0;0;0;7; 0;0;0;20; 0;0;0;16]
      ++ [0;0;3;232; 0;0;0;6; 0;0;0;0; 0;0;0;1] ++ [0;0;4;92; 0;0;0;4; 0;0;0;8; 0;0;0;3]
      ++ [97;98;99;100;0; 0;0;0; 0;0;0;1; 0;0;0;2; 0;0;0;3]
      ++ [0;0;0;63; 0;0;0;7; 255;255;255;208; 0;0;0;16] ++ [31; 139]) =
    Some (mkEntry 63 7 (blen store - 16) 16 :: entries, store, rest).
Proof.
  destruct (packTagSet_reads_back
    [mkTag 1000 rpmTypeString (StringValue "abcd");
     mkTag 1116 rpmTypeInt32 (Int32Values [1; 2; 3])] 63) as [_ H].
  destruct (H _ [31; 139] packTagSet_sample) as (entries & store & Hr & _).
  - repeat constructor; cbn; try lia; done.
  - by rewrite fits_4.
  - done.
  - exists entries, store, [31; 139]. exact Hr.
Defined.

(** ** The lead *)

(** A lead has 96 bytes and holds the name and zero bytes from offset 10 on;
    longer names panic. *)
Lemma genRpmLead_size name :
  match genRpmLead name with
  | Ok lead =>
      (String.length name <= 66)%nat /\ length lead = 96%nat /\
      take 66 (drop 10 lead) = bytes_of name ++ replicate (66 - String.length name) 0
  | Err _ => (66 < String.length name)%nat
  end.
Proof.
  assert (length (bytes_of name) = String.length name) as Hn.
  { unfold bytes_of. rewrite length_map. induction name; cbn; congruence. }
  unfold genRpmLead. rewrite Hn. case_decide as Hd; [|lia].
  cbn [app be_bytes]. split; [done|].
  assert (length (bytes_of name ++ replicate (66 - String.length name) 0) = 66%nat) as Hl
    by (rewrite length_app, length_replicate; lia).
  split; [cbn [length]; rewrite length_app, Hl; done|].
  cbn [drop skipn]. by rewrite drop_0, take_app_length' by done.
Qed.
