(* ===== verification/ClusterGet.v ===== *)
(** * Collecting the configuration of an application ([cli/cluster/cluster.go])

    The sources of a cluster configuration and the order in which they are
    merged: environment variables, the file, etcd, the Tarantool config storage
    and default environment variables. *)
From S2P Require Import Prelude GoStrings Value Config Cluster Sources Etcd Tarantool.
From S2P Require Import Regexp Uri.

(** ** Durations, in nanoseconds *)
Definition Second : Z := 1000000000.
Definition defaultEtcdTimeout : Z := 3 * Second.

(** The absolute value of a finite float, rounded to the nearest millionth
    (ties to even), which is what [%f] prints. *)
Definition millionths (m : positive) (e : Z) : Z :=
  if (0 <=? e)%Z then (Z.pos m * 2 ^ e * 1000000)%Z
  else
    let d := (2 ^ (- e))%Z in
    let n := (Z.pos m * 1000000)%Z in
    let q := (n / d)%Z in
    let r := (n mod d)%Z in
    if (2 * r <? d)%Z then q
    else if (d <? 2 * r)%Z then (q + 1)%Z
    else if Z.even q then q else (q + 1)%Z.

Definition pad6 (n : Z) : string :=
  let digits := FormatUint n in
  repeat_char (6 - String.length digits) "0" +:+ digits.

(** [fmt.Sprintf("%f", f)] *)
Definition sprint_f (f : spec_float) : string :=
  let sign (s : bool) := if s then "-" else "" in
  match f with
  | S754_zero s => sign s +:+ "0.000000"
  | S754_infinity s => (if s : bool then "-" else "+") +:+ "Inf"
  | S754_nan => "NaN"
  | S754_finite s m e =>
      let n := millionths m e in
      sign s +:+ FormatUint (n / 1000000) +:+ "." +:+ pad6 (n mod 1000000)
  end.

(** [time.ParseDuration(fmt.Sprintf("%fs", f))]: a decimal number of seconds
    whose nanoseconds fit an [int64]. *)
Definition parse_seconds (f : spec_float) : result Z :=
  let invalid := Err (Errorf "time: invalid duration %q" [sprint_f f +:+ "s"]) in
  match f with
  | S754_zero _ => Ok 0%Z
  | S754_infinity _ | S754_nan => invalid
  | S754_finite s m e =>
      let n := (millionths m e * 1000)%Z in
      let d := if s : bool then (- n)%Z else n in
      if ((MinInt64 <=? d) && (d <=? MaxInt64))%Z then Ok d else invalid
  end.

(** [int64(f)] of a [float64]: the fraction is cut off.  The language leaves
    values out of range to the implementation; this is what amd64 does. *)
Definition int64_of_float (f : spec_float) : Z :=
  let in_range z := if ((MinInt64 <=? z) && (z <=? MaxInt64))%Z then z else MinInt64 in
  match f with
  | S754_zero _ => 0%Z
  | S754_infinity _ | S754_nan => MinInt64
  | S754_finite s m e =>
      let a := if (0 <=? e)%Z then (Z.pos m * 2 ^ e)%Z else (Z.pos m / 2 ^ (- e))%Z in
      in_range (if s : bool then (- a)%Z else a)
  end.

(** [time.Duration(f * float64(time.Second))] *)
Definition duration_of_seconds (f : spec_float) : Z :=
  int64_of_float (SFmul 53 1024 f (binary_normalize 53 1024 Second 0 false)).

(** ** Options of a connection to Tarantool: [tarantool.Opts] *)
Record SslOpts := mkSslOpts {
  Ssl_KeyFile : string; Ssl_CertFile : string; Ssl_CaFile : string; Ssl_Ciphers : string
}.

Record TarantoolOpts := mkTarantoolOpts {
  User : string; Pass : string; Transport : string; Ssl : SslOpts; SkipSchema : bool;
  opts_Timeout : Z
}.

(** ** What the code reaches outside

    The TLS library, the file system and [clientv3.New] that [ConnectEtcd] is
    built on, [tarantool.Connect], the [Close] of either client, the home
    directory and the environment. *)
Class Services (W : Type) := {
  TLSBase : Type;
  CertPool : Type;
  ClientConfig : string -> string -> string -> result (TLSConfig TLSBase CertPool);
  NewCertPool : CertPool;
  AppendCertsFromPEM : CertPool -> string -> CertPool;
  ReadDir : string -> result (list DirEntry);
  Readlink : string -> string -> option string;
  ReadFile : string -> option string;
  clientv3_New : list string -> Z -> string -> string -> option (TLSConfig TLSBase CertPool) ->
    result (EtcdClient W);
  etcd_Close : EtcdClient W -> W -> W;
  tarantool_Connect : string -> TarantoolOpts -> W -> result (TarantoolConn W) * W;
  conn_Close : TarantoolConn W -> W -> W;
  UserHomeDir : result string;
  LookupEnv : string -> option string
}.

Section ClusterGet.
Context {W : Type} `{Yaml} `{!Services W}.
Variable collectors : CollectorFactory W.

(** ** Environment variables *)
Definition main_env_name (path : list string) : string := "TT_" +:+ ToUpper (Join path "_").
Definition default_env_name (path : list string) : string :=
  "TT_" +:+ ToUpper (Join path "_") +:+ "_DEFAULT".

Definition mainEnvCollector : result Config := EnvCollector_Collect LookupEnv main_env_name.
Definition defaultEnvCollector : result Config := EnvCollector_Collect LookupEnv default_env_name.

(** ** [collectEtcdConfig] *)
Definition etcd_opts (etcdConfig : EtcdConnection) : result EtcdOpts :=
  let opts := mkEtcdOpts (etcd_endpoints etcdConfig) (etcd_username etcdConfig)
    (etcd_password etcdConfig) (ssl_key etcdConfig) (cert_file etcdConfig)
    (ca_path etcdConfig) (ca_file etcdConfig)
    (negb (verify_peer etcdConfig) || negb (verify_host etcdConfig)) in
  if SFeqb (http_request_timeout etcdConfig) (S754_zero false) then Ok (opts defaultEtcdTimeout)
  else rmap opts (rwrap "unable to parse a etcd request timeout: %w" []
                    (parse_seconds (http_request_timeout etcdConfig))).

Definition collectEtcdConfig (clusterConfig : ClusterConfig) (w : W) : result Config * W :=
  let etcdConfig := cluster_etcd clusterConfig in
  match etcd_opts etcdConfig with
  | Err e => (Err e, w)
  | Ok opts =>
      match ConnectEtcd ClientConfig NewCertPool AppendCertsFromPEM ReadDir Readlink ReadFile
              clientv3_New opts with
      | Err e => (Err (Wrapf "unable to connect to etcd: %w" [] e), w)
      | Ok etcd =>
          match NewEtcd collectors etcd (etcd_prefix etcdConfig) "" (Timeout opts) with
          | Err e => (Err (Wrapf "failed to create etcd collector: %w" [] e), etcd_Close etcd w)
          | Ok etcdCollector =>
              let '(res, w') := collect etcdCollector w in
              (rwrap "unable to get config from etcd: %w" [] res, etcd_Close etcd w')
          end
      end
  end.

(** ** [collectTarantoolConfig] *)
Definition endpoint_opts (endpoint : StorageEndpoint) : string * TarantoolOpts :=
  let '(network, address) :=
    if negb (IsBaseURI (ep_uri endpoint)) then ("tcp", ep_uri endpoint)
    else ParseBaseURI UserHomeDir (ep_uri endpoint) in
  let transport := ep_transport endpoint in
  let ssl :=
    if decide (transport = "ssl")
    then mkSslOpts (ep_ssl_key_file endpoint) (ep_ssl_cert_file endpoint)
           (ep_ssl_ca_file endpoint) (ep_ssl_ciphers endpoint)
    else mkSslOpts "" "" "" "" in
  (network +:+ "://" +:+ address,
   mkTarantoolOpts (ep_login endpoint) (ep_password endpoint) transport ssl true 0).

(** What the loop over the endpoints keeps: the errors, the configuration
    collected so far and the connections whose [Close] is deferred. *)
Record storage_state := mkStorageState {
  connectionErrors : list error;
  st_config : Config;
  open_conns : list (TarantoolConn W)
}.

Definition add_error (st : storage_state) (e : error) : storage_state :=
  mkStorageState (connectionErrors st ++ [e]) (st_config st) (open_conns st).

Definition visit_endpoint (prefix : string) (timeout : Z) (acc : storage_state * W)
    (opt : string * TarantoolOpts) : storage_state * W :=
  let '(st, w) := acc in
  let '(addr, opts) := opt in
  match tarantool_Connect addr opts w with
  | (Err e, w1) =>
      (add_error st (Wrapf "error when connecting to endpoint %q: %w" [addr] e), w1)
  | (Ok conn, w1) =>
      let st := mkStorageState (connectionErrors st) (st_config st) (conn :: open_conns st) in
      match NewTarantool collectors conn prefix "" timeout with
      | Err e =>
          (add_error st (Wrapf "error when creating a collector for endpoint %q: %w" [addr] e), w1)
      | Ok tarantoolCollector =>
          match collect tarantoolCollector w1 with
          | (Err e, w2) =>
              (add_error st (Wrapf "error when collecting config from endpoint %q: %w" [addr] e), w2)
          | (Ok config, w2) =>
              (mkStorageState (connectionErrors st) (Merge (st_config st) config) (open_conns st), w2)
          end
      end
  end.

Definition collectTarantoolConfig (clusterConfig : ClusterConfig) (w : W) : result Config * W :=
  let tarantoolConfig := cluster_storage clusterConfig in
  let opts := map endpoint_opts (storage_endpoints tarantoolConfig) in
  let '(st, w1) :=
    fold_left (visit_endpoint (storage_prefix tarantoolConfig)
                 (duration_of_seconds (storage_timeout tarantoolConfig)))
      opts (mkStorageState [] NewConfig [], w) in
  let w2 := fold_left (fun w conn => conn_Close conn w) (open_conns st) w1 in
  match connectionErrors st with
  | [] => (Ok (st_config st), w2)
  | errs => (Err (ErrJoin errs), w2)
  end.

(** ** [GetClusterConfig] *)
Definition collect_etcd_if (config : Config) (clusterConfig : ClusterConfig) (w : W)
    : result Config * W :=
  match etcd_endpoints (cluster_etcd clusterConfig) with
  | [] => (Ok config, w)
  | _ =>
      match collectEtcdConfig clusterConfig w with
      | (Err e, w') => (Err e, w')
      | (Ok etcdConfig, w') => (Ok (Merge config etcdConfig), w')
      end
  end.

Definition collect_storage_if (config : Config) (clusterConfig : ClusterConfig) (w : W)
    : result Config * W :=
  match storage_endpoints (cluster_storage clusterConfig) with
  | [] => (Ok config, w)
  | _ =>
      match collectTarantoolConfig clusterConfig w with
      | (Err e, w') => (Err e, w')
      | (Ok tarantoolConfig, w') => (Ok (Merge config tarantoolConfig), w')
      end
  end.

Definition add_defaults (config : Config) : result ClusterConfig :=
  match defaultEnvCollector with
  | Err e =>
      Err (Wrapf "failed to collect a config from default environment variables: %w" [] e)
  | Ok defaultEnvConfig => MakeClusterConfig (Merge config defaultEnvConfig)
  end.

Definition collect_file (path : string) (w : W) : result Config * W :=
  match NewFile collectors path with
  | Err e => (Err (Wrapf "failed to create a file collector: %w" [] e), w)
  | Ok collector =>
      let '(res, w') := collect collector w in
      (rwrap "unable to get cluster config from %q: %w" [path] res, w')
  end.

Definition GetClusterConfig (path : string) (w : W) : result ClusterConfig * W :=
  if decide (path = "") then (Err (Errorf "a configuration file must be set" []), w)
  else
    match mainEnvCollector with
    | Err e => (Err (Wrapf "failed to collect a config from environment variables: %w" [] e), w)
    | Ok mainEnvConfig =>
        let config := Merge NewConfig mainEnvConfig in
        match collect_file path w with
        | (Err e, w1) => (Err e, w1)
        | (Ok fileConfig, w1) =>
            let config := Merge config fileConfig in
            match MakeClusterConfig config with
            | Err e => (Err (Wrapf "unable to parse cluster config from file: %w" [] e), w1)
            | Ok clusterConfig =>
                match collect_etcd_if config clusterConfig w1 with
                | (Err e, w2) => (Err e, w2)
                | (Ok config, w2) =>
                    match collect_storage_if config clusterConfig w2 with
                    | (Err e, w3) => (Err e, w3)
                    | (Ok config, w3) => (add_defaults config, w3)
                    end
                end
            end
        end
    end.

(** ** [GetInstanceConfig] *)
Context `{GoMapOrder}.

Definition GetInstanceConfig (cluster : ClusterConfig) (instance : string)
    : result InstanceConfig :=
  if negb (HasInstance cluster instance) then Err (Errorf "an instance %q not found" [instance])
  else
    match mainEnvCollector with
    | Err e => Err (Wrapf "failed to collect a config from environment variables: %w" [] e)
    | Ok mainEnvConfig =>
        MakeInstanceConfig
          (Merge (Merge NewConfig mainEnvConfig) (Instantiate cluster instance))
    end.
End ClusterGet.

Example parse_seconds_half : parse_seconds (binary_normalize 53 1024 3 (-1) false) = Ok 1500000000%Z.
Proof. vm_compute. reflexivity. Qed.
Example sprint_f_tenth : sprint_f (binary_normalize 53 1024 7205759403792794 (-56) false) = "0.100000".
Proof. vm_compute. reflexivity. Qed.

(** * Where a setting of the collected configuration comes from *)
From S2P Require Import ConfigFacts ClusterProps.

(** ** Environment variables give a plain configuration *)
Lemma env_steps_plain LookupEnv formatter ps c c' :
  for_each (env_step LookupEnv formatter) ps c = Ok c' -> plain (paths c) -> plain (paths c').
Proof.
  revert c. induction ps as [|p ps IH]; intros c; cbn [for_each]; [by intros [= <-]|].
  destruct (env_step LookupEnv formatter c p) as [c1|e] eqn:E; [|done]. cbn [rbind].
  intros Hf Hpl. apply (IH c1 Hf). unfold env_step in E.
  destruct (LookupEnv (formatter p)) as [s|]; [|by injection E as <-].
  pose proof (Set_set_path c p (VStr s)) as Hs.
  replace (stored p (VStr s)) with (VStr s) in Hs by (by destruct p).
  destruct (set_path (paths c) p (VStr s)) as [t|] eqn:Et.
  - rewrite Hs in E. injection E as <-. by eapply plain_set_path.
  - destruct Hs as (? & ? & _ & _ & _ & Hs). by rewrite Hs in E.
Qed.

Lemma EnvCollector_plain LookupEnv formatter c :
  EnvCollector_Collect LookupEnv formatter = Ok c -> plain (paths c).
Proof. intros Hc. by eapply env_steps_plain. Qed.

Lemma merge_documents_snoc cs c : merge_documents (cs ++ [c]) = Merge (merge_documents cs) c.
Proof. unfold merge_documents. by rewrite fold_left_app. Qed.

Section Sources.
Context {W : Type} `{Yaml} `{!Services W}.
Context (collectors : CollectorFactory W).

(** The document of a source that is read only when it has endpoints. *)
Definition optional_source {A} (endpoints : list A) (read : W -> result Config * W) (w : W)
    (docs : list Config) (w' : W) : Prop :=
  match endpoints with
  | [] => docs = [] /\ w' = w
  | _ => exists c, docs = [c] /\ read w = (Ok c, w')
  end.

(** The documents of the sources, in the order they are asked. *)
Inductive source_documents (path : string) (w : W) : list Config -> W -> Prop :=
| sources_collected env collector file cc etcd storage defaults w1 w2 w3 :
    EnvCollector_Collect LookupEnv main_env_name = Ok env ->
    NewFile collectors path = Ok collector -> collect collector w = (Ok file, w1) ->
    MakeClusterConfig (merge_documents [env; file]) = Ok cc ->
    optional_source (etcd_endpoints (cluster_etcd cc)) (collectEtcdConfig collectors cc) w1 etcd w2 ->
    optional_source (storage_endpoints (cluster_storage cc)) (collectTarantoolConfig collectors cc) w2 storage w3 ->
    EnvCollector_Collect LookupEnv default_env_name = Ok defaults ->
    source_documents path w ([env; file] ++ etcd ++ storage ++ [defaults]) w3.

Lemma collect_etcd_if_docs cs cc w res w' :
  collect_etcd_if collectors (merge_documents cs) cc w = (Ok res, w') ->
  exists docs, optional_source (etcd_endpoints (cluster_etcd cc)) (collectEtcdConfig collectors cc) w docs w' /\
    res = merge_documents (cs ++ docs).
Proof.
  unfold collect_etcd_if, optional_source. destruct (etcd_endpoints _) as [|e es].
  - intros [= <- <-]. exists []. by rewrite app_nil_r.
  - destruct (collectEtcdConfig collectors cc w) as [[c|] w1] eqn:E; [|done]. intros [= <- <-].
    exists [c]. rewrite merge_documents_snoc. eauto.
Qed.

Lemma collect_storage_if_docs cs cc w res w' :
  collect_storage_if collectors (merge_documents cs) cc w = (Ok res, w') ->
  exists docs, optional_source (storage_endpoints (cluster_storage cc)) (collectTarantoolConfig collectors cc) w docs w' /\
    res = merge_documents (cs ++ docs).
Proof.
  unfold collect_storage_if, optional_source. destruct (storage_endpoints _) as [|e es].
  - intros [= <- <-]. exists []. by rewrite app_nil_r.
  - destruct (collectTarantoolConfig collectors cc w) as [[c|] w1] eqn:E; [|done]. intros [= <- <-].
    exists [c]. rewrite merge_documents_snoc. eauto.
Qed.

Lemma GetClusterConfig_documents path w cc w' :
  GetClusterConfig collectors path w = (Ok cc, w') ->
  exists docs, source_documents path w docs w' /\ MakeClusterConfig (merge_documents docs) = Ok cc.
Proof.
  unfold GetClusterConfig. destruct (decide (path = "")) as [|_]; [done|].
  unfold mainEnvCollector. destruct (EnvCollector_Collect LookupEnv main_env_name) as [env|] eqn:Ee; [|done].
  unfold collect_file. destruct (NewFile collectors path) as [collector|] eqn:Ef; [|done].
  destruct (collect collector w) as [[file|] w1] eqn:Ec; [|done]. cbn [rwrap].
  change (Merge (Merge NewConfig env) file) with (merge_documents [env; file]).
  destruct (MakeClusterConfig _) as [cc0|] eqn:Em; [|done].
  destruct (collect_etcd_if _ _ _ _) as [[c1|] w2] eqn:E1; [|done].
  apply collect_etcd_if_docs in E1 as (etcd & He & ->).
  destruct (collect_storage_if _ _ _ _) as [[c2|] w3] eqn:E2; [|done].
  apply collect_storage_if_docs in E2 as (storage & Hs & ->).
  unfold add_defaults, defaultEnvCollector.
  destruct (EnvCollector_Collect LookupEnv default_env_name) as [defaults|] eqn:Ed; [|done].
  intros [= Hm <-]. rewrite <-merge_documents_snoc in Hm.
  exists ([env; file] ++ etcd ++ storage ++ [defaults]). split; [by econstructor|].
  rewrite !app_assoc. exact Hm.
Qed.

(** C4: A successful GetClusterConfig merged the documents of the environment,
    the file, etcd and the config storage (each read only when the
    configuration of environment and file names endpoints) and the default
    environment, in this order, and a setting is the one of the first source
    that has it, under the sole condition that no earlier source blocks the
    path. *)
Theorem GetClusterConfig_first_source path w cc w' :
  GetClusterConfig collectors path w = (Ok cc, w') ->
  exists docs, source_documents path w docs w' /\
    MakeClusterConfig (merge_documents docs) = Ok cc /\
    forall docs1 doc docs2 k p v,
      docs = docs1 ++ doc :: docs2 -> Forall (fun c => plain (paths c)) docs ->
      Forall (fun c => lookup_path (paths c) (k :: p) = VNil /\
                       open_path (paths c) (k :: p) = true) docs1 ->
      Get doc (k :: p) = Ok v -> as_map v = None ->
      Get (merge_documents docs) (k :: p) = Ok v.
Proof.
  intros Hg. apply GetClusterConfig_documents in Hg as (docs & Hd & Hm). exists docs.
  split; [done|]. split; [done|]. intros docs1 doc docs2 k p v -> Hpl. by apply merge_documents_first.
Qed.
End Sources.

(** ** Settings that an environment variable may override *)
Lemma env_steps_leaves LookupEnv formatter ps done_ c c' :
  for_each (env_step LookupEnv formatter) ps c = Ok c' ->
  leaves_at done_ (paths c) -> leaves_at (ps ++ done_) (paths c').
Proof.
  revert done_ c. induction ps as [|p ps IH]; intros done_ c; cbn [for_each]; [by intros [= <-]|].
  destruct (env_step LookupEnv formatter c p) as [c1|e] eqn:E; [|done]. cbn [rbind].
  intros Hf Hl. intros q Hq. assert (q ∈ ps ++ p :: done_) as Hin.
  { apply (IH (p :: done_) c1 Hf); [|done]. unfold env_step in E.
    destruct (LookupEnv (formatter p)) as [s|].
    - pose proof (Set_set_path c p (VStr s)) as Hs.
      replace (stored p (VStr s)) with (VStr s) in Hs by (by destruct p).
      destruct (set_path (paths c) p (VStr s)) as [t|] eqn:Et.
      + rewrite Hs in E. injection E as <-. by eapply leaves_at_set.
      + destruct Hs as (? & ? & _ & _ & _ & Hs). by rewrite Hs in E.
    - injection E as <-. intros r Hr. right. by apply Hl. }
  set_solver +Hin.
Qed.

Lemma open_path_prefixes v p :
  (forall q1 q2, p = q1 ++ q2 -> q2 <> [] -> blocks (lookup_path v q1) = false) ->
  open_path v p = true.
Proof.
  revert v. induction p as [|k p IH]; intros v Hp; [done|]. cbn [open_path].
  pose proof (Hp [] (k :: p) eq_refl ltac:(done)) as Hv. cbn [lookup_path] in Hv. rewrite Hv. cbn [negb andb]. apply IH. intros q1 q2 -> Hq.
  rewrite <-lookup_path_cons. by apply (Hp (k :: q1) q2).
Qed.

Lemma pairwise_diverge_elem ps p q :
  pairwise_diverge ps = true -> p ∈ ps -> q ∈ ps -> p = q \/ diverge p q = true.
Proof.
  induction ps as [|x ps IH]; [by intros _ ?%not_elem_of_nil|]. cbn [pairwise_diverge].
  intros [Hx Hps]%andb_prop. rewrite !elem_of_cons.
  assert (forall y, y ∈ ps -> diverge x y = true) as Hd.
  { intros y Hy%list_elem_of_In. exact (proj1 (forallb_forall _ _) Hx y Hy). }
  intros [->|Hp] [->|Hq]; [by left|right; by apply Hd| |by apply IH].
  right. rewrite diverge_sym. by apply Hd.
Qed.

Lemma env_unset LookupEnv formatter c p :
  EnvCollector_Collect LookupEnv formatter = Ok c -> p ∈ ConfigEnvPaths ->
  open_path (paths c) p = true.
Proof.
  intros Hc Hp. apply open_path_prefixes. intros q1 q2 -> Hq.
  destruct (blocks (lookup_path (paths c) q1)) eqn:E; [|done]. exfalso.
  assert (q1 ∈ ConfigEnvPaths ++ []) as Hin.
  { eapply env_steps_leaves; [exact Hc| |exact E]. intros q Hb. by rewrite lookup_path_VNil in Hb. }
  rewrite app_nil_r in Hin.
  destruct (pairwise_diverge_elem _ _ _ ConfigEnvPaths_diverge Hp Hin) as [Eq|Hd].
  - destruct q2 as [|k q2]; [done|]. assert (length (q1 ++ k :: q2) = length q1) as Hlen by (by rewrite Eq).
    rewrite length_app in Hlen. simpl in Hlen. lia.
  - by rewrite diverge_app_l in Hd.
Qed.

Section Instance_.
Context {W : Type} `{Yaml} `{!Services W} `{GoMapOrder}.

(** GetInstanceConfig reports an unknown instance; for a known one every
    path that an environment variable may set has the value of the variable
    when it is set, and otherwise the setting of the instantiated instance. *)
Theorem GetInstanceConfig_env_first cluster name :
  plain (paths (Instantiate cluster name)) ->
  (HasInstance cluster name = false /\
   GetInstanceConfig cluster name = Err (Errorf "an instance %q not found" [name])) \/
  (HasInstance cluster name = true /\ exists merged,
   GetInstanceConfig cluster name = MakeInstanceConfig merged /\
   forall k p, k :: p ∈ ConfigEnvPaths ->
     match LookupEnv (main_env_name (k :: p)) with
     | Some s => Get merged (k :: p) = Ok (VStr s)
     | None => forall v, Get (Instantiate cluster name) (k :: p) = Ok v -> as_map v = None ->
         Get merged (k :: p) = Ok v
     end).
Proof.
  intros Hpl. unfold GetInstanceConfig. destruct (HasInstance cluster name); [right|by left].
  split; [done|]. cbn [negb]. unfold mainEnvCollector.
  destruct (EnvCollector_collected LookupEnv main_env_name) as (env & Ee & Hv). rewrite Ee.
  exists (merge_documents [env; Instantiate cluster name]). split; [done|].
  intros k p Hp. specialize (Hv _ Hp). rewrite to_option_Get in Hv.
  pose proof (EnvCollector_plain _ _ _ Ee) as Hpe.
  destruct (LookupEnv (main_env_name (k :: p))) as [s|].
  - apply (merge_documents_first [] env [Instantiate cluster name]); [by repeat constructor|constructor| |done].
    apply Get_Ok. by destruct (lookup_path (paths env) (k :: p)); simplify_eq/=.
  - intros v Hg Ha. apply (merge_documents_first [env] _ []); [by repeat constructor| |done..].
    constructor; [|constructor]. split; [by destruct (lookup_path (paths env) (k :: p))|].
    by eapply env_unset.
Qed.
End Instance_.

(** ** Samples *)
Definition sample_env (name : string) : option string :=
  if decide (name = "TT_DATABASE_MODE") then Some "ro" else None.

Definition sample_services {W : Type} (env : string -> option string) : Services W := {|
  TLSBase := unit; CertPool := unit;
  ClientConfig _ _ _ := Err (Errorf "" []);
  NewCertPool := tt; AppendCertsFromPEM p _ := p;
  ReadDir _ := Ok []; Readlink _ _ := None; ReadFile _ := None;
  clientv3_New _ _ _ _ _ := Err (Errorf "" []); etcd_Close _ w := w;
  tarantool_Connect _ _ w := (Err (Errorf "" []), w); conn_Close _ w := w;
  UserHomeDir := Ok "/root"; LookupEnv := env
|}.

Lemma GetInstanceConfig_env_first_witness :
  exists merged,
    @GetInstanceConfig unit two_documents (sample_services sample_env) canonical_order
      sample_cluster "i1" = @MakeInstanceConfig two_documents merged /\
    Get merged ["database"; "mode"] = Ok (VStr "ro") /\
    Get merged ["app"; "cfg"] = Ok (VStr "r").
Proof.
  assert (plain (paths (Instantiate sample_cluster "i1"))) as Hpl by (vm_compute; tauto).
  destruct (@GetInstanceConfig_env_first unit two_documents (sample_services sample_env)
    canonical_order sample_cluster "i1" Hpl) as [[Hno _]|(_ & merged & Hm & Hall)].
  { vm_compute in Hno. discriminate Hno. }
  exists merged. split; [exact Hm|]. split.
  - refine (Hall "database" ["mode"] _). apply (bool_decide_unpack _). vm_compute. exact I.
  - refine (Hall "app" ["cfg"] _ (VStr "r") _ eq_refl).
    + apply (bool_decide_unpack _). vm_compute. exact I.
    + vm_compute. reflexivity.
Defined.

(** A file with one setting, no services and one default variable. *)
Definition sample_factory : CollectorFactory unit :=
  mkCollectorFactory
    (fun _ => Ok (mkCollector (fun w => (Ok sample_low_document, w))))
    (fun _ _ _ _ => Err (Errorf "no etcd" [])) (fun _ _ _ _ => Err (Errorf "no storage" [])).

Definition sample_defaults (name : string) : option string :=
  if decide (name = "TT_DATABASE_MODE_DEFAULT") then Some "ro" else None.

Definition sample_get : string -> unit -> result ClusterConfig * unit :=
  @GetClusterConfig unit two_documents (sample_services sample_defaults) sample_factory.

Lemma GetClusterConfig_first_source_witness :
  exists docs cc, @MakeClusterConfig two_documents (merge_documents docs) = Ok cc /\
    Get (merge_documents docs) ["app"; "file"] = Ok (VStr "b.lua").
Proof.
  assert (is_ok (sample_get "config.yaml" tt).1 = true) as Hok by (vm_compute; reflexivity).
  destruct (sample_get "config.yaml" tt) as [[cc|e] w'] eqn:E; [clear Hok|discriminate Hok].
  unfold sample_get in E. apply GetClusterConfig_first_source in E as (docs & Hd & Hm & Hfirst).
  exists docs, cc. split; [exact Hm|].
  destruct Hd as [env collector file cc0 etcd storage defaults w1 w2 w3 He Hf Hc Hcc Hetcd Hst Hdef].
  injection Hf as <-. injection Hc as <- <-.
  assert (cluster_etcd cc0 = zero_etcd /\ cluster_storage cc0 = zero_storage) as [Z1 Z2].
  { unfold MakeClusterConfig in Hcc. cbn [yaml_parse two_documents] in Hcc.
    destruct (decide (_ = "1")) in Hcc; unfold ClusterConfig_UnmarshalYAML in Hcc;
      cbn in Hcc; injection Hcc as <-; split; reflexivity. }
  rewrite Z1 in Hetcd. rewrite Z2 in Hst. destruct Hetcd as [-> ->]. destruct Hst as [-> ->].
  apply (Hfirst [env] sample_low_document [defaults]);
    [reflexivity| | |vm_compute; reflexivity|reflexivity].
  - apply Forall_cons_2; [exact (EnvCollector_plain _ _ _ He)|].
    apply Forall_cons_2; [vm_compute; tauto|]. apply Forall_cons_2; [|apply Forall_nil_2].
    exact (EnvCollector_plain _ _ _ Hdef).
  - apply Forall_cons_2; [|apply Forall_nil_2].
    assert (EnvCollector_Collect sample_defaults main_env_name = Ok NewConfig) as Henv
      by (vm_compute; reflexivity).
    change (EnvCollector_Collect sample_defaults main_env_name = Ok env) in He. rewrite Henv in He. injection He as <-. split; reflexivity.
Defined.
