(* ===== verification/Replicaset.v ===== *)
(** * Replicasets ([cli/replicaset])

    The data of a discovered topology ([replicaset.go], [instance.go] and the
    enumerations), what is computed from it, the cache of a discovery
    ([discovery.go]) and the evaluation of a function on instances ([eval.go],
    [common.go], [orchestrator.go]). *)
From S2P Require Import Prelude GoStrings Value.

(** ** Enumerations, with the text of their line comments *)
Inductive Failover :=
| FailoverUnknown | FailoverOff | FailoverManual | FailoverEventual
| FailoverElection | FailoverStateful | FailoverSupervised.
#[export] Instance Failover_eq_dec : EqDecision Failover.
Proof. solve_decision. Defined.

Definition Failover_String (f : Failover) : string :=
  match f with
  | FailoverUnknown => "unknown"
  | FailoverOff => "off"
  | FailoverManual => "manual"
  | FailoverEventual => "eventual"
  | FailoverElection => "election"
  | FailoverStateful => "stateful"
  | FailoverSupervised => "supervised"
  end.

Definition ParseFailover (str : string) : Failover :=
  let s := ToLower str in
  if decide (s = "off" \/ s = "disabled") then FailoverOff
  else if decide (s = "manual") then FailoverManual
  else if decide (s = "eventual") then FailoverEventual
  else if decide (s = "election" \/ s = "raft") then FailoverElection
  else if decide (s = "stateful") then FailoverStateful
  else if decide (s = "supervised") then FailoverSupervised
  else FailoverUnknown.

Inductive ElectionMode :=
| ElectionModeUnknown | ElectionModeOff | ElectionModeVoter | ElectionModeCandidate
| ElectionModeManual.
#[export] Instance ElectionMode_eq_dec : EqDecision ElectionMode.
Proof. solve_decision. Defined.

Definition ElectionMode_String (m : ElectionMode) : string :=
  match m with
  | ElectionModeUnknown => "unknown"
  | ElectionModeOff => "off"
  | ElectionModeVoter => "voter"
  | ElectionModeCandidate => "candidate"
  | ElectionModeManual => "manual"
  end.

Definition ParseElectionMode (str : string) : ElectionMode :=
  let s := ToLower str in
  if decide (s = "off") then ElectionModeOff
  else if decide (s = "voter") then ElectionModeVoter
  else if decide (s = "candidate") then ElectionModeCandidate
  else if decide (s = "manual") then ElectionModeManual
  else ElectionModeUnknown.

Inductive StateProvider :=
| StateProviderUnknown | StateProviderNone | StateProviderTarantool | StateProviderEtcd2.
#[export] Instance StateProvider_eq_dec : EqDecision StateProvider.
Proof. solve_decision. Defined.

Definition StateProvider_String (p : StateProvider) : string :=
  match p with
  | StateProviderUnknown => "unknown"
  | StateProviderNone => "none"
  | StateProviderTarantool => "tarantool"
  | StateProviderEtcd2 => "etcd2"
  end.

Definition ParseStateProvider (str : string) : StateProvider :=
  let s := ToLower str in
  if decide (s = "none") then StateProviderNone
  else if decide (s = "tarantool") then StateProviderTarantool
  else if decide (s = "etcd2") then StateProviderEtcd2
  else StateProviderUnknown.

Inductive Orchestrator :=
| OrchestratorUnknown | OrchestratorCentralizedConfig | OrchestratorCartridge
| OrchestratorCustom.
#[export] Instance Orchestrator_eq_dec : EqDecision Orchestrator.
Proof. solve_decision. Defined.

Definition Orchestrator_String (o : Orchestrator) : string :=
  match o with
  | OrchestratorUnknown => "unknown"
  | OrchestratorCentralizedConfig => "centralized config"
  | OrchestratorCartridge => "cartridge"
  | OrchestratorCustom => "custom"
  end.

Definition knownOrchestrators : list Orchestrator :=
  [OrchestratorCartridge; OrchestratorCentralizedConfig; OrchestratorCustom].

Definition ParseOrchestrator (str : string) : Orchestrator :=
  match filter (fun o => ToLower str = ToLower (Orchestrator_String o)) knownOrchestrators with
  | o :: _ => o
  | [] => OrchestratorUnknown
  end.

Inductive Master := MasterUnknown | MasterNo | MasterSingle | MasterMulti.
Inductive Mode := ModeUnknown | ModeRead | ModeRW.
Inductive State := StateUnknown | StateUninitialized | StateBootstrapped.
#[export] Instance Mode_eq_dec : EqDecision Mode.
Proof. solve_decision. Defined.
#[export] Instance State_eq_dec : EqDecision State.
Proof. solve_decision. Defined.

(** ** Topology

    [InstanceCtx] is the part of [running.InstanceCtx] that this package reads. *)
Record InstanceCtx := mkInstanceCtx {
  AppName : string;
  InstName : string;
  ConsoleSocket : string;
  ClusterConfigPath : string
}.
Definition zero_ctx : InstanceCtx := mkInstanceCtx "" "" "" "".

Record Instance_ := mkInst {
  Alias : string;
  UUID : string;
  URI : string;
  InstMode : Mode;
  InstCtx : InstanceCtx;
  InstanceCtxFound : bool
}.

Record Replicaset := mkReplicaset_ {
  rs_UUID : string;
  LeaderUUID : string;
  rs_Alias : string;
  Roles : list string;
  rs_Master : Master;
  rs_Failover : Failover;
  rs_StateProvider : StateProvider;
  rs_Instances : list Instance_
}.

Record Replicasets := mkReplicasets {
  rss_State : State;
  rss_Orchestrator : Orchestrator;
  rss_Replicasets : list Replicaset
}.

(** ** [recalculateMaster] *)
Definition count_mode (m : Mode) (instances : list Instance_) : nat :=
  length (filter (fun i => InstMode i = m) instances).

Definition master_of (instances : list Instance_) : Master :=
  let masters := count_mode ModeRW instances in
  let unknown := count_mode ModeUnknown instances in
  if decide (1 < masters) then MasterMulti
  else if decide (masters = 1) then
    if decide (unknown = 0) then MasterSingle else MasterUnknown
  else if decide (unknown = 0) then MasterNo
  else MasterUnknown.

Definition with_instances (r : Replicaset) (instances : list Instance_) : Replicaset :=
  mkReplicaset_ (rs_UUID r) (LeaderUUID r) (rs_Alias r) (Roles r) (rs_Master r) (rs_Failover r)
    (rs_StateProvider r) instances.

Definition recalculateMaster (r : Replicaset) : Replicaset :=
  mkReplicaset_ (rs_UUID r) (LeaderUUID r) (rs_Alias r) (Roles r) (master_of (rs_Instances r))
    (rs_Failover r) (rs_StateProvider r) (rs_Instances r).

Definition recalculateMasters (rs : Replicasets) : Replicasets :=
  mkReplicasets (rss_State rs) (rss_Orchestrator rs) (map recalculateMaster (rss_Replicasets rs)).

(** ** [findInstance] *)
Definition findInstance (rs : Replicasets) (predicate : Instance_ -> bool)
    : option (Replicaset * Instance_) :=
  head (r ← rss_Replicasets rs; i ← rs_Instances r; if predicate i then [(r, i)] else []).

Definition findInstanceByAlias (rs : Replicasets) (alias : string)
    : option (Replicaset * Instance_) :=
  findInstance rs (fun i => bool_decide (Alias i = alias)).

(** ** [cachedDiscoverer]

    [SkipCache] is [true].  [discovery] is the underlying type's method. *)
Record cachedDiscoverer := mkCached { cached : bool; replicasets : Replicasets }.

Definition Discovery {W} (discovery : W -> Replicasets * option error * W) (skip : bool)
    (c : cachedDiscoverer) (w : W) : (Replicasets * option error) * cachedDiscoverer * W :=
  if negb skip && cached c then ((replicasets c, None), c, w)
  else
    match discovery w with
    | (rs, Some err, w') => ((rs, Some err), mkCached false rs, w')
    | (rs, None, w') => ((rs, None), mkCached true rs, w')
    end.

(** ** [eval.go]

    [Evaler] evaluates an expression with arguments on a connection.  [Connect]
    opens the console socket of an instance; closing a connection is [Close]. *)
Definition Evaler (W : Type) := string -> list value -> W -> result (list value) * W.

Class Connector (W : Type) := {
  Connect : string -> W -> result (Evaler W) * W;
  Close : string -> W -> W
}.

Section Eval.
Context {W : Type} `{Connector W}.

(** [InstanceEvaler]: done, or an error.  The loop carries the state [S] that
    the closures of the callers keep. *)
Definition InstanceEvaler (S : Type) := InstanceCtx -> Evaler W -> S -> W -> result bool * S * W.

Fixpoint eval_loop {S} (instances : list InstanceCtx) (ievaler : InstanceEvaler S)
    (skipConnectError : bool) (connected : nat) (s : S) (w : W) : option error * S * W :=
  match instances with
  | [] =>
      if decide (connected = 0) then (Some (Errorf "failed to connect to any instance" []), s, w)
      else (None, s, w)
  | instance :: rest =>
      match Connect (ConsoleSocket instance) w with
      | (Err err, w1) =>
          if skipConnectError then eval_loop rest ievaler skipConnectError connected s w1
          else (Some (Wrapf "failed to connect to '%s:%s': %w"
                        [AppName instance; InstName instance] err), s, w1)
      | (Ok conn, w1) =>
          match ievaler instance conn s w1 with
          | (r, s', w2) =>
              let w3 := Close (ConsoleSocket instance) w2 in
              match r with
              | Err err => (Some err, s', w3)
              | Ok true => (None, s', w3)
              | Ok false => eval_loop rest ievaler skipConnectError (connected + 1) s' w3
              end
          end
      end
  end.

Definition evalForeach {S} (instances : list InstanceCtx) (ievaler : InstanceEvaler S)
    (skipConnectError : bool) (s : S) (w : W) : option error * S * W :=
  match instances with
  | [] => (Some (Errorf "no instances to connect" []), s, w)
  | _ => eval_loop instances ievaler skipConnectError 0 s w
  end.

Definition EvalForeach {S} (instances : list InstanceCtx) (ievaler : InstanceEvaler S) :=
  evalForeach instances ievaler false.

Definition EvalForeachAlive {S} (instances : list InstanceCtx) (ievaler : InstanceEvaler S) :=
  evalForeach instances ievaler true.

Definition EvalAny {S} (instances : list InstanceCtx) (ievaler : InstanceEvaler S) :=
  EvalForeachAlive instances (fun instance evaler s w =>
    match ievaler instance evaler s w with
    | (Err err, s', w') => (Err err, s', w')
    | (Ok _, s', w') => (Ok true, s', w')
    end).

(** [common.go] *)
Definition filterDiscovered (instances : list InstanceCtx) (discovered : Replicasets)
    : list InstanceCtx :=
  let discoveredMap : gmap string unit :=
    fold_left (fun m r => fold_left (fun m i => <[Alias i := tt]> m) (rs_Instances r) m)
      (rss_Replicasets discovered) ∅ in
  filter (fun instance => is_Some (discoveredMap !! InstName instance)) instances.

Definition EvalForeachAliveDiscovered {S} (instances : list InstanceCtx)
    (discovered : Replicasets) (ievaler : InstanceEvaler S) :=
  EvalForeachAlive (filterDiscovered instances discovered) ievaler.

(** [MakeInstanceEvalFunc] *)
Definition MakeInstanceEvalFunc (instance : InstanceCtx) : Evaler W :=
  fun expr args w =>
    match EvalForeach [instance] (fun _ evaler (resp : list value) w =>
            match evaler expr args w with
            | (Ok resp', w') => (Ok true, resp', w')
            | (Err err, w') => (Err err, resp, w')
            end) [] w with
    | (Some err, _, w') => (Err err, w')
    | (None, resp, w') => (Ok resp, w')
    end.

(** The Lua bodies embedded in the program. *)
Variables waitRWBody waitROBody getOrchestratorBody : string.

Definition waitRW (eval : Evaler W) (timeout : Z) (w : W) : option error * W :=
  match eval waitRWBody [VInt timeout] w with
  | (Err err, w') => (Some (Wrapf "failed to wait rw: %w" [] err), w')
  | (Ok _, w') => (None, w')
  end.

Definition waitRO (eval : Evaler W) (timeout : Z) (w : W) : option error * W :=
  match eval waitROBody [VInt timeout] w with
  | (Err err, w') => (Some (Wrapf "failed to wait ro: %w" [] err), w')
  | (Ok _, w') => (None, w')
  end.

(** [EvalOrchestrator]; [err_text] is the text of an error. *)
Definition EvalOrchestrator (err_text : error -> string) (eval : Evaler W) (w : W)
    : Orchestrator * option error * W :=
  match eval getOrchestratorBody [] w with
  | (Err err, w') =>
      (OrchestratorCustom, Some (Errorf "failed to recognize orchestrator: %s" [err_text err]), w')
  | (Ok [VStr str], w') =>
      let parsed := ParseOrchestrator str in
      if decide (parsed = OrchestratorUnknown)
      then (parsed, Some (Errorf "unknown orchestrator: %s" [str]), w')
      else (parsed, None, w')
  | (Ok _, w') => (OrchestratorCustom, Some (Errorf "unexpected response" []), w')
  end.
End Eval.
