(* ===== verification/CConfigSource.v ===== *)
(** * Patching a cluster configuration ([cli/replicaset/configsource.go])

    Promotion, demotion, expulsion and the addition of roles by editing one of
    the documents that make up the cluster configuration, with the helpers of
    [cconfig.go] and [roles.go] they use. *)
From S2P Require Import Prelude GoStrings Value Config Cluster Sources Validators Replicaset.

(** ** Instances of the cluster configuration ([cconfig.go]) *)
Record cconfigInstance := mkCConfigInstance {
  ci_failover : Failover;
  ci_groupName : string;
  ci_replicasetName : string;
  ci_name : string
}.

Section Instances.
Context `{GoMapOrder}.

Definition cconfigGetFailover (clusterConfig : ClusterConfig) (instName : string)
    : result Failover :=
  match Get (Instantiate clusterConfig instName) ["replication"; "failover"] with
  | Err e =>
      if is_not_exist e then Ok FailoverOff
      else Err (Wrapf "failed to get failover: %w" [] e)
  | Ok (VStr failoverStr) => Ok (ParseFailover failoverStr)
  | Ok rawFailover =>
      Err (Errorf "unexpected failover type: %T, string expected" [TypeOf rawFailover])
  end.

Definition cconfigGetElectionMode (clusterConfig : ClusterConfig) (instName : string)
    : result ElectionMode :=
  match Get (Instantiate clusterConfig instName) ["replication"; "election_mode"] with
  | Err e =>
      if is_not_exist e then Ok ElectionModeCandidate
      else Err (Wrapf "failed to get election_mode: %w" [] e)
  | Ok (VStr electionModeStr) => Ok (ParseElectionMode electionModeStr)
  | Ok rawElectionMode =>
      Err (Errorf "unexpected election_mode type: %T, string expected" [TypeOf rawElectionMode])
  end.

Definition getCConfigInstance (config : ClusterConfig) (instName : string)
    : result cconfigInstance :=
  match first_place config instName with
  | None => Err (Errorf "instance %q not found in the cluster configuration" [instName])
  | Some p =>
      rmap (fun failover =>
        mkCConfigInstance failover (fst (place_group p)) (fst (place_replicaset p)) instName)
        (cconfigGetFailover config instName)
  end.
End Instances.

(** ** Patches of one document ([cconfig.go])

    The functions change the document in place and return it; with an error it
    is not used. *)
Definition instance_path (inst : cconfigInstance) : list string :=
  ["groups"; ci_groupName inst; "replicasets"; ci_replicasetName inst; "instances"; ci_name inst].

Definition set_or_error (config : Config) (path : list string) (v : value) : result Config :=
  match Set_ config path v with
  | (_, Some err) => Err err
  | (config', None) => Ok config'
  end.

Definition patchCConfigPromote (config : Config) (inst : cconfigInstance) : result Config :=
  match ci_failover inst with
  | FailoverOff =>
      set_or_error config (instance_path inst ++ ["database"; "mode"]) (VStr "rw")
  | FailoverManual =>
      set_or_error config
        ["groups"; ci_groupName inst; "replicasets"; ci_replicasetName inst; "leader"]
        (VStr (ci_name inst))
  | failover => Err (Errorf "unexpected failover: %q" [Failover_String failover])
  end.

Definition patchCConfigExpel (config : Config) (inst : cconfigInstance) : result Config :=
  set_or_error config (instance_path inst ++ ["iproto"; "listen"]) (VMap ∅).

Definition patchCConfigDemote (config : Config) (inst : cconfigInstance) : result Config :=
  if decide (ci_failover inst <> FailoverOff) then
    Err (Errorf "unexpected failover: %q" [Failover_String (ci_failover inst)])
  else set_or_error config (instance_path inst ++ ["database"; "mode"]) (VStr "ro").

Definition patchCConfigElectionMode (config : Config) (inst : cconfigInstance)
    (mode : ElectionMode) : result Config :=
  set_or_error config (instance_path inst ++ ["replication"; "election_mode"])
    (VStr (ElectionMode_String mode)).

Definition patchCConfigAddRole (config : Config) (path : list string) (roleNames : list string)
    : result Config :=
  set_or_error config path (VStrSlice roleNames).

(** ** Paths to patch, with the depth from which a document counts *)
Definition quoted (s : string) : string :=
  String (ascii_of_nat 34) s +:+ String (ascii_of_nat 34) "".

Definition getCConfigPromotePath (inst : cconfigInstance) : result (list string * nat) :=
  match ci_failover inst with
  | FailoverOff =>
      let path := instance_path inst ++ ["database"; "mode"] in Ok (path, length path - 2)
  | FailoverManual =>
      let path := ["groups"; ci_groupName inst; "replicasets"; ci_replicasetName inst; "leader"] in
      Ok (path, length path - 1)
  | FailoverElection =>
      Err (Errorf ("unsupported failover: %q, supported: " +:+ quoted "manual" +:+ ", " +:+ quoted "off")
             [Failover_String FailoverElection])
  | _ => Err (Errorf ("unknown failover, supported: " +:+ quoted "manual" +:+ ", " +:+ quoted "off") [])
  end.

Definition getCConfigDemotePath (inst : cconfigInstance) : result (list string * nat) :=
  match ci_failover inst with
  | FailoverOff =>
      let path := instance_path inst ++ ["database"; "mode"] in Ok (path, length path - 2)
  | FailoverManual | FailoverElection =>
      Err (Errorf ("unsupported failover: %q, supported: " +:+ quoted "off")
             [Failover_String (ci_failover inst)])
  | _ => Err (Errorf ("unknown failover, supported: " +:+ quoted "off") [])
  end.

Definition getCConfigExpelPath (inst : cconfigInstance) : result (list string * nat) :=
  let path := instance_path inst ++ ["iproto"; "listen"] in Ok (path, length path - 2).

(** ** Roles ([roles.go]) *)
Record RolesAddCtx := mkRolesAddCtx {
  ra_InstName : string;
  ra_GroupName : string;
  ra_ReplicasetName : string;
  ra_IsGlobal : bool;
  ra_RoleName : string;
  ra_Force : bool
}.

Fixpoint role_strings `{GoText} (l : list value) : result (list string) :=
  match l with
  | [] => Ok []
  | VStr s :: l' => rmap (cons s) (role_strings l')
  | v :: _ => Err (Errorf "%v is not a string" [Sprint v])
  end.

Definition parseRoles `{GoText} (v : value) : result (list string) :=
  match v with
  | VSlice l => role_strings l
  | _ => Err (Errorf "%v is not a slice" [Sprint v])
  end.

Record scope_path := mkScopePath { sp_path : list string; sp_depth : nat }.

Definition group_role_path `{GoMapOrder} (cc : ClusterConfig) (ctx : RolesAddCtx)
    : result (list scope_path) :=
  if decide (ra_GroupName ctx = "") then Ok []
  else
    let p := ["groups"; ra_GroupName ctx] in
    match Get (raw_or_panic (cluster_raw cc)) p with
    | Err e =>
        if is_not_exist e then Err (Errorf "cannot find group %q" [ra_GroupName ctx])
        else Err (Wrapf "failed to build a group path: %w" [] e)
    | Ok _ => Ok [mkScopePath (p ++ ["roles"]) (length p)]
    end.

Definition replicaset_role_path `{GoMapOrder} (cc : ClusterConfig) (ctx : RolesAddCtx)
    : result (list scope_path) :=
  if decide (ra_ReplicasetName ctx = "") then Ok []
  else
    match FindGroupByReplicaset cc (ra_ReplicasetName ctx) with
    | None => Err (Errorf "cannot find replicaset %q above group" [ra_ReplicasetName ctx])
    | Some group =>
        let p := ["groups"; group; "replicasets"; ra_ReplicasetName ctx] in
        Ok [mkScopePath (p ++ ["roles"]) (length p)]
    end.

Definition instance_role_path `{GoMapOrder} (cc : ClusterConfig) (ctx : RolesAddCtx)
    : result (list scope_path) :=
  if decide (ra_InstName ctx = "") then Ok []
  else
    match FindInstance cc (ra_InstName ctx) with
    | None =>
        Err (Errorf "cannot find instance %q above group and/or replicaset" [ra_InstName ctx])
    | Some (group, replicaset) =>
        let p := ["groups"; group; "replicasets"; replicaset; "instances"; ra_InstName ctx] in
        Ok [mkScopePath (p ++ ["roles"]) (length p)]
    end.

Definition getCConfigRolesPath `{GoMapOrder} (cc : ClusterConfig) (ctx : RolesAddCtx)
    : result (list scope_path) :=
  (global <-? Ok (if ra_IsGlobal ctx then [mkScopePath ["roles"] 0] else []) ;;
   group <-? group_role_path cc ctx ;;
   replicaset <-? replicaset_role_path cc ctx ;;
   instance <-? instance_role_path cc ctx ;;
   Ok (global ++ group ++ replicaset ++ instance))%go.

(** ** Patch targets *)
Record patchTarget := mkPatchTarget {
  pt_key : string;
  pt_revision : Z;
  pt_config : Config;
  pt_priority : nat
}.

Definition greater (target oth : patchTarget) : bool :=
  if decide (pt_priority target <> pt_priority oth)
  then bool_decide (pt_priority oth < pt_priority target)
  else String.ltb (pt_key target) (pt_key oth).

(** The loop [for i := len(path); i >= lowerDepth; i--]; [None] is [noDepth].
    [n] is the number of iterations left after this one. *)
Fixpoint path_depth_loop (config : Config) (path : list string) (lowerDepth : nat) (n : nat)
    : result (option nat) :=
  let i := lowerDepth + n in
  match Get config (take i path) with
  | Ok _ => Ok (Some i)
  | Err e =>
      if is_not_exist e then
        match n with
        | O => Ok None
        | S n' => path_depth_loop config path lowerDepth n'
        end
      else Err e
  end.

Definition getCConfigPathDepth (config : Config) (path : list string) (lowerDepth : nat)
    : result (option nat) :=
  if decide (length path < lowerDepth) then Ok None
  else path_depth_loop config path lowerDepth (length path - lowerDepth).

Section Source.
Context `{Yaml} `{GoMapOrder} `{GoSort} `{GoText}.

Definition patch_target (path : list string) (depth : nat) (targets : list patchTarget)
    (item : Data) : result (list patchTarget) :=
  match YamlCollector_Collect (Value item) with
  | Err e => Err (Wrapf "failed to decode the config by the key %q: %w" [Source item] e)
  | Ok config =>
      match getCConfigPathDepth config path depth with
      | Err e => Err e
      | Ok None => Ok targets
      | Ok (Some d) =>
          Ok (targets ++ [mkPatchTarget (Source item) (Revision item) config d])
      end
  end.

Definition getCConfigPatchTargets (data : list Data) (path : list string) (depth : nat)
    : result (list patchTarget) :=
  rmap (sort_slice greater) (for_each (patch_target path depth) data []).

Context {W : Type}.

(** [KeyPicker] chooses among keys; [DataPublisher] publishes under a key. *)
Definition KeyPicker := list string -> bool -> string -> W -> result nat * W.
Definition KeyPublisher := string -> Z -> string -> W -> option error * W.

Record CConfigSource := mkCConfigSource {
  cs_collector : DataCollector W;
  cs_publisher : KeyPublisher;
  cs_keyPicker : KeyPicker
}.

(** [targets[dstIndex]] of an index that is out of range is a panic. *)
Definition index_panic : error := Errorf "panic: index out of range" [].

Definition collectCConfig (collector : DataCollector W) (w : W)
    : result (list Data * ClusterConfig) * W :=
  match collect_data collector w with
  | (Err e, w') => (Err (Wrapf "failed to collect cluster config: %w" [] e), w')
  | (Ok configData, w') =>
      (match YamlDataMergeCollector_Collect configData with
       | Err e => Err e
       | Ok merged =>
           match MakeClusterConfig merged with
           | Err e => Err (Wrapf "failed to make cluster config: %w" [] e)
           | Ok clusterConfig => Ok (configData, clusterConfig)
           end
       end, w')
  end.

Definition pickTarget (c : CConfigSource) (targets : list patchTarget) (force : bool)
    (pathMsg : string) (w : W) : result patchTarget * W :=
  match cs_keyPicker c (map pt_key targets) force pathMsg w with
  | (Err e, w') => (Err e, w')
  | (Ok dstIndex, w') =>
      (match targets !! dstIndex with Some t => Ok t | None => Err index_panic end, w')
  end.

Definition publish_patched (c : CConfigSource) (target : patchTarget) (patched : Config) (w : W)
    : option error * W :=
  match cs_publisher c (pt_key target) (pt_revision target)
          (Config_String yaml_encode patched) w with
  | (Some err, w') => (Some (Wrapf "failed to publish the config: %w" [] err), w')
  | (None, w') => (None, w')
  end.

(** Until the target is picked nothing but reading happens. *)
Definition plan_instance_patch (instanceName : string)
    (getPathFunc : cconfigInstance -> result (list string * nat))
    (data : list Data) (cc : ClusterConfig)
    : result (cconfigInstance * list string * list patchTarget) :=
  (inst <-? getCConfigInstance cc instanceName ;;
   pd <-? getPathFunc inst ;;
   targets <-? getCConfigPatchTargets data pd.1 pd.2 ;;
   Ok (inst, pd.1, targets))%go.

Definition patchInstanceConfig (c : CConfigSource) (instanceName : string) (force : bool)
    (getPathFunc : cconfigInstance -> result (list string * nat))
    (patchFunc : Config -> cconfigInstance -> result Config) (w : W) : option error * W :=
  match collectCConfig (cs_collector c) w with
  | (Err e, w1) => (Some e, w1)
  | (Ok (configData, clusterConfig), w1) =>
      match plan_instance_patch instanceName getPathFunc configData clusterConfig with
      | Err e => (Some e, w1)
      | Ok (inst, path, targets) =>
          match pickTarget c targets force (Join path "/") w1 with
          | (Err e, w2) => (Some e, w2)
          | (Ok target, w2) =>
              match patchFunc (pt_config target) inst with
              | Err e => (Some e, w2)
              | Ok patched => publish_patched c target patched w2
              end
          end
      end
  end.

(** [ctx] of [Promote], [Demote] and [Expel]. *)
Record InstanceOpCtx := mkInstanceOpCtx { op_InstName : string; op_Force : bool; op_Timeout : Z }.

Definition Promote (c : CConfigSource) (ctx : InstanceOpCtx) : W -> option error * W :=
  patchInstanceConfig c (op_InstName ctx) (op_Force ctx) getCConfigPromotePath
    patchCConfigPromote.

Definition Demote (c : CConfigSource) (ctx : InstanceOpCtx) : W -> option error * W :=
  patchInstanceConfig c (op_InstName ctx) (op_Force ctx) getCConfigDemotePath patchCConfigDemote.

Definition Expel (c : CConfigSource) (ctx : InstanceOpCtx) : W -> option error * W :=
  patchInstanceConfig c (op_InstName ctx) (op_Force ctx) getCConfigExpelPath patchCConfigExpel.

(** *** Roles

    The roles that a path has in the merged configuration, with the new one. *)
Definition roles_with (cc : ClusterConfig) (ctx : RolesAddCtx) (p : list string)
    : result (list string) :=
  let existing :=
    match Get (raw_or_panic (cluster_raw cc)) p with
    | Err e => if is_not_exist e then Ok [] else Err e
    | Ok v => parseRoles v
    end in
  match existing with
  | Err e => Err e
  | Ok roles =>
      if decide (ra_RoleName ctx ∈ roles) then
        Err (Errorf "role %q already exists in %s" [ra_RoleName ctx; Join p "/"])
      else Ok (roles ++ [ra_RoleName ctx])
  end.

(** One iteration: the last target and the document patched so far. *)
Definition role_step (c : CConfigSource) (ctx : RolesAddCtx)
    (patchFunc : Config -> list string -> list string -> result Config)
    (configData : list Data) (cc : ClusterConfig)
    (s : option (patchTarget * Config)) (p : scope_path) (w : W)
    : result (option (patchTarget * Config)) * W :=
  match roles_with cc ctx (sp_path p) with
  | Err e => (Err e, w)
  | Ok roles =>
      match getCConfigPatchTargets configData (sp_path p) (sp_depth p) with
      | Err e => (Err e, w)
      | Ok targets =>
          match pickTarget c targets (ra_Force ctx) (Join (sp_path p) "/") w with
          | (Err e, w') => (Err e, w')
          | (Ok target, w') =>
              match patchFunc (pt_config target) (sp_path p) roles with
              | Err e => (Err e, w')
              | Ok curPatched =>
                  (Ok (Some (target,
                     match s with
                     | Some (_, patched) => Merge patched curPatched
                     | None => curPatched
                     end)), w')
              end
          end
      end
  end.

Fixpoint role_loop (c : CConfigSource) (ctx : RolesAddCtx)
    (patchFunc : Config -> list string -> list string -> result Config)
    (configData : list Data) (cc : ClusterConfig)
    (s : option (patchTarget * Config)) (ps : list scope_path) (w : W)
    : result (option (patchTarget * Config)) * W :=
  match ps with
  | [] => (Ok s, w)
  | p :: ps' =>
      match role_step c ctx patchFunc configData cc s p w with
      | (Err e, w') => (Err e, w')
      | (Ok s', w') => role_loop c ctx patchFunc configData cc s' ps' w'
      end
  end.

(** Without any path [patched] is a nil pointer, and [patched.String()] panics. *)
Definition nil_panic : error := Errorf "panic: nil pointer dereference" [].

Definition patchConfigWithRoles (c : CConfigSource) (ctx : RolesAddCtx)
    (getPathFunc : ClusterConfig -> RolesAddCtx -> result (list scope_path))
    (patchFunc : Config -> list string -> list string -> result Config) (w : W)
    : option error * W :=
  match collectCConfig (cs_collector c) w with
  | (Err e, w1) => (Some e, w1)
  | (Ok (configData, clusterConfig), w1) =>
      match getPathFunc clusterConfig ctx with
      | Err e => (Some e, w1)
      | Ok paths =>
          match role_loop c ctx patchFunc configData clusterConfig None paths w1 with
          | (Err e, w2) => (Some e, w2)
          | (Ok None, w2) => (Some nil_panic, w2)
          | (Ok (Some (target, patched)), w2) => publish_patched c target patched w2
          end
      end
  end.

Definition AddRole (c : CConfigSource) (ctx : RolesAddCtx) : W -> option error * W :=
  patchConfigWithRoles c ctx getCConfigRolesPath patchCConfigAddRole.
End Source.

(** ** [pickPatchKey] ([cli/cluster/cmd/replicaset.go])

    [prompt] is the interactive selection among the keys. *)
Definition pickPatchKey {W} (prompt : list string -> W -> result nat * W) : KeyPicker :=
  fun keys force _ w =>
    match keys with
    | [] => (Err (Errorf "no keys for the config patching" []), w)
    | _ =>
        if negb force && bool_decide (length keys <> 1) then prompt keys w
        else (Ok 0, w)
    end.
