(* ===== verification/CConfigProps.v ===== *)
(** * What patching a cluster configuration guarantees *)
From S2P Require Import Prelude GoStrings Value Config ConfigFacts Cluster.
From S2P Require Import ClusterProps Sources Validators Replicaset CConfigSource.

(** ** Missing and blocked paths *)
Lemma getMap_at_open v d p k :
  match getMap_at v d p with
  | Ok _ => open_path v (p ++ [k]) = true
  | Err e => is_not_exist e = true -> open_path v (p ++ [k]) = true
  end.
Proof.
  revert v d. induction p as [|k' p IH]; intros v d; simpl; destruct v as [| | | | | | | | |m| |]; try done.
  simpl. unfold index. destruct (m !! KStr k') as [x|] eqn:E; simpl; [apply IH|].
  intros _. clear. induction p; simpl; [done|]. done.
Qed.

Lemma Get_open c p :
  match Get c p with
  | Ok _ => True
  | Err e => is_not_exist e = true
  end -> open_path (paths c) p = true.
Proof.
  pose proof (Get_lookup c p) as Hl. destruct (Get c p) as [v|e] eqn:E.
  { destruct Hl as [Hl Hn]. intros _. apply lookup_open. by rewrite Hl. }
  intros He. clear Hl. destruct p as [|k p _] using rev_ind; [done|].
  rewrite Get_snoc in E. unfold getMap in E.
  pose proof (getMap_at_open (paths c) [] p k) as Ho.
  destruct (getMap_at (paths c) [] p); [done|]. injection E as ->. by apply Ho.
Qed.

Lemma Get_present c p : lookup_path (paths c) p <> VNil -> is_ok (Get c p) = true.
Proof.
  intros Hn. destruct (is_ok (Get c p)) eqn:E; [done|]. by apply Get_Err in E.
Qed.

(** ** The depth of a path in a document *)
Lemma path_depth_loop_spec c path lo n r :
  path_depth_loop c path lo n = Ok r ->
  (forall i, r = Some i -> lo <= i <= lo + n /\ is_ok (Get c (take i path)) = true) /\
  (forall j, lo <= j <= lo + n -> (forall i, r = Some i -> i < j) ->
     lookup_path (paths c) (take j path) = VNil) /\
  open_path (paths c) (take (lo + n) path) = true.
Proof.
  revert r. induction n as [|n IH]; intros r; cbn [path_depth_loop].
  - pose proof (Get_open c (take (lo + 0) path)) as Ho.
    pose proof (Get_lookup c (take (lo + 0) path)) as Hl.
    destruct (Get c (take (lo + 0) path)) as [v|e] eqn:E.
    + intros [= <-]. split; [|split; [|by apply Ho]].
      * intros i [= <-]. rewrite E. split; [lia|done].
      * intros j Hj Hlt. specialize (Hlt _ eq_refl). lia.
    + destruct (is_not_exist e); [|done]. intros [= <-]. split; [done|]. split; [|by apply Ho].
      intros j Hj _. replace j with (lo + 0) by lia. done.
  - pose proof (Get_open c (take (lo + S n) path)) as Ho.
    pose proof (Get_lookup c (take (lo + S n) path)) as Hl.
    destruct (Get c (take (lo + S n) path)) as [v|e] eqn:E.
    + intros [= <-]. split; [|split; [|by apply Ho]].
      * intros i [= <-]. rewrite E. split; [lia|done].
      * intros j Hj Hlt. specialize (Hlt _ eq_refl). lia.
    + destruct (is_not_exist e); [|done]. intros (H1 & H2 & _)%IH.
      split; [|split; [|by apply Ho]].
      * intros i Hi. destruct (H1 i Hi). split; [lia|done].
      * intros j Hj Hlt. destruct (decide (j = lo + S n)) as [->|]; [done|].
        apply H2; [lia|done].
Qed.

Lemma path_depth_bound c path lo i :
  lo <= length path -> getCConfigPathDepth c path lo = Ok (Some i) -> i <= length path.
Proof.
  intros Hlo. unfold getCConfigPathDepth. rewrite decide_False by lia.
  intros (H1 & _)%path_depth_loop_spec. destruct (H1 i eq_refl). lia.
Qed.

Lemma path_depth_full c path lo :
  lo <= length path -> is_ok (Get c path) = true ->
  getCConfigPathDepth c path lo = Ok (Some (length path)).
Proof.
  intros Hlo Hok. unfold getCConfigPathDepth. rewrite decide_False by lia.
  destruct (length path - lo) as [|n] eqn:En; cbn [path_depth_loop]; rewrite <-En;
    replace (lo + (length path - lo)) with (length path) by lia;
    rewrite take_ge by lia; by destruct (Get c path).
Qed.

(** getCConfigPathDepth returns the length of the longest prefix of the
    path, not shorter than the lower bound, that the document has, and none
    when no such prefix exists; it succeeds only when no value of the document
    blocks the path. *)
Theorem path_depth_longest c path lo r :
  lo <= length path -> getCConfigPathDepth c path lo = Ok r ->
  (forall i, r = Some i -> lo <= i <= length path /\ is_ok (Get c (take i path)) = true) /\
  (forall j, lo <= j <= length path -> (forall i, r = Some i -> i < j) ->
     is_ok (Get c (take j path)) = false) /\
  open_path (paths c) path = true.
Proof.
  intros Hlo. unfold getCConfigPathDepth. rewrite decide_False by lia.
  intros (H1 & H2 & H3)%path_depth_loop_spec.
  replace (lo + (length path - lo)) with (length path) in * by lia.
  rewrite take_ge in H3 by lia. split; [done|]. split; [|done].
  intros j Hj Hlt. apply Get_Err. by apply H2.
Qed.

(** An empty document makes the search fail: its root is not a map. *)
Lemma path_depth_empty_document k path lo :
  lo <= length (k :: path) ->
  getCConfigPathDepth NewConfig (k :: path) lo = Err (Errorf fmtPathNotMap []).
Proof.
  intros Hlo. unfold getCConfigPathDepth. rewrite decide_False by lia.
  assert (exists k' p', take (lo + (length (k :: path) - lo)) (k :: path) = p' ++ [k'])
    as (k' & p' & E).
  { rewrite take_ge by lia. destruct path as [|x l _] using rev_ind; [by exists k, []|].
    exists x, (k :: l). done. }
  destruct (length (k :: path) - lo); cbn [path_depth_loop]; rewrite E, Get_snoc; by destruct p'.
Qed.

(** ** The order of targets *)
#[export] Instance greater_order : StrictWeakOrder greater.
Proof.
  unfold greater. split.
  - intros x. rewrite decide_False by (intros Hne; by apply Hne). apply string_ltb_irrefl.
  - intros x y z. repeat case_decide; rewrite ?bool_decide_eq_true; try lia.
    apply string_ltb_trans.
  - intros x y z. repeat case_decide; rewrite ?bool_decide_eq_false; try lia.
    intros Hxy Hyz. destruct (String.ltb (pt_key x) (pt_key z)) eqn:Hxz; [|done].
    destruct (String.ltb (pt_key y) (pt_key x)) eqn:Hyx.
    + by rewrite (string_ltb_trans _ _ _ Hyx Hxz) in Hyz.
    + by rewrite (string_ltb_total _ _ Hxy Hyx), Hyz in Hxz.
Qed.

Section Targets.
Context `{Yaml} `{GoSort}.

Definition target_of (path : list string) (depth : nat) (dc : Data * Config) : option patchTarget :=
  match getCConfigPathDepth dc.2 path depth with
  | Ok (Some i) => Some (mkPatchTarget (Source dc.1) (Revision dc.1) dc.2 i)
  | _ => None
  end.

Lemma patch_target_steps path depth data acc ts cs :
  Forall2 decodes data cs ->
  for_each (patch_target path depth) data acc = Ok ts ->
  Forall (fun c => is_ok (getCConfigPathDepth c path depth) = true) cs /\
  ts = acc ++ omap (target_of path depth) (zip data cs).
Proof.
  intros Hd. revert acc. induction Hd as [|d c data cs Hdc Hd IH]; intros acc.
  { intros [= ->]. split; [constructor|]. by rewrite app_nil_r. }
  cbn [for_each]. unfold patch_target at 2. unfold decodes in Hdc. rewrite Hdc.
  cbn [zip zip_with omap list_omap]. unfold target_of at 1. cbn [fst snd].
  destruct (getCConfigPathDepth c path depth) as [[i|]|e] eqn:E; cbn [rbind]; [| |done].
  - intros [Hok ->]%IH. split; [by constructor; [rewrite E|]|]. by rewrite <-app_assoc.
  - intros [Hok ->]%IH. split; [by constructor; [rewrite E|]|]. done.
Qed.

Lemma patch_targets_spec path depth data ts cs :
  Forall2 decodes data cs -> getCConfigPatchTargets data path depth = Ok ts ->
  Forall (fun c => is_ok (getCConfigPathDepth c path depth) = true) cs /\
  ts ≡ₚ omap (target_of path depth) (zip data cs) /\ sorted_by greater ts.
Proof.
  intros Hd. unfold getCConfigPatchTargets.
  destruct (for_each _ _ _) as [ts'|] eqn:E; [|done]. intros [= <-].
  destruct (patch_target_steps _ _ _ _ _ _ Hd E) as [Hok ->]. split; [done|].
  split; [by rewrite sort_slice_perm|]. apply sort_slice_sorted, _.
Qed.

Lemma patch_targets_decode path depth data ts :
  getCConfigPatchTargets data path depth = Ok ts -> exists cs, Forall2 decodes data cs.
Proof.
  unfold getCConfigPatchTargets. destruct (for_each _ data []) as [ts'|] eqn:E; [|done]. intros _.
  revert E. generalize ([] : list patchTarget) as acc. induction data as [|d data IH]; intros acc.
  { intros _. exists []. constructor. }
  cbn [for_each]. unfold patch_target at 2.
  destruct (YamlCollector_Collect (Value d)) as [c|] eqn:Ed; [|done].
  destruct (getCConfigPathDepth c path depth) as [[i|]|]; cbn [rbind]; try done;
    intros [cs Hcs]%IH; exists (c :: cs); by constructor.
Qed.

(** The document of a target is one of the decoded documents, with its key and revision. *)
Lemma target_document path depth data ts t :
  getCConfigPatchTargets data path depth = Ok ts -> t ∈ ts ->
  exists d, d ∈ data /\ decodes d (pt_config t) /\ pt_key t = Source d /\ pt_revision t = Revision d.
Proof.
  intros Ht Hin. destruct (patch_targets_decode _ _ _ _ Ht) as [cs Hcs].
  destruct (patch_targets_spec _ _ _ _ _ Hcs Ht) as (_ & Hperm & _). rewrite Hperm in Hin.
  apply list_elem_of_omap in Hin as ([d c] & Hz & Et). unfold target_of in Et. cbn [fst snd] in Et.
  destruct (getCConfigPathDepth c path depth) as [[i|]|]; simplify_eq. cbn [pt_config].
  apply elem_of_lookup_zip_with in Hz as (i' & d' & c' & [= <- <-] & Hd & Hc).
  exists d. split; [by eapply list_elem_of_lookup_2|]. split; [by eapply Forall2_lookup_lr|done].
Qed.

(** The first target is greater than none of the others. *)
Lemma first_target_best path depth data cs t ts d c :
  Forall2 decodes data cs -> getCConfigPatchTargets data path depth = Ok (t :: ts) ->
  (d, c) ∈ zip data cs -> depth <= length path ->
  String.ltb (Source d) (pt_key t) = true -> lookup_path (paths c) path = VNil.
Proof.
  intros Hd Ht Hin Hdep Hlt.
  destruct (patch_targets_spec _ _ _ _ _ Hd Ht) as (Hok & Hperm & Hsort).
  destruct (is_ok (Get c path)) eqn:Eok; [exfalso|by apply Get_Err].
  assert (mkPatchTarget (Source d) (Revision d) c (length path) ∈ t :: ts) as Hm.
  { rewrite Hperm. apply list_elem_of_omap. exists (d, c). split; [done|].
    unfold target_of. cbn [fst snd]. by rewrite path_depth_full. }
  apply elem_of_cons in Hm as [<-|Hm]; [cbn in Hlt; by rewrite string_ltb_irrefl in Hlt|].
  assert (pt_priority t <= length path) as Hpr.
  { assert (t ∈ t :: ts) as Hself by left. rewrite Hperm in Hself.
    apply list_elem_of_omap in Hself as ([d' c'] & _ & Et). unfold target_of in Et.
    cbn [fst snd] in Et. destruct (getCConfigPathDepth c' path depth) as [[i|]|] eqn:Ei; simplify_eq.
    by eapply path_depth_bound. }
  apply StronglySorted_cons in Hsort as [Hall _].
  pose proof (proj1 (Forall_forall _ _) Hall _ Hm) as Hg. unfold greater in Hg.
  cbn [pt_priority pt_key] in Hg. case_decide; [apply bool_decide_eq_false in Hg; lia|congruence].
Qed.
End Targets.

(** ** A patch takes effect *)
Lemma set_or_error_spec c path v c' :
  (forall q, v <> VConfig q) -> set_or_error c path v = Ok c' ->
  set_path (paths c) path v = Some (paths c').
Proof.
  intros Hv. unfold set_or_error. pose proof (Set_set_path c path v) as Hs.
  replace (stored path v) with v in Hs by (destruct path, v; naive_solver).
  destruct (set_path (paths c) path v) as [t|].
  - rewrite Hs. by intros [= <-].
  - destruct Hs as (? & ? & _ & _ & _ & ->). done.
Qed.

(** The document of a key replaced. *)
Definition replace_document (key : string) (c' : Config) (data : list Data) (cs : list Config)
    : list Config :=
  zip_with (fun d c => if decide (Source d = key) then c' else c) data cs.

Definition by_source (data : list Data) : Prop :=
  StronglySorted (fun a b => String.ltb (Source a) (Source b) = true) data.

Lemma replace_document_split key c' d1 d0 d2 c1 c0 c2 :
  by_source (d1 ++ d0 :: d2) -> length d1 = length c1 -> length d2 = length c2 -> Source d0 = key ->
  replace_document key c' (d1 ++ d0 :: d2) (c1 ++ c0 :: c2) = c1 ++ c' :: c2.
Proof.
  intros Hs Hl1 Hl2 Hk. unfold replace_document. unfold by_source in Hs.
  apply StronglySorted_app in Hs as (H1 & _ & H2).
  apply StronglySorted_cons in H2 as [H2 _].
  rewrite zip_with_app by done. cbn [zip_with]. rewrite decide_True by done.
  assert (forall ds cs, length ds = length cs -> Forall (fun d => Source d <> key) ds ->
    zip_with (fun d c => if decide (Source d = key) then c' else c) ds cs = cs) as Hid.
  { induction ds as [|d ds IH]; intros [|c cs] Hl Hf; try done. cbn [zip_with].
    apply Forall_cons in Hf as [Hd Hf]. rewrite decide_False by done. f_equal. apply IH; [|done].
    by injection Hl. }
  rewrite !Hid; [done|done| |done|].
  - eapply Forall_impl; [exact H2|]. intros d Hlt E. simpl in Hlt.
    rewrite Hk, E, string_ltb_irrefl in Hlt. done.
  - apply Forall_forall. intros d Hd E. specialize (H1 d d0 Hd (list_elem_of_here _ _)).
    simpl in H1. by rewrite Hk, E, string_ltb_irrefl in H1.
Qed.

Section Effect.
Context `{Yaml} `{GoSort}.

Lemma patched_document_wins data cs k path depth t ts v c' :
  getCConfigPatchTargets data (k :: path) depth = Ok (t :: ts) ->
  Forall2 decodes data cs -> by_source data -> Forall (fun c => plain (paths c)) cs ->
  depth <= length (k :: path) ->
  v <> VNil -> as_map v = None -> plain v ->
  set_or_error (pt_config t) (k :: path) v = Ok c' ->
  Get (merge_documents (replace_document (pt_key t) c' data cs)) (k :: path) = Ok v.
Proof.
  intros Ht Hd Hsrc Hpl Hdep Hn Ha Hpv Hset.
  destruct (patch_targets_spec _ _ _ _ _ Hd Ht) as (Hok & Hperm & _).
  assert (t ∈ t :: ts) as Hself by left. rewrite Hperm in Hself.
  apply list_elem_of_omap in Hself as ([d0 c0] & Hin & Et). unfold target_of in Et. cbn [fst snd] in Et.
  destruct (getCConfigPathDepth c0 (k :: path) depth) as [[i|]|] eqn:Ei; simplify_eq. cbn [pt_key pt_config] in *.
  apply list_elem_of_split in Hin as (z1 & z2 & Ez).
  assert (length data = length cs) as Hlen by by eapply Forall2_length.
  assert (data = z1.*1 ++ d0 :: z2.*1 /\ cs = z1.*2 ++ c0 :: z2.*2) as [Ed Ec].
  { pose proof (fst_zip data cs ltac:(lia)) as E1. pose proof (snd_zip data cs ltac:(lia)) as E2.
    rewrite Ez in E1, E2. rewrite fmap_app in E1. split; [exact (eq_sym E1)|].
    etransitivity; [exact (eq_sym E2)|]. exact (fmap_app snd z1 ((d0, c0) :: z2)). }
  rewrite Ed, Ec. rewrite replace_document_split; [|by rewrite <-Ed|by rewrite !length_fmap..|done].
  assert (set_path (paths c0) (k :: path) v = Some (paths c')) as Hsp.
  { apply set_or_error_spec; [by intros q ->|done]. }
  rewrite Ec in Hpl. apply Forall_app in Hpl as [Hp1 Hp2]. apply Forall_cons in Hp2 as [Hp0 Hp2].
  rewrite merge_documents_scopes; [|apply Forall_app; split; [done|apply Forall_cons; split; [|done]];
    by eapply plain_set_path].
  apply Get_Ok. split; [|done]. cbn [paths]. rewrite fmap_app, fmap_cons.
  apply merge_scopes_first; try done.
  - clear. revert k. induction path as [|k' path IH]; [done|]. intros k. exact (IH k').
  - apply Forall_fmap, Forall_forall. intros c Hc. cbn [compose document_scope].
    apply list_elem_of_fmap in Hc as ([d c2] & -> & Hdc). cbn [snd].
    assert ((d, c2) ∈ zip data cs) as Hz by (rewrite Ez; apply elem_of_app; by left).
    unfold scope_lookup, scope_open. simpl. split.
    + eapply (first_target_best (k :: path) depth data cs _ _ d); [done..|]. cbn.
      rewrite Ed in Hsrc. apply StronglySorted_app in Hsrc as (Hlt & _ & _).
      apply Hlt; [|left]. apply list_elem_of_fmap. by exists (d, c2).
    + assert (is_ok (getCConfigPathDepth c2 (k :: path) depth) = true) as Hok2.
      { apply (proj1 (Forall_forall _ _) Hok). rewrite Ec. apply elem_of_app. left.
        apply list_elem_of_fmap. by exists (d, c2). }
      unfold getCConfigPathDepth in Hok2. rewrite decide_False in Hok2 by (cbn in *; lia).
      destruct (path_depth_loop _ _ _ _) as [r|] eqn:El; [|done].
      apply path_depth_loop_spec in El as (_ & _ & Ho).
      rewrite take_ge in Ho by (cbn in *; lia). exact Ho.
  - unfold scope_lookup. simpl. by eapply (lookup_set_path _ (k :: path)).
Qed.

Context `{GoMapOrder} `{GoText} {W : Type}.

(** The instance of a cluster configuration: in the first place that has its name, with
    the failover of its instantiated configuration. *)
Definition located_instance (cc : ClusterConfig) (name : string) (inst : cconfigInstance) : Prop :=
  ci_name inst = name /\ cconfigGetFailover cc name = Ok (ci_failover inst) /\
  exists p, first_place cc name = Some p /\
    ci_groupName inst = (place_group p).1 /\ ci_replicasetName inst = (place_replicaset p).1.

(** The outcome of a forced operation: from the documents that were read, one is published
    under its own key and with its own revision, with the setting changed and nothing else,
    and this gives the setting its value in the merged configuration. *)
Definition takes_effect (c : CConfigSource (W:=W)) (w w' : W)
    (setting : cconfigInstance -> list string * value) (name : string) : Prop :=
  exists data w1 merged cc inst d doc c',
    collect_data (cs_collector c) w = (Ok data, w1) /\
    YamlDataMergeCollector_Collect data = Ok merged /\ MakeClusterConfig merged = Ok cc /\
    located_instance cc name inst /\
    d ∈ data /\ decodes d doc /\
    set_path (paths doc) (setting inst).1 (setting inst).2 = Some (paths c') /\
    cs_publisher c (Source d) (Revision d) (Config_String yaml_encode c') w1 = (None, w') /\
    forall cs, Forall2 decodes data cs -> by_source data ->
      Forall (fun c => plain (paths c)) cs ->
      Get (merge_documents (replace_document (Source d) c' data cs)) (setting inst).1
        = Ok (setting inst).2.

Lemma getCConfigInstance_of cc name inst :
  getCConfigInstance cc name = Ok inst -> located_instance cc name inst.
Proof.
  unfold getCConfigInstance, located_instance. destruct (first_place cc name) as [p|]; [|done].
  destruct (cconfigGetFailover cc name); [|done]. intros [= <-]. cbn. eauto 10.
Qed.

Lemma patchInstanceConfig_effect (c : CConfigSource (W:=W)) prompt name getPathFunc patchFunc setting w w' :
  cs_keyPicker c = pickPatchKey prompt ->
  (forall inst path depth config c', getPathFunc inst = Ok (path, depth) ->
     patchFunc config inst = Ok c' ->
     setting inst = (path, (setting inst).2) /\ path <> [] /\ depth <= length path /\
     (exists s, (setting inst).2 = VStr s) /\ set_or_error config path (setting inst).2 = Ok c') ->
  patchInstanceConfig c name true getPathFunc patchFunc w = (None, w') ->
  takes_effect c w w' setting name.
Proof.
  intros Hkp Hfuns. unfold patchInstanceConfig, collectCConfig.
  destruct (collect_data (cs_collector c) w) as [[data|] w1] eqn:Ecol; [|done].
  destruct (YamlDataMergeCollector_Collect data) as [merged|] eqn:Em; [|done].
  destruct (MakeClusterConfig merged) as [cc|] eqn:Ecc; [|done].
  unfold plan_instance_patch. destruct (getCConfigInstance cc name) as [inst|] eqn:Einst; [|done].
  cbn [rbind]. destruct (getPathFunc inst) as [[path depth]|] eqn:Epath; [|done]. cbn [rbind fst snd].
  destruct (getCConfigPatchTargets data path depth) as [targets|] eqn:Et; [|done]. cbn [rbind].
  unfold pickTarget. rewrite Hkp. destruct targets as [|t ts]; [done|]. cbn [map pickPatchKey negb andb].
  cbn [lookup list_lookup]. destruct (patchFunc (pt_config t) inst) as [c'|] eqn:Ep; [|done].
  unfold publish_patched. destruct (cs_publisher c _ _ _ w1) as [[e|] w2] eqn:Epub; [done|].
  intros [= <-]. destruct (Hfuns _ _ _ _ _ Epath Ep) as (Hset & Hne & Hdep & [s Hs] & Hse).
  destruct (target_document _ _ _ _ t Et (list_elem_of_here _ _)) as (d & Hd & Hdec & Hk & Hr).
  exists data, w1, merged, cc, inst, d, (pt_config t), c'. rewrite <-Hk, <-Hr.
  destruct (setting inst) as [sp sv]. cbn [fst snd] in *. injection Hset as ->. subst sv.
  split_and!; [done|done|done|by apply getCConfigInstance_of|done|done|by apply set_or_error_spec|done|].
  intros cs Hds Hsrc Hpl. destruct path as [|k path]; [done|]. by eapply patched_document_wins.
Qed.

Definition promoted (inst : cconfigInstance) : list string * value :=
  match ci_failover inst with
  | FailoverManual =>
      (["groups"; ci_groupName inst; "replicasets"; ci_replicasetName inst; "leader"],
       VStr (ci_name inst))
  | _ => (instance_path inst ++ ["database"; "mode"], VStr "rw")
  end.

Definition demoted (inst : cconfigInstance) : list string * value :=
  (instance_path inst ++ ["database"; "mode"], VStr "ro").

(** C6: A forced Promote or Demote that returns nil found the instance in the
    cluster configuration it collected (its first place, and its own
    failover), and published exactly one of the collected documents, under the
    key and with the revision it was read with, with nothing but the setting
    changed (database.mode of the instance, or leader of its replicaset when
    the failover is manual). With that document in place of the old one the
    merged cluster configuration has the new setting: no other document hides
    it, provided that the documents were collected in the order of their keys
    and hold values of YAML. *)
Theorem promote_demote_take_effect (c : CConfigSource (W:=W)) prompt ctx w w' :
  cs_keyPicker c = pickPatchKey prompt -> op_Force ctx = true ->
  (Promote c ctx w = (None, w') -> takes_effect c w w' promoted (op_InstName ctx)) /\
  (Demote c ctx w = (None, w') -> takes_effect c w w' demoted (op_InstName ctx)).
Proof.
  intros Hkp Hforce. unfold Promote, Demote. rewrite Hforce. split;
    (apply (patchInstanceConfig_effect c prompt _ _ _ _ w w' Hkp)); intros inst path depth config c'.
  - unfold getCConfigPromotePath, patchCConfigPromote, promoted.
    destruct (ci_failover inst); try done; intros [= <- <-] Hs; cbn [fst snd];
      (split; [done|split; [done|split; [cbn; lia|split; [eauto|done]]]]).
  - unfold getCConfigDemotePath, patchCConfigDemote, demoted.
    destruct (ci_failover inst); try done; intros [= <- <-] Hs; cbn [fst snd];
      (split; [done|split; [done|split; [cbn; lia|split; [eauto|done]]]]).
Qed.

(** ** Roles in several scopes *)

(** When a role is added to several scopes at once, a scope after the
    first keeps the roles that the document already has for it: merging the
    patched documents gives the earlier one priority, and the new role is lost
    for that scope. *)
Theorem added_role_lost (c : CConfigSource (W:=W)) ctx data cc t patched p w t' patched' w' old :
  role_step c ctx patchCConfigAddRole data cc (Some (t, patched)) p w
    = (Ok (Some (t', patched')), w') ->
  (forall d doc, d ∈ data -> decodes d doc -> plain (paths doc)) ->
  Get patched (sp_path p) = Ok old -> as_map old = None ->
  Get patched' (sp_path p) = Ok old.
Proof.
  unfold role_step. destruct (roles_with cc ctx (sp_path p)) as [roles|]; [|done].
  destruct (getCConfigPatchTargets _ _ _) as [targets|] eqn:Et; [|done]. unfold pickTarget.
  destruct (cs_keyPicker c _ _ _ w) as [[i|] w1]; [|done].
  destruct (targets !! i) as [target|] eqn:Ei; [|done].
  destruct (patchCConfigAddRole _ _ _) as [cur|] eqn:Ep; [|done].
  intros [= <- <- <-] Hdocs [Hl Hn]%Get_Ok Ha.
  assert (plain (paths (pt_config target))) as Hpl.
  { destruct (target_document _ _ _ _ target Et) as (d & Hd & Hdec & _);
      [by eapply list_elem_of_lookup_2|]. by eapply Hdocs. }
  apply set_or_error_spec in Ep; [|done].
  rewrite Merge_mergev by (by eapply plain_set_path).
  apply Get_Ok. split; [|done]. cbn [paths].
  rewrite lookup_mergev, lookup_open by (by rewrite Hl). rewrite Hl. apply mergev_keep.
  by destruct old.
Qed.
End Effect.

(** ** Samples *)
Definition no_text : GoText := {|
  ParseFloat _ := None; FormatFloat _ := ""; Sprint_map _ := "" |}.

(** A source with one document, which counts the publications of its revision. *)
Definition sample_source : CConfigSource (W:=nat) :=
  mkCConfigSource
    (mkDataCollector (fun w => (Ok [mkData "/p/config/all" "" 5], w)))
    (fun key revision _ w =>
       if decide (key = "/p/config/all" /\ revision = 5%Z) then (None, S w) else (Some (Errorf "changed" []), w))
    (pickPatchKey (fun _ w => (Ok 0, w))).

Lemma path_depth_longest_witness :
  getCConfigPathDepth sample_global ["app"; "cfg"; "x"] 1 = Err (Errorf fmtPathNotMap ["app"; "cfg"])
  /\ (forall i, Some 1 = Some i -> 1 <= i <= 2 /\
       is_ok (Get sample_global (take i ["app"; "file"])) = true).
Proof.
  split; [vm_compute; reflexivity|].
  apply (path_depth_longest sample_global ["app"; "file"] 1 (Some 1)); [cbn; lia|].
  vm_compute. reflexivity.
Defined.

Lemma promote_demote_take_effect_witness :
  @Promote (document_yaml (paths sample_global)) _ _ nat sample_source (mkInstanceOpCtx "i1" true 0) 0
    = (None, 1) /\
  @takes_effect (document_yaml (paths sample_global)) _ nat sample_source 0 1 promoted "i1".
Proof.
  assert (@Promote (document_yaml (paths sample_global)) _ _ nat sample_source
    (mkInstanceOpCtx "i1" true 0) 0 = (None, 1)) as E by (vm_compute; reflexivity).
  split; [exact E|].
  apply (proj1 (@promote_demote_take_effect (document_yaml (paths sample_global)) _ _ nat
    sample_source (fun _ w => (Ok 0, w)) (mkInstanceOpCtx "i1" true 0) 0 1 eq_refl eq_refl)).
  exact E.
Defined.

(** Roles in the global scope and in a group; [x] is being added to both. *)
Definition roles_document : value :=
  VMap {[ KStr "roles" := VSlice [VStr "a"];
          KStr "groups" := VMap {[ KStr "g" := VMap {[ KStr "roles" := VSlice [VStr "b"] ]} ]} ]}.
Definition roles_patched : Config :=
  mkConfig (VMap {[ KStr "roles" := VStrSlice ["a"; "x"];
          KStr "groups" := VMap {[ KStr "g" := VMap {[ KStr "roles" := VSlice [VStr "b"] ]} ]} ]}).

Definition lost_role_step :=
  @role_step (document_yaml roles_document) _ no_text nat sample_source
    (mkRolesAddCtx "" "g" "" true "x" true) patchCConfigAddRole
    [mkData "/p/config/all" "" 5] (mkCluster zero_etcd zero_storage (Some (mkConfig roles_document)) ∅)
    (Some (mkPatchTarget "/p/config/all" 5 (mkConfig roles_document) 1, roles_patched))
    (mkScopePath ["groups"; "g"; "roles"] 2) 0.

Lemma document_decodes doc d c :
  @decodes (document_yaml doc) d c -> c = NewConfig \/ c = mkConfig (deepCastStringMapToAnyMap doc).
Proof.
  unfold decodes, YamlCollector_Collect, yaml_unmarshal_config. simpl yaml_parse.
  destruct doc; intros [= <-]; auto.
Qed.

Lemma roles_documents_plain d doc :
  d ∈ [mkData "/p/config/all" "" 5] -> @decodes (document_yaml roles_document) d doc ->
  plain (paths doc).
Proof. intros _ [->| ->]%document_decodes; vm_compute; tauto. Qed.

Lemma added_role_lost_witness :
  exists t' patched', lost_role_step = (Ok (Some (t', patched')), 0) /\
    Get patched' ["groups"; "g"; "roles"] = Ok (VSlice [VStr "b"]).
Proof.
  assert (match lost_role_step with (Ok (Some _), 0) => true | _ => false end = true) as Hok
    by (vm_compute; reflexivity).
  destruct lost_role_step as [[[[t' patched']|]|] w'] eqn:E; try discriminate Hok.
  destruct w' as [|w']; [|discriminate Hok]. exists t', patched'. split; [reflexivity|].
  refine (@added_role_lost (document_yaml roles_document) _ no_text nat _ _ _ _ _ _ _ _ _ _ _
    (VSlice [VStr "b"]) E roles_documents_plain _ _).
  - vm_compute. reflexivity.
  - reflexivity.
Defined.
