(* ===== verification/Topology.v ===== *)
(** * Topologies of the centralized configuration ([cli/replicaset/cconfig.go])

    What each instance reports about its replicaset, and how the reports are
    merged into one description of the application. *)
From S2P Require Import Prelude GoStrings Value Replicaset.

Record cconfigTopology := mkTopology {
  t_UUID : string;
  t_LeaderUUID : string;
  t_Alias : string;
  t_Failover : string;
  t_Instances : list Instance_;
  t_InstanceUUID : string;
  t_InstanceRW : bool
}.

Definition set_mode (i : Instance_) (m : Mode) : Instance_ :=
  mkInst (Alias i) (UUID i) (URI i) m (InstCtx i) (InstanceCtxFound i).

Definition set_ctx (i : Instance_) (ctx : InstanceCtx) (found : bool) : Instance_ :=
  mkInst (Alias i) (UUID i) (URI i) (InstMode i) ctx found.

Definition with_topology_instances (t : cconfigTopology) (l : list Instance_) : cconfigTopology :=
  mkTopology (t_UUID t) (t_LeaderUUID t) (t_Alias t) (t_Failover t) l (t_InstanceUUID t)
    (t_InstanceRW t).

Section Topology.
Context {W : Type} `{Connector W}.
(** The Lua body, and [mapstructure.Decode] of its answer. *)
Variable cconfigGetInstanceTopologyBody : string.
Variable decode_topology : value -> result cconfigTopology.
Variable print_values : list value -> string.

Definition getCConfigInstanceTopology (evaler : Evaler W) (w : W) : result cconfigTopology * W :=
  match evaler cconfigGetInstanceTopologyBody [] w with
  | (Err e, w') => (Err e, w')
  | (Ok [d], w') =>
      (match decode_topology d with
       | Err e => Err (Wrapf "failed to parse a response: %w" [] e)
       | Ok topology =>
           Ok (with_topology_instances topology
                 (map (fun i => if decide (UUID i = t_InstanceUUID topology)
                                then set_mode i (if t_InstanceRW topology then ModeRW else ModeRead)
                                else i) (t_Instances topology)))
       end, w')
  | (Ok data, w') => (Err (Errorf "unexpected response: %v" [print_values data]), w')
  end.

(** ** [updateCConfigInstances] *)
Definition update_instance (instance tinstance : Instance_) : Instance_ :=
  mkInst (Alias instance) (UUID instance)
    (if decide (URI instance = "") then URI tinstance else URI instance)
    (if decide (InstMode instance = ModeUnknown) then InstMode tinstance else InstMode instance)
    (if InstanceCtxFound instance then InstCtx instance else InstCtx tinstance)
    (if InstanceCtxFound instance then true else InstanceCtxFound tinstance).

(** The last instance with the UUID is updated. *)
Fixpoint update_last (instances : list Instance_) (tinstance : Instance_)
    : option (list Instance_) :=
  match instances with
  | [] => None
  | i :: rest =>
      match update_last rest tinstance with
      | Some rest' => Some (i :: rest')
      | None =>
          if decide (UUID tinstance = UUID i) then Some (update_instance i tinstance :: rest)
          else None
      end
  end.

Definition add_instance (instances : list Instance_) (tinstance : Instance_) : list Instance_ :=
  match update_last instances tinstance with
  | Some instances' => instances'
  | None => instances ++ [tinstance]
  end.

Definition updateCConfigInstances (replicaset : Replicaset) (topology : cconfigTopology)
    : Replicaset :=
  with_instances replicaset (fold_left add_instance (t_Instances topology) (rs_Instances replicaset)).

(** ** [mergeCConfigTopologies] *)
Definition new_replicaset (topology : cconfigTopology) : Replicaset :=
  mkReplicaset_ (t_UUID topology) (t_LeaderUUID topology) (t_Alias topology) [] MasterUnknown
    (ParseFailover (t_Failover topology)) StateProviderUnknown (t_Instances topology).

(** The first replicaset with the UUID is updated, or a new one appended. *)
Fixpoint add_topology (rs : list Replicaset) (topology : cconfigTopology) : list Replicaset :=
  match rs with
  | [] => [new_replicaset topology]
  | r :: rest =>
      if decide (t_UUID topology = rs_UUID r) then updateCConfigInstances r topology :: rest
      else r :: add_topology rest topology
  end.

Definition clear_expelled (r : Replicaset) : Replicaset :=
  with_instances r (filter (fun i => URI i <> "") (rs_Instances r)).

Definition mergeCConfigTopologies (topologies : list cconfigTopology) : Replicasets :=
  recalculateMasters
    (mkReplicasets StateBootstrapped OrchestratorCentralizedConfig
       (map clear_expelled (fold_left add_topology topologies []))).

(** ** [discovery] of an instance and of an application *)
Definition instance_discovery (evaler : Evaler W) (w : W) : result Replicasets * W :=
  match getCConfigInstanceTopology evaler w with
  | (Err e, w') => (Err e, w')
  | (Ok topology, w') =>
      (Ok (recalculateMasters
             (mkReplicasets StateBootstrapped OrchestratorCentralizedConfig
                [new_replicaset topology])), w')
  end.

Definition application_discovery (instances : list InstanceCtx) (w : W) : result Replicasets * W :=
  match EvalForeachAlive instances (fun ictx evaler (topologies : list cconfigTopology) w =>
          match getCConfigInstanceTopology evaler w with
          | (Err e, w') => (Err e, topologies, w')
          | (Ok topology, w') =>
              let topology := with_topology_instances topology
                (map (fun i => if decide (UUID i = t_InstanceUUID topology)
                               then set_ctx i ictx true else i) (t_Instances topology)) in
              (Ok false, topologies ++ [topology], w')
          end) [] w with
  | (Some err, _, w') => (Err err, w')
  | (None, [], w') => (Err (Errorf "no instance found in the application" []), w')
  | (None, topologies, w') => (Ok (mergeCConfigTopologies topologies), w')
  end.
End Topology.
