(* ===== verification/ReplicasetProps.v ===== *)
(** * What the description of replicasets guarantees *)
From S2P Require Import Prelude GoStrings Value Replicaset Topology.

(** ** Texts of the enumerations *)
Lemma enum_texts :
  (forall f, ParseFailover (Failover_String f) = f) /\
  (forall m, ParseElectionMode (ElectionMode_String m) = m) /\
  (forall p, ParseStateProvider (StateProvider_String p) = p) /\
  (forall o, ParseOrchestrator (Orchestrator_String o) = o).
Proof. split_and!; by intros []. Qed.

(** ** Merging the reports of instances *)
(** What the reports about one instance, in their order, say together: the
    first URI and the first mode that are known, and the first context that was
    found (else the last one reported). *)
Definition merge_reports (reports : list Instance_) : option Instance_ :=
  match reports with
  | [] => None
  | i :: rest =>
      Some (mkInst (Alias i) (UUID i)
        (default "" (head (filter (fun u => u <> "") (URI <$> reports))))
        (default ModeUnknown (head (filter (fun m => m <> ModeUnknown) (InstMode <$> reports))))
        (default (List.last (InstCtx <$> rest) (InstCtx i))
           (head (InstCtx <$> filter InstanceCtxFound reports)))
        (existsb InstanceCtxFound reports))
  end.

Lemma update_instances_merge rest i :
  Some (fold_left update_instance rest i) = merge_reports (i :: rest).
Proof.
  revert i. induction rest as [|t rest IH]; intros i.
  - destruct i as [a u x m c f]. unfold merge_reports.
    cbn [fold_left Alias UUID]. rewrite !list_fmap_singleton, !filter_cons, !filter_nil.
    cbn [URI InstMode InstCtx InstanceCtxFound List.last existsb]. f_equal. f_equal.
    + destruct (decide (x <> "")) as [|E]; [done|]. by apply dec_stable in E.
    + destruct (decide (m <> ModeUnknown)) as [|E]; [done|]. by apply dec_stable in E.
    + by destruct f.
    + by destruct f.
  - cbn [fold_left]. rewrite IH. clear IH.
    destruct i as [a u x m c f], t as [a' u' x' m' c' f'].
    unfold merge_reports, update_instance. cbn [Alias UUID URI InstMode InstCtx InstanceCtxFound].
    rewrite !fmap_cons, !filter_cons. cbn [URI InstMode InstCtx InstanceCtxFound].
    f_equal. f_equal.
    + destruct (decide (x = "")) as [->|E]; [done|]. by rewrite !decide_True by done.
    + destruct (decide (m = ModeUnknown)) as [->|E]; [done|]. by rewrite !decide_True by done.
    + rewrite last_cons_default. by destruct f, f'.
    + by destruct f, f'.
Qed.

Definition with_uuid (u : string) (l : list Instance_) : list Instance_ :=
  filter (fun i => UUID i = u) l.

(** The instance of a UUID in a list, when there is one. *)
Definition find_uuid (u : string) (l : list Instance_) : option Instance_ := head (with_uuid u l).

Lemma update_instance_uuid i t : UUID (update_instance i t) = UUID i.
Proof. done. Qed.

Lemma update_last_None l t : update_last l t = None <-> UUID t ∉ UUID <$> l.
Proof.
  induction l as [|i l IH]; [split; [|done]; intros _; apply not_elem_of_nil|]. simpl.
  rewrite not_elem_of_cons. destruct (update_last l t) as [l'|] eqn:E.
  - split; [done|]. intros [_ Hn]. apply IH in Hn. done.
  - case_decide; split; try done; [naive_solver|]. intros _. split; [done|]. by apply IH.
Qed.

Lemma update_last_Some l t l' :
  NoDup (UUID <$> l) -> update_last l t = Some l' ->
  exists l1 i l2, l = l1 ++ i :: l2 /\ UUID i = UUID t /\ l' = l1 ++ update_instance i t :: l2.
Proof.
  revert l'. induction l as [|i l IH]; intros l' Hnd; [done|]. simpl.
  rewrite fmap_cons in Hnd. apply NoDup_cons in Hnd as [Hi Hnd].
  destruct (update_last l t) as [l0|] eqn:E.
  - intros [= <-]. destruct (IH l0 Hnd eq_refl) as (l1 & j & l2 & -> & Hj & ->).
    by exists (i :: l1), j, l2.
  - case_decide; [|done]. intros [= <-]. by exists [], i, l.
Qed.

Lemma add_instance_NoDup l t : NoDup (UUID <$> l) -> NoDup (UUID <$> add_instance l t).
Proof.
  intros Hnd. unfold add_instance. destruct (update_last l t) as [l'|] eqn:E.
  - destruct (update_last_Some _ _ _ Hnd E) as (l1 & i & l2 & -> & _ & ->).
    by rewrite fmap_app, fmap_cons in *.
  - apply update_last_None in E. rewrite fmap_app. apply NoDup_app. split; [done|].
    split; [|apply NoDup_singleton]. intros x Hx ->%list_elem_of_singleton. done.
Qed.

Lemma with_uuid_absent u l : u ∉ UUID <$> l -> with_uuid u l = [].
Proof.
  intros Hn. unfold with_uuid. induction l as [|i l IH]; [done|].
  rewrite fmap_cons, not_elem_of_cons in Hn. rewrite filter_cons, decide_False by naive_solver.
  apply IH. naive_solver.
Qed.

Lemma find_add_instance u l t :
  NoDup (UUID <$> l) ->
  find_uuid u (add_instance l t) =
  if decide (UUID t = u) then
    match find_uuid u l with Some i => Some (update_instance i t) | None => Some t end
  else find_uuid u l.
Proof.
  intros Hnd. unfold find_uuid, add_instance. destruct (update_last l t) as [l'|] eqn:E.
  - destruct (update_last_Some _ _ _ Hnd E) as (l1 & i & l2 & -> & Hi & ->).
    rewrite fmap_app, fmap_cons in Hnd. apply NoDup_app in Hnd as (_ & Hd & Hnd).
    unfold with_uuid. rewrite !filter_app, !filter_cons, update_instance_uuid.
    destruct (decide (UUID t = u)) as [<-|E1].
    + rewrite !decide_True by done.
      assert (UUID t ∉ UUID <$> l1) as Hn.
      { intros Hx. apply (Hd _ Hx). rewrite Hi. left. }
      apply with_uuid_absent in Hn. unfold with_uuid in Hn. by rewrite Hn.
    + by rewrite !decide_False by congruence.
  - apply update_last_None in E. unfold with_uuid. rewrite filter_app.
    destruct (decide (UUID t = u)) as [<-|E1].
    + pose proof (with_uuid_absent _ _ E) as Hn. unfold with_uuid in Hn.
      rewrite Hn, filter_cons, decide_True by done. done.
    + rewrite filter_cons, decide_False by done. by rewrite filter_nil, app_nil_r.
Qed.

Lemma add_instances_find u ts l :
  NoDup (UUID <$> l) ->
  NoDup (UUID <$> fold_left add_instance ts l) /\
  find_uuid u (fold_left add_instance ts l) =
  match find_uuid u l with
  | Some i => merge_reports (i :: with_uuid u ts)
  | None => merge_reports (with_uuid u ts)
  end.
Proof.
  revert l. induction ts as [|t ts IH]; intros l Hnd.
  { split; [done|]. change (with_uuid u []) with (@nil Instance_). cbn [fold_left].
    destruct (find_uuid u l); [|done]. by rewrite <-update_instances_merge. }
  cbn [fold_left]. destruct (IH _ (add_instance_NoDup l t Hnd)) as [H1 H2].
  split; [done|]. rewrite H2, find_add_instance by done. unfold with_uuid.
  rewrite filter_cons. case_decide; [|done]. destruct (find_uuid u l); [|done].
  by rewrite <-!update_instances_merge.
Qed.

(** The reports about an instance of a replicaset, in the order of the
    topologies. *)
Definition topologies_of (ruuid : string) (ts : list cconfigTopology) : list cconfigTopology :=
  filter (fun t => t_UUID t = ruuid) ts.

Definition reports (ruuid iuuid : string) (ts : list cconfigTopology) : list Instance_ :=
  t ← topologies_of ruuid ts; with_uuid iuuid (t_Instances t).

(** A topology names each instance once. *)
Definition well_formed (t : cconfigTopology) : Prop := NoDup (UUID <$> t_Instances t).

Definition find_replicaset (ruuid : string) (rs : list Replicaset) : option Replicaset :=
  head (filter (fun r => rs_UUID r = ruuid) rs).

Lemma add_topology_uuids rs t :
  rs_UUID <$> add_topology rs t =
  (rs_UUID <$> rs) ++ (if decide (t_UUID t ∈ rs_UUID <$> rs) then [] else [t_UUID t]).
Proof.
  induction rs as [|r rs IH]; [done|]. cbn [add_topology].
  destruct (decide (t_UUID t = rs_UUID r)) as [E|E].
  - rewrite !fmap_cons. rewrite decide_True by (rewrite E; left). rewrite app_nil_r.
    by unfold updateCConfigInstances.
  - rewrite !fmap_cons, IH. cbn [app]. f_equal. f_equal.
    destruct (decide (t_UUID t ∈ rs_UUID <$> rs)) as [Hin|Hin];
      destruct (decide (t_UUID t ∈ rs_UUID r :: (rs_UUID <$> rs))) as [Hin'|Hin']; try done.
    + destruct Hin'. by right.
    + apply elem_of_cons in Hin' as [?|?]; [congruence|done].
Qed.

Lemma find_add_topology ruuid rs t :
  find_replicaset ruuid (add_topology rs t) =
  if decide (t_UUID t = ruuid) then
    match find_replicaset ruuid rs with
    | Some r => Some (updateCConfigInstances r t)
    | None => Some (new_replicaset t)
    end
  else find_replicaset ruuid rs.
Proof.
  unfold find_replicaset. induction rs as [|r rs IH]; cbn [add_topology].
  - rewrite filter_cons. cbn [rs_UUID new_replicaset]. by case_decide.
  - destruct (decide (t_UUID t = rs_UUID r)) as [E|E].
    + rewrite !filter_cons. unfold updateCConfigInstances at 1. cbn [rs_UUID with_instances].
      destruct (decide (rs_UUID r = ruuid)) as [E'|E'].
      * by rewrite decide_True by congruence.
      * by rewrite decide_False by congruence.
    + rewrite !filter_cons. destruct (decide (rs_UUID r = ruuid)) as [E'|E'].
      * by rewrite decide_False by congruence.
      * exact IH.
Qed.

Lemma add_topologies_NoDup ts rs :
  NoDup (rs_UUID <$> rs) ->
  NoDup (rs_UUID <$> fold_left add_topology ts rs) /\
  forall R, R ∈ rs_UUID <$> fold_left add_topology ts rs <->
    R ∈ rs_UUID <$> rs \/ R ∈ t_UUID <$> ts.
Proof.
  revert rs. induction ts as [|t ts IH]; intros rs Hnd; cbn [fold_left].
  { split; [done|]. intros R. pose proof (not_elem_of_nil R). change (t_UUID <$> []) with (@nil string). tauto. }
  destruct (IH (add_topology rs t)) as [IH1 IH2].
  { rewrite add_topology_uuids. apply NoDup_app. split; [done|]. case_decide.
    - split; [|constructor]. intros x _ Hx. by apply not_elem_of_nil in Hx.
    - split; [|apply NoDup_singleton]. intros x Hx ->%list_elem_of_singleton. done. }
  split; [done|]. intros R. rewrite IH2, add_topology_uuids, elem_of_app, fmap_cons, elem_of_cons.
  case_decide as E.
  - pose proof (not_elem_of_nil R). split; [tauto|]. intros [?|[->|?]]; auto.
  - rewrite list_elem_of_singleton. tauto.
Qed.

Lemma add_topologies_find R ts rs :
  find_replicaset R (fold_left add_topology ts rs) =
  match find_replicaset R rs, topologies_of R ts with
  | Some r, ts' => Some (fold_left updateCConfigInstances ts' r)
  | None, [] => None
  | None, t :: ts' => Some (fold_left updateCConfigInstances ts' (new_replicaset t))
  end.
Proof.
  revert rs. induction ts as [|t ts IH]; intros rs; cbn [fold_left].
  { change (topologies_of R []) with (@nil cconfigTopology). by destruct (find_replicaset R rs). }
  rewrite IH, find_add_topology. unfold topologies_of. rewrite filter_cons.
  destruct (decide (t_UUID t = R)); [|done]. by destruct (find_replicaset R rs).
Qed.

Lemma update_topologies ts r :
  let r' := fold_left updateCConfigInstances ts r in
  rs_UUID r' = rs_UUID r /\
  rs_Instances r' = fold_left add_instance (ts ≫= t_Instances) (rs_Instances r).
Proof.
  revert r. induction ts as [|t ts IH]; intros r; [done|]. cbn [fold_left].
  destruct (IH (updateCConfigInstances r t)) as [-> ->]. split; [done|].
  change ((t :: ts) ≫= t_Instances) with (t_Instances t ++ (ts ≫= t_Instances)).
  by rewrite fold_left_app.
Qed.

Lemma with_uuid_bind u (ts : list cconfigTopology) :
  with_uuid u (ts ≫= t_Instances) = ts ≫= (fun t => with_uuid u (t_Instances t)).
Proof.
  induction ts as [|t ts IH]; [done|].
  change ((t :: ts) ≫= t_Instances) with (t_Instances t ++ (ts ≫= t_Instances)).
  change ((t :: ts) ≫= (fun t => with_uuid u (t_Instances t)))
    with (with_uuid u (t_Instances t) ++ (ts ≫= (fun t => with_uuid u (t_Instances t)))).
  rewrite <-IH. apply filter_app.
Qed.

(** In a list that names each UUID once, membership is [find_uuid]. *)
Lemma find_uuid_elem l i : NoDup (UUID <$> l) -> i ∈ l <-> find_uuid (UUID i) l = Some i.
Proof.
  intros Hnd. unfold find_uuid, with_uuid. induction l as [|j l IH].
  { split; [by intros ?%not_elem_of_nil|done]. }
  rewrite fmap_cons in Hnd. apply NoDup_cons in Hnd as [Hj Hnd].
  rewrite elem_of_cons, filter_cons. destruct (decide (UUID j = UUID i)) as [E|E].
  - cbn [head]. split; [|naive_solver]. intros [->|Hi]; [done|]. exfalso. apply Hj.
    rewrite E. apply list_elem_of_fmap. eauto.
  - rewrite IH by done. naive_solver.
Qed.

Lemma with_uuid_single u l :
  NoDup (UUID <$> l) -> with_uuid u l = match find_uuid u l with Some i => [i] | None => [] end.
Proof.
  intros Hnd. unfold find_uuid. induction l as [|j l IH]; [done|].
  rewrite fmap_cons in Hnd. apply NoDup_cons in Hnd as [Hj Hnd]. unfold with_uuid in *.
  rewrite filter_cons. destruct (decide (UUID j = u)) as [<-|E]; [|by apply IH].
  cbn [head]. f_equal. by apply with_uuid_absent.
Qed.

Lemma find_replicaset_elem rs r :
  NoDup (rs_UUID <$> rs) -> r ∈ rs -> find_replicaset (rs_UUID r) rs = Some r.
Proof.
  intros Hnd. unfold find_replicaset. induction rs as [|r' rs IH]; [by intros ?%not_elem_of_nil|].
  rewrite fmap_cons in Hnd. apply NoDup_cons in Hnd as [Hj Hnd].
  rewrite filter_cons. intros [->|Hin]%elem_of_cons; [by rewrite decide_True|].
  rewrite decide_False; [by apply IH|]. intros E. apply Hj. rewrite E. apply list_elem_of_fmap. eauto.
Qed.

Lemma merged_instances ts r :
  Forall well_formed ts -> r ∈ fold_left add_topology ts [] ->
  NoDup (UUID <$> rs_Instances r) /\
  forall u, find_uuid u (rs_Instances r) = merge_reports (reports (rs_UUID r) u ts).
Proof.
  intros Hwf Hr. destruct (add_topologies_NoDup ts []) as [Hnd _]; [constructor|].
  apply find_replicaset_elem in Hr; [|done]. rewrite add_topologies_find in Hr.
  unfold reports. assert (Forall well_formed (topologies_of (rs_UUID r) ts)) as Hwf'
    by (apply Forall_forall; intros t [_ Ht]%list_elem_of_filter;
        exact (proj1 (Forall_forall _ _) Hwf t Ht)).
  destruct (topologies_of (rs_UUID r) ts) as [|t ts']; [done|]. cbn [find_replicaset filter] in Hr.
  injection Hr as Hr. apply Forall_cons in Hwf' as [Ht _]. unfold well_formed in Ht.
  destruct (update_topologies ts' (new_replicaset t)) as [_ Hi]. rewrite Hr in Hi.
  cbn [new_replicaset rs_Instances] in Hi. rewrite Hi.
  destruct (add_instances_find "" (ts' ≫= t_Instances) (t_Instances t) Ht) as [Hn _].
  split; [done|]. intros u.
  destruct (add_instances_find u (ts' ≫= t_Instances) (t_Instances t) Ht) as [_ ->].
  change ((t :: ts') ≫= (fun t => with_uuid u (t_Instances t)))
    with (with_uuid u (t_Instances t) ++ (ts' ≫= (fun t => with_uuid u (t_Instances t)))).
  rewrite <-with_uuid_bind, (with_uuid_single u _ Ht). by destruct (find_uuid u (t_Instances t)).
Qed.

(** ** The master state *)
Lemma count_mode_cons m i l :
  count_mode m (i :: l) = (if decide (InstMode i = m) then 1 else 0) + count_mode m l.
Proof. unfold count_mode. rewrite filter_cons. by case_decide. Qed.

Lemma count_mode_0 l :
  count_mode ModeRW l = 0 /\ count_mode ModeUnknown l = 0 <->
  Forall (fun i => InstMode i = ModeRead) l.
Proof.
  induction l as [|i l IH]; [by split; [constructor|]|]. rewrite !count_mode_cons, Forall_cons, <-IH.
  destruct (InstMode i) eqn:E; cbn [Nat.add]; [| |].
  - rewrite decide_False, decide_True by done. split; [lia|]. by intros [? _].
  - rewrite !decide_False by done. simpl. tauto.
  - rewrite decide_True, decide_False by done. split; [lia|]. by intros [? _].
Qed.

Lemma count_mode_1 l :
  count_mode ModeRW l = 1 /\ count_mode ModeUnknown l = 0 <->
  exists l1 master l2, l = l1 ++ master :: l2 /\ InstMode master = ModeRW /\
    Forall (fun i => InstMode i = ModeRead) (l1 ++ l2).
Proof.
  split.
  - induction l as [|i l IH]; [by intros [[=] _]|]. rewrite !count_mode_cons. intros [H1 H2].
    destruct (InstMode i) eqn:E;
      repeat (rewrite decide_True in * by done || rewrite decide_False in * by done); [lia| |].
    + destruct IH as (l1 & x & l2 & -> & Hx & Hl); [done|]. exists (i :: l1), x, l2.
      split_and!; [done|done|]. by constructor.
    + exists [], i, l. split_and!; [done|done|]. apply count_mode_0. simpl in *. lia.
  - intros (l1 & x & l2 & -> & Hx & Hl). apply count_mode_0 in Hl as [H1 H2].
    unfold count_mode in *. rewrite !filter_app, !length_app, !filter_cons, Hx in *.
    rewrite decide_True, decide_False by done. simpl in *. lia.
Qed.

Lemma master_of_spec l :
  (master_of l = MasterNo <-> Forall (fun i => InstMode i = ModeRead) l) /\
  (master_of l = MasterSingle <-> exists l1 master l2, l = l1 ++ master :: l2 /\
     InstMode master = ModeRW /\ Forall (fun i => InstMode i = ModeRead) (l1 ++ l2)) /\
  (master_of l = MasterMulti <-> 1 < count_mode ModeRW l).
Proof.
  rewrite <-count_mode_0, <-count_mode_1. unfold master_of.
  repeat case_decide; split_and!; split; intros; try discriminate; try done; lia.
Qed.

(** C33: Merging the reports of all instances gives one replicaset per
    reported UUID and in it one entry per instance, which has the first URI
    and the first mode that any report about it knows and the first context
    found; exactly the instances without any URI are dropped, and the master
    state says of what is left whether all instances are read-only, or one is
    writable and the rest read-only, or several are writable. *)
Theorem merge_topologies_instances ts :
  Forall well_formed ts ->
  let rs := rss_Replicasets (mergeCConfigTopologies ts) in
  NoDup (rs_UUID <$> rs) /\
  (forall R, R ∈ rs_UUID <$> rs <-> R ∈ t_UUID <$> ts) /\
  forall r, r ∈ rs ->
    NoDup (UUID <$> rs_Instances r) /\
    (rs_Master r = MasterNo <-> Forall (fun i => InstMode i = ModeRead) (rs_Instances r)) /\
    (rs_Master r = MasterSingle <-> exists l1 master l2,
       rs_Instances r = l1 ++ master :: l2 /\ InstMode master = ModeRW /\
       Forall (fun i => InstMode i = ModeRead) (l1 ++ l2)) /\
    (rs_Master r = MasterMulti <-> 1 < count_mode ModeRW (rs_Instances r)) /\
    forall i, i ∈ rs_Instances r <->
      merge_reports (reports (rs_UUID r) (UUID i) ts) = Some i /\ URI i <> "".
Proof.
  intros Hwf rs. set (f := fun x => recalculateMaster (clear_expelled x)).
  assert (rs = map f (fold_left add_topology ts [])) as ->
    by exact (map_map clear_expelled recalculateMaster (fold_left add_topology ts [])).
  assert (forall l : list Replicaset, rs_UUID <$> map f l = rs_UUID <$> l) as Hu.
  { intros l. induction l as [|x l IH]; [done|]. cbn [map]. rewrite !fmap_cons, IH. done. }
  destruct (add_topologies_NoDup ts []) as [Hnd Hin]; [constructor|]. rewrite Hu.
  split; [done|]. split.
  { intros R. rewrite Hin. pose proof (not_elem_of_nil R). change (rs_UUID <$> []) with (@nil string). tauto. }
  intros r Hr. apply list_elem_of_In, in_map_iff in Hr as (r0 & <- & Hr0).
  apply list_elem_of_In in Hr0. destruct (merged_instances ts r0 Hwf Hr0) as [Hn Hf].
  unfold f. cbn [rs_Instances rs_Master rs_UUID recalculateMaster clear_expelled with_instances].
  split; [|destruct (master_of_spec (filter (fun i => URI i <> "") (rs_Instances r0)))
    as (M1 & M2 & M3); split_and!; [exact M1|exact M2|exact M3|]].
  - clear -Hn. induction (rs_Instances r0) as [|i l IH]; [constructor|].
    rewrite fmap_cons in Hn. apply NoDup_cons in Hn as [Hi Hn]. rewrite filter_cons.
    case_decide; [|by apply IH]. rewrite fmap_cons. apply NoDup_cons. split; [|by apply IH].
    intros (j & Ej & Hj)%list_elem_of_fmap. apply list_elem_of_filter in Hj as [_ Hj].
    apply Hi. rewrite Ej. apply list_elem_of_fmap. eauto.
  - intros i. rewrite list_elem_of_filter, (find_uuid_elem _ i Hn), Hf. tauto.
Qed.

(** ** Skipping instances that do not answer *)
Section Eval.
Context {W : Type} `{Connector W} {S : Type}.
Variable ievaler : InstanceEvaler (W:=W) S.
(** Whether an instance accepts a connection does not depend on the world, and
    a failed attempt leaves no trace. *)
Variable alive : InstanceCtx -> bool.
Hypothesis Connect_alive : forall i w,
  if alive i then is_ok (Connect (ConsoleSocket i) w).1 = true
  else exists e, Connect (ConsoleSocket i) w = (Err e, w).

Lemma eval_loop_alive instances n s w :
  (n <> 0 \/ filter alive instances <> []) ->
  eval_loop instances ievaler true n s w = eval_loop (filter alive instances) ievaler false n s w.
Proof.
  revert n s w. induction instances as [|i rest IH]; intros n s w Hne; [done|].
  rewrite filter_cons in *. cbn [eval_loop]. pose proof (Connect_alive i w) as Hc.
  destruct (decide (alive i)) as [Ha|Ha]; destruct (alive i); try (by destruct Ha; done).
  - cbn [eval_loop]. destruct (Connect (ConsoleSocket i) w) as [[conn|e] w1]; [|done].
    destruct (ievaler i conn s w1) as [[[[]|e] s'] w2]; [done| |done]. apply IH. left. lia.
  - destruct Hc as [e ->]. apply IH. done.
Qed.

(** EvalForeachAlive behaves as EvalForeach on the instances that accept
    a connection, in the same order and with the same effects, and fails
    without any effect when there is none. *)
Theorem eval_alive_is_filter instances s w :
  instances <> [] ->
  EvalForeachAlive instances ievaler s w =
  match filter alive instances with
  | [] => (Some (Errorf "failed to connect to any instance" []), s, w)
  | answering => EvalForeach answering ievaler s w
  end.
Proof.
  intros Hne. unfold EvalForeachAlive, EvalForeach, evalForeach.
  destruct instances as [|i rest]; [done|]. clear Hne. generalize (i :: rest) as l. clear i rest.
  intros l. destruct (filter alive l) as [|a answering] eqn:E.
  - induction l as [|i l IH]; [done|]. rewrite filter_cons in E. cbn [eval_loop].
    pose proof (Connect_alive i w) as Hc.
    destruct (decide (alive i)) as [Ha|Ha]; [done|]. destruct (alive i); [by destruct Ha|].
    destruct Hc as [e ->]. by apply IH.
  - rewrite eval_loop_alive by (right; by rewrite E). by rewrite E.
Qed.
End Eval.

(** ** The cache of a discovery *)

(** Discovery either returns a valid cached result without touching
    anything, or runs the discovery and caches its result exactly when it
    succeeded, so that a later cached call returns that result and a failed
    one is retried. *)
Theorem discovery_cache {W} (discovery : W -> Replicasets * option error * W) skip c w res c' w' :
  Discovery discovery skip c w = (res, c', w') ->
  (skip = false /\ cached c = true /\ res = (replicasets c, None) /\ c' = c /\ w' = w) \/
  (exists rs err, discovery w = (rs, err, w') /\ res = (rs, err) /\ replicasets c' = rs /\
     (cached c' = true <-> err = None) /\
     forall w2, Discovery discovery false c' w2 =
       match err with
       | None => ((rs, None), c', w2)
       | Some _ => Discovery discovery true c' w2
       end).
Proof.
  unfold Discovery. destruct (negb skip && cached c) eqn:E.
  - apply andb_prop in E as [E1 E2]. intros [= <- <- <-]. left. by destruct skip.
  - intros Hd. right. destruct (discovery w) as [[rs [err|]] w1]; simplify_eq/=; eexists _, _;
      (split; [done|split; [done|split; [done|split; [done|done]]]]).
Qed.

(** ** Samples *)
Definition sample_reports : list cconfigTopology :=
  [mkTopology "r" "" "r" "off"
     [mkInst "a" "ua" "uri-a" ModeRW zero_ctx true; mkInst "b" "ub" "" ModeUnknown zero_ctx false]
     "ua" true;
   mkTopology "r" "" "r" "off"
     [mkInst "a" "ua" "uri-a" ModeUnknown zero_ctx false; mkInst "b" "ub" "uri-b" ModeRead zero_ctx true]
     "ub" false].

Lemma merge_topologies_instances_witness :
  map (fun r => (rs_UUID r, rs_Master r, map InstMode (rs_Instances r)))
    (rss_Replicasets (mergeCConfigTopologies sample_reports))
    = [("r", MasterSingle, [ModeRW; ModeRead])] /\
  NoDup (rs_UUID <$> rss_Replicasets (mergeCConfigTopologies sample_reports)).
Proof.
  split; [reflexivity|]. apply (merge_topologies_instances sample_reports).
  repeat first [apply Forall_nil_2 | apply Forall_cons_2];
    (apply (bool_decide_unpack _); vm_compute; exact I).
Defined.

(** Instances whose socket is [down] refuse connections. *)
Definition sample_connector : Connector nat := {|
  Connect socket w :=
    if decide (socket = "down") then (Err (Errorf "refused" []), w)
    else (Ok (fun _ _ w => (Ok [], w)), w);
  Close _ w := w
|}.

Definition count_instances : @InstanceEvaler nat nat :=
  fun _ _ n w => (Ok false, S n, w).

Lemma eval_alive_is_filter_witness :
  @EvalForeachAlive nat sample_connector nat
    [mkInstanceCtx "app" "a" "down" ""; mkInstanceCtx "app" "b" "up" ""] count_instances 0 0
  = (None, 1, 0).
Proof.
  rewrite (@eval_alive_is_filter nat sample_connector nat count_instances
    (fun i => bool_decide (ConsoleSocket i <> "down"))).
  - reflexivity.
  - intros i w. simpl. case_bool_decide; case_decide; try done. eauto.
  - discriminate.
Defined.

Lemma discovery_cache_witness :
  let none := mkReplicasets StateUnknown OrchestratorUnknown [] in
  let discovery := fun w : nat => (none, @None error, S w) in
  Discovery discovery false (mkCached false none) 0 = ((none, None), mkCached true none, 1) /\
  Discovery discovery false (mkCached true none) 1 = ((none, None), mkCached true none, 1).
Proof.
  intros none discovery.
  assert (Discovery discovery false (mkCached false none) 0 = ((none, None), mkCached true none, 1))
    as E by reflexivity.
  split; [exact E|].
  destruct (discovery_cache discovery false (mkCached false none) 0 _ _ _ E)
    as [(_ & Hc & _)|(rs & err & Hd & _ & _ & _ & Hnext)]; [discriminate Hc|].
  injection Hd as <- <-. exact (Hnext 1).
Defined.
