(* ===== verification/CConfigApp.v ===== *)
(** * Applications with a centralized configuration ([cli/replicaset/cconfig.go])

    Promotion, demotion and expulsion of an instance of a running application:
    the local cluster configuration file is patched and the instances of the
    replicaset are asked to reload it.  Bootstrap of vshard. *)
From S2P Require Import Prelude GoStrings Value Config Cluster Sources Etcd Tarantool.
From S2P Require Import Validators ClusterGet Replicaset CConfigSource Topology.

Section App.
Context {W : Type} `{Yaml} `{!Services W} `{GoMapOrder} `{Connector W}.

(** The embedded Lua bodies, the decoding of a topology (see [Topology]), and
    what the program prints. *)
Variables getInstanceTopologyBody promoteElectionBody bootstrapVShardBody : string.
Variables waitRWBody waitROBody : string.
Variable decode_topology : value -> result cconfigTopology.
Variable print_values : list value -> string.
Variable err_text : error -> string.
Variable Println : error -> W -> W.
Variable log_Warn : string -> W -> W.

Definition cconfigGetShardingRolesBody : string :=
  "return require('config'):get().sharding.roles".

(** ** Requests to an instance *)
Definition cconfigPromoteElection (evaler : Evaler W) (timeout : Z) (w : W) : option error * W :=
  match evaler promoteElectionBody [] w with
  | (Err err, w') => (Some (Wrapf "failed to promote via election: %w" [] err), w')
  | (Ok _, w') => waitRW waitRWBody evaler timeout w'
  end.

Definition cconfigBootstrapVShard (evaler : Evaler W) (timeout : Z) (w : W) : option error * W :=
  match evaler bootstrapVShardBody [VInt timeout] w with
  | (Err err, w') => (Some (Wrapf "failed to bootstrap vshard: %w" [] err), w')
  | (Ok _, w') => (None, w')
  end.

Fixpoint sharding_roles (l : list value) : result (list string) :=
  match l with
  | [] => Ok []
  | VStr roleStr :: l' => rmap (cons roleStr) (sharding_roles l')
  | role :: _ => Err (Errorf "unexpected role type: %T" [TypeOf role])
  end.

Definition cconfigGetShardingRoles (evaler : Evaler W) (w : W) : result (list string) * W :=
  match evaler cconfigGetShardingRolesBody [] w with
  | (Err err, w') => (Err err, w')
  | (Ok [VSlice rolesAnyArray], w') => (sharding_roles rolesAnyArray, w')
  | (Ok [v], w') => (Err (Errorf "unexpected response type: %T" [TypeOf v]), w')
  | (Ok resp, w') =>
      (Err (Errorf "unexpected response length: %d" [FormatInt (Z.of_nat (length resp))]), w')
  end.

(** ** [reloadCConfig] *)
Definition reload_instance : InstanceEvaler (list string) :=
  fun instance evaler errored w =>
    match evaler "require('config'):reload()" [] w with
    | (Err err, w') => (Ok false, errored ++ [InstName instance], Println err w')
    | (Ok _, w') => (Ok false, errored, w')
    end.

Definition reloadCConfig (instances : list InstanceCtx) (w : W) : option error * W :=
  match EvalForeach instances reload_instance [] w with
  | (Some err, _, w') =>
      (Some (Wrapf "failed to reload instances configuration, please try to do it manually with `require('config'):reload()`: %w" [] err), w')
  | (None, [], w') => (None, w')
  | (None, errored, w') =>
      (Some (Errorf "failed to reload instance configuration for: %s, please try to do it manually with `require('config'):reload()`"
               [Join errored ", "]), w')
  end.

(** The text has a quoted word in it. *)
Definition unexpected_election_mode : string :=
  let quote := String (ascii_of_nat 34) "" in
  "unexpected election_mode: %q, " +:+ quote +:+ "candidate" +:+ quote +:+ " expected".

(** ** The application *)
Record CConfigApplication := mkApp {
  app_Instances : list InstanceCtx;
  app_collectors : DataCollectorFactory W;
  app_publishers : DataPublisherFactory W
}.
Variable c : CConfigApplication.

Definition cconfigCreateCollectorAndDataPublisher (clusterCfgPath : string)
    : result (Collector W * DataPublisher W) :=
  match NewFile (NewCollectorFactory (app_collectors c)) clusterCfgPath with
  | Err e => Err (Wrapf "failed to create a configuration collector: %w" [] e)
  | Ok collector =>
      match publisher_NewFile (app_publishers c) clusterCfgPath with
      | Err e => Err (Wrapf "failed to create a configuration publisher: %w" [] e)
      | Ok publisher => Ok (collector, publisher)
      end
  end.

Definition patchLocalCConfig (path : string) (patchFunc : Config -> result Config) (w : W)
    : option error * W :=
  match cconfigCreateCollectorAndDataPublisher path with
  | Err e => (Some e, w)
  | Ok (collector, publisher) =>
      match collect collector w with
      | (Err e, w1) => (Some (Wrapf "failed to collect a configuration to update: %w" [] e), w1)
      | (Ok config, w1) =>
          match patchFunc config with
          | Err e => (Some (Wrapf "failed to patch config: %w" [] e), w1)
          | Ok patched => publish (NewYamlConfigPublisher publisher) (Some patched) w1
          end
      end
  end.

(** A [return true, err] of an evaluated function. *)
Definition done_with (r : option error) : result bool :=
  match r with Some err => Err err | None => Ok true end.

Definition eval_one (ctx : InstanceCtx) (f : Evaler W -> W -> option error * W) (w : W)
    : option error * W :=
  match EvalAny [ctx] (fun _ evaler (s : unit) w =>
          let '(r, w') := f evaler w in (done_with r, s, w')) tt w with
  | (err, _, w') => (err, w')
  end.

(** The cluster configuration and the instance in it. *)
Definition get_instance (path name : string) (w : W)
    : result (ClusterConfig * cconfigInstance) * W :=
  match GetClusterConfig (NewCollectorFactory (app_collectors c)) path w with
  | (Err e, w1) => (Err (Wrapf "failed to get cluster config: %w" [] e), w1)
  | (Ok clusterCfg, w1) => (rmap (pair clusterCfg) (getCConfigInstance clusterCfg name), w1)
  end.

(** [patchLocalCConfig] as the last step: published unless it failed. *)
Definition patch_last (path : string) (patchFunc : Config -> result Config) (w : W)
    : bool * option error * W :=
  match patchLocalCConfig path patchFunc w with
  | (Some err, w') => (false, Some err, w')
  | (None, w') => (true, None, w')
  end.

Definition promote (instance : Instance_) (ctx : InstanceOpCtx) (w : W)
    : bool * option error * W :=
  let path := ClusterConfigPath (InstCtx instance) in
  match get_instance path (op_InstName ctx) w with
  | (Err e, w1) => (false, Some e, w1)
  | (Ok (_, inst), w1) =>
      if decide (ci_failover inst = FailoverElection) then
        let '(err, w2) := eval_one (InstCtx instance)
          (fun evaler => cconfigPromoteElection evaler (op_Timeout ctx)) w1 in
        (false, err, w2)
      else patch_last path (fun config => patchCConfigPromote config inst) w1
  end.

Definition demoteElection (ctx : InstanceCtx) (inst : cconfigInstance) (timeout : Z) (w : W)
    : bool * option error * W :=
  let path := ClusterConfigPath ctx in
  match patchLocalCConfig path
          (fun config => patchCConfigElectionMode config inst ElectionModeVoter) w with
  | (Some err, w1) => (false, Some err, w1)
  | (None, w1) =>
      match reloadCConfig [ctx] w1 with
      | (Some err, w2) => (true, Some err, w2)
      | (None, w2) =>
          match eval_one ctx (fun evaler => waitRO waitROBody evaler timeout) w2 with
          | (Some err, w3) => (true, Some err, w3)
          | (None, w3) =>
              let '(err, w4) := patchLocalCConfig path
                (fun config => patchCConfigElectionMode config inst ElectionModeCandidate) w3 in
              (true, err, w4)
          end
      end
  end.

Definition demote (instance : Instance_) (replicaset : Replicaset) (ctx : InstanceOpCtx) (w : W)
    : bool * option error * W :=
  let path := ClusterConfigPath (InstCtx instance) in
  match get_instance path (op_InstName ctx) w with
  | (Err e, w1) => (false, Some e, w1)
  | (Ok (clusterCfg, inst), w1) =>
      if decide (ci_failover inst = FailoverElection) then
        match cconfigGetElectionMode clusterCfg (op_InstName ctx) with
        | Err e => (false, Some e, w1)
        | Ok electionMode =>
            if decide (electionMode <> ElectionModeCandidate) then
              (false, Some (Errorf unexpected_election_mode
                              [ElectionMode_String electionMode]), w1)
            else if decide (LeaderUUID replicaset <> UUID instance) then
              (false, Some (Errorf "an instance must be the leader of the replicaset to demote it"
                              []), w1)
            else demoteElection (InstCtx instance) inst (op_Timeout ctx) w1
        end
      else patch_last path (fun config => patchCConfigDemote config inst) w1
  end.

Definition expel (ctx : InstanceCtx) (name : string) (w : W) : bool * option error * W :=
  let path := ClusterConfigPath ctx in
  match get_instance path name w with
  | (Err e, w1) => (false, Some e, w1)
  | (Ok (_, inst), w1) => patch_last path (fun config => patchCConfigExpel config inst) w1
  end.

(** ** Operations

    [Discovery] is [Replicaset.Discovery] over the discovery of the application;
    an operation returns the cache it leaves. *)
Definition app_discovery (w : W) : Replicasets * option error * W :=
  match application_discovery getInstanceTopologyBody decode_topology print_values
          (app_Instances c) w with
  | (Err e, w') => (mkReplicasets StateUnknown OrchestratorUnknown [], Some e, w')
  | (Ok rs, w') => (rs, None, w')
  end.

(** The contexts of the instances that were found, and the names of the
    others; [may_miss] is the instance that need not be found. *)
Definition found_contexts (instances : list Instance_) : list InstanceCtx :=
  omap (fun i => if InstanceCtxFound i then Some (InstCtx i) else None) instances.

Definition unfound_aliases (may_miss : option string) (instances : list Instance_) : list string :=
  omap (fun i =>
    if InstanceCtxFound i then None
    else if decide (may_miss = Some (Alias i)) then None else Some (Alias i)) instances.

Definition not_all_online (what : string) (unfound : list string) : error :=
  Errorf (what +:+ " should be online, %s") ["could not connect to: " +:+ Join unfound ","].

(** [errors.Join(err, other)] *)
Definition join_errors (err other : option error) : option error :=
  match err, other with
  | None, None => None
  | Some e, None => Some (ErrJoin [e])
  | None, Some o => Some (ErrJoin [o])
  | Some e, Some o => Some (ErrJoin [e; o])
  end.

(** The change, and the reload when it was published. *)
Definition change_and_reload (instances : list InstanceCtx)
    (change : W -> bool * option error * W) (w : W) : option error * W :=
  match change w with
  | (true, err, w1) =>
      let '(reload_err, w2) := reloadCConfig instances w1 in (join_errors err reload_err, w2)
  | (false, err, w1) => (err, w1)
  end.

Definition check_online (what : string) (may_miss : option string) (force : bool)
    (instances : list Instance_) (change : W -> bool * option error * W) (w : W)
    : option error * W :=
  match unfound_aliases may_miss instances with
  | [] => change_and_reload (found_contexts instances) change w
  | unfound =>
      if negb force then (Some (not_all_online what unfound), w)
      else change_and_reload (found_contexts instances) change
             (log_Warn ("could not connect to: " +:+ Join unfound ",") w)
  end.

(** The target of an operation in the discovered topology. *)
Definition find_target (name : string) (rs : Replicasets) : result (Replicaset * Instance_) :=
  match findInstanceByAlias rs name with
  | None => Err (Errorf "instance %q not found in a configured replicaset" [name])
  | Some (r, i) =>
      if negb (InstanceCtxFound i) then Err (Errorf "instance %q should be online" [name])
      else Ok (r, i)
  end.

Definition Promote (ctx : InstanceOpCtx) (cache : cachedDiscoverer) (w : W)
    : option error * cachedDiscoverer * W :=
  match Discovery app_discovery false cache w with
  | ((_, Some err), cache', w1) =>
      (Some (Wrapf "failed to get replicasets: %w" [] err), cache', w1)
  | ((rs, None), cache', w1) =>
      match find_target (op_InstName ctx) rs with
      | Err e => (Some e, cache', w1)
      | Ok (r, i) =>
          let '(err, w2) := check_online "all instances in the target replicaset" None
            (op_Force ctx) (rs_Instances r) (promote i ctx) w1 in
          (err, cache', w2)
      end
  end.

Definition Demote (ctx : InstanceOpCtx) (cache : cachedDiscoverer) (w : W)
    : option error * cachedDiscoverer * W :=
  match Discovery app_discovery false cache w with
  | ((_, Some err), cache', w1) =>
      (Some (Wrapf "failed to get replicasets: %w" [] err), cache', w1)
  | ((rs, None), cache', w1) =>
      match find_target (op_InstName ctx) rs with
      | Err e => (Some e, cache', w1)
      | Ok (r, i) =>
          let '(err, w2) := check_online "all instances in the target replicaset" None
            (op_Force ctx) (rs_Instances r) (demote i r ctx) w1 in
          (err, cache', w2)
      end
  end.

Definition Expel (ctx : InstanceOpCtx) (cache : cachedDiscoverer) (w : W)
    : option error * cachedDiscoverer * W :=
  match Discovery app_discovery false cache w with
  | ((_, Some err), cache', w1) =>
      (Some (Errorf "failed to get replicasets: %s" [err_text err]), cache', w1)
  | ((rs, None), cache', w1) =>
      match find_target (op_InstName ctx) rs with
      | Err e => (Some e, cache', w1)
      | Ok (r, i) =>
          if decide (length (rs_Instances r) = 1) then
            (Some (Errorf "not found any other instance joined to a replicaset" []), cache', w1)
          else
            let '(err, w2) := check_online "all other instances in the target replicast"
              (Some (op_InstName ctx)) (op_Force ctx) (rs_Instances r)
              (expel (InstCtx i) (op_InstName ctx)) w1 in
            (err, cache', w2)
      end
  end.

(** ** [BootstrapVShard]: the first router on which it succeeds *)
Record vshard_state := mkVShardState { lastErr : option error; found : bool }.

Definition bootstrap_vshard_on (timeout : Z) : InstanceEvaler vshard_state :=
  fun _ evaler s w =>
    match cconfigGetShardingRoles evaler w with
    | (Err err, w1) =>
        (Ok false, mkVShardState (Some (Wrapf "failed to get sharding roles: %w" [] err)) (found s), w1)
    | (Ok roles, w1) =>
        if decide ("router" ∈ roles) then
          let '(err, w2) := cconfigBootstrapVShard evaler timeout w1 in
          (Ok (match err with None => true | Some _ => false end), mkVShardState err true, w2)
        else (Ok false, s, w1)
    end.

Definition BootstrapVShard (timeout : Z) (w : W) : option error * W :=
  match EvalForeach (app_Instances c) (bootstrap_vshard_on timeout) (mkVShardState None false) w with
  | (Some err, _, w') => (Some err, w')
  | (None, s, w') =>
      match lastErr s with
      | Some err => (Some err, w')
      | None =>
          if found s then (None, w')
          else (Some (Errorf "not found any vshard router in replicaset" []), w')
      end
  end.
End App.

(** ** Operations on a single instance ([CConfigInstance]) *)
Definition Promote_instance {W} (promoteElectionBody waitRWBody : string) (evaler : Evaler W)
    (ctx : InstanceOpCtx) : W -> option error * W :=
  cconfigPromoteElection promoteElectionBody waitRWBody evaler (op_Timeout ctx).

Definition BootstrapVShard_instance {W} (bootstrapVShardBody : string) (evaler : Evaler W)
    (timeout : Z) : W -> option error * W :=
  cconfigBootstrapVShard bootstrapVShardBody evaler timeout.

Definition newErrByInstanceNotSupported (operation : string) (o : Orchestrator) : error :=
  Errorf (operation +:+ " is not supported for a single instance by %q orchestrator")
    [Orchestrator_String o].

Definition newErrByAppNotSupported (operation : string) (o : Orchestrator) : error :=
  Errorf (operation +:+ " is not supported for an application by %q orchestrator")
    [Orchestrator_String o].

Definition Demote_instance : option error :=
  Some (newErrByInstanceNotSupported "demote" OrchestratorCentralizedConfig).
Definition Expel_instance : option error :=
  Some (newErrByInstanceNotSupported "expel" OrchestratorCentralizedConfig).
Definition Bootstrap_instance : option error :=
  Some (newErrByInstanceNotSupported "bootstrap" OrchestratorCentralizedConfig).
Definition Bootstrap_app : option error :=
  Some (newErrByAppNotSupported "bootstrap" OrchestratorCentralizedConfig).
