(* ===== verification/CConfigAppProps.v ===== *)
(** * What the operations on an application guarantee

    The local cluster configuration file after a promotion, a demotion or an
    expulsion.  [file] is the text of the files, by path; the laws say which
    calls leave them alone and what reading and writing a file does. *)
From S2P Require Import Prelude GoStrings Value Config ConfigFacts Cluster Sources.
From S2P Require Import ClusterProps Etcd Tarantool Validators ClusterGet.
From S2P Require Import Replicaset CConfigSource CConfigProps Topology CConfigApp.

Section App.
Context {W : Type} `{Yaml} `{!Services W} `{GoMapOrder} `{Connector W}.
Variables getInstanceTopologyBody promoteElectionBody waitRWBody waitROBody : string.
Variable decode_topology : value -> result cconfigTopology.
Variable print_values : list value -> string.
Variable err_text : error -> string.
Variable Println : error -> W -> W.
Variable log_Warn : string -> W -> W.
Variable c : @CConfigApplication W.
Variable file : W -> string -> string.

Notation collectors := (NewCollectorFactory (app_collectors c)).

(** A call that does not write files. *)
Definition keeps {A} (f : W -> A * W) : Prop := forall w, file (f w).2 = file w.

(** Collectors, consoles and connections to services do not write the files of
    the cluster configuration; reading a file gives its text, and a successful
    publication replaces exactly that text. *)
Hypothesis collect_keeps : forall col,
  ((exists path, NewFile collectors path = Ok col) \/
   (exists cli prefix key timeout, NewEtcd collectors cli prefix key timeout = Ok col) \/
   (exists conn prefix key timeout, NewTarantool collectors conn prefix key timeout = Ok col)) ->
  keeps (collect col).
Hypothesis connect_keeps : forall addr opts, keeps (tarantool_Connect addr opts).
Hypothesis etcd_Close_keeps : forall cli w, file (etcd_Close cli w) = file w.
Hypothesis conn_Close_keeps : forall conn w, file (conn_Close conn w) = file w.
Hypothesis console_keeps : forall socket, keeps (Connect socket) /\
  forall w conn w', Connect socket w = (Ok conn, w') -> forall expr args, keeps (conn expr args).
Hypothesis Println_keeps : forall err w, file (Println err w) = file w.
Hypothesis log_keeps : forall msg w, file (log_Warn msg w) = file w.
Hypothesis Close_keeps : forall socket w, file (Close socket w) = file w.
Hypothesis collect_content : forall path col w data w',
  collector_NewFile (app_collectors c) path = Ok col -> collect_data col w = (Ok data, w') ->
  exists source revision, data = [mkData source (file w path) revision].
Hypothesis publish_content : forall path pub text w w',
  publisher_NewFile (app_publishers c) path = Ok pub ->
  publish_data pub 0 (Some text) w = (None, w') ->
  forall p, file w' p = if decide (p = path) then text else file w p.

(** The configuration in a file. *)
Definition document (w : W) (path : string) : result Config :=
  rmap (Merge NewConfig) (YamlCollector_Collect (file w path)).

(** ** Calls that leave the files alone *)
Lemma eval_loop_keeps {S} instances (f : InstanceEvaler S) skip n s w :
  (forall i evaler s, (forall expr args, keeps (evaler expr args)) ->
     forall w, file (f i evaler s w).2 = file w) ->
  file (eval_loop instances f skip n s w).2 = file w.
Proof.
  intros Hf. revert n s w. induction instances as [|i rest IH]; intros n s w; cbn [eval_loop].
  { by case_decide. }
  destruct (console_keeps (ConsoleSocket i)) as [Hc He]. specialize (Hc w).
  destruct (Connect (ConsoleSocket i) w) as [[conn|err] w1] eqn:E; cbn [snd] in Hc.
  - pose proof (Hf i conn s (He _ _ _ E) w1) as Hfi.
    destruct (f i conn s w1) as [[[[]|err] s'] w2]; cbn [snd] in *;
      rewrite ?IH, Close_keeps; congruence.
  - destruct skip; cbn [snd]; [|done]. by rewrite IH.
Qed.

Lemma EvalForeach_keeps {S} instances (f : InstanceEvaler S) skip s w :
  (forall i evaler s, (forall expr args, keeps (evaler expr args)) ->
     forall w, file (f i evaler s w).2 = file w) ->
  file (evalForeach instances f skip s w).2 = file w.
Proof. intros Hf. unfold evalForeach. destruct instances; [done|]. by apply eval_loop_keeps. Qed.

Lemma reload_instance_keeps i evaler s w :
  (forall expr args, keeps (evaler expr args)) ->
  file (reload_instance Println i evaler s w).2 = file w.
Proof.
  intros Hev. unfold reload_instance. specialize (Hev "require('config'):reload()" [] w).
  destruct (evaler _ _ _) as [[r|e] w1]; cbn [snd] in *; [done|].
  by rewrite Println_keeps.
Qed.

Lemma reload_keeps instances : keeps (reloadCConfig Println instances).
Proof.
  intros w. unfold reloadCConfig.
  pose proof (EvalForeach_keeps instances (reload_instance Println) false [] w
    (fun i e s He w => reload_instance_keeps i e s w He)) as Hk.
  unfold EvalForeach. by destruct (evalForeach _ _ _ _ _) as [[[err|] []] w'].
Qed.

Lemma eval_one_keeps ctx (f : Evaler W -> W -> option error * W) :
  (forall evaler, (forall expr args, keeps (evaler expr args)) -> keeps (f evaler)) ->
  keeps (eval_one ctx f).
Proof.
  intros Hf w. unfold eval_one, EvalAny, EvalForeachAlive.
  pose proof (EvalForeach_keeps [ctx] (fun instance evaler s w =>
    match (let '(r, w') := f evaler w in (done_with r, s, w')) with
    | (Err err, s', w') => (Err err, s', w')
    | (Ok _, s', w') => (Ok true, s', w')
    end) true tt w) as Hk.
  destruct (evalForeach _ _ _ _ _) as [[err s'] w']. apply Hk.
  intros i evaler s Hev w0. specialize (Hf evaler Hev w0).
  by destruct (f evaler w0) as [[r|] w1].
Qed.

Lemma waitRO_keeps evaler timeout :
  (forall expr args, keeps (evaler expr args)) -> keeps (waitRO waitROBody evaler timeout).
Proof.
  intros Hev w. unfold waitRO. specialize (Hev waitROBody [VInt timeout] w).
  by destruct (evaler _ _ w) as [[] w'].
Qed.

Lemma promoteElection_keeps evaler timeout :
  (forall expr args, keeps (evaler expr args)) ->
  keeps (cconfigPromoteElection promoteElectionBody waitRWBody evaler timeout).
Proof.
  intros Hev w. unfold cconfigPromoteElection, waitRW. pose proof (Hev promoteElectionBody [] w) as Hw1.
  destruct (evaler _ _ w) as [[] w1]; cbn [snd] in *; [|done].
  specialize (Hev waitRWBody [VInt timeout] w1). destruct (evaler _ _ w1) as [[] w2]; cbn [snd] in *; congruence.
Qed.

(** ** Reading the cluster configuration *)
Lemma collect_etcd_keeps cc : keeps (collectEtcdConfig collectors cc).
Proof.
  intros w. unfold collectEtcdConfig. destruct (etcd_opts _) as [opts|]; [|done].
  destruct (ConnectEtcd _ _ _ _ _ _ _ _) as [cli|]; [|done].
  destruct (NewEtcd _ _ _ _ _) as [col|] eqn:E; [|by cbn [snd]; rewrite etcd_Close_keeps].
  pose proof (collect_keeps col ltac:(eauto 10) w) as Hc.
  destruct (collect col w) as [res w']. cbn [snd] in *. by rewrite etcd_Close_keeps.
Qed.

Lemma visit_endpoint_keeps prefix timeout acc opt :
  file (visit_endpoint collectors prefix timeout acc opt).2 = file acc.2.
Proof.
  destruct acc as [st w], opt as [addr opts]. unfold visit_endpoint.
  pose proof (connect_keeps addr opts w) as Hc.
  destruct (tarantool_Connect addr opts w) as [[conn|] w1]; cbn [snd] in *; [|done].
  destruct (NewTarantool _ _ _ _ _) as [col|] eqn:E; [|done].
  pose proof (collect_keeps col ltac:(eauto 10) w1) as Hk.
  destruct (collect col w1) as [[cfg|] w2]; cbn [snd] in *; congruence.
Qed.

Lemma collect_storage_keeps cc : keeps (collectTarantoolConfig collectors cc).
Proof.
  intros w. unfold collectTarantoolConfig. set (opts := map endpoint_opts _).
  set (f := visit_endpoint _ _ _).
  assert (file (fold_left f opts (mkStorageState [] NewConfig [], w)).2 = file w) as Hf.
  { apply (fold_left_inv (fun acc => file acc.2 = file w)); [|done].
    intros acc o _ <-. apply visit_endpoint_keeps. }
  destruct (fold_left f opts _) as [st w1]. cbn [snd] in Hf.
  assert (file (fold_left (fun w conn => conn_Close conn w) (open_conns st) w1) = file w) as Hc.
  { apply (fold_left_inv (fun w' => file w' = file w)); [|done].
    intros w' conn _ <-. apply conn_Close_keeps. }
  by destruct (connectionErrors st).
Qed.

Lemma GetClusterConfig_keeps path : keeps (GetClusterConfig collectors path).
Proof.
  intros w. unfold GetClusterConfig. case_decide; [done|].
  destruct mainEnvCollector as [env|]; [|done]. unfold collect_file.
  destruct (NewFile collectors path) as [col|] eqn:E; [|done].
  pose proof (collect_keeps col ltac:(eauto 10) w) as Hk.
  destruct (collect col w) as [[cfg|] w1]; cbn [snd rwrap] in *; [|done].
  destruct (MakeClusterConfig _) as [cc|]; [|done].
  assert (forall config, file (collect_etcd_if collectors config cc w1).2 = file w) as He.
  { intros config. unfold collect_etcd_if. destruct (etcd_endpoints _); [done|].
    pose proof (collect_etcd_keeps cc w1) as Hk'.
    destruct (collectEtcdConfig collectors cc w1) as [[] w2]; cbn [snd] in *; congruence. }
  match goal with |- context [collect_etcd_if _ ?config _ _] => specialize (He config) end.
  destruct (collect_etcd_if _ _ _ _) as [[config|] w2]; cbn [snd] in *; [|done].
  assert (file (collect_storage_if collectors config cc w2).2 = file w) as Hs.
  { unfold collect_storage_if. destruct (storage_endpoints _); [done|].
    pose proof (collect_storage_keeps cc w2) as Hk'.
    destruct (collectTarantoolConfig collectors cc w2) as [[] w3]; cbn [snd] in *; congruence. }
  by destruct (collect_storage_if _ _ _ _) as [[] w3].
Qed.

(** ** Patches of the file *)
Definition patched (path : string) (patch : Config -> result Config) (w w' : W) : Prop :=
  exists cfg cfg', document w path = Ok cfg /\ patch cfg = Ok cfg' /\
    forall p, file w' p = if decide (p = path) then Config_String yaml_encode cfg' else file w p.

Lemma patchLocal_spec path patch w w' :
  patchLocalCConfig c path patch w = (None, w') -> patched path patch w w'.
Proof.
  unfold patchLocalCConfig, cconfigCreateCollectorAndDataPublisher.
  destruct (NewFile collectors path) as [col|] eqn:Ec; [|done].
  destruct (publisher_NewFile _ path) as [pub|] eqn:Ep; [|done].
  pose proof (collect_keeps col ltac:(eauto 10) w) as Hk.
  destruct (collect col w) as [[cfg|] w1] eqn:Ecol; [|done]. cbn [snd] in Hk.
  destruct (patch cfg) as [cfg'|] eqn:Epatch; [|done]. cbn [publish NewYamlConfigPublisher]. intros Hp.
  exists cfg, cfg'. split; [|split; [done|]].
  - cbn [NewFile NewCollectorFactory] in Ec.
    destruct (collector_NewFile (app_collectors c) path) as [dc|] eqn:Ed; [|done].
    injection Ec as <-. cbn [collect NewYamlCollectorDecorator] in Ecol.
    destruct (collect_data dc w) as [[data|] w2] eqn:Edata; [|done].
    destruct (collect_content _ _ _ _ _ Ed Edata) as (source & revision & ->).
    unfold document. cbn in Ecol. by destruct (YamlCollector_Collect (file w path)); simplify_eq/=.
  - intros p. rewrite (publish_content _ _ _ _ _ Ep Hp p). by rewrite Hk.
Qed.

(** A patch that sets one path: in the configuration written the path has the
    value and every path aside of it reads as before, and no other file
    changed. *)
Definition sets (path : string) (key : list string) (v : value) (w w' : W) : Prop :=
  exists cfg cfg', document w path = Ok cfg /\
    lookup_path (paths cfg') key = v /\
    (forall q, diverge key q = true -> lookup_path (paths cfg') q = lookup_path (paths cfg) q) /\
    forall p, file w' p = if decide (p = path) then Config_String yaml_encode cfg' else file w p.

Lemma patched_sets path key v (patch : Config -> result Config) w w' :
  (forall q, v <> VConfig q) -> (forall cfg, patch cfg = set_or_error cfg key v) ->
  patched path patch w w' -> sets path key v w w'.
Proof.
  intros Hv Hp (cfg & cfg' & Hd & Hc & Hf). rewrite Hp in Hc. apply set_or_error_spec in Hc; [|done].
  exists cfg, cfg'. split; [done|]. split; [by eapply lookup_set_path|]. split; [|done].
  intros q Hq. by eapply lookup_set_path_diverge.
Qed.

(** The text of a configuration reads back as the configuration. *)
Definition reads_back (cfg : Config) : Prop :=
  rmap (Merge NewConfig) (YamlCollector_Collect (Config_String yaml_encode cfg)) = Ok cfg.

Definition election_key (inst : cconfigInstance) : list string :=
  instance_path inst ++ ["replication"; "election_mode"].

Lemma election_sets path inst mode w w' :
  patchLocalCConfig c path (fun config => patchCConfigElectionMode config inst mode) w = (None, w') ->
  sets path (election_key inst) (VStr (ElectionMode_String mode)) w w'.
Proof. intros Hp%patchLocal_spec. by eapply patched_sets; [| |exact Hp]. Qed.

Lemma sets_twice path key v1 v2 w w1 w2 :
  (forall cfg cfg', document w path = Ok cfg -> set_path (paths cfg) key v1 = Some (paths cfg') ->
     reads_back cfg') ->
  (forall q, v1 <> VConfig q) ->
  patched path (fun cfg => set_or_error cfg key v1) w w1 -> sets path key v2 w1 w2 ->
  sets path key v2 w w2.
Proof.
  intros Hrb Hv (cfg & cfg1 & Hd & Hs & Hf1) (cfg1' & cfg2 & Hd1 & Hl & Hdiv & Hf2).
  apply set_or_error_spec in Hs; [|done]. specialize (Hrb _ _ Hd Hs).
  unfold document in Hd1. rewrite (Hf1 path), decide_True in Hd1 by done.
  unfold reads_back in Hrb. rewrite Hrb in Hd1. injection Hd1 as <-.
  exists cfg, cfg2. split; [done|]. split; [done|]. split.
  - intros q Hq. rewrite Hdiv by done. by eapply lookup_set_path_diverge.
  - intros p. rewrite Hf2. case_decide; [done|]. by rewrite Hf1, decide_False.
Qed.

Lemma sets_keep path key v w w1 w2 : sets path key v w w1 -> file w2 = file w1 -> sets path key v w w2.
Proof. unfold sets. by intros Hs ->. Qed.

Lemma patched_keep_r path patch w w1 w2 :
  patched path patch w w1 -> file w2 = file w1 -> patched path patch w w2.
Proof. unfold patched. by intros Hs ->. Qed.

Lemma demoteElection_outcome ctx inst timeout w published err w' :
  (forall cfg cfg', document w (ClusterConfigPath ctx) = Ok cfg ->
     set_path (paths cfg) (election_key inst) (VStr "voter") = Some (paths cfg') ->
     reads_back cfg') ->
  demoteElection waitROBody Println c ctx inst timeout w = (published, err, w') ->
  let path := ClusterConfigPath ctx in
  match err with
  | None => published = true /\ sets path (election_key inst) (VStr "candidate") w w'
  | Some e => published = false \/
      published = true /\ exists w1, sets path (election_key inst) (VStr "voter") w w1 /\
        (file w' = file w1 \/
         patchLocalCConfig c path (fun config =>
           patchCConfigElectionMode config inst ElectionModeCandidate) w1 = (Some e, w'))
  end.
Proof.
  intros Hrb. unfold demoteElection. destruct (patchLocalCConfig c _ _ w) as [[e1|] w1] eqn:E1.
  { intros [= <- <- <-]. by left. }
  pose proof (election_sets _ _ _ _ _ E1) as S1. apply patchLocal_spec in E1.
  pose proof (reload_keeps [ctx] w1) as H2.
  destruct (reloadCConfig Println [ctx] w1) as [[e2|] w2]; cbn [snd] in H2.
  { intros [= <- <- <-]. right. split; [done|]. exists w1. eauto. }
  pose proof (eval_one_keeps ctx (fun evaler => waitRO waitROBody evaler timeout)) as H3.
  specialize (H3 (fun evaler Hev w => waitRO_keeps evaler timeout Hev w) w2).
  destruct (eval_one ctx _ w2) as [[e3|] w3]; cbn [snd] in H3.
  { intros [= <- <- <-]. right. split; [done|]. exists w1. rewrite H3. eauto. }
  assert (file w3 = file w1) as Hw3 by congruence.
  destruct (patchLocalCConfig c _ _ w3) as [[e4|] w4] eqn:E4; intros [= <- <- <-].
  - right. split; [done|]. exists w3. split; [|by right]. by eapply sets_keep.
  - split; [done|]. apply election_sets in E4. eapply sets_twice; [exact Hrb|done| |exact E4].
    by eapply patched_keep_r.
Qed.

(** Demotion of an elected leader leaves election_mode candidate in the
    file when it succeeds; when a step after the first publication fails
    (reload, wait or the second patch) it reports the error as published and
    leaves election_mode voter behind. *)
Theorem demoteElection_file ctx inst timeout w published err w' :
  (forall cfg cfg', document w (ClusterConfigPath ctx) = Ok cfg ->
     set_path (paths cfg) (election_key inst) (VStr "voter") = Some (paths cfg') ->
     reads_back cfg') ->
  demoteElection waitROBody Println c ctx inst timeout w = (published, err, w') ->
  let path := ClusterConfigPath ctx in
  match err with
  | None => published = true /\ sets path (election_key inst) (VStr "candidate") w w'
  | Some e => published = false \/
      published = true /\ exists w1, sets path (election_key inst) (VStr "voter") w w1 /\
        (file w' = file w1 \/
         patchLocalCConfig c path (fun config =>
           patchCConfigElectionMode config inst ElectionModeCandidate) w1 = (Some e, w'))
  end.
Proof. apply demoteElection_outcome. Qed.

(** ** The operations of the application *)
Notation discovery := (app_discovery getInstanceTopologyBody decode_topology print_values c).

Lemma discovery_keeps cache w : file (Discovery discovery false cache w).2 = file w.
Proof.
  unfold Discovery. destruct (negb false && cached cache); [done|].
  assert (file (discovery w).2 = file w) as Hd; [|by destruct (discovery w) as [[rs []] w']].
  unfold app_discovery, application_discovery, EvalForeachAlive.
  match goal with |- context [evalForeach ?l ?f true [] w] =>
    pose proof (EvalForeach_keeps l f true [] w) as Hk;
    destruct (evalForeach l f true [] w) as [[[err|] [|t ts]] w'] end; apply Hk;
    intros i evaler s Hev w0; unfold getCConfigInstanceTopology;
    specialize (Hev getInstanceTopologyBody [] w0);
    destruct (evaler _ _ w0) as [[[|v [|? ?]]|e] w1]; cbn [snd] in *; try done;
    by destruct (decode_topology v).
Qed.

(** The instance that was read from the cluster configuration of a path. *)
Definition read_instance (path name : string) (w w1 : W) (inst : cconfigInstance) : Prop :=
  exists cc, GetClusterConfig collectors path w = (Ok cc, w1) /\ located_instance cc name inst.

Lemma get_instance_ok path name w cc inst w' :
  get_instance c path name w = (Ok (cc, inst), w') -> file w' = file w /\ read_instance path name w w' inst.
Proof.
  unfold get_instance. pose proof (GetClusterConfig_keeps path w) as Hk. unfold read_instance.
  destruct (GetClusterConfig collectors path w) as [[cc'|] w1] eqn:E; [|done]. cbn [snd] in Hk.
  destruct (getCConfigInstance cc' name) as [inst'|] eqn:Ei; [|done]. intros [= <- <- <-].
  split; [done|]. exists cc'. split; [done|]. by apply getCConfigInstance_of.
Qed.

Lemma patch_last_ok path patch w published w' :
  patch_last c path patch w = (published, None, w') -> patched path patch w w'.
Proof.
  unfold patch_last. destruct (patchLocalCConfig c path patch w) as [[e|] w1] eqn:E; [done|].
  intros [= <- <-]. by apply patchLocal_spec.
Qed.

Lemma patched_keep path patch w0 w w' : file w = file w0 -> patched path patch w w' -> patched path patch w0 w'.
Proof. unfold patched, document. by intros ->. Qed.

(** What a successful change did to the file of the target. *)
Definition mode_key (inst : cconfigInstance) : list string := instance_path inst ++ ["database"; "mode"].
Definition leader_key (inst : cconfigInstance) : list string :=
  ["groups"; ci_groupName inst; "replicasets"; ci_replicasetName inst; "leader"].

(** An election on a console: the request to promote and the wait until the instance is
    writable both succeed, and nothing else happens. *)
Definition elected (socket : string) (timeout : Z) (w w' : W) : Prop :=
  exists conn w1 r1 w2 r2 w3, Connect socket w = (Ok conn, w1) /\
    conn promoteElectionBody [] w1 = (Ok r1, w2) /\ conn waitRWBody [VInt timeout] w2 = (Ok r2, w3) /\
    w' = Close socket w3.

(** [w] is the world before, [w1] the one in which the configuration has been read. *)
Definition promoted (ictx : InstanceCtx) (timeout : Z) (inst : cconfigInstance) (w w1 w' : W) : Prop :=
  match ci_failover inst with
  | FailoverOff => sets (ClusterConfigPath ictx) (mode_key inst) (VStr "rw") w w'
  | FailoverManual => sets (ClusterConfigPath ictx) (leader_key inst) (VStr (ci_name inst)) w w'
  | FailoverElection => elected (ConsoleSocket ictx) timeout w1 w' /\ file w' = file w
  | _ => False
  end.

Definition demoted (r : Replicaset) (i : Instance_) (inst : cconfigInstance) (w w' : W) : Prop :=
  let path := ClusterConfigPath (InstCtx i) in
  match ci_failover inst with
  | FailoverOff => sets path (mode_key inst) (VStr "ro") w w'
  | FailoverElection => LeaderUUID r = UUID i /\ sets path (election_key inst) (VStr "candidate") w w'
  | _ => False
  end.

Definition expelled (ictx : InstanceCtx) (inst : cconfigInstance) (w w' : W) : Prop :=
  sets (ClusterConfigPath ictx) (instance_path inst ++ ["iproto"; "listen"]) (VMap ∅) w w'.

Lemma eval_one_ok ctx (f : Evaler W -> W -> option error * W) w w' :
  eval_one ctx f w = (None, w') ->
  exists conn w1 w2, Connect (ConsoleSocket ctx) w = (Ok conn, w1) /\ f conn w1 = (None, w2) /\
    w' = Close (ConsoleSocket ctx) w2.
Proof.
  unfold eval_one, EvalAny, EvalForeachAlive, evalForeach. cbn [eval_loop].
  destruct (Connect (ConsoleSocket ctx) w) as [[conn|e] w1] eqn:Ec; [|by rewrite decide_True].
  destruct (f conn w1) as [[e|] w2] eqn:Ef; cbn [done_with]; [done|]. intros [= <-]. eauto 10.
Qed.

Lemma promoteElection_ok (evaler : Evaler W) timeout w w' :
  cconfigPromoteElection promoteElectionBody waitRWBody evaler timeout w = (None, w') ->
  exists r1 w1 r2, evaler promoteElectionBody [] w = (Ok r1, w1) /\ evaler waitRWBody [VInt timeout] w1 = (Ok r2, w').
Proof.
  unfold cconfigPromoteElection, waitRW. destruct (evaler _ _ w) as [[r1|e] w1]; [|done].
  destruct (evaler waitRWBody _ w1) as [[r2|e] w2] eqn:E; [|done]. intros [= <-]. eauto 10.
Qed.

(** The election publishes nothing; the other promotions do. *)
Lemma promote_ok i ctx w published w' :
  promote promoteElectionBody waitRWBody c i ctx w = (published, None, w') ->
  exists w1 inst, read_instance (ClusterConfigPath (InstCtx i)) (op_InstName ctx) w w1 inst /\
    published = bool_decide (ci_failover inst <> FailoverElection) /\
    promoted (InstCtx i) (op_Timeout ctx) inst w w1 w'.
Proof.
  unfold promote. destruct (get_instance c _ _ w) as [[[cc inst]|] w1] eqn:Eg; [|done].
  apply get_instance_ok in Eg as [Hk Hn]. case_decide as E.
  - pose proof (eval_one_keeps (InstCtx i) (fun evaler => cconfigPromoteElection promoteElectionBody
      waitRWBody evaler (op_Timeout ctx))) as He.
    specialize (He (fun evaler Hev => promoteElection_keeps evaler _ Hev) w1).
    destruct (eval_one _ _ w1) as [err w2] eqn:Ee. intros [= <- -> <-]. exists w1, inst. split; [done|].
    split; [rewrite bool_decide_eq_false_2; [done|by intros []]|].
    unfold promoted. rewrite E. cbn [snd] in He. split; [|congruence].
    apply eval_one_ok in Ee as (conn & wa & wb & Hc & (r1 & wc & r2 & He1 & He2)%promoteElection_ok & ->).
    by exists conn, wa, r1, wc, r2, wb.
  - intros Hp. assert (published = true) as ->.
    { revert Hp. unfold patch_last. by destruct (patchLocalCConfig c _ _ w1) as [[e|] w2]; intros [= <-]. }
    apply patch_last_ok, (patched_keep _ _ w) in Hp; [|done]. exists w1, inst. split; [done|].
    split; [by rewrite bool_decide_eq_true_2 by done|].
    unfold promoted. destruct (ci_failover inst) eqn:Ef; try congruence;
      try (by eapply patched_sets; [| |exact Hp]; [done|];
           intros cfg; unfold patchCConfigPromote; rewrite Ef);
      destruct Hp as (cfg & cfg' & _ & Hc & _); unfold patchCConfigPromote in Hc; by rewrite Ef in Hc.
Qed.

Definition voter_reads_back (path : string) (w : W) : Prop :=
  forall inst cfg cfg', document w path = Ok cfg ->
    set_path (paths cfg) (election_key inst) (VStr "voter") = Some (paths cfg') -> reads_back cfg'.

Lemma demote_ok i r ctx w published w' :
  voter_reads_back (ClusterConfigPath (InstCtx i)) w ->
  demote waitROBody Println c i r ctx w = (published, None, w') ->
  published = true /\
  exists w1 inst, read_instance (ClusterConfigPath (InstCtx i)) (op_InstName ctx) w w1 inst /\ demoted r i inst w w'.
Proof.
  intros Hrb. unfold demote. destruct (get_instance c _ _ w) as [[[cc inst]|] w1] eqn:Eg; [|done].
  apply get_instance_ok in Eg as [Hk Hn]. case_decide as E.
  - destruct (cconfigGetElectionMode cc _) as [em|]; [|done]. repeat case_decide; try done.
    intros Hd%demoteElection_outcome.
    + destruct Hd as [Hpub Hs]. split; [done|]. exists w1, inst. split; [done|]. unfold demoted. rewrite E.
      split; [destruct (decide (LeaderUUID r = UUID i)); tauto|]. revert Hs. unfold sets, document. by rewrite Hk.
    + unfold document. rewrite Hk. apply Hrb.
  - intros Hp. assert (published = true) as ->.
    { revert Hp. unfold patch_last. by destruct (patchLocalCConfig c _ _ w1) as [[e|] w2]; intros [= <-]. }
    split; [done|]. apply patch_last_ok, (patched_keep _ _ w) in Hp; [|done]. exists w1, inst. split; [done|].
    unfold demoted. destruct (decide (ci_failover inst = FailoverOff)) as [Ef|Ef].
    + rewrite Ef. eapply patched_sets; [| |exact Hp]; [done|]. intros cfg.
      unfold patchCConfigDemote. by rewrite Ef.
    + destruct Hp as (cfg & cfg' & _ & Hc & _). unfold patchCConfigDemote in Hc. by rewrite decide_True in Hc.
Qed.

Lemma expel_ok ictx name w published w' :
  expel c ictx name w = (published, None, w') ->
  published = true /\
  exists w1 inst, read_instance (ClusterConfigPath ictx) name w w1 inst /\ expelled ictx inst w w'.
Proof.
  unfold expel. destruct (get_instance c _ _ w) as [[[cc inst]|] w1] eqn:Eg; [|done].
  apply get_instance_ok in Eg as [Hk Hn]. intros Hp. assert (published = true) as ->.
  { revert Hp. unfold patch_last. by destruct (patchLocalCConfig c _ _ w1) as [[e|] w2]; intros [= <-]. }
  split; [done|]. apply patch_last_ok, (patched_keep _ _ w) in Hp; [|done]. exists w1, inst. split; [done|].
  by eapply patched_sets; [| |exact Hp].
Qed.

(** The target of an operation: found in the replicaset, and unless the
    operation is forced so are all the others ([may_miss] apart). *)
Definition reachable (ctx : InstanceOpCtx) (may_miss : option string) (r : Replicaset)
    (i : Instance_) : Prop :=
  i ∈ rs_Instances r /\ Alias i = op_InstName ctx /\ InstanceCtxFound i = true /\
  (op_Force ctx = true \/
   forall j, j ∈ rs_Instances r -> InstanceCtxFound j = true \/ may_miss = Some (Alias j)).

Lemma unfound_nil may_miss l :
  unfound_aliases may_miss l = [] ->
  forall j, j ∈ l -> InstanceCtxFound j = true \/ may_miss = Some (Alias j).
Proof.
  intros Hu j Hj. destruct (InstanceCtxFound j) eqn:E; [by left|right].
  destruct (decide (may_miss = Some (Alias j))) as [|Hn]; [done|]. exfalso.
  assert (Alias j ∈ unfound_aliases may_miss l) as Hin; [|rewrite Hu in Hin; by apply not_elem_of_nil in Hin].
  apply list_elem_of_omap. exists j. split; [done|]. by rewrite E, decide_False.
Qed.

Lemma find_target_ok name rs r i :
  find_target name rs = Ok (r, i) ->
  r ∈ rss_Replicasets rs /\ i ∈ rs_Instances r /\ Alias i = name /\ InstanceCtxFound i = true.
Proof.
  unfold find_target, findInstanceByAlias, findInstance.
  destruct (head _) as [[r' i']|] eqn:E; [|done]. destruct (InstanceCtxFound i') eqn:Ef; [|done].
  intros [= <- <-]. apply head_Some_elem_of in E.
  apply list_elem_of_bind in E as (r0 & E & Hr0). apply list_elem_of_bind in E as (i0 & E & Hi0).
  case_bool_decide; [|by apply not_elem_of_nil in E].
  apply list_elem_of_singleton in E. by simplify_eq.
Qed.

(** What follows a change: when it was published, the instances that were found reload. *)
Definition reloaded (published : bool) (r : Replicaset) (w w' : W) : Prop :=
  if published then reloadCConfig Println (found_contexts (rs_Instances r)) w = (None, w') else w' = w.

Lemma reloaded_keeps published r w w' : reloaded published r w w' -> file w' = file w.
Proof.
  destruct published; cbn; [|by intros ->]. intros E. pose proof (reload_keeps (found_contexts (rs_Instances r)) w) as Hk.
  by rewrite E in Hk.
Qed.

Lemma change_and_reload_ok r change w w' :
  change_and_reload Println (found_contexts (rs_Instances r)) change w = (None, w') ->
  exists published w1, change w = (published, None, w1) /\ reloaded published r w1 w'.
Proof.
  unfold change_and_reload. destruct (change w) as [[[] err] w1].
  - destruct (reloadCConfig Println _ w1) as [e2 w2] eqn:E.
    intros [= Hj <-]. destruct err, e2; try done. eauto.
  - intros [= -> <-]. exists false, w1. done.
Qed.

(** The world in which the change begins: at most a warning was logged since. *)
Definition warned (w w0 : W) : Prop := w0 = w \/ exists msg, w0 = log_Warn msg w.

Lemma warned_keeps w w0 : warned w w0 -> file w0 = file w.
Proof. intros [->|[msg ->]]; [done|apply log_keeps]. Qed.

Lemma check_online_ok what may_miss force r change w w' :
  check_online Println log_Warn what may_miss force (rs_Instances r) change w = (None, w') ->
  (force = true \/ forall j, j ∈ rs_Instances r -> InstanceCtxFound j = true \/ may_miss = Some (Alias j)) /\
  exists w0 published w1, warned w w0 /\ change w0 = (published, None, w1) /\ reloaded published r w1 w'.
Proof.
  unfold check_online. destruct (unfound_aliases may_miss _) as [|a unfound] eqn:E.
  - intros (published & w1 & Hc & Hk)%change_and_reload_ok. split; [right; by apply unfound_nil|].
    exists w, published, w1. split; [by left|done].
  - destruct force; [|done]. intros (published & w1 & Hc & Hk)%change_and_reload_ok. split; [by left|].
    eexists _, published, w1. split; [right; by eexists|]. done.
Qed.

(** The instance that an operation works on: in the topology that was discovered, online,
    and in the cluster configuration of its file. *)
Definition target (ctx : InstanceOpCtx) (may_miss : option string) (cache cache' : cachedDiscoverer) (w w1 : W)
    (r : Replicaset) (i : Instance_) (inst : cconfigInstance) : Prop :=
  exists rs wd w0, Discovery discovery false cache w = ((rs, None), cache', wd) /\
    r ∈ rss_Replicasets rs /\ reachable ctx may_miss r i /\ warned wd w0 /\
    read_instance (ClusterConfigPath (InstCtx i)) (op_InstName ctx) w0 w1 inst.

Lemma sets_across path key v w0 w w1 w' :
  file w0 = file w -> file w' = file w1 -> sets path key v w0 w1 -> sets path key v w w'.
Proof. unfold sets, document. by intros -> ->. Qed.

End App.

(** ** Samples

    One instance of [sample_cluster], whose console answers everything; the
    world is the text of the files. *)
Definition sample_inst (failover : Failover) : cconfigInstance :=
  mkCConfigInstance failover "g1" "r1" "i1".
Definition sample_election_key : list string := election_key (sample_inst FailoverElection).
Definition sample_voter : value :=
  default VNil (set_path VNil sample_election_key (VStr "voter")).

(** A library that knows the sample cluster and the document of a voter. *)
Definition app_yaml : Yaml := {|
  yaml_encode v := match lookup_path v sample_election_key with VStr s => s | _ => "cluster" end;
  yaml_parse s :=
    if decide (s = "voter") then Ok (Some sample_voter)
    else if decide (s = "cluster") then Ok (Some (paths sample_global)) else Ok None;
  yaml_struct _ := Ok tt;
  yaml_map_field name node :=
    match lookup_path node [name] with VMap m => Ok (string_entries m) | _ => Ok ∅ end;
  yaml_connections _ := Ok (zero_etcd, zero_storage)
|}.

Definition app_connector : Connector (string -> string) := {|
  Connect _ w := (Ok (fun _ _ w => (Ok [VNil], w)), w);
  Close _ w := w
|}.

Definition sample_app : @CConfigApplication (string -> string) := mkApp
  [mkInstanceCtx "app" "i1" "socket" "config.yaml"]
  (mkDataCollectorFactory
     (fun path => Ok (mkDataCollector (fun w => (Ok [mkData path (w path) 0], w))))
     (fun _ _ _ _ => Err (Errorf "no etcd" [])) (fun _ _ _ _ => Err (Errorf "no storage" [])))
  (mkDataPublisherFactory
     (fun path => Ok (mkDataPublisher (fun _ data w =>
        (None, fun p => if decide (p = path) then default "" data else w p))))
     (fun _ _ _ _ => Err (Errorf "no etcd" [])) (fun _ _ _ _ => Err (Errorf "no storage" []))).

Definition sample_topology : cconfigTopology :=
  mkTopology "r" "u1" "r1" "off" [mkInst "i1" "u1" "uri" ModeUnknown zero_ctx false] "u1" true.

(** The laws hold: nothing but the publisher writes. *)
Ltac sample_laws := repeat first
  [ progress intros
  | match goal with
    | H : _ \/ _ |- _ => destruct H
    | H : exists _, _ |- _ => destruct H
    | H : Ok _ = Ok _ |- _ => injection H as <-
    | H : Err _ = Ok _ |- _ => discriminate H
    | H : NewFile _ _ = Ok _ |- _ => injection H as <-
    | H : NewEtcd _ _ _ _ _ = Ok _ |- _ => discriminate H
    | H : NewTarantool _ _ _ _ _ = Ok _ |- _ => discriminate H
    | H : Connect _ _ = (Ok _, _) |- _ => injection H as <- <-
    | H : collector_NewFile _ _ = Ok _ |- _ => injection H as <-
    | H : publisher_NewFile _ _ = Ok _ |- _ => injection H as <-
    | H : collect_data _ _ = (Ok _, _) |- _ => injection H as <- <-
    | H : publish_data _ _ _ _ = (None, _) |- _ => injection H as <-
    end
  | split | (eexists _, _; reflexivity) | reflexivity ].

Lemma demoteElection_file_witness :
  exists w', @demoteElection (string -> string) app_yaml app_connector "wait" (fun _ w => w) sample_app
    (mkInstanceCtx "app" "i1" "socket" "config.yaml") (sample_inst FailoverElection) 3 (fun _ => "")
    = (true, None, w') /\
  @sets (string -> string) app_yaml (fun w => w) "config.yaml" sample_election_key (VStr "candidate")
    (fun _ => "") w'.
Proof.
  destruct (@demoteElection (string -> string) app_yaml app_connector "wait" (fun _ w => w) sample_app
    (mkInstanceCtx "app" "i1" "socket" "config.yaml") (sample_inst FailoverElection) 3 (fun _ => ""))
    as [[published err] w'] eqn:E.
  assert (published = true /\ err = None) as [-> ->].
  { vm_compute in E. injection E as <- <- _. split; reflexivity. }
  exists w'. split; [reflexivity|].
  assert (forall cfg cfg', @document _ app_yaml (fun w => w) (fun _ => "") "config.yaml" = Ok cfg ->
    set_path (paths cfg) sample_election_key (VStr "voter") = Some (paths cfg') ->
    @reads_back app_yaml cfg') as Hrb.
  { intros cfg cfg' [= <-] Hs. unfold reads_back.
    replace cfg' with (mkConfig sample_voter) by (destruct cfg'; simpl in Hs; by injection Hs as <-).
    assert (Config_String (@yaml_encode app_yaml) (mkConfig sample_voter) = "voter") as ->
      by (vm_compute; reflexivity).
    assert (@YamlCollector_Collect app_yaml "voter"
      = Ok (mkConfig (deepCastStringMapToAnyMap sample_voter))) as -> by reflexivity.
    cbn [rmap].
    rewrite (cast_fixed_spec sample_voter) by (vm_compute; reflexivity).
    rewrite Merge_mergev by (vm_compute; tauto). reflexivity. }
  refine (proj2 (@demoteElection_file (string -> string) app_yaml app_connector "wait" (fun _ w => w)
    sample_app (fun w => w) _ _ _ _ _ _ _ _ _ _ _ None _ Hrb E)); by sample_laws.
Defined.

Definition sample_promote (w : string -> string) :=
  @Promote (string -> string) app_yaml (sample_services (fun _ => None)) canonical_order app_connector
    "topology" "promote" "wait" (fun _ => Ok sample_topology) (fun _ => "") (fun _ w => w)
    (fun _ w => w) sample_app (mkInstanceOpCtx "i1" false 3)
    (mkCached false (mkReplicasets StateUnknown OrchestratorUnknown [])) w.

