(* ===== verification/Cartridge.v ===== *)
(** * The cartridge orchestrator ([cli/replicaset/cartridge.go])

    Discovery over the topology that an instance reports, promotion, expulsion
    and bootstrap of replicasets and instances.  The embedded Lua bodies, the
    decoding of their answers and of YAML and new UUIDs are parameters; the
    arguments of a request are the values that msgpack encodes. *)
From S2P Require Import Prelude GoStrings GoPath GoOs Value Validators Replicaset Topology CConfigApp CConfigSource.
From S2P Require Import Regexp Version.
Local Open Scope go_scope.

Definition defaultCartridgeReplicasetsFilename : string := "replicasets.yml".
Definition defaultCartridgeInstancesFilename : string := "instances.yml".
Definition cartridgeGetVersionBody : string := "return require('cartridge').VERSION or '1'".

Record cartridgeTopology := mkCartridgeTopology {
  ct_Failover : string; ct_Provider : string; ct_Replicasets : list Replicaset;
  ct_IsCritical : bool; ct_IsBootstrapped : bool
}.
Definition zero_cartridge_topology : cartridgeTopology := mkCartridgeTopology "" "" [] false false.

(** [cartridgeInstance] *)
Record cartridgeInstance := mkCartridgeInstance {
  ci_Failover : Failover; ci_ReplicasetUUID : string; ci_InstanceUUID : string
}.

(** ** Options of the requests *)
Record cartridgeJoinServersOpts := mkJoinServersOpts { join_URI : string; join_UUID : option string }.

Record cartridgeEditReplicasetsOpts := mkEditReplicasetsOpts {
  er_UUID : option string; er_Alias : option string; er_Roles : list string; er_AllRW : option bool;
  er_Weight : option spec_float; er_VshardGroup : option string;
  er_JoinServers : list cartridgeJoinServersOpts; er_FailoverPriority : list string
}.

(** The field of a struct with [omitempty]. *)
Definition field {A} (name : string) (encode : A -> value) (v : option A) : list (string * value) :=
  match v with Some a => [(name, encode a)] | None => [] end.
Definition list_field {A} (name : string) (encode : A -> value) (l : list A) : list (string * value) :=
  match l with [] => [] | _ => [(name, VSlice (map encode l))] end.
Definition struct (fields : list (string * value)) : value := VStrMap (list_to_map fields).

Definition encode_join (o : cartridgeJoinServersOpts) : value :=
  struct ([("uri", VStr (join_URI o))] ++ field "uuid" VStr (join_UUID o)).

Definition encode_edit (o : cartridgeEditReplicasetsOpts) : value :=
  struct (field "uuid" VStr (er_UUID o) ++ field "alias" VStr (er_Alias o) ++
          list_field "roles" VStr (er_Roles o) ++ field "all_rw" VBool (er_AllRW o) ++
          field "weight" VFloat (er_Weight o) ++ field "vshard_group" VStr (er_VshardGroup o) ++
          list_field "join_servers" encode_join (er_JoinServers o) ++
          list_field "failover_priority" VStr (er_FailoverPriority o)).

(** Of [cartridgeEditInstancesOpts] the program sets two fields. *)
Definition encode_expel (uuid : string) : value :=
  struct [("uuid", VStr uuid); ("expelled", VBool true)].

Definition encode_promote (replicaset instance : string) (force : bool) : value :=
  struct [("replicaset_leaders", struct [(replicaset, VStr instance)]); ("force_inconsistency", VBool force);
          ("skip_error_on_change", VBool false)].

(** ** Configuration files *)
Record cartridgeReplicasetConfig := mkReplicasetConfig {
  rc_Alias : string; rc_Instances : list string; rc_Roles : list string; rc_Weight : option spec_float;
  rc_AllRW : option bool; rc_VShardGroup : option string
}.
Record cartridgeInstanceConfig := mkInstanceConfig_ { ic_URI : string }.

Section Cartridge.
Context {W : Type} `{Connector W} `{GoMapOrder} `{OS W}.
Variables getTopologyReplicasetsBody getInstanceInfoBody editReplicasetsBody editInstancesBody
  failoverPromoteBody waitHealthyBody bootstrapVShardBody waitRWBody : string.
(** [mapstructure.Decode] of a topology and of the information of instances. *)
Variable decode_topology : value -> result cartridgeTopology.
Variable decode_info : list value -> result (list (string * bool)).
Variable print_values : list value -> string.
Variable err_text : error -> string.
(** [uuid.New], and [yaml.Unmarshal] of the two files. *)
Variable new_uuid : W -> string * W.
Variable parse_replicasets : string -> result (gmap string cartridgeReplicasetConfig).
Variable parse_instances : string -> result (gmap string cartridgeInstanceConfig).
Variable AppDir : InstanceCtx -> string.

(** ** Requests *)
Definition getCartridgeTopology (evaler : Evaler W) (w : W) : result cartridgeTopology * W :=
  match evaler getTopologyReplicasetsBody [] w with
  | (Err err, w) => (Err err, w)
  | (Ok [d], w) =>
      (match decode_topology d with
       | Err err => Err (Wrapf "failed to parse a response: %w" [] err)
       | Ok t => Ok (mkCartridgeTopology (ct_Failover t) (ct_Provider t) (ct_Replicasets t) (ct_IsCritical t)
                       (bool_decide (ct_Replicasets t <> [])))
       end, w)
  | (Ok data, w) => (Err (Errorf "unexpected response: %v" [print_values data]), w)
  end.

Definition getCartridgeReplicasets (topology : cartridgeTopology) : Replicasets :=
  if ct_IsBootstrapped topology then
    let failover := ParseFailover (ct_Failover topology) in
    let provider := ParseStateProvider (ct_Provider topology) in
    mkReplicasets StateBootstrapped OrchestratorCartridge
      (map (fun r => mkReplicaset_ (rs_UUID r) (LeaderUUID r) (rs_Alias r) (Roles r) (rs_Master r) failover
                       provider (rs_Instances r)) (ct_Replicasets topology))
  else mkReplicasets StateUninitialized OrchestratorCartridge (ct_Replicasets topology).

Definition getCartridgeInstanceInfo (evaler : Evaler W) (w : W) : result (string * bool) * W :=
  match evaler getInstanceInfoBody [] w with
  | (Err err, w) => (Err err, w)
  | (Ok data, w) =>
      (match decode_info data with
       | Err err => Err (Wrapf "failed to parse a response: %w" [] err)
       | Ok [info] => Ok info
       | Ok _ => Err (Errorf "unexpected response" [])
       end, w)
  end.

Definition update_info (uuid : string) (rw : bool) (ictx : option InstanceCtx) (i : Instance_) : Instance_ :=
  if decide (UUID i = uuid) then
    let i := set_mode i (if rw then ModeRW else ModeRead) in
    match ictx with Some ctx => set_ctx i ctx true | None => i end
  else i.

Definition updateCartridgeInstance (evaler : Evaler W) (ictx : option InstanceCtx) (replicasets : Replicasets) (w : W)
    : Replicasets * option error * W :=
  match getCartridgeInstanceInfo evaler w with
  | (Err err, w) => (replicasets, Some err, w)
  | (Ok (uuid, rw), w) =>
      (mkReplicasets (rss_State replicasets) (rss_Orchestrator replicasets)
         (map (fun r => with_instances r (map (update_info uuid rw ictx) (rs_Instances r)))
            (rss_Replicasets replicasets)), None, w)
  end.

Definition getCartridgeVersion (evaler : Evaler W) (w : W) : result string * W :=
  let failed err := Wrapf "failed to get cartridge version: %w" [] err in
  match evaler cartridgeGetVersionBody [] w with
  | (Err err, w) => (Err (failed err), w)
  | (Ok [VStr version], w) => (Ok version, w)
  | (Ok [v], w) => (Err (Errorf "failed to get cartridge version: unexpected version type: %T" [TypeOf v]), w)
  | (Ok _, w) => (Err (Errorf "failed to get cartridge version: unexpected response length" []), w)
  end.

Definition getCartridgeMajorVersion (evaler : Evaler W) (w : W) : result Z * W :=
  match getCartridgeVersion evaler w with
  | (Err err, w) => (Err err, w)
  | (Ok ver, w) =>
      (if decide (ver = "scm-1") then Ok 2%Z
       else if decide (ver = "unknown") then Err (Errorf "cartridge version is unknown" [])
       else rmap Major (Parse ver), w)
  end.

Definition cartridgeHealthCheckIsNeeded (evaler : Evaler W) (w : W) : result bool * W :=
  match getCartridgeMajorVersion evaler w with
  | (Err err, w) => (Err err, w)
  | (Ok major, w) => (Ok (major <? 2)%Z, w)
  end.

Definition cartridgeWaitHealthy (evaler : Evaler W) (timeout : Z) (w : W) : option error * W :=
  match evaler waitHealthyBody [VInt timeout] w with
  | (Err err, w) => (Some (Wrapf "failed to wait healthy: %w" [] err), w)
  | (Ok _, w) => (None, w)
  end.

(** What an edit does after its request. *)
Definition edit_and_wait (body : string) (arg : value) (what : string) (evaler : Evaler W) (timeout : Z) (w : W)
    : option error * W :=
  match evaler body [arg] w with
  | (Err err, w) => (Some (Wrapf ("failed to edit " +:+ what +:+ ": %w") [] err), w)
  | (Ok _, w) =>
      match cartridgeHealthCheckIsNeeded evaler w with
      | (Err err, w) => (Some err, w)
      | (Ok true, w) => cartridgeWaitHealthy evaler timeout w
      | (Ok false, w) => (None, w)
      end
  end.

Definition cartridgeEditReplicasets (evaler : Evaler W) (opts : list cartridgeEditReplicasetsOpts) (timeout : Z)
    : W -> option error * W :=
  edit_and_wait editReplicasetsBody (VSlice (map encode_edit opts)) "replicasets" evaler timeout.

Definition cartridgeEditInstances (evaler : Evaler W) (opts : list value) (timeout : Z) : W -> option error * W :=
  edit_and_wait editInstancesBody (VSlice opts) "instances" evaler timeout.

Definition cartridgeFailoverPromote (evaler : Evaler W) (opts : value) (w : W) : option error * W :=
  match evaler failoverPromoteBody [opts] w with
  | (Err err, w) => (Some (Wrapf "failed to failover promote: %w" [] err), w)
  | (Ok _, w) => (None, w)
  end.

Definition cartridgePromote (evaler : Evaler W) (inst : cartridgeInstance) (force : bool) (timeout : Z) (w : W)
    : option error * W :=
  let requested :=
    match ci_Failover inst with
    | FailoverOff | FailoverEventual =>
        cartridgeEditReplicasets evaler
          [mkEditReplicasetsOpts (Some (ci_ReplicasetUUID inst)) None [] None None None []
             [ci_InstanceUUID inst]] timeout w
    | FailoverElection | FailoverStateful =>
        cartridgeFailoverPromote evaler
          (encode_promote (ci_ReplicasetUUID inst) (ci_InstanceUUID inst) force) w
    | _ => (Some (Errorf "unexpected failover" []), w)
    end in
  match requested with
  | (Some err, w) => (Some err, w)
  | (None, w) => waitRW waitRWBody evaler timeout w
  end.

Definition cartridgeBootstrapVShard (evaler : Evaler W) (timeout : Z) (w : W) : option error * W :=
  match evaler bootstrapVShardBody [VInt timeout] w with
  | (Err err, w) => (Some err, w)
  | (Ok _, w) => (None, w)
  end.

Definition wrapCartridgeVShardBoostrapError (err : option error) : option error :=
  match err with
  | Some e =>
      if Contains (err_text e) "Sharding config is empty" then
        Some (Wrapf "it's possible that there are no running instances of some configured vshard groups. In this case existing storages are bootstrapped, but Cartridge returns an error: %w" [] e)
      else err
  | None => None
  end.

(** ** [CartridgeInstance] *)
Definition instance_of (r : Replicaset) (i : Instance_) : cartridgeInstance :=
  mkCartridgeInstance (rs_Failover r) (rs_UUID r) (UUID i).

Definition CartridgeInstance_discovery (evaler : Evaler W) (w : W) : Replicasets * option error * W :=
  match getCartridgeTopology evaler w with
  | (Err err, w) => (mkReplicasets StateUnknown OrchestratorCartridge [], Some err, w)
  | (Ok topology, w) =>
      let replicasets := getCartridgeReplicasets topology in
      if decide (rss_Replicasets replicasets = []) then (recalculateMasters replicasets, None, w)
      else
        match updateCartridgeInstance evaler None replicasets w with
        | (replicasets, Some err, w) => (replicasets, Some err, w)
        | (replicasets, None, w) => (recalculateMasters replicasets, None, w)
        end
  end.

Definition CartridgeInstance_Promote (evaler : Evaler W) (ctx : InstanceOpCtx) (cache : cachedDiscoverer) (w : W)
    : option error * cachedDiscoverer * W :=
  match Discovery (CartridgeInstance_discovery evaler) false cache w with
  | ((_, Some err), cache, w) => (Some err, cache, w)
  | ((rs, None), cache, w) =>
      match getCartridgeInstanceInfo evaler w with
      | (Err err, w) => (Some err, cache, w)
      | (Ok (uuid, _), w) =>
          match findInstance rs (fun i => bool_decide (UUID i = uuid)) with
          | None => (Some (Errorf "instance with uuid %q not found in a configured replicaset" [uuid]), cache, w)
          | Some (r, i) =>
              let '(err, w) := cartridgePromote evaler (instance_of r i) (op_Force ctx) (op_Timeout ctx) w in
              (err, cache, w)
          end
      end
  end.

Definition CartridgeInstance_Demote : option error :=
  Some (newErrByInstanceNotSupported "demote" OrchestratorCartridge).
Definition CartridgeInstance_Expel : option error :=
  Some (newErrByInstanceNotSupported "expel" OrchestratorCartridge).
Definition CartridgeInstance_Bootstrap : option error :=
  Some (newErrByInstanceNotSupported "bootstrap" OrchestratorCartridge).

Definition CartridgeInstance_BootstrapVShard (evaler : Evaler W) (timeout : Z) (w : W) : option error * W :=
  let '(err, w) := cartridgeBootstrapVShard evaler timeout w in (wrapCartridgeVShardBoostrapError err, w).

(** ** [CartridgeApplication] *)

(** Which of two topologies is kept. *)
Definition keep_topology (topology newTopology : cartridgeTopology) : cartridgeTopology :=
  if ct_IsBootstrapped topology then if ct_IsBootstrapped newTopology then newTopology else topology
  else newTopology.

Definition CartridgeApplication_discovery (instances : list InstanceCtx) (w : W) : Replicasets * option error * W :=
  match EvalForeachAlive instances (fun _ evaler topology w =>
          match getCartridgeTopology evaler w with
          | (Err err, w) => (Err err, topology, w)
          | (Ok newTopology, w) =>
              let topology := keep_topology topology newTopology in
              (Ok (ct_IsBootstrapped topology && negb (ct_IsCritical topology)), topology, w)
          end) zero_cartridge_topology w with
  | (Some err, _, w) =>
      (mkReplicasets StateUnknown OrchestratorCartridge [], Some (Wrapf "failed to get topology: %w" [] err), w)
  | (None, topology, w) =>
      let '(err, replicasets, w) :=
        EvalForeachAlive instances (fun ictx evaler replicasets w =>
          match updateCartridgeInstance evaler (Some ictx) replicasets w with
          | (replicasets, Some err, w) => (Err err, replicasets, w)
          | (replicasets, None, w) => (Ok false, replicasets, w)
          end) (getCartridgeReplicasets topology) w in
      (recalculateMasters replicasets, err, w)
  end.

Definition CartridgeApplication_Promote (instances : list InstanceCtx) (ctx : InstanceOpCtx)
    (cache : cachedDiscoverer) (w : W) : option error * cachedDiscoverer * W :=
  match Discovery (CartridgeApplication_discovery instances) false cache w with
  | ((_, Some err), cache, w) => (Some err, cache, w)
  | ((rs, None), cache, w) =>
      match findInstanceByAlias rs (op_InstName ctx) with
      | None => (Some (Errorf "instance %q not found in a configured replicaset" [op_InstName ctx]), cache, w)
      | Some (r, i) =>
          if negb (InstanceCtxFound i) then (Some (Errorf "target instance should be online" []), cache, w)
          else
            let '(err, w) := cartridgePromote (MakeInstanceEvalFunc (InstCtx i)) (instance_of r i)
                               (op_Force ctx) (op_Timeout ctx) w in
            (err, cache, w)
      end
  end.

Definition CartridgeApplication_Demote : option error :=
  Some (newErrByAppNotSupported "demote" OrchestratorCartridge).

(** *** Expulsion *)
Record expel_state := mkExpelState { es_found : bool; es_lastErr : option error }.

Definition expel_on (name uuid : string) (timeout : Z) : InstanceEvaler expel_state :=
  fun instance evaler s w =>
    if decide (InstName instance = name) then (Ok false, s, w)
    else
      match cartridgeEditInstances evaler [encode_expel uuid] timeout w with
      | (Some err, w) => (Ok false, mkExpelState true (Some err), w)
      | (None, w) => (Ok true, mkExpelState true None, w)
      end.

Definition cartridgeExpel (instances : list InstanceCtx) (discovered : Replicasets) (name uuid : string)
    (timeout : Z) (w : W) : option error * W :=
  let failed e := Some (Wrapf "failed to expel instance: %w" [] e) in
  match EvalForeachAliveDiscovered instances discovered (expel_on name uuid timeout)
          (mkExpelState false None) w with
  | (Some err, _, w) => (failed err, w)
  | (None, mkExpelState _ (Some err), w) => (failed err, w)
  | (None, mkExpelState false None, w) =>
      (Some (Errorf "not found any other instance joined to cluster" []), w)
  | (None, mkExpelState true None, w) => (None, w)
  end.

(** The inner [break] leaves one replicaset: the instance of the last replicaset
    that has one of that alias. *)
Definition last_uuid (rs : Replicasets) (alias : string) : option string :=
  fold_left (fun found r =>
    match head (filter (fun i => Alias i = alias) (rs_Instances r)) with
    | Some i => Some (UUID i)
    | None => found
    end) (rss_Replicasets rs) None.

Definition CartridgeApplication_Expel (instances : list InstanceCtx) (ctx : InstanceOpCtx)
    (cache : cachedDiscoverer) (w : W) : option error * cachedDiscoverer * W :=
  match Discovery (CartridgeApplication_discovery instances) false cache w with
  | ((_, Some err), cache, w) => (Some (Wrapf "failed to discovery: %w" [] err), cache, w)
  | ((rs, None), cache, w) =>
      match last_uuid rs (op_InstName ctx) with
      | None => (Some (Errorf "instance %q not found in a configured replicaset" [op_InstName ctx]), cache, w)
      | Some uuid =>
          let '(err, w) := cartridgeExpel instances rs (op_InstName ctx) uuid (op_Timeout ctx) w in
          (err, cache, w)
      end
  end.

Definition CartridgeApplication_BootstrapVShard (instances : list InstanceCtx) (timeout : Z)
    (cache : cachedDiscoverer) (w : W) : option error * cachedDiscoverer * W :=
  match Discovery (CartridgeApplication_discovery instances) false cache w with
  | ((_, Some err), cache, w) => (Some (Wrapf "failed to discovery: %w" [] err), cache, w)
  | ((rs, None), cache, w) =>
      let failed e := Some (Wrapf "failed to bootstrap vshard: %w" [] e) in
      match EvalForeachAliveDiscovered instances rs (fun _ evaler (_ : option error) w =>
              let '(lastErr, w) := cartridgeBootstrapVShard evaler timeout w in
              (Ok (match lastErr with None => true | Some _ => false end), lastErr, w)) None w with
      | (Some err, _, w) => (failed err, cache, w)
      | (None, lastErr, w) =>
          (match wrapCartridgeVShardBoostrapError lastErr with Some e => failed e | None => None end, cache, w)
      end
  end.

(** *** Bootstrap: the configuration files *)
Definition getCartridgeReplicasetsConfig (w : W) (appDir filename : string)
    : result (gmap string cartridgeReplicasetConfig * string) :=
  let filename := if decide (filename = "") then filepath_Join [appDir; defaultCartridgeReplicasetsFilename]
                  else filename in
  filename <-? GetYamlFileName w filename true;;
  content <-? ReadFile w filename;;
  cfg <-? parse_replicasets content;;
  Ok (cfg, filename).

(** The instances of the application, without its prefix. *)
Definition app_instances (appName : string) (rawCfg : gmap string cartridgeInstanceConfig)
    : gmap string cartridgeInstanceConfig :=
  fold_left (fun cfg kv =>
    match CutPrefix kv.1 (appName +:+ ".") with
    | Some instName => <[instName := kv.2]> cfg
    | None => cfg
    end) (range_map rawCfg) ∅.

Definition getCartridgeInstancesConfig (w : W) (appName appDir : string)
    : result (gmap string cartridgeInstanceConfig) :=
  filename <-? GetYamlFileName w (filepath_Join [appDir; defaultCartridgeInstancesFilename]) true;;
  content <-? ReadFile w filename;;
  rmap (app_instances appName) (parse_instances content).

(** *** Bootstrap: the options of an edit

    The servers to join are the instances without a UUID, each of which gets a
    new one that the map of UUIDs keeps. *)
Fixpoint getCartridgeJoinServersOpts (instancesCfg : gmap string cartridgeInstanceConfig)
    (instances : list string) (instancesUUID : gmap string string) (w : W)
    : result (list cartridgeJoinServersOpts) * gmap string string * W :=
  match instances with
  | [] => (Ok [], instancesUUID, w)
  | instance :: instances =>
      match instancesUUID !! instance with
      | Some _ => getCartridgeJoinServersOpts instancesCfg instances instancesUUID w
      | None =>
          match instancesCfg !! instance with
          | None => (Err (Errorf "instance %q not found in the instance config" [instance]), instancesUUID, w)
          | Some cfg =>
              let '(uuid, w) := new_uuid w in
              let '(r, m, w) :=
                getCartridgeJoinServersOpts instancesCfg instances (<[instance := uuid]> instancesUUID) w in
              (rmap (cons (mkJoinServersOpts (ic_URI cfg) (Some uuid))) r, m, w)
          end
      end
  end.

Fixpoint failover_priority (instances : list string) (instanceUUID : gmap string string) : result (list string) :=
  match instances with
  | [] => Ok []
  | inst :: instances =>
      match instanceUUID !! inst with
      | None => Err (Errorf "instance %q uuid not found" [inst])
      | Some uuid => rmap (cons uuid) (failover_priority instances instanceUUID)
      end
  end.

(** The UUIDs that discovery knows. *)
Definition known_uuids (discovered : Replicasets) : gmap string string * gmap string string :=
  (fold_left (fun m r => <[rs_Alias r := rs_UUID r]> m) (rss_Replicasets discovered) ∅,
   fold_left (fun m r => fold_left (fun m i => <[Alias i := UUID i]> m) (rs_Instances r) m)
     (rss_Replicasets discovered) ∅).

Fixpoint edit_options (replicasetCfg : list (string * cartridgeReplicasetConfig))
    (instancesCfg : gmap string cartridgeInstanceConfig) (replicasetUUID instanceUUID : gmap string string) (w : W)
    : result (list cartridgeEditReplicasetsOpts) * W :=
  match replicasetCfg with
  | [] => (Ok [], w)
  | (rname, rcfg) :: replicasetCfg =>
      match getCartridgeJoinServersOpts instancesCfg (rc_Instances rcfg) instanceUUID w with
      | (Err err, _, w) => (Err err, w)
      | (Ok join, instanceUUID, w) =>
          match failover_priority (rc_Instances rcfg) instanceUUID with
          | Err err => (Err err, w)
          | Ok priority =>
              let opts := mkEditReplicasetsOpts (replicasetUUID !! rname) (Some rname) (rc_Roles rcfg)
                            (rc_AllRW rcfg) (rc_Weight rcfg) (rc_VShardGroup rcfg) join priority in
              let '(r, w) := edit_options replicasetCfg instancesCfg replicasetUUID instanceUUID w in
              (rmap (cons opts) r, w)
          end
      end
  end.

Definition updateCartridgeReplicasets (evaler : Evaler W) (discovered : Replicasets)
    (replicasetCfg : gmap string cartridgeReplicasetConfig) (instancesCfg : gmap string cartridgeInstanceConfig)
    (timeout : Z) (w : W) : option error * W :=
  let '(replicasetUUID, instanceUUID) := known_uuids discovered in
  match edit_options (range_map replicasetCfg) instancesCfg replicasetUUID instanceUUID w with
  | (Err err, w) => (Some err, w)
  | (Ok editOpts, w) => cartridgeEditReplicasets evaler editOpts timeout w
  end.

(** *** Bootstrap of replicasets

    Before version 2 the first replicaset that [range] gives is made with a
    single instance; the rest of the configuration follows. *)
Definition initial_replicaset (replicasetsCfg : gmap string cartridgeReplicasetConfig)
    : result (gmap string cartridgeReplicasetConfig * gmap string cartridgeReplicasetConfig) :=
  match range_map replicasetsCfg with
  | [] => Err (Errorf "empty replicasets config" [])
  | (rname, cfg) :: _ =>
      let with_insts l := mkReplicasetConfig (rc_Alias cfg) l (rc_Roles cfg) (rc_Weight cfg) (rc_AllRW cfg) (rc_VShardGroup cfg) in
      match rc_Instances cfg with
      | [] => Err (Errorf "replicaset %q is empty" [rname])
      | first :: rest =>
          Ok ({[rname := with_insts [first]]},
              match rest with
              | [] => delete rname replicasetsCfg
              | _ => <[rname := with_insts rest]> replicasetsCfg
              end)
      end
  end.

Definition bootstrapReplicasets (evaler : Evaler W) (discovered : Replicasets)
    (replicasetsCfg : gmap string cartridgeReplicasetConfig) (instancesCfg : gmap string cartridgeInstanceConfig)
    (timeout : Z) (w : W) : option error * W :=
  match getCartridgeMajorVersion evaler w with
  | (Err err, w) => (Some (Wrapf "failed to get cartridge major version: %w" [] err), w)
  | (Ok majorVer, w) =>
      if (majorVer <? 2)%Z && negb (bool_decide (rss_State discovered = StateBootstrapped)) then
        match initial_replicaset replicasetsCfg with
        | Err err => (Some err, w)
        | Ok (initialCfg, replicasetsCfg) =>
            match updateCartridgeReplicasets evaler discovered initialCfg instancesCfg timeout w with
            | (Some err, w) => (Some err, w)
            | (None, w) => updateCartridgeReplicasets evaler discovered replicasetsCfg instancesCfg timeout w
            end
        end
      else updateCartridgeReplicasets evaler discovered replicasetsCfg instancesCfg timeout w
  end.

(** *** Bootstrap of an instance

    The loop leaves at the replicaset of the name, before its instances are
    looked at: only the replicasets before it are. *)
Fixpoint join_target (rs : list Replicaset) (instanceName replicasetName : string) : result string :=
  match rs with
  | [] => Err (Errorf "a replicaset %q not found in the bootstrapped cluster" [replicasetName])
  | r :: rs =>
      if decide (rs_Alias r = replicasetName) then Ok (rs_UUID r)
      else if existsb (fun i => bool_decide (Alias i = instanceName)) (rs_Instances r) then
        Err (Errorf "instance %q is bootstrapped already" [instanceName])
      else join_target rs instanceName replicasetName
  end.

Definition bootstrapInstance (instanceName replicasetName : string) (evaler : Evaler W) (discovered : Replicasets)
    (instancesCfg : gmap string cartridgeInstanceConfig) (timeout : Z) (w : W) : option error * W :=
  if decide (replicasetName = "") then (Some (Errorf "a replicaset name is empty" []), w)
  else
    match join_target (rss_Replicasets discovered) instanceName replicasetName with
    | Err err => (Some err, w)
    | Ok replicasetUUID =>
        match getCartridgeJoinServersOpts instancesCfg [instanceName] ∅ w with
        | (Err err, _, w) => (Some err, w)
        | (Ok joinOpts, _, w) =>
            cartridgeEditReplicasets evaler
              [mkEditReplicasetsOpts (Some replicasetUUID) None [] None None None joinOpts []] timeout w
        end
    end.

(** *** [Bootstrap] *)
Record BootstrapCtx := mkBootstrapCtx {
  bc_ReplicasetsFile : string; bc_Timeout : Z; bc_BootstrapVShard : bool;
  bc_Replicaset : string; bc_Instance : string
}.

(** The names of the instances of a configuration of replicasets. *)
Definition config_instances (cfg : gmap string cartridgeReplicasetConfig) : list string :=
  concat (map (fun kv => rc_Instances kv.2) (range_map cfg)).

(** The instances to ask and what each is asked to do. *)
Definition bootstrap_plan (instances : list InstanceCtx) (ctx : BootstrapCtx) (appDir : string)
    (discovered : Replicasets) (instancesCfg : gmap string cartridgeInstanceConfig) (w : W)
    : result (list InstanceCtx * (Evaler W -> W -> option error * W)) :=
  if decide (bc_Instance ctx <> "") then
    Ok (filterDiscovered instances discovered, fun evaler =>
          bootstrapInstance (bc_Instance ctx) (bc_Replicaset ctx) evaler discovered instancesCfg (bc_Timeout ctx))
  else
    match getCartridgeReplicasetsConfig w appDir (bc_ReplicasetsFile ctx) with
    | Err err => Err (Wrapf "failed to get replicasets config: %w" [] err)
    | Ok (replicasetCfg, _) =>
        Ok (if decide (rss_State discovered = StateBootstrapped) then filterDiscovered instances discovered
            else filter (fun inst => InstName inst ∈ config_instances replicasetCfg) instances,
            fun evaler => bootstrapReplicasets evaler discovered replicasetCfg instancesCfg (bc_Timeout ctx))
    end.

Definition CartridgeApplication_Bootstrap (instances : list InstanceCtx) (ctx : BootstrapCtx)
    (cache : cachedDiscoverer) (w : W) : option error * cachedDiscoverer * W :=
  match instances with
  | [] => (Some (Errorf "failed to bootstrap: there are no running instances" []), cache, w)
  | first :: _ =>
      match getCartridgeInstancesConfig w (AppName first) (AppDir first) with
      | Err err => (Some (Wrapf "failed to get instances config: %w" [] err), cache, w)
      | Ok instancesCfg =>
          match Discovery (CartridgeApplication_discovery instances) true cache w with
          | ((_, Some err), cache, w) => (Some (Wrapf "failed to discovery: %w" [] err), cache, w)
          | ((discovered, None), cache, w) =>
              match bootstrap_plan instances ctx (AppDir first) discovered instancesCfg w with
              | Err err => (Some err, cache, w)
              | Ok ([], _) => (Some (Errorf "not found any instance to perform bootstrapping" []), cache, w)
              | Ok (targets, eval) =>
                  match EvalForeach targets (fun _ evaler (_ : unit) w =>
                          let '(err, w) := eval evaler w in
                          (match err with Some e => Err e | None => Ok true end, tt, w)) tt w with
                  | (Some err, _, w) => (Some err, cache, w)
                  | (None, _, w) =>
                      if bc_BootstrapVShard ctx then
                        match Discovery (CartridgeApplication_discovery instances) true cache w with
                        | ((_, Some err), cache, w) => (Some (Wrapf "failed to re-discovery: %w" [] err), cache, w)
                        | ((_, None), cache, w) =>
                            CartridgeApplication_BootstrapVShard instances (bc_Timeout ctx) cache w
                        end
                      else (None, cache, w)
                  end
              end
          end
      end
  end.
End Cartridge.

(** * Applications with a custom orchestrator ([cli/replicaset/custom.go])

    What an instance reports about its replicaset, and the merge of the reports
    of an application.  The embedded Lua body and the decoding of its answer are
    parameters. *)

Record customTopology := mkCustomTopology {
  cu_UUID : string; cu_LeaderUUID : string; cu_Alias : string; cu_Instances : list Instance_;
  cu_InstanceUUID : string; cu_InstanceRW : bool
}.

Definition with_custom_instances (t : customTopology) (l : list Instance_) : customTopology :=
  mkCustomTopology (cu_UUID t) (cu_LeaderUUID t) (cu_Alias t) l (cu_InstanceUUID t) (cu_InstanceRW t).

Definition set_alias (i : Instance_) (alias : string) : Instance_ :=
  mkInst alias (UUID i) (URI i) (InstMode i) (InstCtx i) (InstanceCtxFound i).

Section Custom.
Context {W : Type} `{Connector W}.
Variable customGetInstanceTopologyBody : string.
Variable decode_topology : value -> result customTopology.
Variable print_values : list value -> string.

(** The instance that reports knows its own mode, and may lack its alias. *)
Definition own_report (t : customTopology) (name : string) (i : Instance_) : Instance_ :=
  if decide (UUID i = cu_InstanceUUID t) then
    let i := set_mode i (if cu_InstanceRW t then ModeRW else ModeRead) in
    if decide (Alias i = "") then set_alias i name else i
  else i.

Definition getCustomInstanceTopology (name : string) (evaler : Evaler W) (w : W) : result customTopology * W :=
  match evaler customGetInstanceTopologyBody [] w with
  | (Err err, w) => (Err err, w)
  | (Ok [d], w) =>
      (match decode_topology d with
       | Err err => Err (Wrapf "failed to parse a response: %w" [] err)
       | Ok t => Ok (with_custom_instances t (map (own_report t name) (cu_Instances t)))
       end, w)
  | (Ok data, w) => (Err (Errorf "unexpected response: %v" [print_values data]), w)
  end.

(** ** [updateCustomInstances] *)
Definition update_custom (instance tinstance : Instance_) : Instance_ :=
  mkInst (if decide (Alias instance = "") then Alias tinstance else Alias instance)
    (UUID instance)
    (if decide (URI instance = "") then URI tinstance else URI instance)
    (if decide (InstMode instance = ModeUnknown) then InstMode tinstance else InstMode instance)
    (if InstanceCtxFound instance then InstCtx instance else InstCtx tinstance)
    (if InstanceCtxFound instance then true else InstanceCtxFound tinstance).

(** The last instance with the UUID is updated. *)
Fixpoint update_last_custom (instances : list Instance_) (tinstance : Instance_) : option (list Instance_) :=
  match instances with
  | [] => None
  | i :: rest =>
      match update_last_custom rest tinstance with
      | Some rest' => Some (i :: rest')
      | None =>
          if decide (UUID tinstance = UUID i) then Some (update_custom i tinstance :: rest) else None
      end
  end.

Definition add_custom (instances : list Instance_) (tinstance : Instance_) : list Instance_ :=
  match update_last_custom instances tinstance with
  | Some instances' => instances'
  | None => instances ++ [tinstance]
  end.

Definition updateCustomInstances (replicaset : Replicaset) (topology : customTopology) : Replicaset :=
  with_instances replicaset (fold_left add_custom (cu_Instances topology) (rs_Instances replicaset)).

(** ** [mergeCustomTopologies] *)
Definition custom_replicaset (topology : customTopology) : Replicaset :=
  mkReplicaset_ (cu_UUID topology) (cu_LeaderUUID topology) (cu_Alias topology) [] MasterUnknown
    FailoverUnknown StateProviderUnknown (cu_Instances topology).

Fixpoint add_custom_topology (rs : list Replicaset) (topology : customTopology) : list Replicaset :=
  match rs with
  | [] => [custom_replicaset topology]
  | r :: rest =>
      if decide (cu_UUID topology = rs_UUID r) then updateCustomInstances r topology :: rest
      else r :: add_custom_topology rest topology
  end.

Definition mergeCustomTopologies (topologies : list customTopology) : Replicasets :=
  recalculateMasters
    (mkReplicasets StateBootstrapped OrchestratorCustom (fold_left add_custom_topology topologies [])).

(** ** [discovery] *)
Definition zero_replicasets : Replicasets := mkReplicasets StateUnknown OrchestratorUnknown [].

Definition CustomInstance_discovery (evaler : Evaler W) (w : W) : Replicasets * option error * W :=
  match getCustomInstanceTopology "" evaler w with
  | (Err err, w) => (zero_replicasets, Some err, w)
  | (Ok topology, w) =>
      (recalculateMasters (mkReplicasets StateBootstrapped OrchestratorCustom [custom_replicaset topology]),
       None, w)
  end.

Definition CustomApplication_discovery (instances : list InstanceCtx) (w : W) : Replicasets * option error * W :=
  match EvalForeachAlive instances (fun ictx evaler (topologies : list customTopology) w =>
          match getCustomInstanceTopology (InstName ictx) evaler w with
          | (Err err, w) => (Err err, topologies, w)
          | (Ok t, w) =>
              (Ok false,
               topologies ++ [with_custom_instances t
                 (map (fun i => if decide (UUID i = cu_InstanceUUID t) then set_ctx i ictx true else i)
                    (cu_Instances t))], w)
          end) [] w with
  | (Some err, _, w) => (zero_replicasets, Some err, w)
  | (None, topologies, w) => (mergeCustomTopologies topologies, None, w)
  end.
End Custom.

(** ** What this orchestrator does not support *)
Definition Custom_not_supported (operation : string) : option error * option error :=
  (Some (newErrByInstanceNotSupported operation OrchestratorCustom),
   Some (newErrByAppNotSupported operation OrchestratorCustom)).
