(* ===== verification/CartridgeProps.v ===== *)
(** * What bootstrap with the cartridge orchestrator asks for

    The edits that bootstrap sends join every instance of the configuration that
    discovery did not find, once, and name the UUIDs of all instances of a
    replicaset in the order of the configuration. *)
From S2P Require Import Prelude GoStrings GoPath GoOs Value Validators Replicaset Topology CConfigApp CConfigSource.
From S2P Require Import Regexp Version Cartridge.
Local Open Scope go_scope.

Section options.
Context {W : Type} (new_uuid : W -> string * W).
Notation join := (getCartridgeJoinServersOpts new_uuid).
Notation options := (edit_options new_uuid).

(** The instances of a list that have no UUID yet, each once, in order. *)
Fixpoint unknown (known : gmap string string) (instances : list string) : list string :=
  match instances with
  | [] => []
  | i :: insts => match known !! i with
               | Some _ => unknown known insts
               | None => i :: unknown (<[i := ""]> known) insts
               end
  end.

Lemma unknown_dom m1 m2 insts : dom m1 = dom m2 -> unknown m1 insts = unknown m2 insts.
Proof.
  revert m1 m2. induction insts as [|i insts IH]; intros m1 m2 Hd; [done|]. cbn.
  assert (is_Some (m1 !! i) <-> is_Some (m2 !! i)) as Hi by (by rewrite <- !elem_of_dom, Hd).
  destruct (m1 !! i) as [?|] eqn:E1, (m2 !! i) as [?|] eqn:E2.
  - by apply IH.
  - destruct Hi as [Hi _]. by destruct Hi; eauto.
  - destruct Hi as [_ Hi]. by destruct Hi; eauto.
  - f_equal. apply IH. by rewrite !dom_insert_L, Hd.
Qed.

(** What the join options of one replicaset are. *)
Lemma join_spec cfg insts m w opts m' w' :
  join cfg insts m w = (Ok opts, m', w') ->
  map (fun o => Some (join_URI o)) opts = map (fun i => ic_URI <$> cfg !! i) (unknown m insts) /\
  map join_UUID opts = map (fun i => m' !! i) (unknown m insts) /\
  m ⊆ m' /\ (forall i, i ∈ insts -> is_Some (m' !! i)) /\ dom m' = dom m ∪ list_to_set insts.
Proof.
  revert m w opts m' w'. induction insts as [|i insts IH]; intros m w opts m' w'; cbn [getCartridgeJoinServersOpts].
  { intros [= <- <- <-]. split_and!; [done|done|done|by intros ? ?%not_elem_of_nil|set_solver]. }
  destruct (m !! i) as [u|] eqn:Em.
  - intros Hj. destruct (IH _ _ _ _ _ Hj) as (H1 & H2 & H3 & H4 & H5). cbn [unknown]. rewrite Em.
    split_and!; [done|done|done| |].
    + intros j [->|Hj']%elem_of_cons; [|by apply H4]. exists u. by eapply lookup_weaken.
    + rewrite H5. apply elem_of_dom_2 in Em. set_solver.
  - destruct (cfg !! i) as [uri|] eqn:Ec; [|done]. destruct (new_uuid w) as [uuid w1].
    destruct (join cfg insts (<[i := uuid]> m) w1) as [[[opts0|e] m0] w0] eqn:Ej; [|done]. cbn [rmap].
    intros [= <- <- <-]. destruct (IH _ _ _ _ _ Ej) as (H1 & H2 & H3 & H4 & H5).
    cbn [unknown]. rewrite Em, (unknown_dom (<[i := ""]> m) (<[i := uuid]> m)) by (by rewrite !dom_insert_L).
    assert (m0 !! i = Some uuid) as Hi.
    { eapply lookup_weaken; [|exact H3]. by rewrite lookup_insert_eq. }
    split_and!.
    + cbn [map join_URI]. by rewrite Ec, H1.
    + cbn [map join_UUID]. by rewrite Hi, H2.
    + etrans; [|exact H3]. by apply insert_subseteq.
    + intros j [->|Hj]%elem_of_cons; [by eexists|by apply H4].
    + rewrite H5, dom_insert_L. set_solver.
Qed.

Lemma priority_spec insts m l :
  failover_priority insts m = Ok l <-> map Some l = map (fun i => m !! i) insts.
Proof.
  revert l. induction insts as [|i insts IH]; intros l; cbn [failover_priority map].
  { split; [by intros [= <-]|]. by destruct l. }
  destruct (m !! i) as [u|] eqn:E; [|split; [done|by destruct l]].
  destruct (failover_priority insts m) as [l0|e]; cbn [rmap].
  - split; [intros [= <-]; cbn; f_equal; by apply IH|].
    destruct l as [|x l]; [done|]. intros [= -> Hl]. apply IH in Hl. congruence.
  - split; [done|]. destruct l as [|x l]; [done|]. intros [= -> Hl]. apply IH in Hl. done.
Qed.

Lemma join_ok (cfg : gmap string cartridgeInstanceConfig) insts (m : gmap string string) w :
  (forall i, i ∈ insts -> is_Some (m !! i) \/ is_Some (cfg !! i)) ->
  exists opts m' w', join cfg insts m w = (Ok opts, m', w').
Proof.
  revert m w. induction insts as [|i insts IH]; intros m w Hi; cbn [getCartridgeJoinServersOpts]; [eauto|].
  destruct (m !! i) as [u|] eqn:Em.
  - apply IH. intros j Hj. apply Hi. by right.
  - destruct (Hi i ltac:(left)) as [[? Hs]|[uri Hs]]; [congruence|]. rewrite Hs.
    destruct (new_uuid w) as [uuid w1]. destruct (IH (<[i := uuid]> m) w1) as (opts & m' & w' & ->); [|cbn; eauto].
    intros j Hj. destruct (decide (i = j)) as [->|Hne]; [left; rewrite lookup_insert_eq; eauto|].
    rewrite lookup_insert_ne by done. apply Hi. by right.
Qed.

(** One option of an edit, for a replicaset of the configuration, with the UUIDs
    that all instances have in the end. *)
Definition option_of (replicasetUUID uuids : gmap string string) (r : string * cartridgeReplicasetConfig)
    (o : cartridgeEditReplicasetsOpts) : Prop :=
  er_UUID o = replicasetUUID !! r.1 /\ er_Alias o = Some r.1 /\ er_Roles o = rc_Roles r.2 /\
  er_AllRW o = rc_AllRW r.2 /\ er_Weight o = rc_Weight r.2 /\ er_VshardGroup o = rc_VShardGroup r.2 /\
  map Some (er_FailoverPriority o) = map (fun i => uuids !! i) (rc_Instances r.2).

Definition all_instances (rcfg : list (string * cartridgeReplicasetConfig)) : list string :=
  concat (map (fun r => rc_Instances r.2) rcfg).

Lemma unknown_app m l1 l2 :
  unknown m (l1 ++ l2) = unknown m l1 ++ unknown (gset_to_gmap "" (dom m ∪ list_to_set l1)) l2.
Proof.
  revert m. induction l1 as [|i l1 IH]; intros m; cbn [app unknown].
  - apply unknown_dom. rewrite dom_gset_to_gmap. set_solver.
  - destruct (m !! i) as [u|] eqn:E; rewrite IH.
    + f_equal. apply unknown_dom. rewrite !dom_gset_to_gmap. apply elem_of_dom_2 in E. set_solver.
    + cbn [app]. do 2 f_equal. apply unknown_dom. rewrite !dom_gset_to_gmap, dom_insert_L. set_solver.
Qed.

(** The servers that an option joins: the given instances, with the URI of their
    configuration and their UUID. *)
Definition joins (cfg : gmap string cartridgeInstanceConfig) (uuids : gmap string string) (insts : list string)
    (o : cartridgeEditReplicasetsOpts) : Prop :=
  map (fun j => Some (join_URI j)) (er_JoinServers o) = map (fun i => ic_URI <$> cfg !! i) insts /\
  map join_UUID (er_JoinServers o) = map (fun i => uuids !! i) insts.

(** Nothing happened but that UUIDs were drawn. *)
Definition drawn : W -> W -> Prop := rtc (fun w w' => w' = (new_uuid w).2).

Lemma join_drawn cfg insts m w : drawn w (join cfg insts m w).2.
Proof.
  revert m w. induction insts as [|i insts IH]; intros m w; cbn [getCartridgeJoinServersOpts]; [apply rtc_refl|].
  destruct (m !! i); [apply IH|]. destruct (cfg !! i); [|apply rtc_refl].
  destruct (new_uuid w) as [uuid w1] eqn:E. specialize (IH (<[i := uuid]> m) w1).
  destruct (join cfg insts _ w1) as [[r m0] w0]. eapply rtc_l; [|exact IH]. by rewrite E.
Qed.

Lemma options_drawn rcfg cfg ru m w : drawn w (options rcfg cfg ru m w).2.
Proof.
  revert m w. induction rcfg as [|[rname rc] rcfg IH]; intros m w; cbn [edit_options]; [apply rtc_refl|].
  pose proof (join_drawn cfg (rc_Instances rc) m w) as Hj.
  destruct (join cfg (rc_Instances rc) m w) as [[[jopts|e] m1] w1]; cbn [snd] in *; [|done].
  destruct (failover_priority (rc_Instances rc) m1); [|done]. specialize (IH m1 w1).
  destruct (options rcfg cfg ru m1 w1) as [res w2]. by etrans.
Qed.

Lemma unknown_sublist m l : unknown m l `sublist_of` l.
Proof.
  revert m. induction l as [|i l IH]; intros m; cbn [unknown]; [constructor|].
  destruct (m !! i); [by apply sublist_cons|by apply sublist_skip].
Qed.

Lemma options_spec rcfg cfg ru m w opts w' :
  options rcfg cfg ru m w = (Ok opts, w') ->
  exists uuids new, m ⊆ uuids /\ Forall2 (option_of ru uuids) rcfg opts /\
    concat new = unknown m (all_instances rcfg) /\
    Forall2 (fun r insts => insts `sublist_of` rc_Instances r.2) rcfg new /\ Forall2 (joins cfg uuids) new opts.
Proof.
  revert m w opts w'. induction rcfg as [|[rname rc] rcfg IH]; intros m w opts w'; cbn [edit_options].
  { intros [= <- <-]. exists m, []. split; [done|]. split_and!; [constructor|done|constructor|constructor]. }
  destruct (join cfg (rc_Instances rc) m w) as [[[jopts|e] m1] w1] eqn:Ej; [|done].
  apply join_spec in Ej as (H1 & H2 & H3 & H4 & H5).
  destruct (failover_priority (rc_Instances rc) m1) as [prio|e] eqn:Ep; [|done].
  apply priority_spec in Ep.
  destruct (options rcfg cfg ru m1 w1) as [[opts0|e] w0] eqn:Eo; [|done]. cbn [rmap]. intros [= <- <-].
  destruct (IH _ _ _ _ Eo) as (uuids & new & Hsub & Hf & Hnew & Hsubl & Hjoin).
  assert (forall i, i ∈ rc_Instances rc -> uuids !! i = m1 !! i) as Hsame.
  { intros i Hi. destruct (H4 i Hi) as [u Hu1]. rewrite Hu1. by eapply lookup_weaken. }
  assert (unknown m (all_instances ((rname, rc) :: rcfg)) =
          unknown m (rc_Instances rc) ++ unknown m1 (all_instances rcfg)) as Hun.
  { unfold all_instances. cbn [map concat snd]. rewrite unknown_app. f_equal. apply unknown_dom.
    by rewrite dom_gset_to_gmap, H5. }
  exists uuids, (unknown m (rc_Instances rc) :: new). split; [by etrans|]. split_and!.
  - constructor; [|done]. split_and!; [done..|]. cbn [er_FailoverPriority snd]. rewrite Ep.
    apply map_ext_in. intros i Hi%list_elem_of_In. symmetry. by apply Hsame.
  - cbn [concat]. by rewrite Hun, Hnew.
  - constructor; [apply unknown_sublist|done].
  - constructor; [|done]. split; cbn [er_JoinServers]; [done|]. rewrite H2. apply map_ext_in. intros i Hi. symmetry.
    apply Hsame. eapply elem_of_sublist; [by apply list_elem_of_In|apply unknown_sublist].
Qed.

Lemma unknown_spec m l : NoDup (unknown m l) /\ forall i, i ∈ unknown m l <-> i ∈ l /\ m !! i = None.
Proof.
  revert m. induction l as [|j l IH]; intros m.
  { split; [constructor|]. intros i. rewrite !elem_of_nil. tauto. }
  cbn [unknown]. destruct (m !! j) as [u|] eqn:E.
  - destruct (IH m) as [Hnd Hi]. split; [done|]. intros i. rewrite Hi, elem_of_cons.
    split; [tauto|]. intros [[->|Hl] Hm]; [congruence|tauto].
  - destruct (IH (<[j := ""]> m)) as [Hnd Hi]. split.
    + constructor; [|done]. rewrite Hi. intros [_ Hl]. by rewrite lookup_insert_eq in Hl.
    + intros i. rewrite !elem_of_cons, Hi. destruct (decide (j = i)) as [->|Hne].
      * rewrite lookup_insert_eq. naive_solver.
      * rewrite lookup_insert_ne by done. naive_solver.
Qed.

Lemma options_ok rcfg cfg ru (m : gmap string string) w :
  (forall i, i ∈ all_instances rcfg -> is_Some (m !! i) \/ is_Some (cfg !! i)) ->
  exists opts w', options rcfg cfg ru m w = (Ok opts, w').
Proof.
  revert m w. induction rcfg as [|[rname rc] rcfg IH]; intros m w Hi; cbn [edit_options]; [eauto|].
  assert (forall i, i ∈ rc_Instances rc \/ i ∈ all_instances rcfg -> is_Some (m !! i) \/ is_Some (cfg !! i)) as Hi'.
  { intros i Hx. apply Hi. unfold all_instances. cbn [map concat snd]. by apply elem_of_app. }
  destruct (join_ok cfg (rc_Instances rc) m w) as (jopts & m1 & w1 & Hj); [naive_solver|]. rewrite Hj.
  apply join_spec in Hj as (_ & _ & Hsub & Hk & _).
  destruct (failover_priority (rc_Instances rc) m1) as [prio|e] eqn:Ep.
  - destruct (IH m1 w1) as (opts & w' & ->); [|cbn; eauto].
    intros i Hx. destruct (Hi' i) as [[u Hu]|]; [by right| |by right]. left. exists u. by eapply lookup_weaken.
  - exfalso. clear -Hk Ep. induction (rc_Instances rc) as [|i l IHl]; [done|]. cbn [failover_priority] in Ep.
    destruct (Hk i ltac:(left)) as [u Hu]. rewrite Hu in Ep.
    destruct (failover_priority l m1); [done|]. apply IHl; [|done]. intros j Hj. apply Hk. by right.
Qed.

Lemma options_missing rcfg cfg ru (m : gmap string string) w i :
  i ∈ all_instances rcfg -> m !! i = None -> cfg !! i = None ->
  exists e w', options rcfg cfg ru m w = (Err e, w').
Proof.
  intros Hi Hm Hc. destruct (options rcfg cfg ru m w) as [[opts|e] w'] eqn:Eo; [|eauto].
  destruct (options_spec _ _ _ _ _ _ _ Eo) as (uuids & new & _ & _ & Hnew & _ & Hj).
  assert (i ∈ unknown m (all_instances rcfg)) as Hx by (by apply unknown_spec).
  rewrite <-Hnew in Hx. apply list_elem_of_In, in_concat in Hx as (l & Hl & Hil).
  apply list_elem_of_In, list_elem_of_lookup in Hl as [k Hk].
  destruct (Forall2_lookup_l _ _ _ _ _ Hj Hk) as (o & _ & Hu & _).
  assert (None ∈ map (fun j => Some (join_URI j)) (er_JoinServers o)) as Hn.
  { rewrite Hu. apply list_elem_of_fmap. exists i. rewrite Hc. split; [done|]. by apply list_elem_of_In. }
  apply list_elem_of_fmap in Hn as (j & Hj' & _). done.
Qed.
End options.

Section edits.
Context {W : Type} `{GoMapOrder} (new_uuid : W -> string * W).
Context (editReplicasetsBody waitHealthyBody : string).
Notation update := (updateCartridgeReplicasets editReplicasetsBody waitHealthyBody new_uuid).
Notation edit := (cartridgeEditReplicasets editReplicasetsBody waitHealthyBody).

(** C39: The edit that bootstraps replicasets of Cartridge joins exactly the
    instances of the configuration that no discovered replicaset has, each
    once and in order: it sends one option per replicaset, which joins
    instances of that replicaset only, with the URI of their configuration and
    the UUID that the failover priorities of all replicasets then use, and
    which has the roles, the weight and the group of the replicaset and the
    UUID under which it was discovered. An instance to join that has no
    configuration is an error and nothing is sent: whatever the console does,
    the outcome is the same, and nothing has happened but that UUIDs were
    drawn. *)
Theorem bootstrap_edits discovered rcfg icfg timeout (w : W) :
  let '(ru, iu) := known_uuids discovered in
  let instances := all_instances (range_map rcfg) in
  let joined := unknown iu instances in
  NoDup joined /\ (forall i, i ∈ joined <-> i ∈ instances /\ iu !! i = None) /\
  ((forall i, i ∈ joined -> is_Some (icfg !! i)) ->
   exists opts uuids new w1, drawn new_uuid w w1 /\
     (forall evaler, update evaler discovered rcfg icfg timeout w = edit evaler opts timeout w1) /\
     iu ⊆ uuids /\ Forall2 (option_of ru uuids) (range_map rcfg) opts /\
     concat new = joined /\
     Forall2 (fun r insts => insts `sublist_of` rc_Instances r.2) (range_map rcfg) new /\
     Forall2 (joins icfg uuids) new opts) /\
  (forall i, i ∈ joined -> icfg !! i = None ->
   exists e w1, drawn new_uuid w w1 /\
     forall evaler, update evaler discovered rcfg icfg timeout w = (Some e, w1)).
Proof.
  unfold updateCartridgeReplicasets. destruct (known_uuids discovered) as [ru iu].
  set (instances := all_instances (range_map rcfg)). destruct (unknown_spec iu instances) as [Hnd Hj].
  split; [done|]. split; [done|]. split.
  - intros Hc. destruct (options_ok new_uuid (range_map rcfg) icfg ru iu w) as (opts & w1 & Ho).
    { intros i Hi. destruct (iu !! i) as [u|] eqn:E; [left; eauto|right]. apply Hc, Hj. by split. }
    pose proof (options_drawn new_uuid (range_map rcfg) icfg ru iu w) as Hd. rewrite Ho in Hd |- *.
    destruct (options_spec _ _ _ _ _ _ _ _ Ho) as (uuids & new & Hspec). by exists opts, uuids, new, w1.
  - intros i [Hi Hm]%Hj Hc. destruct (options_missing new_uuid (range_map rcfg) icfg ru iu w i Hi Hm Hc)
      as (e & w1 & Ho).
    pose proof (options_drawn new_uuid (range_map rcfg) icfg ru iu w) as Hd. rewrite Ho in Hd |- *. by exists e, w1.
Qed.

(** Before version 2 the rest of the replicaset that was made first, like any
    other, is sent without a UUID when nothing was discovered: it is not linked
    to the replicaset that the first edit made. *)
Theorem old_bootstrap_unlinked discovered rcfg icfg initial rest opts (w w' : W) :
  rss_Replicasets discovered = [] -> initial_replicaset rcfg = Ok (initial, rest) ->
  (let '(ru, iu) := known_uuids discovered in edit_options new_uuid (range_map rest) icfg ru iu w) = (Ok opts, w') ->
  Forall (fun o => er_UUID o = None) opts /\
  forall rname, is_Some (initial !! rname) -> is_Some (rest !! rname) -> exists o, o ∈ opts /\ er_Alias o = Some rname.
Proof.
  intros Hd Hi. unfold known_uuids. rewrite Hd. cbn [fold_left]. intros Ho.
  destruct (options_spec _ _ _ _ _ _ _ _ Ho) as (uuids & new & _ & Hf & _). split.
  - clear -Hf. induction Hf as [|r o rs os Hro _ IH]; constructor; [|done]. destruct Hro as (-> & _). by rewrite lookup_empty.
  - intros rname _ [cfg Hr]. apply elem_of_range_map in Hr.
    apply list_elem_of_lookup_1 in Hr as [k Hk]. destruct (Forall2_lookup_l _ _ _ _ _ Hf Hk) as (o & Ho' & Hoo).
    exists o. split; [by eapply list_elem_of_lookup_2|]. by destruct Hoo as (_ & -> & _).
Qed.
End edits.

(** ** An instance that is bootstrapped already

    Bootstrap of one instance looks for it only in the replicasets before the
    one it is to join. *)
Theorem join_target_spec rs instance replicaset uuid :
  join_target rs instance replicaset = Ok uuid <->
  exists before r after, rs = before ++ r :: after /\ rs_Alias r = replicaset /\ rs_UUID r = uuid /\
    Forall (fun r => rs_Alias r <> replicaset /\ Forall (fun i => Alias i <> instance) (rs_Instances r)) before.
Proof.
  induction rs as [|r rs IH]; cbn [join_target].
  { split; [done|]. by intros ([|] & ? & ? & ? & _). }
  case_decide as Ha.
  - split; [intros [= <-]; by exists [], r, rs|].
    intros ([|r0 before] & r' & after & [= -> ->] & Hr & Hu & Hb); [by subst|].
    by apply Forall_cons in Hb as [[? _] _].
  - assert (existsb (fun i => bool_decide (Alias i = instance)) (rs_Instances r) = false <->
            Forall (fun i => Alias i <> instance) (rs_Instances r)) as Hex.
    { rewrite Forall_forall, <- not_true_iff_false, existsb_exists.
      setoid_rewrite bool_decide_eq_true. setoid_rewrite list_elem_of_In. naive_solver. }
    destruct (existsb _ (rs_Instances r)).
    + split; [done|]. intros ([|r0 before] & r' & after & [= -> ->] & Hr & Hu & Hb); [done|].
      apply Forall_cons in Hb as [[_ Hf] _]. by apply Hex in Hf.
    + rewrite IH. split.
      * intros (before & r' & after & -> & Hr & Hu & Hb). exists (r :: before), r', after.
        split_and!; [done..|]. constructor; [|done]. split; [done|]. by apply Hex.
      * intros ([|r0 before] & r' & after & [= -> ->] & Hr & Hu & Hb); [done|].
        apply Forall_cons in Hb as [_ Hb]. by exists before, r', after.
Qed.

Example joined_already :
  join_target [mkReplicaset_ "uuid-1" "" "r1" [] MasterUnknown FailoverOff StateProviderUnknown
                 [mkInst "i1" "uuid-2" "localhost:3301" ModeRW zero_ctx true]] "i1" "r1" = Ok "uuid-1".
Proof. reflexivity. Qed.

(** ** A sample of a configuration *)
Definition no_answer : Evaler (list string) := fun _ _ w => (Ok [VStr "2.0.0"], w).
Definition sample_rcfg : gmap string cartridgeReplicasetConfig :=
  {["r1" := mkReplicasetConfig "" ["i1"; "i2"] ["router"] None None None]}.
Definition sample_icfg : gmap string cartridgeInstanceConfig :=
  {["i1" := mkInstanceConfig_ "h:1"; "i2" := mkInstanceConfig_ "h:2"]}.
Definition count_uuid (w : list string) : string * list string :=
  let uuid := FormatInt (Z.of_nat (length w)) in (uuid, w ++ [uuid]).

Lemma bootstrap_edits_witness :
  exists opts (uuids : gmap string string) new w1,
    @updateCartridgeReplicasets (list string) canonical_order "edit" "wait" count_uuid no_answer
      (mkReplicasets StateUninitialized OrchestratorCartridge []) sample_rcfg sample_icfg 3 [] =
    cartridgeEditReplicasets "edit" "wait" no_answer opts 3 w1 /\
    concat new = ["i1"; "i2"] /\ Forall2 (joins sample_icfg uuids) new opts.
Proof.
  destruct (@bootstrap_edits (list string) canonical_order count_uuid "edit" "wait"
    (mkReplicasets StateUninitialized OrchestratorCartridge []) sample_rcfg sample_icfg 3 [])
    as (_ & _ & Hok & _).
  change (unknown _ _) with ["i1"; "i2"] in Hok.
  destruct Hok as (opts & uuids & new & w1 & _ & Hu & _ & _ & Hc & _ & Hj).
  - intros i Hi. apply elem_of_cons in Hi as [->|Hi]; [eexists; vm_compute; reflexivity|].
    apply list_elem_of_singleton in Hi as ->. eexists. vm_compute. reflexivity.
  - exists opts, uuids, new, w1. split; [exact (Hu no_answer)|]. split; [exact Hc|exact Hj].
Defined.
