(* ===== verification/ClusterCmd.v ===== *)
(** * The cluster commands: [cli/cluster/cmd]

    [uri.go], [common.go], [show.go], [publish.go], [failover.go] and the rest of
    [replicaset.go]: the options of a URI, the choice of the storage it names,
    validation, and the commands that show, publish and patch a configuration.
    What a command prints is a part of its result. *)
From S2P Require Import Prelude GoStrings Storages Value Config Cluster Validators Sources Etcd Tarantool.
From S2P Require Import TarantoolSchema Regexp Uri ClusterGet Replicaset CConfigSource.
Local Open Scope go_scope.

(** ** [net/url], as far as the options use it *)

(** A parsed URL: [url_User] is the user with an optional password, [url_Query]
    the first value of a key or the empty text, [url_text] the whole URL. *)
Record URL := mkURL {
  url_Scheme : string; url_Host : string; url_Path : string;
  url_User : option (string * option string); url_Query : string -> string; url_text : string
}.

(** Bytes that [escape(s, encodeHost)] keeps. *)
Definition host_keeps (c : ascii) : bool :=
  let n := nat_of_ascii c in
  (97 <=? n) && (n <=? 122) || (65 <=? n) && (n <=? 90) || (48 <=? n) && (n <=? 57)
  || existsb (fun d => bool_decide (c = d))
       (String.list_ascii_of_string "-_.~!$&'()*+,;=:[]<>" ++ [ascii_of_nat 34]).

Definition hex_digit (n : nat) : ascii := ascii_of_nat (if n <? 10 then 48 + n else 55 + n).

Fixpoint escape_host (s : string) : string :=
  match s with
  | "" => ""
  | String c s =>
      if host_keeps c then String c (escape_host s)
      else String "%" (String (hex_digit (nat_of_ascii c / 16))
             (String (hex_digit (nat_of_ascii c mod 16)) (escape_host s)))
  end.

(** [URL{Scheme, Host}.String()], for both not empty. *)
Definition endpoint_String (scheme host : string) : string := scheme +:+ "://" +:+ escape_host host.

(** ** [uri.go] *)
Definition DefaultUriTimeout : Z := 3 * Second.

Record UriOpts := mkUriOpts {
  uo_Endpoint : string; uo_Host : string; uo_Prefix : string; uo_Key : string; uo_Instance : string;
  uo_Username : string; uo_Password : string; uo_KeyFile : string; uo_CertFile : string;
  uo_CaPath : string; uo_CaFile : string; uo_Ciphers : string;
  uo_SkipHostVerify : bool; uo_SkipPeerVerify : bool; uo_Timeout : Z
}.

(** A switch of the query that is on unless it parses as false: whether the
    verification is skipped. *)
Definition parse_verify (name value : string) : result bool :=
  if decide (value = "") then Ok false
  else match ParseBool (ToLower value) with
       | Ok verify => Ok (negb verify)
       | Err err => Err (Wrapf ("invalid " +:+ name +:+ ", boolean expected: %w") [] err)
       end.

Definition parse_timeout `{GoText} (value : string) : result Z :=
  if decide (value = "") then Ok DefaultUriTimeout
  else match ParseFloat value with
       | Some timeout => Ok (duration_of_seconds timeout)
       | None => Err (Errorf "invalid timeout, float expected: %w" [value])
       end.

Definition ParseUriOpts `{GoText} (uri : URL) : result UriOpts :=
  if decide (url_Scheme uri = "" \/ url_Host uri = "") then
    Err (Errorf "URL must contain the scheme and the host parts" [])
  else
    let get := url_Query uri in
    let username := match url_User uri with Some (u, _) => u | None => "" end in
    let password := match url_User uri with Some (_, Some p) => p | _ => "" end in
    skipPeer <-? parse_verify "verify_peer" (get "verify_peer");;
    skipHost <-? parse_verify "verify_host" (get "verify_host");;
    timeout <-? parse_timeout (get "timeout");;
    Ok (mkUriOpts (endpoint_String (url_Scheme uri) (url_Host uri)) (url_Host uri) (url_Path uri)
          (get "key") (get "name") username password (get "ssl_key_file") (get "ssl_cert_file")
          (get "ssl_ca_path") (get "ssl_ca_file") (get "ssl_ciphers") skipHost skipPeer timeout).

Definition MakeEtcdOptsFromUriOpts (src : UriOpts) : EtcdOpts :=
  mkEtcdOpts (if decide (uo_Endpoint src <> "") then [uo_Endpoint src] else [])
    (uo_Username src) (uo_Password src) (uo_KeyFile src) (uo_CertFile src) (uo_CaPath src)
    (uo_CaFile src) (uo_SkipHostVerify src || uo_SkipPeerVerify src) (uo_Timeout src).

Definition MakeConnectOptsFromUriOpts (src : UriOpts) : string * TarantoolOpts :=
  let transport :=
    if decide (uo_KeyFile src = "" /\ uo_CertFile src = "" /\ uo_CaFile src = "" /\ uo_Ciphers src = "")
    then "" else "ssl" in
  ("tcp://" +:+ uo_Host src,
   mkTarantoolOpts (uo_Username src) (uo_Password src) transport
     (mkSslOpts (uo_KeyFile src) (uo_CertFile src) (uo_CaFile src) (uo_Ciphers src)) false (uo_Timeout src)).

(** ** [lib/connect/const.go] *)
Definition TarantoolUsernameEnv : string := "TT_CLI_USERNAME".
Definition TarantoolPasswordEnv : string := "TT_CLI_PASSWORD".
Definition EtcdUsernameEnv : string := "TT_CLI_ETCD_USERNAME".
Definition EtcdPasswordEnv : string := "TT_CLI_ETCD_PASSWORD".

Record connectOpts := mkConnectOpts_ { co_Username : string; co_Password : string }.

Section ClusterCmd.
Context {W : Type} `{Yaml} `{!Services W} `{GoMapOrder} `{GoSort} `{GoText}.

(** ** [common.go]: validation *)
Definition validateInstanceConfig (config : Config) (name : string) : option error :=
  match Validate config TarantoolSchema with
  | Some err => Some (Wrapf "an invalid instance %q configuration: %w" [name] err)
  | None => None
  end.

Definition errors_Join (errs : list error) : option error :=
  match errs with [] => None | _ => Some (ErrJoin errs) end.

(** The configuration of an instance: with the environment, or only the scopes. *)
Definition instance_config (full : bool) (cconfig : ClusterConfig) (name : string) : result Config :=
  if full then
    match GetInstanceConfig cconfig name with
    | Err err => Err err
    | Ok ic => Ok (raw_or_panic (inst_raw ic))
    end
  else Ok (Instantiate cconfig name).

(** The loop over the instances: an error of [GetInstanceConfig] ends it. *)
Fixpoint validate_instances (full : bool) (cconfig : ClusterConfig) (names : list string) (errs : list error)
    : result (list error) :=
  match names with
  | [] => Ok errs
  | name :: names =>
      match instance_config full cconfig name with
      | Err err => Err err
      | Ok iconfig =>
          validate_instances full cconfig names
            (match validateInstanceConfig iconfig name with
             | Some err => errs ++ [err]
             | None => errs
             end)
      end
  end.

Definition validateClusterConfig (cconfig : ClusterConfig) (full : bool) : option error :=
  let errs := match Validate (raw_or_panic (cluster_raw cconfig)) TarantoolSchema with
              | Some err => [Wrapf "an invalid cluster configuration: %s" [] err]
              | None => []
              end in
  match validate_instances full cconfig (Instances cconfig) errs with
  | Err err => Some err
  | Ok errs => errors_Join errs
  end.

Definition validateRawClusterConfig (config : Config) : option error :=
  match MakeClusterConfig config with
  | Err err => Some err
  | Ok cconfig => validateClusterConfig cconfig false
  end.

Definition validateRawConfig (config : Config) (name : string) : option error :=
  if decide (name = "") then validateRawClusterConfig config else validateInstanceConfig config name.

(** ** [common.go]: printing; the error and the printed text *)
Definition printConfig (config : Config) : string := Config_String yaml_encode config.

Definition printInstanceConfig (config : ClusterConfig) (instance : string) (full validate : bool)
    : option error * string :=
  if negb (HasInstance config instance) then (Some (Errorf "instance %q not found" [instance]), "")
  else
    match (if full then match GetInstanceConfig config instance with
                        | Ok ic => inst_raw ic
                        | Err _ => None
                        end
           else Some (Instantiate config instance)) with
    | None => (Some nil_panic, "")
    | Some iconfig =>
        (if validate then validateInstanceConfig iconfig instance else None, printConfig iconfig)
    end.

Definition printClusterConfig (cconfig : ClusterConfig) (instance : string) (validate : bool)
    : option error * string :=
  if decide (instance = "") then
    (if validate then validateClusterConfig cconfig true else None,
     printConfig (raw_or_panic (cluster_raw cconfig)))
  else printInstanceConfig cconfig instance true validate.

Definition printRawClusterConfig (config : Config) (instance : string) (validate : bool)
    : option error * string :=
  match MakeClusterConfig config with
  | Err err => (Some err, "")
  | Ok cconfig =>
      if decide (instance = "") then
        (if validate then validateClusterConfig cconfig false else None,
         printConfig (raw_or_panic (cluster_raw cconfig)))
      else printInstanceConfig cconfig instance false validate
  end.

(** ** [common.go]: connections *)
Definition Getenv (name : string) : string := default "" (LookupEnv name).
Definition or_env (value env : string) : string := if decide (value = "") then Getenv env else value.

(** The credentials of the URI, or else those of the command with the
    environment for what they leave empty. *)
Definition credentials (user pass : string) (connOpts : connectOpts) (userEnv passEnv : string)
    : string * string :=
  if decide (user = "" /\ pass = "")
  then (or_env (co_Username connOpts) userEnv, or_env (co_Password connOpts) passEnv)
  else (user, pass).

Definition connectTarantool (uriOpts : UriOpts) (connOpts : connectOpts) (w : W)
    : result (TarantoolConn W) * W :=
  let '(addr, opts) := MakeConnectOptsFromUriOpts uriOpts in
  let '(user, pass) := credentials (User opts) (Pass opts) connOpts TarantoolUsernameEnv TarantoolPasswordEnv in
  let opts := mkTarantoolOpts user pass (Transport opts) (Ssl opts) (SkipSchema opts) (opts_Timeout opts) in
  match tarantool_Connect addr opts w with
  | (Err err, w) => (Err (Wrapf "failed to connect to tarantool: %w" [] err), w)
  | (Ok conn, w) => (Ok conn, w)
  end.

Definition libcluster_ConnectEtcd (opts : EtcdOpts) : result (EtcdClient W) :=
  ConnectEtcd ClientConfig NewCertPool AppendCertsFromPEM ReadDir Readlink ReadFile clientv3_New opts.

Definition connectEtcd (uriOpts : UriOpts) (connOpts : connectOpts) : result (EtcdClient W) :=
  let opts := MakeEtcdOptsFromUriOpts uriOpts in
  let '(user, pass) := credentials (Username opts) (Password opts) connOpts EtcdUsernameEnv EtcdPasswordEnv in
  rwrap "failed to connect to etcd: %w" []
    (libcluster_ConnectEtcd
       (mkEtcdOpts (Endpoints opts) user pass (KeyFile opts) (CertFile opts) (CaPath opts) (CaFile opts)
          (SkipHostVerify opts) (Timeout opts))).

Definition doOnStorage {A} (connOpts : connectOpts) (opts : UriOpts)
    (tarantoolFunc : TarantoolConn W -> W -> result A * W) (etcdFunc : EtcdClient W -> W -> result A * W) (w : W)
    : result A * W :=
  match connectEtcd opts connOpts with
  | Ok etcdcli => etcdFunc etcdcli w
  | Err errEtcd =>
      match connectTarantool opts connOpts w with
      | (Ok conn, w) => tarantoolFunc conn w
      | (Err errTarantool, w) =>
          (Err (Wrapf "failed to establish a connection to tarantool or etcd: %w, %w" []
                  (ErrJoin [errTarantool; errEtcd])), w)
      end
  end.

(** A factory that is not given makes nothing. *)
Definition make_optional {F A} (factory : option F) (make : F -> result A) (msg : string) : result (option A) :=
  match factory with
  | None => Ok None
  | Some f => rmap Some (rwrap msg [] (make f))
  end.

Definition createPublisherAndCollector (publishers : option (DataPublisherFactory W))
    (collectors : option (CollectorFactory W)) (connOpts : connectOpts) (opts : UriOpts) (w : W)
    : result (option (DataPublisher W) * option (Collector W) * (W -> W)) * W :=
  let prefix := uo_Prefix opts in
  let key := uo_Key opts in
  let timeout := uo_Timeout opts in
  let tarantoolFunc conn w :=
    match (publisher <-? make_optional publishers (fun p => publisher_NewTarantool p conn prefix key timeout)
                           "failed to create tarantool config storage publisher: %w";;
           collector <-? make_optional collectors (fun c => NewTarantool c conn prefix key timeout)
                           "failed to create tarantool config storage collector: %w";;
           Ok (publisher, collector)) with
    | Err err => (Err err, conn_Close conn w)
    | Ok pc => (Ok (pc, conn_Close conn), w)
    end in
  let etcdFunc client w :=
    match (publisher <-? make_optional publishers (fun p => publisher_NewEtcd p client prefix key timeout)
                           "failed to create etcd publisher: %w";;
           collector <-? make_optional collectors (fun c => NewEtcd c client prefix key timeout)
                           "failed to create etcd collector: %w";;
           Ok (publisher, collector)) with
    | Err err => (Err err, etcd_Close client w)
    | Ok pc => (Ok (pc, etcd_Close client), w)
    end in
  doOnStorage connOpts opts tarantoolFunc etcdFunc w.

(** ** [show.go] *)
Record ShowCtx := mkShowCtx {
  show_Username : string; show_Password : string; show_Collectors : CollectorFactory W; show_Validate : bool
}.

Definition invalid_url (uri : URL) (err : error) : error := Wrapf "invalid URL %q: %w" [url_text uri] err.

Definition ShowUri (showCtx : ShowCtx) (uri : URL) (w : W) : option error * string * W :=
  match ParseUriOpts uri with
  | Err err => (Some (invalid_url uri err), "", w)
  | Ok uriOpts =>
      let connOpts := mkConnectOpts_ (show_Username showCtx) (show_Password showCtx) in
      match createPublisherAndCollector None (Some (show_Collectors showCtx)) connOpts uriOpts w with
      | (Err err, w) => (Some err, "", w)
      | (Ok (_, None, cancel), w) => (Some nil_panic, "", cancel w)
      | (Ok (_, Some collector, cancel), w) =>
          match collect collector w with
          | (Err err, w) => (Some (Wrapf "failed to collect a configuration: %w" [] err), "", cancel w)
          | (Ok config, w) =>
              let '(err, printed) := printRawClusterConfig config (uo_Instance uriOpts) (show_Validate showCtx) in
              (err, printed, cancel w)
          end
      end
  end.

Definition ShowCluster (showCtx : ShowCtx) (path name : string) (w : W) : option error * string * W :=
  match GetClusterConfig (show_Collectors showCtx) path w with
  | (Err err, w) => (Some (Wrapf "failed to get a cluster configuration: %w" [] err), "", w)
  | (Ok config, w) =>
      let '(err, printed) := printClusterConfig config name (show_Validate showCtx) in (err, printed, w)
  end.

(** ** [publish.go] *)
Record PublishCtx := mkPublishCtx {
  pub_Username : string; pub_Password : string; pub_Force : bool;
  pub_Publishers : DataPublisherFactory W; pub_Collectors : CollectorFactory W;
  pub_Src : string; pub_Config : Config; pub_Group : string; pub_Replicaset : string
}.

Definition publishCtxValidateConfig (publishCtx : PublishCtx) (instance : string) : option error :=
  if negb (pub_Force publishCtx) then validateRawConfig (pub_Config publishCtx) instance else None.

(** The configuration with the instance replaced or added: what is published. *)
Definition updated_cluster (group replicaset instance : string) (config src : Config) : result ClusterConfig :=
  cconfig <-? rwrap "failed to parse a target configuration: %w" [] (MakeClusterConfig src);;
  match FindInstance cconfig instance with
  | Some (gname, rname) =>
      if decide (replicaset <> "" /\ replicaset <> rname) then
        Err (Errorf "wrong replicaset name, expected %q, have %q" [rname; replicaset])
      else if decide (group <> "" /\ group <> gname) then
        Err (Errorf "wrong group name, expected %q, have %q" [gname; group])
      else
        rwrap "failed to replace an instance %q configuration in a cluster configuration: %w" [instance]
          (ReplaceInstanceConfig cconfig instance config)
  | None =>
      if decide (replicaset = "") then
        Err (Errorf "replicaset name is not specified for %q instance configuration" [instance])
      else
        group <-? (if decide (group = "") then
                     match FindGroupByReplicaset cconfig replicaset with
                     | Some g => Ok g
                     | None => Err (Errorf "failed to determine the group of the %q replicaset" [replicaset])
                     end
                   else Ok group);;
        rwrap "failed to set an instance %q configuration: %w" [instance]
          (SetInstanceConfig cconfig group replicaset instance config)
  end.

Definition setInstanceConfig (group replicaset instance : string) (config : Config)
    (collector : Collector W) (publisher : DataPublisher W) (w : W) : option error * W :=
  match collect collector w with
  | (Err err, w) =>
      (Some (Wrapf "failed to get a cluster configuration to update an instance %q: %w" [instance] err), w)
  | (Ok src, w) =>
      match updated_cluster group replicaset instance config src with
      | Err err => (Some err, w)
      | Ok cconfig => publish (NewYamlConfigPublisher publisher) (cluster_raw cconfig) w
      end
  end.

Definition PublishUri (publishCtx : PublishCtx) (uri : URL) (w : W) : option error * W :=
  match ParseUriOpts uri with
  | Err err => (Some (invalid_url uri err), w)
  | Ok uriOpts =>
      let instance := uo_Instance uriOpts in
      match publishCtxValidateConfig publishCtx instance with
      | Some err => (Some err, w)
      | None =>
          let connOpts := mkConnectOpts_ (pub_Username publishCtx) (pub_Password publishCtx) in
          match createPublisherAndCollector (Some (pub_Publishers publishCtx)) (Some (pub_Collectors publishCtx))
                  connOpts uriOpts w with
          | (Ok (Some publisher, Some collector, cancel), w) =>
              let '(err, w) :=
                if decide (instance = "") then publish_data publisher 0 (Some (pub_Src publishCtx)) w
                else setInstanceConfig (pub_Group publishCtx) (pub_Replicaset publishCtx) instance
                       (pub_Config publishCtx) collector publisher w in
              (err, cancel w)
          | (Ok (_, _, cancel), w) => (Some nil_panic, cancel w)
          | (Err err, w) => (Some err, w)
          end
      end
  end.

Definition PublishCluster (publishCtx : PublishCtx) (path instance : string) (w : W) : option error * W :=
  match publishCtxValidateConfig publishCtx instance with
  | Some err => (Some err, w)
  | None =>
      match publisher_NewFile (pub_Publishers publishCtx) path with
      | Err err => (Some (Wrapf "failed to create a file publisher: %w" [] err), w)
      | Ok publisher =>
          if decide (instance = "") then publish_data publisher 0 (Some (pub_Src publishCtx)) w
          else
            match NewFile (pub_Collectors publishCtx) path with
            | Err err => (Some (Wrapf "failed to create a file collector: %w" [] err), w)
            | Ok collector =>
                setInstanceConfig (pub_Group publishCtx) (pub_Replicaset publishCtx) instance
                  (pub_Config publishCtx) collector publisher w
            end
      end
  end.

(** ** [replicaset.go] *)

(** A publisher that is made for the key of every publication. *)
Definition makeTarantoolPublisher (factory : DataPublisherFactory W) (conn : TarantoolConn W)
    (prefix : string) (timeout : Z) : KeyPublisher :=
  fun key revision data w =>
    match (key <-? GetStorageKey prefix key;; publisher_NewTarantool factory conn prefix key timeout) with
    | Err err => (Some err, w)
    | Ok publisher => publish_data publisher revision (Some data) w
    end.

Definition makeEtcdPublisher (factory : DataPublisherFactory W) (client : EtcdClient W)
    (prefix : string) (timeout : Z) : KeyPublisher :=
  fun key revision data w =>
    match (key <-? GetStorageKey prefix key;; publisher_NewEtcd factory client prefix key timeout) with
    | Err err => (Some err, w)
    | Ok publisher => publish_data publisher revision (Some data) w
    end.

Definition createDataCollectorAndKeyPublisher (collectors : DataCollectorFactory W)
    (publishers : DataPublisherFactory W) (opts : UriOpts) (connOpts : connectOpts) (w : W)
    : result (DataCollector W * KeyPublisher * (W -> W)) * W :=
  let prefix := uo_Prefix opts in
  let key := uo_Key opts in
  let timeout := uo_Timeout opts in
  doOnStorage connOpts opts
    (fun conn w =>
       match collector_NewTarantool collectors conn prefix key timeout with
       | Err err => (Err (Wrapf "failed to create tarantool collector: %w" [] err), conn_Close conn w)
       | Ok collector =>
           (Ok (collector, makeTarantoolPublisher publishers conn prefix timeout, conn_Close conn), w)
       end)
    (fun client w =>
       match collector_NewEtcd collectors client prefix key timeout with
       | Err err => (Err (Wrapf "failed to create etcd collector: %w" [] err), etcd_Close client w)
       | Ok collector =>
           (Ok (collector, makeEtcdPublisher publishers client prefix timeout, etcd_Close client), w)
       end) w.

(** What [Promote], [Demote], [Expel] and [AddRole] share; [operation] is the
    operation of the source. *)
Definition patch_uri (prompt : list string -> W -> result nat * W) (collectors : DataCollectorFactory W)
    (publishers : DataPublisherFactory W) (connOpts : connectOpts) (uri : URL)
    (operation : CConfigSource -> W -> option error * W) (w : W) : option error * W :=
  match ParseUriOpts uri with
  | Err err => (Some (invalid_url uri err), w)
  | Ok opts =>
      match createDataCollectorAndKeyPublisher collectors publishers opts connOpts w with
      | (Err err, w) => (Some err, w)
      | (Ok (collector, publisher, closeFunc), w) =>
          let '(err, w) := operation (mkCConfigSource collector publisher (pickPatchKey prompt)) w in
          (err, closeFunc w)
      end
  end.

Definition cluster_Promote prompt collectors publishers connOpts uri (ctx : InstanceOpCtx) : W -> option error * W :=
  patch_uri prompt collectors publishers connOpts uri (fun source => Promote source ctx).
Definition cluster_Demote prompt collectors publishers connOpts uri (ctx : InstanceOpCtx) : W -> option error * W :=
  patch_uri prompt collectors publishers connOpts uri (fun source => Demote source ctx).
Definition cluster_Expel prompt collectors publishers connOpts uri (ctx : InstanceOpCtx) : W -> option error * W :=
  patch_uri prompt collectors publishers connOpts uri (fun source => Expel source ctx).
Definition cluster_AddRole prompt collectors publishers connOpts uri (ctx : RolesAddCtx) : W -> option error * W :=
  patch_uri prompt collectors publishers connOpts uri (fun source => AddRole source ctx).

(** ** [failover.go] *)
Definition failoverPath : string := "/failover/command/".

(** These options do not skip the check of the peer. *)
Definition makeEtcdOpts (uriOpts : UriOpts) : EtcdOpts :=
  mkEtcdOpts [uo_Endpoint uriOpts] (uo_Username uriOpts) (uo_Password uriOpts) (uo_KeyFile uriOpts)
    (uo_CertFile uriOpts) (uo_CaPath uriOpts) (uo_CaFile uriOpts) (uo_SkipHostVerify uriOpts)
    (uo_Timeout uriOpts).

Record SwitchCtx := mkSwitchCtx {
  sw_InstName : string; sw_Username : string; sw_Password : string; sw_Wait : bool; sw_Timeout : Z
}.

Definition failover_key (uriOpts : UriOpts) (id : string) : string := uo_Prefix uriOpts +:+ failoverPath +:+ id.

(** [switch_yaml]: [yaml.Marshal] of the command; [status value]: the status of
    a decoded result; [etcd_Put]; [watch client key w]: the values put under the
    key from then on until the timeout, and the error of the context after that
    if it is not the deadline; [uuid]: a new identifier. *)
Context (switch_yaml : string -> Z -> result string) (switch_status : string -> result string).
Context (etcd_Put : EtcdClient W -> string -> string -> W -> option error * W).
Context (watch : EtcdClient W -> string -> W -> list string * option error).

(** The values until one has a final status; the printed text. *)
Fixpoint watch_status (values : list string) (timed_out : option error) : option error * string :=
  match values with
  | [] => (timed_out, "")
  | value :: values =>
      match switch_status value with
      | Err err => (Some err, "")
      | Ok status =>
          if decide (status = "success" \/ status = "failed") then (None, value)
          else let '(err, printed) := watch_status values timed_out in (err, value +:+ printed)
      end
  end.

Definition status_hint (uri : URL) (uuid : string) : string :=
  "To check the switching status, run:" +:+ String (ascii_of_nat 10) "" +:+
  "tt cluster failover switch-status " +:+ url_text uri +:+ " " +:+ uuid +:+ String (ascii_of_nat 10) "".

Definition Switch (uuid : string) (uri : URL) (switchCtx : SwitchCtx) (w : W) : option error * string * W :=
  match ParseUriOpts uri with
  | Err err => (Some (invalid_url uri err), "", w)
  | Ok uriOpts =>
      match libcluster_ConnectEtcd (makeEtcdOpts uriOpts) with
      | Err err => (Some (Wrapf "unable to connect to etcd: %w" [] err), "", w)
      | Ok etcd =>
          match switch_yaml (sw_InstName switchCtx) (sw_Timeout switchCtx) with
          | Err err => (Some err, "", etcd_Close etcd w)
          | Ok yamlCmd =>
              let key := failover_key uriOpts uuid in
              match etcd_Put etcd key yamlCmd w with
              | (Some err, w) => (Some err, "", etcd_Close etcd w)
              | (None, w') =>
                  let '(err, printed) :=
                    if sw_Wait switchCtx then
                      let '(values, timed_out) := watch etcd key w in watch_status values timed_out
                    else (None, status_hint uri uuid) in
                  (err, printed, etcd_Close etcd w')
              end
          end
      end
  end.

Definition SwitchStatus (uri : URL) (taskID : string) (w : W) : option error * string * W :=
  match ParseUriOpts uri with
  | Err err => (Some (invalid_url uri err), "", w)
  | Ok uriOpts =>
      match libcluster_ConnectEtcd (makeEtcdOpts uriOpts) with
      | Err err => (Some (Wrapf "unable to connect to etcd: %w" [] err), "", w)
      | Ok etcd =>
          match @etcd_Get W etcd (WithTimeout (3 * Second)) (failover_key uriOpts taskID) false w with
          | (Err err, w) => (Some err, "", etcd_Close etcd w)
          | (Ok [kv], w) => (None, KValue kv, etcd_Close etcd w)
          | (Ok _, w) => (Some (Errorf "task with id `%s` is not found" [taskID]), "", etcd_Close etcd w)
          end
      end
  end.

(** ** [cli/cmd/common.go]: which factories a command uses

    [checkFunc]: what [GetCheckFunction] gives, [None] for [ErrNotConfigured];
    [signFunc]: what [GetSignFunction] gives for the private key. *)
Definition errNoConfig : error :=
  Errorf "tt.yaml not found, you need to create tt environment config with 'tt init' or provide exact config location with --cfg option" [].

Definition createDataCollectors (plain : DataCollectorFactory W)
    (with_check : CheckFunc -> DataCollectorFactory W) (checkFunc : result (option CheckFunc))
    : result (DataCollectorFactory W) :=
  match checkFunc with
  | Ok None => Ok plain
  | Err err => Err (Wrapf "failed to create collectors with integrity check: %w" [] err)
  | Ok (Some f) => Ok (with_check f)
  end.

Definition createDataPublishers (plain : DataPublisherFactory W)
    (with_sign : SignFunc -> DataPublisherFactory W) (privateKey : string) (signFunc : result SignFunc)
    : result (DataPublisherFactory W) :=
  if decide (privateKey <> "") then
    rmap with_sign (rwrap "failed to create publishers with integrity: %w" [] signFunc)
  else Ok plain.

Definition createDataCollectorsAndDataPublishers (collectors : result (DataCollectorFactory W))
    (publishers : result (DataPublisherFactory W)) : result (DataCollectorFactory W * DataPublisherFactory W) :=
  collectors <-? collectors;; publishers <-? publishers;; Ok (collectors, publishers).

(** ** [cli/cmd/cluster.go]: the entry points *)

(** [url.Parse], with the opaque part; [os.ReadFile]; the name of the
    configuration of [tt]; [FillCtx] for an application, as the cluster
    configuration of its first instance or the empty text; the default path of
    the configuration of an application. *)
Context (url_Parse : string -> result (URL * string)) (os_ReadFile : string -> W -> result string).
Context (configPath_ : string) (fill_ctx : string -> W -> result string * W).
Context (default_config_path : string -> W -> result string).

Definition parseUrl (str : string) : result URL :=
  match url_Parse str with
  | Err err => Err err
  | Ok (uri, opaque) =>
      if decide (url_Scheme uri <> "" /\ url_Host uri <> "" /\ opaque = "") then Ok uri
      else Err (Errorf "specified string can not be recognized as URL" [])
  end.

Definition readSourceFile (path : string) (w : W) : result (string * Config) :=
  match os_ReadFile path w with
  | Err err => Err (Wrapf "failed to read path %q: %s" [path] err)
  | Ok data =>
      match YamlCollector_Collect data with
      | Err err => Err (Wrapf "failed to read a configuration from path %q: %s" [path] err)
      | Ok config => Ok (data, config)
      end
  end.

(** [strings.Cut(appStr, ":")] *)
Definition cut_app (appStr : string) : string * string :=
  match split2 appStr ":" with Some (app, inst) => (app, inst) | None => (appStr, "") end.

Definition parseAppStr (appStr : string) (w : W) : result (string * string * string) * W :=
  if decide (configPath_ = "") then
    (Err (Wrapf "unable to resolve the application name %q: %w" [appStr] errNoConfig), w)
  else
    let '(appName, instName) := cut_app appStr in
    match fill_ctx appName w with
    | (Err err, w) => (Err err, w)
    | (Ok configPath, w) => (Ok (configPath, appName, instName), w)
    end.

Definition internalClusterShowModule (collectors : result (DataCollectorFactory W)) (username password : string)
    (validate : bool) (arg : string) (w : W) : option error * string * W :=
  match collectors with
  | Err err => (Some err, "", w)
  | Ok dataCollectors =>
      let showCtx := mkShowCtx username password (NewCollectorFactory dataCollectors) validate in
      match parseUrl arg with
      | Ok uri => ShowUri showCtx uri w
      | Err _ =>
          match parseAppStr arg w with
          | (Err err, w) => (Some err, "", w)
          | (Ok (configPath, _, instName), w) =>
              if decide (configPath = "") then
                (Some (Errorf "cluster configuration file does not exist for the application" []), "", w)
              else ShowCluster showCtx configPath instName w
          end
      end
  end.

Definition internalClusterPublishModule
    (factories : result (DataCollectorFactory W * DataPublisherFactory W)) (username password : string)
    (force : bool) (group replicaset : string) (target file : string) (w : W) : option error * W :=
  match factories with
  | Err err => (Some err, w)
  | Ok (dataCollectors, dataPublishers) =>
      match readSourceFile file w with
      | Err err => (Some err, w)
      | Ok (data, config) =>
          let publishCtx := mkPublishCtx username password force dataPublishers
                              (NewCollectorFactory dataCollectors) data config group replicaset in
          match parseUrl target with
          | Ok uri => PublishUri publishCtx uri w
          | Err _ =>
              match parseAppStr target w with
              | (Err err, w) => (Some err, w)
              | (Ok (configPath, appName, instName), w) =>
                  if decide (configPath <> "") then PublishCluster publishCtx configPath instName w
                  else if decide (instName <> "") then
                    (Some (Errorf "can not to update an instance configuration if a cluster configuration file does not exist for the application" []), w)
                  else match default_config_path appName w with
                       | Err err => (Some err, w)
                       | Ok configPath => PublishCluster publishCtx configPath instName w
                       end
              end
          end
      end
  end.

Definition no_source_uri (err : error) : error := Wrapf "failed to parse config source URI: %w" [] err.

Definition replicaset_module (str : string) (factories : result (DataCollectorFactory W * DataPublisherFactory W))
    (command : DataCollectorFactory W -> DataPublisherFactory W -> URL -> W -> option error * W) (w : W)
    : option error * W :=
  match parseUrl str with
  | Err err => (Some (no_source_uri err), w)
  | Ok uri =>
      match factories with
      | Err err => (Some err, w)
      | Ok (collectors, publishers) => command collectors publishers uri w
      end
  end.

Definition internalClusterReplicasetPromoteModule prompt connOpts factories (force : bool) (str inst : string)
    : W -> option error * W :=
  replicaset_module str factories (fun collectors publishers uri =>
    cluster_Promote prompt collectors publishers connOpts uri (mkInstanceOpCtx inst force 0)).

Definition internalClusterReplicasetDemoteModule prompt connOpts factories (force : bool) (str inst : string)
    : W -> option error * W :=
  replicaset_module str factories (fun collectors publishers uri =>
    cluster_Demote prompt collectors publishers connOpts uri (mkInstanceOpCtx inst force 0)).

Definition internalClusterReplicasetExpelModule prompt connOpts factories (force : bool) (str inst : string)
    : W -> option error * W :=
  replicaset_module str factories (fun collectors publishers uri =>
    cluster_Expel prompt collectors publishers connOpts uri (mkInstanceOpCtx inst force 0)).

Definition checkRolesAddFlags (ctx : RolesAddCtx) : option error :=
  if negb (ra_IsGlobal ctx) && bool_decide (ra_GroupName ctx = "") && bool_decide (ra_ReplicasetName ctx = "")
     && bool_decide (ra_InstName ctx = "")
  then Some (Errorf "need to provide flag(s) with scope roles will added" []) else None.

Definition internalClusterReplicasetRolesAddModule prompt connOpts factories (ctx : RolesAddCtx) (str : string) (w : W)
    : option error * W :=
  match checkRolesAddFlags ctx with
  | Some err => (Some err, w)
  | None =>
      replicaset_module str factories (fun collectors publishers uri =>
        cluster_AddRole prompt collectors publishers connOpts uri ctx) w
  end.

Definition internalClusterFailoverSwitchModule (uuid : string) (switchCtx : SwitchCtx) (str : string) (w : W)
    : option error * string * W :=
  match parseUrl str with
  | Err err => (Some (no_source_uri err), "", w)
  | Ok uri => Switch uuid uri switchCtx w
  end.

Definition internalClusterFailoverSwitchStatusModule (str taskID : string) (w : W) : option error * string * W :=
  match parseUrl str with
  | Err err => (Some (no_source_uri err), "", w)
  | Ok uri => SwitchStatus uri taskID w
  end.
End ClusterCmd.
