(* ===== verification/ClusterCmdProps.v ===== *)
(** * What the cluster commands guarantee

    The schema lists every path that an environment variable may set, once; a
    configuration that is published without force conforms to it; an instance is
    published into its own place; and a collection that an environment variable
    sets is never valid. *)
From S2P Require Import Prelude GoStrings Storages Value Config ConfigFacts Cluster ClusterProps.
From S2P Require Import Validators ValidatorsProps Sources Etcd Tarantool TarantoolSchema.
From S2P Require Import Regexp Uri ClusterGet Replicaset CConfigSource ClusterCmd.
Local Open Scope go_scope.

(** ** The schema *)
Lemma schema_paths : map Path TarantoolSchema = ConfigEnvPaths.
Proof. vm_compute. reflexivity. Qed.

Lemma schema_path_env p : p ∈ TarantoolSchema -> Path p ∈ ConfigEnvPaths.
Proof. intros Hp. rewrite <- schema_paths. by apply list_elem_of_fmap_2. Qed.

Lemma schema_path_ne p : p ∈ TarantoolSchema -> exists k path, Path p = k :: path.
Proof.
  intros Hp%schema_path_env. assert (forallb (fun q => bool_decide (q <> [])) ConfigEnvPaths = true) as Hf
    by (vm_compute; reflexivity).
  rewrite forallb_forall in Hf. specialize (Hf (Path p) (proj1 (list_elem_of_In _ _) Hp)).
  apply bool_decide_eq_true in Hf. destruct (Path p) as [|k path]; [done|eauto].
Qed.

(** Validators of values that are not scalars. *)
Definition collection (w : Validator) : bool :=
  match w with ArrayValidator _ | RecordValidator _ | MapValidator _ _ => true | _ => false end.

Section commands.
Context {W : Type} `{Yaml} `{!Services W} `{GoMapOrder} `{GoSort} `{GoText}.

(** Every value that a configuration has at a path of the schema is valid there,
    and the validated value has the type that the schema gives it. *)
Definition conforms_schema (config : Config) : Prop :=
  forall p v, p ∈ TarantoolSchema -> Get config (Path p) = Ok v ->
    exists r, validate (PathValidator p) v = Ok r /\ conforms (PathValidator p) r.

Lemma Validate_None config : Validate config TarantoolSchema = None <-> conforms_schema config.
Proof.
  assert (Validate config TarantoolSchema = None <-> schema_errors config TarantoolSchema = []) as ->.
  { unfold Validate. by destruct (schema_errors config TarantoolSchema). }
  rewrite schema_errors_nil. unfold conforms_schema. split; intros Hv p v Hp Hg.
  - specialize (Hv p v Hp Hg). destruct (validate (PathValidator p) v) as [r|] eqn:E; [|done].
    exists r. split; [done|]. by eapply validated_conforms.
  - by destruct (Hv p v Hp Hg) as (r & -> & _).
Qed.

Lemma validateInstance_None config name : validateInstanceConfig config name = None <-> conforms_schema config.
Proof. rewrite <- Validate_None. unfold validateInstanceConfig. by destruct (Validate config TarantoolSchema). Qed.

Lemma validate_instances_raw cc names errs :
  exists errs', validate_instances false cc names errs = Ok (errs ++ errs') /\
    (errs' = [] <-> Forall (fun name => conforms_schema (Instantiate cc name)) names).
Proof.
  revert errs. induction names as [|name names IH]; intros errs.
  { exists []. rewrite app_nil_r. split; [done|]. split; [constructor|done]. }
  cbn [validate_instances instance_config].
  pose proof (validateInstance_None (Instantiate cc name) name) as Hv.
  destruct (validateInstanceConfig (Instantiate cc name) name) as [err|].
  - destruct (IH (errs ++ [err])) as (errs' & -> & _). exists (err :: errs'). rewrite <- app_assoc.
    split; [done|]. split; [done|]. intros [Hn _]%Forall_cons. by apply Hv in Hn.
  - destruct (IH errs) as (errs' & -> & He). exists errs'. split; [done|]. rewrite He, Forall_cons.
    split; [|by intros []]. intros Hf. split; [by apply Hv|done].
Qed.

(** What validation of a whole configuration accepts. *)
Definition valid_cluster (config : Config) : Prop :=
  exists cc, MakeClusterConfig config = Ok cc /\ conforms_schema (raw_or_panic (cluster_raw cc)) /\
    Forall (fun name => conforms_schema (Instantiate cc name)) (Instances cc).

Lemma validateRawCluster_None config : validateRawClusterConfig config = None <-> valid_cluster config.
Proof.
  unfold validateRawClusterConfig, valid_cluster. destruct (MakeClusterConfig config) as [cc|e];
    [|split; [done|by intros (cc & ? & _)]].
  unfold validateClusterConfig. pose proof (Validate_None (raw_or_panic (cluster_raw cc))) as Hv.
  set (errs := match Validate _ _ with Some err => _ | None => _ end).
  destruct (validate_instances_raw cc (Instances cc) errs) as (errs' & -> & He).
  assert (errs = [] <-> conforms_schema (raw_or_panic (cluster_raw cc))) as Hc.
  { unfold errs. rewrite <- Hv. by destruct (Validate _ _). }
  unfold errors_Join. transitivity (errs = [] /\ errs' = []).
  { destruct errs, errs'; naive_solver. }
  rewrite Hc, He. split; [intros [Hcc Hi]; by exists cc|]. by intros (cc' & [= <-] & ? & ?).
Qed.

(** What a publication without force must have accepted before it begins. *)
Definition valid_source (config : Config) (instance : string) : Prop :=
  if decide (instance = "") then valid_cluster config else conforms_schema config.

Lemma validateRaw_None config instance : validateRawConfig config instance = None <-> valid_source config instance.
Proof.
  unfold validateRawConfig, valid_source. case_decide; [apply validateRawCluster_None|apply validateInstance_None].
Qed.

Lemma publish_validated ctx instance :
  pub_Force ctx = false ->
  match publishCtxValidateConfig (W:=W) ctx instance with
  | None => valid_source (pub_Config ctx) instance
  | Some _ => ~ valid_source (pub_Config ctx) instance
  end.
Proof.
  intros Hf. unfold publishCtxValidateConfig. rewrite Hf. cbn [negb].
  pose proof (validateRaw_None (pub_Config ctx) instance) as Hv.
  destruct (validateRawConfig _ _); rewrite <- Hv; done.
Qed.

Lemma PublishUri_validates (ctx : PublishCtx (W:=W)) uri w :
  pub_Force ctx = false ->
  let '(err, w') := PublishUri ctx uri w in
  (exists e, err = Some e /\ w' = w) \/
  exists opts, ParseUriOpts uri = Ok opts /\ valid_source (pub_Config ctx) (uo_Instance opts).
Proof.
  intros Hf. unfold PublishUri. destruct (ParseUriOpts uri) as [opts|e]; [|left; by eexists].
  pose proof (publish_validated ctx (uo_Instance opts) Hf) as Hv.
  destruct (publishCtxValidateConfig ctx (uo_Instance opts)); [left; by eexists|].
  match goal with |- let '(_, _) := ?x in _ => destruct x end. right. by exists opts.
Qed.

Lemma PublishCluster_validates (ctx : PublishCtx (W:=W)) path instance w :
  pub_Force ctx = false ->
  let '(err, w') := PublishCluster ctx path instance w in
  (exists e, err = Some e /\ w' = w) \/ valid_source (pub_Config ctx) instance.
Proof.
  intros Hf. unfold PublishCluster. pose proof (publish_validated ctx instance Hf) as Hv.
  destruct (publishCtxValidateConfig ctx instance); [left; by eexists|].
  match goal with |- let '(_, _) := ?x in _ => destruct x end. by right.
Qed.

Context (url_Parse : string -> result (URL * string)) (os_ReadFile : string -> W -> result string).
Context (configPath_ : string) (fill_ctx : string -> W -> result string * W).
Context (default_config_path : string -> W -> result string).
Notation publish_command := (internalClusterPublishModule url_Parse os_ReadFile configPath_ fill_ctx default_config_path).

(** The instance that the target of a publication names: the name of a URL, or
    what follows the colon of an application. *)
Definition target_instance (target : string) : result string :=
  match parseUrl url_Parse target with
  | Ok uri => rmap uo_Instance (ParseUriOpts uri)
  | Err _ => Ok (cut_app target).2
  end.

(** C28: A publication without force that does more than resolve the
    application and fail has read a file that decodes to a configuration which
    conforms to the schema of Tarantool: the configuration of an instance
    itself, or a cluster configuration as a whole and instantiated for each of
    its instances, and every validated value has the type of its path. *)
Theorem publish_validates factories username password group replicaset target file w :
  let '(err, w') := publish_command factories username password false group replicaset target file w in
  (exists e, err = Some e /\ (w' = w \/ w' = (fill_ctx (cut_app target).1 w).2)) \/
  (exists data config instance, os_ReadFile file w = Ok data /\ YamlCollector_Collect data = Ok config /\
     target_instance target = Ok instance /\ valid_source config instance).
Proof.
  unfold internalClusterPublishModule, target_instance. destruct factories as [[dc dp]|e]; [|left; eauto].
  unfold readSourceFile. destruct (os_ReadFile file w) as [data|e]; [|left; eauto].
  destruct (YamlCollector_Collect data) as [config|e] eqn:Ey; [|left; eauto].
  set (ctx := mkPublishCtx _ _ _ _ _ _ _ _ _).
  destruct (parseUrl url_Parse target) as [uri|e].
  - pose proof (PublishUri_validates ctx uri w eq_refl) as Hv. destruct (PublishUri ctx uri w) as [err w'].
    destruct Hv as [(e & -> & ->)|(opts & Ho & Hv)]; [left; eauto|right].
    exists data, config, (uo_Instance opts). by rewrite Ho.
  - unfold parseAppStr. case_decide; [left; eauto|]. destruct (cut_app target) as [app inst].
    cbn [fst snd]. destruct (fill_ctx app w) as [[path|e'] w1]; [|left; eauto]. cbn [snd].
    assert (forall path, let '(err, w') := PublishCluster ctx path inst w1 in
      (exists e, err = Some e /\ (w' = w \/ w' = w1)) \/
      (exists data0 config0 instance, Ok data = Ok data0 /\ YamlCollector_Collect data0 = Ok config0 /\
         Ok inst = Ok instance /\ valid_source config0 instance)) as Hp.
    { intros path'. pose proof (PublishCluster_validates ctx path' inst w1 eq_refl) as Hv.
      destruct (PublishCluster ctx path' inst w1) as [err w'].
      destruct Hv as [(e' & -> & ->)|Hv]; [left; eauto|right]. by exists data, config, inst. }
    case_decide; [apply Hp|]. case_decide; [left; eauto|].
    destruct (default_config_path app w1) as [path'|e']; [apply Hp|left; eauto].
Qed.

(** ** The place of a published instance *)

(** The group and the replicaset an instance is published into: where it is, if
    the names given agree with it, or else those given, the group of the
    replicaset when none is given. *)
Inductive published_place (cc : ClusterConfig) (group replicaset instance : string) : string -> string -> Prop :=
| place_known g r :
    FindInstance cc instance = Some (g, r) -> (replicaset = "" \/ replicaset = r) -> (group = "" \/ group = g) ->
    published_place cc group replicaset instance g r
| place_given :
    FindInstance cc instance = None -> replicaset <> "" -> group <> "" ->
    published_place cc group replicaset instance group replicaset
| place_found g :
    FindInstance cc instance = None -> replicaset <> "" -> group = "" ->
    FindGroupByReplicaset cc replicaset = Some g ->
    published_place cc group replicaset instance g replicaset.

Lemma updated_cluster_place group replicaset instance config src cc' :
  updated_cluster group replicaset instance config src = Ok cc' <->
  exists cc g r, MakeClusterConfig src = Ok cc /\ published_place cc group replicaset instance g r /\
    SetInstanceConfig cc g r instance config = Ok cc'.
Proof.
  unfold updated_cluster, rwrap. destruct (MakeClusterConfig src) as [cc|e];
    [|split; [done|by intros (? & ? & ? & ? & _)]].
  cbn [rbind]. rewrite ReplaceInstanceConfig_eq. split.
  - destruct (FindInstance cc instance) as [[g r]|] eqn:Ef.
    + case_decide as Hr; [done|]. case_decide as Hg; [done|].
      destruct (SetInstanceConfig cc g r instance config) as [x|] eqn:Es; intros [= <-].
      exists cc, g, r. split; [done|]. split; [|done]. constructor; [done|..].
      * destruct (decide (replicaset = "")), (decide (replicaset = r)); tauto.
      * destruct (decide (group = "")), (decide (group = g)); tauto.
    + case_decide as Hr; [done|]. case_decide as Hg; cbn [rbind].
      * destruct (FindGroupByReplicaset cc replicaset) as [g|] eqn:Eg; [|done]. cbn [rbind].
        destruct (SetInstanceConfig cc g replicaset instance config) as [x|] eqn:Es; intros [= <-].
        exists cc, g, replicaset. split; [done|]. split; [by apply place_found|done].
      * destruct (SetInstanceConfig cc group replicaset instance config) as [x|] eqn:Es; intros [= <-].
        exists cc, group, replicaset. split; [done|]. split; [by apply place_given|done].
  - intros (cc0 & g & r & [= <-] & Hp & Hs). destruct Hp as [g r Hf Hr Hg|Hf Hr Hg|g Hf Hr Hg Hfg]; rewrite Hf.
    + rewrite !decide_False by naive_solver. by rewrite Hs.
    + rewrite !decide_False by done. cbn [rbind]. by rewrite Hs.
    + rewrite decide_False, decide_True by done. rewrite Hfg. cbn [rbind]. by rewrite Hs.
Qed.

(** [setInstanceConfig] publishes exactly one document, the configuration it
    collected with the instance set in its place, and nothing when there is no
    such place. *)
Theorem setInstanceConfig_place group replicaset instance config collector publisher (w : W) :
  let '(r, w1) := collect collector w in
  let '(err, w') := setInstanceConfig group replicaset instance config collector publisher w in
  (exists src cc g rs cc', r = Ok src /\ MakeClusterConfig src = Ok cc /\
     published_place cc group replicaset instance g rs /\ SetInstanceConfig cc g rs instance config = Ok cc' /\
     (err, w') = publish (NewYamlConfigPublisher publisher) (cluster_raw cc') w1) \/
  (err <> None /\ w' = w1 /\
   forall src cc g rs cc', r = Ok src -> MakeClusterConfig src = Ok cc ->
     published_place cc group replicaset instance g rs -> SetInstanceConfig cc g rs instance config <> Ok cc').
Proof.
  unfold setInstanceConfig. destruct (collect collector w) as [[src|e] w1]; [|by right].
  pose proof (updated_cluster_place group replicaset instance config src) as Hu.
  destruct (updated_cluster group replicaset instance config src) as [cc'|e].
  - destruct (Hu cc') as [Hu1 _]. destruct (Hu1 eq_refl) as (cc & g & rs & Hm & Hp & Hs).
    destruct (publish (NewYamlConfigPublisher publisher) (cluster_raw cc') w1) as [err w'] eqn:Epub. left.
    by exists src, cc, g, rs, cc'.
  - right. split; [done|]. split; [done|]. intros src0 cc g rs cc' [= <-] Hm Hp Hs.
    destruct (Hu cc') as [_ Hu2]. by discriminate Hu2; exists cc, g, rs.
Qed.

(** ** Collections in environment variables *)
Lemma collection_string w s : collection w = true -> is_ok (validate w (VStr s)) = false.
Proof. by destruct w. Qed.

Lemma string_invalid config p s :
  p ∈ TarantoolSchema -> collection (PathValidator p) = true -> Get config (Path p) = Ok (VStr s) ->
  ~ conforms_schema config.
Proof.
  intros Hp Hc Hg Hs. destruct (Hs p (VStr s) Hp Hg) as (r & Hr & _).
  pose proof (collection_string (PathValidator p) s Hc) as Hn. by rewrite Hr in Hn.
Qed.

(** A path of the schema with an array, a record or a map that an
    environment variable sets has the text of the variable as a string, so
    that the configuration of the environment, and with it the full
    configuration of every instance, never passes validation. *)
Theorem env_collection_invalid p s :
  p ∈ TarantoolSchema -> collection (PathValidator p) = true ->
  LookupEnv (main_env_name (Path p)) = Some s ->
  exists env, mainEnvCollector = Ok env /\ Get env (Path p) = Ok (VStr s) /\
    Validate env TarantoolSchema <> None /\
    forall cluster name, plain (paths (Instantiate cluster name)) ->
      validateInstanceConfig (Merge (Merge NewConfig env) (Instantiate cluster name)) name <> None.
Proof.
  intros Hp Hc He. unfold mainEnvCollector.
  destruct (EnvCollector_collected LookupEnv main_env_name) as (env & Ee & Hv). exists env. split; [done|].
  specialize (Hv _ (schema_path_env p Hp)). rewrite He, to_option_Get in Hv.
  assert (Get env (Path p) = Ok (VStr s)) as Hg.
  { apply Get_Ok. by destruct (lookup_path (paths env) (Path p)); simplify_eq/=. }
  split; [done|]. rewrite Validate_None. split; [by apply string_invalid with p s|].
  intros cluster name Hpl. rewrite validateInstance_None.
  apply (string_invalid _ p s Hp Hc).
  destruct (schema_path_ne p Hp) as (k & path & Hk). rewrite Hk in *.
  apply (merge_documents_first [] env [Instantiate cluster name]); [|constructor|done|done].
  pose proof (EnvCollector_plain _ _ _ Ee). by repeat constructor.
Qed.
End commands.

(** How many paths of the schema have a collection. *)
Example schema_collections : length (List.filter (fun p => collection (PathValidator p)) TarantoolSchema) = 18.
Proof. vm_compute. reflexivity. Qed.

(** ** Samples *)
Definition cmd_document : value :=
  VMap {[KStr "app" := VMap {[KStr "file" := VStr "a.lua"]}]}.

(** A world that keeps what was published. *)
Definition log_publishers : DataPublisherFactory (list string) :=
  mkDataPublisherFactory
    (fun path => Ok (mkDataPublisher (fun _ data w => (None, w ++ [path; default "" data]))))
    (fun _ _ _ _ => Err (Errorf "no etcd" [])) (fun _ _ _ _ => Err (Errorf "no storage" [])).

Definition log_collectors : DataCollectorFactory (list string) :=
  mkDataCollectorFactory (fun _ => Err (Errorf "no file" [])) (fun _ _ _ _ => Err (Errorf "no etcd" []))
    (fun _ _ _ _ => Err (Errorf "no storage" [])).

Definition cmd_publish : option error * list string :=
  @internalClusterPublishModule (list string) (document_yaml cmd_document) (sample_services (fun _ => None))
    canonical_order insertion_go_sort integer_text (fun _ => Err (Errorf "no url" []))
    (fun _ _ => Ok "app: {file: a.lua}") "tt.yaml" (fun _ w => (Ok "config.yaml", w))
    (fun _ _ => Err (Errorf "" [])) (Ok (log_collectors, log_publishers)) "" "" false "" "" "app" "new.yaml" [].

Lemma publish_validates_witness :
  cmd_publish = (None, ["config.yaml"; "app: {file: a.lua}"]) /\
  exists config, @valid_source (document_yaml cmd_document) canonical_order insertion_go_sort integer_text
    config "".
Proof.
  assert (cmd_publish = (None, ["config.yaml"; "app: {file: a.lua}"])) as Hp by (vm_compute; reflexivity).
  split; [exact Hp|].
  pose proof (@publish_validates (list string) (document_yaml cmd_document) (sample_services (fun _ => None))
    canonical_order insertion_go_sort integer_text (fun _ => Err (Errorf "no url" []))
    (fun _ _ => Ok "app: {file: a.lua}") "tt.yaml" (fun _ w => (Ok "config.yaml", w))
    (fun _ _ => Err (Errorf "" [])) (Ok (log_collectors, log_publishers)) "" "" "" "" "app" "new.yaml" []) as Hc.
  fold cmd_publish in Hc. rewrite Hp in Hc.
  destruct Hc as [(e & He & _)|(data & config & instance & _ & _ & Hi & Hv)]; [discriminate He|].
  injection Hi as <-. exists config. exact Hv.
Defined.

Definition roles_env (name : string) : option string :=
  if decide (name = "TT_ROLES") then Some "storage" else None.

Lemma env_collection_invalid_witness :
  exists env, @mainEnvCollector unit (sample_services roles_env) = Ok env /\
    @Validate insertion_go_sort canonical_order integer_text env TarantoolSchema <> None.
Proof.
  destruct (@env_collection_invalid unit (sample_services roles_env)
    canonical_order insertion_go_sort integer_text (mkSchemaPath ["roles"] (ArrayValidator StringValidator)) "storage")
    as (env & He & _ & Hv & _).
  - apply (list_elem_of_lookup_2 _ 155). vm_compute. reflexivity.
  - reflexivity.
  - vm_compute. reflexivity.
  - exists env. split; [exact He|exact Hv].
Defined.
