(* ===== verification/Running.v ===== *)
(** * Applications and their instances ([cli/running/running.go],
    [instance_filter.go], [cli/running/internal/layout],
    [cli/util/regexputil])

    Which instances an application has, and where their files are.  The loading
    of the configuration of an instance is [ClusterGet]'s; the integrity
    repository and the reading of a YAML file into a map are parameters. *)
From S2P Require Import Prelude GoStrings GoPath GoOs Regexp Value Config Cluster Sources Tarantool.
From S2P Require Import ClusterGet Configure Version.
Open Scope go_scope.

(** ** The context of an instance *)
Record InstanceCtx := mkRunCtx {
  run_AppDir : string;
  run_InstanceScript : string;
  run_AppName : string;
  run_InstName : string;
  run_RunDir : string;
  run_LogDir : string;
  run_Log : string;
  run_WalDir : string;
  run_MemtxDir : string;
  run_VinylDir : string;
  run_PIDFile : string;
  run_Restartable : bool;
  run_ConsoleSocket : string;
  run_BinaryPort : string;
  run_SingleApp : bool;
  run_IsFileApp : bool;
  run_ClusterConfigPath : string;
  run_Configuration : InstanceConfig
}.

(** The fields that the search for instances sets; the others are zero. *)
Definition found_ctx (AppDir InstanceScript AppName InstName : string) (SingleApp IsFileApp : bool)
    (ClusterConfigPath : string) (Configuration : InstanceConfig) : InstanceCtx :=
  mkRunCtx AppDir InstanceScript AppName InstName "" "" "" "" "" "" "" false "" ""
    SingleApp IsFileApp ClusterConfigPath Configuration.

Definition stateBoardInstName : string := "stateboard".
Definition clusterConfigDefaultFileName : string := "config.yml".
Definition InstanceDelimiter : ascii := ":".

Definition GetAppPath (instance : InstanceCtx) : string :=
  if run_IsFileApp instance then run_InstanceScript instance else run_AppDir instance.

Definition GetAppInstanceName (instance : InstanceCtx) : string :=
  if run_SingleApp instance then run_AppName instance
  else run_AppName instance +:+ String InstanceDelimiter (run_InstName instance).

(** ** Layouts *)
Record MultiInstLayout := mkMultiInst { mi_baseDir : string; mi_appName : string; mi_instanceName : string }.
Record TntCtlLayout := mkTntCtl { tc_baseDir : string; tc_appName : string }.

Definition NewMultiInstLayout (baseDir appName instanceName : string) : result MultiInstLayout :=
  if decide (baseDir = "") then Err (Errorf "base directory cannot be empty" [])
  else if decide (appName = "") then Err (Errorf "application name cannot be empty" [])
  else if decide (instanceName = "") then Err (Errorf "instance name cannot be empty" [])
  else Ok (mkMultiInst baseDir appName instanceName).

Definition NewTntCtlLayout (baseDir appName : string) : result TntCtlLayout :=
  if decide (appName = "") then Err (Errorf "application name cannot be empty" [])
  else if decide (baseDir = "") then Err (Errorf "base directory cannot be empty" [])
  else Ok (mkTntCtl baseDir appName).

Definition genFilePath (layout : MultiInstLayout) (subdir fileName : string) : string :=
  let dstDir :=
    if IsAbs subdir
    then JoinPaths [mi_baseDir layout; subdir; mi_appName layout; mi_instanceName layout]
    else JoinPaths [mi_baseDir layout; subdir; mi_instanceName layout] in
  filepath_Join [dstDir; fileName].

Definition genRuntimeFilePath (layout : TntCtlLayout) (subdir fileName : string) : string :=
  JoinPaths [tc_baseDir layout; subdir; fileName].

(** The interface [Layout] and its two implementations. *)
Record Layout := mkLayout {
  PidFile : string -> string;
  ConsoleSocket_of : string -> string;
  LogFile : string -> string;
  DataDir : string -> string;
  BinaryPort_of : string -> string
}.

Definition multi_inst_layout (l : MultiInstLayout) : Layout := {|
  PidFile dir := genFilePath l dir "tt.pid";
  ConsoleSocket_of dir := genFilePath l dir "tarantool.control";
  LogFile dir := genFilePath l dir "tt.log";
  DataDir dir := path_Dir (genFilePath l dir "0");
  BinaryPort_of dir := genFilePath l dir "tarantool.sock"
|}.

Definition tnt_ctl_layout (l : TntCtlLayout) : Layout := {|
  PidFile dir := genRuntimeFilePath l dir (tc_appName l +:+ ".pid");
  ConsoleSocket_of dir := genRuntimeFilePath l dir (tc_appName l +:+ ".control");
  LogFile dir := genRuntimeFilePath l dir (tc_appName l +:+ ".log");
  DataDir dir := JoinPaths [tc_baseDir l; dir; tc_appName l];
  BinaryPort_of dir := genRuntimeFilePath l dir (tc_appName l +:+ ".sock")
|}.

(** ** Settings of an instance *)
Definition set_restartable (b : bool) (i : InstanceCtx) : InstanceCtx :=
  mkRunCtx (run_AppDir i) (run_InstanceScript i) (run_AppName i) (run_InstName i) (run_RunDir i)
    (run_LogDir i) (run_Log i) (run_WalDir i) (run_MemtxDir i) (run_VinylDir i) (run_PIDFile i) b
    (run_ConsoleSocket i) (run_BinaryPort i) (run_SingleApp i) (run_IsFileApp i)
    (run_ClusterConfigPath i) (run_Configuration i).

Definition set_files (runDir logDir log wal memtx vinyl pid console binary : string) (i : InstanceCtx)
    : InstanceCtx :=
  mkRunCtx (run_AppDir i) (run_InstanceScript i) (run_AppName i) (run_InstName i) runDir logDir log
    wal memtx vinyl pid (run_Restartable i) console binary (run_SingleApp i) (run_IsFileApp i)
    (run_ClusterConfigPath i) (run_Configuration i).

Definition setInstCtxFromTtConfig (inst : InstanceCtx) (cliOpts : CliOpts) (ttConfigDir : string)
    : result InstanceCtx :=
  let '(inst, tarantoolCtlLayout) :=
    match opts_Env cliOpts with
    | Some env => (set_restartable (env_Restartable env) inst, env_TarantoolctlLayout env)
    | None => (inst, false)
    end in
  match opts_App cliOpts with
  | None => Ok inst
  | Some app =>
      envLayout <-?
        (if tarantoolCtlLayout && run_SingleApp inst
         then rmap tnt_ctl_layout (NewTntCtlLayout ttConfigDir (run_AppName inst))
         else rmap multi_inst_layout
                (NewMultiInstLayout (run_AppDir inst) (run_AppName inst) (run_InstName inst)));;
      let console := ConsoleSocket_of envLayout (app_RunDir app) in
      let log := LogFile envLayout (app_LogDir app) in
      Ok (set_files (path_Dir console) (path_Dir log) log (DataDir envLayout (app_WalDir app))
            (DataDir envLayout (app_MemtxDir app)) (DataDir envLayout (app_VinylDir app))
            (PidFile envLayout (app_RunDir app)) console (BinaryPort_of envLayout (app_RunDir app)) inst)
  end.

(** One mapping of [mapValuesFromConfig] for strings: the new value of the
    destination. *)
Definition map_value (cfg : Config) (mapFunc : string -> result string) (path : list string)
    (destination : string) : result string :=
  match Get cfg path with
  | Err err => if is_not_exist err then Ok destination else Err err
  | Ok (VStr s) => mapFunc s
  | Ok _ => Err (Errorf "cannot get config value at %q as %T" path)
  end.

(** ** Templates *)

(** The pattern [{{\s*([^ ]+)\s*}}]. *)
Definition perl_space : string -> bool :=
  fun u => existsb (fun n => is_char (ascii_of_nat n) u) [9; 10; 12; 13; 32].
Definition varPattern : re :=
  lit "{{" @@ RStar (RUnit perl_space) @@ RGroup "1" (RPlus (RUnit (none_of " ")))
  @@ RStar (RUnit perl_space) @@ lit "}}".

(** The first group of the leftmost match. *)
Fixpoint find_groups (r : re) (s : list string) : option groups :=
  match run r s with
  | (_, _, g) :: _ => Some g
  | [] => match s with [] => None | _ :: s' => find_groups r s' end
  end.

(** What the function given to [ReplaceAllStringFunc] makes of a match, and the
    variable it misses. *)
Definition replace_var (data : gmap string string) (m : list string) : string * list string :=
  match find_groups varPattern m with
  | Some g =>
      let name := group_text g "1" in
      match data !! name with None => (text m, [name]) | Some v => (v, []) end
  | None => (text m, [])
  end.

Fixpoint replace_vars (fuel : nat) (data : gmap string string) (s : list string)
    : string * list string :=
  match fuel with
  | O => (text s, [])
  | S fuel =>
      match find_match varPattern s with
      | None => (text s, [])
      | Some (pre, m, rest) =>
          let '(t, missing) := replace_var data m in
          let '(t', missing') := replace_vars fuel data rest in
          (text pre +:+ t +:+ t', missing ++ missing')
      end
  end.

(** A match takes at least four runes. *)
Definition ApplyVars `{GoMapOrder} (templateStr : string) (data : gmap string string) : result string :=
  let s := runes templateStr in
  let '(renderedStr, missing) := replace_vars (length s) data s in
  match missing with
  | [] => Ok renderedStr
  | _ =>
      let missingVars : gmap string bool := list_to_map (map (fun v => (v, true)) missing) in
      Err (Errorf "missing vars: %s
in template string: %q" [Join (map fst (range_map missingVars)) ","; templateStr])
  end.

Definition renderInstCtxMembers `{GoMapOrder} (i : InstanceCtx) : result InstanceCtx :=
  let templateData : gmap string string := {["instance_name" := run_InstName i]} in
  let render s := rwrap "error instantiating template: %w" [] (ApplyVars s templateData) in
  wal <-? render (run_WalDir i);;
  vinyl <-? render (run_VinylDir i);;
  memtx <-? render (run_MemtxDir i);;
  console <-? render (run_ConsoleSocket i);;
  binary <-? render (run_BinaryPort i);;
  Ok (set_files (run_RunDir i) (run_LogDir i) (run_Log i) wal memtx vinyl (run_PIDFile i) console binary i).

(** ** Names of instances *)
Definition getInstanceName (fullInstanceName : string) (isClusterInstance : bool) : string :=
  if isClusterInstance then fullInstanceName
  else if HasSuffix fullInstanceName ("-" +:+ stateBoardInstName) then stateBoardInstName
  else match split2 fullInstanceName "." with
       | None => fullInstanceName
       | Some (_, rest) => rest
       end.

Definition extractInstanceNames (instances : list InstanceCtx) (filter : InstanceCtx -> bool)
    : list string :=
  map GetAppInstanceName (List.filter filter instances).

Fixpoint extract_apps (isAnyValid : bool) (instances : list InstanceCtx)
    (filter : InstanceCtx -> bool) : list string :=
  match instances with
  | [] => []
  | instance :: rest =>
      let isAnyValid := isAnyValid || filter instance in
      let last := match rest with
                  | [] => true
                  | next :: _ => bool_decide (run_AppName instance <> run_AppName next)
                  end in
      if last then
        (if isAnyValid then [run_AppName instance] else []) ++ extract_apps false rest filter
      else extract_apps isAnyValid rest filter
  end.
Definition extractAppNames (instances : list InstanceCtx) (filter : InstanceCtx -> bool)
    : list string := extract_apps false instances filter.

(** [IsAbleToStartInstances]: the reason why not. *)
Definition IsAbleToStartInstances (tntVersion : result Version) (instances : list InstanceCtx)
    : option error :=
  match tntVersion with
  | Err e => Some e
  | Ok v =>
      match List.find (fun inst => bool_decide (run_ClusterConfigPath inst <> "")
                                   && (Major v <? 3)%Z) instances with
      | Some inst =>
          Some (Errorf "cluster config is supported by Tarantool starting from version 3.0.
Current Tarantool version: %s
Cluster config path: %q" [Str v; run_ClusterConfigPath inst])
      | None => None
      end
  end.

(** The arguments of the tt process that watches an instance. *)
Definition watchdog_args (integrityCheck : string) (c : CliCtx) (args : list string) (appName : string)
    : list string :=
  (if decide (integrityCheck <> "") then ["--integrity-check"; integrityCheck] else [])
  ++ args
  ++ (if cli_IsSystem c then ["-S"]
      else if decide (cli_LocalLaunchDir c <> "") then ["-L"; cli_LocalLaunchDir c]
      else ["--cfg"; cli_ConfigPath c])
  ++ ["start"; "--watchdog"; appName].

(** ** Finding instances *)
Section running.
Context {W : Type} `{OS W} `{Yaml} `{!Services W} `{GoMapOrder}.
Context (Read : W -> string -> option error).
Context (unmarshal : string -> result (gmap string value)).
Context (collectors : CollectorFactory W).

Definition searchApplicationScript (w : W) (applicationsDir appName : string) : result InstanceCtx :=
  let ctx script := found_ctx (JoinPaths [applicationsDir; appName]) script appName appName
                      true true "" (mkInstance None) in
  let luaPath := filepath_Join [applicationsDir; appName +:+ ".lua"] in
  match Stat w luaPath with
  | Err err => if IsNotExist err then Ok (ctx "") else Err err
  | Ok _ => Ok (ctx luaPath)
  end.

Record appDirCtx := mkAppDirCtx {
  defaultLuaPath : string; clusterCfgPath : string; instCfgPath : string }.

Definition collectAppDirFiles (w : W) (appDir : string) : result appDirCtx :=
  let luaPath := filepath_Join [appDir; "init.lua"] in
  luaPath <-? match Stat w luaPath with
              | Ok _ => Ok luaPath
              | Err err => if negb (IsNotExist err) then Err err else Ok ""
              end;;
  clusterCfg <-? GetYamlFileName w (filepath_Join [appDir; clusterConfigDefaultFileName]) false;;
  instCfg <-? GetYamlFileName w (filepath_Join [appDir; "instances.yml"]) false;;
  if decide (instCfg = "") then
    if decide (clusterCfg <> "") then
      Err (Errorf "cluster config %q is found, but instances config (instances.yml) is missing"
             [clusterCfg])
    else if decide (luaPath = "") then
      Err (Errorf "require files are missing in application directory %q: there must be instances config or the default instance script (%q)"
             [appDir; "init.lua"])
    else Ok (mkAppDirCtx luaPath clusterCfg instCfg)
  else Ok (mkAppDirCtx luaPath clusterCfg instCfg).

Definition findInstanceScriptInAppDir (w : W) (appDir instName clusterCfg defaultScript : string)
    : result string :=
  if decide (clusterCfg <> "") then Ok ""
  else
    let script := filepath_Join [appDir; instName +:+ ".init.lua"] in
    match Stat w script with
    | Err _ => if decide (defaultScript <> "") then Ok defaultScript
               else Err (Errorf "init.lua or %s.init.lua is missing" [instName])
    | Ok _ => Ok script
    end.

Definition loadInstanceConfig (configPath instName : string) (w : W) : result InstanceConfig * W :=
  if decide (configPath = "") then (Ok (mkInstance None), w)
  else
    match GetClusterConfig collectors configPath w with
    | (Err e, w) => (Err e, w)
    | (Ok clusterCfg, w) => (GetInstanceConfig clusterCfg instName, w)
    end.

(** [util.ParseYAML]. *)
Definition ParseYAML (w : W) (path : string) : result (gmap string value) :=
  match GoOs.ReadFile w path with
  | Err e => Err (Wrapf "failed to read %q file: %s" [path] e)
  | Ok fileContent =>
      match unmarshal fileContent with
      | Err e => Err (Wrapf "failed to parse YAML: %s" [] e)
      | Ok raw => Ok raw
      end
  end.

(** The loop over the entries of the instances file. *)
Fixpoint collect_instances (appDir selectedInstName : string) (files : appDirCtx)
    (keys : list string) (w : W) : result (list InstanceCtx) * W :=
  match keys with
  | [] => (Ok [], w)
  | inst :: keys =>
      let instName := getInstanceName inst (bool_decide (clusterCfgPath files <> "")) in
      let appName := path_Base appDir in
      if bool_decide (selectedInstName <> "") && bool_decide (instName <> selectedInstName) then
        collect_instances appDir selectedInstName files keys w
      else if decide (instName = appName) then
        collect_instances appDir selectedInstName files keys w
      else
        match loadInstanceConfig (clusterCfgPath files) instName w with
        | (Err e, w) =>
            (Err (Wrapf "error loading instance %q configuration from config %q: %w"
                    [instName; clusterCfgPath files] e), w)
        | (Ok configuration, w) =>
            match findInstanceScriptInAppDir w appDir instName (clusterCfgPath files)
                    (defaultLuaPath files) with
            | Err e =>
                (Err (Wrapf "cannot find instance script for %q in config %q: %w "
                        [instName; clusterCfgPath files] e), w)
            | Ok script =>
                let instance := found_ctx appDir script appName instName false false
                                  (clusterCfgPath files) configuration in
                let '(rest, w) := collect_instances appDir selectedInstName files keys w in
                (rmap (cons instance) rest, w)
            end
        end
  end.

Definition collectInstancesFromAppDir (appDir selectedInstName : string) (w : W)
    : result (list InstanceCtx) * W :=
  if negb (IsDir w appDir) then
    (Err (Errorf "%q doesn't exist or not a directory" [appDir]), w)
  else
    match collectAppDirFiles w appDir with
    | Err e => (Err e, w)
    | Ok files =>
        if bool_decide (instCfgPath files = "") && bool_decide (defaultLuaPath files <> "") then
          (Ok [found_ctx appDir (defaultLuaPath files) (path_Base appDir) (path_Base appDir)
                 true false "" (mkInstance None)], w)
        else
          match Read w (instCfgPath files) with
          | Some e => (Err (Wrapf "can't check integrity of %q: %w" [instCfgPath files] e), w)
          | None =>
              match ParseYAML w (instCfgPath files) with
              | Err e => (Err e, w)
              | Ok instParams =>
                  match collect_instances appDir selectedInstName files
                          (map fst (range_map instParams)) w with
                  | (Ok [], w) => (Err (Errorf "instance(s) not found" []), w)
                  | r => r
                  end
              end
          end
    end.

(** [app:instance] selects an instance. *)
Definition split_app_name (appName : string) : string * string :=
  match split2 appName InstanceDelimiter with
  | Some (app, selected) => (app, selected)
  | None => (appName, "")
  end.

Definition CollectInstances (appName applicationsDir : string) (w : W)
    : result (list InstanceCtx) * W :=
  let '(appName, selectedInstName) := split_app_name appName in
  match searchApplicationScript w applicationsDir appName with
  | Err e => (Err e, w)
  | Ok instCtx =>
      if decide (run_InstanceScript instCtx <> "") then (Ok [instCtx], w)
      else
        let appDir :=
          if decide (path_Base applicationsDir = appName) then applicationsDir
          else filepath_Join [applicationsDir; appName] in
        collectInstancesFromAppDir appDir selectedInstName w
  end.

Definition setInstCtxFromClusterConfig (w : W) (i : InstanceCtx) : result InstanceCtx :=
  match inst_raw (run_Configuration i) with
  | None => Ok i
  | Some cfg =>
      let mapFunc val := JoinAbspath w [run_AppDir i; val] in
      wal <-? map_value cfg mapFunc ["wal"; "dir"] (run_WalDir i);;
      vinyl <-? map_value cfg mapFunc ["vinyl"; "dir"] (run_VinylDir i);;
      memtx <-? map_value cfg mapFunc ["snapshot"; "dir"] (run_MemtxDir i);;
      console <-? map_value cfg mapFunc ["console"; "socket"] (run_ConsoleSocket i);;
      Ok (set_files (run_RunDir i) (run_LogDir i) (run_Log i) wal memtx vinyl (run_PIDFile i)
            console (run_BinaryPort i) i)
  end.

Definition GetClusterConfigPath (w : W) (cliOpts : CliOpts) (ttConfigDir appName : string)
    (mustExist : bool) : result string :=
  env <-? deref (opts_Env cliOpts);;
  let appDir := if decide (env_InstancesEnabled env = ".") then ttConfigDir
                else filepath_Join [env_InstancesEnabled env; appName] in
  let configPath := filepath_Join [appDir; clusterConfigDefaultFileName] in
  match GetYamlFileName w configPath true with
  | Ok ret => Ok ret
  | Err err =>
      if IsNotExist err then if mustExist then Err err else Ok configPath else Err err
  end.

Definition complete_ctx (w : W) (cliOpts : CliOpts) (ttConfigDir : string) (inst : InstanceCtx)
    : result InstanceCtx :=
  inst <-? setInstCtxFromTtConfig inst cliOpts ttConfigDir;;
  inst <-? setInstCtxFromClusterConfig w inst;;
  renderInstCtxMembers inst.

Fixpoint complete_all (w : W) (cliOpts : CliOpts) (ttConfigDir : string) (l : list InstanceCtx)
    : result (list InstanceCtx) :=
  match l with
  | [] => Ok []
  | inst :: l =>
      inst <-? complete_ctx w cliOpts ttConfigDir inst;;
      l <-? complete_all w cliOpts ttConfigDir l;;
      Ok (inst :: l)
  end.

Fixpoint collect_apps (cliOpts : CliOpts) (ttConfigDir instEnabledPath : string)
    (appList : list string) (apps : gmap string (list InstanceCtx)) (w : W)
    : result (gmap string (list InstanceCtx)) * W :=
  match appList with
  | [] => (Ok apps, w)
  | appName :: appList =>
      let appName := TrimSuffix appName ".lua" in
      match CollectInstances appName instEnabledPath w with
      | (Err e, w) => (Err (Wrapf "can't collect instance information for %s: %w" [appName] e), w)
      | (Ok collectedInstances, w) =>
          match complete_all w cliOpts ttConfigDir collectedInstances with
          | Err e => (Err e, w)
          | Ok instances =>
              collect_apps cliOpts ttConfigDir instEnabledPath appList
                (<[appName := instances]> apps) w
          end
      end
  end.

Definition CollectInstancesForApps (appList : list string) (cliOpts : CliOpts) (ttConfigDir : string)
    (w : W) : result (gmap string (list InstanceCtx)) * W :=
  match opts_Env cliOpts with
  | None => (nil_deref, w)
  | Some env =>
      let instEnabledPath :=
        if decide (env_InstancesEnabled env = ".") then ttConfigDir else env_InstancesEnabled env in
      collect_apps cliOpts ttConfigDir instEnabledPath appList ∅ w
  end.

(** [FillCtx]: the instances of the running context. *)
Definition FillCtx (cliOpts : CliOpts) (commandName configPath configDir : string)
    (args : list string) (w : W) : result (list InstanceCtx) * W :=
  if bool_decide (1 < length args) && bool_decide (commandName <> "run")
     && bool_decide (commandName <> "connect") then
    (Err (Errorf "currently, you can specify only one instance at a time" []), w)
  else if decide (configPath = "") then (Err (Errorf "%s not found" [ConfigName]), w)
  else
    let appList :=
      match args with
      | [] =>
          env <-? deref (opts_Env cliOpts);;
          rwrap "can't collect an application list from instances enabled path %s: %s"
            [env_InstancesEnabled env] (CollectAppList w configDir (env_InstancesEnabled env))
      | arg :: _ => Ok [arg]
      end in
    match appList with
    | Err e => (Err e, w)
    | Ok appList =>
        match CollectInstancesForApps appList cliOpts configDir w with
        | (Err e, w) => (Err e, w)
        | (Ok instances, w) => (Ok (concat (map snd (range_map instances))), w)
        end
    end.
End running.

Example getInstanceName_samples :
  getInstanceName "app.master" false = "master" /\ getInstanceName "app.master" true = "app.master" /\
  getInstanceName "app-stateboard" false = "stateboard" /\ getInstanceName "a.b.c" false = "b.c".
Proof. by vm_compute. Qed.

Example ApplyVars_samples :
  ApplyVars "run/{{ instance_name }}/x" {["instance_name" := "i1"]} = Ok "run/i1/x" /\
  ApplyVars "{{instance_name}}" {["instance_name" := "i1"]} = Ok "i1" /\
  is_ok (ApplyVars "{{instance_name}}/{{instance_name}}" {["instance_name" := "i1"]}) = false.
Proof. split_and!; vm_compute; reflexivity. Qed.
