(* ===== verification/RunningProps.v ===== *)
(** * What the search for instances guarantees

    When instances share their files, the search finds the instances of the
    file it reads, and a selected instance is the one that is found. *)
From S2P Require Import Prelude GoStrings GoPath GoOs Value Config Cluster Sources Tarantool.
From S2P Require Import ClusterProps ClusterGet Configure ConfigureProps Running.

(** ** Files of instances *)

(** The directory of an instance below [subdir], as elements. *)
Lemma genFilePath_render l subdir file :
  mi_baseDir l <> "" -> name (mi_appName l) -> name (mi_instanceName l) -> name file ->
  exists rooted out,
    normal rooted out /\
    genFilePath l subdir file = render rooted (file :: mi_instanceName l :: out) /\
    (if IsAbs subdir then rooted = true /\ out = mi_appName l :: elems subdir
     else filepath_Join [mi_baseDir l; subdir] = render rooted out /\ rooted = HasPrefix (mi_baseDir l) "/" /\
          out = fold_left (clean_step rooted) (Split subdir "/") (elems (mi_baseDir l))).
Proof.
  intros Hb Ha Hi Hf. unfold genFilePath, JoinPaths. cbn [fold_left].
  destruct (IsAbs subdir) eqn:Hs.
  - rewrite !name_relative by done. assert (subdir <> "") as Hne by by intros ->.
    assert (HasPrefix subdir "/" = true) as Hp by done.
    pose proof (elems_normal subdir) as Hn. rewrite Hp in Hn.
    exists true, (mi_appName l :: elems subdir).
    split; [by apply normal_cons|]. split; [|done].
    rewrite (Join_name subdir), Hp by done.
    by rewrite !Join_name_render by auto using normal_cons.
  - rewrite (name_relative (mi_instanceName l)) by done.
    assert (exists b, (if IsAbs (mi_baseDir l) then mi_baseDir l else filepath_Join [""; mi_baseDir l]) = b
      /\ b <> "" /\ HasPrefix b "/" = HasPrefix (mi_baseDir l) "/" /\ elems b = elems (mi_baseDir l))
      as (b & -> & Hbn & Hbp & Hbe).
    { pose proof (elems_normal (mi_baseDir l)) as Hn.
      destruct (IsAbs (mi_baseDir l)); [by eexists|]. eexists. split; [done|].
      assert (filepath_Join [""; mi_baseDir l] = Clean (mi_baseDir l)) as ->
        by (cbn [filepath_Join Join]; destruct (decide ("" = "")); [by rewrite decide_False|done]).
      rewrite Clean_render by done. split; [by apply render_ne|].
      by rewrite render_prefix, elems_render. }
    rewrite (Join_elems b), Hbp, Hbe by done.
    set (r := HasPrefix (mi_baseDir l) "/"). set (out := fold_left _ _ _).
    assert (normal r out) as Hn by (apply clean_steps_normal; [apply Split_no_sep|apply elems_normal]).
    exists r, out. split; [done|]. split; [|by rewrite (Join_elems (mi_baseDir l)) by done].
    by rewrite !Join_name_render by auto using normal_cons.
Qed.

(** The same place for the files below a directory of the options: the name of the
    instance, with the name of the application below an absolute directory, and otherwise
    the path that the directory has from that of the application. *)
Definition same_place (dir : string) (a b : InstanceCtx) : Prop :=
  run_InstName a = run_InstName b /\
  if IsAbs dir then run_AppName a = run_AppName b
  else filepath_Join [run_AppDir a; dir] = filepath_Join [run_AppDir b; dir].

Definition proper (i : InstanceCtx) : Prop :=
  run_AppDir i <> "" /\ name (run_AppName i) /\ name (run_InstName i).

Definition layout_of (i : InstanceCtx) : MultiInstLayout :=
  mkMultiInst (run_AppDir i) (run_AppName i) (run_InstName i).

Lemma genFilePath_same a b dir file :
  proper a -> proper b -> name file ->
  genFilePath (layout_of a) dir file = genFilePath (layout_of b) dir file <-> same_place dir a b.
Proof.
  intros (Ha1 & Ha2 & Ha3) (Hb1 & Hb2 & Hb3) Hf. unfold same_place.
  destruct (genFilePath_render (layout_of a) dir file) as (ra & oa & Hna & -> & Hpa); [done..|].
  destruct (genFilePath_render (layout_of b) dir file) as (rb & ob & Hnb & -> & Hpb); [done..|].
  cbn [mi_baseDir mi_appName mi_instanceName layout_of] in *. split.
  - intros He. apply render_inj in He as [-> [= Hi ->]]; [|by repeat apply normal_cons..].
    split; [exact Hi|]. destruct (IsAbs dir); [by destruct Hpa as [_ ->], Hpb as [_ [= Hx]]|].
    destruct Hpa as [-> _], Hpb as [-> _]. done.
  - intros [-> Hd]. destruct (IsAbs dir).
    + destruct Hpa as [-> ->], Hpb as [-> ->]. by rewrite Hd.
    + destruct Hpa as [Ea _], Hpb as [Eb _]. rewrite Ea, Eb in Hd. by apply render_inj in Hd as [-> ->].
Qed.

(** A plain relative directory keeps applications apart, unlike one such as ../run. *)
Lemma same_place_plain a b dir :
  proper a -> proper b -> Forall name (Split dir "/") ->
  same_place dir a b -> Clean (run_AppDir a) = Clean (run_AppDir b).
Proof.
  intros (Ha1 & Ha2 & Ha3) (Hb1 & Hb2 & Hb3) Hd [_ Hp].
  assert (IsAbs dir = false) as Hrel.
  { destruct (IsAbs dir) eqn:E; [|done]. unfold IsAbs in E. apply HasPrefix_true in E as [r ->].
    change (Split ("/" +:+ r) "/") with (if decide ("/"%char = "/"%char) then "" :: Split r "/"
      else match Split r "/" with t :: ts => String "/" t :: ts | [] => [String "/" ""] end) in Hd.
    rewrite decide_True in Hd by done. apply Forall_cons in Hd as [[? _] _]. done. }
  rewrite Hrel in Hp.
  destruct (genFilePath_render (layout_of a) dir "0") as (ra & oa & Hna & _ & Hpa); [done..|by repeat split|].
  destruct (genFilePath_render (layout_of b) dir "0") as (rb & ob & Hnb & _ & Hpb); [done..|by repeat split|].
  rewrite Hrel in *. cbn [mi_baseDir layout_of] in *. destruct Hpa as (Ea & Hra & Hoa), Hpb as (Eb & Hrb & Hob).
  rewrite Ea, Eb in Hp. apply render_inj in Hp as [-> ->]; [|done..].
  rewrite clean_steps in Hoa, Hob by done. rewrite !Clean_render by done.
  rewrite <- Hra, <- Hrb. f_equal. rewrite Hoa in Hob. by apply app_inv_head in Hob.
Qed.

Lemma path_Dir_gen l dir :
  mi_baseDir l <> "" -> name (mi_appName l) -> name (mi_instanceName l) ->
  filepath_Join [path_Dir (genFilePath l dir "0"); "0"] = genFilePath l dir "0".
Proof.
  intros Hb Ha Hi. destruct (genFilePath_render l dir "0") as (r & o & Hn & -> & _); [done..|by repeat split|].
  assert (name "0") as H0 by by repeat split.
  by rewrite path_Dir_render, Join_name_render by auto using normal_cons.
Qed.

Lemma DataDir_same a b dir :
  proper a -> proper b ->
  path_Dir (genFilePath (layout_of a) dir "0") = path_Dir (genFilePath (layout_of b) dir "0") <->
  same_place dir a b.
Proof.
  intros Ha Hb. rewrite <-(genFilePath_same a b dir "0") by (done || by repeat split).
  destruct Ha as (Ha1 & Ha2 & Ha3), Hb as (Hb1 & Hb2 & Hb3). split; [|by intros ->].
  intros He. rewrite <- (path_Dir_gen (layout_of a) dir), <- (path_Dir_gen (layout_of b) dir) by done. by rewrite He.
Qed.

(** What [setInstCtxFromTtConfig] sets for an application with instances. *)
Lemma setInstCtx_multi i opts app dir :
  opts_App opts = Some app -> proper i -> run_SingleApp i = false ->
  exists i', setInstCtxFromTtConfig i opts dir = Ok i' /\
    run_InstName i' = run_InstName i /\ run_AppName i' = run_AppName i /\ run_AppDir i' = run_AppDir i /\
    run_PIDFile i' = genFilePath (layout_of i) (app_RunDir app) "tt.pid" /\
    run_ConsoleSocket i' = genFilePath (layout_of i) (app_RunDir app) "tarantool.control" /\
    run_BinaryPort i' = genFilePath (layout_of i) (app_RunDir app) "tarantool.sock" /\
    run_Log i' = genFilePath (layout_of i) (app_LogDir app) "tt.log" /\
    run_WalDir i' = path_Dir (genFilePath (layout_of i) (app_WalDir app) "0") /\
    run_MemtxDir i' = path_Dir (genFilePath (layout_of i) (app_MemtxDir app) "0") /\
    run_VinylDir i' = path_Dir (genFilePath (layout_of i) (app_VinylDir app) "0").
Proof.
  intros Happ (Hd & (Ha & _) & (Hi & _)) Hs. unfold setInstCtxFromTtConfig. rewrite Happ.
  destruct (opts_Env opts) as [env|]; cbn [run_SingleApp set_restartable];
    rewrite Hs, ?andb_false_r; unfold NewMultiInstLayout;
    cbn [run_AppDir run_AppName run_InstName set_restartable andb];
    rewrite !decide_False by done; eexists; (split; [reflexivity|]); done.
Qed.


(** ** The search *)
Section search.
Context {W : Type} `{OS W} `{Yaml} `{!Services W} `{GoMapOrder}.
Context (Read : W -> string -> option error).
Context (unmarshal : string -> result (gmap string value)).
Context (collectors : CollectorFactory W).

(** Entries of the instances file that are instances to work with. *)
Definition wanted (appDir selected instName : string) : bool :=
  (bool_decide (selected = "") || bool_decide (instName = selected))
  && bool_decide (instName <> path_Base appDir).

(** What all instances of an application directory have in common. *)
Definition of_dir (appDir cluster : string) (i : InstanceCtx) : Prop :=
  run_AppDir i = appDir /\ run_AppName i = path_Base appDir /\ run_SingleApp i = false /\
  run_IsFileApp i = false /\ run_ClusterConfigPath i = cluster.

Lemma collect_instances_spec appDir sel files keys w l w' :
  collect_instances collectors appDir sel files keys w = (Ok l, w') ->
  map run_InstName l =
    List.filter (wanted appDir sel)
      (map (fun k => getInstanceName k (bool_decide (clusterCfgPath files <> ""))) keys) /\
  Forall (of_dir appDir (clusterCfgPath files)) l.
Proof.
  revert w l w'. induction keys as [|k keys IH]; intros w l w'; cbn [collect_instances map List.filter].
  { intros [= <- <-]. done. }
  set (n := getInstanceName k _). unfold wanted at 1.
  assert (bool_decide (sel <> "") && bool_decide (n <> sel) =
          negb (bool_decide (sel = "") || bool_decide (n = sel))) as -> by by repeat case_bool_decide.
  destruct (bool_decide (sel = "") || bool_decide (n = sel)); cbn [negb andb]; [|by apply IH].
  destruct (decide (n = path_Base appDir)) as [Hb|Hb]; [rewrite (bool_decide_eq_false_2 (n <> path_Base appDir)) by (intros Hx; exact (Hx Hb)); by apply IH|].
  rewrite (bool_decide_eq_true_2 (n <> path_Base appDir)) by done.
  destruct (loadInstanceConfig _ _ _ w) as [[c|] w1]; [|done].
  destruct (findInstanceScriptInAppDir _ _ _ _ _) as [script|]; [|done].
  destruct (collect_instances _ _ _ _ keys w1) as [[rest|] w2] eqn:Hrest; [|done].
  intros [= <- <-]. apply IH in Hrest as [Hnames Hall]. cbn [map].
  split; [by rewrite <- Hnames|by constructor].
Qed.

Lemma range_map_keys (m : gmap string value) : NoDup (map fst (range_map m)).
Proof.
  rewrite (range_map_perm m : _ ≡ₚ _). apply NoDup_fst_map_to_list.
Qed.

Lemma collectAppDirFiles_lua w d files :
  collectAppDirFiles w d = Ok files -> defaultLuaPath files <> "" ->
  defaultLuaPath files = filepath_Join [d; "init.lua"] /\
  is_ok (Stat w (filepath_Join [d; "init.lua"])) = true.
Proof.
  unfold collectAppDirFiles. intros Hc Hne. set (p := filepath_Join [d; "init.lua"]) in *.
  apply rbind_Ok in Hc as (lua & Hlua & (cc & _ & (ic & _ & Hc)%rbind_Ok)%rbind_Ok).
  assert (defaultLuaPath files = lua) as Hl by (repeat case_decide; by simplify_eq).
  destruct (Stat w p) as [fi|e]; [by simplify_eq|].
  destruct (IsNotExist e); cbn in Hlua; by simplify_eq.
Qed.

(** C29: A successful CollectInstances gives either the one instance of a
    script that exists (app.lua, or init.lua of the application directory),
    or, in the order of the map, exactly the instances that instances.yml
    names without the application itself and, when a name follows the colon,
    without all others; there is at least one, and with a cluster
    configuration no name repeats. *)
Theorem CollectInstances_found appName applicationsDir w l w' app sel :
  split_app_name appName = (app, sel) ->
  CollectInstances Read unmarshal collectors appName applicationsDir w = (Ok l, w') ->
  let appDir := if decide (path_Base applicationsDir = app) then applicationsDir
                else filepath_Join [applicationsDir; app] in
  (exists i, l = [i] /\ run_SingleApp i = true /\ run_InstName i = run_AppName i /\
     is_ok (Stat w (run_InstanceScript i)) = true /\
     run_InstanceScript i = (if run_IsFileApp i then filepath_Join [applicationsDir; app +:+ ".lua"]
                             else filepath_Join [appDir; "init.lua"])) \/
  (exists files instParams,
     collectAppDirFiles w appDir = Ok files /\
     ParseYAML unmarshal w (instCfgPath files) = Ok instParams /\ l <> [] /\
     map run_InstName l =
       List.filter (wanted appDir sel)
         (map (fun k => getInstanceName k (bool_decide (clusterCfgPath files <> "")))
            (map fst (range_map instParams))) /\
     Forall (of_dir appDir (clusterCfgPath files)) l /\
     (sel <> "" -> Forall (fun i => run_InstName i = sel) l) /\
     (clusterCfgPath files <> "" -> NoDup (map run_InstName l))).
Proof.
  intros Hsp. unfold CollectInstances. rewrite Hsp. unfold searchApplicationScript.
  destruct (Stat w (filepath_Join [applicationsDir; app +:+ ".lua"])) as [fi|e] eqn:Hst.
  { cbn [run_InstanceScript found_ctx]. rewrite decide_True by (apply Join_ne; by destruct app).
    intros [= <- <-]. left. eexists. split_and!; [done..| |done].
    change (is_ok (Stat w (filepath_Join [applicationsDir; app +:+ ".lua"])) = true). by rewrite Hst. }
  destruct (IsNotExist e); [|done]. cbn [run_InstanceScript found_ctx]. rewrite decide_False by (by intros []).
  set (appDir := if decide _ then _ else _). unfold collectInstancesFromAppDir.
  destruct (IsDir w appDir); [|done]. cbn [negb].
  destruct (collectAppDirFiles w appDir) as [files|] eqn:Hfiles; [|done].
  destruct (_ && _) eqn:Hsingle.
  { apply andb_true_iff in Hsingle as [Hi Hd]. apply bool_decide_eq_true in Hi, Hd.
    intros [= <- <-]. left. destruct (collectAppDirFiles_lua _ _ _ Hfiles Hd) as [-> Hok].
    eexists. by split_and!. }
  destruct (Read w _); [done|]. destruct (ParseYAML _ _ _) as [params|] eqn:Hp; [|done].
  destruct (collect_instances _ _ _ _ _ w) as [[[|i l']|] w1] eqn:Hc; [done| |done].
  intros [= <- <-]. apply collect_instances_spec in Hc as [Hnames Hall]. right.
  exists files, params. split_and!; [done..| |].
  - intros Hsel. apply Forall_forall. intros j Hj.
    assert (run_InstName j ∈ map run_InstName (i :: l')) as Hin by by apply list_elem_of_fmap_2.
    rewrite Hnames in Hin. apply list_elem_of_In, filter_In in Hin as [_ Hw].
    unfold wanted in Hw. rewrite bool_decide_eq_false_2 in Hw by done. cbn in Hw.
    apply andb_true_iff in Hw as [Hw _]. by apply bool_decide_eq_true in Hw.
  - intros Hcl. rewrite Hnames, (bool_decide_eq_true_2 (clusterCfgPath files <> "")) by done.
    cbn [getInstanceName]. rewrite map_id. apply NoDup_ListNoDup, List.NoDup_filter, NoDup_ListNoDup, range_map_keys.
Qed.
End search.

(** ** Samples *)
Definition sample_ctx (inst : string) : InstanceCtx :=
  found_ctx "/env/app" "/env/app/init.lua" "app" inst false false "" (mkInstance None).


Definition sample_app : toy :=
  mkToy "/env" [("/env/app", Directory); ("/env/app/init.lua", RegularFile);
                ("/env/app/instances.yml", RegularFile)].

Lemma CollectInstances_found_witness :
  exists l w',
    @CollectInstances toy _ two_documents (sample_services (fun _ => None)) canonical_order
      (fun _ _ => None) (fun _ => Ok {["app.m" := VNil; "app.r" := VNil]})
      (mkCollectorFactory (fun _ => Err ErrNotExist) (fun _ _ _ _ => Err ErrNotExist)
         (fun _ _ _ _ => Err ErrNotExist)) "app:m" "/env" sample_app = (Ok l, w') /\
    Forall (fun i => run_InstName i = "m") l.
Proof.
  eexists _, _. split; [vm_compute; reflexivity|].
  destruct (@CollectInstances_found toy _ two_documents (sample_services (fun _ => None)) canonical_order
      (fun _ _ => None) (fun _ => Ok {["app.m" := VNil; "app.r" := VNil]})
      (mkCollectorFactory (fun _ => Err ErrNotExist) (fun _ _ _ _ => Err ErrNotExist)
         (fun _ _ _ _ => Err ErrNotExist)) "app:m" "/env" sample_app
      [found_ctx "/env/app" "/env/app/init.lua" "app" "m" false false "" (mkInstance None)] sample_app
      "app" "m") as [(i & [= <-] & [=] & _)|(files & params & _ & _ & _ & _ & _ & Hs & _)].
  - reflexivity.
  - vm_compute; reflexivity.
  - by apply Hs.
Defined.
