(* ===== verification/History.v ===== *)
(** * The history of the console: [cli/connect/history.go]

    The commands and their times, the file they are written to, and the last
    lines of a file ([cli/util/util.go]).  The time is a parameter, a file is its
    bytes. *)
From S2P Require Import Prelude GoStrings Regexp Version.
Local Open Scope go_scope.

Definition lf : ascii := ascii_of_nat 10.
Definition cr : ascii := ascii_of_nat 13.

(** ** The last lines of a file *)
Definition bufSize : Z := 10000.

(** [readFromPos] with a buffer of [size] bytes: reading at the end is an
    error. *)
Definition readFromPos (data : list ascii) (pos size : Z) : result (list ascii) :=
  if (pos <? 0)%Z then Err (Errorf "failed to seek: %s" ["invalid argument"])
  else
    match take (Z.to_nat size) (drop (Z.to_nat pos) data) with
    | [] => Err (Errorf "failed to read: %s" ["EOF"])
    | buf => Ok buf
    end.

(** [for i := n - 1; i >= 0; i--]: the position after the newline that makes the
    number of newlines [lines + 1], or the number of newlines. *)
Fixpoint scan_back (lines : Z) (buf : list ascii) (filePos : Z) (i : nat) (newLinesN : Z) : Z + Z :=
  match i with
  | 0 => inr newLinesN
  | S i =>
      let newLinesN := (if decide (buf !! i = Some lf) then newLinesN + 1 else newLinesN)%Z in
      if (newLinesN =? lines + 1)%Z then inl (filePos + Z.of_nat i + 1)%Z
      else scan_back lines buf filePos i newLinesN
  end.

(** The loop over the blocks; [size] is [bufSize].  The last block starts at 0
    and is read in full. *)
Fixpoint blocks_loop (size : Z) (fuel : nat) (lines : Z) (data : list ascii) (filePos newLinesN : Z)
    : option (result Z) :=
  match fuel with
  | O => None
  | S fuel =>
      let lastPart := (filePos <? 0)%Z in
      let filePos := if lastPart then 0%Z else filePos in
      match readFromPos data filePos size with
      | Err err => Some (Err err)
      | Ok buf =>
          match scan_back lines buf filePos (length buf) newLinesN with
          | inl pos => Some (Ok pos)
          | inr newLinesN =>
              if lastPart || (filePos =? 0)%Z then Some (Ok 0%Z)
              else blocks_loop size fuel lines data (filePos - size)%Z newLinesN
          end
      end
  end.

(** [open]: the error of opening the file. *)
Definition GetLastNLinesBegin (size : Z) (open : option error) (data : list ascii) (lines : Z)
    : result Z :=
  if (lines =? 0)%Z then Ok 0%Z
  else
    let lines := Z.abs lines in
    match open with
    | Some err => Err (Wrapf "failed to open file: %s" [] err)
    | None =>
        let fileSize := Z.of_nat (length data) in
        if (fileSize =? 0)%Z then Ok 0%Z
        else
          last <-? readFromPos data (fileSize - 1) size;;
          let newLinesN := if decide (head last = Some lf) then 0%Z else 1%Z in
          default (Err (Errorf "out of fuel" []))
            (blocks_loop size (S (length data)) lines data (fileSize - size) newLinesN)
    end.

(** [bufio.Scanner] with [ScanLines]: a line end may be [\r\n]; a line that does
    not fit the buffer of 64 KiB ends the scan. *)
Definition dropCR (line : string) : string := TrimSuffix line (String cr "").

Definition raw_lines (s : string) : list string :=
  let parts := Split s lf in
  match last parts with
  | Some "" => take (length parts - 1) parts
  | _ => parts
  end.

Fixpoint scan_lines (parts : list string) : list string :=
  match parts with
  | [] => []
  | p :: parts =>
      if (Z.of_nat (String.length p) <? 65536)%Z then dropCR p :: scan_lines parts else []
  end.

Definition GetLastNLines (size : Z) (open : option error) (data : string) (linesN : Z)
    : result (list string) :=
  begin <-? GetLastNLinesBegin size open (String.list_ascii_of_string data) linesN;;
  match open with
  | Some err => Err (Wrapf "failed to open file: %s" [] err)
  | None =>
      Ok (scan_lines (raw_lines
            (String.string_of_list_ascii (drop (Z.to_nat begin) (String.list_ascii_of_string data)))))
  end.

(** ** [history.go] *)
Record commandHistory := mkHistory {
  commands : list string; timestamps : list Z; maxCommands : Z
}.

Definition timestampRegex : re := (lit "#" @@ digits_re)%re.
Definition is_timestamp (line : string) : bool := MatchString timestampRegex line.

(** The index of the first timestamp at or after the head of the lines. *)
Fixpoint until_timestamp (lines : list string) : nat :=
  match lines with
  | [] => 0
  | line :: lines => if is_timestamp line then 0 else S (until_timestamp lines)
  end.

(** The loop: [lines] are those from [startPos] on, the first of them a timestamp. *)
Fixpoint cells_loop (fuel : nat) (lines : list string) : list (string * Z) :=
  match fuel, lines with
  | S fuel, line :: rest =>
      let k := until_timestamp rest in
      let cells := cells_loop fuel (drop k rest) in
      match ParseInt (String.substring 1 (String.length line - 1) line) with
      | Ok timestamp =>
          if decide (k <> 0) then (Join (take k rest) (String lf ""), timestamp) :: cells else cells
      | Err _ => cells
      end
  | _, _ => []
  end.

Definition parseHistoryCells (now : Z) (lines : list string) : list string * list Z :=
  let startPos := until_timestamp lines in
  if decide (startPos = length lines) then (lines, map (fun _ => now) lines)
  else
    let cells := cells_loop (length lines) (drop startPos lines) in
    (map fst cells, map snd cells).

Definition load (now : Z) (open : option error) (data : string) (history : commandHistory)
    : result commandHistory :=
  rawLines <-? GetLastNLines bufSize open data (maxCommands history);;
  let '(cs, ts) := parseHistoryCells now rawLines in
  Ok (mkHistory cs ts (maxCommands history)).

Definition appendCommand (now : Z) (command : string) (history : commandHistory) : commandHistory :=
  let cs := commands history ++ [command] in
  let ts := timestamps history ++ [now] in
  if (maxCommands history <? Z.of_nat (length cs))%Z then
    mkHistory (drop 1 cs) (drop 1 ts) (maxCommands history)
  else mkHistory cs ts (maxCommands history).

(** The text of the file; a command without a timestamp panics. *)
Fixpoint history_content (cs : list string) (ts : list Z) : result string :=
  match cs, ts with
  | [], _ => Ok ""
  | _ :: _, [] => Err (Errorf "panic: index out of range" [])
  | c :: cs, t :: ts =>
      rmap (fun rest => "#" +:+ FormatInt t +:+ String lf "" +:+ c +:+ String lf "" +:+ rest)
        (history_content cs ts)
  end.

Definition writeToFile (write : string -> option error) (history : commandHistory) : option error :=
  match history_content (commands history) (timestamps history) with
  | Err err => Some err
  | Ok content =>
      match write content with
      | Some err => Some (Wrapf "failed to write to history file: %s" [] err)
      | None => None
      end
  end.

(** ** Samples *)
Definition lines_text (l : list string) : string := String.concat "" (map (fun s => s +:+ String lf "") l).

Example parse_samples :
  parseHistoryCells 7 (raw_lines (lines_text ["x"; "#10"; "a"; "b"; "#11"; "#12"; "c"])) =
    (["a" +:+ String lf "b"; "c"], [10; 12]%Z) /\
  parseHistoryCells 7 (raw_lines (lines_text ["x"; "y"])) = (["x"; "y"], [7; 7]%Z).
Proof. by vm_compute. Qed.

(** With blocks of four bytes the second block of six is read from the start of
    the file in full: two lines are counted twice. *)
Example lines_twice :
  GetLastNLinesBegin 4 None (String.list_ascii_of_string (lines_text [""; ""; ""; ""; ""; ""])) 6 = Ok 2%Z /\
  GetLastNLinesBegin 3 None (String.list_ascii_of_string (lines_text [""; ""; ""; ""; ""; ""])) 6 = Ok 0%Z.
Proof. by vm_compute. Qed.
