(* ===== verification/Connector.v ===== *)
(** * Connections to an instance: [cli/connector]

    The protocol of a greeting, the plain text protocol of a console socket
    (the one line that is sent, the portions of the answer), the choice of a
    connector and the pool of connections.  A connection is the sequence of what
    its [Read] calls return; libraries that decode YAML, Lua, base64 and MessagePack
    are parameters. *)
From S2P Require Import Prelude GoStrings GoPath GoOs Regexp.
Local Open Scope go_scope.

(** ** [protocol.go] *)
Definition greetingSize : nat := 128.
Definition binaryStr : string := "Binary".
Definition plainStr : string := "Lua console".

Inductive Protocol := BinaryProtocol | TextProtocol.

Definition Protocol_String (protocol : Protocol) : string :=
  match protocol with BinaryProtocol => binaryStr | TextProtocol => plainStr end.

Definition ParseProtocol (greeting : string) : Protocol * bool :=
  if HasPrefix greeting "Tarantool " then
    if Contains greeting ("(" +:+ binaryStr +:+ ")") then (BinaryProtocol, true)
    else if Contains greeting ("(" +:+ plainStr +:+ ")") then (TextProtocol, true)
    else (BinaryProtocol, false)
  else (BinaryProtocol, false).

(** The buffer of the greeting is zeroed and filled by one [Read]. *)
Definition pad_greeting (s : string) : string :=
  s +:+ repeat_char (greetingSize - String.length s) "000".

Definition GetProtocol (read : result string) : result Protocol :=
  match read with
  | Err err => Err (Wrapf "failed to read Tarantool greeting: %w" [] err)
  | Ok s =>
      let greeting := pad_greeting s in
      match ParseProtocol greeting with
      | (_, false) => Err (Errorf "failed to parse Tarantool greeting: %s" [greeting])
      | (protocol, true) => Ok protocol
      end
  end.

(** ** [eval_plain_text.go]: reading *)
Definition newline_char : ascii := "010".
Definition nl : string := String newline_char "".
Definition startOfYamlOutput : string := "---" +:+ nl.
Definition endOfYAMLOutput : string := nl +:+ "..." +:+ nl.
Definition endOfLuaOutput : string := ";".
Definition tagPushPrefixYAML : string := "%TAG".
Definition tagPushPrefixLua : string := "-- Push".

(** What a [conn.Read] returns: bytes, and an error or the end of the input. *)
Inductive read_error := EOF | ReadFailed (e : error).
Record read_call := mkRead { read_bytes : string; read_err : option read_error }.

Definition io_EOF : error := Errorf "EOF" [].
Definition is_EOF (e : error) : bool :=
  match e with Errorf f args => bool_decide (f = "EOF") && bool_decide (args = []) | _ => false end.

(** The body of the loop after a byte was appended: whether to stop, and
    [hasYAMLOutputPrefix]. *)
Definition portion_step (dataString : string) (hasYAMLOutputPrefix : bool) : bool * bool :=
  if HasPrefix endOfYAMLOutput dataString || HasPrefix tagPushPrefixYAML dataString
     || HasPrefix tagPushPrefixLua dataString
  then (false, hasYAMLOutputPrefix)
  else
    let yaml :=
      if (negb hasYAMLOutputPrefix && HasPrefix dataString startOfYamlOutput)
         || HasPrefix dataString tagPushPrefixYAML
      then true else hasYAMLOutputPrefix in
    if yaml && HasSuffix dataString endOfYAMLOutput then (true, yaml)
    else (HasSuffix dataString endOfLuaOutput, yaml).

(** The bytes of the buffer one by one: the portion and the rest of the buffer,
    or what was gathered when the buffer is empty. *)
Inductive scanned :=
| Portion (data rest : string)
| More (data : string) (yaml : bool).

Fixpoint scan_buffer (data : string) (yaml : bool) (buffer : string) : scanned :=
  match buffer with
  | EmptyString => More data yaml
  | String nextByte rest =>
      let data := data +:+ String nextByte "" in
      match portion_step data yaml with
      | (true, _) => Portion data rest
      | (false, yaml) => scan_buffer data yaml rest
      end
  end.

(** [None] when the connection has nothing more to read and stays open: the call
    waits. *)
Fixpoint read_portion (data : string) (yaml : bool) (buffer : string) (conn : list read_call)
    : option (result string * string * list read_call) :=
  match scan_buffer data yaml buffer with
  | Portion data rest => Some (Ok data, rest, conn)
  | More data yaml =>
      match conn with
      | [] => None
      | call :: conn =>
          match read_err call with
          | Some (ReadFailed e) => Some (Err (Wrapf "failed to read: %s" [] e), "", conn)
          | Some EOF => Some (Err io_EOF, "", conn)
          | None =>
              if decide (read_bytes call = "") then Some (Err io_EOF, "", conn)
              else read_portion data yaml (read_bytes call) conn
          end
      end
  end.

Definition readDataPortionFromPlainTextConn (buffer : string) (conn : list read_call)
    : option (result string * string * list read_call) :=
  read_portion "" false buffer conn.

Definition pushTagIsReceived (dataPortion : string) : bool :=
  HasPrefix dataPortion tagPushPrefixYAML || HasPrefix dataPortion tagPushPrefixLua.

Definition index_out_of_range {A} : result A := Err (Errorf "panic: index out of range" []).

Section plain_text.
(** [V]: decoded values.  [yaml.Unmarshal] into an [any], [VString]: a Go string
    as a value. *)
Context {V : Type} (yaml_any : string -> result V) (VString : string -> V).

Definition getPushedData (pushedDataBytes : string) : result V :=
  if HasPrefix pushedDataBytes tagPushPrefixYAML then
    rwrap "failed to unmarshal pushed data: %s" [] (yaml_any pushedDataBytes)
  else
    match split2 pushedDataBytes newline_char with
    | None => index_out_of_range
    | Some (_, rest) => Ok (VString (TrimRight rest ";"))
    end.

(** The loop over the portions; the pushed values are those the callback got.
    The outer [None] means out of fuel, the inner one that the call waits. *)
Fixpoint read_loop (fuel : nat) (callback : bool) (buffer : string) (conn : list read_call)
    : option (option (result string * list V * list read_call)) :=
  match fuel with
  | O => None
  | S fuel =>
      match readDataPortionFromPlainTextConn buffer conn with
      | None => Some None
      | Some (Err err, _, conn) =>
          Some (Some (if is_EOF err then Err err
                      else Err (Wrapf "failed to read from instance socket: %s" [] err), [], conn))
      | Some (Ok dataPortion, buffer, conn) =>
          if negb (pushTagIsReceived dataPortion) then Some (Some (Ok dataPortion, [], conn))
          else if callback then
            match getPushedData dataPortion with
            | Err err => Some (Some (Err err, [], conn))
            | Ok pushedData =>
                match read_loop fuel callback buffer conn with
                | Some (Some (r, pushed, conn)) => Some (Some (r, pushedData :: pushed, conn))
                | other => other
                end
            end
          else read_loop fuel callback buffer conn
      end
  end.

Definition conn_size (conn : list read_call) : nat :=
  list_sum (map (fun c => String.length (read_bytes c)) conn).

(** Every portion has at least one byte. *)
Definition readFromPlainTextConn (callback : bool) (conn : list read_call)
    : option (option (result string * list V * list read_call)) :=
  read_loop (S (conn_size conn)) callback "" conn.

(** ** [eval_plain_text.go]: the request and its answer *)

(** The one line that is written to the connection. *)
Definition format_eval_func (evalFunc : string) : string :=
  let evalFuncFormatted := Join (Split (TrimSpace evalFunc) newline_char) " " in
  Join (Fields evalFuncFormatted) " " +:+ nl.

(** [template args]: the instantiated template; [write]: the error of writing. *)
Definition formatAndSendEvalFunc (encode : result string) (template : string -> result string)
    (write : string -> option error) : option error :=
  match encode with
  | Err err => Some (Wrapf "failed to encode args: %s" [] err)
  | Ok argsEncoded =>
      match template argsEncoded with
      | Err err => Some (Wrapf "failed to instantiate eval function template: %s" [] err)
      | Ok evalFunc =>
          match write (format_eval_func evalFunc) with
          | Some err => Some (Wrapf "failed to send eval function to socket: %s" [] err)
          | None => None
          end
      end
  end.

(** [results s]: the documents as [[]PlainTextEvalRes]; [errors s]: as
    [[]map[string]string]. *)
Definition getPlainTextEvalResYaml (results : string -> result (list string))
    (errors : string -> result (list (gmap string string))) (resBytes : string) : result string :=
  match results resBytes with
  | Err err =>
      match errors resBytes with
      | Ok (errorStrings :: _) =>
          match errorStrings !! "error" with
          | Some errStr => Err (Errorf errStr [])
          | None => Err (Wrapf "failed to parse eval result: %s" [] err)
          end
      | _ => Err (Wrapf "failed to parse eval result: %s" [] err)
      end
  | Ok [evalResult] => Ok evalResult
  | Ok evalResults =>
      Err (Errorf "expected one result, found %d" [FormatInt (Z.of_nat (length evalResults))])
  end.

(** The global [res] after [res = ...]: a string, or a value with a field
    [data_enc]. *)
Inductive lua_value := LTString (s : string) | LTable (data_enc : string).

Definition getPlainTextEvalResLua (DoString : string -> result lua_value) (resBytes : string)
    : result string :=
  match DoString ("res = " +:+ resBytes) with
  | Err err => Err err
  | Ok (LTString s) => Err (Errorf s [])
  | Ok (LTable encodedData) => Ok encodedData
  end.

Definition processEvalTarantoolRes (results : string -> result (list string))
    (errors : string -> result (list (gmap string string))) (DoString : string -> result lua_value)
    (base64 : string -> result string) (msgpack : string -> result (list V)) (resBytes : string)
    : result (list V) :=
  match (if HasPrefix resBytes startOfYamlOutput then getPlainTextEvalResYaml results errors resBytes
         else getPlainTextEvalResLua DoString resBytes) with
  | Err err => Err err
  | Ok evalResultEncBase64 =>
      dataEnc <-? rwrap "failed to decode hex value: %s" [] (base64 evalResultEncBase64);;
      rwrap "failed to parse eval result: %s" [] (msgpack dataEnc)
  end.

(** [send]: [formatAndSendEvalFunc] of the body and the arguments; [process]: the
    function above.  The answer, what the callback got and the rest of the
    connection. *)
Definition evalPlainTextConn (send : option error) (callback : bool) (conn : list read_call)
    (process : string -> result (list V)) : option (option (result (list V) * list V * list read_call)) :=
  match send with
  | Some err => Some (Some (Err err, [], conn))
  | None =>
      match readFromPlainTextConn callback conn with
      | Some (Some (Err err, pushed, conn)) =>
          Some (Some (if is_EOF err then Err err
                      else Err (Wrapf "failed to check returned data: %s" [] err), pushed, conn))
      | Some (Some (Ok resBytes, pushed, conn)) => Some (Some (process resBytes, pushed, conn))
      | Some None => Some None
      | None => None
      end
  end.

(** [call_template funcName]: the body that calls a function. *)
Definition callPlainTextConn (call_template : string -> result string) (funcName : string)
    (eval : string -> option (option (result (list V) * list V * list read_call))) (conn : list read_call)
    : option (option (result (list V) * list V * list read_call)) :=
  match call_template funcName with
  | Err err => Some (Some (Err (Wrapf "failed to instantiate call function template: %s" [] err), [], conn))
  | Ok evalFunc => eval evalFunc
  end.
End plain_text.

(** ** [binary.go] *)

(** [err.Error() == "context is done"]: the error go-tarantool makes then. *)
Definition is_context_done (e : error) : bool :=
  match e with Errorf f args => bool_decide (f = "context is done") && bool_decide (args = []) | _ => false end.
Definition replaceContextDone (err : error) : error :=
  if is_context_done err then Errorf "i/o timeout" [] else err.

Section binary.
Context {V : Type}.

(** What the iterator of a future gives: an error, or a response with its code
    and data; [next] is the sequence of its values before [Next] is false. *)
Record Response := mkResponse { resp_push : bool; resp_data : list V }.

Fixpoint push_loop (next : list (result Response)) : result unit * list V :=
  match next with
  | [] => (Ok tt, [])
  | Err err :: _ => (Err (replaceContextDone err), [])
  | Ok response :: next =>
      if negb (resp_push response) then (Ok tt, [])
      else match resp_data response with
           | [] => (index_out_of_range, [])
           | v :: _ => let '(r, pushed) := push_loop next in (r, v :: pushed)
           end
  end.

(** [get]: the answer of [Get] or [GetTyped]. *)
Definition BinaryConnector_Eval (callback : bool) (next : list (result Response)) (get : result (list V))
    : result (list V) * list V :=
  let '(r, pushed) := if callback then push_loop next else (Ok tt, []) in
  match r with
  | Err err => (Err err, pushed)
  | Ok _ => (match get with Err err => Err (replaceContextDone err) | Ok data => Ok data end, pushed)
  end.
End binary.

(** ** [connector.go] *)
Record SslOpts := mkSslOpts { KeyFile : string; CertFile : string; CaFile : string; Ciphers : string }.
Record ConnectOpts := mkConnectOpts {
  Network : string; Address : string; Username : string; Password : string; Ssl : SslOpts
}.

Definition maxSocketPathLinux : nat := 108.
Definition maxSocketPathMac : nat := 106.

Inductive ConnectorKind (C : Type) :=
| NewTextConnector (network address : string)
| NewBinaryConnector (conn : C).
Arguments NewTextConnector {C}. Arguments NewBinaryConnector {C}.

Section connect.
(** [dial network address]: the first [Read] of the new connection;
    [binary address user password transport ssl]: [tarantool.Connect]. *)
Context {W C : Type} `{OS W} (GOOS : string).
Context (dial : W -> string -> string -> result (result string)).
Context (binary : W -> string -> string -> string -> string -> SslOpts -> result C).

Definition chdir_or_stay (w : W) (dir : string) : W :=
  match Chdir w dir with Ok w => w | Err _ => w end.

Definition with_address (opts : ConnectOpts) (a : string) : ConnectOpts :=
  mkConnectOpts (Network opts) a (Username opts) (Password opts) (Ssl opts).

(** From the dialling on. *)
Definition connect_to (opts : ConnectOpts) (w : W) : result (ConnectorKind C) :=
  match dial w (Network opts) (Address opts) with
  | Err err => Err (Wrapf "failed to dial: %s" [] err)
  | Ok greeting =>
      let ssl := bool_decide (KeyFile (Ssl opts) <> "") || bool_decide (CertFile (Ssl opts) <> "")
                 || bool_decide (CaFile (Ssl opts) <> "") || bool_decide (Ciphers (Ssl opts) <> "") in
      let detected :=
        match GetProtocol greeting with
        | Err err => if ssl then Ok (BinaryProtocol, "ssl")
                     else Err (Wrapf "failed to get protocol: %s" [] err)
        | Ok protocol =>
            if ssl then
              Err (Errorf "unencrypted connection established, but encryption required" [])
            else Ok (protocol, "")
        end in
      match detected with
      | Err err => Err err
      | Ok (TextProtocol, _) => Ok (NewTextConnector (Network opts) (Address opts))
      | Ok (BinaryProtocol, transport) =>
          let addr := Network opts +:+ "://" +:+ Address opts in
          rmap NewBinaryConnector
            (binary w addr (Username opts) (Password opts) transport (Ssl opts))
      end
  end.

Definition Connect (opts : ConnectOpts) (w : W) : result (ConnectorKind C) * W :=
  match Getwd w with
  | Err err => (Err err, w)
  | Ok workDir =>
      let maxSocketPath := if decide (GOOS = "darwin") then maxSocketPathMac else maxSocketPathLinux in
      match Stat w (Address opts) with
      | Ok _ =>
          let w := chdir_or_stay w (path_Dir (Address opts)) in
          let opts := with_address opts ("./" +:+ path_Base (Address opts)) in
          if decide (maxSocketPath < String.length (Address opts) + 1) then
            (Err (Errorf "socket name is longer than %d symbols: %s"
                    [FormatInt (Z.of_nat maxSocketPath - 3); path_Base (Address opts)]), w)
          else (connect_to opts w, chdir_or_stay w workDir)
      | Err _ => (connect_to opts w, w)
      end
  end.
End connect.

(** ** [pool.go] *)
Definition errFailedToConnect : error := Errorf "failed to connect to any instance" [].

Section pool.
(** [O]: options of a connection, [C]: connections, [R]: results. *)
Context {W O C R : Type}.
Context (pool_connect : O -> W -> result C * W) (conn_eval : C -> W -> result R * W).
Context (conn_close : C -> W -> W).

Record Pool := mkPool { pool_opts : list O; pool_current : option C; pool_currentIndex : nat }.

Fixpoint connect_first (cpy opts : list O) (i : nat) (w : W) : result Pool * W :=
  match opts with
  | [] => (Err errFailedToConnect, w)
  | opt :: opts =>
      match pool_connect opt w with
      | (Ok conn, w) => (Ok (mkPool cpy (Some conn) i), w)
      | (Err _, w) => connect_first cpy opts (S i) w
      end
  end.

Definition ConnectPool (opts : list O) (w : W) : result Pool * W := connect_first opts opts 0 w.

Definition next_index (pool : Pool) : nat :=
  (pool_currentIndex pool + 1) mod length (pool_opts pool).

(** [rounds] rounds of the loop, with the last error of an evaluation.  An index
    out of the range of the options panics. *)
Fixpoint eval_rounds (rounds : nat) (lastErr : option error) (pool : Pool) (w : W)
    : result R * Pool * W :=
  match rounds with
  | 0 => (Err (default errFailedToConnect lastErr), pool, w)
  | S rounds =>
      let run conn w :=
        match conn_eval conn w with
        | (Ok ret, w) =>
            (Ok ret, mkPool (pool_opts pool) (Some conn) (pool_currentIndex pool), w)
        | (Err err, w) =>
            eval_rounds rounds (Some err) (mkPool (pool_opts pool) None (next_index pool))
              (conn_close conn w)
        end in
      match pool_current pool with
      | Some conn => run conn w
      | None =>
          match pool_opts pool !! pool_currentIndex pool with
          | None => (index_out_of_range, pool, w)
          | Some opt =>
              match pool_connect opt w with
              | (Err _, w) =>
                  eval_rounds rounds lastErr (mkPool (pool_opts pool) None (next_index pool)) w
              | (Ok conn, w) => run conn w
              end
          end
      end
  end.

Definition Pool_Eval (pool : Pool) (w : W) : result R * Pool * W :=
  eval_rounds (length (pool_opts pool)) None pool w.

Definition Pool_Close (pool : Pool) (w : W) : W :=
  match pool_current pool with Some conn => conn_close conn w | None => w end.
End pool.

(** ** Samples *)
Example ParseProtocol_samples :
  ParseProtocol "Tarantool 2.10.3 (Binary) 3b9d2f" = (BinaryProtocol, true) /\
  ParseProtocol "Tarantool 2.10.3 (Lua console)" = (TextProtocol, true) /\
  (ParseProtocol "tarantool 2.10.3 (Binary)").2 = false.
Proof. by vm_compute. Qed.

(** A YAML answer ends at a semicolon inside of it. *)
Example yaml_answer_cut :
  readDataPortionFromPlainTextConn ("---" +:+ nl +:+ "- error: 'a;b'" +:+ nl +:+ "..." +:+ nl) [] =
  Some (Ok ("---" +:+ nl +:+ "- error: 'a;"), "b'" +:+ nl +:+ "..." +:+ nl, []).
Proof. by vm_compute. Qed.

Example read_two_chunks :
  @readFromPlainTextConn string Ok id true
    [mkRead ("-- Push" +:+ nl +:+ "4") None; mkRead ("2;{data_e") None; mkRead "nc='x'};" None] =
  Some (Some (Ok "{data_enc='x'};", ["42"], [])).
Proof. by vm_compute. Qed.

(** * What the connectors guarantee

    An answer is read whole however the connection cuts it into reads, a socket
    address leaves the working directory as it was, and a pool asks every
    instance at most once. *)
From S2P Require Import ConfigureProps.

(** ** Portions

    When a text is a whole portion, told from the text alone. *)
Definition marker (p : string) : bool :=
  HasPrefix endOfYAMLOutput p || HasPrefix tagPushPrefixYAML p || HasPrefix tagPushPrefixLua p.

Definition yaml_start (p : string) : bool :=
  HasPrefix p startOfYamlOutput || HasPrefix p tagPushPrefixYAML.

Definition complete (p : string) : bool :=
  negb (marker p) && ((yaml_start p && HasSuffix p endOfYAMLOutput) || HasSuffix p endOfLuaOutput).

(** No beginning of the text is whole. *)
Definition unfinished (d : string) : Prop := forall q r, d = q +:+ r -> complete q = false.

(** The text is whole and no shorter beginning of it is. *)
Definition frame (p : string) : Prop :=
  complete p = true /\ forall q r, p = q +:+ r -> r <> "" -> complete q = false.

Lemma frame_ne p : frame p -> p <> "".
Proof. by intros [Hc _] ->. Qed.

Lemma frame_unique p q r s : frame p -> frame q -> p +:+ r = q +:+ s -> p = q /\ r = s.
Proof.
  intros [Hp Hp'] [Hq Hq'] [(x & -> & ->)|(x & -> & ->)]%string_app_split;
    (destruct x as [|c x]; [rewrite !string_app_nil_r; by split|]).
  - by rewrite (Hq' p (String c x)) in Hp.
  - by rewrite (Hp' q (String c x)) in Hq.
Qed.

Lemma frame_unfinished p r : frame p -> unfinished (p +:+ r) -> False.
Proof. intros [Hc _] Hu. by rewrite (Hu p r eq_refl) in Hc. Qed.

(** [hasYAMLOutputPrefix] while a portion is read. *)
Definition flag_ok (d : string) (yaml : bool) : Prop :=
  yaml = negb (marker d) && yaml_start d.

Lemma marker_shorten d r : marker (d +:+ r) = true -> marker d = true.
Proof.
  unfold marker. rewrite !orb_true_iff. intros [[Hm|Hm]|Hm];
    apply HasPrefix_shorten in Hm; auto.
Qed.

Lemma yaml_start_extend d r : yaml_start d = true -> yaml_start (d +:+ r) = true.
Proof.
  unfold yaml_start. rewrite !orb_true_iff. intros [Hy|Hy]; apply (HasPrefix_extend _ _ r) in Hy; auto.
Qed.

Lemma portion_step_spec d c yaml :
  flag_ok d yaml ->
  exists yaml', portion_step (d +:+ c) yaml = (complete (d +:+ c), yaml') /\
    flag_ok (d +:+ c) yaml'.
Proof.
  unfold flag_ok, portion_step, complete. intros ->. fold (marker (d +:+ c)).
  destruct (marker (d +:+ c)) eqn:Hm; cbn [negb andb].
  - rewrite (marker_shorten _ _ Hm). by exists false.
  - set (yaml' := if _ || _ then true else _). assert (yaml' = yaml_start (d +:+ c)) as ->.
    { unfold yaml'. destruct (negb (marker d) && yaml_start d) eqn:Hy.
      - apply andb_true_iff in Hy as [_ Hy]. rewrite (yaml_start_extend _ _ Hy).
        by case_match.
      - cbn [negb andb]. fold (yaml_start (d +:+ c)). by destruct (yaml_start (d +:+ c)). }
    eexists. split; [|reflexivity]. by destruct (yaml_start (d +:+ c) && _).
Qed.

Lemma unfinished_snoc d c :
  unfinished d -> complete (d +:+ String c "") = false -> unfinished (d +:+ String c "").
Proof.
  intros Hu Hc q r [(x & -> & Hx)|(x & -> & ->)]%string_app_split.
  - destruct x as [|e x]; [rewrite string_app_nil_r; eapply (Hu d ""); by rewrite string_app_nil_r|].
    cbn in Hx. injection Hx as <- Hx. destruct x; [|done]. done.
  - by eapply Hu.
Qed.

Lemma frame_snoc d c :
  unfinished d -> complete (d +:+ String c "") = true -> frame (d +:+ String c "").
Proof.
  intros Hu Hc. split; [done|]. intros q r [(x & -> & Hx)|(x & -> & ->)]%string_app_split Hr.
  - destruct x as [|e x]; [rewrite string_app_nil_r; eapply (Hu d ""); by rewrite string_app_nil_r|].
    cbn in Hx. injection Hx as <- Hx. destruct x; [|done]. cbn in Hx. by rewrite <- Hx in Hr.
  - by eapply Hu.
Qed.

Lemma scan_buffer_spec d yaml b :
  unfinished d -> flag_ok d yaml ->
  match scan_buffer d yaml b with
  | Portion p rest => frame p /\ p +:+ rest = d +:+ b
  | More d' yaml' => d' = d +:+ b /\ unfinished d' /\ flag_ok d' yaml'
  end.
Proof.
  revert d yaml. induction b as [|c b IH]; intros d yaml Hu Hf; cbn [scan_buffer].
  - by rewrite string_app_nil_r.
  - destruct (portion_step_spec d (String c "") yaml Hf) as (yaml' & -> & Hf').
    assert (d +:+ String c b = (d +:+ String c "") +:+ b) as -> by by rewrite string_app_assoc.
    destruct (complete _) eqn:Hc; [by split; [apply frame_snoc|]|].
    apply IH; [by apply unfinished_snoc|done].
Qed.

(** ** Reads *)
Definition good (c : read_call) : Prop := read_err c = None /\ read_bytes c <> "".

Fixpoint conn_text (conn : list read_call) : string :=
  match conn with [] => "" | c :: conn => read_bytes c +:+ conn_text conn end.

Lemma read_portion_spec d yaml b conn :
  unfinished d -> flag_ok d yaml ->
  match read_portion d yaml b conn with
  | Some (Ok p, rest, conn') => exists used, conn = used ++ conn' /\ Forall good used /\ frame p /\
      p +:+ rest = d +:+ b +:+ conn_text used
  | Some (Err _, _, conn') => exists used c, conn = used ++ c :: conn' /\ Forall good used /\ ~ good c
  | None => Forall good conn /\ unfinished (d +:+ b +:+ conn_text conn)
  end.
Proof.
  revert d yaml b. induction conn as [|c conn IH]; intros d yaml b Hu Hf; cbn [read_portion];
    pose proof (scan_buffer_spec d yaml b Hu Hf) as Hs; destruct (scan_buffer d yaml b) as [p rest|d' yaml'].
  - exists []. destruct Hs. cbn. by rewrite string_app_nil_r.
  - cbn. rewrite string_app_nil_r. destruct Hs as (-> & ? & _). by split.
  - exists []. destruct Hs. cbn. by rewrite string_app_nil_r.
  - destruct Hs as (-> & Hu' & Hf'). destruct (read_err c) as [[|e]|] eqn:He;
      [exists [], c; by split_and!; [|constructor|intros [? _]; congruence]..|].
    destruct (decide (read_bytes c = "")) as [Hb|Hb];
      [exists [], c; by split_and!; [|constructor|intros [_ ?]]|].
    specialize (IH _ _ (read_bytes c) Hu' Hf'). destruct (read_portion _ _ _ conn) as [[[[p|e] rest] conn']|].
    + destruct IH as (used & -> & Hg & Hfr & Heq). exists (c :: used).
      split_and!; [done|by constructor|done|]. cbn. by rewrite Heq, !string_app_assoc.
    + destruct IH as (used & c' & -> & Hg & Hng). exists (c :: used), c'. split_and!; [done|by constructor|done].
    + destruct IH as [Hg Hun]. split; [by constructor|]. cbn. by rewrite !string_app_assoc in Hun.
Qed.

Lemma unfinished_empty : unfinished "".
Proof. intros [|? ?] r Hq; [by vm_compute|done]. Qed.

(** A portion that is there is read, whatever the reads. *)
Lemma read_frame b conn p more :
  Forall good conn -> frame p -> b +:+ conn_text conn = p +:+ more ->
  exists rest conn', readDataPortionFromPlainTextConn b conn = Some (Ok p, rest, conn') /\
    Forall good conn' /\ rest +:+ conn_text conn' = more.
Proof.
  intros Hg Hp Heq. pose proof (read_portion_spec "" false b conn unfinished_empty eq_refl) as Hs.
  unfold readDataPortionFromPlainTextConn. destruct (read_portion _ _ _ _) as [[[[q|e] rest] conn']|].
  - destruct Hs as (used & -> & Hused & Hq & Hqr). cbn in Hqr.
    apply Forall_app in Hg as [_ Hg]. assert (conn_text (used ++ conn') = conn_text used +:+ conn_text conn') as Ht.
    { clear. induction used as [|c used IH]; [done|]. cbn. by rewrite IH, string_app_assoc. }
    rewrite Ht, <- string_app_assoc, <- Hqr, string_app_assoc in Heq.
    apply frame_unique in Heq as [-> Heq]; [|done..]. eauto.
  - destruct Hs as (used & c & -> & _ & Hng). apply Forall_app in Hg as [_ Hg]. by inversion Hg.
  - destruct Hs as [_ Hun]. cbn in Hun. rewrite Heq in Hun. by destruct (frame_unfinished p more).
Qed.

Section reader.
Context {V : Type} (yaml_any : string -> result V) (VString : string -> V) (callback : bool).

Definition texts (l : list string) : string := foldr String.append "" l.

(** What the callback gets for the pushed portions. *)
Definition pushed (pushes : list string) (vals : list V) : Prop :=
  if callback then Forall2 (fun p v => getPushedData yaml_any VString p = Ok v) pushes vals
  else vals = [].

Lemma read_loop_framed fuel pushes vals b conn answer more :
  Forall good conn -> Forall (fun p => frame p /\ pushTagIsReceived p = true) pushes ->
  frame answer -> pushTagIsReceived answer = false -> pushed pushes vals ->
  b +:+ conn_text conn = texts pushes +:+ answer +:+ more -> length pushes < fuel ->
  exists conn', read_loop yaml_any VString fuel callback b conn = Some (Some (Ok answer, vals, conn')).
Proof.
  revert fuel vals b conn. induction pushes as [|p pushes IH]; intros fuel vals b conn Hg Hp Ha Hta Hv Heq Hf;
    (destruct fuel as [|fuel]; [cbn in Hf; lia|]); cbn [read_loop].
  - destruct (read_frame b conn answer more Hg Ha Heq) as (rest & conn' & -> & _). rewrite Hta. cbn [negb].
    exists conn'. unfold pushed in Hv. destruct callback; [|by subst]. by inversion Hv.
  - apply Forall_cons in Hp as [[Hfr Ht] Hp]. cbn in Heq. rewrite string_app_assoc in Heq.
    destruct (read_frame b conn p _ Hg Hfr Heq) as (rest & conn' & -> & Hg' & Heq'). rewrite Ht. cbn [negb].
    cbn in Hf. unfold pushed in Hv. destruct callback eqn:Hcb.
    + inversion Hv as [|? v ? vals' Hpv Hv']; subst. rewrite Hpv.
      destruct (IH fuel vals' rest conn') as (conn'' & Hr); [done..|by unfold pushed; rewrite Hcb|done|lia|].
      rewrite Hr. eauto.
    + subst vals. apply IH; [done..|by unfold pushed; rewrite Hcb|done|lia].
Qed.

Lemma read_portion_eof d yaml b conn :
  Forall good conn -> flag_ok d yaml -> unfinished (d +:+ b +:+ conn_text conn) ->
  read_portion d yaml b (conn ++ [mkRead "" (Some EOF)]) = Some (Err io_EOF, "", []).
Proof.
  revert d yaml b. induction conn as [|c conn IH]; intros d yaml b Hg Hf Hu;
    (assert (unfinished d) as Hd by (intros q r ->; eapply Hu; by rewrite string_app_assoc));
    pose proof (scan_buffer_spec d yaml b Hd Hf) as Hs; cbn [read_portion app conn_text] in *;
    destruct (scan_buffer d yaml b) as [p rest|d' yaml'].
  1,3: destruct Hs as [Hp Hpr]; exfalso; rewrite <- string_app_assoc, <- Hpr, string_app_assoc in Hu;
    by eapply frame_unfinished.
  - done.
  - apply Forall_cons in Hg as [[-> Hb] Hg]. rewrite decide_False by done. destruct Hs as (-> & _ & Hf').
    apply IH; [done..|]. by rewrite string_app_assoc.
Qed.

Lemma texts_length l : Forall (fun p => frame p /\ pushTagIsReceived p = true) l ->
  length l <= String.length (texts l).
Proof.
  unfold texts. induction 1 as [|p l [Hp _] _ IH]; cbn; [lia|]. rewrite string_length_app.
  apply frame_ne in Hp. destruct p; [done|]. cbn. lia.
Qed.

Lemma conn_text_length conn : String.length (conn_text conn) = conn_size conn.
Proof.
  induction conn as [|c conn IH]; [done|]. cbn. rewrite string_length_app, IH. done.
Qed.

(** C26: However the reads of a text connection cut its input,
    readFromPlainTextConn gives the callback exactly the values of the pushes
    before the answer, in their order, and returns exactly the bytes of the
    answer, where pushes and answer are the shortest texts that end with an
    end of output; an input that ends before a portion is whole gives io.EOF.
    *)
Theorem read_framed conn pushes vals answer more :
  Forall good conn -> Forall (fun p => frame p /\ pushTagIsReceived p = true) pushes ->
  frame answer -> pushTagIsReceived answer = false -> pushed pushes vals ->
  (conn_text conn = texts pushes +:+ answer +:+ more ->
   exists conn', readFromPlainTextConn yaml_any VString callback conn = Some (Some (Ok answer, vals, conn'))) /\
  (unfinished (conn_text conn) ->
   readFromPlainTextConn yaml_any VString callback (conn ++ [mkRead "" (Some EOF)])
     = Some (Some (Err io_EOF, [], []))).
Proof.
  intros Hg Hp Ha Hta Hv. unfold readFromPlainTextConn. split.
  - intros Heq. eapply read_loop_framed; [done..|].
    apply texts_length in Hp. rewrite <- conn_text_length, Heq, !string_length_app. lia.
  - intros Hu. cbn [read_loop]. unfold readDataPortionFromPlainTextConn.
    by rewrite read_portion_eof.
Qed.
End reader.

(** Which YAML documents are portions: those without a semicolon, up to their
    first end mark. *)
Lemma frame_yaml body :
  let s := startOfYamlOutput +:+ body +:+ endOfYAMLOutput in
  no_char ";" s = true -> (forall q r, s = q +:+ r -> r <> "" -> HasSuffix q endOfYAMLOutput = false) ->
  frame s.
Proof.
  intros s Hsc Hend. split.
  - assert (marker s = false) as Hm by done. unfold complete. rewrite Hm. cbn [negb andb].
    assert (yaml_start s = true) as -> by done. cbn [andb]. apply orb_true_iff. left.
    apply HasSuffix_true. exists (startOfYamlOutput +:+ body). unfold s. by rewrite string_app_assoc.
  - intros q r Heq Hr. unfold complete. rewrite (Hend q r Heq Hr), andb_false_r. cbn [orb].
    destruct (HasSuffix q endOfLuaOutput) eqn:Hl; [|by rewrite andb_false_r].
    apply HasSuffix_true in Hl as (x & ->). exfalso. revert Hsc. rewrite Heq. clear.
    rewrite string_app_assoc. induction x as [|c x IH]; cbn; [done|]. by case_decide.
Qed.

(** ** The working directory *)
Section connect.
Context {W C : Type} `{OS W} (GOOS : string).
Context (dial : W -> string -> string -> result (result string)).
Context (binary : W -> string -> string -> string -> string -> SslOpts -> result C).
(** [os.Chdir] to the directory of [os.Getwd] makes it the working directory
    again. *)
Hypothesis chdir_getwd : forall w0 d w w', Getwd w0 = Ok d -> Chdir w d = Ok w' -> Getwd w' = Ok d.

(** Connect leaves the working directory as it found it, although it
    changes to the directory of a socket to shorten its name, whatever fails,
    with one exception: a socket whose name is too long is refused from inside
    its directory. *)
Theorem Connect_working_directory opts w wd :
  Getwd w = Ok wd -> is_ok (Chdir (chdir_or_stay w (path_Dir (Address opts))) wd) = true ->
  let '(r, w') := Connect GOOS dial binary opts w in
  let long := (if decide (GOOS = "darwin") then 106 else 108) < String.length (path_Base (Address opts)) + 3 in
  (is_ok (Stat w (Address opts)) = true /\ long /\ is_ok r = false /\
   w' = chdir_or_stay w (path_Dir (Address opts))) \/
  (~ (is_ok (Stat w (Address opts)) = true /\ long) /\ Getwd w' = Ok wd).
Proof.
  intros Hwd Hok. unfold Connect. rewrite Hwd. destruct (Stat w (Address opts)) as [fi|e].
  - cbn [Address with_address String.append String.length]. case_decide as Hlen; [left|right].
    + split_and!; [done| |done|done]. case_decide; unfold maxSocketPathMac, maxSocketPathLinux in Hlen; lia.
    + split; [|unfold chdir_or_stay at 1; destruct (Chdir _ wd) eqn:Hc; [by eapply chdir_getwd|done]].
      intros [_ Hl]. apply Hlen. case_decide; unfold maxSocketPathMac, maxSocketPathLinux in *; lia.
  - right. split; [|done]. by intros [? _].
Qed.
End connect.

(** ** The pool *)
Section pool.
Context {W O C R : Type}.
Context (pool_connect : O -> W -> result C * W) (conn_eval : C -> W -> result R * W).
Context (conn_close : C -> W -> W).

(** The reference: the targets are asked in order, each once, until one
    answers; an open connection needs no new one. *)
Fixpoint ask_first (targets : list (C + O)) (lastErr : option error) (w : W)
    : result R * option C * nat * W :=
  match targets with
  | [] => (Err (default errFailedToConnect lastErr), None, 0, w)
  | t :: targets =>
      let '(opened, w) := match t with inl conn => (Ok conn, w) | inr o => pool_connect o w end in
      match opened with
      | Err _ => let '(r, c, k, w) := ask_first targets lastErr w in (r, c, S k, w)
      | Ok conn =>
          match conn_eval conn w with
          | (Ok ret, w) => (Ok ret, Some conn, 0, w)
          | (Err err, w) =>
              let '(r, c, k, w) := ask_first targets (Some err) (conn_close conn w) in (r, c, S k, w)
          end
      end
  end.

(** The instances from the current one on, around the list. *)
Definition targets (pool : Pool) : list (C + O) :=
  let cyclic := drop (pool_currentIndex pool) (pool_opts pool) ++ take (pool_currentIndex pool) (pool_opts pool) in
  match pool_current pool with
  | None => map inr cyclic
  | Some conn => inl conn :: map inr (tail cyclic)
  end.

Definition pool_wf (pool : @Pool O C) : Prop := pool_currentIndex pool < length (pool_opts pool).

(** The options of the next [n] rounds. *)
Fixpoint round_opts (opts : list O) (n j : nat) : list O :=
  match n with
  | 0 => []
  | S n => match opts !! j with
           | Some o => o :: round_opts opts n ((j + 1) mod length opts)
           | None => []
           end
  end.

Lemma round_opts_slice opts n j : j + n <= length opts -> round_opts opts n j = take n (drop j opts).
Proof.
  revert j. induction n as [|n IH]; intros j Hj; [done|]. cbn [round_opts].
  destruct (lookup_lt_is_Some_2 opts j) as [o Ho]; [lia|]. rewrite Ho, (drop_S opts o j Ho). cbn [take].
  f_equal. destruct n as [|n]; [done|]. rewrite Nat.mod_small by lia.
  replace (j + 1) with (S j) by lia. apply IH. lia.
Qed.

Lemma round_opts_app opts m n j :
  j < length opts -> j + m = length opts ->
  round_opts opts (m + n) j = round_opts opts m j ++ round_opts opts n 0.
Proof.
  revert j. induction m as [|m IH]; intros j Hj Hm; [lia|]. cbn [round_opts Nat.add].
  destruct (lookup_lt_is_Some_2 opts j) as [o Ho]; [lia|]. rewrite Ho. cbn [app]. f_equal.
  destruct m as [|m].
  - cbn. replace (j + 1) with (length opts) by lia. by rewrite Nat.Div0.mod_same.
  - rewrite Nat.mod_small by lia. apply IH; lia.
Qed.

Lemma round_opts_cyclic opts i :
  i < length opts -> round_opts opts (length opts) i = drop i opts ++ take i opts.
Proof.
  intros Hi. replace (length opts) with ((length opts - i) + i) at 1 by lia.
  rewrite round_opts_app, !round_opts_slice by lia. rewrite drop_0. f_equal.
  apply take_ge. rewrite length_drop. lia.
Qed.

(** The pool after a call that asked [k] targets in vain. *)
Definition pool_after (opts : list O) (i k : nat) (c : option C) : Pool :=
  mkPool opts c ((i + k) mod length opts).

Lemma next_mod i n : (i + 1) mod n < n \/ n = 0.
Proof. destruct n; [by right|left]. apply Nat.mod_upper_bound. lia. Qed.

Lemma pool_after_next opts i k c :
  i < length opts -> pool_after opts ((i + 1) mod length opts) k c = pool_after opts i (S k) c.
Proof.
  intros Hi. unfold pool_after. f_equal. rewrite Nat.Div0.add_mod_idemp_l. f_equal. lia.
Qed.

Lemma eval_rounds_ask n opts i lastErr w :
  i < length opts ->
  eval_rounds pool_connect conn_eval conn_close n lastErr (mkPool opts None i) w =
  (let '(r, c, k, w) := ask_first (map inr (round_opts opts n i)) lastErr w in (r, pool_after opts i k c, w)).
Proof.
  revert i lastErr w. induction n as [|n IH]; intros i lastErr w Hi; cbn [eval_rounds round_opts].
  - cbn. unfold pool_after. by rewrite Nat.add_0_r, Nat.mod_small.
  - cbn [pool_current pool_opts pool_currentIndex]. unfold next_index. cbn [pool_currentIndex pool_opts].
    destruct (lookup_lt_is_Some_2 opts i) as [o Ho]; [done|]. rewrite Ho. cbn [map ask_first].
    assert ((i + 1) mod length opts < length opts) as Hn by (apply Nat.mod_upper_bound; lia).
    destruct (pool_connect o w) as [[conn|e] w1].
    + destruct (conn_eval conn w1) as [[ret|e] w2].
      * unfold pool_after. by rewrite Nat.add_0_r, Nat.mod_small.
      * rewrite IH by done. destruct (ask_first _ _ _) as [[[r c] k] w3]. by rewrite pool_after_next.
    + rewrite IH by done. destruct (ask_first _ _ _) as [[[r c] k] w3]. by rewrite pool_after_next.
Qed.

(** A pool asks the instances from its current one on, each at most once and in
    the order of its options, until one answers; the one that answered stays the
    current one, and without an answer the error is the last one of an instance
    that could be asked. *)
Theorem Pool_Eval_asks_each_once pool w :
  pool_wf pool ->
  let '(r, pool', w') := Pool_Eval pool_connect conn_eval conn_close pool w in
  let '(r0, c, k, w0) := ask_first (targets pool) None w in
  r = r0 /\ w' = w0 /\ pool' = pool_after (pool_opts pool) (pool_currentIndex pool) k c /\
  pool_wf pool' /\ length (targets pool) = length (pool_opts pool).
Proof.
  destruct pool as [opts cur i]. unfold pool_wf, Pool_Eval, targets. cbn. intros Hi.
  rewrite <- (round_opts_cyclic opts i) by done.
  assert (length (round_opts opts (length opts) i) = length opts) as Hl
    by (rewrite round_opts_cyclic, length_app, length_drop, length_take by done; lia).
  assert (forall k c, pool_currentIndex (pool_after opts i k c) < length opts) as Hwf
    by (intros; cbn; apply Nat.mod_upper_bound; lia).
  destruct cur as [conn|].
  - destruct (length opts) as [|n] eqn:Hn; [lia|]. cbn [eval_rounds pool_current].
    cbn [round_opts] in *. destruct (lookup_lt_is_Some_2 opts i) as [o Ho]; [lia|]. rewrite Ho in Hl |- *.
    cbn [tail ask_first]. destruct (conn_eval conn w) as [[ret|e] w1].
    + split_and!; [done|done| |cbn; lia|cbn in *; rewrite length_map; lia].
      unfold pool_after. cbn. by rewrite Nat.add_0_r, Hn, Nat.mod_small.
    + unfold next_index. cbn [pool_opts pool_currentIndex]. rewrite <- Hn in *.
      rewrite eval_rounds_ask by (apply Nat.mod_upper_bound; lia).
      destruct (ask_first _ _ _) as [[[r c] k] w3]. rewrite pool_after_next by lia.
      split_and!; [done|done|done|apply Hwf|cbn in *; rewrite length_map; lia].
  - rewrite eval_rounds_ask by done. destruct (ask_first _ _ _) as [[[r c] k] w3].
    split_and!; [done|done|done|apply Hwf|by rewrite length_map].
Qed.
End pool.

(** ** Samples *)
Lemma read_framed_witness :
  exists conn',
    readFromPlainTextConn Ok (fun s : string => s) true
      [mkRead ("-- Push" +:+ nl +:+ "4") None; mkRead ("2;{data_e") None; mkRead "nc='x'};" None] =
    Some (Some (Ok "{data_enc='x'};", ["42"], conn')).
Proof.
  assert (forall p, p <> "" -> forallb (fun n => negb (complete (String.substring 0 n p)))
    (seq 0 (String.length p)) = true -> complete p = true -> frame p) as Hframe.
  { intros p _ Hn Hc. split; [done|]. intros q r -> Hr.
    assert (String.substring 0 (String.length q) (q +:+ r) = q) as Hq.
    { clear. induction q as [|c q IH]; cbn; [by destruct r|by rewrite IH]. }
    rewrite forallb_forall in Hn. specialize (Hn (String.length q)). rewrite Hq in Hn.
    destruct (complete q); [|done]. exfalso. discriminate Hn. apply in_seq.
    rewrite string_length_app. destruct r; [done|]. cbn. lia. }
  eapply (read_framed Ok (fun s => s) true _ ["-- Push" +:+ nl +:+ "42;"] ["42"] "{data_enc='x'};" "").
  - by repeat constructor.
  - constructor; [|constructor]. split; [apply Hframe; by vm_compute|by vm_compute].
  - apply Hframe; by vm_compute.
  - by vm_compute.
  - constructor; [by vm_compute|constructor].
  - by vm_compute.
Defined.

Definition sample_opts (address : string) : ConnectOpts :=
  mkConnectOpts "unix" address "" "" (mkSslOpts "" "" "" "").

Lemma toy_chdir_getwd (w0 : toy) d w w' : Getwd w0 = Ok d -> Chdir w d = Ok w' -> Getwd w' = Ok d.
Proof. cbn. intros _ Hc. by injection Hc as <-. Qed.

Lemma Connect_working_directory_witness :
  exists w' : toy, Connect (C := unit) "linux" (fun _ _ _ => Ok (Ok "Tarantool 3 (Lua console)"))
      (fun _ _ _ _ _ _ => Ok tt) (sample_opts "/home/u/bin/tt") toy_home =
    (Ok (NewTextConnector "unix" "./tt"), w') /\ Getwd w' = Ok "/home/u/app".
Proof.
  eexists. split; [by vm_compute|].
  destruct (Connect_working_directory (C := unit) "linux" (fun _ _ _ => Ok (Ok "Tarantool 3 (Lua console)"))
    (fun _ _ _ _ _ _ => Ok tt)
    toy_chdir_getwd
    (sample_opts "/home/u/bin/tt") toy_home "/home/u/app") as [(_ & Hl & _)|[_ Hw]].
  - done.
  - by vm_compute.
  - exfalso. revert Hl. vm_compute. lia.
  - exact Hw.
Defined.

(** Instances 0 and 2 do not answer; the world is the list of those asked. *)
Lemma Pool_Eval_asks_each_once_witness :
  let connect (o : nat) (w : list nat) := (Ok o, w ++ [o]) in
  let eval (c : nat) (w : list nat) := (if bool_decide (c = 1) then Ok "one" else Err io_EOF, w) in
  let close (_ : nat) (w : list nat) := w in
  exists pool', Pool_Eval connect eval close (mkPool [0; 1; 2] (Some 2) 2) [] = (Ok "one", pool', [0; 1]) /\
    pool_wf pool'.
Proof.
  intros connect eval close. eexists. split; [by vm_compute|].
  destruct (Pool_Eval_asks_each_once connect eval close (mkPool [0; 1; 2] (Some 2) 2) []) as (_ & _ & _ & Hw & _);
    [unfold pool_wf; cbn; lia|exact Hw].
Defined.
