(* ===== verification/Formatter.v ===== *)
(** * Output of the console: [cli/formatter]

    The formats, the Lua output and the tables.  Decoding of YAML, encoding of
    JSON, the text of floating-point numbers and the drawing of a table
    (go-pretty) are parameters; the rows of the tables are computed here. *)
From S2P Require Import Prelude GoStrings Value Validators Connector Regexp.
Local Open Scope go_scope.

(** ** [dialect.go] and [format.go] *)
Inductive TableDialect := DefaultTableDialect | MarkdownTableDialect | JiraTableDialect.

#[export] Instance TableDialect_eq_dec : EqDecision TableDialect.
Proof. solve_decision. Defined.

Definition defaultTableDialectStr : string := "default".
Definition markdownTableDialectStr : string := "markdown".
Definition jiraTableDialectStr : string := "jira".

Definition ParseTableDialect (str : string) : TableDialect * bool :=
  let s := ToLower str in
  if decide (s = defaultTableDialectStr) then (DefaultTableDialect, true)
  else if decide (s = markdownTableDialectStr) then (MarkdownTableDialect, true)
  else if decide (s = jiraTableDialectStr) then (JiraTableDialect, true)
  else (DefaultTableDialect, false).

Definition TableDialect_String (d : TableDialect) : string :=
  match d with
  | DefaultTableDialect => defaultTableDialectStr
  | MarkdownTableDialect => markdownTableDialectStr
  | JiraTableDialect => jiraTableDialectStr
  end.

Definition yamlFormatStr : string := "yaml".
Definition luaFormatStr : string := "lua".
Definition tableFormatStr : string := "table".
Definition ttableFormatStr : string := "ttable".

Inductive Format := YamlFormat | LuaFormat | TableFormat | TTableFormat.

#[export] Instance Format_eq_dec : EqDecision Format.
Proof. solve_decision. Defined.

(** The numbers that [iota] gives. *)
Definition format_num (f : Format) : nat :=
  match f with YamlFormat => 0 | LuaFormat => 1 | TableFormat => 2 | TTableFormat => 3 end.
Definition FormatsAmount : nat := 4.
Definition DefaultFormat : Format := YamlFormat.

Definition format_of (n : nat) : option Format :=
  match n with
  | 0 => Some YamlFormat | 1 => Some LuaFormat | 2 => Some TableFormat | 3 => Some TTableFormat
  | _ => None
  end.

Definition ParseFormat (str : string) : Format * bool :=
  let s := ToLower str in
  if decide (s = yamlFormatStr) then (YamlFormat, true)
  else if decide (s = luaFormatStr) then (LuaFormat, true)
  else if decide (s = tableFormatStr) then (TableFormat, true)
  else if decide (s = ttableFormatStr) then (TTableFormat, true)
  else (DefaultFormat, false).

Definition Format_String (f : Format) : string :=
  match f with
  | YamlFormat => yamlFormatStr
  | LuaFormat => luaFormatStr
  | TableFormat => tableFormatStr
  | TTableFormat => ttableFormatStr
  end.

Record Opts := mkOpts { Graphics : bool; ColumnWidthMax : Z; opts_TableDialect : TableDialect }.

(** ** [unordered_map.go] and [node.go] *)
Record unorderedMap := mkUMap { um_keys : list gokey; innerMap : gmap gokey value }.

Definition createUnorderedMap : unorderedMap := mkUMap [] ∅.

Definition um_insert (key : gokey) (v : value) (u : unorderedMap) : unorderedMap :=
  mkUMap (um_keys u ++ [key]) (<[key := v]> (innerMap u)).

Definition um_inserts (l : list (gokey * value)) : unorderedMap :=
  fold_left (fun u kv => um_insert kv.1 kv.2 u) l createUnorderedMap.

(** A node to draw: a decoded value, or the map of a row. *)
Inductive node := NVal (v : value) | NMap (u : unorderedMap).

Inductive nodeType := scalarNodeType | arrayNodeType | mapNodeType.

#[export] Instance nodeType_eq_dec : EqDecision nodeType.
Proof. solve_decision. Defined.

Definition getNodeType (n : node) : nodeType :=
  match n with
  | NMap _ | NVal (VMap _) => mapNodeType
  | NVal (VSlice _) => arrayNodeType
  | NVal _ => scalarNodeType
  end.

Definition isNodeTypeEqual (x y : node) : bool := bool_decide (getNodeType x = getNodeType y).

Definition isSingleType (batch : list node) (t : nodeType) : bool :=
  forallb (fun n => bool_decide (getNodeType n = t)) batch.

(** Runs of neighbours that [same] relates: the loop with [batchPointer], which
    starts a new run where two neighbours differ.  The unused tail of the Go
    slice is empty and skipped. *)
Fixpoint runs {A} (same : A -> A -> bool) (x : A) (l : list A) : list (list A) :=
  match l with
  | [] => [[x]]
  | y :: l =>
      match runs same y l with
      | b :: bs => if same x y then (x :: b) :: bs else [x] :: b :: bs
      | [] => [[x]]
      end
  end.

Section formatter.
Context `{GoText} `{GoMapOrder} `{GoSort}.
(** [strconv.FormatFloat(f, 'f', -1, 64)] and [json.Marshal]. *)
Context (FormatFloat_f : spec_float -> string) (json_Marshal : value -> result string).

(** ** [lua.go] *)
Definition quote : ascii := ascii_of_nat 34.

Fixpoint luaEncode (fuel : nat) (elem : value) : string :=
  match fuel with
  | O => ""
  | S fuel =>
      match elem with
      | VMap t =>
          "{" +:+ Join (map (fun kv =>
            match kv.1 with
            | KStr str => str +:+ " = " +:+ luaEncode fuel kv.2
            | k => "[" +:+ Sprint (key_value k) +:+ "] = " +:+ luaEncode fuel kv.2
            end) (range_map t)) ", " +:+ "}"
      | VSlice t => "{" +:+ Join (map (luaEncode fuel) t) ", " +:+ "}"
      | VNil => "nil"
      | VStr str => String quote str +:+ String quote ""
      | _ => Sprint elem
      end
  end.

(** A value is not deeper than it is large. *)
Definition luaEncodeElement (elem : value) : string := luaEncode (S (value_size elem)) elem.

Definition makeLuaOutput (decoded : string -> result (list value)) (input : string) : result string :=
  if decide (input = "---" +:+ nl +:+ "..." +:+ nl) then Ok (";" +:+ nl)
  else
    match decoded input with
    | Ok l => Ok (Join (map luaEncodeElement l) ", " +:+ ";" +:+ nl)
    | Err err => Err (Wrapf "cannot render lua: %w" [] err)
    end.

(** ** [table.go]: cells *)
Definition string_less (a b : gokey) : bool := String.ltb (Sprint (key_value a)) (Sprint (key_value b)).

(** Keys that print alike collide: both columns show the value met last. *)
Definition castMapToUMap (src : gmap gokey value) : unorderedMap :=
  let printed := map (fun kv => (KStr (Sprint (key_value kv.1)), kv.2)) (range_map src) in
  let converted := fold_left (fun m kv => <[kv.1 := kv.2]> m) printed (∅ : gmap gokey value) in
  let sortedKeys := sort_slice string_less (map fst printed) in
  um_inserts (map (fun k => (k, default VNil (converted !! k))) sortedKeys).

Fixpoint deep_cast (fuel : nat) (v : value) : value :=
  match fuel with
  | O => v
  | S fuel =>
      match v with
      | VSlice x => VSlice (map (deep_cast fuel) x)
      | VMap x =>
          VStrMap (fold_left (fun m kv => <[Sprint (key_value kv.1) := deep_cast fuel kv.2]> m)
                     (range_map x) ∅)
      | _ => v
      end
  end.

Definition deepCastAnyMapToStringMap (v : value) : value := deep_cast (S (value_size v)) v.

Definition encodeScalar (val : value) : string :=
  match val with
  | VFloat f => FormatFloat_f f
  | VNil => "nil"
  | _ => Sprint val
  end.

Definition encodeJson (val : value) : result string := json_Marshal (deepCastAnyMapToStringMap val).

Definition encodeCell (val : value) : result string :=
  if decide (getNodeType (NVal val) = scalarNodeType) then Ok (encodeScalar val) else encodeJson val.

(** ** [table.go]: rows *)
Definition createHeader (keys : list gokey) : list string :=
  map (fun k => let strVal := Sprint (key_value k) in
                match ParseInt strVal with Err _ => strVal | Ok _ => "col" +:+ strVal end) keys.

Definition transposeRows (rowsRaw : list (list string)) : list (list string) :=
  let cap := fold_left (fun n row => if decide (n < length row) then length row else n) rowsRaw 0 in
  map (fun i => map (fun row => default "" (row !! i)) rowsRaw) (seq 0 cap).

Definition repeat_str (n : nat) (s : string) : string := Join (replicate n s) "".

Definition createMarkdownTable (table : list string) (columns : nat) : string :=
  let empty := repeat_str (S (columns - 1)) "| " +:+ "|" in
  let separator := repeat_str (S (columns - 1)) "|-" +:+ "|" in
  Join (map (fun row => row +:+ nl) ([empty; separator] ++ table)) "".

(** What the table writer is given: the rows, and for a maximal width the number
    of columns it holds for and the text of a cell. *)
Record table := mkTable {
  tbl_graphics : bool;
  tbl_rows : list (list string);
  tbl_width : option (nat * Z * (string -> result string))
}.

Context (Render RenderMarkdown : table -> string) (InsertEveryN : string -> Z -> string).

(** A rune encoded again: a byte that starts none is U+FFFD. *)
Definition encode_rune (u : string) : string :=
  match u with
  | String c "" => if nat_of_ascii c <? 128 then u else bytes [239; 191; 189]
  | _ => u
  end.

Definition colWidthTransformer (widthMax : Z) (str : string) : result string :=
  let rs := runes str in
  if (widthMax <? Z.of_nat (length rs))%Z then
    if (widthMax <? 0)%Z then index_out_of_range
    else
      let first := text (map encode_rune (take (Z.to_nat widthMax) rs)) in
      let remaining := text (map encode_rune (drop (Z.to_nat widthMax) rs)) in
      Ok (first +:+ "+" +:+ InsertEveryN remaining (widthMax - 1))
  else Ok str.

(** The cells of one row. *)
Fixpoint encode_row (keys : list gokey) (m : gmap gokey value) : result (list string) :=
  match keys with
  | [] => Ok []
  | key :: keys =>
      cell <-? encodeCell (default VNil (m !! key));;
      cells <-? encode_row keys m;;
      Ok (cell :: cells)
  end.

Fixpoint encode_rows (keys : list gokey) (maps : list unorderedMap) : result (list (list string)) :=
  match maps with
  | [] => Ok []
  | u :: maps =>
      row <-? encode_row keys (innerMap u);;
      rows <-? encode_rows keys maps;;
      Ok (row :: rows)
  end.

Definition draw_table (transpose : bool) (opts : Opts) (columns : nat) (rows : list (list string)) : string :=
  let rowsAmount := length rows in
  let rows' := if transpose then transposeRows rows else rows in
  let columnsAmount := if transpose then rowsAmount else columns in
  let t := mkTable (Graphics opts) rows'
             (if (0 <? ColumnWidthMax opts)%Z
              then Some (columnsAmount, ColumnWidthMax opts, colWidthTransformer (ColumnWidthMax opts))
              else None) in
  match opts_TableDialect opts with
  | MarkdownTableDialect =>
      createMarkdownTable (Split (RenderMarkdown t) newline_char) columnsAmount +:+ nl
  | JiraTableDialect => RenderMarkdown t +:+ nl +:+ nl
  | DefaultTableDialect => Render t +:+ nl
  end.

(** No map at all: [maps[0]] panics. *)
Definition renderEqualMaps (maps : list unorderedMap) (transpose : bool) (opts : Opts) : result string :=
  match maps with
  | [] => index_out_of_range
  | first :: _ =>
      let commonKeys := um_keys first in
      rows <-? encode_rows commonKeys maps;;
      Ok (draw_table transpose opts (length commonKeys) (createHeader commonKeys :: rows))
  end.

(** ** [table.go]: batches *)
Definition as_array (n : node) : option (list value) :=
  match n with NVal (VSlice l) => Some l | _ => None end.

Definition panic_type {A} : result A := Err (Errorf "panic: interface conversion" []).

(** A row of a table of arrays: the columns are numbered, missing ones empty. *)
Definition array_map (maxLen : nat) (item : list value) : unorderedMap :=
  um_inserts (map (fun i => (KStr (FormatInt (Z.of_nat (i + 1))), default (VStr "") (item !! i))) (seq 0 maxLen)).

Definition renderArraysAsTable (batch : list node) (transpose : bool) (opts : Opts) : result string :=
  match mapM as_array batch with
  | None => panic_type
  | Some items =>
      let maxLen := fold_left (fun n item => if decide (n < length item) then length item else n) items 0 in
      renderEqualMaps (map (array_map maxLen) items) transpose opts
  end.

Definition isSingleArrayOfArrays (batch : list node) : option (list node) :=
  match batch with
  | [NVal (VSlice array)] =>
      if isSingleType (map NVal array) arrayNodeType then Some (map NVal array) else None
  | _ => None
  end.

Definition renderArrays (batch : list node) (transpose : bool) (opts : Opts) : result string :=
  match isSingleArrayOfArrays batch with
  | Some array => renderArraysAsTable array transpose opts
  | None => renderArraysAsTable batch transpose opts
  end.

Definition as_value (n : node) : value := match n with NVal v => v | NMap _ => VNil end.

Definition renderScalars (batch : list node) (transpose : bool) (opts : Opts) : result string :=
  renderArrays (map (fun item => NVal (VSlice [as_value item])) batch) transpose opts.

Definition keys_of (u : unorderedMap) : list gokey := sort_slice string_less (um_keys u).

Definition isMapKeysEqual (x y : unorderedMap) : bool :=
  bool_decide (length (um_keys x) = length (um_keys y)) && bool_decide (keys_of x = keys_of y).

Definition casted_map (n : node) : option unorderedMap :=
  match n with
  | NMap u => Some u
  | NVal (VMap m) => Some (castMapToUMap m)
  | NVal _ => None
  end.

Fixpoint render_all (render : list unorderedMap -> result string) (opts : Opts)
    (batches : list (list unorderedMap)) : result string :=
  match batches with
  | [] => Ok ""
  | batch :: batches =>
      batchRes <-? render batch;;
      res <-? render_all render opts batches;;
      Ok (batchRes +:+ (if Graphics opts then "" else nl) +:+ res)
  end.

Definition renderBatch (batch : list node) (transpose : bool) (opts : Opts) : result string :=
  if isSingleType batch scalarNodeType then renderScalars batch transpose opts
  else if isSingleType batch mapNodeType then
    match mapM casted_map batch with
    | None => panic_type
    | Some [] => index_out_of_range
    | Some (m :: ms) =>
        render_all (fun b => renderEqualMaps b transpose opts) opts (runs isMapKeysEqual m ms)
    end
  else if isSingleType batch arrayNodeType then renderArrays batch transpose opts
  else Err (Errorf "unknown parsing case with current render batch" []).

Fixpoint renderBatches (batches : list (list node)) (transpose : bool) (opts : Opts) : result string :=
  match batches with
  | [] => Ok ""
  | batch :: batches =>
      match renderBatch batch transpose opts with
      | Err err => Err (Wrapf "cannot render tables: %w" [] err)
      | Ok batchStr =>
          rest <-? renderBatches batches transpose opts;;
          Ok (batchStr +:+ (if Graphics opts then "" else nl) +:+ rest)
      end
  end.

(** ** [table.go]: rows with metadata *)
Record metadataRows := mkMeta { Metadata : list string; Rows : list (list value) }.

(** The columns from the [i]-th on: a named one under its name, others under a
    number. *)
Fixpoint meta_columns (names : list string) (cells : list value) (missing index : nat)
    : list (gokey * value) :=
  match cells, names with
  | [], _ => map (fun k => (KInt (Z.of_nat (index + k)), VStr "")) (seq 0 missing)
  | column :: cells, name :: names =>
      if decide (name <> "") then (KStr name, column) :: meta_columns names cells missing index
      else (KInt (Z.of_nat index), column) :: meta_columns names cells missing (S index)
  | column :: cells, [] =>
      (KInt (Z.of_nat index), column) :: meta_columns [] cells missing (S index)
  end.

Definition max_length (rows : list (list value)) : nat :=
  fold_left (fun n row => if decide (n < length row) then length row else n) rows 0.

Definition remapMetadataRows (meta : metadataRows) : list node :=
  let maxLen := max_length (Rows meta) in
  map (fun row => NMap (um_inserts (meta_columns (Metadata meta) row (maxLen - length row) 1))) (Rows meta).

Definition insertCollectedFields (fields : metadataRows) (nodes : list node) : list node :=
  if bool_decide (Metadata fields <> []) && bool_decide (Rows fields <> [])
  then nodes ++ remapMetadataRows fields else nodes.

(** A lazily decoded element: as rows with metadata, and as any value. *)
Record lazyMessage := mkLazy { as_meta : result metadataRows; as_any : result value }.

Fixpoint collect_nodes (lazyNodes : list lazyMessage) (metaFields : metadataRows) (nodes : list node)
    : result (list node) :=
  match lazyNodes with
  | [] => Ok (insertCollectedFields metaFields nodes)
  | lazyNode :: lazyNodes =>
      let other :=
        let nodes := insertCollectedFields metaFields nodes in
        match as_any lazyNode with
        | Err err => Err (Wrapf "not yaml any: %s" [] err)
        | Ok v => collect_nodes lazyNodes (mkMeta [] []) (nodes ++ [NVal v])
        end in
      match as_meta lazyNode with
      | Ok meta =>
          if bool_decide (Rows meta <> []) && bool_decide (Metadata meta <> []) then
            if decide (Metadata meta = Metadata metaFields)
            then collect_nodes lazyNodes (mkMeta (Metadata metaFields) (Rows metaFields ++ Rows meta)) nodes
            else collect_nodes lazyNodes meta (insertCollectedFields metaFields nodes)
          else other
      | Err _ => other
      end
  end.

Definition batches_of (nodes : list node) : list (list node) :=
  match nodes with
  | [] => runs isNodeTypeEqual (NVal (VSlice [VStr ""])) []
  | n :: ns => runs isNodeTypeEqual n ns
  end.

Definition makeTableOutput (lazyDecodeYaml : string -> result (list lazyMessage)) (input : string)
    (transpose : bool) (opts : Opts) : result string :=
  let input :=
    if decide (input = "---" +:+ nl +:+ "- " +:+ nl +:+ "..." +:+ nl \/
               input = "---" +:+ nl +:+ "-" +:+ nl +:+ "..." +:+ nl)
    then "--- ['']" +:+ nl +:+ "..." +:+ nl else input in
  match lazyDecodeYaml input with
  | Err err => Err (Wrapf "not yaml array, cannot render tables: %s" [] err)
  | Ok lazyNodes =>
      nodes <-? collect_nodes lazyNodes (mkMeta [] []) [];;
      renderBatches (batches_of nodes) transpose opts
  end.

Definition MakeOutput (decoded : string -> result (list value))
    (lazyDecodeYaml : string -> result (list lazyMessage)) (format : Format) (data : string) (opts : Opts)
    : result string :=
  match format with
  | YamlFormat => Ok (data +:+ nl)
  | LuaFormat => makeLuaOutput decoded data
  | TableFormat => makeTableOutput lazyDecodeYaml data false opts
  | TTableFormat => makeTableOutput lazyDecodeYaml data true opts
  end.
End formatter.

(** * What the output of the console guarantees *)
From S2P Require Import ValidatorsProps.

(** ** Runs *)
Lemma runs_concat {A} (same : A -> A -> bool) x l : concat (runs same x l) = x :: l.
Proof.
  revert x. induction l as [|y l IH]; intros x; [done|]. cbn [runs]. specialize (IH y).
  destruct (runs same y l) as [|b bs]; [done|]. destruct (same x y); cbn in *; by rewrite IH.
Qed.

(** A run begins with the first element and is related throughout. *)
Lemma runs_related {A} (same : A -> A -> bool) (R : A -> A -> Prop) x l :
  (forall a, R a a) -> (forall a b c, same a b = true -> R b c -> R a c) ->
  Forall (fun b => exists h t, b = h :: t /\ Forall (R h) b) (runs same x l) /\
  exists b bs, runs same x l = b :: bs /\ exists t, b = x :: t.
Proof.
  intros Hr Ht. revert x. induction l as [|y l IH]; intros x; cbn [runs].
  - split; [|by eexists _, _; split; [|eexists]]. constructor; [|constructor].
    exists x, []. split; [done|]. constructor; [apply Hr|constructor].
  - destruct (IH y) as [HF (b & bs & Hb & t & ->)]. rewrite Hb in *.
    destruct (same x y) eqn:Hs; (split; [|by eexists _, _; split; [|eexists]]).
    + apply Forall_cons in HF as [(h & t' & [= <- <-] & Hh) HF]. constructor; [|done].
      exists x, (y :: t). split; [done|]. constructor; [apply Hr|].
      eapply Forall_impl; [exact Hh|]. intros c Hc. by eapply Ht.
    + constructor; [|done]. exists x, []. split; [done|]. constructor; [apply Hr|constructor].
Qed.

(** ** Columns *)
Lemma um_inserts_snoc l k v : um_inserts (l ++ [(k, v)]) = um_insert k v (um_inserts l).
Proof. unfold um_inserts. by rewrite fold_left_app. Qed.

Lemma um_inserts_keys l : um_keys (um_inserts l) = map fst l.
Proof.
  induction l as [|[k v] l IH] using rev_ind; [done|]. rewrite um_inserts_snoc, map_app. cbn. by rewrite IH.
Qed.

Lemma um_inserts_lookup l j k v :
  NoDup (map fst l) -> l !! j = Some (k, v) -> innerMap (um_inserts l) !! k = Some v.
Proof.
  revert j. induction l as [|[k' v'] l IH] using rev_ind; intros j Hnd Hj; [done|].
  rewrite um_inserts_snoc. cbn. rewrite map_app in Hnd. apply NoDup_app in Hnd as (Hnd & Hdis & _).
  apply lookup_app_Some in Hj as [Hj|[_ Hj]].
  - rewrite lookup_insert_ne; [by eapply IH|]. intros ->. apply (Hdis k); [|by left].
    apply list_elem_of_fmap. exists (k, v). split; [done|]. by eapply list_elem_of_lookup_2.
  - destruct (j - length l) as [|[]]; [|done..]. injection Hj as -> ->. apply lookup_insert_eq.
Qed.

(** The keys of the columns. *)
Definition named (names : list string) : list string := List.filter (fun n => bool_decide (n <> "")) names.

Lemma meta_columns_key names cells missing index key :
  key ∈ map fst (meta_columns names cells missing index) ->
  (exists n, key = KStr n /\ n ∈ named names) \/ (exists z, key = KInt (Z.of_nat z) /\ index <= z).
Proof.
  revert names index. induction cells as [|c cells IH]; intros names index; cbn [meta_columns].
  - rewrite map_map. intros (k & -> & Hk)%list_elem_of_fmap. right. exists (index + k). split; [done|lia].
  - destruct names as [|n names]; cbn [map fst].
    + rewrite elem_of_cons. intros [->|Hin]; [right; by exists index|].
      destruct (IH _ _ Hin) as [?|(z & -> & ?)]; [by left|right; exists z; split; [done|lia]].
    + unfold named. cbn [List.filter]. destruct (decide (n <> "")) as [Hn|Hn]; cbn [map fst];
        rewrite elem_of_cons.
      * rewrite (bool_decide_eq_true_2 (n <> "")) by done. intros [->|Hin]; [left; exists n; split; [done|by left]|].
        destruct (IH _ _ Hin) as [(m & -> & Hm)|?]; [left; exists m; split; [done|by right]|by right].
      * rewrite (bool_decide_eq_false_2 (n <> "")) by done. intros [->|Hin]; [right; by exists index|].
        destruct (IH _ _ Hin) as [?|(z & -> & ?)]; [by left|right; exists z; split; [done|lia]].
Qed.

Lemma meta_columns_NoDup names cells missing index :
  NoDup (named names) -> NoDup (map fst (meta_columns names cells missing index)).
Proof.
  revert names index. induction cells as [|c cells IH]; intros names index Hnd; cbn [meta_columns].
  - rewrite map_map. cbn. assert (Inj (=) (=) (fun k => KInt (Z.of_nat (index + k)))) as Hinj
      by (intros a b [= Hab]; lia).
    by apply (NoDup_fmap_2 _), NoDup_seq.
  - destruct names as [|n names]; cbn [map fst].
    + constructor; [|by apply IH]. intros Hin. apply meta_columns_key in Hin as [(m & [=] & _)|(z & [= Hz] & Hle)]. lia.
    + unfold named in Hnd. cbn [List.filter] in Hnd. destruct (decide (n <> "")) as [Hn|Hn]; cbn [map fst].
      * rewrite (bool_decide_eq_true_2 (n <> "")) in Hnd by done. apply NoDup_cons in Hnd as [Hni Hnd].
        constructor; [|by apply IH]. intros Hin.
        apply meta_columns_key in Hin as [(m & [= <-] & Hm)|(z & [=] & _)]. done.
      * rewrite (bool_decide_eq_false_2 (n <> "")) in Hnd by done. constructor; [|by apply IH].
        intros Hin. apply meta_columns_key in Hin as [(m & [=] & _)|(z & [= Hz] & Hle)]. lia.
Qed.

Lemma meta_columns_cells names cells missing index j :
  j < length cells + missing ->
  exists key, meta_columns names cells missing index !! j = Some (key, default (VStr "") (cells !! j)) /\
    (forall n, names !! j = Some n -> n <> "" -> j < length cells -> key = KStr n).
Proof.
  revert names index j. induction cells as [|c cells IH]; intros names index j Hj; cbn [meta_columns].
  - cbn in Hj. exists (KInt (Z.of_nat (index + j))). split; [|cbn; lia].
    rewrite list_lookup_fmap, lookup_seq_lt by lia. done.
  - cbn in Hj. destruct names as [|n names].
    + destruct j as [|j]; [by eexists|]. destruct (IH [] (S index) j) as (key & Hk & _); [lia|]. by exists key.
    + destruct (decide (n <> "")) as [Hn|Hn]; destruct j as [|j].
      * eexists. split; [done|]. by intros ? [= <-].
      * destruct (IH names index j) as (key & Hk & Hn'); [lia|]. exists key. split; [done|].
        intros m Hm Hne Hl. apply Hn'; [done..|cbn in Hl; lia].
      * eexists. split; [done|]. by intros ? [= <-].
      * destruct (IH names (S index) j) as (key & Hk & Hn'); [lia|]. exists key. split; [done|].
        intros m Hm Hne Hl. apply Hn'; [done..|cbn in Hl; lia].
Qed.

Lemma fold_max_ge {A} (f : A -> nat) l n :
  n <= fold_left (fun n x => if decide (n < f x) then f x else n) l n /\
  Forall (fun x => f x <= fold_left (fun n x => if decide (n < f x) then f x else n) l n) l.
Proof.
  revert n. induction l as [|x l IH]; intros n; cbn; [split; [lia|constructor]|].
  destruct (IH (if decide (n < f x) then f x else n)) as [H1 H2].
  split; [case_decide; lia|]. constructor; [case_decide; lia|done].
Qed.

(** When the names of the metadata do not repeat, every row becomes a map
    with as many distinct columns as the longest row has cells, in order, each
    with the cell of the row or an empty text where the row is shorter, and
    under its name when it has one; two columns with the same name both get
    the value of the second. *)
Theorem remapMetadataRows_cells meta :
  (NoDup (named (Metadata meta)) -> forall k row, Rows meta !! k = Some row ->
   exists u, remapMetadataRows meta !! k = Some (NMap u) /\
     length (um_keys u) = max_length (Rows meta) /\ NoDup (um_keys u) /\
     forall j, j < max_length (Rows meta) -> exists key, um_keys u !! j = Some key /\
       innerMap u !! key = Some (default (VStr "") (row !! j)) /\
       (forall n, Metadata meta !! j = Some n -> n <> "" -> j < length row -> key = KStr n)) /\
  remapMetadataRows (mkMeta ["A"; "A"] [[VInt 1; VInt 2]]) =
    [NMap (mkUMap [KStr "A"; KStr "A"] {[KStr "A" := VInt 2]})].
Proof.
  split; [|by vm_compute]. intros Hnd k row Hk. unfold remapMetadataRows.
  rewrite list_lookup_fmap, Hk. eexists. split; [done|]. rewrite um_inserts_keys.
  assert (length row <= max_length (Rows meta)) as Hle.
  { destruct (fold_max_ge (@length value) (Rows meta) 0) as [_ HF].
    eapply Forall_lookup_1 in HF; [|exact Hk]. exact HF. }
  set (cols := meta_columns _ _ _ _).
  assert (length cols = max_length (Rows meta)) as Hlen.
  { unfold cols. replace (max_length (Rows meta)) with (length row + (max_length (Rows meta) - length row)) at 2 by lia.
    generalize (max_length (Rows meta) - length row) as m, (Metadata meta) as ns, 1 as i. clear.
    induction row as [|c row IH]; intros m ns i; cbn [meta_columns]; [by rewrite length_map, length_seq|].
    destruct ns as [|n ns]; [|destruct (decide (n <> ""))]; cbn; by rewrite IH. }
  split_and!; [by rewrite length_map|by apply meta_columns_NoDup|].
  intros j Hj. destruct (meta_columns_cells (Metadata meta) row (max_length (Rows meta) - length row) 1 j)
    as (key & Hkey & Hn); [lia|]. fold cols in Hkey. exists key. split_and!; [|by eapply um_inserts_lookup; [apply meta_columns_NoDup|]|done].
  rewrite list_lookup_fmap, Hkey. done.
Qed.

(** ** Tables of all nodes *)
Section tables.
Context `{GoText} `{GoMapOrder} `{GoSort}.
Context (FormatFloat_f : spec_float -> string) (json_Marshal : value -> result string).
Context (Render RenderMarkdown : table -> string) (InsertEveryN : string -> Z -> string).
(** [json.Marshal] encodes the values that YAML decodes to. *)
Hypothesis json_ok : forall v, is_ok (json_Marshal v) = true.

Notation equal_maps := (renderEqualMaps FormatFloat_f json_Marshal Render RenderMarkdown InsertEveryN).
Notation arrays_table := (renderArraysAsTable FormatFloat_f json_Marshal Render RenderMarkdown InsertEveryN).
Notation arrays := (renderArrays FormatFloat_f json_Marshal Render RenderMarkdown InsertEveryN).
Notation batch_ := (renderBatch FormatFloat_f json_Marshal Render RenderMarkdown InsertEveryN).
Notation batches_ := (renderBatches FormatFloat_f json_Marshal Render RenderMarkdown InsertEveryN).

Lemma encode_row_ok keys m : exists row, encode_row FormatFloat_f json_Marshal keys m = Ok row.
Proof.
  induction keys as [|k keys (row & IH)]; cbn [encode_row]; [eauto|].
  assert (exists c, encodeCell FormatFloat_f json_Marshal (default VNil (m !! k)) = Ok c) as (c & ->).
  { unfold encodeCell, encodeJson. case_decide; [eauto|].
    pose proof (json_ok (deepCastAnyMapToStringMap (default VNil (m !! k)))).
    destruct (json_Marshal _); [eauto|done]. }
  rewrite IH. cbn. eauto.
Qed.

Lemma encode_rows_ok keys maps : exists rows, encode_rows FormatFloat_f json_Marshal keys maps = Ok rows.
Proof.
  induction maps as [|u maps (rows & IH)]; cbn [encode_rows]; [eauto|].
  destruct (encode_row_ok keys (innerMap u)) as (row & ->). rewrite IH. cbn. eauto.
Qed.

Lemma equal_maps_ok maps tr opts : is_ok (equal_maps maps tr opts) = bool_decide (maps <> []).
Proof.
  destruct maps as [|u maps]; [done|]. unfold renderEqualMaps.
  by destruct (encode_rows_ok (um_keys u) (u :: maps)) as (rows & ->).
Qed.

Lemma arrays_table_ok batch tr opts :
  Forall (fun n => getNodeType n = arrayNodeType) batch ->
  is_ok (arrays_table batch tr opts) = bool_decide (batch <> []).
Proof.
  intros Hb. unfold renderArraysAsTable.
  assert (exists items, mapM as_array batch = Some items /\ length items = length batch) as (items & -> & Hl).
  { clear -Hb. induction Hb as [|n batch Hn _ (items & IH & Hl)]; [by exists []|].
    destruct n as [[]|]; try done. cbn. rewrite IH. cbn. eexists. split; [done|]. cbn. lia. }
  rewrite equal_maps_ok. apply bool_decide_ext. by destruct items, batch.
Qed.

Definition lone_empty (batch : list node) : Prop := batch = [NVal (VSlice [])].

#[local] Instance lone_empty_dec batch : Decision (lone_empty batch).
Proof.
  destruct batch as [|[[]|] []]; try (right; done). destruct l; [left|right]; done.
Defined.

Lemma isSingleType_Forall batch t :
  isSingleType batch t = true <-> Forall (fun n => getNodeType n = t) batch.
Proof.
  unfold isSingleType. rewrite forallb_forall, List.Forall_forall.
  by setoid_rewrite bool_decide_eq_true.
Qed.

Lemma arrays_ok batch tr opts :
  batch <> [] -> Forall (fun n => getNodeType n = arrayNodeType) batch ->
  is_ok (arrays batch tr opts) = bool_decide (~ lone_empty batch).
Proof.
  intros Hne Hb. unfold renderArrays. destruct (isSingleArrayOfArrays batch) as [array|] eqn:Hs.
  - unfold isSingleArrayOfArrays in Hs. destruct batch as [|[[| | | | | | |l| | | |]|] [|]]; try done.
    destruct (isSingleType (map NVal l) arrayNodeType) eqn:Ht; [|done]. injection Hs as <-.
    apply isSingleType_Forall in Ht. rewrite arrays_table_ok by done. apply bool_decide_ext.
    unfold lone_empty. destruct l; naive_solver.
  - rewrite arrays_table_ok by done. apply bool_decide_ext. split; [|done]. intros _ Hl.
    by rewrite Hl in Hs.
Qed.

Lemma casted_maps batch :
  Forall (fun n => getNodeType n = mapNodeType) batch ->
  exists maps, mapM casted_map batch = Some maps /\ length maps = length batch.
Proof.
  induction 1 as [|n batch Hn _ (maps & IH & Hl)]; [by exists []|].
  destruct n as [[]|]; try done; cbn; rewrite IH; cbn; (eexists; split; [done|]; cbn; lia).
Qed.

Lemma render_all_ok opts tr bs :
  Forall (fun b => b <> []) bs -> is_ok (render_all (fun b => equal_maps b tr opts) opts bs) = true.
Proof.
  induction 1 as [|b bs Hb _ IH]; [done|]. cbn [render_all].
  pose proof (equal_maps_ok b tr opts) as Hok. rewrite bool_decide_eq_true_2 in Hok by done.
  destruct (equal_maps b tr opts); [|done]. cbn [rbind]. by destruct (render_all _ _ bs).
Qed.

Lemma batch_ok batch tr opts t :
  batch <> [] -> Forall (fun n => getNodeType n = t) batch ->
  is_ok (batch_ batch tr opts) = bool_decide (~ lone_empty batch).
Proof.
  intros Hne Hb. unfold renderBatch.
  assert (forall t', isSingleType batch t' = bool_decide (t' = t)) as Ht.
  { intros t'. apply Bool.eq_iff_eq_true. rewrite isSingleType_Forall, bool_decide_eq_true. split; [|by intros ->].
    intros Hb'. destruct batch as [|n batch]; [done|]. apply Forall_cons in Hb as [<- _].
    by apply Forall_cons in Hb' as [<- _]. }
  rewrite !Ht. destruct t; cbn [bool_decide].
  - rewrite bool_decide_eq_true_2 by done. unfold renderScalars. rewrite arrays_ok.
    + apply bool_decide_ext. split; [|by intros _ Hl; destruct batch as [|? []]].
      intros _ Hl. unfold lone_empty in Hl. subst batch. by apply Forall_cons in Hb as [Hb _].
    + by destruct batch.
    + clear. induction batch; constructor; done.
  - rewrite !bool_decide_eq_false_2, bool_decide_eq_true_2 by done. by apply arrays_ok.
  - rewrite bool_decide_eq_false_2, bool_decide_eq_true_2 by done.
    destruct (casted_maps batch Hb) as (maps & -> & Hl). destruct maps as [|m ms]; [by destruct batch|].
    rewrite render_all_ok.
    + symmetry. apply bool_decide_eq_true. intros Hle. unfold lone_empty in Hle. subst batch.
      by apply Forall_cons in Hb as [Hb _].
    + destruct (runs_related isMapKeysEqual (fun _ _ => True) m ms) as [HF _]; [done..|].
      eapply Forall_impl; [exact HF|]. by intros b (h & tl & -> & _).
Qed.

(** Where JSON encoding succeeds, drawing batches of one kind fails exactly at a
    lone empty array. *)
Lemma batches_ok bs tr opts :
  Forall (fun b => exists t, b <> [] /\ Forall (fun n => getNodeType n = t) b) bs ->
  Forall (fun b => ~ lone_empty b) bs -> is_ok (batches_ bs tr opts) = true.
Proof.
  induction 1 as [|b bs (t & Hbne & Hbt) _ IH]; [done|]. intros [Hl Hls]%Forall_cons. cbn [renderBatches].
  pose proof (batch_ok b tr opts t Hbne Hbt) as Hok. rewrite bool_decide_eq_true_2 in Hok by done.
  specialize (IH Hls). destruct (batch_ b tr opts) as [s|e]; [|done]. by destruct (batches_ bs tr opts).
Qed.
End tables.

Section all_nodes.
Context `{GoText} `{GoMapOrder} `{GoSort}.
Context (FormatFloat_f : spec_float -> string) (json_Marshal : value -> result string).
Context (Render RenderMarkdown : table -> string) (InsertEveryN : string -> Z -> string).
Notation batches_ := (renderBatches FormatFloat_f json_Marshal Render RenderMarkdown InsertEveryN).

Lemma batches_lone bs tr opts :
  is_ok (batches_ bs tr opts) = true -> Forall (fun b => ~ lone_empty b) bs.
Proof.
  induction bs as [|b bs IH]; [constructor|]. cbn [renderBatches]. intros Hok. constructor.
  - intros ->. done.
  - apply IH. destruct (renderBatch _ _ _ _ _ b tr opts); [|done]. by destruct (batches_ bs tr opts).
Qed.

(** The batches of a list of nodes have the nodes in their order, each
    batch nodes of one kind, and drawing them fails at a lone array without
    elements, where the program panics, and nowhere else when every value can
    be encoded as JSON: the error of an unknown case and the conversions of
    nodes never fail. *)
Theorem renderBatches_nodes nodes tr opts :
  nodes <> [] ->
  concat (batches_of nodes) = nodes /\
  Forall (fun b => exists t, b <> [] /\ Forall (fun n => getNodeType n = t) b) (batches_of nodes) /\
  (is_ok (batches_ (batches_of nodes) tr opts) = true -> Forall (fun b => ~ lone_empty b) (batches_of nodes)) /\
  ((forall v, is_ok (json_Marshal v) = true) -> Forall (fun b => ~ lone_empty b) (batches_of nodes) ->
   is_ok (batches_ (batches_of nodes) tr opts) = true).
Proof.
  intros Hne. destruct nodes as [|n ns]; [done|]. unfold batches_of.
  assert (Forall (fun b => exists t, b <> [] /\ Forall (fun n => getNodeType n = t) b) (runs isNodeTypeEqual n ns)) as Hb.
  { destruct (runs_related isNodeTypeEqual (fun a b => getNodeType b = getNodeType a) n ns) as [HF _]; [done| |].
    - intros a b c Hab%bool_decide_eq_true Hbc. congruence.
    - eapply Forall_impl; [exact HF|]. intros b (h & tl & -> & Hh). exists (getNodeType h). by split. }
  split_and!; [apply runs_concat|done|apply batches_lone|]. intros Hj. by apply batches_ok.
Qed.
End all_nodes.

(** ** Samples *)
Lemma renderBatches_nodes_witness :
  let nodes := [NVal (VInt 1); NVal (VSlice []); NVal (VStr "x")] in
  let batches := batches_of nodes in
  @renderBatches integer_text canonical_order insertion_go_sort (fun _ => "1.5") (fun _ => Ok "{}")
    (fun _ => "") (fun _ => "") (fun s _ => s) batches false (mkOpts true 0 DefaultTableDialect)
    = Err (Wrapf "cannot render tables: %w" [] (Errorf "panic: index out of range" [])) /\
  concat batches = nodes.
Proof.
  split; [by vm_compute|].
  apply (@renderBatches_nodes integer_text canonical_order insertion_go_sort (fun _ => "1.5") (fun _ => Ok "{}")
    (fun _ => "") (fun _ => "") (fun s _ => s) _ false (mkOpts true 0 DefaultTableDialect)).
  done.
Defined.
