(* ===== verification/Console.v ===== *)
(** * The console: [cli/connect]

    The languages, the backslash commands with their decorators, the gathering of
    statements and the executor that a line of input goes through.  The
    connection, the check of Lua text and the formatter's libraries are
    parameters; a console carries the world of its connection. *)
From S2P Require Import Prelude GoStrings Value Validators Regexp Connector History Formatter.
Local Open Scope go_scope.

(** ** [language.go] *)
Inductive Language := DefaultLanguage | LuaLanguage | SQLLanguage.

#[export] Instance Language_eq_dec : EqDecision Language.
Proof. solve_decision. Defined.

Definition luaStr : string := "lua".
Definition sqlStr : string := "sql".

Definition ParseLanguage (str : string) : Language * bool :=
  let str := ToLower str in
  if decide (str = "") then (DefaultLanguage, true)
  else if decide (str = luaStr) then (LuaLanguage, true)
  else if decide (str = sqlStr) then (SQLLanguage, true)
  else (DefaultLanguage, false).

Definition Language_String (l : Language) : string :=
  match l with DefaultLanguage => "" | LuaLanguage => luaStr | SQLLanguage => sqlStr end.

(** ** [const.go] *)
Definition setLanguagePrefix : string := "\set language".
Definition setLanguage : string := setLanguagePrefix.
Definition setFormatLong : string := "\set output".
Definition setGraphics : string := "\set graphics".
Definition setTableDialect : string := "\set table_format".
Definition setTableColumnWidthMaxLong : string := "\set table_column_width".
Definition setTableColumnWidthMaxShort : string := "\xw".
Definition setNextFormat : string := "\x".
Definition setFormatYaml : string := "\xy".
Definition setFormatLua : string := "\xl".
Definition setFormatTable : string := "\xt".
Definition setFormatTTable : string := "\xT".
Definition setGraphicsEnable : string := "\xG".
Definition setGraphicsDisable : string := "\xg".
Definition setQuit : list string := ["\quit"; "\q"].
Definition getShortcutsList : string := "\shortcuts".
Definition getHelp : list string := ["\help"; "?"].

(** ** [commands.go]: the helpers *)

(** [sort.SearchStrings]: the loop of [sort.Search]. *)
Fixpoint search_loop (fuel : nat) (sorted : list string) (str : string) (i j : nat) : nat :=
  match fuel with
  | O => i
  | S fuel =>
      if i <? j then
        let h := (i + j) / 2 in
        if String.ltb (default "" (sorted !! h)) str then search_loop fuel sorted str (h + 1) j
        else search_loop fuel sorted str i h
      else i
  end.

Definition SearchStrings (sorted : list string) (str : string) : nat :=
  search_loop (S (length sorted)) sorted str 0 (length sorted).

Definition find (sorted : list string) (str : string) : bool :=
  bool_decide (sorted !! SearchStrings sorted str = Some str).

Definition errNotUnsigned : error := Errorf "the command expects one unsigned number" [].
Definition errNotBoolean : error := Errorf "the command expects one boolean" [].

Record Console (W : Type) := mkConsole {
  c_input : string; c_title : string; c_language : Language; c_format : Format;
  c_formatOpts : Opts; c_quit : bool; c_history : option commandHistory;
  c_livePrefixEnabled : bool; c_prefix : string; c_livePrefix : string; c_world : W
}.
Arguments mkConsole {W}. Arguments c_input {W}. Arguments c_title {W}. Arguments c_language {W}.
Arguments c_format {W}. Arguments c_formatOpts {W}. Arguments c_quit {W}. Arguments c_history {W}.
Arguments c_livePrefixEnabled {W}. Arguments c_prefix {W}. Arguments c_livePrefix {W}. Arguments c_world {W}.

Section console.
Context {W : Type}.
Notation Console := (Console W).

Definition with_settings (l : Language) (f : Format) (o : Opts) (q : bool) (w : W) (c : Console) : Console :=
  mkConsole (c_input c) (c_title c) l f o q (c_history c) (c_livePrefixEnabled c) (c_prefix c)
    (c_livePrefix c) w.

Definition with_language (l : Language) (w : W) (c : Console) : Console :=
  with_settings l (c_format c) (c_formatOpts c) (c_quit c) w c.
Definition with_format (f : Format) (c : Console) : Console :=
  with_settings (c_language c) f (c_formatOpts c) (c_quit c) (c_world c) c.
Definition with_opts (o : Opts) (c : Console) : Console :=
  with_settings (c_language c) (c_format c) o (c_quit c) (c_world c) c.
Definition with_quit (c : Console) : Console :=
  with_settings (c_language c) (c_format c) (c_formatOpts c) true (c_world c) c.

(** ** [commands.go]: commands *)
Definition runFunc := Console -> string -> list string -> result string * Console.

Inductive cmd :=
| baseCmd (aliases : list string) (run : runFunc)
| combinedCmd (cmds : list cmd)
| noArgsCmdDecorator (base : cmd)
| argSetCmdDecorator (sorted : list string) (base : cmd)
| argUnsignedCmdDecorator (base : cmd)
| argBooleanCmdDecorator (base : cmd)
| helpCmd (help : string).

(** The aliases of a combined command are the keys of its map. *)
Fixpoint Aliases (command : cmd) : list string :=
  match command with
  | baseCmd aliases _ => aliases
  | combinedCmd cmds => flat_map Aliases cmds
  | noArgsCmdDecorator base | argSetCmdDecorator _ base | argUnsignedCmdDecorator base
  | argBooleanCmdDecorator base => Aliases base
  | helpCmd _ => getHelp
  end.

(** The map of aliases: a later command replaces an earlier one. *)
Definition lookup_alias (cmds : list cmd) (alias : string) : option cmd :=
  last (List.filter (fun c => bool_decide (alias ∈ Aliases c)) cmds).

Definition nil_command : result string := Err (Errorf "panic: nil command" []).

Fixpoint cmd_Run (command : cmd) (console : Console) (name : string) (args : list string)
    : result string * Console :=
  match command with
  | baseCmd _ run => run console name args
  | combinedCmd cmds =>
      (fix pick (cmds : list cmd) (otherwise : result string * Console) : result string * Console :=
         match cmds with
         | [] => otherwise
         | c :: cmds =>
             pick cmds (if bool_decide (name ∈ Aliases c) then cmd_Run c console name args else otherwise)
         end) cmds (nil_command, console)
  | noArgsCmdDecorator base =>
      if decide (args <> []) then (Err (Errorf "the command does not expect arguments" []), console)
      else cmd_Run base console name args
  | argSetCmdDecorator sorted base =>
      match args with
      | [arg] =>
          if find sorted arg then cmd_Run base console name args
          else (Err (Errorf "the command expects one of: %s" [Join sorted ", "]), console)
      | _ => (Err (Errorf "the command expects one of: %s" [Join sorted ", "]), console)
      end
  | argUnsignedCmdDecorator base =>
      match args with
      | [arg] =>
          match ParseUint arg with
          | Err _ => (Err errNotUnsigned, console)
          | Ok _ => cmd_Run base console name args
          end
      | _ => (Err errNotUnsigned, console)
      end
  | argBooleanCmdDecorator base =>
      match args with
      | [arg] =>
          match ParseBool arg with
          | Err _ => (Err errNotBoolean, console)
          | Ok _ => cmd_Run base console name args
          end
      | _ => (Err errNotBoolean, console)
      end
  | helpCmd help => (Ok help, console)
  end.

Context `{GoSort}.
Definition newArgSetCmdDecorator (base : cmd) (allowed : list string) : cmd :=
  argSetCmdDecorator (sort_slice String.ltb allowed) base.

(** [newHelpCmd]: the lines of the help, padded to the longest name. *)
Definition help_lines (infos : list (string * string)) : list string :=
  let rows := (Join getHelp ", ", "show this screen") :: infos in
  let shortMaxLen := foldr (fun r n => Nat.max (String.length r.1) n) 0 rows in
  map (fun r => "  " +:+ r.1 +:+ repeat_char (shortMaxLen - String.length r.1) " " +:+ " -- " +:+ r.2 +:+ nl)
    rows.

Definition newHelpCmd (msg : string) (infos : list (string * string)) : cmd :=
  helpCmd (msg +:+ Join (help_lines infos) "").

(** ** [language.go]: changing the language *)

(** [eval_language w cmd]: [Eval] of the function body with one argument;
    [yaml_any]: [yaml.Unmarshal] into an [any]. *)
Context (eval_language : W -> string -> result (list value) * W) (yaml_any : string -> result value).
Context `{GoText}.

Definition ChangeLanguage (w : W) (lang : Language) : option error * W :=
  let lang := if decide (lang = DefaultLanguage) then LuaLanguage else lang in
  let languageCmd := setLanguagePrefix +:+ " " +:+ Language_String lang in
  match eval_language w languageCmd with
  | (Err err, w) => (Some err, w)
  | (Ok [], w) => (Some (Errorf "unexpected response: empty" []), w)
  | (Ok [VStr ret], w) =>
      (match yaml_any ret with
       | Err err => Some (Wrapf "unable to decode response: %w" [] err)
       | Ok (VSlice [VBool value]) =>
           if negb value then Some (Errorf "%s returns false" [languageCmd]) else None
       | Ok _ => Some (Errorf "unexpected response: %s" [ret])
       end, w)
  | (Ok response, w) => (Some (Errorf "unexpected response: %v" [Sprint (VSlice response)]), w)
  end.

(** ** [commands.go]: what the commands do *)
Definition arg0 (args : list string) (k : string -> result string * Console) (console : Console)
    : result string * Console :=
  match args with arg :: _ => k arg | [] => (index_out_of_range, console) end.

Definition setLanguageFunc : runFunc := fun console _ args =>
  arg0 args (fun arg =>
    match ParseLanguage arg with
    | (lang, true) =>
        match ChangeLanguage (c_world console) lang with
        | (Some err, w) =>
            (Err (Wrapf "failed to change language: %s" [] err), with_language (c_language console) w console)
        | (None, w) => (Ok "", with_language lang w console)
        end
    | (_, false) => (Err (Errorf "unsupported language: %s" [arg]), console)
    end) console.

Definition setFormatFunc : runFunc := fun console _ args =>
  arg0 args (fun formatStr =>
    match ParseFormat formatStr with
    | (newFormat, true) => (Ok "", with_format newFormat console)
    | (_, false) => (Err (Errorf "unsupported format: %s" [formatStr]), console)
    end) console.

Definition setTableDialectFunc : runFunc := fun console _ args =>
  arg0 args (fun dialectStr =>
    match ParseTableDialect dialectStr with
    | (dialect, true) =>
        let o := c_formatOpts console in
        (Ok "", with_opts (mkOpts (Graphics o) (ColumnWidthMax o) dialect) console)
    | (_, false) => (Err (Errorf "unsupported dialect: %s" [dialectStr]), console)
    end) console.

Definition set_graphics (b : bool) (console : Console) : Console :=
  let o := c_formatOpts console in with_opts (mkOpts b (ColumnWidthMax o) (opts_TableDialect o)) console.

Definition setGraphicsFunc : runFunc := fun console _ args =>
  arg0 args (fun arg =>
    match ParseBool arg with
    | Err err => (Err (Wrapf "parsing error: %w" [] err), console)
    | Ok val => (Ok "", set_graphics val console)
    end) console.

Definition setTableColumnWidthMaxFunc : runFunc := fun console _ args =>
  arg0 args (fun arg =>
    match ParseUint arg with
    | Err err => (Err (Wrapf "parsing error: %w" [] err), console)
    | Ok val =>
        let o := c_formatOpts console in
        (Ok "", with_opts (mkOpts (Graphics o) (int_of_uint64 val) (opts_TableDialect o)) console)
    end) console.

Definition switchNextFormatFunc : runFunc := fun console _ _ =>
  (Ok "", with_format (default (c_format console)
            (format_of ((1 + format_num (c_format console)) mod FormatsAmount))) console).

Definition getSetFormatFunc (format : Format) : runFunc := fun console _ _ =>
  (Ok "", with_format format console).
Definition enableGraphicsFunc : runFunc := fun console _ _ => (Ok "", set_graphics true console).
Definition disableGraphicsFunc : runFunc := fun console _ _ => (Ok "", set_graphics false console).
Definition setQuitFunc : runFunc := fun console _ _ => (Ok "", with_quit console).

(** The texts of the help and of the list of hotkeys. *)
Context (helpText shortcutListText : string).
Definition getShortcutsFunc : runFunc := fun console _ _ => (Ok shortcutListText, console).

Definition cmdInfos : list (string * string * cmd) :=
  [(setLanguage +:+ " <language>", "set language lua (default) or sql",
     newArgSetCmdDecorator (baseCmd [setLanguage] setLanguageFunc)
       [Language_String LuaLanguage; Language_String SQLLanguage]);
   (setFormatLong +:+ " <format>", "set format lua, table, ttable or yaml (default)",
     newArgSetCmdDecorator (baseCmd [setFormatLong] setFormatFunc)
       [Format_String LuaFormat; Format_String TableFormat; Format_String TTableFormat;
        Format_String YamlFormat]);
   (setTableDialect +:+ " <format>", "set table format default, jira or markdown",
     newArgSetCmdDecorator (baseCmd [setTableDialect] setTableDialectFunc)
       [TableDialect_String DefaultTableDialect; TableDialect_String JiraTableDialect;
        TableDialect_String MarkdownTableDialect]);
   (setGraphics +:+ " <false/true>", "disables/enables pseudographics for table modes",
     argBooleanCmdDecorator (baseCmd [setGraphics] setGraphicsFunc));
   (setTableColumnWidthMaxLong +:+ " <width>", "set max column width for table/ttable",
     argUnsignedCmdDecorator (baseCmd [setTableColumnWidthMaxLong] setTableColumnWidthMaxFunc));
   (setTableColumnWidthMaxShort +:+ " <width>", "set max column width for table/ttable",
     argUnsignedCmdDecorator (baseCmd [setTableColumnWidthMaxShort] setTableColumnWidthMaxFunc));
   (setNextFormat, "switches output format cyclically",
     noArgsCmdDecorator (baseCmd [setNextFormat] switchNextFormatFunc));
   ("\x[l,t,T,y]", "set output format lua, table, ttable or yaml",
     combinedCmd
       [noArgsCmdDecorator (baseCmd [setFormatLua] (getSetFormatFunc LuaFormat));
        noArgsCmdDecorator (baseCmd [setFormatTable] (getSetFormatFunc TableFormat));
        noArgsCmdDecorator (baseCmd [setFormatTTable] (getSetFormatFunc TTableFormat));
        noArgsCmdDecorator (baseCmd [setFormatYaml] (getSetFormatFunc YamlFormat))]);
   ("\x[g,G]", "disables/enables pseudographics for table modes",
     combinedCmd
       [noArgsCmdDecorator (baseCmd [setGraphicsEnable] enableGraphicsFunc);
        noArgsCmdDecorator (baseCmd [setGraphicsDisable] disableGraphicsFunc)]);
   (getShortcutsList, "show available hotkeys and shortcuts",
     noArgsCmdDecorator (baseCmd [getShortcutsList] getShortcutsFunc));
   (Join setQuit ", ", "quit from the console",
     noArgsCmdDecorator (baseCmd setQuit setQuitFunc))].

(** ** [commands.go]: the executor *)
Definition newCmdExecutor : list cmd :=
  noArgsCmdDecorator (newHelpCmd helpText (map fst cmdInfos)) :: map snd cmdInfos.

Definition clean_tokens (dirtyTokens : list string) : list string :=
  List.filter (fun t => bool_decide (t <> "")) (map (fun t => Trim t " ") dirtyTokens).

(** [for i := len(tokens); i > 0; i--] *)
Fixpoint longest_command (cmds : list cmd) (tokens : list string) (i : nat) : option (string * cmd * nat) :=
  match i with
  | O => None
  | S i' =>
      let key := Join (take i tokens) " " in
      match lookup_alias cmds key with
      | Some c => Some (key, c, i)
      | None => longest_command cmds tokens i'
      end
  end.

(** What is printed or logged, and whether the input was a command. *)
Definition Execute (cmds : list cmd) (console : Console) (input : string)
    : bool * option (result string) * Console :=
  let tokens := clean_tokens (Split (TrimSpace input) " ") in
  let lowerTokens := map ToLower tokens in
  match longest_command cmds tokens (length tokens) with
  | None => (false, None, console)
  | Some (key, c, i) =>
      let '(msg, console) := cmd_Run c console key (drop i lowerTokens) in
      (true, match msg with Ok "" => None | _ => Some msg end, console)
  end.

(** ** [input.go] *)
Definition AddStmtPart (stmt part : string) (Validate : string -> bool) : string * bool :=
  let stmt :=
    if decide (stmt = "") then if decide (TrimSpace part <> "") then part else stmt
    else stmt +:+ nl +:+ part in
  (stmt, Validate stmt).

(** [LoadString]: the error of compiling Lua text. *)
Definition LuaValidate (LoadString : string -> option string) (str : string) : bool :=
  match LoadString str with
  | None => true
  | Some err =>
      if negb (Contains err "at EOF") then true
      else match LoadString ("return " +:+ str) with None => true | Some _ => false end
  end.

Definition SQLValidate (_ : string) : bool := true.

(** ** [console.go] *)
Definition MaxLivePrefixIndent : nat := 15.
Definition MaxHistoryLines : Z := 10000.

Definition genConsoleTitle (connOpts : ConnectOpts) (connectTarget : string) : string :=
  if decide (connectTarget <> "") then connectTarget else Address connOpts.

(** [setPrefix]: the prompt and the prompt of a statement that goes on. *)
Definition set_prefix (c : Console) : Console :=
  let indent := Nat.min (String.length (c_title c)) MaxLivePrefixIndent in
  mkConsole (c_input c) (c_title c) (c_language c) (c_format c) (c_formatOpts c) (c_quit c) (c_history c)
    (c_livePrefixEnabled c) (c_title c +:+ "> ") (repeat_char indent " " +:+ "> ") (c_world c).

Definition with_input (s : string) (live : bool) (h : option commandHistory) (w : W) (c : Console) : Console :=
  mkConsole s (c_title c) (c_language c) (c_format c) (c_formatOpts c) (c_quit c) h live (c_prefix c)
    (c_livePrefix c) w.

(** How a line of input ends: the console goes on with what it printed to the
    output, quits, or the process fails; the log is not kept. *)
Inductive step_outcome :=
| Running (console : Console) (printed : list string)
| Exited (console : Console)
| Fatal (console : Console) (msg : string).

(** [LoadString]; [eval_stmt w stmt sql meta]: the results, and what the pushes
    print; [MakeOutput_]: the formatter; [save]: writing the history. *)
Context (LoadString : string -> option string).
Context (eval_stmt : W -> string -> bool -> bool -> result (list string) * list string * W).
Context (MakeOutput_ : Format -> string -> Opts -> result string) (now : Z) (save : W -> string -> W).

Definition validator (l : Language) : string -> bool :=
  match l with SQLLanguage => SQLValidate | _ => LuaValidate LoadString end.

(** [appendCommand] and [writeToFile]; a failure to write is only logged. *)
Definition record_command (input : string) (h : option commandHistory) (w : W)
    : option commandHistory * W :=
  match h with
  | None => (None, w)
  | Some history =>
      let history := appendCommand now input history in
      (Some history, match history_content (commands history) (timestamps history) with
                     | Ok content => save w content
                     | Err _ => w
                     end)
  end.

Definition execute_statement (console : Console) : step_outcome :=
  let input := c_input console in
  let '(h, w) := record_command (TrimSpace input) (c_history console) (c_world console) in
  let needMetaInfo := bool_decide (c_format console = TableFormat \/ c_format console = TTableFormat) in
  match eval_stmt w input (bool_decide (c_language console = SQLLanguage)) needMetaInfo with
  | (Err err, _, w) =>
      Fatal (with_input input (c_livePrefixEnabled console) h w console)
        (if is_EOF err then "Connection was closed. Probably instance process isn't running anymore"
         else "Failed to execute command")
  | (Ok [], _, w) => Exited (with_input input (c_livePrefixEnabled console) h w console)
  | (Ok (data :: _), pushed, w) =>
      let output := match MakeOutput_ (c_format console) data (c_formatOpts console) with
                    | Ok output => [output]
                    | Err _ => []
                    end in
      Running (with_input "" false h w console) (pushed ++ output)
  end.

Definition executor (cmds : list cmd) (console : Console) (input : string) : step_outcome :=
  let statement c :=
    let '(stmt, completed) := AddStmtPart (c_input c) input (validator (c_language c)) in
    if completed then execute_statement (with_input stmt (c_livePrefixEnabled c) (c_history c) (c_world c) c)
    else Running (with_input stmt true (c_history c) (c_world c) c) [] in
  if decide (c_input console = "") then
    match Execute cmds console input with
    | (true, printed, c) =>
        if c_quit c then Exited c
        else Running c (match printed with Some (Ok msg) => [msg +:+ nl] | _ => [] end)
    | (false, _, c) => statement c
    end
  else statement console.

(** [Run] on a piped input: every line goes through the executor. *)
Definition print_first (printed : list string) (o : step_outcome) : step_outcome :=
  match o with
  | Running c printed' => Running c (printed ++ printed')
  | _ => o
  end.

Fixpoint run_piped (cmds : list cmd) (console : Console) (lines : list string) : step_outcome :=
  match lines with
  | [] => Running console []
  | line :: lines =>
      match executor cmds console line with
      | Running c printed => print_first printed (run_piped cmds c lines)
      | o => o
      end
  end.

(** [Ctrl-C]: the statement is forgotten. *)
Definition interrupt (console : Console) : Console :=
  with_input "" false (c_history console) (c_world console) console.

(** [setTitle]: a title that is given stays. *)
Definition setTitle (title : string) (c : Console) : Console :=
  if decide (c_title c <> "") then c
  else mkConsole (c_input c) title (c_language c) (c_format c) (c_formatOpts c) (c_quit c) (c_history c)
         (c_livePrefixEnabled c) (c_prefix c) (c_livePrefix c) (c_world c).

(** [connect w]: [connector.Connect]; [load_history w]: [newCommandHistory] and
    [load], whose failures are only logged. *)
Definition NewConsole (connect : W -> result unit * W) (load_history : W -> option commandHistory * W)
    (connOpts : ConnectOpts) (connectTarget : string) (language : Language) (format : Format)
    (title : string) (w : W) : result Console * W :=
  let '(history, w) := load_history w in
  match connect w with
  | (Err err, w) => (Err (Wrapf "failed to connect: %s" [] err), w)
  | (Ok _, w) =>
      let '(changed, w) := if decide (language <> DefaultLanguage) then ChangeLanguage w language
                           else (None, w) in
      match changed with
      | Some err => (Err (Wrapf "unable to change a language: %s" [] err), w)
      | None =>
          let console := mkConsole "" title language format (mkOpts true 0 DefaultTableDialect) false
                           history false "" "" w in
          (Ok (set_prefix (setTitle (genConsoleTitle connOpts connectTarget) console)), w)
      end
  end.

(** [lastWordStart]: [FindStartOfPreviousWordUntilSeparator]; [eval_suggestions]:
    [Eval] of the completion; [DifferenceString]: the distinct strings. *)
Definition completer (lastWordStart : string -> nat)
    (eval_suggestions : W -> string -> Z -> result (list string) * W)
    (DifferenceString : list string -> list string) (console : Console) (text : string)
    : list string * W :=
  let w := c_world console in
  if decide (text = "") then ([], w)
  else if decide (c_language console = SQLLanguage) then ([], w)
  else
    let lastWord := String.substring (lastWordStart text) (String.length text) text in
    if decide (lastWord = "") then ([], w)
    else match eval_suggestions w lastWord (Z.of_nat (String.length lastWord)) with
         | (Err _, w) => ([], w)
         | (Ok suggestionsTexts, w) => (sort_slice String.ltb (DifferenceString suggestionsTexts), w)
         end.
End console.
