(* ===== verification/ConsoleProps.v ===== *)
(** * Properties of the console

    The binary search of allowed arguments is membership, the command that runs
    is the longest one the input starts with, a statement of several lines is
    sent once and whole, and the arguments of the commands parse back. *)
From S2P Require Import Prelude GoStrings Value Validators Regexp Connector History Formatter Console.
Local Open Scope go_scope.

(** ** The binary search *)

(** What the loop of [sort.Search] keeps: before [i] everything is less than the
    string, from [j] on nothing is. *)
Definition search_bounds (sorted : list string) (str : string) (i j : nat) : Prop :=
  (forall k s, k < i -> sorted !! k = Some s -> String.ltb s str = true) /\
  (forall k s, j <= k -> sorted !! k = Some s -> String.ltb s str = false).

Lemma sorted_lookup (l : list string) (i j : nat) (a b : string) :
  sorted_by String.ltb l -> i < j -> l !! i = Some a -> l !! j = Some b -> String.ltb b a = false.
Proof.
  intros Hs. revert i j. induction Hs as [|x l Hs IH Hx]; intros [|i] [|j] Hij Ha Hb; try lia; try done.
  - injection Ha as ->. rewrite Forall_forall in Hx. by apply Hx, list_elem_of_lookup_2 with j.
  - apply (IH i j); [lia|done..].
Qed.

Lemma ltb_antisym (a b : string) : String.ltb a b = true -> String.ltb b a = false.
Proof.
  intros Hab. destruct (String.ltb b a) eqn:Hba; [|done].
  by rewrite <- (string_ltb_irrefl a), (string_ltb_trans a b a).
Qed.

(** Less than the middle: less on its left; not less: not less on its right. *)
Lemma sorted_below (l : list string) (str a s : string) (h k : nat) :
  sorted_by String.ltb l -> l !! h = Some a -> String.ltb a str = true -> k <= h -> l !! k = Some s ->
  String.ltb s str = true.
Proof.
  intros Hs Ha Hlt Hk Hl. destruct (decide (k = h)) as [->|Hne]; [congruence|].
  pose proof (sorted_lookup l k h s a Hs ltac:(lia) Hl Ha) as Has.
  destruct (String.ltb s str) eqn:Hss; [done|].
  destruct (String.ltb s a) eqn:Hsa; [by rewrite (string_ltb_trans s a str) in Hss|].
  by rewrite (string_ltb_total s a Hsa Has), Hlt in Hss.
Qed.

Lemma sorted_above (l : list string) (str a s : string) (h k : nat) :
  sorted_by String.ltb l -> l !! h = Some a -> String.ltb a str = false -> h <= k -> l !! k = Some s ->
  String.ltb s str = false.
Proof.
  intros Hs Ha Hge Hk Hl. destruct (String.ltb s str) eqn:Hss; [|done].
  by rewrite (sorted_below l str s a k h) in Hge.
Qed.

Lemma search_loop_bounds (sorted : list string) (str : string) (fuel i j : nat) :
  sorted_by String.ltb sorted -> j - i < fuel -> i <= j <= length sorted ->
  search_bounds sorted str i j ->
  let r := search_loop fuel sorted str i j in r <= length sorted /\ search_bounds sorted str r r.
Proof.
  intros Hs. revert i j. induction fuel as [|fuel IH]; intros i j Hf Hij Hb; [lia|].
  cbn [search_loop]. destruct (Nat.ltb_spec i j) as [Hlt|Hge].
  - assert (Hh : i <= (i + j) / 2 < j).
    { split; [apply Nat.div_le_lower_bound; lia|apply Nat.Div0.div_lt_upper_bound; lia]. }
    set (h := (i + j) / 2) in *. clearbody h.
    destruct (lookup_lt_is_Some_2 sorted h) as [a Ha]; [lia|]. rewrite Ha. change (default "" (Some a)) with a.
    destruct Hb as [Hlo Hhi]. destruct (String.ltb a str) eqn:Ea.
    + apply IH; [lia..|]. split; [|done].
      intros k s Hk. apply (sorted_below sorted str a s h k Hs Ha Ea). lia.
    + apply IH; [lia..|]. split; [done|].
      intros k s Hk. by apply (sorted_above sorted str a s h k Hs Ha Ea).
  - assert (i = j) as <- by lia. split; [lia|done].
Qed.

Lemma find_spec (sorted : list string) (str : string) :
  sorted_by String.ltb sorted -> find sorted str = bool_decide (str ∈ sorted).
Proof.
  intros Hs. unfold find. apply bool_decide_ext. split.
  - apply list_elem_of_lookup_2.
  - intros [k Hk]%list_elem_of_lookup_1.
    destruct (search_loop_bounds sorted str (S (length sorted)) 0 (length sorted) Hs) as [Hr [Hlo Hhi]];
      [lia..| |].
    { split; [intros; lia|]. intros k' s Hk' Hl. apply lookup_lt_Some in Hl. lia. }
    fold (SearchStrings sorted str) in *. set (r := SearchStrings sorted str) in *. clearbody r.
    assert (Hrk : r <= k).
    { destruct (decide (r <= k)) as [|Hn]; [done|].
      pose proof (Hlo k str ltac:(lia) Hk) as Hc. by rewrite string_ltb_irrefl in Hc. }
    destruct (decide (r = k)) as [->|Hne]; [done|].
    destruct (lookup_lt_is_Some_2 sorted r) as [a Ha]; [apply lookup_lt_Some in Hk; lia|].
    rewrite Ha. f_equal. apply string_ltb_total; [exact (Hhi r a ltac:(lia) Ha)|].
    exact (sorted_lookup sorted r k a str Hs ltac:(lia) Ha Hk).
Qed.

#[export] Instance ltb_strict_weak : StrictWeakOrder String.ltb.
Proof.
  split; [apply string_ltb_irrefl|apply string_ltb_trans|].
  intros x y z Hxy Hyz. destruct (String.ltb x z) eqn:Hxz; [|done].
  destruct (String.ltb y x) eqn:Hyx; [by rewrite (string_ltb_trans y x z) in Hyz|].
  by rewrite (string_ltb_total x y Hxy Hyx), Hyz in Hxz.
Qed.

(** ** The longest command *)
Lemma lookup_alias_Some {W} (cmds : list (@cmd W)) alias c :
  lookup_alias cmds alias = Some c -> c ∈ cmds /\ alias ∈ Aliases c.
Proof.
  unfold lookup_alias. intros Hl%last_Some_elem_of. apply list_elem_of_In, filter_In in Hl as [Hin Ha].
  split; [by apply list_elem_of_In|by apply bool_decide_eq_true in Ha].
Qed.

Lemma lookup_alias_None {W} (cmds : list (@cmd W)) alias :
  lookup_alias cmds alias = None <-> forall c, c ∈ cmds -> alias ∉ Aliases c.
Proof.
  unfold lookup_alias. rewrite last_None. split.
  - intros Hn c Hc Ha.
    assert (Hin : In c (List.filter (fun c => bool_decide (alias ∈ Aliases c)) cmds)).
    { apply filter_In. split; [by apply list_elem_of_In|by apply bool_decide_eq_true]. }
    by rewrite Hn in Hin.
  - intros Hn. destruct (List.filter _ cmds) as [|c l] eqn:E; [done|].
    assert (Hin : In c (List.filter (fun c => bool_decide (alias ∈ Aliases c)) cmds)).
    { rewrite E. by left. }
    apply filter_In in Hin as [Hin Ha]. apply bool_decide_eq_true in Ha.
    exfalso. apply (Hn c); [by apply list_elem_of_In|done].
Qed.

(** The first [j] tokens are a command. *)
Definition is_command {W} (cmds : list (@cmd W)) (tokens : list string) (j : nat) : Prop :=
  exists c, c ∈ cmds /\ Join (take j tokens) " " ∈ Aliases c.

Lemma longest_command_spec {W} (cmds : list (@cmd W)) tokens n :
  match longest_command cmds tokens n with
  | Some (key, c, i) =>
      0 < i <= n /\ key = Join (take i tokens) " " /\ c ∈ cmds /\ key ∈ Aliases c /\
      (forall j, i < j <= n -> ~ is_command cmds tokens j)
  | None => forall j, 0 < j <= n -> ~ is_command cmds tokens j
  end.
Proof.
  induction n as [|n IH]; cbn [longest_command]; [intros j Hj; lia|].
  destruct (lookup_alias cmds _) as [c|] eqn:Ec.
  - apply lookup_alias_Some in Ec as [Hc Ha]. repeat split; try done; [lia..|]. intros j Hj. lia.
  - assert (Hn : ~ is_command cmds tokens (S n)).
    { intros (c & Hc & Ha). by apply (proj1 (lookup_alias_None _ _) Ec c Hc). }
    destruct (longest_command cmds tokens n) as [[[key c] i]|].
    + destruct IH as (Hi & Hk & Hc & Ha & Hj). repeat split; try done; [lia..|].
      intros j Hjn. destruct (decide (j = S n)) as [->|]; [done|]. apply Hj. lia.
    + intros j Hjn. destruct (decide (j = S n)) as [->|]; [done|]. apply IH. lia.
Qed.

Lemma longest_command_take {W} (cmds : list (@cmd W)) tokens n i key c :
  longest_command cmds tokens n = Some (key, c, i) -> 
  (forall j, i < j <= n -> ~ is_command cmds tokens j) /\ lookup_alias cmds (Join (take i tokens) " ") = Some c.
Proof.
  induction n as [|n IH]; cbn [longest_command]; [done|].
  destruct (lookup_alias cmds (Join (take (S n) tokens) " ")) as [c'|] eqn:Ec.
  - intros [= <- <- <-]. split; [intros j Hj; lia|done].
  - intros Hl. destruct (IH Hl) as [Hj Hc]. split; [|done].
    intros j Hjn. destruct (decide (j = S n)) as [->|]; [|apply Hj; lia].
    intros (c0 & Hc0 & Ha). by apply (proj1 (lookup_alias_None _ _) Ec c0 Hc0).
Qed.

(** An input is a command exactly when some words at its start are an alias of
    one, and the command that runs then is the one of the most words; the rest
    of the words, in lower case, are its arguments. *)
Theorem Execute_longest {W} (cmds : list (@cmd W)) (console : Console W) (input : string) :
  let tokens := clean_tokens (Split (TrimSpace input) " ") in
  (exists i c, 0 < i <= length tokens /\ lookup_alias cmds (Join (take i tokens) " ") = Some c /\
     (forall j, i < j <= length tokens -> ~ is_command cmds tokens j) /\
     let '(msg, console') := cmd_Run c console (Join (take i tokens) " ") (map ToLower (drop i tokens)) in
     exists printed, Execute cmds console input = (true, printed, console')) \/
  ((forall j, 0 < j <= length tokens -> ~ is_command cmds tokens j) /\
   Execute cmds console input = (false, None, console)).
Proof.
  intros tokens. unfold Execute. fold tokens. pose proof (longest_command_spec cmds tokens (length tokens)) as Hl.
  destruct (longest_command cmds tokens (length tokens)) as [[[key c] i]|] eqn:E; [left|by right].
  destruct Hl as (Hi & -> & Hc & Ha & Hj). apply longest_command_take in E as [_ E].
  exists i, c. split; [done|]. split; [done|]. split; [done|].
  rewrite skipn_map. destruct (cmd_Run _ _ _ _) as [msg console']. by eexists.
Qed.

(** ** A statement of several lines *)
Section gathering.
Context {W : Type} (LoadString : string -> option string).
Context (eval_stmt : W -> string -> bool -> bool -> result (list string) * list string * W).
Context (MakeOutput_ : Format -> string -> Opts -> result string) (now : Z) (save : W -> string -> W).
Context (cmds : list (@cmd W)).

Notation run := (run_piped LoadString eval_stmt MakeOutput_ now save cmds).
Notation send := (execute_statement eval_stmt MakeOutput_ now save).

(** The console with the text of a statement in progress. *)
Definition gathered (c : Console W) (stmt : string) (live : bool) : Console W :=
  with_input stmt live (c_history c) (c_world c) c.

Definition more (stmt part : string) : string := stmt +:+ nl +:+ part.

Lemma Join_more (line : string) (lines : list string) : Join (line :: lines) nl = foldl more line lines.
Proof.
  revert line. induction lines as [|l lines IH]; intros line; [done|]. cbn [foldl]. rewrite <- IH.
  destruct lines as [|l' lines]; cbn [Join]; [done|]. unfold more. by rewrite <- !string_app_assoc.
Qed.

Lemma more_ne (stmt part : string) : more stmt part <> "".
Proof. unfold more. by destruct stmt. Qed.

Lemma executor_more (c : Console W) (stmt line : string) (live : bool) :
  stmt <> "" ->
  executor LoadString eval_stmt MakeOutput_ now save cmds (gathered c stmt live) line =
  if validator LoadString (c_language c) (more stmt line) then send (gathered c (more stmt line) live)
  else Running (gathered c (more stmt line) true) [].
Proof.
  intros Hne. unfold executor. rewrite decide_False by done. unfold AddStmtPart.
  rewrite decide_False by done. done.
Qed.

Lemma run_last (c : Console W) (line : string) :
  run c [line] = executor LoadString eval_stmt MakeOutput_ now save cmds c line.
Proof.
  cbn [run_piped]. destruct (executor _ _ _ _ _ _ c line) as [c' printed|c'|c' msg]; [|done..].
  cbn [print_first]. by rewrite app_nil_r.
Qed.

(** The lines after the first: each is added, and the last one sends. *)
Lemma run_more (c : Console W) (lines : list string) (stmt : string) :
  stmt <> "" -> lines <> [] ->
  (forall k, 0 < k < length lines ->
     validator LoadString (c_language c) (foldl more stmt (take k lines)) = false) ->
  validator LoadString (c_language c) (foldl more stmt lines) = true ->
  run (gathered c stmt true) lines = send (gathered c (foldl more stmt lines) true).
Proof.
  revert stmt. induction lines as [|line lines IH]; intros stmt Hne Hl Hk Hv; [done|].
  destruct lines as [|line' lines].
  - rewrite run_last, executor_more by done. cbn [foldl] in *. by rewrite Hv.
  - cbn [run_piped]. rewrite executor_more by done.
    pose proof (Hk 1 ltac:(cbn [length]; lia)) as Hk1. cbn [take foldl] in Hk1. rewrite Hk1.
    change (line :: line' :: lines) with ([line] ++ line' :: lines) in *.
    change (print_first [] (run (gathered c (more stmt line) true) (line' :: lines)) =
            send (gathered c (foldl more (more stmt line) (line' :: lines)) true)).
    rewrite (IH (more stmt line)); [|apply more_ne|done| |done].
    + by destruct (send _).
    + intros k Hkl. apply (Hk (S k)). cbn [app length] in *. lia.
Qed.

(** C27: A line that is not a command and is not blank starts a statement, the
    lines that follow are added to it (commands are not looked for in them) as
    long as the text is not complete, and the line that completes it sends all
    of them joined by newlines in one call: the console records the statement,
    prints what the pushes and the result of that call print, and is ready for
    the next one. *)
Theorem statement_sent_once (c : Console W) (first data : string) (lines rest pushed : list string) (w : W) :
  let stmt := Join (first :: lines) nl in
  let recorded := record_command now save (TrimSpace stmt) (c_history c) (c_world c) in
  let meta := bool_decide (c_format c = TableFormat \/ c_format c = TTableFormat) in
  c_input c = "" -> TrimSpace first <> "" ->
  (forall j, let tokens := clean_tokens (Split (TrimSpace first) " ") in
     0 < j <= length tokens -> ~ is_command cmds tokens j) ->
  (forall k, 0 < k <= length lines ->
     validator LoadString (c_language c) (Join (take k (first :: lines)) nl) = false) ->
  validator LoadString (c_language c) stmt = true ->
  eval_stmt recorded.2 stmt (bool_decide (c_language c = SQLLanguage)) meta = (Ok (data :: rest), pushed, w) ->
  run c (first :: lines) =
  Running (with_input "" false recorded.1 w c)
    (pushed ++ match MakeOutput_ (c_format c) data (c_formatOpts c) with Ok output => [output] | Err _ => [] end).
Proof.
  intros stmt recorded meta Hin Hf Hcmd Hk Hv He.
  assert (Hex : Execute cmds c first = (false, None, c)).
  { destruct (Execute_longest cmds c first) as [(i & c' & Hi & Hc & _)|[_ Hx]]; [|done].
    destruct (Hcmd i Hi). apply lookup_alias_Some in Hc. by exists c'. }
  assert (Hfirst : first <> "") by (intros ->; by apply Hf).
  assert (Hsend : forall live, send (gathered c stmt live) =
    Running (with_input "" false recorded.1 w c)
      (pushed ++ match MakeOutput_ (c_format c) data (c_formatOpts c) with Ok output => [output] | Err _ => [] end)).
  { intros live. unfold execute_statement, gathered. cbn [c_input with_input c_history c_world].
    change (record_command now save (TrimSpace stmt) (c_history c) (c_world c)) with recorded.
    destruct recorded as [h w'] eqn:Er. cbn [fst snd] in *. unfold meta in He.
    change (c_format (with_input stmt live (c_history c) (c_world c) c)) with (c_format c).
    change (c_language (with_input stmt live (c_history c) (c_world c) c)) with (c_language c).
    by rewrite He. }
  assert (Hstart : executor LoadString eval_stmt MakeOutput_ now save cmds c first =
    if validator LoadString (c_language c) first then send (gathered c first (c_livePrefixEnabled c))
    else Running (gathered c first true) []).
  { unfold executor. rewrite decide_True by done. rewrite Hex. unfold AddStmtPart.
    rewrite Hin, decide_True, decide_True by done. done. }
  destruct lines as [|line lines].
  - rewrite run_last, Hstart. unfold stmt in *. cbn [Join] in *. rewrite Hv. apply Hsend.
  - cbn [run_piped]. rewrite Hstart.
    pose proof (Hk 1 ltac:(cbn [length]; lia)) as Hk1. cbn [take Join] in Hk1. rewrite Hk1.
    change (print_first [] (run (gathered c first true) (line :: lines)) =
      Running (with_input "" false recorded.1 w c)
        (pushed ++ match MakeOutput_ (c_format c) data (c_formatOpts c) with Ok output => [output] | Err _ => [] end)).
    unfold stmt in Hsend, Hv. rewrite Join_more in Hsend, Hv.
    rewrite (run_more c (line :: lines) first); [by rewrite Hsend|done..| |done].
    intros k Hkl. rewrite <- Join_more. apply (Hk (S k)). lia.
Qed.
End gathering.

(** ** The commands that set something *)
Section settings.
Context {W : Type} `{GoSort}.

(** A command with a set of allowed arguments runs on exactly those, alone; with
    anything else the console stays as it is. *)
Definition expects_one_of (allowed : list string) : error :=
  Errorf "the command expects one of: %s" [Join (sort_slice String.ltb allowed) ", "].

Lemma argSet_run (base : @cmd W) (allowed : list string) (c : Console W) (name : string) (args : list string) :
  cmd_Run (newArgSetCmdDecorator base allowed) c name args =
  match args with
  | [arg] => if bool_decide (arg ∈ allowed) then cmd_Run base c name [arg] else (Err (expects_one_of allowed), c)
  | _ => (Err (expects_one_of allowed), c)
  end.
Proof.
  unfold newArgSetCmdDecorator. cbn [cmd_Run]. destruct args as [|arg [|arg' args]]; [done| |done].
  rewrite find_spec by apply sort_slice_sorted, _.
  by rewrite (bool_decide_ext (arg ∈ sort_slice String.ltb allowed) (arg ∈ allowed)) by (by rewrite sort_slice_perm).
Qed.

(** The two outcomes of such a command, for names that are printed from values:
    the value whose name is given is set, anything else is refused. *)
Lemma set_named {A} (names : A -> string) (all : list A) (run : @runFunc W) (aliases : list string)
    (set : A -> Console W -> Console W) (c : Console W) (name : string) (args : list string) :
  (forall a, run c name [names a] = (Ok "", set a c)) ->
  let result := cmd_Run (newArgSetCmdDecorator (baseCmd aliases run) (map names all)) c name args in
  (exists a, a ∈ all /\ args = [names a] /\ result = (Ok "", set a c)) \/
  ((forall a, a ∈ all -> args <> [names a]) /\ result = (Err (expects_one_of (map names all)), c)).
Proof.
  intros Hrun result. unfold result. rewrite argSet_run. destruct args as [|arg [|arg' args]]; [by right| |by right].
  case_bool_decide as Ha.
  - left. apply list_elem_of_fmap in Ha as (a & -> & Ha). exists a. split; [done|]. split; [done|]. apply Hrun.
  - right. split; [|done]. intros a Hin [= ->]. by apply Ha, list_elem_of_fmap_2.
Qed.

(** [\set output]: one of the four names sets that format and nothing else of the
    console, any other list of arguments is refused and changes nothing. *)
Theorem set_output_run (c : Console W) (name : string) (args : list string) :
  let result := cmd_Run (newArgSetCmdDecorator (baseCmd [setFormatLong] setFormatFunc)
                  (map Format_String [LuaFormat; TableFormat; TTableFormat; YamlFormat])) c name args in
  (exists f, args = [Format_String f] /\ result = (Ok "", with_format f c)) \/
  ((forall f, args <> [Format_String f]) /\ exists err, result = (Err err, c)).
Proof.
  intros result.
  destruct (set_named Format_String [LuaFormat; TableFormat; TTableFormat; YamlFormat] setFormatFunc
    [setFormatLong] with_format c name args) as [(f & _ & Ha & Hr)|[Hn Hr]].
  - by intros [].
  - left. by exists f.
  - right. split; [|by eexists]. intros f. apply Hn. destruct f; set_solver.
Qed.

(** [\set table_format], in the same way. *)
Theorem set_table_format_run (c : Console W) (name : string) (args : list string) :
  let set d := with_opts (mkOpts (Graphics (c_formatOpts c)) (ColumnWidthMax (c_formatOpts c)) d) c in
  let result := cmd_Run (newArgSetCmdDecorator (baseCmd [setTableDialect] setTableDialectFunc)
                  (map TableDialect_String [DefaultTableDialect; JiraTableDialect; MarkdownTableDialect]))
                  c name args in
  (exists d, args = [TableDialect_String d] /\ result = (Ok "", set d)) \/
  ((forall d, args <> [TableDialect_String d]) /\ exists err, result = (Err err, c)).
Proof.
  intros set result.
  destruct (set_named TableDialect_String [DefaultTableDialect; JiraTableDialect; MarkdownTableDialect]
    setTableDialectFunc [setTableDialect] (fun d c0 => set d) c name args) as [(d & _ & Ha & Hr)|[Hn Hr]].
  - by intros [].
  - left. by exists d.
  - right. split; [|by eexists]. intros d. apply Hn. destruct d; set_solver.
Qed.

(** Four steps of [\x] come back to the format they started from. *)
Theorem switch_format_cycle (c : Console W) (name : string) :
  let next c := (switchNextFormatFunc c name []).2 in
  c_format (next (next (next (next c)))) = c_format c /\
  (forall f, exists n, c_format (Nat.iter n next c) = f).
Proof.
  cbn [switchNextFormatFunc snd]. split; [by destruct c as [? ? ? []]|].
  intros f. destruct c as [? ? ? f0]. destruct f0, f;
    first [by exists 0|by exists 1|by exists 2|by exists 3].
Qed.
End settings.

(** ** A console whose world is the list of statements it was sent *)
Definition log_eval (w : list string) (stmt : string) (_ _ : bool)
    : result (list string) * list string * list string :=
  (Ok ["done"], [], w ++ [stmt]).
Definition until_end (s : string) : option string :=
  if HasSuffix s "end" then None else Some "syntax error at EOF".
Definition example_console : Console (list string) :=
  mkConsole "" "app" DefaultLanguage YamlFormat (mkOpts true 0 DefaultTableDialect) false None false "" "" [].
Definition help_only : list (@cmd (list string)) := [noArgsCmdDecorator (helpCmd "help")].

Lemma statement_sent_once_witness :
  run_piped until_end log_eval (fun _ data _ => Ok data) 0 (fun w _ => w) help_only example_console
    ["do"; "\help"; "end"] =
  Running (with_input "" false None [Join ["do"; "\help"; "end"] nl] example_console) ["done"].
Proof.
  apply (statement_sent_once until_end log_eval (fun _ data _ => Ok data) 0 (fun w _ => w) help_only
    example_console "do" "done" ["\help"; "end"] [] []); try by vm_compute.
  - intros j tokens Hj (c & Hc%list_elem_of_singleton & Ha). subst c.
    change (length tokens) with 1 in Hj. assert (j = 1) as -> by lia.
    change (Join (take 1 tokens) " ") with "do" in Ha. cbn in Ha. set_solver.
  - intros k Hk. cbn [length] in Hk. by destruct k as [|[|[|k]]]; [lia|vm_compute|vm_compute|lia].
Defined.
