(* ===== verification/Pack.v ===== *)
(** * Packing: contexts, names, versions, dependencies and filters ([cli/pack])

    [opts.go], [pack.go], [common.go], [creator.go], [deps.go],
    [deb_control_dir.go], [deb.go], [systemd_dir.go], [archive.go] and
    [docker.go].  Git, the parser of dependencies (participle) and the system
    are parameters. *)
From S2P Require Import Prelude GoStrings GoPath GoOs Regexp Value Cluster Configure Version.
From S2P Require Import Running.
Open Scope go_scope.

(** ** Contexts ([pack.go], [common.go]) *)
Record packFileInfo := mkPackFileInfo { pf_owner : string; pf_group : string }.

Record RpmDebCtx := mkRpmDebCtx {
  rd_WithTarantoolDeps : bool;
  rd_PreInst : string;
  rd_PostInst : string;
  rd_Deps : list string;
  rd_DepsFile : string;
  rd_SystemdUnitParamsFile : string;
  rd_pkgFilesInfo : gmap string packFileInfo
}.

Record PackCtx := mkPackCtx {
  pk_Type : string;
  pk_Name : string;
  pk_Version : string;
  pk_AppList : option (list string);
  pk_FileName : string;
  pk_WithBinaries : bool;
  pk_WithoutBinaries : bool;
  pk_WithoutModules : bool;
  pk_TarantoolExecutable : string;
  pk_TarantoolIsSystem : bool;
  pk_Archive_All : bool;
  pk_RpmDeb : RpmDebCtx;
  pk_UseDocker : bool;
  pk_CartridgeCompat : bool;
  pk_TarantoolVersion : string;
  pk_IntegrityPrivateKey : string;
  pk_AppsInfo : gmap string (list InstanceCtx);
  pk_configFilePath : string
}.

Definition set_Version (v : string) (p : PackCtx) : PackCtx :=
  mkPackCtx (pk_Type p) (pk_Name p) v (pk_AppList p) (pk_FileName p) (pk_WithBinaries p)
    (pk_WithoutBinaries p) (pk_WithoutModules p) (pk_TarantoolExecutable p) (pk_TarantoolIsSystem p) (pk_Archive_All p)
    (pk_RpmDeb p) (pk_UseDocker p) (pk_CartridgeCompat p) (pk_TarantoolVersion p) (pk_IntegrityPrivateKey p)
    (pk_AppsInfo p) (pk_configFilePath p).
Definition set_Name (n : string) (p : PackCtx) : PackCtx :=
  mkPackCtx (pk_Type p) n (pk_Version p) (pk_AppList p) (pk_FileName p) (pk_WithBinaries p)
    (pk_WithoutBinaries p) (pk_WithoutModules p) (pk_TarantoolExecutable p) (pk_TarantoolIsSystem p) (pk_Archive_All p)
    (pk_RpmDeb p) (pk_UseDocker p) (pk_CartridgeCompat p) (pk_TarantoolVersion p) (pk_IntegrityPrivateKey p)
    (pk_AppsInfo p) (pk_configFilePath p).
Definition set_Apps (l : list string) (apps : gmap string (list InstanceCtx)) (p : PackCtx) : PackCtx :=
  mkPackCtx (pk_Type p) (pk_Name p) (pk_Version p) (Some l) (pk_FileName p) (pk_WithBinaries p)
    (pk_WithoutBinaries p) (pk_WithoutModules p) (pk_TarantoolExecutable p) (pk_TarantoolIsSystem p) (pk_Archive_All p)
    (pk_RpmDeb p) (pk_UseDocker p) (pk_CartridgeCompat p) (pk_TarantoolVersion p) (pk_IntegrityPrivateKey p)
    apps (pk_configFilePath p).
(** What [FillCtx] takes from the context of the command. *)
Definition set_Cli (type executable config : string) (isSystem : bool) (p : PackCtx) : PackCtx :=
  let rd := pk_RpmDeb p in
  mkPackCtx type (pk_Name p) (pk_Version p) (pk_AppList p) (pk_FileName p) (pk_WithBinaries p)
    (pk_WithoutBinaries p) (pk_WithoutModules p) executable isSystem (pk_Archive_All p)
    (mkRpmDebCtx (rd_WithTarantoolDeps rd) (rd_PreInst rd) (rd_PostInst rd) (rd_Deps rd)
       (rd_DepsFile rd) (rd_SystemdUnitParamsFile rd) ∅)
    (pk_UseDocker p) (pk_CartridgeCompat p) (pk_TarantoolVersion p) (pk_IntegrityPrivateKey p) (pk_AppsInfo p) config.

Definition defaultVersion : string := "0.1.0".
Definition defaultLongVersion : string := "0.1.0.0".

(** [opts.go] *)
Definition Tgz : string := "tgz".
Definition Rpm : string := "rpm".
Definition Deb : string := "deb".

(** ** Versions of packages *)
Definition num (name : string) : re := RGroup name digits_re.
Definition hash_re : re := RGroup "Hash" (lit "g" @@ RPlus (RUnit word_char)).
Definition three_numbers : re := num "Major" @@ lit "." @@ num "Minor" @@ lit "." @@ num "Patch".

Definition versionRgxps : list re := ([
  num "Major";
  num "Major" @@ lit "." @@ num "Minor";
  three_numbers;
  three_numbers @@ lit "-" @@ num "Count";
  three_numbers @@ lit "-" @@ hash_re;
  three_numbers @@ lit "-" @@ num "Count" @@ lit "-" @@ hash_re;
  lit "v" @@ three_numbers @@ lit "-" @@ num "Count" @@ lit "-" @@ hash_re
])%re.

(** The text of a group, or what the variable had before. *)
Definition group_or (g : groups) (name before : string) : string :=
  match list_find (fun x => x.1 = name) g with Some (_, x) => text x.2 | None => before end.

Fixpoint first_match (rs : list re) (s : list string) : option groups :=
  match rs with
  | [] => None
  | r :: rs => match match_all r s with Some g => Some g | None => first_match rs s end
  end.

Definition normalizeGitVersion (packageVersion : string) : result string :=
  match first_match versionRgxps (runes packageVersion) with
  | None => Err (Errorf "git tag should be semantic (major.minor.patch)" [])
  | Some g =>
      let count := group_or g "Count" "" in
      let count := if decide (count = "") then "0" else count in
      Ok (group_or g "Major" "0" +:+ "." +:+ group_or g "Minor" "0" +:+ "." +:+
          group_or g "Patch" "0" +:+ "." +:+ count)
  end.

Section names.
(** [util.CheckVersionFromGit] and [filepath.Abs] of the current directory. *)
Context (CheckVersionFromGit : string -> result string) (cwd : result string).

Definition getVersion (packCtx : PackCtx) (env : TtEnvOpts) (defaultVersion : string)
    : string * PackCtx :=
  if decide (pk_Version packCtx = "") then
    let enabled := env_InstancesEnabled env in
    let compat := pk_CartridgeCompat packCtx in
    let appPath :=
      if bool_decide (enabled <> ".") && compat then filepath_Join [enabled; pk_Name packCtx]
      else enabled in
    let packageVersion :=
      if bool_decide (enabled = ".") || compat then
        match CheckVersionFromGit appPath with
        | Err _ => defaultVersion
        | Ok version =>
            if compat then
              match normalizeGitVersion version with Ok normalVersion => normalVersion | Err _ => version end
            else version
        end
      else defaultVersion in
    (packageVersion, if compat then set_Version packageVersion packCtx else packCtx)
  else (pk_Version packCtx, packCtx).

Definition getPackageFileName (packCtx : PackCtx) (env : TtEnvOpts) (suffix : string)
    (addVersion : bool) : result (string * PackCtx) :=
  if decide (pk_FileName packCtx <> "") then
    Ok (pk_FileName packCtx,
        if pk_CartridgeCompat packCtx then (getVersion packCtx env defaultLongVersion).2 else packCtx)
  else
    packageName <-? (if decide (pk_Name packCtx <> "") then Ok (pk_Name packCtx)
                     else rmap path_Base cwd);;
    if addVersion then
      let separator :=
        if decide (pk_Type packCtx = Tgz \/ pk_Type packCtx = Rpm) then "-"
        else if decide (pk_Type packCtx = Deb) then "_" else "" in
      let '(versionSuffix, packCtx) := getVersion packCtx env defaultLongVersion in
      Ok (packageName +:+ separator +:+ versionSuffix +:+ suffix, packCtx)
    else Ok (packageName +:+ suffix, packCtx).

(** [getTgzSuffix], [getRPMSuffix], [getDebSuffix] for an architecture. *)
Definition getTgzSuffix (arch : string) : string := Join [""; arch; "tar"; "gz"] ".".
Definition getRPMSuffix (arch : string) : string := "-1" +:+ "." +:+ arch +:+ ".rpm".
Definition getDebSuffix (arch : string) : string := "-1" +:+ "_" +:+ arch +:+ ".deb".

Definition getPackageName (configDir : string) : result string :=
  if decide (String.length configDir = 0) then
    match cwd with
    | Err e => Err (Wrapf "cannot get path of current dir: %s" [] e)
    | Ok absPath => Ok (path_Base absPath)
    end
  else Ok (path_Base configDir).

(** [packCtx.AppList[0]] panics for an empty list. *)
Definition setBundleName (packCtx : PackCtx) (env : TtEnvOpts) : result PackCtx :=
  if decide (pk_Name packCtx <> "") then Ok packCtx
  else if pk_CartridgeCompat packCtx || bool_decide (env_InstancesEnabled env = ".") then
    match pk_AppList packCtx with
    | Some (app :: _) => Ok (set_Name app packCtx)
    | _ => Err (Errorf "panic: index out of range" [])
    end
  else if decide (pk_configFilePath packCtx = "") then
    match cwd with
    | Err _ => Ok (set_Name "package" packCtx)
    | Ok cwd => Ok (set_Name (path_Base cwd) packCtx)
    end
  else Ok (set_Name (path_Base (path_Dir (pk_configFilePath packCtx))) packCtx).
End names.

(** ** [initAppsInfo] and [FillCtx] *)
Section fill.
Context {W : Type} `{OS W}.
Context (CollectInstancesForApps : list string -> W -> result (gmap string (list InstanceCtx)) * W).

Definition initAppsInfo (env : TtEnvOpts) (configDir : string) (packCtx : PackCtx) (w : W)
    : result PackCtx * W :=
  let appList :=
    match pk_AppList packCtx with
    | None => CollectAppList w configDir (env_InstancesEnabled env)
    | Some l =>
        Ok (List.filter (fun app => IsApp w (filepath_Join [env_InstancesEnabled env; app])) l)
    end in
  match appList with
  | Err e => (Err e, w)
  | Ok [] => (Err (Errorf "there are no apps found in instance_enabled directory" []), w)
  | Ok appList =>
      match CollectInstancesForApps appList w with
      | (Err e, w) => (Err (Wrapf "failed to collect applications info: %s" [] e), w)
      | (Ok apps, w) => (Ok (set_Apps appList apps packCtx), w)
      end
  end.

Definition pack_FillCtx (c : CliCtx) (configDir : string) (env : TtEnvOpts) (packCtx : PackCtx)
    (args : list string) (w : W) : result PackCtx * W :=
  match args with
  | [] => (Err (Errorf "package type is not provided" []), w)
  | type :: _ =>
      if bool_decide (pk_IntegrityPrivateKey packCtx <> "") && pk_CartridgeCompat packCtx then
        (Err (Errorf "cannot pack with integrity checks in cartridge-compat mode" []), w)
      else
        let packCtx := set_Cli type (cli_TarantoolExecutable c) (cli_ConfigPath c) (cli_IsSystem c) packCtx in
        match initAppsInfo env configDir packCtx w with
        | (Err e, w) => (Err (Wrapf "error collect applications info: %s" [] e), w)
        | (Ok packCtx, w) =>
            match setBundleName (Getwd w) packCtx env with
            | Err e => (Err e, w)
            | Ok packCtx =>
                if pk_CartridgeCompat packCtx && bool_decide (1 < size (pk_AppsInfo packCtx)) then
                  (Err (Errorf "cannot pack multiple applications in cartridge compat mode" []), w)
                else (Ok packCtx, w)
            end
        end
  end.

(** ** Which files are not copied *)
Definition skipDefaults (srcInfo : FileInfo) (src : string) : bool :=
  bool_decide (fi_Kind srcInfo = Socket) || HasPrefix src ".git" || Contains src "/.git".

(** The filters of files that exist: the same file is skipped. *)
Definition existing_filters (w : W) (paths : list string) : list (FileInfo -> string -> bool) :=
  omap (fun p => match Stat w p with
                 | Ok fileStat => Some (fun srcInfo _ => SameFile srcInfo fileStat)
                 | Err _ => None
                 end) paths.

Definition appArtifactsFilters (w : W) (cliOpts : CliOpts) (srcAppPath : string)
    : list (FileInfo -> string -> bool) :=
  match opts_App cliOpts with
  | None => []
  | Some app =>
      existing_filters w
        (omap (fun envDir =>
           if decide (envDir = "") then None
           else Some (if IsAbs envDir then Clean envDir else JoinPaths [srcAppPath; envDir]))
           [app_LogDir app; app_RunDir app; app_WalDir app; app_MemtxDir app; app_VinylDir app])
  end.

Definition ttEnvironmentFilters (w : W) (configFilePath : string) (cliOpts : CliOpts)
    : list (FileInfo -> string -> bool) :=
  let envPaths :=
    match opts_Env cliOpts with
    | Some env => [env_IncludeDir env; env_InstancesEnabled env; env_BinDir env]
    | None => []
    end
    ++ match opts_Modules cliOpts with Some m => [mod_Directory m] | None => [] end
    ++ match opts_Repo cliOpts with Some r => [repo_Install r] | None => [] end
    ++ map tmpl_Path (opts_Templates cliOpts) ++ [configFilePath] in
  existing_filters w (List.filter (fun p => bool_decide (p <> "")) envPaths).

Definition previousPackageFilter (pkgName : string) (srcInfo : FileInfo) (_ : string) : bool :=
  HasPrefix (fi_Name srcInfo) pkgName
  && existsb (fun packageSuffix => bool_decide (path_Ext (fi_Name srcInfo) = packageSuffix))
       [".rpm"; ".deb"; ".gz"; ".tgz"].

Definition appSrcCopySkip (w : W) (packCtx : PackCtx) (cliOpts : CliOpts) (srcAppPath : string)
    (srcInfo : FileInfo) (src : string) : bool :=
  existsb (fun shouldSkip => shouldSkip srcInfo src)
    (appArtifactsFilters w cliOpts srcAppPath
     ++ ttEnvironmentFilters w (pk_configFilePath packCtx) cliOpts
     ++ [previousPackageFilter (pk_Name packCtx)] ++ [skipDefaults]).
End fill.

(** ** Options of the new environment *)
Definition getDestAppDir (bundleEnvPath appName : string) (packCtx : PackCtx) (env : TtEnvOpts)
    : string :=
  if pk_CartridgeCompat packCtx || bool_decide (env_InstancesEnabled env = ".") then bundleEnvPath
  else filepath_Join [bundleEnvPath; appName].

Definition map_app_dirs (f : string -> string) (a : AppOpts) : AppOpts :=
  mkAppOpts (f (app_RunDir a)) (f (app_LogDir a)) (f (app_WalDir a)) (f (app_MemtxDir a))
    (f (app_VinylDir a)).

Definition set_data_dirs (wal memtx vinyl : string) (a : AppOpts) : AppOpts :=
  mkAppOpts (app_RunDir a) (app_LogDir a) wal memtx vinyl.

Definition createNewOpts (opts : CliOpts) (packCtx : PackCtx) : result CliOpts :=
  let isPackage := bool_decide (pk_Type packCtx = Rpm \/ pk_Type packCtx = Deb) in
  let app := if isPackage
             then map_app_dirs (fun varPath => filepath_Join [varPath; pk_Name packCtx]) getSystemAppOpts
             else getDefaultAppOpts in
  let base := if isPackage then GetSystemCliOpts else GetDefaultCliOpts in
  env <-? deref (opts_Env opts);;
  oldApp <-? deref (opts_App opts);;
  let enabled := if decide (env_InstancesEnabled env <> ".") then InstancesEnabledDirName else "." in
  let app :=
    if negb (bool_decide (app_VinylDir oldApp = app_WalDir oldApp)
             && bool_decide (app_WalDir oldApp = app_MemtxDir oldApp))
    then set_data_dirs VarWalPath VarMemtxPath VarVinylPath app else app in
  let '(enabled, bin) := if pk_CartridgeCompat packCtx then (".", ".") else (enabled, BinPath) in
  Ok (mkCliOpts
        (Some (mkTtEnvOpts bin IncludePath enabled (env_Restartable env) (env_TarantoolctlLayout env)))
        (opts_Modules base) (Some app) (opts_EE base) (opts_Templates base) (opts_Repo base)).

(** [CreatePacker]: the packer of a type. *)
Inductive Packer := archivePacker | debPacker | rpmPacker.
Definition CreatePacker (packCtx : PackCtx) : option Packer :=
  if decide (pk_Type packCtx = Tgz) then Some archivePacker
  else if decide (pk_Type packCtx = Deb) then Some debPacker
  else if decide (pk_Type packCtx = Rpm) then Some rpmPacker
  else None.

(** [checkFlags] of [cli/cmd/pack.go]. *)
Definition checkFlags (packCtx : PackCtx) : option error :=
  if bool_decide (pk_IntegrityPrivateKey packCtx <> "") && pk_WithoutBinaries packCtx then
    Some (Errorf "impossible combination of --with-integrity-check and --without-binaries flags" [])
  else None.

(** ** Dependencies *)
Record DepRelation := mkDepRelation { dep_Relation : string; dep_Version : string }.
Record PackDependency := mkPackDependency { dep_Name : string; dep_Relations : list DepRelation }.
Definition PackDependencies := list PackDependency.

Section deps.
Context (ParseString : string -> result PackDependency).

Fixpoint parse_deps (rawDeps : list string) : result PackDependencies :=
  match rawDeps with
  | [] => Ok []
  | dep :: rest =>
      let dep := TrimSpace dep in
      if bool_decide (dep = "") || HasPrefix dep "//" then parse_deps rest
      else
        match ParseString dep with
        | Err err =>
            Err (Wrapf "error during parse dependencies file: %s. Trying to parse: %s" [dep] err)
        | Ok parsedDep => rmap (cons parsedDep) (parse_deps rest)
        end
  end.
Definition parseDependencies : list string -> result PackDependencies := parse_deps.

Definition parseDependenciesFromFile {W} `{OS W} (w : W) (depsFile : string) : result PackDependencies :=
  _ <-? match Stat w depsFile with
        | Err err => if IsNotExist err
                     then Err (Wrapf "invalid path to file with dependencies: %s" [] err) else Ok tt
        | Ok _ => Ok tt
        end;;
  content <-? rwrap "failed to get file content: %s" [] (ReadFile w depsFile);;
  rwrap "failed to parse dependencies file: %s" [] (parseDependencies (Split content newline)).

(** [getTntTTAsDeps] for the versions of tarantool and tt. *)
Definition getTntTTAsDeps (tntVersion : result Version) (ttVer : string) : result PackDependencies :=
  v <-? tntVersion;;
  let tntVer := Join [FormatUint (Major v); FormatUint (Minor v); FormatUint (Patch v)] "." in
  Ok [mkPackDependency "tarantool" [mkDepRelation "==" tntVer];
      mkPackDependency "tt" [mkDepRelation "==" ttVer]].

Definition parseAllDependencies {W} `{OS W} (w : W) (tntVersion : result Version) (ttVer : string)
    (rd : RpmDebCtx) : result PackDependencies :=
  deps <-? match rd_Deps rd with [] => Ok [] | l => parseDependencies l end;;
  fileDeps <-? (if decide (rd_DepsFile rd <> "") then parseDependenciesFromFile w (rd_DepsFile rd)
                else Ok []);;
  binDeps <-? (if rd_WithTarantoolDeps rd then getTntTTAsDeps tntVersion ttVer else Ok []);;
  Ok (deps ++ fileDeps ++ binDeps).
End deps.

(** [deb_control_dir.go] *)
Definition getDebRelation (relation : string) : string :=
  if decide (relation = ">" \/ relation = "<") then relation +:+ relation
  else if decide (relation = "==") then "=" else relation.

Definition deb_dep (dep : PackDependency) : list string :=
  match dep_Relations dep with
  | [] => [dep_Name dep]
  | rs => map (fun r => dep_Name dep +:+ " (" +:+ getDebRelation (dep_Relation r) +:+ " "
                        +:+ dep_Version r +:+ ")") rs
  end.

(** The value of "Depends". *)
Definition addDependenciesDeb (deps : PackDependencies) : string :=
  Join (concat (map deb_dep deps)) ", ".

(** ** Units of systemd *)
Definition systemdUnitFileName (inst : InstanceCtx) : string :=
  if run_SingleApp inst then run_AppName inst +:+ ".service" else run_AppName inst +:+ "@.service".
Definition systemdDescriptionAppName (inst : InstanceCtx) : string :=
  if run_SingleApp inst then run_AppName inst else run_AppName inst +:+ "@%i".
Definition systemdExecArgsForApp (inst : InstanceCtx) : string :=
  if run_SingleApp inst then run_AppName inst
  else run_AppName inst +:+ String InstanceDelimiter "%i".

Definition getTTBinary (packCtx : PackCtx) (packagePath : string) : string :=
  if (negb (pk_TarantoolIsSystem packCtx) && negb (pk_WithoutBinaries packCtx)) || pk_WithBinaries packCtx
  then filepath_Join [packagePath; BinPath; "tt"] else "tt".

Record systemdUnitParams := mkUnitParams {
  up_AppName : string; up_ExecArgs : string; up_TT : string; up_ConfigPath : string;
  up_FdLimit : Z; up_InstanceEnv : gmap string string }.
Definition defaultInstanceFdLimit : Z := 65535.
Definition unitParamsFileName : string := "systemd-unit-params.yml".

Section units.
Context {W : Type} `{OS W}.
(** Opening and decoding a file of parameters over those given. *)
Context (decode_params : W -> string -> systemdUnitParams -> result systemdUnitParams).

Definition loadUserUnitParams (w : W) (unitParams : systemdUnitParams) (packCtx : PackCtx)
    (inst : InstanceCtx) : result systemdUnitParams :=
  let unitParamsFile := JoinPaths [run_AppDir inst; unitParamsFileName] in
  if IsRegularFile w unitParamsFile then decode_params w unitParamsFile unitParams
  else
    let unitParamsFile := rd_SystemdUnitParamsFile (pk_RpmDeb packCtx) in
    if decide (String.length unitParamsFile = 0) then Ok unitParams
    else decode_params w unitParamsFile unitParams.

Definition getUnitParams (w : W) (packCtx : PackCtx) (pathToEnv : string) (inst : InstanceCtx)
    : result systemdUnitParams :=
  let unitParams := mkUnitParams "" "" (getTTBinary packCtx pathToEnv) pathToEnv
                      defaultInstanceFdLimit ∅ in
  match loadUserUnitParams w unitParams packCtx inst with
  | Err e => Err (Wrapf "cannot load custom systemd unit parameters: %s" [] e)
  | Ok p => Ok (mkUnitParams (systemdDescriptionAppName inst) (systemdExecArgsForApp inst) (up_TT p)
                  (up_ConfigPath p) (up_FdLimit p) (up_InstanceEnv p))
  end.
End units.

(** ** The command line in a container ([docker.go])

    The loop that removes [--use-docker] and [--tarantool-version] with its
    value; a flag that is last with its value missing panics.  [None] when the
    fuel is exhausted. *)
Fixpoint docker_args (fuel : nat) (i : nat) (cmdArgs : list string) : option (result (list string)) :=
  match cmdArgs !! i with
  | None => Some (Ok cmdArgs)
  | Some arg =>
      match fuel with
      | O => None
      | S fuel =>
          if decide (arg = "--use-docker") then
            docker_args fuel i (take i cmdArgs ++ drop (i + 1) cmdArgs)
          else if decide (arg = "--tarantool-version") then
            if decide (length cmdArgs < i + 2) then
              Some (Err (Errorf "panic: slice bounds out of range" []))
            else docker_args fuel i (take i cmdArgs ++ drop (i + 2) cmdArgs)
          else docker_args fuel (S i) cmdArgs
      end
  end.

Definition getVersionStringForInstall (v : Version) : string :=
  let versionStr := Join [FormatUint (Major v); FormatUint (Minor v); FormatUint (Patch v)] "." in
  match rel_Type (Version_Release v) with
  | TypeRelease => versionStr
  | _ => versionStr +:+ "-" +:+ Release_String (Version_Release v)
  end.

(** ** The files VERSION and VERSION.lua of an archive *)
Definition version_lua (packCtx : PackCtx) : string := "return '" +:+ pk_Version packCtx +:+ "'".

Definition version_file (packCtx : PackCtx) (tntVersion : Version) (rocks : option (list (string * list string)))
    : string :=
  Join ([pk_Name packCtx +:+ "=" +:+ pk_Version packCtx; "TARANTOOL=" +:+ Str tntVersion]
        ++ match rocks with
           | None => []
           | Some l =>
               omap (fun r => if decide (r.1 <> pk_Name packCtx)
                              then Some (r.1 +:+ "=" +:+ List.last r.2 "") else None) l
           end) (String newline "") +:+ String newline "".

Example normalize_samples :
  normalizeGitVersion "1.2.3-4-gdeadbeef" = Ok "1.2.3.4" /\ normalizeGitVersion "1" = Ok "1.0.0.0" /\
  normalizeGitVersion "v1.2.3-0-gabc" = Ok "1.2.3.0" /\ is_ok (normalizeGitVersion "v1.2.3") = false.
Proof. split_and!; vm_compute; reflexivity. Qed.
