(* ===== verification/Rpm.v ===== *)
(** * RPM packages ([cli/pack/rpm_header.go], [rpm_signature.go],
    [rpm_pack.go], [rpm_const.go], and [MergeFiles] of [cli/util/util.go])

    The files of the package directory are a finite map from paths to bytes.
    The program [cpio], gzip and the digests are parameters, and so is what the
    system says about the files to pack. *)
From S2P Require Import Prelude GoStrings GoPath GoOs Regexp Value Cluster Configure Version Running.
From S2P Require Import Pack RpmTags.
Open Scope go_scope.

(** ** Constants *)
Definition defaultFileUser : string := "root".
Definition defaultFileGroup : string := "root".
Definition defaultFileLang : string := "".
Definition defaultFileLinkTo : string := "".
Definition emptyDigest : string := "".
Definition hashAlgoSHA256 : Z := 8.
Definition fileFlag : Z := 16.
Definition dirFlag : Z := 0.
Definition rpmSenseLess : Z := 2.
Definition rpmSenseGreater : Z := 4.
Definition rpmSenseEqual : Z := 8.

(** The directories of a system that are not part of a package. *)
Definition systemDirs : gset string := list_to_set
  ["."; "bin"; "usr"; "usr/bin"; "usr/local"; "usr/local/bin"; "usr/share"; "usr/share/tarantool";
   "usr/lib"; "usr/lib/tmpfiles.d"; "var"; "var/lib"; "var/run"; "var/log"; "etc"; "etc/tarantool";
   "etc/tarantool/conf.d"; "etc/systemd"; "etc/systemd/system"; "usr/lib/systemd";
   "usr/lib/systemd/system"].

(** ** Files of a package *)
Record filesInfo := mkFilesInfo {
  BaseNames : list string;
  DirNames : list string;
  DirIndexes : list Z;
  FileUserNames : list string;
  FileGroupNames : list string;
  FileSizes : list Z;
  FileModes : list Z;
  FileInodes : list Z;
  FileDevices : list Z;
  FileMtimes : list Z;
  FileLangs : list string;
  FileRdevs : list Z;
  FileLinkTos : list string;
  FileFlags : list Z;
  FileDigests : list string
}.
Definition no_files : filesInfo := mkFilesInfo [] [] [] [] [] [] [] [] [] [] [] [] [] [] [].

(** What [os.Lstat] says: [st_kind], the time of the last change and the fields
    of the system's record. *)
Record file_stat := mkFileStat {
  st_kind : FileKind; st_mtime : Z; st_size : Z; st_mode : Z; st_ino : Z; st_dev : Z; st_rdev : Z }.

(** The index of a directory name, and the names with it. *)
Fixpoint find_dir (i : Z) (dirNames : list string) (fileDir : string) : option Z :=
  match dirNames with
  | [] => None
  | dirName :: rest => if decide (dirName = fileDir) then Some i else find_dir (i + 1) rest fileDir
  end.

Definition addDirAndGetIndex (dirNames : list string) (fileDir : string) : list string * Z :=
  match find_dir 0 dirNames fileDir with
  | Some i => (dirNames, i)
  | None => (dirNames ++ [fileDir], Z.of_nat (length dirNames))
  end.

Section files.
Context (Lstat : string -> result file_stat) (FileMD5Hex : string -> result string).
(** [filepath.EvalSymlinks] of the base of a path, from its directory. *)
Context (EvalSymlinksFrom : string -> result string).

Definition add_file (dirPath : string) (pkgFiles : gmap string packFileInfo) (info : filesInfo)
    (relPath : string) : result filesInfo :=
  let fullFilePath := filepath_Join [dirPath; relPath] in
  st <-? Lstat fullFilePath;;
  flags_digest <-?
    (if decide (st_kind st = RegularFile) then
       match FileMD5Hex fullFilePath with
       | Err e => Err (Wrapf "failed to get file MD5 hex: %s" [] e)
       | Ok fileDigest => Ok (fileFlag, fileDigest)
       end
     else Ok (dirFlag, emptyDigest));;
  let fileDir := "/" +:+ path_Dir relPath +:+ "/" in
  let '(dirNames, dirIndex) := addDirAndGetIndex (DirNames info) fileDir in
  let '(user, group) :=
    match pkgFiles !! relPath with
    | Some i => (pf_owner i, pf_group i)
    | None => (defaultFileUser, defaultFileGroup)
    end in
  linkTo <-? (if decide (st_kind st = Symlink) then EvalSymlinksFrom fullFilePath
              else Ok defaultFileLinkTo);;
  Ok (mkFilesInfo (BaseNames info ++ [path_Base relPath]) dirNames
        (DirIndexes info ++ [int32 dirIndex]) (FileUserNames info ++ [user])
        (FileGroupNames info ++ [group]) (FileSizes info ++ [int32 (st_size st)])
        (FileModes info ++ [int16 (st_mode st)]) (FileInodes info ++ [int32 (st_ino st)])
        (FileDevices info ++ [int32 (st_dev st)]) (FileMtimes info ++ [int32 (st_mtime st)])
        (FileLangs info ++ [defaultFileLang]) (FileRdevs info ++ [int16 (st_rdev st)])
        (FileLinkTos info ++ [linkTo]) (FileFlags info ++ [flags_digest.1])
        (FileDigests info ++ [flags_digest.2])).

Definition getFilesInfo (relPaths : list string) (dirPath : string)
    (pkgFiles : gmap string packFileInfo) : result filesInfo :=
  for_each (add_file dirPath pkgFiles) relPaths no_files.
End files.

(** [getSortedRelPaths] for the paths that [filepath.Walk] visits, relative to
    the directory. *)
Definition getSortedRelPaths `{GoSort} (walked : result (list string)) : result (list string) :=
  rmap (fun paths => sort_slice String.ltb (List.filter (fun p => bool_decide (p ∉ systemDirs)) paths))
    walked.

(** ** Dependencies and scripts *)
Definition getRPMRelation (relation : string) : Z :=
  if decide (relation = ">") then rpmSenseGreater
  else if decide (relation = ">=") then Z.lor rpmSenseGreater rpmSenseEqual
  else if decide (relation = "<") then rpmSenseLess
  else if decide (relation = "<=") then Z.lor rpmSenseLess rpmSenseEqual
  else if decide (relation = "=" \/ relation = "==") then rpmSenseEqual
  else 0.

(** The rows of the three arrays for one dependency. *)
Definition rpm_dep (dep : PackDependency) : list (string * Z * string) :=
  match dep_Relations dep with
  | [] => [(dep_Name dep, 0%Z, "")]
  | rs => map (fun r => (dep_Name dep, getRPMRelation (dep_Relation r), dep_Version r)) rs
  end.

Definition tagRequireFlags : Z := 1048.
Definition tagRequireName : Z := 1049.
Definition tagRequireVersion : Z := 1050.
Definition tagPrein : Z := 1023.
Definition tagPostin : Z := 1024.

Definition addDependenciesRPM (rpmHeader : rpmTagSetType) (deps : PackDependencies) : rpmTagSetType :=
  match deps with
  | [] => rpmHeader
  | _ =>
      let rows := concat (map rpm_dep deps) in
      addTags rpmHeader
        [mkTag tagRequireName rpmTypeStringArray (StringsValue (map (fun r => r.1.1) rows));
         mkTag tagRequireFlags rpmTypeInt32 (Int32Values (map (fun r => r.1.2) rows));
         mkTag tagRequireVersion rpmTypeStringArray (StringsValue (map (fun r => r.2) rows))]
  end.

(** The script after the installation is read when there is one before it. *)
Definition addPreAndPostInstallScriptsRPM (ReadFile : string -> result string)
    (rpmPreInstScriptContent postInstScriptContent : string) (rpmHeader : rpmTagSetType)
    (preInst postInst : string) : result rpmTagSetType :=
  pre <-? (if decide (preInst <> "") then
             match ReadFile preInst with
             | Err e => Err (Wrapf "error reading preinst file %q: %s" [preInst] e)
             | Ok b => Ok (rpmPreInstScriptContent +:+ String newline b)
             end
           else Ok rpmPreInstScriptContent);;
  post <-? (if decide (preInst <> "") then
              match ReadFile postInst with
              | Err e => Err (Wrapf "error reading postinst file %q: %s" [postInst] e)
              | Ok b => Ok (postInstScriptContent +:+ String newline b)
              end
            else Ok postInstScriptContent);;
  Ok (addTags rpmHeader [mkTag tagPrein rpmTypeString (StringValue pre);
                         mkTag tagPostin rpmTypeString (StringValue post)]).

Definition getArch (GOARCH : string) : string :=
  if decide (GOARCH = "amd64") then "x86_64" else if decide (GOARCH = "386") then "i386" else "noarch".

(** ** The header *)
Definition str (id : Z) (s : string) : rpmTagType := mkTag id rpmTypeString (StringValue s).
Definition strs (id : Z) (l : list string) : rpmTagType := mkTag id rpmTypeStringArray (StringsValue l).
Definition i32s (id : Z) (l : list Z) : rpmTagType := mkTag id rpmTypeInt32 (Int32Values l).
Definition i16s (id : Z) (l : list Z) : rpmTagType := mkTag id rpmTypeInt16 (Int16Values l).

Definition header_tags (name versionStr releaseStr arch : string) (i : filesInfo) (payloadSize : Z)
    (payloadDigest : string) : rpmTagSetType :=
  [str 1000 name; str 1001 versionStr; str 1002 releaseStr; str 1004 ""; str 1005 "";
   str 1014 "N/A"; str 1016 "None"; str 1021 "linux"; str 1022 arch;
   str 1124 "cpio"; str 1125 "gzip"; str 1126 "5"; str 1085 "/bin/sh"; str 1086 "/bin/sh";
   strs 1118 (DirNames i); strs 1117 (BaseNames i); i32s 1116 (DirIndexes i);
   strs 1039 (FileUserNames i); strs 1040 (FileGroupNames i); i32s 1028 (FileSizes i);
   i16s 1030 (FileModes i); i32s 1096 (FileInodes i); i32s 1095 (FileDevices i);
   i16s 1033 (FileRdevs i); i32s 1034 (FileMtimes i); i32s 1037 (FileFlags i);
   strs 1097 (FileLangs i); strs 1035 (FileDigests i); strs 1036 (FileLinkTos i);
   i32s 1009 [int32 payloadSize]; strs 5092 [payloadDigest]; i32s 5093 [int32 hashAlgoSHA256]].

(** ** The files of the package directory *)
Notation disk := (gmap string (list Z)).

Section rpm.
Context (CheckVersionFromGit : string -> result string) (cwd : result string).
Context (Lstat : string -> result file_stat) (FileMD5Hex : string -> result string).
Context (EvalSymlinksFrom : string -> result string) (ReadFile : string -> result string).
Context (cpio : string -> list string -> result (list Z)) (gzip : list Z -> result (list Z)).
Context (sha256 sha1 : list Z -> string) (md5 : list Z -> list Z).
Context (rpmPreInstScriptContent postInstScriptContent GOARCH : string).
(** [os.Create], and the dependencies of the package. *)
Context (create_error : string -> option error) (deps : result PackDependencies).

Definition open_file (d : disk) (path : string) : result (list Z) :=
  match d !! path with Some b => Ok b | None => Err ErrNotExist end.

Definition create (d : disk) (path : string) (content : list Z) : result disk :=
  match create_error path with Some e => Err e | None => Ok (<[path := content]> d) end.

Definition genRpmHeader (d : disk) (relPaths : list string) (cpioPath compresedCpioPath dir : string)
    (packCtx : PackCtx) (env : TtEnvOpts) : result (rpmTagSetType * PackCtx) :=
  payload <-? rwrap "failed to get payload digest: %s" [] (open_file d compresedCpioPath);;
  cpioFile <-? rwrap "failed to get payload size: %s" [] (open_file d cpioPath);;
  info <-? rwrap "failed to get files info: %s" []
             (getFilesInfo Lstat FileMD5Hex EvalSymlinksFrom relPaths dir
                (rd_pkgFilesInfo (pk_RpmDeb packCtx)));;
  let '(versionString, packCtx) := getVersion CheckVersionFromGit packCtx env defaultVersion in
  ver <-? Parse versionString;;
  named <-? getPackageFileName CheckVersionFromGit cwd packCtx env "" false;;
  let '(name, packCtx) := named in
  let versionStr := Join [FormatUint (Major ver); FormatUint (Minor ver); FormatUint (Patch ver)] "." in
  let tags := addTags [] (header_tags name versionStr (FormatUint (rel_Num (Version_Release ver)))
                            (getArch GOARCH) info (blen cpioFile) (sha256 payload)) in
  deps <-? deps;;
  tags <-? addPreAndPostInstallScriptsRPM ReadFile rpmPreInstScriptContent postInstScriptContent
             (addDependenciesRPM tags deps) (rd_PreInst (pk_RpmDeb packCtx))
             (rd_PostInst (pk_RpmDeb packCtx));;
  Ok (tags, packCtx).

Definition genSignature (d : disk) (rpmBodyFilePath rpmHeaderFilePath cpioPath : string)
    : result rpmTagSetType :=
  header <-? rwrap "failed to get header sha1: %s" [] (open_file d rpmHeaderFilePath);;
  body <-? rwrap "failed to get RPM body size: %s" [] (open_file d rpmBodyFilePath);;
  cpioFile <-? rwrap "failed to get CPIO payload size: %s" [] (open_file d cpioPath);;
  Ok [str 269 (sha1 header); i32s 1000 [int32 (blen body)]; i32s 1007 [int32 (blen cpioFile)];
      mkTag 1004 rpmTypeBin (BytesValue (md5 body))].

(** [util.MergeFiles]: a source that cannot be opened removes the result. *)
Fixpoint merge_sources (d : disk) (srcFilePaths : list string) : result (list Z) :=
  match srcFilePaths with
  | [] => Ok []
  | srcFilePath :: rest =>
      src <-? rwrap "failed to open source file %s: %s" [srcFilePath] (open_file d srcFilePath);;
      more <-? merge_sources d rest;;
      Ok (src ++ more)
  end.

Definition MergeFiles (d : disk) (destFilePath : string) (srcFilePaths : list string) : result disk :=
  d <-? rwrap "failed to create result file %s: %s" [destFilePath] (create d destFilePath []);;
  merged <-? merge_sources d srcFilePaths;;
  Ok (<[destFilePath := merged]> d).

Definition packRpm (d : disk) (walked : result (list string)) (packageDir resPackagePath : string)
    (packCtx : PackCtx) (env : TtEnvOpts) `{GoSort} : result disk :=
  relPaths <-? rwrap "failed to get sorted package files list: %s" [] (getSortedRelPaths walked);;
  let cpioPath := filepath_Join [packageDir; "cpio"] in
  d <-? rwrap "failed to pack CPIO: %s" [] (create d cpioPath []);;
  archive <-? rwrap "failed to pack CPIO: %s" [] (cpio packageDir relPaths);;
  let d := <[cpioPath := archive]> d in
  let compresedCpioPath := filepath_Join [packageDir; "cpio.gz"] in
  source <-? rwrap "failed to compress CPIO: %s" [] (open_file d cpioPath);;
  d <-? rwrap "failed to compress CPIO: %s" [] (create d compresedCpioPath []);;
  compressed <-? rwrap "failed to compress CPIO: %s" [] (gzip source);;
  let d := <[compresedCpioPath := compressed]> d in
  header <-? rwrap "failed to gen RPM header: %s" []
               (genRpmHeader d relPaths cpioPath compresedCpioPath packageDir packCtx env);;
  let '(rpmHeader, packCtx) := header in
  packedHeader <-? rwrap "failed to pack RPM header: %s" [] (packTagSet rpmHeader headerImmutable);;
  let rpmHeaderFilePath := filepath_Join [packageDir; "header"] in
  d <-? rwrap "failed to create RPM body file: %s" [] (create d rpmHeaderFilePath packedHeader);;
  let rpmBodyFilePath := filepath_Join [packageDir; "body"] in
  d <-? rwrap "failed to concat RPM header with compressed payload: %s" []
          (MergeFiles d rpmBodyFilePath [rpmHeaderFilePath; compresedCpioPath]);;
  signature <-? rwrap "failed to gen RPM signature: %s" []
                  (genSignature d rpmBodyFilePath rpmHeaderFilePath cpioPath);;
  packedSignature <-? rwrap "failed to pack RPM header: %s" [] (packTagSet signature headerSignatures);;
  let packedSignature := alignData packedSignature 8 in
  named <-? getPackageFileName CheckVersionFromGit cwd packCtx env "" false;;
  lead <-? genRpmLead named.1;;
  let leadFilePath := filepath_Join [packageDir; "lead"] in
  d <-? rwrap "failed to create RPM lead file: %s" [] (create d leadFilePath (lead ++ packedSignature));;
  rwrap "failed to write result RPM file: %s" []
    (MergeFiles d resPackagePath [leadFilePath; rpmBodyFilePath]).
End rpm.
