(* ===== verification/PackProps.v ===== *)
(** * What packing guarantees

    The arrays of an RPM header describe the files of the package, the parts of
    an RPM file are where a reader looks for them, its signature is that of what
    follows it, and the arguments of a container's command line are those
    without the flags of docker. *)
From S2P Require Import Prelude GoStrings GoPath GoOs Regexp Value Cluster Configure Version.
From S2P Require Import Running Pack RpmTags RpmProps Rpm.

(** ** Files of a package *)
Section files.
Context (Lstat : string -> result file_stat) (FileMD5Hex : string -> result string).
Context (EvalSymlinksFrom : string -> result string).

(** Row [k] of the arrays describes the path [p]. *)
Record describes (dir : string) (pkgFiles : gmap string packFileInfo) (info : filesInfo) (k : nat)
    (p : string) : Prop := {
  d_dir : exists i, DirIndexes info !! k = Some i /\ (0 <= i)%Z /\
    DirNames info !! Z.to_nat i = Some ("/" +:+ path_Dir p +:+ "/");
  d_base : BaseNames info !! k = Some (path_Base p);
  d_owner : FileUserNames info !! k = Some (from_option pf_owner "root" (pkgFiles !! p)) /\
            FileGroupNames info !! k = Some (from_option pf_group "root" (pkgFiles !! p));
  d_stat : exists st, Lstat (filepath_Join [dir; p]) = Ok st /\
    FileSizes info !! k = Some (int32 (st_size st)) /\
    FileModes info !! k = Some (int16 (st_mode st)) /\
    FileMtimes info !! k = Some (int32 (st_mtime st)) /\
    (st_kind st = RegularFile -> exists digest, FileMD5Hex (filepath_Join [dir; p]) = Ok digest /\
       FileFlags info !! k = Some 16%Z /\ FileDigests info !! k = Some digest) /\
    (st_kind st <> RegularFile -> FileFlags info !! k = Some 0%Z /\ FileDigests info !! k = Some "") /\
    (st_kind st = Symlink -> exists target, EvalSymlinksFrom (filepath_Join [dir; p]) = Ok target /\
       FileLinkTos info !! k = Some target)
}.

(** All arrays have a row for every path, and directories are listed once. *)
Record shape (info : filesInfo) (n : nat) : Prop := {
  sh_lengths : Forall (fun m => m = n)
    [length (BaseNames info); length (DirIndexes info); length (FileUserNames info);
     length (FileGroupNames info); length (FileSizes info); length (FileModes info);
     length (FileInodes info); length (FileDevices info); length (FileMtimes info);
     length (FileLangs info); length (FileRdevs info); length (FileLinkTos info);
     length (FileFlags info); length (FileDigests info)];
  sh_dirs : NoDup (DirNames info);
  sh_count : length (DirNames info) <= n
}.

Lemma find_dir_spec i l d :
  match find_dir i l d with
  | Some j => (i <= j)%Z /\ l !! Z.to_nat (j - i) = Some d
  | None => d ∉ l
  end.
Proof.
  revert i. induction l as [|x l IH]; intros i; cbn [find_dir]; [apply not_elem_of_nil|].
  case_decide as Hx.
  - subst. rewrite Z.sub_diag. split; [lia|done].
  - specialize (IH (i + 1)%Z). destruct (find_dir (i + 1) l d) as [j|].
    + destruct IH as [Hj Hl]. split; [lia|].
      replace (Z.to_nat (j - i)) with (S (Z.to_nat (j - (i + 1)))) by lia. done.
    + apply not_elem_of_cons. auto.
Qed.

Lemma addDir_spec dirs d dirs' i :
  addDirAndGetIndex dirs d = (dirs', i) -> NoDup dirs ->
  (0 <= i < Z.of_nat (S (length dirs)))%Z /\ dirs' !! Z.to_nat i = Some d /\ NoDup dirs' /\
  (exists more, dirs' = dirs ++ more) /\ length dirs' <= S (length dirs).
Proof.
  unfold addDirAndGetIndex. pose proof (find_dir_spec 0 dirs d) as Hf. intros Ha Hnd.
  destruct (find_dir 0 dirs d) as [j|]; injection Ha as <- <-.
  - destruct Hf as [Hj Hl]. rewrite Z.sub_0_r in Hl. pose proof (lookup_lt_Some _ _ _ Hl).
    split_and!; [lia..|done|done|by exists []; rewrite app_nil_r|lia].
  - split_and!; [lia..| | | |].
    + rewrite Nat2Z.id. by apply list_lookup_middle.
    + apply NoDup_app. split_and!; [done| |apply NoDup_singleton].
      intros x Hx ->%list_elem_of_singleton. done.
    + by eexists.
    + rewrite length_app. cbn. lia.
Qed.

Lemma int32_small z : (0 <= z < 2 ^ 31)%Z -> int32 z = z.
Proof. intros Hz. apply int_of_fits; [lia|]. rewrite fits_4. lia. Qed.

(** Rows stay when another is added. *)
Lemma lookup_snoc_old {A} (l : list A) x k y : l !! k = Some y -> (l ++ [x]) !! k = Some y.
Proof. intros Hl. by apply lookup_app_l_Some. Qed.

Lemma lookup_snoc_new {A} (l : list A) x k : length l = k -> (l ++ [x]) !! k = Some x.
Proof. intros <-. by apply list_lookup_middle. Qed.

Lemma add_file_ok dir pkg info p info' n :
  add_file Lstat FileMD5Hex EvalSymlinksFrom dir pkg info p = Ok info' ->
  shape info n -> (Z.of_nat (S n) < 2 ^ 31)%Z ->
  shape info' (S n) /\ describes dir pkg info' n p /\
  forall k q, describes dir pkg info k q -> describes dir pkg info' k q.
Proof.
  unfold add_file. intros (st & Hst & Hf)%rbind_Ok [Hlen Hnd Hcnt] Hn.
  apply rbind_Ok in Hf as (fd & Hfd & Hf).
  destruct (addDirAndGetIndex _ _) as [dirs i] eqn:Hd.
  apply addDir_spec in Hd as (Hi & Hdi & Hnd' & (more & Hmore) & Hlen'); [|done].
  rewrite (surjective_pairing (match pkg !! p with Some _ => _ | None => _ end)) in Hf.
  apply rbind_Ok in Hf as (link & Hlink & [= <-]).
  repeat (apply Forall_cons in Hlen as [? Hlen]). clear Hlen. split_and!.
  - split; cbn; [|done|lia]. repeat constructor; rewrite length_app; cbn; lia.
  - split; cbn.
    + exists (int32 i). rewrite int32_small by lia. split; [by apply lookup_snoc_new|]. split; [lia|done].
    + by apply lookup_snoc_new.
    + destruct (pkg !! p); split; by apply lookup_snoc_new.
    + exists st. split; [done|]. split_and!; [by apply lookup_snoc_new..| | |].
      * intros Hk. rewrite decide_True in Hfd by done. destruct (FileMD5Hex _) as [digest|]; [|done].
        injection Hfd as <-. exists digest. by split_and!; [|apply lookup_snoc_new..].
      * intros Hk. rewrite decide_False in Hfd by done. injection Hfd as <-.
        by split; apply lookup_snoc_new.
      * intros Hk. rewrite decide_True in Hlink by done. exists link. by split; [|apply lookup_snoc_new].
  - intros k q [(j & Hj & Hj0 & Hdj) Hb [Ho Hg] (s & Hs & S1 & S2 & S3 & S4 & S5 & S6)]. split; cbn.
    + exists j. split; [by apply lookup_snoc_old|]. split; [done|]. rewrite Hmore.
      by apply lookup_app_l_Some.
    + by apply lookup_snoc_old.
    + split; by apply lookup_snoc_old.
    + exists s. split; [done|]. split_and!; [by apply lookup_snoc_old..| | |].
      * intros Hk. destruct (S4 Hk) as (dg & ? & ? & ?). exists dg. by split_and!; [|apply lookup_snoc_old..].
      * intros Hk. destruct (S5 Hk). by split; apply lookup_snoc_old.
      * intros Hk. destruct (S6 Hk) as (tg & ? & ?). exists tg. by split; [|apply lookup_snoc_old].
Qed.

Lemma add_files_ok dir pkg paths info info' n :
  for_each (add_file Lstat FileMD5Hex EvalSymlinksFrom dir pkg) paths info = Ok info' ->
  shape info n -> (Z.of_nat (n + length paths) < 2 ^ 31)%Z ->
  shape info' (n + length paths) /\
  (forall k p, paths !! k = Some p -> describes dir pkg info' (n + k) p) /\
  forall k q, describes dir pkg info k q -> describes dir pkg info' k q.
Proof.
  revert info n. induction paths as [|p paths IH]; intros info n; cbn [for_each length].
  { intros [= <-] Hs _. rewrite Nat.add_0_r. done. }
  intros (info1 & Hadd & Hrest)%rbind_Ok Hs Hn.
  destruct (add_file_ok _ _ _ _ _ n Hadd Hs) as (Hs1 & Hp & Hold); [lia|].
  destruct (IH _ (S n) Hrest Hs1) as (Hs2 & Hnew & Hold'); [lia|].
  replace (n + S (length paths)) with (S n + length paths) by lia. split_and!; [done| |by auto].
  intros [|k] q Hq; [injection Hq as <-; rewrite Nat.add_0_r; auto|].
  replace (n + S k) with (S n + k) by lia. by apply Hnew.
Qed.

(** The parallel lists of a package have one entry per file, the
    directory names do not repeat, the name of the directory at the index of a
    file is the directory of the file, and each file has its base name, owner,
    digest, flags, link target and the attributes of its stat (sizes and times
    at their 32 bits). *)
Theorem getFilesInfo_describes paths dir pkg info :
  getFilesInfo Lstat FileMD5Hex EvalSymlinksFrom paths dir pkg = Ok info ->
  (Z.of_nat (length paths) < 2 ^ 31)%Z ->
  shape info (length paths) /\
  forall k p, paths !! k = Some p -> describes dir pkg info k p.
Proof.
  intros Hg Hn. destruct (add_files_ok _ _ _ _ _ 0 Hg) as (Hs & Hp & _); [|lia|done].
  split; cbn; [by repeat constructor|constructor|lia].
Qed.
End files.

(** ** The command line in a container *)
Fixpoint without_docker (args : list string) : option (list string) :=
  match args with
  | [] => Some []
  | arg :: rest =>
      if decide (arg = "--use-docker") then without_docker rest
      else if decide (arg = "--tarantool-version") then
        match rest with [] => None | _ :: rest => without_docker rest end
      else cons arg <$> without_docker rest
  end.

(** The loop ends after at most as many rounds as there are arguments. *)
Lemma docker_args_without fuel pre args :
  length args <= fuel ->
  docker_args fuel (length pre) (pre ++ args) =
  Some (match without_docker args with
        | Some l => Ok (pre ++ l)
        | None => Err (Errorf "panic: slice bounds out of range" [])
        end).
Proof.
  revert pre args. induction fuel as [|fuel IH]; intros pre [|arg args] Hf; cbn [length] in Hf; try lia;
    cbn [docker_args without_docker].
  { by rewrite lookup_ge_None_2, app_nil_r by (rewrite app_nil_r; lia). }
  { by rewrite lookup_ge_None_2, app_nil_r by (rewrite app_nil_r; lia). }
  rewrite list_lookup_middle by done. rewrite take_app_length.
  destruct (decide (arg = "--use-docker")).
  { replace (drop (length pre + 1) (pre ++ arg :: args)) with args by by rewrite drop_app_add.
    apply IH. lia. }
  destruct (decide (arg = "--tarantool-version")).
  - destruct args as [|v args].
    + rewrite decide_True; [done|]. rewrite length_app. cbn. lia.
    + rewrite decide_False by (rewrite length_app; cbn; lia).
      replace (drop (length pre + 2) (pre ++ arg :: v :: args)) with args by by rewrite drop_app_add.
      apply IH. cbn in Hf. lia.
  - replace (pre ++ arg :: args) with ((pre ++ [arg]) ++ args) by by rewrite <- (assoc_L (++)).
    replace (S (length pre)) with (length (pre ++ [arg])) by (rewrite length_app; cbn; lia).
    rewrite IH by lia. destruct (without_docker args); cbn; [|done]. by rewrite <- (assoc_L (++)).
Qed.

(** ** RPM files *)
Section rpm.
Context (CheckVersionFromGit : string -> result string) (cwd : result string).
Context (Lstat : string -> result file_stat) (FileMD5Hex : string -> result string).
Context (EvalSymlinksFrom : string -> result string) (ReadFile : string -> result string).
Context (cpio : string -> list string -> result (list Z)) (gzip : list Z -> result (list Z)).
Context (sha256 sha1 : list Z -> string) (md5 : list Z -> list Z).
Context (rpmPreInstScriptContent postInstScriptContent GOARCH : string).
Context (create_error : string -> option error) (deps : result PackDependencies) `{GoSort}.

Notation pack := (packRpm CheckVersionFromGit cwd Lstat FileMD5Hex EvalSymlinksFrom ReadFile cpio gzip
  sha256 sha1 md5 rpmPreInstScriptContent postInstScriptContent GOARCH create_error deps).

Lemma rwrap_Ok {A} f args (r : result A) a : rwrap f args r = Ok a -> r = Ok a.
Proof. by destruct r. Qed.

Lemma create_Ok d path c d' : create create_error d path c = Ok d' -> d' = <[path := c]> d.
Proof. unfold create. destruct (create_error path); [done|]. by intros [= <-]. Qed.

Lemma open_Ok d path b : open_file d path = Ok b -> d !! path = Some b.
Proof. unfold open_file. destruct (d !! path); [|done]. by intros [= <-]. Qed.

(** Merging two files into a third. *)
Lemma MergeFiles_two d dest a b d' ca cb :
  MergeFiles create_error d dest [a; b] = Ok d' -> dest <> a -> dest <> b ->
  d !! a = Some ca -> d !! b = Some cb -> d' = <[dest := ca ++ cb]> d.
Proof.
  unfold MergeFiles. intros (d1 & Hd1 & Hm)%rbind_Ok Ha Hb Hca Hcb.
  apply rwrap_Ok, create_Ok in Hd1 as ->. cbn [merge_sources] in Hm. unfold open_file in Hm.
  rewrite !lookup_insert_ne, Hca, Hcb in Hm by done. cbn in Hm. injection Hm as <-.
  by rewrite insert_insert_eq, app_nil_r.
Qed.

Lemma Join_inj d a b : d <> "" -> name a -> name b -> filepath_Join [d; a] = filepath_Join [d; b] -> a = b.
Proof.
  intros Hd Ha Hb. rewrite !Join_name by done. pose proof (elems_normal d) as Hn.
  intros [_ [= He]]%render_inj; [done|by apply normal_cons..].
Qed.

(** The parts of the result. *)
Definition signature_tags (header payload archive : list Z) : rpmTagSetType :=
  [mkTag 269 rpmTypeString (StringValue (sha1 header));
   mkTag 1000 rpmTypeInt32 (Int32Values [int32 (blen (header ++ payload))]);
   mkTag 1007 rpmTypeInt32 (Int32Values [int32 (blen archive)]);
   mkTag 1004 rpmTypeBin (BytesValue (md5 (header ++ payload)))].

(** The header begins with the tags of the files, the archive and the payload. *)
Definition describes_package (relPaths : list string) (dir : string)
    (pkgFiles : gmap string packFileInfo) (archive payload : list Z) (tags : rpmTagSetType) : Prop :=
  exists info name ver rel rest,
    getFilesInfo Lstat FileMD5Hex EvalSymlinksFrom relPaths dir pkgFiles = Ok info /\
    tags = header_tags name ver rel (getArch GOARCH) info (blen archive) (sha256 payload) ++ rest.

Lemma addPreAndPost_app tags pre post tags' :
  addPreAndPostInstallScriptsRPM ReadFile rpmPreInstScriptContent postInstScriptContent tags pre post
    = Ok tags' -> exists rest, tags' = tags ++ rest.
Proof.
  unfold addPreAndPostInstallScriptsRPM, addTags.
  intros (pr & _ & (po & _ & [= <-])%rbind_Ok)%rbind_Ok. eauto.
Qed.

Lemma addDependenciesRPM_app tags ds : exists rest, addDependenciesRPM tags ds = tags ++ rest.
Proof.
  unfold addDependenciesRPM, addTags. destruct ds; [exists []; by rewrite app_nil_r|eauto].
Qed.

Lemma genRpmHeader_describes d rels pc pz dir packCtx env tags ctx archive payload :
  genRpmHeader CheckVersionFromGit cwd Lstat FileMD5Hex EvalSymlinksFrom ReadFile sha256
    rpmPreInstScriptContent postInstScriptContent GOARCH deps d rels pc pz dir packCtx env
    = Ok (tags, ctx) ->
  d !! pz = Some payload -> d !! pc = Some archive ->
  describes_package rels dir (rd_pkgFilesInfo (pk_RpmDeb packCtx)) archive payload tags.
Proof.
  unfold genRpmHeader, open_file. intros Hg Hz Hc. rewrite Hz, Hc in Hg. cbn [rwrap rbind] in Hg.
  apply rbind_Ok in Hg as (info & Hinfo%rwrap_Ok & Hg). destruct (getVersion _ _ _ _) as [v p'].
  apply rbind_Ok in Hg as (ver & _ & Hg). apply rbind_Ok in Hg as ([nm p''] & _ & Hg).
  apply rbind_Ok in Hg as (ds & _ & Hg). apply rbind_Ok in Hg as (ts & Hts & [= <- _]).
  apply addPreAndPost_app in Hts as (r2 & ->).
  destruct (addDependenciesRPM_app (addTags [] (header_tags nm
    (Join [FormatUint (Major ver); FormatUint (Minor ver); FormatUint (Patch ver)] ".")
    (FormatUint (rel_Num (Version_Release ver))) (getArch GOARCH) info (blen archive)
    (sha256 payload))) ds) as (r1 & ->).
  eexists info, nm, _, _, (r1 ++ r2). split; [done|]. unfold addTags. rewrite app_nil_l.
  by rewrite <- (assoc_L (++)).
Qed.

Lemma packRpm_parts d walked dir res packCtx env d' :
  pack d walked dir res packCtx env = Ok d' ->
  dir <> "" -> res <> filepath_Join [dir; "lead"] -> res <> filepath_Join [dir; "body"] ->
  exists name lead tags header payload archive signature relPaths,
    getSortedRelPaths walked = Ok relPaths /\ cpio dir relPaths = Ok archive /\ gzip archive = Ok payload /\
    genRpmLead name = Ok lead /\ packTagSet tags 63 = Ok header /\
    describes_package relPaths dir (rd_pkgFilesInfo (pk_RpmDeb packCtx)) archive payload tags /\
    packTagSet (signature_tags header payload archive) 62 = Ok signature /\
    d' !! res = Some (lead ++ alignData signature 8 ++ header ++ payload).
Proof.
  intros Hp Hdir Hl Hb. unfold packRpm in Hp.
  assert (forall a b, name a -> name b -> a <> b -> filepath_Join [dir; a] <> filepath_Join [dir; b]) as Hne
    by (intros a b Ha Hb' Hab He; by apply Join_inj in He).
  assert (name "cpio" /\ name "cpio.gz" /\ name "header" /\ name "body" /\ name "lead") as (N1 & N2 & N3 & N4 & N5)
    by by repeat split.
  set (pc := filepath_Join [dir; "cpio"]) in *. set (pz := filepath_Join [dir; "cpio.gz"]) in *.
  set (ph := filepath_Join [dir; "header"]) in *. set (pb := filepath_Join [dir; "body"]) in *.
  set (pl := filepath_Join [dir; "lead"]) in *.
  assert (ph <> pz /\ ph <> pc /\ pz <> pc /\ pb <> ph /\ pb <> pz /\ pb <> pc /\ pl <> pb)
    as (I1 & I2 & I3 & I4 & I5 & I6 & I7) by (split_and!; by apply Hne).
  clearbody pc pz ph pb pl. clear Hne.
  apply rbind_Ok in Hp as (rels & Hrels%rwrap_Ok & Hp).
  apply rbind_Ok in Hp as (d1 & Hd1%rwrap_Ok%create_Ok & Hp).
  apply rbind_Ok in Hp as (archive & Ha%rwrap_Ok & Hp).
  apply rbind_Ok in Hp as (source & Hs%rwrap_Ok%open_Ok & Hp).
  apply rbind_Ok in Hp as (d2 & Hd2%rwrap_Ok%create_Ok & Hp).
  apply rbind_Ok in Hp as (payload & Hz%rwrap_Ok & Hp).
  apply rbind_Ok in Hp as ([tags ctx] & Htags%rwrap_Ok & Hp).
  apply rbind_Ok in Hp as (header & Hh%rwrap_Ok & Hp).
  apply rbind_Ok in Hp as (d3 & Hd3%rwrap_Ok%create_Ok & Hp).
  apply rbind_Ok in Hp as (d4 & Hd4%rwrap_Ok & Hp).
  apply rbind_Ok in Hp as (sigtags & Hsg%rwrap_Ok & Hp).
  apply rbind_Ok in Hp as (signature & Hsig%rwrap_Ok & Hp).
  apply rbind_Ok in Hp as ([nm ctx'] & _ & Hp).
  apply rbind_Ok in Hp as (lead & Hld & Hp).
  apply rbind_Ok in Hp as (d5 & Hd5%rwrap_Ok%create_Ok & Hp%rwrap_Ok).
  assert (source = archive) as -> by (rewrite lookup_insert_eq in Hs; congruence).
  assert (d3 !! ph = Some header /\ d3 !! pz = Some payload /\ d3 !! pc = Some archive) as (Eh & Ez & Ec).
  { subst d3 d2 d1. by split_and!; simplify_map_eq. }
  apply (genRpmHeader_describes _ _ _ _ _ _ _ _ _ archive payload) in Htags;
    [|subst d2 d1; by simplify_map_eq..].
  apply (MergeFiles_two _ _ _ _ _ header payload) in Hd4; [|done..]. subst d4.
  assert (sigtags = signature_tags header payload archive) as ->.
  { unfold genSignature, open_file in Hsg. rewrite (lookup_insert_ne _ pb ph), (lookup_insert_ne _ pb pc), Eh, Ec, lookup_insert_eq in Hsg by done.
    cbn in Hsg. by injection Hsg as <-. }
  apply (MergeFiles_two _ _ _ _ _ (lead ++ alignData signature 8) (header ++ payload)) in Hp; [|done..| |].
  - subst d'. exists nm, lead, tags, header, payload, archive, signature, rels. split_and!; try done.
    by rewrite lookup_insert_eq, <- (assoc_L (++)).
  - subst d5. by simplify_map_eq.
  - subst d5. by simplify_map_eq.
Qed.
Lemma signature_wf header payload archive :
  no_nul (sha1 header) -> Forall tag_wf (signature_tags header payload archive).
Proof.
  intros Hs. assert (forall z, fits 4 (int32 z)) as Hf by (intros z; apply int_of_range; lia).
  unfold signature_tags, tag_wf. rewrite !Forall_cons. cbn [tag_ID tag_Value]. rewrite !fits_4.
  split_and!; try (apply Forall_singleton; apply Hf); try done; lia.
Qed.

Lemma alignData_8 data : exists pad, alignData data 8 = data ++ pad /\ (blen (alignData data 8) mod 8 = 0)%Z.
Proof. by apply alignData_aligned. Qed.

(** C11: A package that packRpm writes is a lead of 96 bytes, a signature
    padded to eight bytes that reads back with the sizes and digests of the
    rest, a header whose first tags describe the sorted files, the archive and
    the payload, and the compressed payload, in this order and nothing else;
    header and signature read back tag by tag when the package is smaller than
    2 GiB. *)
Theorem packRpm_readable d walked dir res packCtx env d' :
  pack d walked dir res packCtx env = Ok d' ->
  dir <> "" -> res <> filepath_Join [dir; "lead"] -> res <> filepath_Join [dir; "body"] ->
  (forall b, no_nul (sha1 b)) ->
  exists lead signature pad relPaths tags header payload archive,
    let file := lead ++ signature ++ pad ++ header ++ payload in
    d' !! res = Some file /\ length lead = 96 /\ (blen (lead ++ signature ++ pad) mod 8 = 0)%Z /\
    getSortedRelPaths walked = Ok relPaths /\ cpio dir relPaths = Ok archive /\
    gzip archive = Ok payload /\
    describes_package relPaths dir (rd_pkgFilesInfo (pk_RpmDeb packCtx)) archive payload tags /\
    ((blen file < 2 ^ 31)%Z ->
     reads_back (signature_tags header payload archive) 62 signature (pad ++ header ++ payload) /\
     (Forall tag_wf tags -> reads_back tags 63 header payload)).
Proof.
  intros Hp Hdir Hl Hb Hsha.
  apply packRpm_parts in Hp as (nm & lead & tags & header & payload & archive & signature & rels
    & Hrels & Hcpio & Hgz & Hld & Hh & Hdesc & Hsig & Hres); [|done..].
  destruct (alignData_8 signature) as (pad & Hpad & Hal). rewrite Hpad in *.
  exists lead, signature, pad, rels, tags, header, payload, archive.
  pose proof (genRpmLead_size nm) as Hsz. rewrite Hld in Hsz. destruct Hsz as (_ & H96 & _).
  split_and!; [by rewrite Hres, <- (assoc_L (++) signature)|done| |done..|].
  { rewrite blen_app. unfold blen at 1. rewrite H96. rewrite Z.add_mod, Hal by lia. done. }
  intros Hlen. rewrite !blen_app in Hlen.
  assert (forall b, (0 <= blen b)%Z) as Hpos by (intros; unfold blen; lia).
  pose proof (Hpos lead). pose proof (Hpos payload). pose proof (Hpos header). pose proof (Hpos pad).
  pose proof (Hpos signature). split.
  - apply packTagSet_read; [done|by apply signature_wf|by rewrite fits_4|]. lia.
  - intros Hwf. apply packTagSet_read; [done|done|by rewrite fits_4|lia].
Qed.
End rpm.

(** ** Samples *)
Definition sample_stat (p : string) : result file_stat :=
  Ok (mkFileStat (if HasSuffix p ".lua" then RegularFile else Directory) 1700000000 10 33188 1 2 0).

Lemma getFilesInfo_describes_witness :
  exists info,
    getFilesInfo sample_stat (fun _ => Ok "d41d") (fun p => Ok p) ["opt/app"; "opt/app/init.lua"; "opt/x.lua"]
      "/tmp/p" {["opt/app" := mkPackFileInfo "tarantool" "tarantool"]} = Ok info /\
    describes sample_stat (fun _ => Ok "d41d") (fun p => Ok p) "/tmp/p"
      {["opt/app" := mkPackFileInfo "tarantool" "tarantool"]} info 2 "opt/x.lua".
Proof.
  eexists. split; [vm_compute; reflexivity|].
  eapply (getFilesInfo_describes sample_stat (fun _ => Ok "d41d") (fun p => Ok p)
    ["opt/app"; "opt/app/init.lua"; "opt/x.lua"] "/tmp/p"); [vm_compute; reflexivity|done|done].
Defined.

Definition sample_pack_ctx : PackCtx :=
  mkPackCtx Rpm "app" "1.2.3" None "" false false false "" false false
    (mkRpmDebCtx false "" "" [] "" "" ∅) false false "" "" ∅ "".

Definition sample_rpm : result (gmap string (list Z)) :=
  packRpm (fun _ => Err ErrNotExist) (Ok "/tmp") sample_stat (fun _ => Ok "d41d") (fun p => Ok p)
    (fun _ => Err ErrNotExist) (fun _ l => Ok (concat (map bytes_of l))) (fun b => Ok b)
    (fun _ => "ab") (fun _ => "cd") (fun _ => [1; 2]%Z) "id" "" "amd64" (fun _ => None) (Ok [])
    ∅ (Ok ["."; "opt"; "opt/init.lua"]) "/tmp/p" "/tmp/app.rpm" sample_pack_ctx getDefaultTtEnvOpts.

Lemma packRpm_readable_witness :
  exists d' file, sample_rpm = Ok d' /\ d' !! "/tmp/app.rpm" = Some file /\ 96 <= length file.
Proof.
  assert (is_ok sample_rpm = true) as Hok by (vm_compute; reflexivity).
  destruct sample_rpm as [d'|] eqn:E; [|done].
  pose proof E as E'. apply packRpm_readable in E' as (lead & sg & pad & rels & tags & h & p & a & Hf & Hlen & _).
  - exists d'. eexists. split; [done|]. split; [exact Hf|]. rewrite length_app. lia.
  - done.
  - by vm_compute.
  - by vm_compute.
  - intros b. by repeat constructor.
Defined.
