(* ===== verification/ProcessUtils.v ===== *)
(** * Processes and their PID files ([cli/process_utils/process_utils.go])

    A PID file is a name that links to a file: a file that was removed keeps
    existing for a process that has it open.  What the system calls give is a
    parameter of the definitions; the links, the contents of the files and the
    directories are the state. *)
From S2P Require Import Prelude GoStrings GoPath Regexp GoOs.

(** ** State *)
Record sys := mkSys {
  links : gmap string nat;
  contents : gmap nat string;
  next_file : nat;
  dirs : gset string
}.

Definition file_at (s : sys) (name : string) : option string :=
  match links s !! name with Some f => Some (default "" (contents s !! f)) | None => None end.

Definition unlink (s : sys) (name : string) : sys :=
  mkSys (delete name (links s)) (contents s) (next_file s) (dirs s).

(** [os.OpenFile] with [O_EXCL] and [O_CREAT] of a name that is free. *)
Definition create_file (s : sys) (name : string) : sys :=
  mkSys (<[name := next_file s]> (links s)) (<[next_file s := ""]> (contents s))
    (S (next_file s)) (dirs s).

Definition write_file (s : sys) (f : nat) (text : string) : sys :=
  mkSys (links s) (<[f := default "" (contents s !! f) +:+ text]> (contents s)) (next_file s) (dirs s).

Definition add_dir (s : sys) (d : string) : sys :=
  mkSys (links s) (contents s) (next_file s) (dirs s ∪ {[d]}).

(** ** States of a process *)
Inductive StateCode := ProcessRunningCode | ProcessStoppedCode | ProcessDeadCode.
#[export] Instance StateCode_eq_dec : EqDecision StateCode.
Proof. solve_decision. Defined.

Record ProcessState := mkProcessState { ps_Code : StateCode; ps_Status : string; ps_PID : Z }.

Definition ProcStateRunning : ProcessState := mkProcessState ProcessRunningCode "RUNNING" 0.
Definition ProcStateStopped : ProcessState := mkProcessState ProcessStoppedCode "NOT RUNNING" 0.
Definition ProcStateDead : ProcessState :=
  mkProcessState ProcessDeadCode "ERROR. The process is dead" 0.

Definition ProcessState_String (procState : ProcessState) : string :=
  if decide (ps_Code procState = ProcessRunningCode)
  then ps_Status procState +:+ ". PID: " +:+ FormatInt (ps_PID procState) +:+ "."
  else ps_Status procState.

Definition SIGINT : Z := 2.
Definition SIGQUIT : Z := 3.
Definition SIGKILL : Z := 9.

(** [strconv.Atoi] on a 64-bit system. *)
Definition Atoi : string -> result Z := ParseInt.
Definition Itoa : Z -> string := FormatInt.

Section process_utils.
(** [Kill pid sig]; the errors of [os.Stat] other than that a file does not
    exist, of [os.Open] and reading, of [os.OpenFile], of [os.MkdirAll] and of
    writing. *)
Context (Kill : Z -> Z -> option error) (Getpgid : Z -> result Z).
Context (stat_error open_error create_error mkdir_error write_error : string -> option error).

Definition stat_file (s : sys) (name : string) : option error :=
  match stat_error name with
  | Some e => Some e
  | None => if decide (is_Some (links s !! name)) then None else Some ErrNotExist
  end.

Definition stat_dir (s : sys) (name : string) : option error :=
  match stat_error name with
  | Some e => Some e
  | None => if decide (name ∈ dirs s) then None else Some ErrNotExist
  end.

Definition IsProcessAlive (pid : Z) : bool * option error :=
  match Kill pid 0 with Some err => (false, Some err) | None => (true, None) end.

Definition read_pid (s : sys) (pidFileName : string) : result Z :=
  match open_error pidFileName, file_at s pidFileName with
  | Some e, _ => Err (Wrapf "can't open the PID file. Error: %v" [] e)
  | None, None => Err (Wrapf "can't open the PID file. Error: %v" [] ErrNotExist)
  | None, Some pidBytes =>
      match Atoi (TrimSpace pidBytes) with
      | Err e => Err (Wrapf "pID file exists with unknown format. Error: %s" [] e)
      | Ok pid => Ok pid
      end
  end.

Definition GetPIDFromFile (s : sys) (pidFileName : string) : result Z :=
  match stat_file s pidFileName with
  | Some e => Err (Wrapf "can't stat the PID file. Error: %w" [] e)
  | None => read_pid s pidFileName
  end.

Definition CheckPIDFile (pidFileName : string) (s : sys) : option error * sys :=
  match stat_file s pidFileName with
  | None =>
      match GetPIDFromFile s pidFileName with
      | Err e => (Some (Wrapf "pID file exists, but PID can't be read. Error: %v" [] e), s)
      | Ok pid =>
          if fst (IsProcessAlive pid) then
            (Some (Errorf "the process already exists. PID: %d" [FormatInt pid]), s)
          else (None, unlink s pidFileName)
      end
  | Some err =>
      if negb (IsNotExist err) then
        (Some (Wrapf "something went wrong while trying to read the PID file. Error: %v" [] err), s)
      else (None, s)
  end.

Definition ensure_dir (pidAbsDir : string) (s : sys) : option error * sys :=
  match stat_dir s pidAbsDir with
  | None => (None, s)
  | Some err =>
      if IsNotExist err then
        match mkdir_error pidAbsDir with
        | Some e => (Some (Wrapf "can't crete PID file directory. Error: %v" [] e), s)
        | None => (None, add_dir s pidAbsDir)
        end
      else (Some (Wrapf "can't stat PID file directory. Error: %v" [] err), s)
  end.

Definition CreatePIDFile (pidFileName : string) (pid : Z) (s : sys) : option error * sys :=
  match CheckPIDFile pidFileName s with
  | (Some err, s) => (Some err, s)
  | (None, s) =>
      match ensure_dir (path_Dir pidFileName) s with
      | (Some err, s) => (Some err, s)
      | (None, s) =>
          match create_error pidFileName, links s !! pidFileName with
          | Some e, _ => (Some (Wrapf "can't create a new PID file. Error: %v" [] e), s)
          | None, Some _ =>
              (Some (Errorf "can't create a new PID file. Error: file exists" []), s)
          | None, None =>
              let f := next_file s in
              let s := create_file s pidFileName in
              match write_error pidFileName with
              | Some e => (Some e, s)
              | None => (None, write_file s f (Itoa pid))
              end
          end
      end
  end.

Definition getRunningPid (s : sys) (pidFile : string) : result Z :=
  match GetPIDFromFile s pidFile with
  | Err e => Err e
  | Ok pid =>
      match IsProcessAlive pid with
      | (_, Some err) =>
          Err (Wrapf "failed to check if the process %v is running: %s" [FormatInt pid] err)
      | (false, None) => Err (Errorf "the process %v is not running" [FormatInt pid])
      | (true, None) => Ok pid
      end
  end.

(** One round of the loop of [waitProcessTermination]: whether the timer of the
    whole wait fired, and whether the process is alive then. *)
Record wait_round := mkRound { timer_fired : bool; still_alive : bool }.

Fixpoint wait_loop (rounds : list wait_round) : option bool :=
  match rounds with
  | [] => None
  | r :: rounds =>
      if timer_fired r then Some (negb (still_alive r))
      else if negb (still_alive r) then Some true else wait_loop rounds
  end.

Definition waitProcessTermination (alive_now : bool) (rounds : list wait_round) : option bool :=
  if negb alive_now then Some true else wait_loop rounds.

(** A process is stopped with a signal; [term] says what waiting for it gives. *)
Definition signal_process (sig : Z) (kill_format fail_format : string) (term : Z -> bool) (pid : Z)
    : result Z :=
  match Kill pid sig with
  | Some e => Err (Wrapf kill_format [] e)
  | None => if term pid then Ok pid else Err (Errorf fail_format [])
  end.

Definition StopProcess (term : Z -> bool) (s : sys) (pidFile : string) : result Z :=
  match getRunningPid s pidFile with
  | Err e => Err (Wrapf "can't get pid of running process: %w" [] e)
  | Ok pid => signal_process SIGINT "can't terminate the process. Error: %v"
                "can't terminate the process" term pid
  end.

Definition QuitProcess (term : Z -> bool) (s : sys) (pidFile : string) : result Z :=
  match getRunningPid s pidFile with
  | Err e => Err (Wrapf "can't get pid of running process: %s" [] e)
  | Ok pid => signal_process SIGQUIT "can't terminate the process with SIGQUIT: %s"
                "can't terminate the process with SIGQUIT" term pid
  end.

Definition KillProcessGroup (s : sys) (pidFile : string) : result Z :=
  match getRunningPid s pidFile with
  | Err e => Err (Wrapf "can't get pid of running process: %s" [] e)
  | Ok pid =>
      match Getpgid pid with
      | Err e => Err (Wrapf "can't get a process group of the %d process: %s" [FormatInt pid] e)
      | Ok pgid =>
          match Kill (- pgid) SIGKILL with
          | Some e => Err (Wrapf "can't kill the process: %s" [] e)
          | None => Ok pid
          end
      end
  end.

Definition ProcessStatus (s : sys) (pidFile : string) : ProcessState :=
  match GetPIDFromFile s pidFile with
  | Err _ => ProcStateStopped
  | Ok pid =>
      if negb (fst (IsProcessAlive pid)) then ProcStateDead
      else mkProcessState ProcessRunningCode (ps_Status ProcStateRunning) pid
  end.

(** ** Several starters at once

    [CreatePIDFile] of one starter as the steps at which it looks at or changes
    the state; opening and reading the file is one step. *)
Inductive pid_pc :=
| AtStat            (* [os.Stat] of [CheckPIDFile] *)
| AtStat2           (* [os.Stat] of [GetPIDFromFile] *)
| AtRead            (* [os.Open] and [io.ReadAll] *)
| AtAlive (pid : Z) (* [IsProcessAlive] *)
| AtRemove          (* [os.Remove] *)
| AtDir             (* [os.Stat] and [os.MkdirAll] of the directory *)
| AtOpen            (* [os.OpenFile] *)
| AtWrite (f : nat) (* [WriteString] *)
| Created
| Failed (err : error).

Definition pid_step (name : string) (pid : Z) (pc : pid_pc) (s : sys) : pid_pc * sys :=
  match pc with
  | AtStat =>
      match stat_file s name with
      | None => (AtStat2, s)
      | Some err =>
          if negb (IsNotExist err) then
            (Failed (Wrapf "something went wrong while trying to read the PID file. Error: %v" [] err), s)
          else (AtDir, s)
      end
  | AtStat2 =>
      match stat_file s name with
      | Some e =>
          (Failed (Wrapf "pID file exists, but PID can't be read. Error: %v" []
             (Wrapf "can't stat the PID file. Error: %w" [] e)), s)
      | None => (AtRead, s)
      end
  | AtRead =>
      match read_pid s name with
      | Err e => (Failed (Wrapf "pID file exists, but PID can't be read. Error: %v" [] e), s)
      | Ok p => (AtAlive p, s)
      end
  | AtAlive p =>
      if fst (IsProcessAlive p) then
        (Failed (Errorf "the process already exists. PID: %d" [FormatInt p]), s)
      else (AtRemove, s)
  | AtRemove => (AtDir, unlink s name)
  | AtDir =>
      match ensure_dir (path_Dir name) s with
      | (Some err, s) => (Failed err, s)
      | (None, s) => (AtOpen, s)
      end
  | AtOpen =>
      match create_error name, links s !! name with
      | Some e, _ => (Failed (Wrapf "can't create a new PID file. Error: %v" [] e), s)
      | None, Some _ => (Failed (Errorf "can't create a new PID file. Error: file exists" []), s)
      | None, None => (AtWrite (next_file s), create_file s name)
      end
  | AtWrite f =>
      match write_error name with
      | Some e => (Failed e, s)
      | None => (Created, write_file s f (Itoa pid))
      end
  | Created | Failed _ => (pc, s)
  end.

(** Starters with their PIDs; a step of the system is a step of one of them. *)
Record starters := mkStarters { pcs : list (Z * pid_pc); st_sys : sys }.

Definition move (name : string) (i : nat) (t : starters) : starters :=
  match pcs t !! i with
  | None => t
  | Some (pid, pc) =>
      let '(pc', s') := pid_step name pid pc (st_sys t) in
      mkStarters (<[i := (pid, pc')]> (pcs t)) s'
  end.

Definition run_starters (name : string) (schedule : list nat) (t : starters) : starters :=
  fold_left (fun t i => move name i t) schedule t.
End process_utils.

(** * What the PID files guarantee

    A PID file that was written is read back; the steps of one starter make up
    [CreatePIDFile]; of several starters at once at most one creates the file
    unless a file of a dead process was there before. *)

(** ** Numbers as text *)
Definition digit_string (s : string) : Prop := Forall (fun c => is_Some (digit_value c)) (String.list_ascii_of_string s).

Lemma digit_value_char d : (0 <= d < 10)%Z -> digit_value (digit_char d) = Some d.
Proof.
  intros Hd. unfold digit_value, digit_char. rewrite nat_ascii_embedding by lia.
  rewrite Z2Nat.id by lia. destruct (Z.leb_spec 48 (48 + d)), (Z.leb_spec (48 + d) 57); try lia.
  cbn. f_equal. lia.
Qed.

Lemma format_pos_value fuel n acc v :
  (0 <= n < 2 ^ Z.of_nat fuel)%Z -> digit_string acc ->
  digits_value n acc = Some v ->
  digits_value 0 (format_pos fuel n acc) = Some v /\ digit_string (format_pos fuel n acc) /\
  (fuel <> 0 -> format_pos fuel n acc <> "").
Proof.
  revert n acc. induction fuel as [|fuel IH]; intros n acc Hn Hd Hv.
  { assert (n = 0%Z) as -> by (cbn in Hn; lia). done. }
  cbn [format_pos]. assert (0 <= n mod 10 < 10)%Z as Hm by (apply Z.mod_pos_bound; lia).
  assert (digit_string (String (digit_char (n mod 10)) acc)) as Hd'
    by (constructor; [rewrite digit_value_char by done; eauto|done]).
  destruct (Z.ltb_spec n 10) as [Hlt|Hge].
  - split_and!; [|done|done]. cbn [digits_value]. rewrite digit_value_char by done.
    rewrite Z.mod_small by lia. by replace (10 * 0 + n)%Z with n by lia.
  - assert (n / 10 < 2 ^ Z.of_nat fuel)%Z as Hq.
    { apply Z.div_lt_upper_bound; [lia|]. rewrite Nat2Z.inj_succ, Z.pow_succ_r in Hn by lia. lia. }
    destruct (IH (n / 10)%Z (String (digit_char (n mod 10)) acc)) as (H1 & H2 & H3).
    + split; [apply Z.div_pos; lia|done].
    + done.
    + cbn [digits_value]. rewrite digit_value_char by done.
      replace (10 * (n / 10) + n mod 10)%Z with n by (pose proof (Z.div_mod n 10); lia). done.
    + split_and!; [done..|]. intros _. destruct fuel; [|by apply H3].
      cbn in Hq. pose proof (Z.div_str_pos n 10). lia.
Qed.

Lemma FormatUint_value n :
  (0 <= n)%Z -> numeral (FormatUint n) = Some n /\ digit_string (FormatUint n) /\ FormatUint n <> "".
Proof.
  intros Hn. unfold FormatUint.
  destruct (format_pos_value (S (Z.to_nat (Z.log2 n))) n "" n) as (H1 & H2 & H3).
  - split; [done|]. rewrite Nat2Z.inj_succ, Z2Nat.id by apply Z.log2_nonneg.
    destruct (decide (n = 0%Z)) as [->|]; [done|]. apply Z.log2_spec. lia.
  - constructor.
  - done.
  - specialize (H3 ltac:(done)). unfold numeral. split_and!; [|done..].
    by destruct (format_pos _ _ _).
Qed.

Lemma digit_string_unsigned s : digit_string s -> s <> "" ->
  match s with String "-" _ | String "+" _ => False | _ => True end.
Proof.
  destruct s as [|c s]; [done|]. intros [[d Hd] _]%Forall_cons _. 
  destruct (decide (c = "-"%char)) as [->|]; [done|].
  destruct (decide (c = "+"%char)) as [->|]; [done|].
  destruct c as [[] [] [] [] [] [] [] []]; done.
Qed.

Lemma ParseInt_FormatInt n : (0 <= n <= MaxInt64)%Z -> ParseInt (FormatInt n) = Ok n.
Proof.
  intros Hn. unfold FormatInt. destruct (Z.ltb_spec n 0); [lia|].
  destruct (FormatUint_value n) as (Hv & Hd & Hne); [lia|].
  assert (forall s, digit_string s -> s <> "" -> numeral s = Some n -> ParseInt s = Ok n) as Hp.
  { clear -Hn. intros s Hd Hne Hv. pose proof (digit_string_unsigned s Hd Hne) as Hu. unfold ParseInt.
    assert ((match s with String "-" s' => (true, s') | String "+" s' => (false, s') | _ => (false, s) end)
            = (false, s)) as ->
      by (destruct s as [|[[] [] [] [] [] [] [] []] s]; done).
    rewrite Hv. destruct (Z.leb_spec MinInt64 n), (Z.leb_spec n MaxInt64); try done; unfold MinInt64 in *; lia. }
  by apply Hp.
Qed.

Lemma trim_units_none p l : Forall (fun u => p u = false) l -> trim_units p l = l.
Proof.
  intros Hl. assert (forall l', Forall (fun u => p u = false) l' -> drop_while p l' = l') as Hdw.
  { intros l' Hl'. destruct l' as [|u l']; [done|]. apply Forall_cons in Hl' as [Hu _]. cbn. by rewrite Hu. }
  unfold trim_units. rewrite (Hdw l) by done. rewrite Hdw; [apply rev_involutive|].
  by apply Forall_rev.
Qed.

Lemma digit_char_facts c :
  is_Some (digit_value c) -> ascii_char c = true /\ is_space (unit1 c) = false.
Proof.
  intros [d Hd]. revert Hd. destruct c as [[] [] [] [] [] [] [] []]; try done; intros _; by vm_compute.
Qed.

Lemma TrimSpace_digits s : digit_string s -> TrimSpace s = s.
Proof.
  intros Hs. unfold TrimSpace. assert (ascii_string s = true) as Ha.
  { induction s as [|c s IH]; [done|]. apply Forall_cons in Hs as [Hc Hs]. cbn [ascii_string].
    apply digit_char_facts in Hc as [-> _]. by apply IH. }
  rewrite runes_ascii by done. rewrite trim_units_none; [apply text_chars|].
  unfold chars. apply Forall_map. eapply Forall_impl; [exact Hs|]. intros c Hc. by apply digit_char_facts.
Qed.

Lemma Atoi_Itoa n : (0 <= n <= MaxInt64)%Z -> Atoi (TrimSpace (Itoa n)) = Ok n.
Proof.
  intros Hn. assert (digit_string (Itoa n)) as Hd.
  { unfold Itoa, FormatInt. destruct (Z.ltb_spec n 0); [lia|]. apply FormatUint_value. lia. }
  rewrite TrimSpace_digits by done. by apply ParseInt_FormatInt.
Qed.

Section props.
Context (Kill : Z -> Z -> option error).
Context (stat_error open_error create_error mkdir_error write_error : string -> option error).
Notation create := (CreatePIDFile Kill stat_error open_error create_error mkdir_error write_error).
Notation status := (ProcessStatus Kill stat_error open_error).
Notation step := (pid_step Kill stat_error open_error create_error mkdir_error write_error).
Notation run := (run_starters Kill stat_error open_error create_error mkdir_error write_error).
Notation alive pid := (Kill pid 0%Z = None).

(** ** One starter *)
Definition outcome_of (r : option error * sys) : pid_pc * sys :=
  match r with (None, s) => (Created, s) | (Some e, s) => (Failed e, s) end.

Fixpoint steps (n : nat) (name : string) (pid : Z) (pc : pid_pc) (s : sys) : pid_pc * sys :=
  match n with O => (pc, s) | S n => let '(pc, s) := step name pid pc s in steps n name pid pc s end.

Lemma steps_stop n name pid pc s :
  (pc = Created \/ exists e, pc = Failed e) -> steps n name pid pc s = (pc, s).
Proof. induction n as [|n IH]; [done|]. intros Hpc. cbn [steps].
  destruct Hpc as [->|[e ->]]; cbn [pid_step]; apply IH; eauto. Qed.

Lemma steps_tail n name pid s :
  3 <= n ->
  steps n name pid AtDir s =
  outcome_of
    match ensure_dir stat_error mkdir_error (path_Dir name) s with
    | (Some err, s) => (Some err, s)
    | (None, s) =>
        match create_error name, links s !! name with
        | Some e, _ => (Some (Wrapf "can't create a new PID file. Error: %v" [] e), s)
        | None, Some _ => (Some (Errorf "can't create a new PID file. Error: file exists" []), s)
        | None, None =>
            match write_error name with
            | Some e => (Some e, create_file s name)
            | None => (None, write_file (create_file s name) (next_file s) (Itoa pid))
            end
        end
    end.
Proof.
  intros Hn. destruct n as [|[|[|n]]]; [lia..|]. cbn [steps pid_step].
  destruct (ensure_dir _ _ _ s) as [[e|] s1]; [apply (steps_stop (S (S n))); eauto|].
  cbn [pid_step].
  destruct (create_error name) as [e|]; [apply (steps_stop (S n)); eauto|].
  destruct (links s1 !! name); [apply (steps_stop (S n)); eauto|]. cbn [pid_step].
  destruct (write_error name); apply steps_stop; eauto.
Qed.

(** The steps make up the function. *)
Lemma steps_CreatePIDFile name pid s : steps 8 name pid AtStat s = outcome_of (create name pid s).
Proof.
  unfold CreatePIDFile, CheckPIDFile. change (steps 8 name pid AtStat s) with
    (let '(pc, s) := step name pid AtStat s in steps 7 name pid pc s). cbn [pid_step].
  destruct (stat_file stat_error s name) as [err|] eqn:Hst.
  - destruct (IsNotExist err); cbn [negb]; [apply steps_tail; lia|apply steps_stop; eauto].
  - unfold GetPIDFromFile. cbn [steps pid_step]. rewrite Hst. cbn [pid_step].
    destruct (read_pid open_error s name) as [p|e] eqn:Hr; [|apply (steps_stop 5); eauto].
    cbn [pid_step]. destruct (IsProcessAlive Kill p).1; [apply (steps_stop 4); eauto|].
    exact (steps_tail 3 name pid (unlink s name) ltac:(lia)).
Qed.

(** ** The file is read back *)

Lemma CheckPIDFile_ok name s s' :
  CheckPIDFile Kill stat_error open_error name s = (None, s') ->
  forall old, GetPIDFromFile stat_error open_error s name = Ok old -> ~ alive old.
Proof.
  unfold CheckPIDFile. intros Hc old Hold. unfold GetPIDFromFile in Hold.
  destruct (stat_file _ _ _) as [e|] eqn:Hst; [done|].
  unfold GetPIDFromFile in Hc. rewrite Hst, Hold in Hc. unfold IsProcessAlive in Hc.
  by destruct (Kill old 0%Z).
Qed.

Lemma CreatePIDFile_file name pid s s' :
  create name pid s = (None, s') -> file_at s' name = Some (Itoa pid).
Proof.
  unfold CreatePIDFile. destruct (CheckPIDFile _ _ _ _ _) as [[e|] s1]; [done|].
  destruct (ensure_dir _ _ _ _) as [[e|] s2]; [done|].
  destruct (create_error name); [done|]. destruct (links s2 !! name); [done|].
  destruct (write_error name); [done|]. intros [= <-].
  unfold file_at, write_file, create_file. cbn. by rewrite !lookup_insert_eq.
Qed.

(** After a successful CreatePIDFile the file has the PID, the process of
    a PID that was there before is dead, GetPIDFromFile reads the PID back,
    ProcessStatus reports the process running when it is alive and dead
    otherwise, and while it is alive every further CreatePIDFile is refused
    and changes nothing. *)
Theorem CreatePIDFile_status name pid s s' :
  create name pid s = (None, s') -> (0 <= pid <= MaxInt64)%Z ->
  stat_error name = None -> open_error name = None ->
  file_at s' name = Some (Itoa pid) /\
  (forall old, GetPIDFromFile stat_error open_error s name = Ok old -> ~ alive old) /\
  GetPIDFromFile stat_error open_error s' name = Ok pid /\
  status s' name =
    (if decide (Kill pid 0%Z = None) then mkProcessState ProcessRunningCode "RUNNING" pid
     else ProcStateDead) /\
  (alive pid -> forall other, create name other s' =
     (Some (Errorf "the process already exists. PID: %d" [FormatInt pid]), s')).
Proof.
  intros Hc Hpid Hse Hop. pose proof (CreatePIDFile_file _ _ _ _ Hc) as Hf.
  assert (forall old, GetPIDFromFile stat_error open_error s name = Ok old -> ~ alive old) as Hold.
  { unfold CreatePIDFile in Hc. destruct (CheckPIDFile _ _ _ _ _) as [[e|] s1] eqn:Hch; [done|].
    by eapply CheckPIDFile_ok. }
  assert (GetPIDFromFile stat_error open_error s' name = Ok pid) as Hg.
  { unfold GetPIDFromFile, stat_file, read_pid. rewrite Hse, Hop, Hf, Atoi_Itoa by done.
    rewrite decide_True; [done|]. unfold file_at in Hf. by destruct (links s' !! name). }
  split_and!; [done..| |].
  - unfold ProcessStatus. rewrite Hg. unfold IsProcessAlive.
    destruct (Kill pid 0%Z); [by rewrite decide_False|by rewrite decide_True].
  - intros Ha other. assert (stat_file stat_error s' name = None) as Hst.
    { unfold stat_file, file_at in *. rewrite Hse. by destruct (links s' !! name). }
    unfold CreatePIDFile, CheckPIDFile, IsProcessAlive. by rewrite Hst, Hg, Ha.
Qed.

(** ** Several starters *)

(** The file that is there, if any, keeps a starter out. *)
Definition guarded (name : string) (s : sys) : Prop :=
  forall p, read_pid open_error s name = Ok p -> alive p.

Definition owner (pc : pid_pc) : bool := match pc with AtWrite _ | Created => true | _ => false end.

(** A starter has not seen a dead process; the one that created the file is to
    write into the file that is there. *)
Definition sound (name : string) (s : sys) (pc : pid_pc) : Prop :=
  match pc with
  | AtAlive p => alive p
  | AtRemove => False
  | AtWrite f => links s !! name = Some f /\ contents s !! f = Some ""
  | Created => is_Some (links s !! name)
  | _ => True
  end.

Record exclusive (name : string) (t : starters) : Prop := {
  ex_guarded : guarded name (st_sys t);
  ex_sound : forall i pid pc, pcs t !! i = Some (pid, pc) ->
    sound name (st_sys t) pc /\ (0 <= pid <= MaxInt64)%Z /\ alive pid;
  ex_unique : forall i j p q, pcs t !! i = Some p -> pcs t !! j = Some q ->
    owner p.2 = true -> owner q.2 = true -> i = j
}.

(** A step that leaves the file alone and does not make an owner. *)
Lemma exclusive_quiet name t i pid pc pc' s' :
  exclusive name t -> pcs t !! i = Some (pid, pc) ->
  links s' = links (st_sys t) -> contents s' = contents (st_sys t) ->
  sound name s' pc' -> owner pc' = false ->
  exclusive name (mkStarters (<[i := (pid, pc')]> (pcs t)) s').
Proof.
  intros [Hg Hs Hu] Hi Hl Hc Hpc Ho. split; cbn.
  - unfold guarded, read_pid, file_at in *. by rewrite Hl, Hc.
  - intros j pid' pc'' Hj. apply list_lookup_insert_Some in Hj as [(<- & [= <- <-] & _)|[Hne Hj]].
    + split; [done|]. by apply (Hs i pid pc).
    + destruct (Hs _ _ _ Hj) as [Hx Hy]. split; [|done].
      unfold sound in *. by rewrite Hl, Hc.
  - intros j k p q Hj Hk Hp Hq.
    apply list_lookup_insert_Some in Hj as [(<- & <- & _)|[Hne Hj]]; [by cbn in Hp; rewrite Ho in Hp|].
    apply list_lookup_insert_Some in Hk as [(<- & <- & _)|[Hne' Hk]]; [by cbn in Hq; rewrite Ho in Hq|].
    by eapply Hu.
Qed.

(** The file is created: there was none, so nobody owned one. *)
Lemma exclusive_create name t i pid pc :
  exclusive name t -> pcs t !! i = Some (pid, pc) -> links (st_sys t) !! name = None ->
  exclusive name
    (mkStarters (<[i := (pid, AtWrite (next_file (st_sys t)))]> (pcs t)) (create_file (st_sys t) name)).
Proof.
  intros [Hg Hs Hu] Hi Hn.
  assert (forall j p, pcs t !! j = Some p -> owner p.2 = false) as Hnone.
  { intros j [pid' pc'] Hj. destruct (Hs _ _ _ Hj) as [Hx _]. destruct pc'; try done; cbn in Hx.
    - destruct Hx as [Hx _]. congruence.
    - destruct Hx as [? Hx]. congruence. }
  split; cbn.
  - intros p. unfold read_pid, file_at, create_file. cbn. rewrite !lookup_insert_eq. cbn.
    by destruct (open_error name).
  - intros j pid' pc' Hj. apply list_lookup_insert_Some in Hj as [(<- & [= <- <-] & _)|[Hne Hj]].
    + split; [cbn; by rewrite !lookup_insert_eq|]. by apply (Hs i pid pc).
    + destruct (Hs _ _ _ Hj) as [Hx Hy]. split; [|done]. pose proof (Hnone _ _ Hj) as Ho.
      by destruct pc'.
  - intros j k p q Hj Hk Hp Hq.
    apply list_lookup_insert_Some in Hj as [(<- & <- & _)|[Hne Hj]];
      [|by rewrite (Hnone _ _ Hj) in Hp].
    apply list_lookup_insert_Some in Hk as [(<- & <- & _)|[Hne' Hk]];
      [done|by rewrite (Hnone _ _ Hk) in Hq].
Qed.

(** The PID is written by the one owner. *)
Lemma exclusive_write name t i pid f :
  exclusive name t -> pcs t !! i = Some (pid, AtWrite f) ->
  exclusive name (mkStarters (<[i := (pid, Created)]> (pcs t)) (write_file (st_sys t) f (Itoa pid))).
Proof.
  intros [Hg Hs Hu] Hi. destruct (Hs _ _ _ Hi) as ((Hl & Hc) & Hpid & Hal).
  assert (forall j p, j <> i -> pcs t !! j = Some p -> owner p.2 = false) as Hnone.
  { intros j p Hne Hj. destruct (owner p.2) eqn:Ho; [|done]. by destruct Hne; eapply Hu. }
  split; cbn [pcs st_sys].
  - intros p. unfold read_pid, file_at, write_file. cbn [links contents].
    rewrite Hl, lookup_insert_eq, Hc. change (default "" (Some (default "" (Some "") +:+ Itoa pid))) with (Itoa pid).
    destruct (open_error name); [done|]. rewrite Atoi_Itoa by done. by intros [= <-].
  - intros j pid' pc' Hj. apply list_lookup_insert_Some in Hj as [(<- & [= <- <-] & _)|[Hne Hj]].
    + split; [|done]. cbn. by rewrite Hl.
    + destruct (Hs _ _ _ Hj) as [Hx Hy]. split; [|done].
      pose proof (Hnone j _ ltac:(done) Hj) as Ho. by destruct pc'.
  - intros j k p q Hj Hk Hp Hq.
    apply list_lookup_insert_Some in Hj as [(<- & <- & _)|[Hne Hj]];
      [|by rewrite (Hnone j p) in Hp by done].
    apply list_lookup_insert_Some in Hk as [(<- & <- & _)|[Hne' Hk]];
      [done|by rewrite (Hnone k q) in Hq by done].
Qed.

Lemma ensure_dir_quiet d s e s' :
  ensure_dir stat_error mkdir_error d s = (e, s') -> links s' = links s /\ contents s' = contents s.
Proof. unfold ensure_dir. intros He. repeat case_match; by simplify_eq. Qed.

Lemma exclusive_move name i t :
  exclusive name t ->
  exclusive name (move Kill stat_error open_error create_error mkdir_error write_error name i t).
Proof.
  intros Ht. unfold move. destruct (pcs t !! i) as [[pid pc]|] eqn:Hi; [|done].
  destruct (ex_sound _ _ Ht _ _ _ Hi) as (Hpc & Hpid & Hal).
  destruct pc as [| | |p| | | |f| |err]; cbn [pid_step].
  - repeat case_match; simplify_eq; by eapply exclusive_quiet.
  - repeat case_match; simplify_eq; by eapply exclusive_quiet.
  - destruct (read_pid open_error (st_sys t) name) as [p|] eqn:Hr;
      eapply exclusive_quiet; try done. by apply (ex_guarded _ _ Ht).
  - unfold IsProcessAlive. cbn in Hpc. rewrite Hpc. by eapply exclusive_quiet.
  - done.
  - destruct (ensure_dir _ _ _ _) as [[e|] s'] eqn:He; apply ensure_dir_quiet in He as [Hl Hc];
      by eapply exclusive_quiet.
  - destruct (create_error name); [by eapply exclusive_quiet|].
    destruct (links (st_sys t) !! name) eqn:Hl; [by eapply exclusive_quiet|]. by eapply exclusive_create.
  - destruct (write_error name); [by eapply exclusive_quiet|]. by apply exclusive_write.
  - rewrite list_insert_id by done. by destruct t.
  - rewrite list_insert_id by done. by destruct t.
Qed.

(** C18: In every interleaving of the system calls of any number of live
    starting processes, when the file that is there at first (if any) names a
    live process, at most one of them creates the PID file. *)
Theorem pid_file_exclusive name pids s schedule i j p q :
  guarded name s -> Forall (fun pid => (0 <= pid <= MaxInt64)%Z /\ alive pid) pids ->
  let t := run name schedule (mkStarters (map (fun pid => (pid, AtStat)) pids) s) in
  pcs t !! i = Some (p, Created) -> pcs t !! j = Some (q, Created) -> i = j.
Proof.
  intros Hg Hpids t Hi Hj. assert (exclusive name t) as Ht.
  { unfold t, run_starters. apply fold_left_inv; [intros; by apply exclusive_move|].
    split; cbn; [done| |].
    - intros k pid pc Hk. rewrite list_lookup_fmap in Hk.
      destruct (pids !! k) as [pid'|] eqn:Hp; [|done]. injection Hk as <- <-. split; [done|].
      by eapply Forall_lookup_1 in Hp; [|exact Hpids].
    - intros k l x y Hk Hl Hx Hy. rewrite list_lookup_fmap in Hk.
      destruct (pids !! k); [|done]. injection Hk as <-. done. }
  by eapply (ex_unique _ _ Ht).
Qed.
End props.

(** ** A file of a dead process

    Two starters that both find it dead can both create the file: the second
    removes what the first created. *)
Definition stale : sys := mkSys {["/run/tt.pid" := 0]} {[0 := "7"]} 1 {["/run"]}.
Definition kill7 (pid sig : Z) : option error :=
  if decide (pid = 7%Z) then Some (Errorf "no such process" []) else None.
Definition fine (_ : string) : option error := None.

(** Two processes that start while the PID file of a dead process is left
    behind can both create the file and both go on: the second removes the
    file the first has just created. *)
Theorem pid_file_stale_race :
  exists schedule s',
    run_starters kill7 fine fine fine fine fine "/run/tt.pid" schedule
      (mkStarters [(100%Z, AtStat); (200%Z, AtStat)] stale) =
    mkStarters [(100%Z, Created); (200%Z, Created)] s' /\
    file_at s' "/run/tt.pid" = Some "200".
Proof.
  exists [0; 0; 0; 0; 1; 1; 1; 1; 0; 0; 0; 0; 1; 1; 1; 1]. eexists. split; [by vm_compute|by vm_compute].
Qed.

Lemma pid_file_exclusive_witness :
  let t := run_starters kill7 fine fine fine fine fine "/run/tt.pid"
             [0; 1; 0; 1; 0; 1; 0; 1] (mkStarters [(100%Z, AtStat); (200%Z, AtStat)]
                                          (mkSys ∅ ∅ 0 {["/run"]})) in
  map snd (pcs t) !! 0 = Some Created /\
  forall j q, pcs t !! j = Some (q, Created) -> 0 = j.
Proof.
  split; [by vm_compute|]. intros j q.
  apply (pid_file_exclusive kill7 fine fine fine fine fine "/run/tt.pid" [100; 200]%Z
    (mkSys ∅ ∅ 0 {["/run"]}) [0; 1; 0; 1; 0; 1; 0; 1] 0 j 100 q).
  - done.
  - repeat constructor; vm_compute; done.
  - by vm_compute.
Defined.

Lemma CreatePIDFile_status_witness :
  exists s', CreatePIDFile kill7 fine fine fine fine fine "/run/tt.pid" 42 stale = (None, s') /\
    GetPIDFromFile fine fine s' "/run/tt.pid" = Ok 42%Z.
Proof.
  eexists. split; [reflexivity|].
  eapply (CreatePIDFile_status kill7 fine fine fine fine fine "/run/tt.pid" 42 stale);
    [reflexivity|done|done|done].
Defined.
