(* ===== verification/HistoryProps.v ===== *)
(** * What the history of the console guarantees

    Where the last lines of a file begin, and that a written history is loaded
    again. *)
From S2P Require Import Prelude GoStrings GoPath Regexp Version ProcessUtils History.
Local Open Scope Z_scope.

(** ** Newlines *)
Definition nl (l : list ascii) : Z := Z.of_nat (length (List.filter (fun c => bool_decide (c = lf)) l)).

Lemma nl_app a b : nl (a ++ b) = nl a + nl b.
Proof. unfold nl. rewrite List.filter_app, length_app. lia. Qed.

Lemma nl_nonneg l : 0 <= nl l.
Proof. unfold nl. lia. Qed.

Lemma nl_take_S l i :
  nl (take (S i) l) = nl (take i l) + (if decide (l !! i = Some lf) then 1 else 0).
Proof.
  destruct (l !! i) as [c|] eqn:Hi.
  - rewrite (take_S_r _ _ _ Hi), nl_app. f_equal. unfold nl. cbn.
    destruct (decide (Some c = Some lf)) as [[= ->]|Hc]; [by rewrite bool_decide_eq_true_2|].
    rewrite bool_decide_eq_false_2 by congruence. done.
  - rewrite decide_False by done. rewrite !take_ge by (apply lookup_ge_None_1 in Hi; lia). lia.
Qed.

Lemma scan_back_spec lines buf filePos i n :
  n <= lines ->
  match scan_back lines buf filePos i n with
  | inl pos => exists j, (j < i)%nat /\ pos = filePos + Z.of_nat j + 1 /\ buf !! j = Some lf /\
      n + nl (take i buf) = lines + 1 + nl (take j buf)
  | inr m => m = n + nl (take i buf) /\ m <= lines
  end.
Proof.
  revert n. induction i as [|i IH]; intros n Hn; cbn [scan_back].
  - change (nl (take 0 buf)) with 0. lia.
  - rewrite nl_take_S. destruct (decide (buf !! i = Some lf)) as [Hi|Hi].
    + destruct (Z.eqb_spec (n + 1) (lines + 1)); [exists i; split_and!; [lia|done|done|lia]|].
      specialize (IH (n + 1)). destruct (scan_back _ _ _ _ _);
        [destruct IH as (j & ? & ? & ? & ?); [lia|]; exists j; split_and!; [lia|done|done|lia]|].
      destruct IH; lia.
    + destruct (Z.eqb_spec n (lines + 1)); [lia|].
      specialize (IH n Hn). destruct (scan_back _ _ _ _ _);
        [destruct IH as (j & ? & ? & ? & ?); exists j; split_and!; [lia|done|done|lia]|]. lia.
Qed.

(** ** Where the last lines begin *)

(** A missing newline at the end counts as one. *)
Definition unended (data : list ascii) : Z := if decide (last data = Some lf) then 0 else 1.

(** [pos] is the first byte of the last [lines] lines. *)
Definition is_begin (data : list ascii) (lines pos : Z) : Prop :=
  (pos = 0 /\ unended data + nl data <= lines) \/
  (0 < pos <= Z.of_nat (length data) /\ data !! Z.to_nat (pos - 1) = Some lf /\
   unended data + nl (drop (Z.to_nat pos) data) = lines).

Lemma nl_split data i : nl data = nl (take i data) + nl (drop i data).
Proof. rewrite <- nl_app. by rewrite take_drop. Qed.

Lemma readFromPos_ok data pos size :
  0 <= pos < Z.of_nat (length data) -> 0 < size ->
  readFromPos data pos size = Ok (take (Z.to_nat size) (drop (Z.to_nat pos) data)).
Proof.
  intros Hp Hs. unfold readFromPos. destruct (Z.ltb_spec pos 0); [lia|].
  destruct (take _ _) eqn:Ht; [|done]. apply (f_equal length) in Ht.
  rewrite length_take, length_drop in Ht. cbn in Ht. lia.
Qed.

Section blocks.
Context (size : Z) (data : list ascii) (lines : Z).
Hypothesis (Hsize : 0 < size).

Lemma nl_block p :
  0 <= p -> p + size <= Z.of_nat (length data) ->
  nl (take (Z.to_nat size) (drop (Z.to_nat p) data)) + nl (drop (Z.to_nat (p + size)) data)
  = nl (drop (Z.to_nat p) data).
Proof.
  intros Hp Hl. rewrite (nl_split (drop (Z.to_nat p) data) (Z.to_nat size)).
  rewrite drop_drop. do 2 f_equal. f_equal. lia.
Qed.

(** With blocks that do not overlap the loop finds the beginning. *)
Lemma blocks_exact fuel p n :
  - size < p -> p + size <= Z.of_nat (length data) -> 0 < Z.of_nat (length data) ->
  (p < 0 -> p + size = Z.of_nat (length data)) -> (size | p) \/ p < 0 ->
  n = unended data + nl (drop (Z.to_nat (p + size)) data) -> n <= lines ->
  (Z.to_nat (p + size) < fuel)%nat ->
  exists pos, blocks_loop size fuel lines data p n = Some (Ok pos) /\ is_begin data lines pos.
Proof.
  revert p n. induction fuel as [|fuel IH]; intros p n Hp Hl Hd Hneg Hdiv Hn Hnl Hf; [lia|].
  cbn [blocks_loop]. destruct (Z.ltb_spec p 0) as [Hlt|Hge].
  - rewrite readFromPos_ok by lia. cbn [Z.to_nat]. rewrite drop_0.
    rewrite (take_ge data) by (specialize (Hneg Hlt); lia).
    pose proof (scan_back_spec lines data 0 (length data) n Hnl) as Hs.
    assert (nl (drop (Z.to_nat (p + size)) data) = 0) as H0
      by (rewrite (Hneg Hlt), Nat2Z.id, drop_all; done).
    rewrite firstn_all in Hs. destruct (scan_back _ _ _ _ _) as [pos|m].
    + destruct Hs as (j & Hj & -> & Hlf & Hc). eexists. split; [done|]. right.
      rewrite (nl_split data (S j)), nl_take_S, decide_True in Hc by done.
      split_and!; [lia|lia|replace (Z.to_nat (0 + Z.of_nat j + 1 - 1)) with j by lia; done|].
      replace (Z.to_nat (0 + Z.of_nat j + 1)) with (S j) by lia. lia.
    + cbn [orb]. exists 0. split; [done|]. left. lia.
  - rewrite readFromPos_ok by lia. set (buf := take _ _).
    assert (length buf = Z.to_nat size) as Hbl by (unfold buf; rewrite length_take, length_drop; lia).
    pose proof (scan_back_spec lines buf p (length buf) n Hnl) as Hs. rewrite firstn_all in Hs.
    pose proof (nl_block p Hge Hl) as Hb. fold buf in Hb.
    destruct (scan_back _ _ _ _ _) as [pos|m].
    + destruct Hs as (j & Hj & -> & Hlf & Hc). eexists. split; [done|]. right.
      assert (data !! (Z.to_nat p + j)%nat = Some lf) as Hlf'.
      { unfold buf in Hlf. by rewrite lookup_take_lt, lookup_drop in Hlf by lia. }
      split_and!; [lia|lia|replace (Z.to_nat (p + Z.of_nat j + 1 - 1)) with (Z.to_nat p + j)%nat by lia; done|].
      assert (nl (drop (Z.to_nat p) data) = nl (take j buf) + 1 + nl (drop (Z.to_nat (p + Z.of_nat j + 1)) data)) as Hcut.
      { rewrite (nl_split (drop (Z.to_nat p) data) (S j)), nl_take_S, lookup_drop, decide_True by done.
        rewrite drop_drop. unfold buf. rewrite take_take. repeat f_equal; lia. }
      lia.
    + destruct Hs as [-> Hle]. cbn [orb]. destruct (Z.eqb_spec p 0) as [->|Hp0].
      * exists 0. split; [done|]. left. cbn [Z.to_nat] in Hb. rewrite drop_0 in Hb. lia.
      * destruct Hdiv as [Hdiv|]; [|lia].
        assert (size <= p) by (apply Z.divide_pos_le; [lia|done]).
        apply IH; [lia|lia|done|lia|left; by apply Z.divide_sub_r; [|exists 1; lia]| |lia|lia].
        replace (p - size + size) with p by lia. lia.
Qed.

(** Twice the newlines are never reached. *)
Lemma blocks_zero fuel p n :
  - size < p -> p + size <= Z.of_nat (length data) -> 0 < Z.of_nat (length data) ->
  n <= 1 + nl (drop (Z.to_nat (p + size)) data) -> 1 + 2 * nl data <= lines ->
  (Z.to_nat (p + size) < fuel)%nat -> blocks_loop size fuel lines data p n = Some (Ok 0).
Proof.
  revert p n. induction fuel as [|fuel IH]; intros p n Hp Hl Hd Hn Hnl Hf; [lia|].
  pose proof (nl_split data (Z.to_nat (p + size))) as Hall.
  pose proof (nl_nonneg (take (Z.to_nat (p + size)) data)). pose proof (nl_nonneg data).
  cbn [blocks_loop].
  set (q := if p <? 0 then 0 else p). assert (0 <= q < Z.of_nat (length data)) as Hq
    by (unfold q; destruct (Z.ltb_spec p 0); lia).
  rewrite readFromPos_ok by done. set (buf := take _ _).
  assert (nl buf <= nl data) as Hbuf.
  { rewrite (nl_split data (Z.to_nat q)), (nl_split (drop _ data) (Z.to_nat size)). fold buf.
    pose proof (nl_nonneg (take (Z.to_nat q) data)).
    pose proof (nl_nonneg (drop (Z.to_nat size) (drop (Z.to_nat q) data))). lia. }
  pose proof (scan_back_spec lines buf q (length buf) n) as Hs. rewrite firstn_all in Hs.
  destruct (scan_back _ _ _ _ _) as [pos|m].
  - destruct Hs as (j & _ & _ & _ & Hc); [lia|]. pose proof (nl_nonneg (take j buf)). lia.
  - destruct Hs as [-> Hle]; [lia|]. destruct (_ || _) eqn:Hlast; [done|].
    apply orb_false_iff in Hlast as [Hp1 Hp2]. assert (q = p) as Hqp by (unfold q; by rewrite Hp1).
    clearbody q. subst q. apply Z.ltb_ge in Hp1. apply Z.eqb_neq in Hp2.
    pose proof (nl_block p Hp1 Hl) as Hb. fold buf in Hb. apply IH; try lia. replace (p - size + size) with p by lia. lia.
Qed.
End blocks.

Lemma GetLastNLinesBegin_loop size data lines :
  0 < size -> 0 < Z.of_nat (length data) -> lines <> 0 ->
  GetLastNLinesBegin size None data lines =
  default (Err (Errorf "out of fuel" [])) (blocks_loop size (S (length data)) (Z.abs lines) data
    (Z.of_nat (length data) - size) (unended data)).
Proof.
  intros Hs Hd Hl. unfold GetLastNLinesBegin. destruct (Z.eqb_spec lines 0); [done|].
  destruct (Z.eqb_spec (Z.of_nat (length data)) 0); [lia|].
  rewrite readFromPos_ok by lia. cbn [rbind]. unfold unended.
  assert (head (take (Z.to_nat size) (drop (Z.to_nat (Z.of_nat (length data) - 1)) data)) = last data) as ->.
  { rewrite last_lookup. replace (Z.to_nat (Z.of_nat (length data) - 1)) with (Nat.pred (length data)) by lia.
    destruct (lookup_lt_is_Some_2 data (Nat.pred (length data))) as [c Hc]; [lia|].
    rewrite Hc, (drop_S _ _ _ Hc). destruct (Z.to_nat size) eqn:Hz; [lia|done]. }
  done.
Qed.

Lemma begin_exact size data lines :
  0 < size -> 0 < Z.of_nat (length data) -> lines <> 0 ->
  (size | Z.of_nat (length data)) \/ Z.of_nat (length data) <= size ->
  exists pos, GetLastNLinesBegin size None data lines = Ok pos /\ is_begin data (Z.abs lines) pos.
Proof.
  intros Hs Hd Hl Hdiv. rewrite GetLastNLinesBegin_loop by done.
  destruct (blocks_exact size data (Z.abs lines) Hs (S (length data)) (Z.of_nat (length data) - size)
    (unended data)) as (pos & Hb & Hpos).
  - lia.
  - lia.
  - done.
  - lia.
  - destruct Hdiv as [Hdiv|Hle]; [left; apply Z.divide_sub_r; [done|by exists 1; lia]|].
    destruct (Z.eq_dec (Z.of_nat (length data)) size) as [->|]; [left; exists 0; lia|right; lia].
  - replace (Z.of_nat (length data) - size + size) with (Z.of_nat (length data)) by lia.
    rewrite Nat2Z.id, drop_all. change (nl []) with 0. lia.
  - unfold unended. case_decide; lia.
  - lia.
  - rewrite Hb. eauto.
Qed.

Lemma begin_zero data lines :
  lines <> 0 -> 1 + 2 * nl data <= Z.abs lines -> GetLastNLinesBegin bufSize None data lines = Ok 0.
Proof.
  intros Hl Hn. destruct (decide (length data = 0%nat)) as [Hd|Hd].
  { unfold GetLastNLinesBegin. destruct (Z.eqb_spec lines 0); [done|]. by rewrite Hd. }
  rewrite GetLastNLinesBegin_loop by (done || lia). rewrite blocks_zero; [done|..]; unfold bufSize; try lia.
  replace (Z.of_nat (length data) - 10000 + 10000) with (Z.of_nat (length data)) by lia.
  rewrite Nat2Z.id, drop_all. change (nl []) with 0. unfold unended. case_decide; lia.
Qed.

(** GetLastNLinesBegin ends and gives the beginning of the last lines for
    every file that is a whole number of blocks or fits into one, and the
    beginning of the file whenever more than twice its lines are asked for; in
    other files newlines of the first block may count twice: 10001 lines asked
    of a file of 10001 empty lines begin at its last two. *)
Theorem GetLastNLinesBegin_blocks :
  (forall size data lines,
     0 < size -> 0 < Z.of_nat (length data) -> lines <> 0 ->
     (size | Z.of_nat (length data)) \/ Z.of_nat (length data) <= size ->
     exists pos, GetLastNLinesBegin size None data lines = Ok pos /\ is_begin data (Z.abs lines) pos) /\
  (forall data lines, lines <> 0 -> 1 + 2 * nl data <= Z.abs lines ->
     GetLastNLinesBegin bufSize None data lines = Ok 0) /\
  GetLastNLinesBegin bufSize None (replicate (Z.to_nat 10001) lf) 10001 = Ok 9999 /\
  is_begin (replicate (Z.to_nat 10001) lf) 10001 0.
Proof.
  split_and!; [exact begin_exact|exact begin_zero|by vm_compute|].
  left. split; [done|]. by vm_compute.
Qed.

(** ** Written and loaded *)
Lemma Join_Split s c : Join (Split s c) (String c "") = s.
Proof.
  induction s as [|d s IH]; [done|]. cbn [Split]. destruct (decide (d = c)) as [->|Hd].
  - destruct (Split s c) as [|t ts] eqn:E; [by destruct (Split_not_nil s c)|].
    cbn [Join] in *. by rewrite <- IH.
  - destruct (Split s c) as [|t ts] eqn:E; [by destruct (Split_not_nil s c)|].
    rewrite <- IH. by destruct ts.
Qed.

(** The lines of one command in the file. *)
Definition cell_lines (c : string) (t : Z) : list string := ("#" +:+ FormatInt t) :: Split c lf.

(** A line that the file keeps apart and gives back. *)
Definition plain_line (l : string) : Prop :=
  is_timestamp l = false /\ HasSuffix l (String cr "") = false /\ Z.of_nat (String.length l) < 65536.

Definition plain_command (c : string) : Prop := Forall plain_line (Split c lf).

Definition wf_history (h : commandHistory) : Prop :=
  Forall2 (fun c t => plain_command c /\ 0 <= t <= MaxInt64) (commands h) (timestamps h).

Lemma FormatInt_digits t :
  0 <= t <= MaxInt64 -> digit_string (FormatInt t) /\ FormatInt t <> "".
Proof.
  intros Ht. unfold FormatInt. destruct (Z.ltb_spec t 0); [lia|].
  by destruct (FormatUint_value t) as (_ & ? & ?); [lia|].
Qed.

Lemma digit_string_no_lf s : digit_string s -> no_char lf s = true.
Proof.
  induction s as [|c s IH]; [done|]. intros [[d Hd] Hs]%Forall_cons. cbn.
  rewrite decide_False by (intros ->; done). by apply IH.
Qed.

Lemma timestamp_line t : 0 <= t <= MaxInt64 -> is_timestamp ("#" +:+ FormatInt t) = true.
Proof.
  intros Ht. destruct (FormatInt_digits t Ht) as [Hd Hne]. unfold is_timestamp. apply MatchString_lang.
  assert (ascii_string (FormatInt t) = true /\ all_units (one_of digits) (chars (FormatInt t))) as [Ha Hu].
  { clear Hne. induction (FormatInt t) as [|c s IH]; [split; [done|constructor]|]. apply Forall_cons in Hd as [Hc Hd].
    destruct (IH Hd) as [Ha Hu]. split; [cbn [ascii_string]; by rewrite (proj1 (digit_char_facts c Hc))|].
    constructor; [|done]. destruct Hc as [d Hc]. revert Hc.
    destruct c as [[] [] [] [] [] [] [] []]; try done; intros _; by vm_compute. }
  change ("#" +:+ FormatInt t) with (String "#" (FormatInt t)).
  rewrite runes_ascii_cons, runes_ascii by done. exists [unit1 "#"], (chars (FormatInt t)).
  split; [done|]. split; [|apply lang_plus_units; [|done]].
  - exists [unit1 "#"], []. split; [done|]. split; [|done]. by exists (unit1 "#").
  - intros Hc. apply Hne. by destruct (FormatInt t).
Qed.

Definition all_cells (cs : list string) (ts : list Z) : list string := concat (zip_with cell_lines cs ts).

Definition cell_ok (c : string) (t : Z) : Prop := plain_command c /\ 0 <= t <= MaxInt64.

Lemma content_lines cs ts :
  Forall2 cell_ok cs ts ->
  exists content, history_content cs ts = Ok content /\ Split content lf = all_cells cs ts ++ [""].
Proof.
  induction 1 as [|c t cs ts [_ Ht] _ (content & IH & Hs)]; [by exists ""|]. cbn [history_content].
  rewrite IH. eexists. split; [reflexivity|]. destruct (FormatInt_digits t Ht) as [Hd _].
  change ("#" +:+ FormatInt t +:+ String lf "" +:+ c +:+ String lf "" +:+ content)
    with (("#" +:+ FormatInt t) +:+ String lf (c +:+ String lf content)).
  rewrite Split_app by (cbn; by apply digit_string_no_lf). rewrite Split_app_last, Hs.
  unfold all_cells. cbn. by rewrite <- (assoc_L (++)).
Qed.

Lemma raw_lines_content content l : Split content lf = l ++ [""] -> raw_lines content = l.
Proof.
  intros Hs. unfold raw_lines. rewrite Hs, last_snoc, length_app, Nat.add_sub. apply take_app_length.
Qed.

Lemma no_char_suffix s c : no_char c s = true -> HasSuffix s (String c "") = false.
Proof.
  intros Hn. destruct (HasSuffix s _) eqn:Hs; [|done]. apply HasSuffix_true in Hs as (r & ->).
  exfalso. revert Hn. induction r as [|d r IH]; cbn; [by rewrite decide_True|]. by case_decide.
Qed.

Lemma format_pos_length fuel n acc :
  (String.length (format_pos fuel n acc) <= fuel + String.length acc)%nat.
Proof.
  revert n acc. induction fuel as [|fuel IH]; intros n acc; cbn [format_pos]; [lia|].
  repeat case_match; try (etransitivity; [apply IH|]); cbn; lia.
Qed.

Lemma timestamp_plain t :
  0 <= t <= MaxInt64 ->
  HasSuffix ("#" +:+ FormatInt t) (String cr "") = false /\
  Z.of_nat (String.length ("#" +:+ FormatInt t)) < 65536.
Proof.
  intros Ht. split.
  - apply no_char_suffix. destruct (FormatInt_digits t Ht) as [Hd _].
    change (no_char cr (FormatInt t) = true).
    induction (FormatInt t) as [|c s IH]; [done|]. apply Forall_cons in Hd as [[d Hc] Hd]. cbn.
    rewrite decide_False by (intros ->; done). by apply IH.
  - unfold FormatInt. destruct (Z.ltb_spec t 0); [lia|]. cbn [String.append String.length].
    unfold FormatUint. pose proof (format_pos_length (S (Z.to_nat (Z.log2 t))) t "") as Hl. cbn [String.length] in Hl.
    assert (Z.log2 t <= 63).
    { transitivity (Z.log2 MaxInt64); [apply Z.log2_le_mono; lia|by vm_compute]. }
    pose proof (Z.log2_nonneg t). lia.
Qed.

Lemma scan_lines_plain l :
  Forall (fun s => HasSuffix s (String cr "") = false /\ Z.of_nat (String.length s) < 65536) l ->
  scan_lines l = l.
Proof.
  induction 1 as [|s l [Hs Hlen] _ IH]; [done|]. cbn [scan_lines].
  destruct (Z.ltb_spec (Z.of_nat (String.length s)) 65536); [|lia]. rewrite IH. f_equal.
  unfold dropCR, TrimSuffix. unfold HasSuffix in Hs. by destruct (CutSuffix _ _).
Qed.

Lemma all_cells_plain cs ts :
  Forall2 cell_ok cs ts ->
  Forall (fun s => HasSuffix s (String cr "") = false /\ Z.of_nat (String.length s) < 65536) (all_cells cs ts).
Proof.
  induction 1 as [|c t cs ts [Hc Ht] _ IH]; [constructor|]. unfold all_cells. cbn.
  constructor; [by apply timestamp_plain|]. apply Forall_app. split; [|exact IH].
  eapply Forall_impl; [exact Hc|]. by intros s (_ & ? & ?).
Qed.

Lemma until_app a b :
  Forall (fun s => is_timestamp s = false) a -> until_timestamp (a ++ b) = (length a + until_timestamp b)%nat.
Proof. induction 1 as [|s a Hs _ IH]; [done|]. cbn [until_timestamp app]. by rewrite Hs, IH. Qed.

Lemma until_cells cs ts : Forall2 cell_ok cs ts -> until_timestamp (all_cells cs ts) = 0%nat.
Proof.
  destruct 1 as [|c t cs ts [_ Ht] _]; [done|]. unfold all_cells.
  change (until_timestamp (("#" +:+ FormatInt t) :: Split c lf ++ concat (zip_with cell_lines cs ts)) = 0%nat).
  cbn [until_timestamp]. by rewrite timestamp_line.
Qed.

Lemma substring_all s : String.substring 0 (String.length s) s = s.
Proof. induction s as [|c s IH]; [done|]. cbn. by rewrite IH. Qed.

Lemma cells_loop_cells cs ts fuel :
  Forall2 cell_ok cs ts -> (length cs <= fuel)%nat -> cells_loop fuel (all_cells cs ts) = zip cs ts.
Proof.
  intros Hf. revert fuel. induction Hf as [|c t cs ts [Hc Ht] Hf IH]; intros fuel Hfuel; [by destruct fuel|].
  destruct fuel as [|fuel]; [cbn in Hfuel; lia|]. unfold all_cells.
  change (concat (zip_with cell_lines (c :: cs) (t :: ts)))
    with (("#" +:+ FormatInt t) :: Split c lf ++ all_cells cs ts). cbn [cells_loop].
  rewrite until_app by (eapply Forall_impl; [exact Hc|]; by intros s (? & _)).
  rewrite (until_cells cs ts Hf), Nat.add_0_r, drop_app_length, take_app_length.
  replace (String.substring 1 (String.length ("#" +:+ FormatInt t) - 1) ("#" +:+ FormatInt t))
    with (FormatInt t) by (cbn; by rewrite Nat.sub_0_r, substring_all).
  rewrite ParseInt_FormatInt by done.
  rewrite decide_True by (intros Hl; by apply (Split_not_nil c lf), length_zero_iff_nil).
  rewrite Join_Split, IH by (cbn in Hfuel; lia). done.
Qed.

Lemma all_cells_length cs ts : Forall2 cell_ok cs ts -> (length cs <= length (all_cells cs ts))%nat.
Proof.
  induction 1 as [|c t cs ts _ _ IH]; [done|]. unfold all_cells in *. cbn. rewrite length_app. lia.
Qed.

Lemma parse_cells cs ts now : Forall2 cell_ok cs ts -> parseHistoryCells now (all_cells cs ts) = (cs, ts).
Proof.
  intros Hf. unfold parseHistoryCells. rewrite (until_cells cs ts Hf), drop_0.
  case_decide as Hl.
  - apply eq_sym, length_zero_iff_nil in Hl. destruct Hf; [done|]. done.
  - rewrite cells_loop_cells by (done || by apply all_cells_length). f_equal.
    + apply fst_zip. apply Forall2_length in Hf. lia.
    + apply snd_zip. apply Forall2_length in Hf. lia.
Qed.

(** A history of commands without lines that look like time stamps, that
    end in a carriage return or overflow the buffer of the scanner can be
    written, and loads again as it was when the number of commands to keep is
    more than twice the lines of the file; appending a command keeps the
    history well formed and within that number, with the new command last. *)
Theorem history_roundtrip h :
  wf_history h ->
  (exists content, history_content (commands h) (timestamps h) = Ok content /\
     (1 + 2 * nl (String.list_ascii_of_string content) <= maxCommands h ->
      forall now, load now None content h = Ok h)) /\
  (forall c now, plain_command c -> 0 <= now <= MaxInt64 ->
     wf_history (appendCommand now c h) /\
     last (commands (appendCommand now c h)) = (if (maxCommands h <? 1) && bool_decide (commands h = []) then None else Some c) /\
     (0 <= maxCommands h -> Z.of_nat (length (commands h)) <= maxCommands h ->
      Z.of_nat (length (commands (appendCommand now c h))) <= maxCommands h)).
Proof.
  intros Hwf. split.
  - destruct (content_lines _ _ Hwf) as (content & Hc & Hs). exists content. split; [done|].
    intros Hnl now. unfold load, GetLastNLines.
    rewrite begin_zero by (pose proof (nl_nonneg (String.list_ascii_of_string content)); lia).
    cbn [rbind Z.to_nat]. rewrite drop_0, String.string_of_list_ascii_of_string.
    rewrite (raw_lines_content _ _ Hs), scan_lines_plain by by apply all_cells_plain.
    cbn [rbind]. rewrite parse_cells by done. by destruct h.
  - intros c now Hc Hnow. unfold appendCommand, wf_history in *.
    assert (Forall2 (fun c t => plain_command c /\ 0 <= t <= MaxInt64) (commands h ++ [c]) (timestamps h ++ [now])) as Hsnoc
      by (apply Forall2_app; [done|constructor; [by split|constructor]]).
    rewrite length_app. cbn [length]. destruct (Z.ltb_spec (maxCommands h) (Z.of_nat (length (commands h) + 1))) as [Hlt|Hge];
      cbn [commands timestamps maxCommands].
    + split_and!; [by apply Forall2_drop| |rewrite length_drop, length_app; cbn; lia].
      destruct (commands h) as [|x cs]; [cbn in Hlt |- *|cbn; rewrite andb_false_r; apply last_snoc].
      by destruct (Z.ltb_spec (maxCommands h) 1); [|lia].
    + split_and!; [done| |rewrite length_app; cbn; lia]. rewrite last_snoc.
      destruct (commands h); [|by rewrite andb_false_r]. cbn in Hge.
      by destruct (Z.ltb_spec (maxCommands h) 1); [lia|].
Qed.

Lemma history_roundtrip_witness :
  let h := mkHistory ["box.cfg{}"; "a" +:+ String lf "b"] [1700000000; 1700000001] 10000 in
  exists content, history_content (commands h) (timestamps h) = Ok content /\ load 5 None content h = Ok h.
Proof.
  intros h. destruct (history_roundtrip h) as [(content & Hc & Hl) _].
  - unfold wf_history, plain_command, plain_line. cbn [commands timestamps h].
    constructor; [|constructor; [|constructor]]; (split; [|by vm_compute]); cbn [Split];
      repeat constructor; by vm_compute.
  - exists content. split; [done|]. apply Hl. injection Hc as <-. by vm_compute.
Defined.
