(* ===== verification/Install.v ===== *)
(** * Installing programs ([cli/install/install.go], [patch.go])

    The version that is chosen, the fetch of its sources, the build, the copy
    into the directories of binaries and headers and the links of the active
    version.  Programs, the copy of directories (otiai10/copy), docker, the
    download service and the embedded patches are parameters; what is logged is
    left out. *)
From S2P Require Import Prelude GoStrings GoPath GoOs GoFs Regexp Configure Version History Search.
Local Open Scope io_scope.

Definition defaultDirPermissions : Z := 493.

(** [MajorMinorPatchRegexp]: a match at the beginning of the text. *)
Open Scope re_scope.
Definition MajorMinorPatchRegexp : re :=
  digits_re @@ lit "." @@ digits_re @@ lit "." @@ digits_re @@ RStar (RUnit (fun _ => true)).
Close Scope re_scope.

Record InstallCtx := mkInstallCtx {
  Reinstall : bool; Force : bool; Noclean : bool; Local : bool; BuildInDocker : bool;
  inst_ProgramName : string; inst_version : string; Dynamic : bool;
  inst_buildDir : string; IncDir : string; DevBuild : bool; skipMasterUpdate : bool;
  inst_verbose : bool
}.

Record Package := mkPackage { sysName : string; installName : string }.

(** ** Patches ([patch.go]) *)
Section patches.
Context (ver : Version).
Local Open Scope Z_scope.

Definition patchRange_1_to_2_6_1 : bool :=
  ((Major ver =? 2) && (Minor ver =? 6) && (Patch ver <? 1)) || (Major ver =? 1).
Definition patch_2_8_4 : bool := (Major ver =? 2) && (Minor ver =? 8) && (Patch ver =? 4).
Definition patch_2_10_beta : bool :=
  (Major ver =? 2) && (Minor ver =? 10) &&
  bool_decide (rel_Type (Version_Release ver) = TypeBeta).
Definition patch_2_10_0_rc1 : bool :=
  (Major ver =? 2) && (Minor ver =? 10) && (Patch ver =? 0) &&
  bool_decide (rel_Type (Version_Release ver) = TypeBeta) &&
  (rel_Num (Version_Release ver) =? 1).
Definition patchRange_1_to_1_10_12 : bool := (Major ver =? 1) && (Minor ver =? 10) && (Patch ver <? 12).
Definition patchRange_2_7_to_2_7_2 : bool := (Major ver =? 2) && (Minor ver =? 7) && (Patch ver <? 2).
Definition patchRange_2_7_2_to_2_7_4 : bool :=
  (Major ver =? 2) && (Minor ver =? 7) && ((Patch ver >? 1) && (Patch ver <? 4)).
Definition patchRange_2_8_1_to_2_8_4 : bool :=
  (Major ver =? 2) && (Minor ver =? 8) && ((Patch ver >? 0) && (Patch ver <? 4)).
Definition patchRange_1_to_1_10_14 : bool := (Major ver =? 1) && (Minor ver =? 10) && (Patch ver <? 14).
Definition patchRange_1_10_14_to_1_10_16 : bool :=
  (Major ver =? 1) && (Minor ver =? 10) && ((Patch ver >? 13) && (Patch ver <? 16)).
Definition patchRange_2_8_to_2_8_3 : bool := (Major ver =? 2) && (Minor ver =? 8) && (Patch ver <? 3).
Definition patchRange_2_to_2_8 : bool := (Major ver =? 2) && (Minor ver <? 8).
End patches.

(** The embedded patches. *)
Inductive patch :=
| staticBuildPatch | opensslSymbolsPatch | opensslSymbolsPatch14 | glibcPatch
| zlibPatchOld | zlibPatch | unwindPatchOld | unwindPatch | unwindPatchNew.
#[export] Instance patch_eq_dec : EqDecision patch.
Proof. solve_decision. Defined.

Definition patches : list ((Version -> bool) * patch) :=
  [(patchRange_1_to_2_6_1, staticBuildPatch);
   (patchRange_1_to_1_10_14, opensslSymbolsPatch);
   (patchRange_1_10_14_to_1_10_16, opensslSymbolsPatch14);
   (patchRange_1_to_1_10_12, glibcPatch);
   (patchRange_2_to_2_8, glibcPatch);
   (patchRange_2_8_to_2_8_3, glibcPatch);
   (patch_2_10_0_rc1, glibcPatch);
   (patchRange_2_7_to_2_7_2, zlibPatchOld);
   (patchRange_2_7_2_to_2_7_4, zlibPatch);
   (patchRange_2_8_1_to_2_8_4, zlibPatch);
   (patch_2_10_beta, zlibPatch);
   (patchRange_2_7_to_2_7_2, unwindPatchOld);
   (patch_2_8_4, unwindPatchNew);
   (patchRange_2_7_2_to_2_7_4, unwindPatch);
   (patchRange_2_8_1_to_2_8_4, unwindPatch);
   (patch_2_10_beta, unwindPatch)].

(** ** [AskConfirm]

    The standard input is the lines that are still to be read; a last line that
    does not end is the end of the input for [ReadString]. *)
Definition ErrEOF : error := Errorf "EOF" [].
Definition ErrCmdAbort : error := Errorf "aborted by user" [].

Fixpoint AskConfirm (stdin : list string) : result bool * list string :=
  match stdin with
  | [] => (Err ErrEOF, [])
  | line :: stdin =>
      let resp := ToLower (TrimSpace line) in
      if decide (resp = "y" \/ resp = "yes") then (Ok true, stdin)
      else if decide (resp = "n" \/ resp = "no") then (Ok false, stdin)
      else AskConfirm stdin
  end.

(** What installing uses beside files: programs that are run in a directory and
    may change the world, programs whose output is read, temporary files, the
    terminal, and the system. *)
Class Host (W : Type) := {
  run_program : string -> string -> list string -> string -> io W unit;
  program_output : W -> string -> string -> list string -> result string;
  os_MkdirTemp : string -> io W string;
  os_CreateTemp : string -> io W string;
  stdin : W -> list string;
  set_stdin : list string -> W -> W;
  LookupEnv : W -> string -> option string;
  unix_Writable : W -> string -> bool;
  copy_Copy : string -> string -> io W unit;
  (** [runtime.GOOS], [runtime.NumCPU] and the text of [/etc/os-release]. *)
  GOOS : string;
  NumCPU : Z;
  (** [isGitFetchJobsSupported] of the output of [git --version]. *)
  fetch_jobs_supported : string -> bool
}.

Section Install.
Context {W : Type} `{OS W, Files W, Host W}.

Definition confirm (question : string) : io W bool := fun w =>
  let '(answer, rest) := AskConfirm (stdin w) in (answer, set_stdin rest w).

(** [util.ExecuteCommand] and [util.ExecuteCommandStdin]; where the output goes is
    left out. *)
Definition work_dir (w : W) (workDir : string) : string :=
  if decide (workDir = "") then match Getwd w with Ok wd => wd | Err _ => "" end else workDir.

Definition ExecuteCommandStdin (program workDir data : string) (args : list string) : io W unit :=
  dir <- ask (fun w => work_dir w workDir) ;;
  run_program program dir args data.

Definition ExecuteCommand (program workDir : string) (args : list string) : io W unit :=
  ExecuteCommandStdin program workDir "" args.

(** ** The system *)
Definition GetArch (w : W) : result string := rmap TrimSpace (program_output w "uname" "" ["-m"]).

Definition RunCommandAndGetOutput (w : W) (program : string) (args : list string) : result string :=
  rmap TrimSpace (program_output w program "" args).

Record DistroInfo := mkDistroInfo {
  distro_Name : string; distro_Vendor : string; distro_Version : string; distro_Architecture : string }.

Definition quote : string := String (ascii_of_nat 34) "".

Definition distro_line (info : DistroInfo) (line : string) : DistroInfo :=
  match CutPrefix line "PRETTY_NAME=" with
  | Some v => mkDistroInfo (Trim v quote) (distro_Vendor info) (distro_Version info) (distro_Architecture info)
  | None =>
      match CutPrefix line "ID=" with
      | Some v => mkDistroInfo (distro_Name info) (Trim v quote) (distro_Version info) (distro_Architecture info)
      | None =>
          match CutPrefix line "VERSION_ID=" with
          | Some v => mkDistroInfo (distro_Name info) (distro_Vendor info) (Trim v quote) (distro_Architecture info)
          | None => info
          end
      end
  end.

(** The code returns what it has gathered beside an error. *)
Definition getDistroInfo (w : W) : DistroInfo * option error :=
  match GetArch w with
  | Err err => (mkDistroInfo "" "" "" "", Some err)
  | Ok arch =>
      match ReadFile w "/etc/os-release" with
      | Err err => (mkDistroInfo "" "" "" arch, Some err)
      | Ok text => (fold_left distro_line (scan_lines (raw_lines text)) (mkDistroInfo "" "" "" arch), None)
      end
  end.

(** The name and the error, which the callers ignore. *)
Definition detectOsName (w : W) : string * option error :=
  if decide (GOOS = "darwin") then ("darwin", None)
  else if decide (GOOS = "windows") then ("windows", None)
  else if decide (GOOS = "linux") then
    let '(distroInfo, err) := getDistroInfo w in (distro_Name distroInfo, err)
  else ("", Some (Errorf "unknown OS" [])).

(** ** Versions and commits of a repository *)
Definition git_path (w : W) : option error :=
  match LookPath w "git" with Ok _ => None | Err err => Some err end.

Definition programGitRepoUrls (program : string) : string :=
  if decide (program = "tarantool") then GitRepoTarantool
  else if decide (program = "tt") then GitRepoTT else "".

Definition getVersionsFromRepo (local : bool) (distfiles program repolink : string) : io W (list Version) :=
  look (fun w =>
    if local then GetVersionsFromGitLocal (git_path w) (program_output w "git" "") (filepath_Join [distfiles; program])
    else GetVersionsFromGitRemote (git_path w) (program_output w "git" "") repolink).

Definition commit_in (repo input : string) (w : W) : result string :=
  GetCommitFromGitLocal (git_path w) (program_output w "git" repo) input.

Definition GetCommitFromGitRemote (repo input : string) : io W string :=
  missing <- ask git_path ;;
  match missing with
  | Some _ => throw (Errorf "unable to get commits: `git` command is missing" [])
  | None =>
      tempRepoPath <- io_wrap "failed to get commits from %q: %s" [repo] (os_MkdirTemp "tt_install_repo") ;;
      finally (os_RemoveAll tempRepoPath)
        (io_wrap "unable to get commits: git clone failed: %w" []
           (run_program "git" "" ["clone"; "--filter=blob:none"; "--no-checkout"; "--single-branch"; repo;
                                  tempRepoPath] "") ;;;
         look (commit_in tempRepoPath input))
  end.

Definition getCommit (local : bool) (distfiles programName line : string) : io W string :=
  if local then look (commit_in (filepath_Join [distfiles; programName]) line)
  else GetCommitFromGitRemote (programGitRepoUrls programName) line.

(** [s[0:n]], which panics beyond the end of the text. *)
Definition slice_to (s : string) (n : nat) : result string :=
  if Nat.ltb (String.length s) n then Err (Errorf "panic: slice bounds out of range" [])
  else Ok (String.substring 0 n s).

(** The version to check out and the short hash of a pull request. *)
Definition checkCommit (input programName : string) (ctx : InstallCtx) (distfiles : string)
    : io W (string * string) :=
  let '(isPullRequest, _) := IsPullRequest input in
  if isPullRequest then
    commit <- attempt (getCommit (Local ctx) distfiles programName input) ;;
    match commit with
    | Err _ => throw (Errorf "%s: unable to get pull-request info" [input])
    | Ok hash => short <- look (fun _ => slice_to hash MinCommitHashLength) ;; ret (input, short)
    end
  else
    match IsValidCommitHash input with
    | (_, Some err) => throw err
    | (false, None) => throw (Errorf "hash has a wrong format" [])
    | (true, None) =>
        commit <- attempt (getCommit (Local ctx) distfiles programName input) ;;
        match commit with
        | Err _ => throw (Errorf "%s: unable to get hash info" [input])
        | Ok returnedHash => ret (returnedHash, "")
        end
    end.

(** ** Dependencies *)
Definition isProgramInstalled (w : W) (program : string) : bool := is_ok (LookPath w program).

Definition isPackageInstalledDebian (w : W) (packageName : string) : bool :=
  is_ok (program_output w "dpkg" "" ["-L"; packageName]).

Definition output_of (r : result string) : string := match r with Ok out => out | Err _ => "" end.

Definition isPackageInstalled (w : W) (packageName : string) : bool :=
  let osName := (detectOsName w).1 in
  if Contains osName "Ubuntu" || Contains osName "Debian" then isPackageInstalledDebian w packageName
  else if Contains osName "darwin" then
    Contains (output_of (RunCommandAndGetOutput w "brew" ["list"])) packageName
  else if Contains osName "CentOS" then
    Contains (output_of (RunCommandAndGetOutput w "yum" ["list"; "--installed"])) packageName
  else false.

(** The programs and packages that building needs; [None] when the system is not
    known. *)
Definition requirements (osName program : string) : option (list Package * list string) :=
  if decide (program = ProgramTt) then Some ([mkPackage "mage" "mage"; mkPackage "git" "git"], [])
  else if decide (program = ProgramCe) then
    if decide (osName = "darwin") then
      Some ([mkPackage "cmake" "cmake"; mkPackage "git" "git"; mkPackage "make" "make";
             mkPackage "clang" "clang"; mkPackage "openssl" "openssl"], [])
    else if Contains osName "Ubuntu" || Contains osName "Debian" then
      Some ([mkPackage "cmake" "cmake"; mkPackage "git" "git"; mkPackage "make" "make";
             mkPackage "gcc" " build-essential"], ["coreutils"; "sed"])
    else if Contains osName "CentOs" then
      Some ([mkPackage "cmake" "cmake"; mkPackage "git" "git"; mkPackage "make" "make";
             mkPackage "gcc" "gcc"; mkPackage "g++" "gcc-c++ "], ["libstdc++-static"; "perl"])
    else None
  else Some ([], []).

Definition nl : string := String (ascii_of_nat 10) "".

(** What to run to install the missing packages. *)
Definition install_hint (osName : string) (missing_pack missing_pack_src : list string) : string :=
  let managed (manager : string) :=
    "You can install them by running command:" +:+ nl +:+
    (if decide (missing_pack <> []) then manager +:+ Join missing_pack " " +:+ nl else "") +:+
    (if decide (missing_pack_src <> []) then "install from sources: " +:+ Join missing_pack_src " " +:+ nl else "") in
  if decide (osName = "darwin") then
    "You can install them by running commands:" +:+ nl +:+ "brew install " +:+ Join missing_pack " " +:+
    Join missing_pack_src " " +:+ nl
  else if Contains osName "CentOs" then managed " sudo yum install "
  else if Contains osName "Ubuntu" || Contains osName "Debian" then managed " sudo apt install "
  else "".

Definition missing_error (osName : string) (missing_pack missing_pack_src : list string) : error :=
  Errorf ("Missing packages: " +:+ Join missing_pack " " +:+ " " +:+ Join missing_pack_src " " +:+ nl +:+
          install_hint osName missing_pack missing_pack_src +:+
          "Usage: tt install -f if you already have those packages installed") [].

Definition programDependenciesInstalled (program : string) : io W unit :=
  osName <- ask (fun w => (detectOsName w).1) ;;
  match requirements osName program with
  | None =>
      answer <- confirm ("Unknown OS, can't check if dependencies are installed." +:+ nl +:+
                         "Proceed without checking?") ;;
      if (answer : bool) then ret tt else throw ErrCmdAbort
  | Some (programs, packages) =>
      look (fun w =>
        let absent := List.filter (fun p => negb (isProgramInstalled w (sysName p))) programs in
        let missing_pack :=
          map installName (List.filter (fun p => negb (bool_decide (sysName p = "mage"))) absent) ++
          List.filter (fun p => negb (isPackageInstalled w p)) packages in
        let missing_pack_src := map installName (List.filter (fun p => bool_decide (sysName p = "mage")) absent) in
        if decide (missing_pack = [] /\ missing_pack_src = []) then Ok tt
        else Err (missing_error osName missing_pack missing_pack_src))
  end.

(** ** Versions of the installed binaries ([cli/cmdcontext/cmdcontext.go]) *)
Definition tarantool_version_line (output : string) : result Version :=
  let versionLine := Split (hd "" (Split output (ascii_of_nat 10))) " " in
  if Nat.ltb (length versionLine) 2 then Err (Errorf "failed to get tarantool version: corrupted data" [])
  else rwrap "failed to get tarantool version: %w" [] (Parse (default "" (last versionLine))).

(** [cached] is the version that an earlier call has kept. *)
Definition TarantoolCli_GetVersion (cached : Version) (executable : string) (w : W) : result Version :=
  if decide (Str cached <> "") then Ok cached
  else if decide (executable = "") then
    Err (Errorf "tarantool executable is not set, unable to get tarantool version" [])
  else rbind tarantool_version_line
    (rwrap "failed to get tarantool version: %s" [] (program_output w executable "" ["--version"])).

Definition GetTtVersion (pathToBin : string) (w : W) : result Version :=
  if IsRegularFile w pathToBin then
    rbind ParseTt
      (rwrap "failed to get tt version: %s" [] (program_output w pathToBin "" ["--self"; "version"; "--commit"]))
  else Err (Errorf "file %q not found" [pathToBin]).

(** ** Whether a newer commit of master is wanted *)
Definition current_hash (program pathToBin : string) (w : W) : result string :=
  if decide (program = ProgramCe) then
    rbind (fun binVersion =>
      match Hash binVersion with
      | "" => Err (Errorf "could not get commit hash of the versionof an installed %s" [program])
      | String _ hash => Ok hash
      end) (TarantoolCli_GetVersion zero_version pathToBin w)
  else if decide (program = ProgramTt) then rmap Hash (GetTtVersion pathToBin w)
  else Ok "".

Definition isUpdatePossible (ctx : InstallCtx) (pathToBin program progVer distfiles : string)
    (isBinExecutable : bool) : io W bool :=
  if isBinExecutable && bool_decide (progVer = "master") then
    answer <- (if skipMasterUpdate ctx then ret false
               else confirm ("The 'master' version of the " +:+ program +:+ " has already been installed." +:+ nl +:+
                             "Would you like to update it if there are newer commits available?")) ;;
    if (answer : bool) then
      lastCommitHash <- getCommit (Local ctx) distfiles program progVer ;;
      curBinHash <- look (current_hash program pathToBin) ;;
      ret (negb (HasPrefix lastCommitHash curBinHash))
    else ret false
  else ret false.

(** ** The version to install

    [ch_Version] is the tag, the hash, [master] or the name of a pull request. *)
Record choice := mkChoice {
  ch_Version : string; ch_Found : bool; ch_IsPullRequest : bool; ch_PullRequestID : string;
  ch_PullRequestHash : string
}.

(** What is no version is a commit or a pull request. *)
Definition choose_commit (version programName : string) (ctx : InstallCtx) (distfiles : string) : io W choice :=
  let '(isPullRequest, pullRequestID) := IsPullRequest version in
  checked <- checkCommit version programName ctx distfiles ;;
  ret (mkChoice checked.1 false isPullRequest pullRequestID checked.2).

Definition latest_tt (ctx : InstallCtx) (distfiles : string) : io W string :=
  versions <- getVersionsFromRepo (Local ctx) distfiles "tt" GitRepoTT ;;
  match last versions with
  | None => throw (Errorf "no versions were fetched" [])
  | Some ver => ret (Str ver)
  end.

(** The tags of tt have the form vX.Y.Z, but X.Y.Z is accepted too. *)
Definition tt_tag (versions : list Version) (ttVersion : string) : option string :=
  let versionMatches := MatchString MajorMinorPatchRegexp ttVersion in
  (fun ver => Str ver.2) <$> list_find (fun ver =>
    ttVersion = Str ver \/ (versionMatches = true /\ "v" +:+ ttVersion = Str ver)) versions.

Definition choose_tt (ctx : InstallCtx) (distfiles : string) : io W choice :=
  ttVersion <- (if decide (inst_version ctx = "") then latest_tt ctx distfiles else ret (inst_version ctx)) ;;
  if decide (ttVersion = "master") then ret (mkChoice ttVersion false false "" "")
  else
    match Parse ttVersion with
    | Ok _ =>
        versions <- getVersionsFromRepo (Local ctx) distfiles "tt" GitRepoTT ;;
        match tt_tag versions ttVersion with
        | None => throw (Errorf "%s version of tt doesn't exist" [ttVersion])
        | Some tag => ret (mkChoice tag true false "" "")
        end
    | Err _ => choose_commit ttVersion "tt" ctx distfiles
    end.

(** The last of the versions that is a release. *)
Definition getLatestRelease (versions : list Version) : string :=
  match list_find (fun v => rel_Type (Version_Release v) = TypeRelease) (rev versions) with
  | Some (_, v) => Str v
  | None => ""
  end.

Definition choose_tarantool (ctx : InstallCtx) (distfiles : string) : io W choice :=
  tarVersion <-
    (if decide (inst_version ctx = "") then
       versions <- getVersionsFromRepo (Local ctx) distfiles "tarantool" GitRepoTarantool ;;
       let tarVersion := getLatestRelease versions in
       if decide (tarVersion = "") then throw (Errorf "no version found" []) else ret tarVersion
     else ret (inst_version ctx)) ;;
  if decide (tarVersion = "master") then ret (mkChoice tarVersion false false "" "")
  else
    match Parse tarVersion with
    | Ok _ =>
        versions <- getVersionsFromRepo (Local ctx) distfiles "tarantool" GitRepoTarantool ;;
        if existsb (fun ver => bool_decide (tarVersion = Str ver)) versions
        then ret (mkChoice tarVersion true false "" "")
        else throw (Errorf "%s version of tarantool doesn't exist" [tarVersion])
    | Err _ => choose_commit tarVersion "tarantool" ctx distfiles
    end.

(** The name of the binary. *)
Definition installed_file (program : string) (c : choice) : string :=
  program +:+ FsSeparator +:+
  (if ch_Found c then ch_Version c
   else if ch_IsPullRequest c then ch_PullRequestHash c
   else String.substring 0 (Nat.min (String.length (ch_Version c)) MinCommitHashLength) (ch_Version c)).

(** ** The sources *)
Definition IsGitFetchJobsSupported (w : W) : bool :=
  match program_output w "git" "" ["--version"] with
  | Ok out => fetch_jobs_supported out
  | Err _ => false
  end.

Definition downloadRepo (repoLink tag dst : string) : io W unit :=
  jobs <- ask IsGitFetchJobsSupported ;;
  let args :=
    if decide (tag = "master") then ["clone"; repoLink; "--recursive"; dst]
    else ["clone"; "-b"; tag; "--depth=1"; repoLink; "--recursive"; dst] in
  ExecuteCommand "git" dst (args ++ if (jobs : bool) then ["-j"; "19"] else []).

Definition gitCheckout (repoDir checkout : string) : io W unit :=
  io_wrap "failed to checkout: %s" [] (ExecuteCommand "git" repoDir ["checkout"; checkout]) ;;;
  io_wrap "failed to update submodules: %s" []
    (ExecuteCommand "git" repoDir ["submodule"; "update"; "--init"; "--recursive"]).

(** The local sources of a program ([copyLocalTarantool] and the same steps of
    [installTt]); the error of [JoinAbspath] is ignored. *)
Definition copy_local (distfiles program path checkout : string) : io W unit :=
  found <- ask (fun w => IsDir w (filepath_Join [distfiles; program])) ;;
  if (found : bool) then
    localPath <- ask (fun w => output_of (JoinAbspath w [distfiles; program])) ;;
    copy_Copy localPath path ;;;
    gitCheckout path checkout
  else throw (Errorf "can't find distfiles directory" []).

Definition copyLocalTarantool (distfiles path tarVersion : string) : io W unit :=
  copy_local distfiles "tarantool" path tarVersion.

Definition download (repo path : string) (c : choice) : io W unit :=
  if ch_Found c then downloadRepo repo (ch_Version c) path
  else
    downloadRepo repo "master" path ;;;
    (if ch_IsPullRequest c then
       ExecuteCommand "git" path
         ["fetch"; "origin"; "pull/" +:+ ch_PullRequestID c +:+ "/head:" +:+ ch_Version c]
     else ret tt) ;;;
    gitCheckout path (ch_Version c).

(** ** Links of the active version *)
Definition changeActiveTarantoolVersion (versionStr binDir incDir : string) : io W unit :=
  CreateSymlink versionStr (filepath_Join [binDir; "tarantool"]) true ;;;
  CreateSymlink versionStr (filepath_Join [incDir; "tarantool"]) true.

(** ** [installTt] *)

(** The directory of binaries or headers is made when it does not exist. *)
Definition make_dir (dir : string) : io W unit :=
  stat <- ask (fun w => Stat w dir) ;;
  match stat with
  | Ok _ => ret tt
  | Err err =>
      let fails := fun e => throw (Wrapf ("unable to create %s" +:+ nl +:+ " Error: %s") [dir] e) in
      if IsNotExist err then
        made <- attempt (os_MkdirAll dir defaultDirPermissions) ;;
        match made with Ok _ => ret tt | Err e => fails e end
      else fails err
  end.

Definition copyBuildedTT (binDir path version : string) (reinstall : bool) : io W unit :=
  make_dir binDir ;;;
  (if reinstall then os_Remove (filepath_Join [binDir; version]) else ret tt) ;;;
  CopyFilePreserve (filepath_Join [path; "tt"]) (filepath_Join [binDir; version]).

(** Whether the version that is there already is kept; when it is not, a newer
    commit of master replaces it. *)
Definition keep_existing (program pathToBin : string) (ctx : InstallCtx) (c : choice) (distfiles : string)
    : io W bool :=
  isBinExecutable <- look (fun w => IsExecOwner w pathToBin) ;;
  possible <- isUpdatePossible ctx pathToBin program (ch_Version c) distfiles isBinExecutable ;;
  ret (negb possible).

(** [os.MkdirTemp] and its removal, unless the files are to be kept. *)
Definition in_temp_dir (pattern : string) (ctx : InstallCtx) (body : string -> io W unit) : io W unit :=
  path <- os_MkdirTemp pattern ;;
  if Noclean ctx then body path else finally (os_RemoveAll path) (body path).

Definition with_log (body : io W unit) : io W unit :=
  logFile <- os_CreateTemp "tarantool_install" ;;
  finally (os_Remove logFile) body.

Definition check_dependencies (ctx : InstallCtx) (program : string) : io W unit :=
  if Force ctx then ret tt else programDependenciesInstalled program.

Definition build_tt (binDir versionStr distfiles : string) (ctx : InstallCtx) (c : choice) (reinstall : bool)
    : io W unit :=
  if decide (binDir = "") then throw (Errorf "bin_dir is not set, check %s" [ConfigName])
  else
    with_log (
      check_dependencies ctx ProgramTt ;;;
      in_temp_dir "tt_install" ctx (fun path =>
        (if Local ctx then copy_local distfiles "tt" path (ch_Version c) else download GitRepoTT path c) ;;;
        ExecuteCommand "mage" path ["build"] ;;;
        copyBuildedTT binDir path versionStr reinstall ;;;
        CreateSymlink versionStr (filepath_Join [binDir; "tt"]) true)).

Definition installTt (binDir : string) (ctx : InstallCtx) (distfiles : string) : io W unit :=
  c <- choose_tt ctx distfiles ;;
  let versionStr := installed_file ProgramTt c in
  let pathToBin := filepath_Join [binDir; versionStr] in
  exists_ <- ask (fun w => negb (Reinstall ctx) && IsRegularFile w pathToBin) ;;
  if (exists_ : bool) then
    keep <- keep_existing ProgramTt pathToBin ctx c distfiles ;;
    if (keep : bool) then CreateSymlink versionStr (filepath_Join [binDir; ProgramTt]) true
    else build_tt binDir versionStr distfiles ctx c true
  else build_tt binDir versionStr distfiles ctx c (Reinstall ctx).

(** ** Building Tarantool *)
Variable patch_text : patch -> string.

Definition apply_patch (srcPath : string) (p : patch) : io W unit :=
  ExecuteCommandStdin "git" srcPath (patch_text p) ["apply"].

Definition patchTarantool (srcPath tarVersion : string) : io W unit :=
  if decide (tarVersion = "master") then ret tt
  else
    ver <- look (fun _ => Parse tarVersion) ;;
    io_for (fun '(isApplicable, p) => if isApplicable ver : bool then apply_patch srcPath p else ret tt) patches.

Definition prepareCmakeOpts (buildPath tntVersion : string) (ctx : InstallCtx) : list string :=
  let btFlag :=
    if decide (tntVersion = "master") then "ON"
    else match Parse tntVersion with
         | Ok version => if (Major version =? 1)%Z then "OFF" else "ON"
         | Err _ => "ON"
         end in
  [".."; "-DCMAKE_TARANTOOL_ARGS=-DCMAKE_BUILD_TYPE=RelWithDebInfo;-DENABLE_WERROR=OFF;-DENABLE_BACKTRACE="
         +:+ btFlag;
   "-DCMAKE_INSTALL_PREFIX=" +:+
   (if Dynamic ctx then filepath_Join [buildPath; "tarantool-prefix"] else buildPath)].

Definition prepareMakeOpts (w : W) (ctx : InstallCtx) : list string :=
  (if Dynamic ctx then ["install"] else []) ++
  match LookupEnv w "MAKEFLAGS" with
  | Some _ => []
  | None => ["-j"; FormatInt NumCPU]
  end.

Definition buildTarantool (srcPath tarVersion : string) (ctx : InstallCtx) : io W string :=
  let buildPath :=
    if Dynamic ctx then filepath_Join [srcPath; "/dynamic-build"]
    else filepath_Join [srcPath; "/static-build/build"] in
  os_MkdirAll buildPath defaultDirPermissions ;;;
  ExecuteCommand "cmake" buildPath (prepareCmakeOpts buildPath tarVersion ctx) ;;;
  makeOpts <- ask (fun w => prepareMakeOpts w ctx) ;;
  ExecuteCommand "make" buildPath makeOpts ;;;
  ret buildPath.

Definition copyBuildedTarantool (binPath incPath binDir includeDir version : string) : io W unit :=
  make_dir binDir ;;;
  CopyFileChangePerms binPath (filepath_Join [binDir; version]) defaultDirPermissions ;;;
  make_dir includeDir ;;;
  copy_Copy incPath (filepath_Join [includeDir; version] +:+ "/").

(** ** Building in a container

    [user_Uid], [render] and [write_yaml] stand for [user.Current], the template
    engine and [util.WriteYaml]. *)
Variable tarantoolBuildDockerfile : string.
Variable user_Uid : W -> result string.
Variable render : string -> gmap string string -> result string.
Variable write_yaml : string -> CliOpts -> io W unit.

Context `{!Docker W}.

(** The options of tt inside of the container. *)
Definition container_opts : CliOpts :=
  let d := GetDefaultCliOpts in
  mkCliOpts
    ((fun e => mkTtEnvOpts "/tt_bin" "/tt_include" (env_InstancesEnabled e) (env_Restartable e)
                 (env_TarantoolctlLayout e)) <$> opts_Env d)
    (opts_Modules d) (opts_App d) (opts_EE d) (opts_Templates d)
    ((fun r => mkRepoOpts (repo_Rocks r) "/tt_distfiles") <$> opts_Repo d).

Definition install_command (tntVersion : string) (ctx : InstallCtx) : list string :=
  ["./tt"] ++ (if inst_verbose ctx then ["-V"] else []) ++ ["install"; "-f"; ProgramCe; tntVersion] ++
  (if Reinstall ctx then ["--reinstall"] else []) ++ (if Local ctx then ["--local-repo"] else []) ++
  (if Dynamic ctx then ["--dynamic"] else []).

(** A failed copy of the executable ends the function without an error. *)
Definition installTarantoolInDocker (tntVersion binDir incDir : string) (ctx : InstallCtx) (distfiles : string)
    : io W unit :=
  tmpDir <- os_MkdirTemp "docker_build_ctx" ;;
  finally (os_RemoveAll tmpDir) (
    uid <- look user_Uid ;;
    dockerfileText <- look (fun _ => render tarantoolBuildDockerfile {["uid" := uid]}) ;;
    os_WriteFile (filepath_Join [tmpDir; "Dockerfile"]) dockerfileText 436 ;;;
    currentExecutable <- look Executable ;;
    copied <- attempt (copy_Copy currentExecutable (filepath_Join [tmpDir; "tt"])) ;;
    match copied with
    | Err _ => ret tt
    | Ok _ =>
        write_yaml (filepath_Join [tmpDir; ConfigName]) container_opts ;;;
        RunContainer (mkRunOptions tmpDir "ubuntu:tt_tarantool_build" (install_command tntVersion ctx)
          [binDir +:+ ":/tt_bin"; path_Dir incDir +:+ ":/tt_include"; distfiles +:+ ":/tt_distfiles"]
          (inst_verbose ctx))
    end).

(** ** [installTarantool] *)
Definition remove_old (reinstall : bool) (binDir incDir versionStr : string) : io W unit :=
  old <- ask (fun w => reinstall && IsRegularFile w (filepath_Join [binDir; versionStr])) ;;
  if (old : bool) then
    os_RemoveAll (filepath_Join [binDir; versionStr]) ;;;
    os_RemoveAll (filepath_Join [incDir; versionStr])
  else ret tt.

Definition build_tarantool (binDir incDir versionStr distfiles : string) (ctx : InstallCtx) (c : choice)
    : io W unit :=
  with_log (
    check_dependencies ctx ProgramCe ;;;
    in_temp_dir "tarantool_install" ctx (fun path =>
      (if Local ctx then copyLocalTarantool distfiles path (ch_Version c)
       else download GitRepoTarantool path c) ;;;
      (if ch_Found c then patchTarantool path (ch_Version c) else ret tt) ;;;
      buildPath <- buildTarantool path (ch_Version c) ctx ;;
      remove_old (Reinstall ctx) binDir incDir versionStr ;;;
      copyBuildedTarantool (filepath_Join [buildPath; "tarantool-prefix"; "bin"; "tarantool"])
        (filepath_Join [buildPath; "tarantool-prefix"; "include"; "tarantool"] +:+ "/")
        binDir incDir versionStr ;;;
      changeActiveTarantoolVersion versionStr binDir incDir)).

Definition installTarantool (binDir incDir : string) (ctx : InstallCtx) (distfiles : string) : io W unit :=
  if decide (binDir = "") then throw (Errorf "bin_dir is not set, check %s" [ConfigName])
  else if decide (incDir = "") then throw (Errorf "inc_dir is not set, check %s" [ConfigName])
  else
    c <- choose_tarantool ctx distfiles ;;
    let versionStr := installed_file ProgramCe c in
    let pathToBin := filepath_Join [binDir; versionStr] in
    let build := if BuildInDocker ctx
                 then installTarantoolInDocker (ch_Version c) binDir incDir ctx distfiles
                 else build_tarantool binDir incDir versionStr distfiles ctx c in
    exists_ <- ask (fun w => negb (Reinstall ctx) && IsRegularFile w pathToBin &&
                             IsDir w (filepath_Join [incDir; versionStr])) ;;
    if (exists_ : bool) then
      keep <- keep_existing ProgramCe pathToBin ctx c distfiles ;;
      if (keep : bool) then changeActiveTarantoolVersion versionStr binDir incDir else build
    else build.

(** ** [installTarantoolEE]

    The bundles, the download and the archive are parameters. *)
Variable GetTarantoolBundleInfo_ : W -> bool -> bool -> list string -> string -> result BundleInfo.
Variable MakePkgURI : W -> string -> string -> string -> bool -> result string.
Variable GetTarantoolEE : string -> string -> string -> string -> io W unit.
Variable ExtractTar : string -> io W unit.

Definition sdk_files (ctx : InstallCtx) (repoInstall : string) : io W (list string) :=
  if Local ctx then
    localFiles <- look (fun w => os_ReadDir w repoInstall) ;;
    ret (map entry_Name (List.filter (fun f =>
           Contains (entry_Name f) "tarantool-enterprise-sdk" && negb (entry_IsDir f)) localFiles))
  else ret [].

Definition get_bundle (distfiles path bundleName bundleSource token : string) (ctx : InstallCtx) : io W unit :=
  if Local ctx then
    found <- ask (fun w => IsRegularFile w (filepath_Join [distfiles; bundleName])) ;;
    if (found : bool) then
      localPath <- ask (fun w => output_of (JoinAbspath w [distfiles; bundleName])) ;;
      CopyFilePreserve localPath (filepath_Join [path; bundleName])
    else throw (Errorf "can't find distfiles directory" [])
  else GetTarantoolEE bundleName bundleSource token path.

Definition build_ee (binDir includeDir versionStr distfiles : string) (ctx : InstallCtx) (ver : BundleInfo)
    : io W unit :=
  with_log (
    check_dependencies ctx ProgramCe ;;;
    let bundleName := Tarball (bundle_Version ver) in
    bundleSource <- look (fun w => MakePkgURI w (bundle_Package ver) (bundle_Release ver) bundleName (DevBuild ctx)) ;;
    in_temp_dir "tarantool_install" ctx (fun path =>
      get_bundle distfiles path bundleName bundleSource (bundle_Token ver) ctx ;;;
      ExtractTar (filepath_Join [path; bundleName]) ;;;
      remove_old (Reinstall ctx) binDir includeDir versionStr ;;;
      copyBuildedTarantool (filepath_Join [path; "/tarantool-enterprise/tarantool"])
        (filepath_Join [path; "/tarantool-enterprise/include/tarantool"] +:+ "/")
        binDir includeDir versionStr ;;;
      changeActiveTarantoolVersion versionStr binDir includeDir)).

Definition installTarantoolEE (binDir includeDir : string) (ctx : InstallCtx) (distfiles repoInstall : string)
    : io W unit :=
  if decide (binDir = "") then throw (Errorf "bin_dir is not set, check %s" [ConfigName])
  else if decide (includeDir = "") then throw (Errorf "inc_dir is not set, check %s" [ConfigName])
  else
    files <- sdk_files ctx repoInstall ;;
    if decide (inst_version ctx = "") then
      throw (Errorf "to install tarantool-ee, you need to specify the version" [])
    else
      let versionStr := ProgramEe +:+ FsSeparator +:+ inst_version ctx in
      exists_ <- ask (fun w => negb (Reinstall ctx) && IsRegularFile w (filepath_Join [binDir; versionStr]) &&
                               IsDir w (filepath_Join [includeDir; versionStr])) ;;
      if (exists_ : bool) then changeActiveTarantoolVersion versionStr binDir includeDir
      else
        ver <- look (fun w => GetTarantoolBundleInfo_ w (Local ctx) (DevBuild ctx) files (inst_version ctx)) ;;
        build_ee binDir includeDir versionStr distfiles ctx ver.

(** ** [installTarantoolDev] *)

(** The target of the link and whether it leads out of the directory of
    binaries. *)
Definition IsTarantoolDev (w : W) (tarantoolBinarySymlink binDir : string) : result (string * bool) :=
  rmap (fun bin =>
    let bin := if IsAbs bin then bin else filepath_Join [binDir; bin] in
    (bin, bool_decide (path_Dir bin <> binDir)))
    (os_Readlink w tarantoolBinarySymlink).

Definition searchTarantoolHeaders (w : W) (buildDir includeDir : string) : result string :=
  if decide (includeDir <> "") then
    rbind (fun includeDir =>
      if IsDir w includeDir then Ok includeDir
      else Err (Errorf "directory %v doesn't exist, or isn't a directory" [includeDir])) (Abs w includeDir)
  else
    let defaultIncPath := filepath_Join [buildDir; "tarantool-prefix"; "include"; "tarantool"] in
    Ok (if IsDir w defaultIncPath then defaultIncPath else "").

Definition dev_binaries : list string :=
  ["src/tarantool"; "tarantool/src/tarantool"; "tarantool-prefix/bin/tarantool"].

Definition is_dev_binary (w : W) (binaryPath : string) : bool :=
  match IsExecOwner w binaryPath with
  | Ok isExecOwner => isExecOwner && negb (IsDir w binaryPath)
  | Err _ => false
  end.

Definition link_dev (ttBinDir ttIncludeDir buildDir includeDir binaryPath : string) : io W unit :=
  CreateDirectory ttBinDir defaultDirPermissions ;;;
  CreateDirectory ttIncludeDir defaultDirPermissions ;;;
  CreateSymlink binaryPath (filepath_Join [ttBinDir; "tarantool"]) true ;;;
  includeDir <- look (fun w => searchTarantoolHeaders w buildDir includeDir) ;;
  let tarantoolIncludeSymlink := filepath_Join [ttIncludeDir; "tarantool"] in
  os_RemoveAll tarantoolIncludeSymlink ;;;
  if decide (includeDir = "") then ret tt else CreateSymlink includeDir tarantoolIncludeSymlink true.

Definition installTarantoolDev (ttBinDir ttIncludeDir buildDir includeDir : string) : io W unit :=
  buildDir <- io_wrap "failed to get absolute path: %v" [] (look (fun w => Abs w buildDir)) ;;
  isDir <- ask (fun w => IsDir w buildDir) ;;
  if (isDir : bool) then
    let paths := map (fun rel => filepath_Join [buildDir; rel]) dev_binaries in
    found <- ask (fun w => list_find (fun p => is_dev_binary w p = true) paths) ;;
    match found with
    | Some (_, binaryPath) => link_dev ttBinDir ttIncludeDir buildDir includeDir binaryPath
    | None => throw (Errorf ("tarantool binary was not found in the paths:" +:+ nl +:+ "%s") [Join paths nl])
    end
  else throw (Errorf "directory %v doesn't exist, or isn't directory" [buildDir]).

(** ** [Install] *)

(** The nearest directory above [dir] that exists. *)
Fixpoint subDirIsWritable (fuel : nat) (w : W) (dir : string) : option bool :=
  match fuel with
  | O => None
  | S fuel =>
      match Stat w dir with
      | Err err =>
          if IsNotExist err then subDirIsWritable fuel w (path_Dir dir) else Some (unix_Writable w dir)
      | Ok _ => Some (unix_Writable w dir)
      end
  end.

Definition check_writable (fuel : nat) (w : W) (dir : string) : result unit :=
  let refused := Err (Errorf ("the directory %s is not writeable for the current user." +:+ nl +:+
    "     Please, update rights to the directory or use 'sudo' for successful install") [dir]) in
  let writable := if unix_Writable w dir then Ok tt else refused in
  match Stat w dir with
  | Err err =>
      if IsNotExist err then
        match subDirIsWritable fuel w dir with
        | None => Err (Errorf "out of fuel" [])
        | Some true => Ok tt
        | Some false => writable
        end
      else writable
  | Ok _ => writable
  end.

(** A path gets shorter with every step up. *)
Definition check_fuel (dir : string) : nat := S (S (String.length dir)).

Definition Install (binDir includeDir : string) (ctx : InstallCtx) (local repoInstall : string) : io W unit :=
  look (fun w => check_writable (check_fuel binDir) w binDir) ;;;
  look (fun w => check_writable (check_fuel includeDir) w includeDir) ;;;
  let includeDir := filepath_Join [includeDir; "include"] in
  if decide (inst_ProgramName ctx = ProgramTt) then installTt binDir ctx local
  else if decide (inst_ProgramName ctx = ProgramCe) then installTarantool binDir includeDir ctx local
  else if decide (inst_ProgramName ctx = ProgramEe) then
    installTarantoolEE binDir includeDir ctx local repoInstall
  else if decide (inst_ProgramName ctx = ProgramDev) then
    installTarantoolDev binDir includeDir (inst_buildDir ctx) (IncDir ctx)
  else throw (Errorf "unknown application: %s" [inst_ProgramName ctx]).

(** ** [FillCtx] *)
Definition FillCtx (verbose noPrompt : bool) (commandName : string) (ctx : InstallCtx) (args : list string)
    : result InstallCtx :=
  let filled version buildDir :=
    mkInstallCtx (Reinstall ctx) (Force ctx) (Noclean ctx) (Local ctx) (BuildInDocker ctx) (inst_ProgramName ctx)
      version (Dynamic ctx) buildDir (IncDir ctx) (DevBuild ctx) noPrompt verbose in
  if decide (commandName = ProgramDev) then
    match args with
    | [dir] => Ok (filled (inst_version ctx) dir)
    | _ => Err (Errorf "exactly one build directory must be specified" [])
    end
  else
    match args with
    | [] => Ok (filled (inst_version ctx) (inst_buildDir ctx))
    | [version] => Ok (filled version (inst_buildDir ctx))
    | _ => Err (Errorf "invalid number of parameters" [])
    end.
End Install.
