(* ===== verification/Uninstall.v ===== *)
(** * Removing programs and switching between them ([cli/uninstall/uninstall.go],
    [cli/binary/switch.go], and the entry points of [cli/cmd/install.go] and
    [cli/cmd/uninstall.go])

    The binaries of a program are the files [<program>_<version>] of the directory
    of binaries, its headers the directories of the same names; the active
    version is what the link with the name of the program leads to. *)
From S2P Require Import Prelude GoStrings GoPath GoOs GoFs Regexp Configure Version History Search Install.
Local Open Scope io_scope.

Open Scope re_scope.
Definition progRegexp : re := RGroup "prog" (RAlt (lit ProgramTt) (RAlt (lit ProgramCe) (lit ProgramEe))).
Definition verRegexp : re := RGroup "ver" (RStar (RUnit any_char)).
Definition programRegex : re := progRegexp @@ lit FsSeparator @@ verRegexp.
Definition default_re (program : string) : re := lit program @@ lit FsSeparator @@ verRegexp.
Close Scope re_scope.

Definition errNotInstalled : error := Errorf "program is not installed" [].
(** [errors.Is(err, errNotInstalled)]. *)
Definition is_not_installed (e : error) : bool :=
  match e with
  | Errorf f args => bool_decide (f = "program is not installed") && bool_decide (args = [])
  | _ => false
  end.

(** The name of the link to the active version. *)
Definition link_name (program : string) : string :=
  if decide (program = ProgramCe \/ program = ProgramEe) then "tarantool" else program.

Section Uninstall.
Context {W : Type} `{OS W, Files W}.

(** ** [remove]: whether the link was removed too *)
Definition remove (program programVersion directory : string) : io W bool :=
  linkPath <- look (fun w => JoinAbspath w [directory; link_name program]) ;;
  stat <- ask (fun w => Stat w directory) ;;
  match stat with
  | Err err =>
      throw (if IsNotExist err then Errorf "couldn't find %s directory" [directory]
             else Errorf "there was some problem with %s directory" [directory])
  | Ok _ =>
      let fileName := program +:+ FsSeparator +:+ programVersion in
      let path := filepath_Join [directory; fileName] in
      stat <- ask (fun w => Stat w path) ;;
      match stat with
      | Err err =>
          throw (if IsNotExist err then errNotInstalled
                 else Errorf "there was some problem locating %s" [path])
      | Ok _ =>
          resolvedPath <- io_wrap "failed to resolve symlink %s: %s" [linkPath]
                            (look (fun w => ResolveSymlink w linkPath)) ;;
          let isSymlinkRemoved := Contains resolvedPath fileName in
          (if isSymlinkRemoved then os_Remove linkPath else ret tt) ;;;
          os_RemoveAll path ;;;
          ret isSymlinkRemoved
      end
  end.

(** ** Versions *)
Definition getAllTtVersionFormats (programName ttVersion : string) : list string :=
  ttVersion :: (if decide (programName = ProgramTt /\ MatchString MajorMinorPatchRegexp ttVersion = true)
                then ["v" +:+ ttVersion] else []).

(** The loop over the files: once a version is known every further file is an
    error. *)
Fixpoint default_loop (program : string) (ver : string) (names : list string) : result string :=
  match names with
  | [] => Ok ver
  | name :: names =>
      if decide (ver <> "") then
        Err (Errorf "%s has more than one installed version, please specify the version to uninstall" [program])
      else
        default_loop program
          (match FindNamedMatches (default_re program) name with Some matches => matches "ver" | None => "" end)
          names
  end.

Definition getDefault (program dir : string) (w : W) : result string :=
  rbind (fun installedPrograms =>
    rbind (fun ver =>
      if decide (ver = "") then Err (Errorf "%s has no installed version" [program]) else Ok ver)
      (default_loop program "" (map entry_Name installedPrograms)))
    (os_ReadDir w dir).

Definition GetList (binDir program : string) (w : W) : list string :=
  if decide (binDir = "") then []
  else
    match os_ReadDir w binDir with
    | Err _ => []
    | Ok installedPrograms =>
        omap (fun file =>
          match FindNamedMatches programRegex (entry_Name file) with
          | Some matches => if decide (matches "prog" = program) then Some (matches "ver") else None
          | None => None
          end) installedPrograms
    end.

(** ** The latest installed version *)
Record latest := mkLatest {
  latestVersionInfo : Version; latestVersion : string; hashFound : bool; latestHash : string }.

Definition has_headers (w : W) (headerDst programName binaryName : string) : bool :=
  if Contains programName "tarantool" then
    match Stat w (filepath_Join [headerDst; binaryName]) with
    | Err err => negb (IsNotExist err)
    | Ok _ => true
    end
  else true.

Definition latest_step (programsToSearch : list string) (headerDst : string) (w : W) (s : latest) (binary : DirEntry)
    : latest :=
  if entry_IsDir binary then s
  else
    let binaryName := entry_Name binary in
    match FindNamedMatches programRegex binaryName with
    | None => s
    | Some matches =>
        let programName := matches "prog" in
        if (Find programsToSearch programName =? -1)%Z then s
        else if (IsValidCommitHash (matches "ver")).1 then
          if hashFound s then s
          else if has_headers w headerDst programName binaryName then
            mkLatest (latestVersionInfo s) (latestVersion s) true binaryName
          else s
        else
          match Parse (matches "ver") with
          | Err _ => s
          | Ok ver =>
              if has_headers w headerDst programName binaryName then
                if bool_decide (latestVersion s = "") || IsLess (latestVersionInfo s) ver
                then mkLatest ver binaryName (hashFound s) (latestHash s)
                else s
              else s
          end
    end.

Definition searchLatestVersion (linkName binDst headerDst : string) (w : W) : result string :=
  let programsToSearch := if decide (linkName = "tarantool") then [ProgramCe; ProgramEe] else [linkName] in
  rmap (fun binaries =>
    let s := fold_left (latest_step programsToSearch headerDst w) binaries (mkLatest zero_version "" false "") in
    if decide (latestVersion s <> "") then latestVersion s else latestHash s)
    (os_ReadDir w binDst).

Definition switchProgramToLatestVersion (program binDst headerDst : string) : io W unit :=
  let linkName :=
    if decide (program = ProgramCe \/ program = ProgramEe \/ program = ProgramDev) then "tarantool" else program in
  progToSwitch <- look (searchLatestVersion linkName binDst headerDst) ;;
  if decide (progToSwitch = "") then ret tt
  else
    CreateSymlink (filepath_Join [binDst; progToSwitch]) (filepath_Join [binDst; linkName]) true ;;;
    if decide (linkName = "tarantool") then
      CreateSymlink (filepath_Join [headerDst; progToSwitch]) (filepath_Join [headerDst; linkName]) true
    else ret tt.

(** ** [UninstallProgram] *)
Fixpoint remove_first (program binDst : string) (versions : list string) : io W bool :=
  match versions with
  | [] => throw errNotInstalled
  | verToDel :: versions =>
      removed <- attempt (remove program verToDel binDst) ;;
      match removed with
      | Ok isSymlinkRemoved => ret isSymlinkRemoved
      | Err err => if is_not_installed err then remove_first program binDst versions else throw err
      end
  end.

Definition uninstall_dev (binDst headerDst : string) : io W unit :=
  let tarantoolBinarySymlink := filepath_Join [binDst; "tarantool"] in
  dev <- look (fun w => IsTarantoolDev w tarantoolBinarySymlink binDst) ;;
  if dev.2 : bool then
    os_Remove tarantoolBinarySymlink ;;;
    headers <- attempt (os_Remove (filepath_Join [headerDst; "tarantool"])) ;;
    match headers with
    | Err err =>
        if IsNotExist err then switchProgramToLatestVersion ProgramDev binDst headerDst else throw err
    | Ok _ => switchProgramToLatestVersion ProgramDev binDst headerDst
    end
  else throw (Errorf "%s is not installed" [ProgramDev]).

Definition UninstallProgram (program programVersion binDst headerDst : string) : io W unit :=
  if decide (program = ProgramDev) then uninstall_dev binDst headerDst
  else
    programVersion <- (if decide (programVersion = "") then look (getDefault program binDst)
                       else ret programVersion) ;;
    isSymlinkRemoved <- remove_first program binDst (getAllTtVersionFormats program programVersion) ;;
    (if Contains program "tarantool" then remove program programVersion headerDst ;;; ret tt else ret tt) ;;;
    if (isSymlinkRemoved : bool) then switchProgramToLatestVersion program binDst headerDst else ret tt.

(** ** Switching ([switch.go]) *)
Record SwitchCtx := mkSwitchCtx {
  sw_BinDir : string; sw_IncDir : string; sw_ProgramName : string; sw_Version : string }.

Definition not_installed (ctx : SwitchCtx) : error :=
  Errorf "%s %s is not installed in current environment" [sw_ProgramName ctx; sw_Version ctx].

Definition switchTt (ctx : SwitchCtx) : io W unit :=
  let ttVersion := if HasPrefix (sw_Version ctx) "v" then sw_Version ctx else "v" +:+ sw_Version ctx in
  let versionStr := ProgramTt +:+ FsSeparator +:+ ttVersion in
  found <- ask (fun w => IsRegularFile w (filepath_Join [sw_BinDir ctx; versionStr])) ;;
  if (found : bool) then
    io_wrap "failed to switch version: %s" []
      (CreateSymlink versionStr (filepath_Join [sw_BinDir ctx; "tt"]) true)
  else throw (not_installed ctx).

Definition switchTarantool (ctx : SwitchCtx) (enterprise : bool) : io W unit :=
  let versionStr := (if enterprise then ProgramEe else ProgramCe) +:+ FsSeparator +:+ sw_Version ctx in
  found <- ask (fun w => IsRegularFile w (filepath_Join [sw_BinDir ctx; versionStr]) &&
                         IsDir w (filepath_Join [sw_IncDir ctx; "include"; versionStr])) ;;
  if (found : bool) then
    io_wrap "failed to switch version: %s" []
      (CreateSymlink versionStr (filepath_Join [sw_BinDir ctx; "tarantool"]) true) ;;;
    io_wrap "failed to switch version: %s" []
      (CreateSymlink versionStr (filepath_Join [sw_IncDir ctx; "include"; "tarantool"]) true)
  else throw (not_installed ctx).

Definition binary_Switch (ctx : SwitchCtx) : io W unit :=
  if decide (sw_ProgramName ctx = ProgramTt) then switchTt ctx
  else if decide (sw_ProgramName ctx = ProgramCe) then switchTarantool ctx false
  else if decide (sw_ProgramName ctx = ProgramEe) then switchTarantool ctx true
  else throw (Errorf "unknown application: %s" [sw_ProgramName ctx]).

(** ** The commands *)
Definition InternalUninstallModule (configPath programName binDir includeDir : string) (noConfig : error)
    (args : list string) : io W unit :=
  if decide (configPath = "") then throw noConfig
  else
    match args with
    | [] => UninstallProgram programName "" binDir (includeDir +:+ "/include")
    | [version] => UninstallProgram programName version binDir (includeDir +:+ "/include")
    | _ => throw (Errorf "wrong number of arguments" [])
    end.
End Uninstall.
