(* ===== verification/Disk.v ===== *)
(** * A file system

    The calls of [GoOs.OS] and [GoFs.Files] on a disk: a tree of files,
    directories and symbolic links, as the map from the elements of absolute paths
    to what is there.  A path is walked element by element, links are followed, at
    most forty of them as on Linux.  Any call may also fail for reasons of its own
    (permissions, devices): [m_deny] says which do, and [m_spared] what a failed
    [RemoveAll] leaves.  Patterns of [Glob] are not expanded. *)
From S2P Require Import Prelude GoStrings GoPath GoOs GoFs.
Local Open Scope Z_scope.

Inductive node :=
| NFile (content : string) (mode : Z)
| NDir
| NLink (target : string).

Notation disk := (gmap (list string) node).

Definition ENOTDIR : error := Errorf "not a directory" [].
Definition ELOOP : error := Errorf "too many levels of symbolic links" [].
Definition EEXIST : error := Errorf "file exists" [].
Definition ENOTEMPTY : error := Errorf "directory not empty" [].
Definition EISDIR : error := Errorf "is a directory" [].
Definition EINVAL : error := Errorf "invalid argument" [].

(** The elements of a path. *)
Definition path_elems (path : string) : list string :=
  List.filter (fun c => negb (bool_decide (c = "" \/ c = "."))) (Split path "/").

(** The path that [rest] leads to from the directory [cur]; the last element may
    be missing, and is followed when it is a link and [follow] is set. *)
Definition walk_in (d : disk) (follow : bool) (on_link : list string -> string -> list string -> result (list string))
    : list string -> list string -> result (list string) :=
  fix go (cur rest : list string) :=
    match rest with
    | [] => Ok cur
    | c :: rest =>
        if decide (c = "..") then go (removelast cur) rest
        else
          let p := cur ++ [c] in
          match d !! p, rest with
          | None, [] => Ok p
          | None, _ => Err ErrNotExist
          | Some NDir, _ => go p rest
          | Some (NFile _ _), [] => Ok p
          | Some (NFile _ _), _ => Err ENOTDIR
          | Some (NLink t), [] => if follow then on_link cur t [] else Ok p
          | Some (NLink t), _ => on_link cur t rest
          end
    end.

Fixpoint walk (links : nat) (d : disk) (follow : bool) (cur rest : list string) : result (list string) :=
  walk_in d follow (fun cur t rest =>
    match links with
    | O => Err ELOOP
    | S links => walk links d follow (if IsAbs t then [] else cur) (path_elems t ++ rest)
    end) cur rest.

Definition max_links : nat := 40.

Record machine := mkMachine {
  m_disk : disk; m_cwd : string; m_env : string -> string; m_path : string -> result string;
  m_exe : result string; m_deny : string -> list string -> option error; m_spared : list string -> bool
}.

Definition with_disk (m : machine) (d : disk) : machine :=
  mkMachine d (m_cwd m) (m_env m) (m_path m) (m_exe m) (m_deny m) (m_spared m).

(** What is left of a path below another one, and a disk without a tree. *)
Fixpoint below (p q : list string) : option (list string) :=
  match p, q with
  | [], _ => Some q
  | x :: p, y :: q => if decide (x = y) then below p q else None
  | _ :: _, [] => None
  end.

Definition drop_tree (p : list string) (d : disk) : disk := filter (fun kv => below p kv.1 = None) d.

Section machine.
Context (m : machine).

Definition resolve (follow : bool) (path : string) : result (list string) :=
  if decide (path = "") then Err ErrNotExist
  else walk max_links (m_disk m) follow (if IsAbs path then [] else path_elems (m_cwd m)) (path_elems path).

(** What is at a resolved path; the root is a directory. *)
Definition node_at (p : list string) : option node :=
  match p with [] => Some NDir | _ => m_disk m !! p end.

Definition find_node (call : string) (follow : bool) (path : string) : result (list string * node) :=
  rbind (fun p =>
    match m_deny m call p with
    | Some e => Err e
    | None => match node_at p with Some n => Ok (p, n) | None => Err ErrNotExist end
    end) (resolve follow path).

Definition kind_of (n : node) : FileKind :=
  match n with NFile _ _ => RegularFile | NDir => Directory | NLink _ => Symlink end.

Definition info (path : string) (pn : list string * node) : FileInfo :=
  mkFileInfo (path_Base path) (kind_of pn.2) (Zpos (encode pn.1)).

(** The names in a directory, sorted. *)
Definition child (p : list string) (kv : list string * node) : option DirEntry :=
  match below p kv.1 with
  | Some [c] => Some (mkDirEntry c (bool_decide (kind_of kv.2 = Directory)))
  | _ => None
  end.

Definition entries (p : list string) : list DirEntry :=
  insertion_sort (fun a b => String.ltb (entry_Name a) (entry_Name b)) (omap (child p) (map_to_list (m_disk m))).

Definition read_dir (path : string) : result (list DirEntry) :=
  rbind (fun '(p, n) => match n with NDir => Ok (entries p) | _ => Err ENOTDIR end)
    (find_node "open" true path).

Definition read_file (path : string) : result string :=
  rbind (fun '(_, n) => match n with NFile content _ => Ok content | _ => Err EISDIR end)
    (find_node "open" true path).

Definition perm_of (n : node) : Z := match n with NFile _ mode => mode | _ => 493 end.

Definition readlink (path : string) : result string :=
  rbind (fun '(_, n) => match n with NLink t => Ok t | _ => Err EINVAL end) (find_node "readlink" false path).

(** [filepath.EvalSymlinks] of an absolute path. *)
Definition eval_symlinks (path : string) : result string :=
  rmap (fun pn => abs_path pn.1) (find_node "lstat" true path).

(** ** Changes *)
Definition change (r : result disk) : result unit * machine :=
  match r with
  | Ok d => (Ok tt, with_disk m d)
  | Err e => (Err e, m)
  end.

Definition denied (call : string) (p : list string) (d : result disk) : result disk :=
  match m_deny m call p with Some e => Err e | None => d end.

Definition is_empty_dir (p : list string) : bool :=
  bool_decide (map_Forall (fun q _ => below p q = None \/ below p q = Some []) (m_disk m)).

Definition do_remove (path : string) : result unit * machine :=
  change (rbind (fun '(p, n) =>
    match p, n with
    | [], _ => Err EINVAL
    | _, NDir => if is_empty_dir p then Ok (delete p (m_disk m)) else Err ENOTEMPTY
    | _, _ => Ok (delete p (m_disk m))
    end) (find_node "unlink" false path)).

(** A failed removal has removed a part of the tree. *)
Definition do_remove_all (path : string) : result unit * machine :=
  match resolve false path with
  | Err e => if IsNotExist e then (Ok tt, m) else (Err e, m)
  | Ok [] => (Err EINVAL, m)
  | Ok p =>
      match m_deny m "unlink" p with
      | Some e =>
          (Err e, with_disk m (filter (fun kv => below p kv.1 = None \/ m_spared m kv.1 = true) (m_disk m)))
      | None => (Ok tt, with_disk m (drop_tree p (m_disk m)))
      end
  end.

Definition do_symlink (oldName newName : string) : result unit * machine :=
  change (rbind (fun p =>
    denied "symlink" p
      match node_at p with
      | Some _ => Err EEXIST
      | None => Ok (<[p := NLink oldName]> (m_disk m))
      end) (resolve false newName)).

Definition do_write (path content : string) (perm : Z) : result unit * machine :=
  change (rbind (fun p =>
    denied "open" p
      match node_at p with
      | Some (NFile _ mode) => Ok (<[p := NFile content mode]> (m_disk m))
      | Some _ => Err EISDIR
      | None => Ok (<[p := NFile content perm]> (m_disk m))
      end) (resolve true path)).
End machine.

(** The directories of a path, from the root. *)
Definition mkdir (m : machine) (path : string) : result unit * machine :=
  match resolve m true path with
  | Err e => (Err e, m)
  | Ok p =>
      match node_at m p with
      | Some NDir => (Ok tt, m)
      | Some _ => (Err ENOTDIR, m)
      | None =>
          change m (rbind (fun p =>
            denied m "mkdir" p
              match node_at m p with
              | Some _ => Err EEXIST
              | None => Ok (<[p := NDir]> (m_disk m))
              end) (resolve m false path))
      end
  end.

Fixpoint do_mkdirs (prefix : string) (names : list string) (m : machine) : result unit * machine :=
  match names with
  | [] => (Ok tt, m)
  | c :: names =>
      let path := prefix +:+ c in
      match mkdir m path with
      | (Err e, m) => (Err e, m)
      | (Ok _, m) => do_mkdirs (path +:+ "/") names m
      end
  end.

#[export] Instance machine_OS : OS machine := {
  Getwd m := Ok (m_cwd m);
  Chdir m path :=
    rbind (fun '(p, n) => match n with
                          | NDir => Ok (mkMachine (m_disk m) (abs_path p) (m_env m) (m_path m) (m_exe m) (m_deny m)
                                          (m_spared m))
                          | _ => Err ENOTDIR end) (find_node m "chdir" true path);
  Getenv m := m_env m;
  Stat m path := rmap (info path) (find_node m "stat" true path);
  Glob m _ := Ok [];
  ReadDir m path := rmap (map entry_Name) (read_dir m path);
  ReadFile := read_file;
  LookPath m := m_path m;
  EvalSymlinks := eval_symlinks;
  Executable m := m_exe m
}.

#[export] Instance machine_Files : Files machine := {
  os_Readlink := readlink;
  os_ReadDir := read_dir;
  os_Perm m path := rmap (fun pn => perm_of pn.2) (find_node m "stat" true path);
  os_Remove path m := do_remove m path;
  os_RemoveAll path m := do_remove_all m path;
  os_Symlink oldName newName m := do_symlink m oldName newName;
  os_MkdirAll path _ m := do_mkdirs (if IsAbs path then "/" else "") (path_elems path) m;
  os_WriteFile path content perm m := do_write m path content perm
}.

(** * Facts about the file system of [Disk]

    What the calls do to an entry of a directory whose path has no links. *)
Local Close Scope Z_scope.

(** A directory under its own name, and so are those above it. *)
Definition real (d : disk) (b : list string) : Prop :=
  Forall name b /\ forall q, q `prefix_of` b -> q <> [] -> d !! q = Some NDir.

Lemma name_not_dotdot c : name c -> c <> "..".
Proof. by intros (_ & _ & ? & _). Qed.

Lemma real_prefix d b q : real d (b ++ q) -> real d b.
Proof.
  intros [Hn Hp]. split; [by apply Forall_app in Hn as [? _]|].
  intros r Hr. apply Hp. by apply prefix_app_r.
Qed.

Lemma real_root d : real d [].
Proof. split; [done|]. by intros q ->%prefix_nil_inv. Qed.

Lemma real_snoc d b c : real d b -> name c -> d !! (b ++ [c]) = Some NDir -> real d (b ++ [c]).
Proof.
  intros [Hn Hp] Hc Hd. split; [apply Forall_app; by split; [|constructor]|].
  intros q Hq Hne. destruct (decide (q = b ++ [c])) as [->|Hx]; [done|]. apply Hp; [|done].
  destruct Hq as [k Hk]. destruct k as [|x k _] using rev_ind; [by rewrite app_nil_r in Hk|].
  rewrite (assoc_L (++)) in Hk. apply app_inj_tail in Hk as [-> _]. by eexists.
Qed.

Lemma real_change (d d' : disk) b :
  (forall q, q `prefix_of` b -> d' !! q = d !! q) -> real d b -> real d' b.
Proof. intros Hd [Hn Hp]. split; [done|]. intros q Hq Hne. rewrite Hd by done. by apply Hp. Qed.

Lemma path_elems_abs cs : Forall name cs -> path_elems (abs_path cs) = cs.
Proof.
  intros Hcs. destruct (decide (cs = [])) as [->|Hne]; [reflexivity|].
  unfold path_elems. rewrite Split_abs by done. cbn [List.filter].
  rewrite bool_decide_eq_true_2 by auto. cbn [negb]. clear Hne. induction Hcs as [|c cs (H1 & H2 & _) _ IH]; [done|].
  cbn [List.filter]. rewrite bool_decide_eq_false_2 by naive_solver. cbn [negb]. by rewrite IH.
Qed.

Lemma path_elems_slash cs : Forall name cs -> path_elems (abs_path cs +:+ "/") = cs.
Proof.
  intros Hcs. rewrite <- (path_elems_abs cs Hcs) at 2. unfold path_elems.
  rewrite (Split_app_last (abs_path cs) ""), List.filter_app. cbn [Split List.filter]. by rewrite app_nil_r.
Qed.

(** ** Walking *)
Lemma walk_cons links d follow cur c rest :
  c <> ".." -> d !! (cur ++ [c]) = Some NDir ->
  walk links d follow cur (c :: rest) = walk links d follow (cur ++ [c]) rest.
Proof. intros Hc Hd. destruct links; cbn [walk walk_in]; rewrite decide_False by done; by rewrite Hd. Qed.

Lemma walk_real_from links d follow cur b rest :
  Forall name b -> (forall q, q `prefix_of` b -> q <> [] -> d !! (cur ++ q) = Some NDir) ->
  walk links d follow cur (b ++ rest) = walk links d follow (cur ++ b) rest.
Proof.
  revert cur. induction b as [|c b IH]; intros cur Hn Hp; [by rewrite app_nil_r|].
  apply Forall_cons in Hn as [Hc Hn]. cbn [app].
  rewrite walk_cons; [|by apply name_not_dotdot|].
  - rewrite IH, <- (assoc_L (++)); [done|done|]. intros q Hq Hne. rewrite <- (assoc_L (++)).
    apply (Hp (c :: q)); [by apply prefix_cons|done].
  - apply (Hp [c]); [|done]. apply prefix_cons, prefix_nil.
Qed.

Lemma walk_real links d follow b rest :
  real d b -> walk links d follow [] (b ++ rest) = walk links d follow b rest.
Proof. intros [Hn Hp]. by apply walk_real_from. Qed.

Lemma abs_path_ne cs : abs_path cs <> "".
Proof. done. Qed.

Section entry.
Context (m : machine) (b : list string) (Hb : real (m_disk m) b).
Let d := m_disk m.

Lemma resolve_real follow : resolve m follow (abs_path b) = Ok b.
Proof.
  unfold resolve. rewrite decide_False by done. change (IsAbs (abs_path b)) with true. cbv iota.
  rewrite path_elems_abs by apply Hb. rewrite <- (app_nil_r b) at 1. by rewrite walk_real.
Qed.

Lemma node_at_real : node_at m b = Some NDir.
Proof. destruct b as [|x l] eqn:E; [done|]. cbn [node_at]. destruct Hb as [_ Hp]. by apply Hp. Qed.

Lemma resolve_walk c follow :
  name c -> resolve m follow (abs_path (b ++ [c])) = walk max_links d follow b [c].
Proof.
  intros Hc. unfold resolve. rewrite decide_False by done. change (IsAbs (abs_path (b ++ [c]))) with true. cbv iota.
  rewrite path_elems_abs by (apply Forall_app; split; [apply Hb|by constructor]). by apply walk_real.
Qed.

(** The entry itself, when links are not followed or it is none. *)
Lemma resolve_entry c follow :
  name c -> follow = false \/ (forall t, d !! (b ++ [c]) <> Some (NLink t)) ->
  resolve m follow (abs_path (b ++ [c])) = Ok (b ++ [c]).
Proof.
  intros Hc Hf. rewrite resolve_walk by done. unfold max_links. cbn [walk walk_in].
  rewrite decide_False by by apply name_not_dotdot. fold d.
  destruct (d !! (b ++ [c])) as [[]|] eqn:E; try done. destruct Hf as [->|Hf]; [done|naive_solver].
Qed.

Lemma node_at_entry c : node_at m (b ++ [c]) = d !! (b ++ [c]).
Proof. by destruct b. Qed.

Lemma find_entry call c follow :
  name c -> follow = false \/ (forall t, d !! (b ++ [c]) <> Some (NLink t)) ->
  find_node m call follow (abs_path (b ++ [c])) =
  match m_deny m call (b ++ [c]) with
  | Some e => Err e
  | None => match d !! (b ++ [c]) with Some n => Ok (b ++ [c], n) | None => Err ErrNotExist end
  end.
Proof. intros Hc Hf. unfold find_node. rewrite resolve_entry by done. cbn [rbind]. by rewrite node_at_entry. Qed.

(** Whatever is there, when something is found. *)
Lemma find_exists call c follow r :
  name c -> find_node m call follow (abs_path (b ++ [c])) = Ok r -> is_Some (d !! (b ++ [c])).
Proof.
  intros Hc. unfold find_node. rewrite resolve_walk by done. unfold max_links. cbn [walk walk_in].
  rewrite decide_False by by apply name_not_dotdot. fold d. destruct (d !! (b ++ [c])) as [n|] eqn:E; [by eauto|].
  cbn [rbind]. rewrite node_at_entry, E. by destruct (m_deny m call (b ++ [c])).
Qed.

(** ** Changes of an entry *)
Lemma remove_entry c r m' :
  name c -> os_Remove (abs_path (b ++ [c])) m = (r, m') ->
  (r = Ok tt -> is_Some (d !! (b ++ [c])) /\ m' = with_disk m (delete (b ++ [c]) d)) /\
  (forall e, r = Err e -> m' = m).
Proof.
  intros Hc. cbn [os_Remove machine_Files]. unfold do_remove. rewrite find_entry by auto.
  destruct (m_deny m "unlink" (b ++ [c])); cbn [rbind change]; [by intros [= <- <-]|].
  destruct (d !! (b ++ [c])) as [n|] eqn:E; cbn [rbind change]; [|by intros [= <- <-]].
  assert (exists x l, b ++ [c] = x :: l) as (x & l & Hx) by (destruct b; eauto).
  rewrite Hx. destruct n; [| |].
  - intros [= <- <-]. split; [|done]. by eauto.
  - destruct (is_empty_dir m (x :: l)); intros [= <- <-]; (split; [|done]); by eauto.
  - intros [= <- <-]. split; [|done]. by eauto.
Qed.

Lemma symlink_entry old c r m' :
  name c -> os_Symlink old (abs_path (b ++ [c])) m = (r, m') ->
  (r = Ok tt -> d !! (b ++ [c]) = None /\ m' = with_disk m (<[b ++ [c] := NLink old]> d)) /\
  (forall e, r = Err e -> m' = m).
Proof.
  intros Hc. cbn [os_Symlink machine_Files]. unfold do_symlink. rewrite resolve_entry by auto.
  cbn [rbind]. unfold denied. rewrite node_at_entry.
  destruct (m_deny m "symlink" (b ++ [c])); cbn [change]; [by intros [= <- <-]|].
  destruct (d !! (b ++ [c])); cbn [change]; by intros [= <- <-].
Qed.

Lemma remove_all_entry c r m' :
  name c -> os_RemoveAll (abs_path (b ++ [c])) m = (r, m') ->
  r = Ok tt -> m' = with_disk m (drop_tree (b ++ [c]) d).
Proof.
  intros Hc. cbn [os_RemoveAll machine_Files]. unfold do_remove_all. rewrite resolve_entry by auto.
  assert (exists x l, b ++ [c] = x :: l) as (x & l & Hx) by (destruct b; eauto). rewrite Hx.
  destruct (m_deny m "unlink" (x :: l)); by intros [= <- <-] ?.
Qed.
End entry.

Lemma below_prefix p q : (exists r, below p q = Some r) <-> p `prefix_of` q.
Proof.
  revert q. induction p as [|x p IH]; intros q; cbn [below].
  - split; [intros _; apply prefix_nil|]. eauto.
  - destruct q as [|y q].
    + split; [by intros []|]. intros [k Hk]. done.
    + case_decide as E.
      * subst y. rewrite IH. split; [apply prefix_cons|]. by intros ?%prefix_cons_inv_2.
      * split; [by intros []|]. intros [= ?]%prefix_cons_inv_1. done.
Qed.

Lemma lookup_drop_tree (p : list string) (d : disk) (q : list string) :
  drop_tree p d !! q = if decide (p `prefix_of` q) then None else d !! q.
Proof.
  unfold drop_tree. case_decide as Hp.
  - apply map_lookup_filter_None. right. intros n _. cbn. intros Hb. apply below_prefix in Hp as [r Hr]. congruence.
  - destruct (d !! q) as [n|] eqn:E.
    + apply map_lookup_filter_Some. split; [done|]. cbn. destruct (below p q) eqn:Eb; [|done].
      exfalso. apply Hp, below_prefix. eauto.
    + apply map_lookup_filter_None. by left.
Qed.

(** Changes below a directory leave it where it is. *)
Lemma snoc_not_prefix (b q : list string) c : q `prefix_of` b -> q <> b ++ [c].
Proof. intros Hq ->. apply prefix_length in Hq. rewrite length_app in Hq. cbn in Hq. lia. Qed.

Lemma real_drop d b p : ~ p `prefix_of` b -> real d b -> real (drop_tree p d) b.
Proof.
  intros Hp. apply real_change. intros q Hq. rewrite lookup_drop_tree, decide_False; [done|].
  intros Hx. by apply Hp, (transitivity Hx).
Qed.

Lemma real_delete d b p : ~ p `prefix_of` b -> real d b -> real (delete p d) b.
Proof. intros Hp. apply real_change. intros q Hq. rewrite lookup_delete_ne; [done|]. by intros ->. Qed.

Lemma real_insert d b p n : ~ p `prefix_of` b -> real d b -> real (<[p := n]> d) b.
Proof. intros Hp. apply real_change. intros q Hq. rewrite lookup_insert_ne; [done|]. by intros ->. Qed.

Lemma entry_not_prefix (b : list string) c : ~ (b ++ [c]) `prefix_of` b.
Proof. intros Hp. by apply (snoc_not_prefix b _ c) in Hp. Qed.

Lemma prefix_of_snoc (p l : list string) x : p `prefix_of` l ++ [x] -> p `prefix_of` l \/ p = l ++ [x].
Proof.
  intros [k Hk]. destruct k as [|z k _] using rev_ind; [right; by rewrite app_nil_r in Hk|left].
  rewrite (assoc_L (++)) in Hk. apply app_inj_tail in Hk as [-> _]. by apply prefix_app_r.
Qed.

(** ** Links *)
Section links.
Context (m : machine) (b : list string) (Hb : real (m_disk m) b) (c : string) (Hc : name c).

Lemma CreateSymlink_entry old r m' :
  CreateSymlink old (abs_path (b ++ [c])) true m = (r, m') ->
  r = Ok tt -> m' = with_disk m (<[b ++ [c] := NLink old]> (m_disk m)).
Proof.
  unfold CreateSymlink, io_bind, ask. intros Hr ->.
  destruct (Stat m (abs_path (b ++ [c]))) as [fi|e].
  - destruct (os_Remove (abs_path (b ++ [c])) m) as [[[]|e] m1] eqn:Er; [|done].
    destruct (remove_entry m b Hb c _ _ Hc Er) as [Ho _]. destruct (Ho eq_refl) as [_ ->].
    destruct (symlink_entry (with_disk m (delete (b ++ [c]) (m_disk m))) b
      (real_delete _ _ _ (entry_not_prefix b c) Hb) old c _ _ Hc Hr) as [Hs _].
    destruct (Hs eq_refl) as [_ ->]. cbn [m_disk with_disk]. by rewrite insert_delete_eq.
  - destruct (IsNotExist e); [|done]. destruct (symlink_entry m b Hb old c _ _ Hc Hr) as [Hs _].
    by destruct (Hs eq_refl) as [_ ->].
Qed.

(** A link that leads nowhere is in the way. *)
Lemma CreateSymlink_dangling old t e :
  m_disk m !! (b ++ [c]) = Some (NLink t) -> Stat m (abs_path (b ++ [c])) = Err e ->
  exists e', CreateSymlink old (abs_path (b ++ [c])) true m = (Err e', m).
Proof.
  intros Ht He. unfold CreateSymlink, io_bind, ask. rewrite He.
  destruct (IsNotExist e); [|by eexists].
  destruct (os_Symlink old (abs_path (b ++ [c])) m) as [r m'] eqn:Er.
  destruct (symlink_entry m b Hb old c _ _ Hc Er) as [Ho Hf]. destruct r as [[]|e'].
  - destruct (Ho eq_refl) as [Hn _]. congruence.
  - rewrite (Hf e' eq_refl). by eexists.
Qed.
End links.

(** ** Files and directories that are made *)
Lemma real_keep_dirs (d d' : disk) b :
  (forall q, d !! q = Some NDir -> d' !! q = Some NDir) -> real d b -> real d' b.
Proof. intros Hd [Hn Hp]. split; [done|]. intros q Hq Hne. by apply Hd, Hp. Qed.

Lemma write_entry m b c data perm m' :
  real (m_disk m) b -> name c -> os_WriteFile (abs_path (b ++ [c])) data perm m = (Ok tt, m') ->
  is_Some (m_disk m' !! (b ++ [c])) /\ (forall q, is_Some (m_disk m !! q) -> is_Some (m_disk m' !! q)) /\
  (forall q, m_disk m !! q = Some NDir -> m_disk m' !! q = Some NDir).
Proof.
  intros Hb Hc. cbn [os_WriteFile machine_Files]. unfold do_write.
  destruct (resolve m true (abs_path (b ++ [c]))) as [p|] eqn:Er; [|done]. cbn [rbind].
  unfold denied. destruct (m_deny m "open" p); [done|].
  assert (forall n, node_at m p <> Some NDir -> change m (Ok (<[p := NFile data n]> (m_disk m))) = (Ok tt, m') ->
    is_Some (m_disk m' !! (b ++ [c])) /\ (forall q, is_Some (m_disk m !! q) -> is_Some (m_disk m' !! q)) /\
    (forall q, m_disk m !! q = Some NDir -> m_disk m' !! q = Some NDir)) as Hw.
  { intros n Hp [= <-]. cbn [m_disk with_disk].
    assert (forall q, is_Some (m_disk m !! q) -> is_Some (<[p := NFile data n]> (m_disk m) !! q)) as Hs.
    { intros q Hq. by apply lookup_insert_is_Some'; right. }
    split_and!; [|done|].
    - destruct (m_disk m !! (b ++ [c])) as [x|] eqn:E; [apply Hs; eauto|].
      rewrite (resolve_entry m b Hb c true Hc) in Er by (right; intros t; by rewrite E). injection Er as <-.
      apply lookup_insert_is_Some'. by left.
    - intros q Hq. rewrite lookup_insert_ne; [done|]. intros ->. apply Hp. by destruct q. }
  destruct (node_at m p) as [[]|] eqn:En; try (by intros [= ]); apply Hw; congruence.
Qed.

Lemma mkdir_real m b : real (m_disk m) b -> mkdir m (abs_path b) = (Ok tt, m).
Proof. intros Hb. unfold mkdir. by rewrite resolve_real, node_at_real. Qed.

Lemma mkdirs_real m b rest :
  real (m_disk m) (b ++ rest) ->
  do_mkdirs (if decide (b = []) then "/" else abs_path b +:+ "/") rest m = (Ok tt, m).
Proof.
  revert b. induction rest as [|c rest IH]; intros b Hr; [done|]. cbn [do_mkdirs].
  replace (b ++ c :: rest) with ((b ++ [c]) ++ rest) in Hr by by rewrite <- (assoc_L (++)).
  assert ((if decide (b = []) then "/" else abs_path b +:+ "/") +:+ c = abs_path (b ++ [c])) as ->.
  { case_decide as E; [by subst|]. unfold abs_path. by rewrite Join_snoc, !string_app_assoc. }
  rewrite mkdir_real by by apply real_prefix in Hr.
  specialize (IH (b ++ [c]) Hr). rewrite decide_False in IH by by destruct b. exact IH.
Qed.

Lemma MkdirAll_real m b mode : real (m_disk m) b -> os_MkdirAll (abs_path b) mode m = (Ok tt, m).
Proof.
  intros Hb. cbn [os_MkdirAll machine_Files]. change (IsAbs (abs_path b)) with true. cbv iota.
  rewrite path_elems_abs by apply Hb. by apply (mkdirs_real m []).
Qed.

(** Making directories adds entries and changes none. *)
Lemma mkdirs_keep prefix names m r m' q n :
  do_mkdirs prefix names m = (r, m') -> m_disk m !! q = Some n -> m_disk m' !! q = Some n.
Proof.
  revert prefix m. induction names as [|c names IH]; intros prefix m; cbn [do_mkdirs]; [by intros [= _ <-]|].
  assert (forall r m1, mkdir m (prefix +:+ c) = (r, m1) -> m_disk m !! q = Some n -> m_disk m1 !! q = Some n) as Hm.
  { intros r0 m1. unfold mkdir. destruct (resolve m true (prefix +:+ c)) as [p|]; [|by intros [= _ <-]].
    destruct (node_at m p) as [[]|]; try by intros [= _ <-].
    destruct (resolve m false (prefix +:+ c)) as [p'|]; cbn [rbind change]; [|by intros [= _ <-]].
    unfold denied. destruct (m_deny m "mkdir" p'); cbn [change]; [by intros [= _ <-]|].
    destruct (node_at m p') eqn:En; cbn [change]; intros [= _ <-]; [done|]. cbn [m_disk with_disk]. intros Hq.
    rewrite lookup_insert_ne; [done|]. intros ->. destruct q; cbn in En; congruence. }
  destruct (mkdir m (prefix +:+ c)) as [[[]|e] m1] eqn:E; intros Hr Hq.
  - eapply IH; [exact Hr|]. by eapply Hm.
  - injection Hr as _ <-. by eapply Hm.
Qed.
