(* ===== verification/UninstallProps.v ===== *)
(** * What removing programs and switching between them guarantees

    The latest installed version is found; on a disk, a removal takes away the
    files of one version and hands the links to the latest one that is left; a
    link that leads nowhere is never replaced. *)
From S2P Require Import Prelude GoStrings GoPath GoOs GoFs Regexp Configure Version.
From S2P Require Import VersionProps History Search Install Uninstall Disk.

Lemma elem_of_snoc {A} (x y : A) l : x ∈ l ++ [y] <-> x ∈ l \/ x = y.
Proof. by rewrite elem_of_app, list_elem_of_singleton. Qed.

(** ** The latest version *)
Section latest.
Context {W : Type} `{OS W, Files W} (w : W) (programs : list string) (headerDst : string).

(** A file is the installed binary of a version, or of a commit ([None]). *)
Definition installed_as (e : DirEntry) (v : option Version) : Prop :=
  entry_IsDir e = false /\
  exists g, FindNamedMatches programRegex (entry_Name e) = Some g /\ g "prog" ∈ programs /\
    has_headers w headerDst (g "prog") (entry_Name e) = true /\
    match v with
    | Some v => (IsValidCommitHash (g "ver")).1 = false /\ Parse (g "ver") = Ok v
    | None => (IsValidCommitHash (g "ver")).1 = true
    end.

Lemma Find_spec l x i : (0 <= i)%Z -> (Find_from i l x =? -1)%Z = false <-> x ∈ l.
Proof.
  revert i. induction l as [|y l IH]; intros i Hi; cbn [Find_from]; [by rewrite elem_of_nil|].
  rewrite elem_of_cons. case_decide as E.
  - rewrite Z.eqb_neq. split; [by left|lia].
  - rewrite IH by lia. naive_solver.
Qed.

Lemma installed_name e v : installed_as e v -> entry_Name e <> "".
Proof.
  intros (_ & g & Hg & _) Hn. rewrite Hn in Hg.
  assert (FindNamedMatches programRegex "" = None) as Hx by (vm_compute; reflexivity). congruence.
Qed.

Lemma installed_fun e v v' : installed_as e v -> installed_as e v' -> v = v'.
Proof.
  intros (_ & g & Hg & _ & _ & Hv) (_ & g' & Hg' & _ & _ & Hv'). assert (g' = g) as -> by congruence.
  destruct v, v'; naive_solver congruence.
Qed.

(** What the step does with each kind of file. *)
Lemma latest_step_spec s e :
  (latest_step programs headerDst w s e = s /\ forall v, ~ installed_as e v) \/
  (installed_as e None /\
   latest_step programs headerDst w s e =
     if hashFound s then s else mkLatest (latestVersionInfo s) (latestVersion s) true (entry_Name e)) \/
  (exists v, installed_as e (Some v) /\
   latest_step programs headerDst w s e =
     if bool_decide (latestVersion s = "") || IsLess (latestVersionInfo s) v
     then mkLatest v (entry_Name e) (hashFound s) (latestHash s) else s).
Proof.
  unfold latest_step, installed_as. destruct (entry_IsDir e); [left; naive_solver|].
  destruct (FindNamedMatches programRegex (entry_Name e)) as [g|] eqn:Eg; [|left; naive_solver].
  unfold Find. pose proof (Find_spec programs (g "prog") 0 ltac:(lia)) as Hf.
  destruct (Find_from 0 programs (g "prog") =? -1)%Z.
  { left. split; [done|]. intros v (_ & g' & [= <-] & Hp & _). by apply Hf in Hp. }
  destruct Hf as [Hp _]. specialize (Hp eq_refl).
  destruct (has_headers w headerDst (g "prog") (entry_Name e)) eqn:Eh; last first.
  { left. split; [|intros v (_ & g' & [= <-] & _ & Hx & _); congruence]. destruct ((IsValidCommitHash (g "ver")).1); [by destruct (hashFound s)|].
    by destruct (Parse (g "ver")). }
  destruct ((IsValidCommitHash (g "ver")).1) eqn:Ev.
  - right; left. split; [|done]. split; [done|]. by exists g.
  - destruct (Parse (g "ver")) as [v|err] eqn:Epv.
    + right; right. exists v. split; [|done]. split; [done|]. by exists g.
    + left. split; [done|]. intros [v|] (_ & g' & [= <-] & _ & _ & Hx); [destruct Hx as [_ ?]; congruence|congruence].
Qed.

(** The state of the loop after some files. *)
Definition newest (es : list DirEntry) (version : string) (info : Version) : Prop :=
  if decide (version = "") then forall e v, e ∈ es -> ~ installed_as e (Some v)
  else (exists e, e ∈ es /\ entry_Name e = version /\ installed_as e (Some info)) /\
       forall e v, e ∈ es -> installed_as e (Some v) -> ~ older info v.

Definition first_hash (es : list DirEntry) (found : bool) (hash : string) : Prop :=
  if found
  then exists pre e post, es = pre ++ e :: post /\ entry_Name e = hash /\ installed_as e None /\
         forall e, e ∈ pre -> ~ installed_as e None
  else hash = "" /\ forall e, e ∈ es -> ~ installed_as e None.

Definition latest_of (es : list DirEntry) (s : latest) : Prop :=
  newest es (latestVersion s) (latestVersionInfo s) /\ first_hash es (hashFound s) (latestHash s).

Lemma newest_skip es version info e :
  (forall v, ~ installed_as e (Some v)) -> newest es version info -> newest (es ++ [e]) version info.
Proof.
  intros He Hv. unfold newest in *. destruct (decide (version = "")).
  - intros e' v [Hin| ->]%elem_of_snoc; [by apply Hv|by apply He].
  - destruct Hv as [(e0 & Hin & Hr) Hmax]. split; [exists e0; split; [apply elem_of_app; by left|done]|].
    intros e' v [Hin'| ->]%elem_of_snoc; [by apply Hmax|intros Hx; by apply He in Hx].
Qed.

Lemma first_hash_skip es found hash e :
  found = true \/ ~ installed_as e None -> first_hash es found hash -> first_hash (es ++ [e]) found hash.
Proof.
  intros He Hh. unfold first_hash in *. destruct found.
  - destruct Hh as (pre & e0 & post & -> & Hr). exists pre, e0, (post ++ [e]). by rewrite <- (assoc_L (++)).
  - destruct Hh as [-> Hh], He as [|He]; [done|]. split; [done|].
    intros e' [Hin| ->]%elem_of_snoc; [by apply Hh|done].
Qed.

Lemma newest_step es version info e v :
  installed_as e (Some v) -> newest es version info ->
  if bool_decide (version = "") || IsLess info v then newest (es ++ [e]) (entry_Name e) v
  else newest (es ++ [e]) version info.
Proof.
  intros He Hv. assert (forall v', installed_as e (Some v') -> v' = v) as Hfun.
  { intros v' Hi. by pose proof (installed_fun _ _ _ He Hi) as [= ->]. }
  unfold newest in *. destruct (bool_decide (version = "") || IsLess info v) eqn:Eb.
  - rewrite decide_False by by eapply installed_name.
    split; [exists e; split; [apply elem_of_app; right; by left|done]|].
    intros e' v' [Hin| ->]%elem_of_snoc Hi; [|rewrite (Hfun _ Hi); apply older_irrefl].
    destruct (decide (version = "")) as [|Hne]; [by apply Hv in Hi|]. destruct Hv as [_ Hmax].
    rewrite bool_decide_eq_false_2 in Eb by done. cbn in Eb. apply IsLess_older in Eb.
    intros Hx. by apply (Hmax _ _ Hin Hi), (older_trans _ v).
  - apply orb_false_iff in Eb as [Eb1%bool_decide_eq_false Eb2]. rewrite decide_False in Hv |- * by done.
    apply IsLess_false in Eb2. destruct Hv as [(e0 & Hin & Hr) Hmax].
    split; [exists e0; split; [apply elem_of_app; by left|done]|].
    intros e' v' [Hin'| ->]%elem_of_snoc Hi; [by eapply Hmax|by rewrite (Hfun _ Hi)].
Qed.

Lemma latest_of_step es s e : latest_of es s -> latest_of (es ++ [e]) (latest_step programs headerDst w s e).
Proof.
  intros [Hv Hh]. destruct (latest_step_spec s e) as [[-> He]|[[He ->]|(v & He & ->)]].
  - split; [by apply newest_skip|apply first_hash_skip; [by right|done]].
  - apply newest_skip with (e := e) in Hv; [|intros v Hx; by pose proof (installed_fun _ _ _ He Hx)].
    destruct (hashFound s) eqn:Eh; (split; [done|]); cbn [hashFound latestHash].
    + rewrite Eh. apply first_hash_skip; [by left|done].
    + destruct Hh as [_ Hh]. by exists es, e, [].
  - pose proof (newest_step _ _ _ _ _ He Hv) as Hn.
    apply first_hash_skip with (e := e) in Hh; [|right; intros Hx; by pose proof (installed_fun _ _ _ He Hx)].
    by destruct (bool_decide (latestVersion s = "") || IsLess (latestVersionInfo s) v).
Qed.

Lemma latest_fold es :
  latest_of es (fold_left (latest_step programs headerDst w) es (mkLatest zero_version "" false "")).
Proof.
  induction es as [|e es IH] using rev_ind.
  - split; [|split; [done|]]; [intros e v Hin|intros e Hin]; by apply elem_of_nil in Hin.
  - rewrite fold_left_app. by apply latest_of_step.
Qed.
End latest.

(** The version that becomes active is a file of the directory with a
    version than which no installed version of the program that has its
    headers is newer; only when there is none it is the first commit, and
    nothing when there is no commit either. *)
Theorem searchLatestVersion_latest {W} `{OS W, Files W} (w : W) linkName binDst headerDst es :
  os_ReadDir w binDst = Ok es ->
  let programs := if decide (linkName = "tarantool") then [ProgramCe; ProgramEe] else [linkName] in
  let installed := installed_as w programs headerDst in
  exists name, searchLatestVersion linkName binDst headerDst w = Ok name /\
    ((exists e v, e ∈ es /\ entry_Name e = name /\ installed e (Some v) /\
        forall e' v', e' ∈ es -> installed e' (Some v') -> ~ older v v') \/
     (forall e v, e ∈ es -> ~ installed e (Some v)) /\
     ((exists pre e post, es = pre ++ e :: post /\ entry_Name e = name /\ installed e None /\
         forall e', e' ∈ pre -> ~ installed e' None) \/
      name = "" /\ forall e, e ∈ es -> ~ installed e None)).
Proof.
  intros Hes programs installed. unfold searchLatestVersion. rewrite Hes. cbn [rmap]. fold programs.
  destruct (latest_fold w programs headerDst es) as [Hv Hh]. set (s := fold_left _ _ _) in *.
  eexists. split; [reflexivity|]. unfold newest, first_hash in *.
  destruct (decide (latestVersion s = "")) as [E|E].
  - rewrite decide_False by auto. right. split; [done|]. destruct (hashFound s); [by left|by right].
  - rewrite decide_True by done. left. destruct Hv as [(e & Hin & Hn & Hi) Hmax]. by exists e, (latestVersionInfo s).
Qed.

(** ** The default version

    Only the last file of the directory can be the version that is removed by
    default: any file behind it counts as a second version. *)
Definition default_version (program name : string) : string :=
  match FindNamedMatches (default_re program) name with Some matches => matches "ver" | None => "" end.

Lemma default_loop_spec program names ver :
  default_loop program "" names = Ok ver <->
  (ver = "" /\ Forall (fun n => default_version program n = "") names) \/
  (ver <> "" /\ exists pre n, names = pre ++ [n] /\ default_version program n = ver /\
     Forall (fun n => default_version program n = "") pre).
Proof.
  induction names as [|n names IH]; cbn [default_loop].
  { split; [intros [= <-]; by left|]. intros [[-> _]|(_ & pre & n & Hn & _)]; [done|]. by destruct pre. }
  rewrite decide_False by auto. fold (default_version program n).
  destruct (decide (default_version program n = "")) as [E|E].
  - rewrite E, IH. split.
    + intros [[-> Hf]|(Hne & pre & n' & -> & Hv & Hf)]; [left; by split; [|constructor]|].
      right. split; [done|]. exists (n :: pre), n'. by split_and!; [..|constructor].
    + intros [[-> Hf]|(Hne & [|x pre] & n' & [= -> ->] & Hv & Hf)].
      * left. by apply Forall_cons in Hf as [_ ?].
      * congruence.
      * right. split; [done|]. exists pre, n'. by apply Forall_cons in Hf as [_ ?].
  - destruct names as [|n' names]; cbn [default_loop].
    + split; [intros [= <-]; right; split; [done|]; by exists [], n|].
      intros [[-> Hf]|(_ & [|x pre] & n' & [= ->] & Hv & _)]; [by apply Forall_cons in Hf as [? _]|by rewrite Hv|].
      by destruct pre.
    + rewrite decide_True by done. split; [done|].
      intros [[-> Hf]|(_ & [|x pre] & y & Hn & Hv & Hf)]; [by apply Forall_cons in Hf as [? _]|done|].
      injection Hn as -> _. by apply Forall_cons in Hf as [? _].
Qed.

(** The version that is removed by default is found only when its file is
    the last one of the directory; any file behind it, also of another
    program, is taken for a second version. *)
Theorem getDefault_last {W} `{OS W, Files W} (w : W) program dir es ver :
  os_ReadDir w dir = Ok es ->
  getDefault program dir w = Ok ver <->
  ver <> "" /\ exists pre e, es = pre ++ [e] /\ default_version program (entry_Name e) = ver /\
    forall e', e' ∈ pre -> default_version program (entry_Name e') = "".
Proof.
  intros Hes. unfold getDefault. rewrite Hes. cbn [rbind].
  destruct (default_loop program "" (map entry_Name es)) as [v|err] eqn:El; cbn [rbind].
  - apply default_loop_spec in El. case_decide as E.
    + subst v. split; [done|]. intros (Hne & pre & e & -> & Hv & _). exfalso.
      destruct El as [[_ Hf]|[? _]]; [|done]. rewrite map_app in Hf. apply Forall_app in Hf as [_ Hf].
      apply Forall_cons in Hf as [Hf _]. congruence.
    + destruct El as [[-> _]|(_ & pre & n & Hn & Hv & Hf)]; [done|].
      destruct es as [|e es _] using rev_ind; [by destruct pre|]. rewrite map_app in Hn.
      apply app_inj_tail in Hn as [<- <-]. rewrite Forall_map, Forall_forall in Hf. split.
      * intros [= <-]. split; [done|]. by exists es, e.
      * intros (_ & pre & e' & [-> ->]%app_inj_tail & <- & _). congruence.
  - split; [done|]. intros (Hne & pre & e & -> & Hv & Hf).
    assert (default_loop program "" (map entry_Name (pre ++ [e])) = Ok ver) as Hx; [|congruence].
    apply default_loop_spec. right. split; [done|]. exists (map entry_Name pre), (entry_Name e).
    rewrite map_app. split_and!; [done..|]. apply Forall_map, Forall_forall. exact Hf.
Qed.

(** ** Removal on a disk *)
Definition programs : list string := [ProgramTt; ProgramCe; ProgramEe].
Definition binary_name (program ver : string) : string := program +:+ FsSeparator +:+ ver.

Lemma name_binary program ver : program ∈ programs -> no_char "/" ver = true -> name (binary_name program ver).
Proof.
  intros Hp Hv. assert (no_char "/" program = true /\ exists p, program = String "t" p) as (Hn & p & ->).
  { unfold programs in Hp. rewrite !elem_of_cons, elem_of_nil in Hp.
    destruct Hp as [-> |[-> |[-> |[]]]]; (split; [reflexivity|by eexists]). }
  unfold binary_name. split_and!; [done..|]. by rewrite !no_char_app, Hn, Hv.
Qed.

Lemma name_link program : program ∈ programs -> name (link_name program).
Proof.
  unfold programs. rewrite !elem_of_cons, elem_of_nil.
  intros [-> |[-> |[-> |[]]]]; (split_and!; [discriminate..|reflexivity]).
Qed.

Lemma JoinAbspath_entry (m : machine) b c :
  Forall name b -> name c -> JoinAbspath m [abs_path b; c] = Ok (abs_path (b ++ [c])).
Proof.
  intros Hb Hc. unfold JoinAbspath, JoinPaths. cbn [fold_left].
  change (IsAbs (abs_path b)) with true. cbv iota. rewrite name_relative by done. rewrite Join_abs by done.
  unfold Abs. change (IsAbs (abs_path (b ++ [c]))) with true. cbv iota.
  rewrite Clean_abs; [done|]. apply Forall_app. by split; [|constructor].
Qed.

(** The disk without the files of a version, and without the link when [active]. *)
Definition removed (b : list string) (program ver : string) (active : bool) (d : disk) : disk :=
  drop_tree (b ++ [binary_name program ver]) (if active then delete (b ++ [link_name program]) d else d).

(** [active]: the path that the link of the program leads to contains the name of the
    removed file somewhere, as the code tests it.  So does the path of the file itself, and
    that of a version whose name goes on, such as 2.1.10 after 2.1.1. *)
Definition mentions (m : machine) (b : list string) (program ver : string) (active : bool) : Prop :=
  exists target, ResolveSymlink m (abs_path (b ++ [link_name program])) = Ok target /\
    active = Contains target (binary_name program ver).

Lemma remove_disk m b program ver active m' :
  program ∈ programs -> no_char "/" ver = true -> real (m_disk m) b ->
  remove program ver (abs_path b) m = (Ok active, m') ->
  is_Some (m_disk m !! (b ++ [binary_name program ver])) /\ mentions m b program ver active /\
  m' = with_disk m (removed b program ver active (m_disk m)).
Proof.
  intros Hp Hv Hb. pose proof (name_binary _ _ Hp Hv) as Hn. pose proof (name_link _ Hp) as Hl.
  unfold remove. rewrite io_bind_look, (JoinAbspath_entry m b _ (proj1 Hb) Hl), io_bind_ask. intros Hr.
  destruct (Stat m (abs_path b)); [|by cbv [throw] in Hr].
  fold (binary_name program ver) in Hr. rewrite (Join_abs b _ (proj1 Hb) Hn), io_bind_ask in Hr.
  destruct (Stat m (abs_path (b ++ [binary_name program ver]))) as [fi|] eqn:Es; [|by cbv [throw] in Hr].
  apply io_bind_Ok in Hr as (target & m0 & Ht%io_wrap_Ok & Hr). injection Ht as Ht <-.
  apply io_bind_Ok in Hr as ([] & m1 & Hd & Hr). apply io_bind_Ok in Hr as ([] & m2 & Ha & [= <- <-]).
  assert (m1 = with_disk m (if Contains target (binary_name program ver)
                            then delete (b ++ [link_name program]) (m_disk m) else m_disk m)) as ->.
  { destruct (Contains target (binary_name program ver)); [|injection Hd as <-; by destruct m].
    destruct (remove_entry m b Hb _ _ _ Hl Hd) as [Ho _]. by destruct (Ho eq_refl). }
  split; [|split; [by exists target|]].
  - cbn [Stat machine_OS] in Es. destruct (find_node m "stat" true (abs_path (b ++ [binary_name program ver]))) eqn:Ef; [|done].
    by eapply find_exists.
  - eapply remove_all_entry in Ha; [|destruct (Contains _ _); [apply real_delete; [apply entry_not_prefix|done]|done]|done|done].
    exact Ha.
Qed.

(** The errors of the system are not those of tt. *)
Definition system_errors (m : machine) : Prop := forall call p e, m_deny m call p = Some e -> is_not_installed e = false.

Lemma remove_not_installed m b program ver e m' :
  program ∈ programs -> no_char "/" ver = true -> real (m_disk m) b -> system_errors m ->
  remove program ver (abs_path b) m = (Err e, m') -> is_not_installed e = true -> m' = m.
Proof.
  intros Hp Hv Hb Hs. pose proof (name_binary _ _ Hp Hv) as Hn. pose proof (name_link _ Hp) as Hl.
  unfold remove. rewrite io_bind_look, (JoinAbspath_entry m b _ (proj1 Hb) Hl), io_bind_ask. intros Hr He.
  destruct (Stat m (abs_path b)); [|by injection Hr as _ <-].
  fold (binary_name program ver) in Hr. rewrite (Join_abs b _ (proj1 Hb) Hn), io_bind_ask in Hr.
  destruct (Stat m (abs_path (b ++ [binary_name program ver]))) as [fi|]; [|by injection Hr as _ <-].
  unfold io_bind, io_wrap, look in Hr. destruct (ResolveSymlink m (abs_path (b ++ [link_name program]))) as [target|];
    cbn [rwrap] in Hr; [|by injection Hr as _ <-].
  assert (forall m1, real (m_disk m1) b -> system_errors m1 ->
    match os_RemoveAll (abs_path (b ++ [binary_name program ver])) m1 with
    | (Ok _, w) => ret (Contains target (binary_name program ver)) w
    | (Err e', w) => (Err e', w) end = (Err e, m') -> False) as Hall.
  { intros m1 Hb1 Hs1. cbn [os_RemoveAll machine_Files]. unfold do_remove_all.
    rewrite (resolve_entry m1 b Hb1 _ false Hn) by auto.
    assert (exists x l, b ++ [binary_name program ver] = x :: l) as (x & l & Hx) by (destruct b; eauto). rewrite Hx.
    destruct (m_deny m1 "unlink" (x :: l)) eqn:Ed; [|done]. intros [= -> _]. apply Hs1 in Ed. congruence. }
  destruct (Contains target (binary_name program ver)) eqn:Ec; [|by apply Hall in Hr].
  destruct (os_Remove (abs_path (b ++ [link_name program])) m) as [[[]|e'] m1] eqn:Er.
  - destruct (remove_entry m b Hb _ _ _ Hl Er) as [Ho _]. destruct (Ho eq_refl) as [_ ->].
    exfalso. refine (Hall (with_disk m (delete _ (m_disk m))) _ Hs Hr). apply real_delete; [apply entry_not_prefix|done].
  - injection Hr as -> <-. destruct (remove_entry m b Hb _ _ _ Hl Er) as [_ Hf]. by apply (Hf e).
Qed.

Lemma remove_first_disk m b program versions active m' :
  program ∈ programs -> Forall (fun v => no_char "/" v = true) versions -> real (m_disk m) b -> system_errors m ->
  remove_first program (abs_path b) versions m = (Ok active, m') ->
  exists v, v ∈ versions /\ is_Some (m_disk m !! (b ++ [binary_name program v])) /\ mentions m b program v active /\
    m' = with_disk m (removed b program v active (m_disk m)).
Proof.
  intros Hp Hvs Hb Hs. induction Hvs as [|v versions Hv _ IH]; cbn [remove_first]; [done|].
  unfold io_bind, attempt. destruct (remove program v (abs_path b) m) as [[r|e] m1] eqn:Er.
  - intros [= -> ->]. exists v. split; [by left|]. by apply remove_disk.
  - destruct (is_not_installed e) eqn:Ee; [|done]. apply remove_not_installed in Er as ->; [|done..].
    intros (v' & Hin & Hr)%IH. exists v'. split; [by right|done].
Qed.

Definition is_tarantool (program : string) : bool := Contains program "tarantool".

(** The links after the switch to the latest version. *)
Definition switched (b h : list string) (program name : string) (d : disk) : disk :=
  let link := link_name program in
  if decide (name = "") then d
  else
    let d := <[b ++ [link] := NLink (filepath_Join [abs_path b; name])]> d in
    if is_tarantool program then <[h ++ [link] := NLink (filepath_Join [abs_path h; name])]> d else d.

Lemma switch_disk m b h program m' :
  program ∈ programs -> real (m_disk m) b -> real (m_disk m) h -> ~ b `prefix_of` h ->
  switchProgramToLatestVersion program (abs_path b) (abs_path h) m = (Ok tt, m') ->
  exists name, searchLatestVersion (link_name program) (abs_path b) (abs_path h) m = Ok name /\
    m' = with_disk m (switched b h program name (m_disk m)).
Proof.
  intros Hp Hb Hh Hbh. pose proof (name_link _ Hp) as Hl.
  assert ((if decide (program = ProgramCe \/ program = ProgramEe \/ program = ProgramDev) then "tarantool" else program)
          = link_name program) as Hlink.
  { unfold programs in Hp. rewrite !elem_of_cons, elem_of_nil in Hp. by destruct Hp as [-> |[-> |[-> |[]]]]. }
  assert ((if decide (link_name program = "tarantool") then true else false) = is_tarantool program) as Ht.
  { unfold programs in Hp. rewrite !elem_of_cons, elem_of_nil in Hp. by destruct Hp as [-> |[-> |[-> |[]]]]. }
  unfold switchProgramToLatestVersion. rewrite Hlink. rewrite io_bind_look.
  destruct (searchLatestVersion (link_name program) (abs_path b) (abs_path h) m) as [nm|] eqn:Es; [|done].
  intros Hr. exists nm. split; [done|]. unfold switched. case_decide as E; [injection Hr as <-; by destruct m|].
  apply io_bind_Ok in Hr as ([] & m1 & H1 & Hr).
  rewrite (Join_abs b _ (proj1 Hb) Hl) in H1. apply (CreateSymlink_entry m b Hb _ Hl) in H1 as ->; [|done].
  rewrite <- Ht. destruct (decide (link_name program = "tarantool")) as [El|]; [|by injection Hr as <-].
  rewrite (Join_abs h _ (proj1 Hh) Hl) in Hr.
  eapply CreateSymlink_entry in Hr as ->; [done| |done|done].
  apply real_insert; [|done]. intros Hx. apply Hbh. by apply (prefix_app_l b _ [link_name program]).
Qed.

(** The version to remove: the one that was asked for or, without one, the only one. *)
Definition asked_version (m : machine) (program arg bin ver : string) : Prop :=
  if decide (arg = "") then getDefault program bin m = Ok ver else ver = arg.

(** C14: A successful removal of tt, tarantool or tarantool-ee (tarantool-dev
    apart), of the version that was asked for or of the only installed one,
    takes away the files of one installed format of the version and its
    headers. The link of the program, and that of the headers, goes exactly
    when the path it leads to contains the name of the removed file, so that a
    link to a version whose name continues this name goes too. When the link
    of the program went, the links are handed to the latest version that is
    left, if there is one. Nothing else on the disk changes. The directories
    of binaries and headers are reached without links and none lies in the
    other, and the version has no slash. *)
Theorem uninstall_disk m b h program arg m' :
  program ∈ programs -> (forall ver, asked_version m program arg (abs_path b) ver -> no_char "/" ver = true) ->
  system_errors m -> real (m_disk m) b -> real (m_disk m) h -> ~ b `prefix_of` h -> ~ h `prefix_of` b ->
  UninstallProgram program arg (abs_path b) (abs_path h) m = (Ok tt, m') ->
  exists ver v active, asked_version m program arg (abs_path b) ver /\ v ∈ getAllTtVersionFormats program ver /\
    is_Some (m_disk m !! (b ++ [binary_name program v])) /\ mentions m b program v active /\
    let d1 := removed b program v active (m_disk m) in
    exists active_headers d2,
      (if is_tarantool program then
         is_Some (d1 !! (h ++ [binary_name program ver])) /\ mentions (with_disk m d1) h program ver active_headers /\
         d2 = removed h program ver active_headers d1
       else d2 = d1) /\
      if active : bool then
        exists name, searchLatestVersion (link_name program) (abs_path b) (abs_path h) (with_disk m d2) = Ok name /\
          m_disk m' = switched b h program name d2
      else m_disk m' = d2.
Proof.
  intros Hp Hvs Hs Hb Hh Hbh Hhb. unfold UninstallProgram.
  assert (program <> ProgramDev) as Hdev.
  { unfold programs in Hp. rewrite !elem_of_cons, elem_of_nil in Hp. by destruct Hp as [-> |[-> |[-> |[]]]]. }
  rewrite decide_False by done. intros (ver & m0 & Hask & Hr)%io_bind_Ok.
  assert (m0 = m /\ asked_version m program arg (abs_path b) ver) as [-> Hav].
  { unfold asked_version. revert Hask. case_decide; cbv [look ret]; intros Hask; by simplify_eq. }
  clear Hask. pose proof (Hvs _ Hav) as Hv. apply io_bind_Ok in Hr as (active & m1 & H1 & Hr).
  apply remove_first_disk in H1 as (v & Hin & His & Hlead & ->); [|done| |done..].
  2:{ unfold getAllTtVersionFormats. constructor; [done|]. case_decide; [|done]. constructor; [|done].
      by rewrite no_char_app, Hv. }
  exists ver, v, active. split_and!; [done..|]. set (d1 := removed b program v active (m_disk m)) in *.
  assert (forall c r, ~ b `prefix_of` r -> ~ (b ++ [c]) `prefix_of` r) as Hup.
  { intros c r Hn Hx. by apply Hn, (prefix_app_l b _ [c]). }
  assert (real d1 h) as Hh1.
  { unfold d1, removed. apply real_drop; [by apply Hup|]. destruct active; [|done]. by apply real_delete; [apply Hup|]. }
  assert (real d1 b) as Hb1.
  { unfold d1, removed. apply real_drop; [apply entry_not_prefix|]. destruct active; [|done].
    apply real_delete; [apply entry_not_prefix|done]. }
  apply io_bind_Ok in Hr as ([] & m2 & H2 & Hr). unfold is_tarantool.
  assert (exists active_headers d2, (if Contains program "tarantool" then
      is_Some (d1 !! (h ++ [binary_name program ver])) /\ mentions (with_disk m d1) h program ver active_headers /\
      d2 = removed h program ver active_headers d1 else d2 = d1) /\ m2 = with_disk m d2 /\ real d2 b /\ real d2 h)
    as (ah & d2 & Hd2 & -> & Hb2 & Hh2).
  { destruct (Contains program "tarantool"); [|injection H2 as <-; by exists false, d1].
    apply io_bind_Ok in H2 as (ah & m3 & H2 & [= <-]). apply remove_disk in H2 as (His2 & Hl2 & ->); [|done..].
    exists ah, (removed h program ver ah d1). split_and!; [done..|unfold removed|unfold removed].
    - assert (forall c, ~ (h ++ [c]) `prefix_of` b) as Hup2.
      { intros c Hx. by apply Hhb, (prefix_app_l h _ [c]). }
      apply real_drop; [done|]. destruct ah; [by apply real_delete|done].
    - apply real_drop; [apply entry_not_prefix|]. destruct ah; [|done].
      apply real_delete; [apply entry_not_prefix|done]. }
  exists ah, d2. split; [done|]. destruct active; [|by injection Hr as <-].
  apply switch_disk in Hr as (nm & Hnm & ->); [|done..]. by exists nm.
Qed.

(** A link of the active version that leads nowhere is never replaced:
    switching to another version and the last step of an installation fail and
    leave the disk as it was. *)
Theorem dangling_link_stays m b h t t' e e' versionStr ctx :
  real (m_disk m) b -> real (m_disk m) h ->
  m_disk m !! (b ++ ["tt"]) = Some (NLink t) -> Stat m (abs_path (b ++ ["tt"])) = Err e ->
  m_disk m !! (b ++ ["tarantool"]) = Some (NLink t') -> Stat m (abs_path (b ++ ["tarantool"])) = Err e' ->
  sw_BinDir ctx = abs_path b ->
  (exists err, switchTt ctx m = (Err err, m)) /\
  (forall enterprise, exists err, switchTarantool ctx enterprise m = (Err err, m)) /\
  (exists err, changeActiveTarantoolVersion versionStr (abs_path b) (abs_path h) m = (Err err, m)).
Proof.
  intros Hb Hh Ht He Ht' He' Hctx.
  assert (name "tt" /\ name "tarantool") as [N1 N2].
  { split; (split_and!; [discriminate..|reflexivity]). }
  assert (forall c, name c -> filepath_Join [abs_path b; c] = abs_path (b ++ [c])) as Hj.
  { intros c Hc. by apply Join_abs; [apply Hb|]. }
  split_and!.
  - unfold switchTt. rewrite io_bind_ask, Hctx, (Hj "tt" N1). destruct (IsRegularFile _ _); [|by eexists].
    match goal with |- context [CreateSymlink ?old _ _] =>
      destruct (CreateSymlink_dangling m b Hb "tt" N1 old _ _ Ht He) as [err Herr] end.
    unfold io_wrap. rewrite Herr. by eexists.
  - intros enterprise. unfold switchTarantool. rewrite io_bind_ask, Hctx, (Hj "tarantool" N2).
    destruct (_ && _); [|by eexists].
    match goal with |- context [CreateSymlink ?old (abs_path (b ++ _)) _] =>
      destruct (CreateSymlink_dangling m b Hb "tarantool" N2 old _ _ Ht' He') as [err Herr] end.
    unfold io_bind, io_wrap. rewrite Herr. by eexists.
  - unfold changeActiveTarantoolVersion. rewrite (Hj "tarantool" N2).
    destruct (CreateSymlink_dangling m b Hb "tarantool" N2 versionStr _ _ Ht' He') as [err Herr].
    unfold io_bind. rewrite Herr. by eexists.
Qed.

(** ** A sample

    The active tt is 2.1.10; removing 2.1.1, whose name is the beginning of that
    of the active one, switches to 3.0.0. *)
Definition sample_disk : disk := list_to_map
  [(["e"], NDir); (["e"; "bin"], NDir); (["e"; "inc"], NDir);
   (["e"; "bin"; "tt_v2.1.1"], NFile "a" 493); (["e"; "bin"; "tt_v2.1.10"], NFile "b" 493);
   (["e"; "bin"; "tt_v3.0.0"], NFile "c" 493); (["e"; "bin"; "tt"], NLink "tt_v2.1.10")].
Definition sample_machine (d : disk) : machine :=
  mkMachine d "/e" (fun _ => "") (fun _ => Err ErrNotExist) (Ok "/e/bin/tt") (fun _ _ => None) (fun _ => false).

Lemma sample_real (d : disk) :
  d !! ["e"] = Some NDir -> d !! ["e"; "bin"] = Some NDir -> d !! ["e"; "inc"] = Some NDir ->
  real d ["e"; "bin"] /\ real d ["e"; "inc"].
Proof.
  intros He Hb Hi. assert (real d ["e"]) as Hr.
  { apply (real_snoc d []); [apply real_root| |done]. by split_and!. }
  split; by apply (real_snoc d ["e"]); [..|split_and!|].
Qed.

Theorem other_version_switched :
  let '(r, m') := UninstallProgram "tt" "2.1.1" "/e/bin" "/e/inc" (sample_machine sample_disk) in
  (r, m_disk m' !! ["e"; "bin"; "tt"], m_disk m' !! ["e"; "bin"; "tt_v2.1.10"]) =
  (Ok tt, Some (NLink "/e/bin/tt_v3.0.0"), Some (NFile "b" 493)).
Proof. vm_compute. reflexivity. Qed.

Lemma uninstall_disk_witness :
  exists v active, v ∈ getAllTtVersionFormats "tt" "2.1.1" /\
    mentions (sample_machine sample_disk) ["e"; "bin"] "tt" v active.
Proof.
  destruct (sample_real sample_disk) as [Hb Hi]; [reflexivity..|].
  destruct (uninstall_disk (sample_machine sample_disk) ["e"; "bin"] ["e"; "inc"] "tt" "2.1.1"
    (UninstallProgram "tt" "2.1.1" "/e/bin" "/e/inc" (sample_machine sample_disk)).2)
    as (ver & v & active & Ha & Hv & _ & Hl & _).
  - left.
  - intros ver Hver. unfold asked_version in Hver. rewrite decide_False in Hver by discriminate. subst ver. reflexivity.
  - intros call p e. discriminate.
  - exact Hb.
  - exact Hi.
  - intros [k Hk]. discriminate.
  - intros [k Hk]. discriminate.
  - vm_compute. reflexivity.
  - unfold asked_version in Ha. rewrite decide_False in Ha by discriminate. subst ver.
    exists v, active. split; [exact Hv|exact Hl].
Defined.

(** The link of tt, or of Tarantool, was made to a build that is gone. *)
Definition dangling_disk : disk := list_to_map
  [(["e"], NDir); (["e"; "bin"], NDir); (["e"; "inc"], NDir); (["e"; "bin"; "tt_v3.0.0"], NFile "c" 493);
   (["e"; "bin"; "tt"], NLink "tt_v2.1.1"); (["e"; "bin"; "tarantool"], NLink "/build/tarantool")].

Lemma dangling_link_stays_witness :
  exists err, switchTt (mkSwitchCtx "/e/bin" "/e" "tt" "3.0.0") (sample_machine dangling_disk) =
    (Err err, sample_machine dangling_disk).
Proof.
  destruct (sample_real dangling_disk) as [Hb Hi]; [reflexivity..|].
  apply (dangling_link_stays (sample_machine dangling_disk) ["e"; "bin"] ["e"; "inc"] "tt_v2.1.1" "/build/tarantool"
    ErrNotExist ErrNotExist "tarantool_3.0.0"); [exact Hb|exact Hi|reflexivity..].
Defined.

Lemma getDefault_last_witness :
  getDefault "tt" "/e/bin" (sample_machine (delete ["e"; "bin"; "tt_v2.1.10"] (delete ["e"; "bin"; "tt_v2.1.1"] sample_disk)))
  = Ok "v3.0.0".
Proof.
  set (m := sample_machine _). eapply (getDefault_last m "tt" "/e/bin"); [vm_compute; reflexivity|].
  split; [discriminate|]. eexists [_], _. split_and!; [reflexivity|vm_compute; reflexivity|].
  intros e' He%list_elem_of_singleton. subst e'. vm_compute. reflexivity.
Defined.

Lemma searchLatestVersion_latest_witness :
  exists name, searchLatestVersion "tt" "/e/bin" "/e/inc" (sample_machine sample_disk) = Ok name.
Proof.
  destruct (searchLatestVersion_latest (sample_machine sample_disk) "tt" "/e/bin" "/e/inc"
    (entries (sample_machine sample_disk) ["e"; "bin"])) as (nm & Hn & _); [vm_compute; reflexivity|].
  exists nm. exact Hn.
Defined.
