(* ===== verification/InstallProps.v ===== *)
(** * What installing programs guarantees

    The version that is chosen, the patches that are applied, the directories
    that are checked; and that an installation makes the program it has put into
    the directory of binaries the active one. *)
From S2P Require Import Prelude GoStrings GoPath GoOs GoFs Regexp Configure Version.
From S2P Require Import VersionProps History Search Install Disk.

Lemma elem_of_rev {A} (x : A) l : x ∈ rev l <-> x ∈ l.
Proof. by rewrite !list_elem_of_In, <- in_rev. Qed.

(** ** The versions of a repository *)
Lemma Parse_Str s v : Parse s = Ok v -> Str v = s.
Proof.
  unfold Parse. destruct (FindNamedMatches version_re s) as [g|]; [|done].
  repeat (intros H; apply rbind_Ok in H as (? & _ & H); revert H). by intros [= <-].
Qed.

Definition listed (versions : list Version) : Prop :=
  Forall (fun v => Parse (Str v) = Ok v) versions /\ StronglySorted (fun a b => ~ older b a) versions.

Lemma listed_sorted versions : Forall (fun v => Parse (Str v) = Ok v) versions -> listed (sort_versions versions).
Proof.
  intros Hf. split.
  - by rewrite (insertion_sort_perm IsLess versions).
  - eapply strongly_sorted_impl; [|apply (insertion_sort_sorted IsLess)]. intros a b. apply IsLess_false.
Qed.

Lemma tags_parse mask tags : Forall (fun v => Parse (Str v) = Ok v) (omap (tag_version mask) tags).
Proof.
  apply Forall_forall. intros v (tag & _ & Ht)%list_elem_of_omap. unfold tag_version in Ht.
  destruct (Parse tag) as [v'|] eqn:Ep; [|done]. destruct (mask && isMasked v'); [done|]. injection Ht as <-.
  by rewrite (Parse_Str _ _ Ep).
Qed.

Section versions.
Context {W : Type} `{OS W, Files W, Host W}.

Lemma getVersionsFromRepo_listed local distfiles program repo (w : W) versions w' :
  getVersionsFromRepo local distfiles program repo w = (Ok versions, w') -> w' = w /\ listed versions.
Proof.
  unfold getVersionsFromRepo, look. intros [= Hv <-]. split; [done|]. destruct local.
  - unfold GetVersionsFromGitLocal in Hv. destruct (git_path w); [done|].
    destruct (program_output w "git" "" _) as [out|]; [|done].
    case_decide; injection Hv as <-; [by split; constructor|].
    apply listed_sorted. rewrite collect_versions. apply tags_parse.
  - pose proof (GetVersionsFromGitRemote_sorted (git_path w) (program_output w "git" "") repo) as Hs.
    rewrite Hv in Hs. destruct Hs as (out & tags & _ & _ & Hp & Hsorted & _). split; [|done].
    rewrite Hp. apply tags_parse.
Qed.

(** ** The latest release *)
Lemma getLatestRelease_spec versions :
  listed versions ->
  (getLatestRelease versions = "" /\
   (forall v, v ∈ versions -> rel_Type (Version_Release v) <> TypeRelease)) \/
  exists v, v ∈ versions /\ rel_Type (Version_Release v) = TypeRelease /\ getLatestRelease versions = Str v /\
    Parse (Str v) = Ok v /\
    forall v', v' ∈ versions -> rel_Type (Version_Release v') = TypeRelease -> ~ older v v'.
Proof.
  intros [Hp Hs]. unfold getLatestRelease.
  destruct (list_find _ (rev versions)) as [[i v]|] eqn:Ef.
  - right. exists v. apply list_find_Some in Ef as (Hi & Hr & Hbefore).
    assert (v ∈ versions) as Hin.
    { apply elem_of_rev. by eapply list_elem_of_lookup_2. }
    split_and!; [done..|by eapply Forall_forall in Hp|]. intros v' Hin' Hr'.
    assert (v' ∈ rev versions) as [j Hj]%list_elem_of_lookup_1 by by apply elem_of_rev.
    assert (i <= j) as Hij. { destruct (decide (i <= j)); [done|]. exfalso. by apply (Hbefore j v'); [|lia|]. }
    destruct (decide (i = j)) as [<-|Hne]; [assert (v' = v) as -> by congruence; apply older_irrefl|].
    rewrite <- (rev_involutive versions) in Hs. clear -Hs Hi Hj Hij Hne.
    revert i j Hi Hj Hij Hne. induction (rev versions) as [|x l IH]; intros i j Hi Hj Hij Hne; [done|].
    cbn [rev] in Hs. apply StronglySorted_app in Hs as (Hc & Hs & _).
    destruct i as [|i]; [|destruct j as [|j]; [lia|]; eapply IH; [done..|lia|lia]].
    injection Hi as ->. destruct j as [|j]; [lia|]. cbn in Hj. apply list_elem_of_lookup_2 in Hj.
    apply Hc; [|by left]. by apply elem_of_rev.
  - left. apply list_find_None in Ef. split; [done|]. intros v Hin. rewrite Forall_forall in Ef. by apply Ef, elem_of_rev.
Qed.

(** Without a version the installation takes a release of the repository
    than which no release is newer; a text that is a version is taken only
    when the repository lists that version; master is taken as it is. *)
Theorem choose_tarantool_version ctx distfiles (w : W) c w' :
  choose_tarantool ctx distfiles w = (Ok c, w') ->
  (inst_version ctx = "" -> exists versions v,
     getVersionsFromRepo (Local ctx) distfiles "tarantool" GitRepoTarantool w = (Ok versions, w) /\
     v ∈ versions /\ rel_Type (Version_Release v) = TypeRelease /\ Parse (Str v) = Ok v /\
     (forall v', v' ∈ versions -> rel_Type (Version_Release v') = TypeRelease -> ~ older v v') /\
     c = mkChoice (Str v) true false "" "") /\
  (inst_version ctx = "master" -> c = mkChoice "master" false false "" "") /\
  (forall ver, Parse (inst_version ctx) = Ok ver -> c = mkChoice (inst_version ctx) true false "" "" /\
     exists versions, getVersionsFromRepo (Local ctx) distfiles "tarantool" GitRepoTarantool w = (Ok versions, w) /\
       ver ∈ versions).
Proof.
  assert (Parse "master" = Err (Errorf "failed to parse version %q: format is not valid" ["master"]))
    as Hmaster by (vm_compute; reflexivity).
  assert (forall text ver versions w1, Parse text = Ok ver ->
    getVersionsFromRepo (Local ctx) distfiles "tarantool" GitRepoTarantool w = (Ok versions, w1) ->
    existsb (fun v => bool_decide (text = Str v)) versions = true -> ver ∈ versions) as Hin.
  { intros text ver versions w1 Hp Hv (v & Hin%list_elem_of_In & Hs%bool_decide_eq_true)%existsb_exists.
    apply getVersionsFromRepo_listed in Hv as [_ [Hf _]]. rewrite Forall_forall in Hf. specialize (Hf _ Hin).
    rewrite <- Hs, Hp in Hf. by injection Hf as ->. }
  unfold choose_tarantool. intros (text & w1 & Ht & Hc)%io_bind_Ok.
  assert (forall ver, Parse text = Ok ver -> c = mkChoice text true false "" "" /\
    exists versions w2, getVersionsFromRepo (Local ctx) distfiles "tarantool" GitRepoTarantool w1 = (Ok versions, w2) /\
      existsb (fun v => bool_decide (text = Str v)) versions = true) as Hparsed.
  { intros ver Hp. rewrite decide_False in Hc by (intros ->; by rewrite Hmaster in Hp). rewrite Hp in Hc.
    apply io_bind_Ok in Hc as (versions & w2 & Hv & Hc).
    destruct (existsb _ versions) eqn:Eb; [|by cbv [throw] in Hc]. injection Hc as <- _. eauto. }
  destruct (decide (inst_version ctx = "")) as [He|Hne].
  - apply io_bind_Ok in Ht as (versions & w2 & Hv & Ht).
    pose proof (getVersionsFromRepo_listed _ _ _ _ _ _ _ Hv) as [-> Hl].
    destruct (decide (getLatestRelease versions = "")) as [El|El]; [by cbv [throw] in Ht|]. injection Ht as <- <-.
    destruct (getLatestRelease_spec _ Hl) as [[? _]|(v & Hin' & Hr & Hs & Hp & Hmax)]; [done|].
    rewrite Hs in Hparsed. destruct (Hparsed v Hp) as [-> _].
    split_and!; [intros _; by exists versions, v|by rewrite He|intros ver; by rewrite He].
  - injection Ht as <- <-. split_and!; [done| |].
    + intros Hm. rewrite Hm, decide_True in Hc by done. by injection Hc as <-.
    + intros ver Hp. destruct (Hparsed ver Hp) as (-> & versions & w2 & Hv & Hb). split; [done|].
      pose proof (getVersionsFromRepo_listed _ _ _ _ _ _ _ Hv) as [-> _]. exists versions. split; [done|].
      by eapply Hin.
Qed.
End versions.

(** ** Patches

    No patch is applied twice, whatever the version. *)
Definition applied (ver : Version) : list patch :=
  map snd (List.filter (fun x => x.1 ver) patches).

Fixpoint exclusive (ver : Version) (l : list ((Version -> bool) * patch)) : Prop :=
  match l with
  | [] => True
  | (f, p) :: l => Forall (fun x => x.2 = p -> f ver = true -> x.1 ver = true -> False) l /\ exclusive ver l
  end.

Lemma exclusive_NoDup ver l : exclusive ver l -> NoDup (map snd (List.filter (fun x => x.1 ver) l)).
Proof.
  induction l as [|[f p] l IH]; cbn [exclusive List.filter map fst]; [constructor|]. intros [Hf Hl].
  destruct (f ver) eqn:E; [|by apply IH]. cbn [map snd]. constructor; [|by apply IH].
  intros ([g p'] & -> & Hin)%list_elem_of_fmap. rewrite list_elem_of_In in Hin.
  apply filter_In in Hin as [Hin%list_elem_of_In Hg]. rewrite Forall_forall in Hf. by eapply Hf.
Qed.

Theorem patches_once ver : NoDup (applied ver).
Proof.
  apply exclusive_NoDup. unfold patches. cbn [exclusive].
  repeat (apply conj || apply Forall_cons_2 || apply Forall_nil_2); try exact I;
    cbn [fst snd]; intros E; try discriminate E; clear E;
    unfold patchRange_1_to_2_6_1, patchRange_1_to_1_10_14, patchRange_1_10_14_to_1_10_16,
      patchRange_1_to_1_10_12, patchRange_2_to_2_8, patchRange_2_8_to_2_8_3, patch_2_10_0_rc1, patchRange_2_7_to_2_7_2,
      patchRange_2_7_2_to_2_7_4, patchRange_2_8_1_to_2_8_4, patch_2_10_beta, patch_2_8_4;
    lia.
Qed.

(** ** The directories that are checked *)
Section writable.
Context {W : Type} `{OS W, Files W, Host W} (w : W).

Definition missing (dir : string) : bool :=
  match Stat w dir with Err e => IsNotExist e | Ok _ => false end.

Lemma subDirIsWritable_step fuel dir :
  subDirIsWritable (S fuel) w dir =
  if missing dir then subDirIsWritable fuel w (path_Dir dir) else Some (unix_Writable w dir).
Proof. unfold missing. cbn [subDirIsWritable]. by destruct (Stat w dir). Qed.

(** The loop over parents of an absolute path ends within the fuel that is given to it, at the
    nearest directory that exists; with a relative path whose directory is missing it
    never ends. *)
Theorem subDirIsWritable_ends cs :
  Forall name cs -> missing "/" = false ->
  (exists k, k <= length cs /\ missing (abs_path (take k cs)) = false /\
     (forall j, k < j <= length cs -> missing (abs_path (take j cs)) = true) /\
     forall fuel, length cs < fuel -> subDirIsWritable fuel w (abs_path cs) = Some (unix_Writable w (abs_path (take k cs)))) /\
  length cs < check_fuel (abs_path cs) /\
  (missing "." = true -> forall fuel, subDirIsWritable fuel w "." = None).
Proof.
  intros Hcs Hroot. split_and!.
  - induction cs as [|c cs IH] using rev_ind.
    { exists 0. split_and!; [lia|done|intros; cbn in *; lia|]. intros [|fuel] Hf; [lia|].
      rewrite subDirIsWritable_step. change (abs_path []) with "/". by rewrite Hroot. }
    apply Forall_app in Hcs as [Hcs Hc]. apply Forall_cons in Hc as [Hc _].
    rewrite length_app. cbn [length]. destruct (missing (abs_path (cs ++ [c]))) eqn:Em.
    + destruct (IH Hcs) as (k & Hk & Hm & Hj & Hf). exists k.
      rewrite take_app_le by lia. split_and!; [lia|done| |].
      * intros j Hjj. destruct (decide (j = length cs + 1)) as [->|].
        { rewrite take_ge; [done|]. rewrite length_app. cbn. lia. }
        rewrite take_app_le by lia. apply Hj. lia.
      * intros [|fuel] Hlt; [lia|]. rewrite subDirIsWritable_step, Em, path_Dir_abs by done. apply Hf. lia.
    + exists (length cs + 1). rewrite take_ge by (rewrite length_app; cbn; lia).
      split_and!; [lia|done|intros; lia|]. intros [|fuel] Hlt; [lia|]. by rewrite subDirIsWritable_step, Em.
  - unfold check_fuel, abs_path. pose proof (Join_length cs "/" Hcs).
    cbn [String.append String.length]. lia.
  - intros Hm fuel. induction fuel as [|fuel IH]; [done|]. rewrite subDirIsWritable_step, Hm. exact IH.
Qed.
End writable.

(** ** Installation on a disk

    [T] is the directory of temporary files.  The programs that are run, and the
    copies into temporary directories, leave what is in the directories [b] and
    [h] of binaries and headers, and the directories above them, as they are; they
    may add files.  The copy of headers puts something where it should, and
    changes nothing else there. *)
Definition comparable (p q : list string) : Prop := p `prefix_of` q \/ q `prefix_of` p.

Definition protected (b h T q : list string) : Prop := q `prefix_of` T \/ comparable b q \/ comparable h q.

Definition keeps (b h T : list string) (m m' : machine) : Prop :=
  forall q n, protected b h T q -> m_disk m !! q = Some n -> m_disk m' !! q = Some n.

Definition temp_path (T : list string) (p : string) : Prop := exists c, name c /\ p = abs_path (T ++ [c]).

Class TempHost (b h T : list string) `{Host machine} : Prop := {
  run_keeps program dir args data m r m' : run_program program dir args data m = (r, m') -> keeps b h T m m';
  mkdir_temp_keeps pattern m r m' : os_MkdirTemp pattern m = (r, m') ->
    keeps b h T m m' /\ forall p, r = Ok p -> temp_path T p;
  create_temp_keeps pattern m r m' : os_CreateTemp pattern m = (r, m') ->
    keeps b h T m m' /\ forall p, r = Ok p -> temp_path T p;
  stdin_keeps lines m : keeps b h T m (set_stdin lines m);
  copy_temp_keeps src p m r m' : temp_path T p -> copy_Copy src p m = (r, m') -> keeps b h T m m';
  copy_headers_keeps src c m m' : name c -> real (m_disk m) h ->
    copy_Copy src (abs_path (h ++ [c]) +:+ "/") m = (Ok tt, m') ->
    is_Some (m_disk m' !! (h ++ [c])) /\
    forall q n, protected b h T q -> ~ (h ++ [c]) `prefix_of` q -> m_disk m !! q = Some n -> m_disk m' !! q = Some n
}.

Section on_disk.
Context (b h T : list string) `{!Host machine} `{!TempHost b h T}.
Context (HbT : ~ comparable b T) (HhT : ~ comparable h T).
Notation keeps := (keeps b h T).
Notation protected := (protected b h T).

#[local] Instance keeps_preorder : PreOrder keeps.
Proof. split; [by intros m q n|]. intros m1 m2 m3 H1 H2 q n Hq Hn. by apply H2, H1. Qed.

Lemma keeps_real m m' : keeps m m' ->
  (real (m_disk m) b -> real (m_disk m') b) /\ (real (m_disk m) h -> real (m_disk m') h) /\
  (real (m_disk m) T -> real (m_disk m') T).
Proof.
  intros Hk. split_and!; intros [Hn Hp]; (split; [done|]); intros q Hq Hne; (apply Hk; [|by apply Hp]);
    [right; left|right; right|by left]; by right.
Qed.

Lemma temp_not_protected c q : protected q -> ~ (T ++ [c]) `prefix_of` q.
Proof.
  assert (forall x, ~ comparable x T -> comparable x q -> ~ (T ++ [c]) `prefix_of` q) as Hx.
  { intros x Hn [Hp|Hp] Ht.
    - destruct (prefix_weak_total x (T ++ [c]) q) as [Hy|Hy]; [done..| |].
      + destruct Hy as [k Hk]. destruct k as [|z k _] using rev_ind.
        * rewrite app_nil_r in Hk. subst x. apply Hn. right. by apply prefix_app_r.
        * rewrite (assoc_L (++)) in Hk. apply app_inj_tail in Hk as [-> _]. apply Hn. left. by apply prefix_app_r.
      + apply Hn. right. by apply (prefix_app_l T x [c]).
    - apply Hn. right. apply (prefix_app_l T x [c]). by transitivity q. }
  intros [Hq|[Hq|Hq]] Ht; [|by eapply (Hx b)|by eapply (Hx h)].
  by apply (entry_not_prefix T c), (transitivity Ht).
Qed.

(** A computation that leaves the protected paths alone. *)
Definition safe {A} (c : io machine A) : Prop :=
  forall m r m', real (m_disk m) T -> c m = (r, m') -> keeps m m'.

Lemma safe_ret {A} (a : A) : safe (ret a).
Proof. by intros m r m' _ [= _ <-]. Qed.
Lemma safe_throw {A} e : safe (@throw machine A e).
Proof. by intros m r m' _ [= _ <-]. Qed.
Lemma safe_look {A} (f : machine -> result A) : safe (look f).
Proof. by intros m r m' _ [= _ <-]. Qed.
Lemma safe_ask {A} (f : machine -> A) : safe (ask f).
Proof. by intros m r m' _ [= _ <-]. Qed.
Lemma safe_bind {A B} (f : A -> io machine B) (c : io machine A) : safe c -> (forall a, safe (f a)) -> safe (io_bind f c).
Proof.
  intros Hc Hf m r m' HT. unfold io_bind. destruct (c m) as [[a|e] m1] eqn:Ec.
  - intros Hr. pose proof (Hc _ _ _ HT Ec) as Hk. transitivity m1; [done|].
    eapply Hf; [by apply (keeps_real _ _ Hk)|exact Hr].
  - intros [= _ <-]. by eapply Hc.
Qed.
Lemma safe_attempt {A} (c : io machine A) : safe c -> safe (attempt c).
Proof. intros Hc m r m' HT. unfold attempt. destruct (c m) eqn:Ec. intros [= _ <-]. by eapply Hc. Qed.
Lemma safe_wrap {A} f args (c : io machine A) : safe c -> safe (io_wrap f args c).
Proof. intros Hc m r m' HT. unfold io_wrap. destruct (c m) eqn:Ec. intros [= _ <-]. by eapply Hc. Qed.
Lemma safe_finally {A} (cleanup : io machine unit) (c : io machine A) : safe cleanup -> safe c -> safe (finally cleanup c).
Proof.
  intros Hcl Hc m r m' HT. unfold finally. destruct (c m) as [r1 m1] eqn:Ec. intros [= _ <-].
  pose proof (Hc _ _ _ HT Ec) as Hk. transitivity m1; [done|].
  destruct (cleanup m1) as [r2 m2] eqn:E2. eapply Hcl; [by apply (keeps_real _ _ Hk)|exact E2].
Qed.
Lemma safe_run program dir args data : safe (run_program program dir args data).
Proof. intros m r m' _. apply run_keeps. Qed.

Lemma safe_remove_temp p : temp_path T p -> safe (os_Remove p).
Proof.
  intros (c & Hc & ->) m r m' HT Hr. destruct (remove_entry m T HT c _ _ Hc Hr) as [Ho Hf].
  destruct r as [[]|e]; [|by rewrite (Hf e eq_refl)]. destruct (Ho eq_refl) as [_ ->].
  intros q n Hq Hn. cbn [m_disk with_disk]. rewrite lookup_delete_ne; [done|]. intros <-. by eapply temp_not_protected.
Qed.

Lemma safe_remove_all_temp p : temp_path T p -> safe (os_RemoveAll p).
Proof.
  intros (c & Hc & ->) m r m' HT. cbn [os_RemoveAll machine_Files]. unfold do_remove_all.
  rewrite (resolve_entry m T HT c false Hc) by auto.
  assert (exists x l, T ++ [c] = x :: l) as (x & l & Hx) by (destruct T; eauto). rewrite Hx.
  assert (forall q, protected q -> below (x :: l) q = None) as Hbelow.
  { intros q Hq. destruct (below (x :: l) q) eqn:E; [|done]. exfalso. apply (temp_not_protected c q Hq).
    rewrite Hx. apply below_prefix. eauto. }
  destruct (m_deny m "unlink" (x :: l)); intros [= _ <-] q n Hq Hn; cbn [m_disk with_disk].
  - apply map_lookup_filter_Some. split; [done|]. cbn. left. by apply Hbelow.
  - rewrite lookup_drop_tree, decide_False; [done|]. rewrite <- Hx. by apply temp_not_protected.
Qed.

Lemma safe_in_temp pattern A (body : string -> io machine A) :
  (forall p, temp_path T p -> safe (body p)) ->
  safe (p <- os_MkdirTemp pattern ;; finally (os_RemoveAll p) (body p))%io.
Proof.
  intros Hb m r m' HT. unfold io_bind. destruct (os_MkdirTemp pattern m) as [[p|e] m1] eqn:Et;
    apply mkdir_temp_keeps in Et as [Hk Hp].
  - intros Hr. transitivity m1; [done|]. specialize (Hp p eq_refl). eapply safe_finally;
      [by apply safe_remove_all_temp|by apply Hb|by apply (keeps_real _ _ Hk)|exact Hr].
  - by intros [= _ <-].
Qed.

Ltac safe_step :=
  match goal with
  | |- safe (io_bind _ _) => apply safe_bind; [|intros ?]
  | |- safe (io_wrap _ _ _) => apply safe_wrap
  | |- safe (attempt _) => apply safe_attempt
  | |- safe (ret _) => apply safe_ret
  | |- safe (throw _) => apply safe_throw
  | |- safe (look _) => apply safe_look
  | |- safe (ask _) => apply safe_ask
  | |- safe (run_program _ _ _ _) => apply safe_run
  | |- safe (if ?x then _ else _) => destruct x
  | |- safe (match ?x with _ => _ end) => destruct x
  | |- safe _ => solve [auto]
  end.
Ltac safe_tac := repeat (cbv zeta; safe_step).

Lemma safe_confirm question : safe (confirm question).
Proof. intros m r m' _. unfold confirm. destruct (AskConfirm (stdin m)). intros [= _ <-]. apply stdin_keeps. Qed.

Lemma safe_exec program dir data args : safe (ExecuteCommandStdin program dir data args).
Proof. unfold ExecuteCommandStdin. safe_tac. Qed.

Lemma safe_repo local distfiles program repo : safe (getVersionsFromRepo local distfiles program repo).
Proof. apply safe_look. Qed.

Lemma safe_commit local distfiles program line : safe (getCommit local distfiles program line).
Proof.
  unfold getCommit. destruct local; [apply safe_look|]. unfold GetCommitFromGitRemote.
  apply safe_bind; [apply safe_ask|intros [e|]]; [apply safe_throw|].
  set (body := fun p => (io_wrap "unable to get commits: git clone failed: %w" []
      (run_program "git" "" ["clone"; "--filter=blob:none"; "--no-checkout"; "--single-branch";
         programGitRepoUrls program; p] "") ;;;
    look (commit_in p line))%io).
  assert (forall p, temp_path T p -> safe (body p)) as Hbody by (intros p _; unfold body; safe_tac).
  intros m r m' HT. pose proof (safe_in_temp "tt_install_repo" _ body Hbody m) as Hs.
  unfold io_bind at 1, io_wrap at 1. unfold io_bind at 1 in Hs.
  destruct (os_MkdirTemp "tt_install_repo" m) as [[p|e] m1]; cbn [rwrap]; intros Hr; [by eapply Hs|].
  injection Hr as _ <-. by eapply Hs.
Qed.

Hint Resolve safe_confirm safe_exec safe_repo safe_commit : core.

Lemma safe_choose_commit version program ctx distfiles : safe (choose_commit version program ctx distfiles).
Proof. unfold choose_commit, checkCommit. safe_tac. Qed.
Hint Resolve safe_choose_commit : core.

Lemma safe_choose_tt ctx distfiles : safe (choose_tt ctx distfiles).
Proof. unfold choose_tt, latest_tt. safe_tac. Qed.

Lemma safe_choose_tarantool ctx distfiles : safe (choose_tarantool ctx distfiles).
Proof. unfold choose_tarantool. safe_tac. Qed.

Lemma safe_keep program path ctx c distfiles : safe (keep_existing program path ctx c distfiles).
Proof. unfold keep_existing, isUpdatePossible. safe_tac. Qed.

Lemma safe_dependencies ctx program : safe (check_dependencies ctx program).
Proof. unfold check_dependencies, programDependenciesInstalled. safe_tac. Qed.

Lemma safe_command program dir args : safe (ExecuteCommand program dir args).
Proof. apply safe_exec. Qed.
Hint Resolve safe_command : core.

Lemma safe_checkout dir version : safe (gitCheckout dir version).
Proof. unfold gitCheckout. safe_tac. Qed.
Hint Resolve safe_checkout : core.

Lemma safe_copy_local distfiles program p version : temp_path T p -> safe (copy_local distfiles program p version).
Proof. intros Hp. unfold copy_local. safe_tac. intros m r m' _. by apply copy_temp_keeps. Qed.

Lemma safe_download repo p c : safe (download repo p c).
Proof. unfold download, downloadRepo. safe_tac. Qed.

Lemma safe_mkdirs p mode : safe (os_MkdirAll p mode).
Proof. intros m r m' _ Hr q n _ Hq. eapply mkdirs_keep; [exact Hr|exact Hq]. Qed.
Hint Resolve safe_mkdirs : core.

Lemma safe_patch patch_text p version : safe (patchTarantool patch_text p version).
Proof.
  unfold patchTarantool. safe_tac. generalize patches. intros l.
  induction l as [|[f x] l IH]; cbn [io_for]; [apply safe_ret|]. apply safe_bind; [|intros _; exact IH].
  destruct (f a); [apply safe_exec|apply safe_ret].
Qed.

Lemma safe_build p version ctx : safe (buildTarantool p version ctx).
Proof. unfold buildTarantool. safe_tac. Qed.

(** ** What a computation establishes *)
Context (Hbh : ~ comparable b h).

Definition ready (m : machine) : Prop := real (m_disk m) b /\ real (m_disk m) h /\ real (m_disk m) T.

Definition ensures (c : io machine unit) (Q : machine -> Prop) : Prop :=
  forall m m', ready m -> c m = (Ok tt, m') -> ready m' /\ Q m'.

Lemma keeps_ready m m' : keeps m m' -> ready m -> ready m'.
Proof. intros (Hb & Hh & HT)%keeps_real (? & ? & ?). split_and!; auto. Qed.

Lemma ensures_after {A} (c : io machine A) (f : A -> io machine unit) Q :
  safe c -> (forall a, ensures (f a) Q) -> ensures (io_bind f c) Q.
Proof.
  intros Hc Hf m m' Hr (a & m1 & Ha & Hm)%io_bind_Ok. eapply Hf; [|exact Hm].
  eapply keeps_ready; [|exact Hr]. eapply Hc; [apply Hr|exact Ha].
Qed.

Lemma ensures_before (c : io machine unit) (f : unit -> io machine unit) Q Q' :
  ensures c Q -> (forall m m', ready m -> Q m -> f tt m = (Ok tt, m') -> ready m' /\ Q' m') ->
  ensures (io_bind f c) Q'.
Proof.
  intros Hc Hf m m' Hr ([] & m1 & Ha & Hm)%io_bind_Ok. destruct (Hc _ _ Hr Ha) as [Hr1 HQ]. by eapply Hf.
Qed.

Definition stable (Q : machine -> Prop) : Prop := forall m m', keeps m m' -> Q m -> Q m'.

Lemma ensures_finally cleanup c Q : stable Q -> safe cleanup -> ensures c Q -> ensures (finally cleanup c) Q.
Proof.
  intros Hs Hcl Hc m m' Hr. unfold finally. destruct (c m) as [r m1] eqn:Ec. intros [= -> <-].
  destruct (Hc _ _ Hr Ec) as [Hr1 HQ]. destruct (cleanup m1) as [r2 m2] eqn:E2. cbn [snd].
  assert (keeps m1 m2) as Hk by (eapply Hcl; [apply Hr1|exact E2]).
  split; [by eapply keeps_ready|by eapply Hs].
Qed.

Lemma ensures_with_log c Q : stable Q -> ensures c Q -> ensures (with_log c) Q.
Proof.
  intros Hs Hc m m' Hr (p & m1 & Hp & Hm)%io_bind_Ok. apply create_temp_keeps in Hp as [Hk Ht].
  eapply ensures_finally; [exact Hs|apply safe_remove_temp, Ht; reflexivity|exact Hc| |exact Hm]. by eapply keeps_ready.
Qed.

Lemma ensures_in_temp pattern ctx body Q :
  stable Q -> (forall p, temp_path T p -> ensures (body p) Q) -> ensures (in_temp_dir pattern ctx body) Q.
Proof.
  intros Hs Hc m m' Hr (p & m1 & Hp & Hm)%io_bind_Ok. apply mkdir_temp_keeps in Hp as [Hk Ht].
  specialize (Ht p eq_refl). pose proof (keeps_ready _ _ Hk Hr) as Hr1. destruct (Noclean ctx).
  - by eapply Hc.
  - eapply ensures_finally; [exact Hs|by apply safe_remove_all_temp|by apply Hc|exact Hr1|exact Hm].
Qed.

(** ** Changes in the directories of binaries and headers *)
Lemma outside x y c : ~ comparable x y -> ~ (x ++ [c]) `prefix_of` y.
Proof. intros Hn Hp. apply Hn. left. by apply (prefix_app_l x y [c]). Qed.

Lemma comparable_sym x y : comparable x y -> comparable y x.
Proof. intros [|]; [by right|by left]. Qed.

Definition is_place (x : list string) : Prop := x = b \/ x = h.

Lemma place_ready x m : is_place x -> ready m -> real (m_disk m) x.
Proof. intros [-> | ->] (? & ? & ?); done. Qed.

Lemma place_outside x c : is_place x -> ~ (x ++ [c]) `prefix_of` b /\ ~ (x ++ [c]) `prefix_of` h /\ ~ (x ++ [c]) `prefix_of` T.
Proof.
  intros [-> | ->]; split_and!; try apply entry_not_prefix; apply outside; try done.
Qed.

Lemma link_ensures x c old Q : is_place x -> name c ->
  (forall m, Q m -> Q (with_disk m (<[x ++ [c] := NLink old]> (m_disk m)))) ->
  forall m m', ready m -> Q m -> CreateSymlink old (abs_path (x ++ [c])) true m = (Ok tt, m') ->
  ready m' /\ Q m' /\ m_disk m' !! (x ++ [c]) = Some (NLink old).
Proof.
  intros Hx Hc HQ m m' Hr Hq Hm. eapply CreateSymlink_entry in Hm as ->; [|by eapply place_ready|done|done].
  destruct (place_outside x c Hx) as (N1 & N2 & N3), Hr as (R1 & R2 & R3).
  unfold ready. split_and!; [by apply real_insert..|by apply HQ|]. apply lookup_insert_eq.
Qed.

Lemma write_ensures x c data perm m m' : is_place x -> name c -> ready m ->
  os_WriteFile (abs_path (x ++ [c])) data perm m = (Ok tt, m') ->
  ready m' /\ is_Some (m_disk m' !! (x ++ [c])) /\ forall q, is_Some (m_disk m !! q) -> is_Some (m_disk m' !! q).
Proof.
  intros Hx Hc Hr Hm. eapply write_entry in Hm as (Hs & Hk & Hd); [|by eapply place_ready|done].
  destruct Hr as (R1 & R2 & R3). unfold ready. split_and!; [by eapply real_keep_dirs..|done|done].
Qed.

Lemma make_dir_ensures x m m' : is_place x -> ready m -> make_dir (abs_path x) m = (Ok tt, m') -> m' = m.
Proof.
  intros Hx Hr. unfold make_dir. rewrite io_bind_ask. destruct (Stat m (abs_path x)); [by intros [= <-]|].
  destruct (IsNotExist e); [|done]. unfold io_bind, attempt.
  rewrite MkdirAll_real by by eapply place_ready. by intros [= <-].
Qed.

Lemma place_Join x c m : is_place x -> ready m -> name c -> filepath_Join [abs_path x; c] = abs_path (x ++ [c]).
Proof. intros Hx Hr Hc. apply Join_abs; [|done]. by apply (place_ready x m Hx Hr). Qed.

Lemma protected_entry x c : is_place x -> protected (x ++ [c]).
Proof. intros [-> | ->]; right; [left|right]; left; by apply prefix_app_r. Qed.

(** The link [link] of the place [x] leads to the entry [v] of it. *)
Definition active_in (x : list string) (link v : string) (m : machine) : Prop :=
  m_disk m !! (x ++ [link]) = Some (NLink v) /\ is_Some (m_disk m !! (x ++ [v])).

Lemma active_stable x link v : is_place x -> stable (active_in x link v).
Proof.
  intros Hx m m' Hk [Hl [n Hn]]. split; [|exists n]; apply Hk; [by apply protected_entry|done|by apply protected_entry|done].
Qed.

Lemma name_link_files : name "tt" /\ name "tarantool".
Proof. split; (split_and!; [discriminate..|reflexivity]). Qed.

Lemma copyBuildedTT_ensures p v reinstall :
  name v -> ensures (copyBuildedTT (abs_path b) p v reinstall) (fun m => is_Some (m_disk m !! (b ++ [v]))).
Proof.
  intros Hv m m' Hr. assert (is_place b) as Hp by by left. unfold copyBuildedTT.
  intros ([] & m1 & H1 & Hm)%io_bind_Ok. apply make_dir_ensures in H1 as ->; [|done..].
  apply io_bind_Ok in Hm as ([] & m2 & H2 & Hm). rewrite (place_Join b v m Hp Hr Hv) in H2, Hm.
  assert (ready m2) as Hr2.
  { destruct reinstall; [|by injection H2 as <-]. destruct Hr as (R1 & R2 & R3).
    destruct (remove_entry m b R1 v _ _ Hv H2) as [Ho _]. destruct (Ho eq_refl) as [_ ->].
    destruct (place_outside b v Hp) as (N1 & N2 & N3). unfold ready. split_and!; by apply real_delete. }
  unfold CopyFilePreserve in Hm. apply io_bind_Ok in Hm as (perm & m3 & [= _ <-] & Hm).
  apply io_bind_Ok in Hm as (data & m3 & [= _ <-] & Hm).
  apply (write_ensures b v) in Hm as (Hr3 & Hs & _); [|done..]. done.
Qed.

Lemma build_tt_ensures v distfiles ctx c reinstall :
  name v -> ensures (build_tt (abs_path b) v distfiles ctx c reinstall) (active_in b "tt" v).
Proof.
  intros Hv. assert (is_place b) as Hp by by left. unfold build_tt. rewrite decide_False by done.
  pose proof (active_stable b "tt" v Hp) as Hs. apply ensures_with_log; [done|].
  apply ensures_after; [apply safe_dependencies|intros _]. apply ensures_in_temp; [done|]. intros p Ht.
  apply ensures_after; [destruct (Local ctx); [by apply safe_copy_local|apply safe_download]|intros _].
  apply ensures_after; [apply safe_command|intros _].
  eapply ensures_before; [by apply copyBuildedTT_ensures|]. intros m m' Hr Hi Hm. cbn beta in Hi.
  rewrite (place_Join b "tt" m Hp Hr (proj1 name_link_files)) in Hm.
  eapply (link_ensures b "tt" v (fun m => is_Some (m_disk m !! (b ++ [v])))) in Hm as (Hr' & Hi' & Hl); [|done|apply name_link_files| |done|done].
  - split; [done|]. by split.
  - intros m0 H0. cbn [m_disk with_disk]. apply lookup_insert_is_Some'. by right.
Qed.

Lemma IsRegularFile_exists m x c : real (m_disk m) x -> name c ->
  IsRegularFile m (abs_path (x ++ [c])) = true -> is_Some (m_disk m !! (x ++ [c])).
Proof.
  intros Hx Hc. unfold IsRegularFile. cbn [Stat machine_OS].
  destruct (find_node m "stat" true (abs_path (x ++ [c]))) eqn:Ef; [|done]. intros _. by eapply find_exists.
Qed.

Lemma IsDir_exists m x c : real (m_disk m) x -> name c ->
  IsDir m (abs_path (x ++ [c])) = true -> is_Some (m_disk m !! (x ++ [c])).
Proof.
  intros Hx Hc. unfold IsDir. cbn [Stat machine_OS].
  destruct (find_node m "stat" true (abs_path (x ++ [c]))) eqn:Ef; [|done]. intros _. by eapply find_exists.
Qed.

Lemma name_version program c : program = ProgramTt \/ program = ProgramCe ->
  no_char "/" (installed_file program c) = true -> name (installed_file program c).
Proof.
  intros Hp Hn. assert (exists s, installed_file program c = String "t" s) as [s Hs].
  { destruct Hp as [-> | ->]; by eexists. }
  rewrite Hs in *. split_and!; [discriminate..|done].
Qed.

(** An installation of tt that succeeds makes the chosen version the active one. *)
Theorem installTt_active m ctx distfiles m' :
  ready m ->
  (forall c m1, choose_tt ctx distfiles m = (Ok c, m1) -> no_char "/" (installed_file ProgramTt c) = true) ->
  installTt (abs_path b) ctx distfiles m = (Ok tt, m') ->
  exists c m1, choose_tt ctx distfiles m = (Ok c, m1) /\ active_in b "tt" (installed_file ProgramTt c) m'.
Proof.
  intros Hr Hname. unfold installTt. intros (c & m1 & Hc & Hm)%io_bind_Ok. exists c, m1. split; [done|].
  assert (ready m1) as Hr1 by (eapply keeps_ready; [eapply safe_choose_tt; [apply Hr|exact Hc]|done]).
  assert (is_place b) as Hp by by left.
  pose proof (name_version ProgramTt c (or_introl eq_refl) (Hname _ _ Hc)) as Hv. set (v := installed_file ProgramTt c) in *.
  cbv zeta in Hm. rewrite (place_Join b v m1 Hp Hr1 Hv), io_bind_ask in Hm.
  destruct (negb (Reinstall ctx) && IsRegularFile m1 (abs_path (b ++ [v]))) eqn:Ee.
  - apply andb_true_iff in Ee as [_ Ee]. apply IsRegularFile_exists in Ee as [n Hn]; [|apply Hr1|done].
    apply io_bind_Ok in Hm as (keep & m2 & Hk%safe_keep & Hm); [|apply Hr1].
    pose proof (keeps_ready _ _ Hk Hr1) as Hr2. destruct keep.
    + rewrite (place_Join b ProgramTt m1 Hp Hr1 (proj1 name_link_files)) in Hm.
      eapply (link_ensures b "tt" v (fun m => is_Some (m_disk m !! (b ++ [v])))) in Hm as (_ & Hi' & Hl);
        [by split|done|apply name_link_files| |done|].
      * intros m0 H0. cbn [m_disk with_disk]. apply lookup_insert_is_Some'. by right.
      * exists n. apply Hk; [by apply protected_entry|done].
    + by eapply build_tt_ensures.
  - by eapply build_tt_ensures.
Qed.

(** ** Tarantool: the binary and its headers *)
Definition both (v : string) (m : machine) : Prop :=
  is_Some (m_disk m !! (b ++ [v])) /\ is_Some (m_disk m !! (h ++ [v])).

Lemma both_insert v p n m : both v m -> both v (with_disk m (<[p := n]> (m_disk m))).
Proof. intros [Hb Hh]. split; cbn [m_disk with_disk]; apply lookup_insert_is_Some'; by right. Qed.

Lemma changeActive_ensures v m m' : ready m -> both v m ->
  changeActiveTarantoolVersion v (abs_path b) (abs_path h) m = (Ok tt, m') ->
  ready m' /\ active_in b "tarantool" v m' /\ active_in h "tarantool" v m'.
Proof.
  intros Hr Hi. assert (is_place b) as Pb by by left. assert (is_place h) as Ph by by right.
  pose proof (proj2 name_link_files) as Nt. unfold changeActiveTarantoolVersion.
  rewrite (place_Join b _ m Pb Hr Nt), (place_Join h _ m Ph Hr Nt). intros ([] & m1 & H1 & H2)%io_bind_Ok.
  eapply (link_ensures b "tarantool" v (both v)) in H1 as (Hr1 & Hi1 & Hl1); [|done|done|intros; by apply both_insert|done|done].
  eapply (link_ensures h "tarantool" v (fun m => both v m /\ m_disk m !! (b ++ ["tarantool"]) = Some (NLink v)))
    in H2 as (Hr2 & [Hi2 Hl2] & Hl3); [|done|done| |done|done].
  - split; [done|]. destruct Hi2. by split.
  - intros m0 [H0 Hl0]. split; [by apply both_insert|]. cbn [m_disk with_disk].
    rewrite lookup_insert_ne; [done|]. intros E. apply Hbh. apply app_inj_tail in E as [-> _]. by left.
Qed.

Lemma remove_old_ready reinstall v m m' : name v -> ready m ->
  remove_old reinstall (abs_path b) (abs_path h) v m = (Ok tt, m') -> ready m'.
Proof.
  intros Hv Hr. assert (is_place b) as Pb by by left. assert (is_place h) as Ph by by right.
  unfold remove_old. rewrite io_bind_ask, (place_Join b _ m Pb Hr Hv), (place_Join h _ m Ph Hr Hv).
  assert (forall x m1 m2, is_place x -> ready m1 -> os_RemoveAll (abs_path (x ++ [v])) m1 = (Ok tt, m2) -> ready m2) as Ha.
  { intros x m1 m2 Px Hr1 H2. eapply remove_all_entry in H2 as ->; [|by eapply place_ready|done|done].
    destruct (place_outside x v Px) as (N1 & N2 & N3), Hr1 as (R1 & R2 & R3).
    unfold ready. split_and!; by apply real_drop. }
  destruct (reinstall && _); [|by intros [= <-]]. intros ([] & m1 & H1 & H2)%io_bind_Ok.
  eapply Ha; [exact Ph| |exact H2]. eapply (Ha b); [exact Pb|exact Hr|exact H1].
Qed.

Lemma copyBuildedTarantool_ensures bin inc v :
  name v -> ensures (copyBuildedTarantool bin inc (abs_path b) (abs_path h) v) (both v).
Proof.
  intros Hv m m' Hr. assert (is_place b) as Pb by by left. assert (is_place h) as Ph by by right.
  unfold copyBuildedTarantool. rewrite (place_Join b _ m Pb Hr Hv), (place_Join h _ m Ph Hr Hv).
  intros ([] & m1 & H1 & Hm)%io_bind_Ok. apply make_dir_ensures in H1 as ->; [|done..].
  apply io_bind_Ok in Hm as ([] & m2 & H2 & Hm).
  unfold CopyFileChangePerms in H2. apply io_bind_Ok in H2 as (st & m3 & [_ ->]%look_Ok & H2).
  apply io_bind_Ok in H2 as (data & m3 & [_ ->]%look_Ok & H2).
  apply (write_ensures b v) in H2 as (Hr2 & [n Hn] & _); [|done..].
  apply io_bind_Ok in Hm as ([] & m3 & H3 & Hm). apply make_dir_ensures in H3 as ->; [|done..].
  destruct Hr2 as (R1 & R2 & R3). apply copy_headers_keeps in Hm as [Hs Hk]; [|done..].
  destruct (place_outside h v Ph) as (N1 & N2 & N3).
  assert (forall x, ~ (h ++ [v]) `prefix_of` x -> (forall q, q `prefix_of` x -> protected q) ->
    real (m_disk m2) x -> real (m_disk m') x) as Hreal.
  { intros x Nx Px [Hnx Hpx]. split; [done|]. intros q Hq Hne. apply Hk; [by apply Px| |by apply Hpx].
    intros Hx. by apply Nx, (transitivity Hx). }
  split; [unfold ready; split_and!; eapply Hreal|split; [exists n; apply Hk|done]]; try done.
  - intros q Hq. right; left. by right.
  - intros q Hq. right; right. by right.
  - intros q Hq. by left.
  - by apply protected_entry.
  - intros [Hx|E]%prefix_of_snoc; [done|]. apply app_inj_tail in E as [E _].
    apply Hbh. rewrite E. by left.
Qed.

Section tarantool.
Context (patch_text : patch -> string) (dockerfile : string) (user_Uid : machine -> result string)
  (render : string -> gmap string string -> result string) (write_yaml : string -> CliOpts -> io machine unit).
Context `{!Docker machine}.
Notation installTarantool := (installTarantool patch_text dockerfile user_Uid render write_yaml).

Lemma build_tarantool_ensures v distfiles ctx c :
  name v -> ensures (build_tarantool patch_text (abs_path b) (abs_path h) v distfiles ctx c)
    (fun m => active_in b "tarantool" v m /\ active_in h "tarantool" v m).
Proof.
  intros Hv. unfold build_tarantool.
  assert (stable (fun m => active_in b "tarantool" v m /\ active_in h "tarantool" v m)) as Hs.
  { intros m m' Hk [Ha Hb]. split; (eapply active_stable; [|exact Hk|done]); [by left|by right]. }
  apply ensures_with_log; [done|]. apply ensures_after; [apply safe_dependencies|intros _].
  apply ensures_in_temp; [done|]. intros p Ht.
  apply ensures_after; [destruct (Local ctx); [by apply safe_copy_local|apply safe_download]|intros _].
  apply ensures_after; [destruct (ch_Found c); [apply safe_patch|apply safe_ret]|intros _].
  apply ensures_after; [apply safe_build|intros buildPath].
  eapply (ensures_before _ _ (fun _ => True)).
  { intros m m' Hr Hm. split; [|done]. by eapply remove_old_ready. }
  intros m m' Hr _. revert m m' Hr. fold (ensures (io_bind (fun _ => changeActiveTarantoolVersion v (abs_path b) (abs_path h))
    (copyBuildedTarantool (filepath_Join [buildPath; "tarantool-prefix"; "bin"; "tarantool"])
       (filepath_Join [buildPath; "tarantool-prefix"; "include"; "tarantool"] +:+ "/") (abs_path b) (abs_path h) v))
    (fun m => active_in b "tarantool" v m /\ active_in h "tarantool" v m)).
  eapply ensures_before; [by apply copyBuildedTarantool_ensures|]. intros m m' Hr Hi Hm.
  by apply (changeActive_ensures v m).
Qed.

(** C13: A successful installation of Tarantool without a container, from the
    repository or from local sources and also when the version was there
    already, ends with the links of the directories of binaries and of headers
    leading to the version that was chosen and with that version in both
    directories, whatever the programs that build it do below the directory of
    temporary files. The directories of binaries, of headers and of temporary
    files exist, are reached without links and none lies in another, and the
    name of the version has no slash. An installation in a container is left
    out: it can succeed without having installed anything (see
    docker_copy_ignored). *)
Theorem installTarantool_active m ctx distfiles m' :
  ready m -> BuildInDocker ctx = false ->
  (forall c m1, choose_tarantool ctx distfiles m = (Ok c, m1) -> no_char "/" (installed_file ProgramCe c) = true) ->
  installTarantool (abs_path b) (abs_path h) ctx distfiles m = (Ok tt, m') ->
  exists c m1, choose_tarantool ctx distfiles m = (Ok c, m1) /\
    active_in b "tarantool" (installed_file ProgramCe c) m' /\ active_in h "tarantool" (installed_file ProgramCe c) m'.
Proof.
  intros Hr Hd Hname. unfold installTarantool. rewrite !decide_False by done.
  intros (c & m1 & Hc & Hm)%io_bind_Ok. exists c, m1. split; [done|].
  assert (ready m1) as Hr1 by (eapply keeps_ready; [eapply safe_choose_tarantool; [apply Hr|exact Hc]|done]).
  pose proof (name_version ProgramCe c (or_intror eq_refl) (Hname _ _ Hc)) as Hv. set (v := installed_file ProgramCe c) in *.
  cbv zeta in Hm. rewrite Hd in Hm. rewrite (place_Join b v m1 (or_introl eq_refl) Hr1 Hv),
    (place_Join h v m1 (or_intror eq_refl) Hr1 Hv), io_bind_ask in Hm.
  destruct (_ && _ && _) eqn:Ee; [|by eapply build_tarantool_ensures].
  apply andb_true_iff in Ee as [[_ Ee]%andb_true_iff Ei].
  apply IsRegularFile_exists in Ee as [n Hn]; [|apply Hr1|done].
  apply IsDir_exists in Ei as [n' Hn']; [|apply Hr1|done].
  apply io_bind_Ok in Hm as (keep & m2 & Hk%safe_keep & Hm); [|apply Hr1].
  pose proof (keeps_ready _ _ Hk Hr1) as Hr2. destruct keep; [|by eapply build_tarantool_ensures].
  apply (changeActive_ensures v m2); [done| |done].
  split; [exists n|exists n']; (apply Hk; [apply protected_entry|done]); [by left|by right].
Qed.

(** A failed copy of tt into the context of the container ends the installation
    without an error and without a container. *)
Theorem docker_copy_ignored m tmpDir m1 uid text m2 exe e m3 tntVersion ctx distfiles :
  os_MkdirTemp "docker_build_ctx" m = (Ok tmpDir, m1) -> user_Uid m1 = Ok uid ->
  render dockerfile {["uid" := uid]} = Ok text ->
  os_WriteFile (filepath_Join [tmpDir; "Dockerfile"]) text 436 m1 = (Ok tt, m2) -> m_exe m2 = Ok exe ->
  copy_Copy exe (filepath_Join [tmpDir; "tt"]) m2 = (Err e, m3) ->
  installTarantoolInDocker dockerfile user_Uid render write_yaml tntVersion (abs_path b) (abs_path h)
    ctx distfiles m = (Ok tt, (os_RemoveAll tmpDir m3).2).
Proof.
  intros Ht Hu Hd Hw He Hc. unfold installTarantoolInDocker, finally, io_bind. rewrite Ht. unfold look. rewrite Hu, Hd, Hw.
  cbn [Executable machine_OS]. rewrite He. unfold attempt. by rewrite Hc.
Qed.
End tarantool.
End on_disk.

(** ** A sample: programs that add the files they build *)
Definition add_node (m : machine) (pn : list string * node) : machine :=
  match m_disk m !! pn.1 with
  | Some _ => m
  | None => with_disk m (<[pn.1 := pn.2]> (m_disk m))
  end.

Definition built : list (list string * node) :=
  [(["tmp"; "1"; "tt"], NFile "tt" 493);
   (["tmp"; "1"; "static-build"; "build"; "tarantool-prefix"], NDir);
   (["tmp"; "1"; "static-build"; "build"; "tarantool-prefix"; "bin"], NDir);
   (["tmp"; "1"; "static-build"; "build"; "tarantool-prefix"; "bin"; "tarantool"], NFile "tarantool" 493)].

#[local] Instance sample_host : Host machine := {
  run_program program _ _ _ m := (Ok tt, fold_left add_node (if decide (program = "git") then [] else built) m);
  program_output _ _ _ _ := Err ErrNotExist;
  os_MkdirTemp _ m := (Ok "/tmp/1", add_node m (["tmp"; "1"], NDir));
  os_CreateTemp _ m := (Ok "/tmp/2", add_node m (["tmp"; "2"], NFile "" 384));
  stdin _ := [];
  set_stdin _ m := m;
  LookupEnv _ _ := None;
  unix_Writable _ _ := true;
  copy_Copy _ dst m := (Ok tt, add_node m (path_elems dst, NDir));
  GOOS := "linux";
  NumCPU := 4;
  fetch_jobs_supported _ := false
}.

#[local] Instance sample_docker : Docker machine := {
  docker_NewClient m := (Ok tt, m);
  docker_Tar _ m := (Ok tt, m);
  docker_ImageBuild _ _ m := (Ok true, m);
  docker_Display _ m := (Ok tt, m);
  docker_Canceled _ := false;
  user_Current _ := Ok ("0", "0");
  docker_ContainerCreate _ _ _ _ m := (Ok "container", m);
  docker_ContainerStart _ m := (Ok tt, m);
  docker_ContainerLogs _ m := (Ok tt, m);
  docker_ContainerWait _ m := (Ok (WaitStatus 0), m);
  docker_ContainerStop _ m := (Ok tt, m);
  docker_ContainerRemove _ m := (Ok tt, m)
}.

Lemma add_node_keeps m pn q n : m_disk m !! q = Some n -> m_disk (add_node m pn) !! q = Some n.
Proof.
  intros Hq. unfold add_node. destruct (m_disk m !! pn.1) eqn:E; [done|]. cbn [m_disk with_disk].
  rewrite lookup_insert_ne; [done|]. intros Hx. congruence.
Qed.

Lemma add_nodes_keep l m q n : m_disk m !! q = Some n -> m_disk (fold_left add_node l m) !! q = Some n.
Proof. revert m. induction l as [|pn l IH]; intros m Hq; [done|]. by apply IH, add_node_keeps. Qed.

#[local] Instance sample_laws : TempHost ["e"; "bin"] ["e"; "inc"] ["tmp"].
Proof.
  split.
  - intros program dir args data m r m' [= _ <-] q n _ Hq. by apply add_nodes_keep.
  - intros pattern m r m' [= <- <-]. split; [intros q n _ Hq; by apply add_node_keeps|].
    intros p [= <-]. exists "1". split; [|done]. by split_and!.
  - intros pattern m r m' [= <- <-]. split; [intros q n _ Hq; by apply add_node_keeps|].
    intros p [= <-]. exists "2". split; [|done]. by split_and!.
  - intros lines m q n _ Hq. exact Hq.
  - intros src p m r m' _ [= _ <-] q n _ Hq. by apply add_node_keeps.
  - intros src c m m' Hc Hh.
    assert (path_elems (abs_path (["e"; "inc"] ++ [c]) +:+ "/") = ["e"; "inc"; c]) as Hp.
    { apply path_elems_slash. repeat constructor; try done; apply Hc. }
    cbn [copy_Copy sample_host]. rewrite Hp. intros [= <-].
    split; [|intros q n _ _ Hq; by apply add_node_keeps].
    unfold add_node. cbn [fst snd]. destruct (m_disk m !! ["e"; "inc"; c]) eqn:E; [by eexists|].
    cbn [m_disk with_disk]. rewrite lookup_insert_eq. by eexists.
Qed.

Definition empty_env : machine :=
  mkMachine (list_to_map [(["e"], NDir); (["e"; "bin"], NDir); (["e"; "inc"], NDir); (["tmp"], NDir)])
    "/e" (fun _ => "") (fun _ => Err ErrNotExist) (Ok "/usr/bin/tt") (fun _ _ => None) (fun _ => false).

Definition master_ctx : InstallCtx :=
  mkInstallCtx false true false false false "tt" "master" false "" "" false true false.

Lemma empty_env_ready : ready ["e"; "bin"] ["e"; "inc"] ["tmp"] empty_env.
Proof.
  assert (real (m_disk empty_env) ["e"]) as Hr.
  { apply (real_snoc _ []); [apply real_root|by split_and!|reflexivity]. }
  split_and!.
  - apply (real_snoc _ ["e"]); [done|by split_and!|reflexivity].
  - apply (real_snoc _ ["e"]); [done|by split_and!|reflexivity].
  - apply (real_snoc _ []); [apply real_root|by split_and!|reflexivity].
Qed.

Lemma sample_apart : ~ comparable ["e"; "bin"] ["tmp"] /\ ~ comparable ["e"; "inc"] ["tmp"] /\
  ~ comparable ["e"; "bin"] ["e"; "inc"].
Proof. split_and!; intros [[k Hk]|[k Hk]]; discriminate. Qed.

Lemma installTt_active_witness :
  exists c m1, choose_tt master_ctx "" empty_env = (Ok c, m1) /\
    active_in ["e"; "bin"] "tt" (installed_file ProgramTt c) (installTt "/e/bin" master_ctx "" empty_env).2.
Proof.
  destruct sample_apart as (H1 & H2 & H3).
  apply (installTt_active ["e"; "bin"] ["e"; "inc"] ["tmp"] H1 H2 H3 empty_env).
  - exact empty_env_ready.
  - intros c m1 Hc. vm_compute in Hc. injection Hc as <- _. reflexivity.
  - vm_compute. reflexivity.
Defined.

Lemma installTarantool_active_witness :
  let install := installTarantool (fun _ => "") "" (fun _ => Ok "0") (fun s _ => Ok s) (fun _ _ => ret tt)
                   "/e/bin" "/e/inc" master_ctx "" in
  exists c m1, choose_tarantool master_ctx "" empty_env = (Ok c, m1) /\
    active_in ["e"; "bin"] "tarantool" (installed_file ProgramCe c) (install empty_env).2 /\
    active_in ["e"; "inc"] "tarantool" (installed_file ProgramCe c) (install empty_env).2.
Proof.
  destruct sample_apart as (H1 & H2 & H3).
  intros install. apply (installTarantool_active ["e"; "bin"] ["e"; "inc"] ["tmp"] H1 H2 H3
    (fun _ => "") "" (fun _ => Ok "0") (fun s _ => Ok s) (fun _ _ => ret tt) empty_env).
  - exact empty_env_ready.
  - reflexivity.
  - intros c m1 Hc. vm_compute in Hc. injection Hc as <- _. reflexivity.
  - vm_compute. reflexivity.
Defined.

Lemma choose_tarantool_version_witness :
  exists c w', choose_tarantool master_ctx "" empty_env = (Ok c, w') /\ c = mkChoice "master" false false "" "".
Proof.
  assert (choose_tarantool master_ctx "" empty_env = (Ok (mkChoice "master" false false "" ""), empty_env)) as Hc
    by reflexivity.
  destruct (choose_tarantool_version _ _ _ _ _ Hc) as (_ & Hm & _).
  eexists _, _. split; [exact Hc|]. apply Hm. reflexivity.
Defined.

Lemma subDirIsWritable_ends_witness :
  exists k, k <= 2 /\ missing empty_env (abs_path (take k ["e"; "other"])) = false.
Proof.
  destruct (subDirIsWritable_ends empty_env ["e"; "other"]) as [(k & Hk & Hm & _) _].
  - repeat constructor; try done; discriminate.
  - reflexivity.
  - exists k. split; [exact Hk|exact Hm].
Defined.
