(* ===== verification/Instances.v ===== *)
(** * Processes of instances ([cli/running/base_instance.go],
    [process_controller.go], [script_instance.go], [cluster_instance.go],
    [running.go], [cli/ttlog/logger.go])

    An instance is a Tarantool process that [tt] or its watchdog starts, waits
    for and stops.  What the system does with processes is the class [Processes];
    what [cli/process_utils] promises about PID files is the class [PidFiles],
    which [InstancesProps] implements with the definitions of [ProcessUtils].  Log
    messages are left out. *)
From S2P Require Import Prelude GoStrings GoPath Regexp GoOs GoFs Value Cluster Tarantool Version.
From S2P Require Import ClusterGet Configure ProcessUtils Install Running.
Local Open Scope Z_scope.
Local Open Scope io_scope.

(** ** Commands and processes *)

(** Where the output of a process goes. *)
Inductive writer := DevNull | Stdout | Stderr | LogFile (filename : string) | Prefixed (prefix : string) (out : writer).

(** [exec.Cmd]: [cmd_Input] is what is written to the standard input. *)
Record Cmd := mkCmd {
  cmd_Path : string; cmd_Args : list string; cmd_Env : list string; cmd_Dir : string;
  cmd_Input : string; cmd_Stdout : writer; cmd_Stderr : writer; cmd_Setpgid : bool
}.

Class Processes (W : Type) := {
  os_Environ : W -> list string;
  os_Setenv : string -> string -> io W unit;
  os_Getpid : W -> Z;
  (** [os.OpenFile] with [O_CREATE|O_WRONLY|O_APPEND]. *)
  open_append : string -> Z -> io W unit;
  (** [cmd.StdinPipe], [cmd.Start] with the PID it gives, [cmd.Wait]. *)
  exec_StdinPipe : io W unit;
  exec_Start : Cmd -> io W Z;
  exec_Wait : Z -> io W unit;
  (** [cmd.Run]: what it writes to the standard error when it fails. *)
  exec_Run : string -> list string -> W -> option string * W;
  process_Signal : Z -> Z -> io W unit;
  (** The end of a process or of a number of seconds: whether the time is over. *)
  wait_timeout : Z -> Z -> io W bool;
  syscall_Exec : string -> list string -> list string -> io W unit;
  syscall_Kill : Z -> Z -> io W unit
}.

(** What [cli/process_utils] promises. *)
Class PidFiles (W : Type) := {
  pu_CheckPIDFile : string -> io W unit;
  pu_CreatePIDFile : string -> Z -> io W unit;
  pu_GetPIDFromFile : W -> string -> result Z;
  pu_IsProcessAlive : W -> Z -> bool;
  pu_ProcessStatus : W -> string -> ProcessState;
  pu_StopProcess : string -> io W Z;
  pu_QuitProcess : string -> io W Z;
  pu_KillProcessGroup : string -> io W Z
}.

(** [errors.Is(err, fs.ErrNotExist)]: an error is unwrapped where its format has
    [%w]. *)
Fixpoint Is_ErrNotExist (e : error) : bool :=
  match e with
  | Wrapf f _ w => Contains f "%w" && Is_ErrNotExist w
  | ErrJoin es => existsb Is_ErrNotExist es
  | _ => IsNotExist e
  end.

(** ** Loggers *)
Record Logger := mkLogger { log_Filename : string; log_Prefix : string; log_Writer : writer }.

Section Instances.
Context {W : Type} `{OS W, Files W, Host W, Processes W, PidFiles W}.

Definition NewCustomLogger (out : writer) (prefix : string) : Logger := mkLogger "" prefix out.

Definition NewFileLogger (filename prefix : string) : io W Logger :=
  stat <- ask (fun w => Stat w (path_Dir filename)) ;;
  match stat with
  | Err e => if IsNotExist e then os_MkdirAll (path_Dir filename) 493 else ret tt
  | Ok _ => ret tt
  end ;;;
  io_wrap "cannot open the log file %q: %s" [filename] (open_append filename 416) ;;;
  ret (mkLogger filename prefix (LogFile filename)).

Definition createLogger (run : InstanceCtx) : io W Logger := NewFileLogger (run_Log run) "Watchdog ".

(** ** The controller of a process *)
Record processController := mkController { pc_pid : Z; pc_done : bool }.

Definition newProcessController (cmd : Cmd) : io W processController :=
  pid <- exec_Start cmd ;; ret (mkController pid false).

(** A failed call leaves the controller as it was. *)
Definition pc_Wait (pc : processController) : io W processController :=
  if pc_done pc then ret pc
  else exec_Wait (pc_pid pc) ;;; ret (mkController (pc_pid pc) true).

Definition pc_SendSignal (pc : processController) (sig : Z) : io W unit := process_Signal (pc_pid pc) sig.

Definition pc_IsAlive (pc : processController) : io W bool :=
  if pc_done pc then ret false
  else r <- attempt (pc_SendSignal pc 0) ;; ret (is_ok r).

Definition signal_name (sig : Z) : string :=
  if decide (sig = SIGINT) then "interrupt" else if decide (sig = SIGQUIT) then "quit"
  else "signal " +:+ FormatInt sig.

Definition pc_StopWithSignal (pc : processController) (waitTimeout stopSignal : Z) : io W processController :=
  alive <- pc_IsAlive pc ;;
  if negb alive then ret pc
  else
    io_wrap "failed to send %v to instance: %s" [signal_name stopSignal] (pc_SendSignal pc stopSignal) ;;;
    over <- wait_timeout (pc_pid pc) waitTimeout ;;
    if over : bool then
      io_wrap "failed to send SIGKILL to instance: %s" [] (process_Signal (pc_pid pc) SIGKILL) ;;;
      waited <- attempt (pc_Wait pc) ;;
      match waited with Ok pc => ret pc | Err _ => ret pc end
    else pc_Wait pc.

Definition pc_Stop (pc : processController) (waitTimeout : Z) : io W processController :=
  pc_StopWithSignal pc waitTimeout SIGINT.

(** ** Instances *)
Record baseInstance := mkBase {
  bi_controller : option processController;
  bi_logger : option Logger;
  bi_tarantoolPath : string;
  bi_appPath : string;
  bi_appDir : string;
  bi_appName : string;
  bi_instName : string;
  bi_walDir : string;
  bi_memtxDir : string;
  bi_vinylDir : string;
  bi_consoleSocket : string;
  bi_binaryPort : string;
  bi_logDir : string;
  bi_integrityChecks : bool;
  bi_stdOut : writer;
  bi_stdErr : writer
}.

Definition set_controller (b : baseInstance) (appDir : string) (pc : processController) : baseInstance :=
  mkBase (Some pc) (bi_logger b) (bi_tarantoolPath b) (bi_appPath b) appDir (bi_appName b) (bi_instName b)
    (bi_walDir b) (bi_memtxDir b) (bi_vinylDir b) (bi_consoleSocket b) (bi_binaryPort b) (bi_logDir b)
    (bi_integrityChecks b) (bi_stdOut b) (bi_stdErr b).
Definition set_output (logger : option Logger) (out err : writer) (b : baseInstance) : baseInstance :=
  mkBase (bi_controller b) logger (bi_tarantoolPath b) (bi_appPath b) (bi_appDir b) (bi_appName b) (bi_instName b)
    (bi_walDir b) (bi_memtxDir b) (bi_vinylDir b) (bi_consoleSocket b) (bi_binaryPort b) (bi_logDir b)
    (bi_integrityChecks b) out err.

(** *** Options *)
Definition InstanceOption : Type := baseInstance -> baseInstance.

Definition IntegrityOpt : InstanceOption := fun b =>
  mkBase (bi_controller b) (bi_logger b) (bi_tarantoolPath b) (bi_appPath b) (bi_appDir b) (bi_appName b)
    (bi_instName b) (bi_walDir b) (bi_memtxDir b) (bi_vinylDir b) (bi_consoleSocket b) (bi_binaryPort b)
    (bi_logDir b) true (bi_stdOut b) (bi_stdErr b).
Definition StdOutOpt (out : writer) : InstanceOption := fun b => set_output (bi_logger b) out (bi_stdErr b) b.
Definition StdErrOpt (err : writer) : InstanceOption := fun b => set_output (bi_logger b) (bi_stdOut b) err b.
Definition StdLoggerOpt (logger : Logger) : InstanceOption :=
  set_output (Some logger) (log_Writer logger) (log_Writer logger).

Definition newBaseInstance (tarantoolPath : string) (i : InstanceCtx) (opts : list InstanceOption) : baseInstance :=
  fold_left (fun b (opt : InstanceOption) => opt b) opts
    (mkBase None None tarantoolPath (run_InstanceScript i) (run_AppDir i) (run_AppName i) (run_InstName i)
       (run_WalDir i) (run_MemtxDir i) (run_VinylDir i) (run_ConsoleSocket i) (run_BinaryPort i) (run_LogDir i)
       false Stdout Stderr).

Definition not_started {A} : io W A := throw (Errorf "instance is not started" []).

Definition with_controller (b : baseInstance) (pc : processController) : baseInstance :=
  set_controller b (bi_appDir b) pc.

Definition bi_Wait (b : baseInstance) : io W baseInstance :=
  match bi_controller b with
  | None => not_started
  | Some pc => pc <- pc_Wait pc ;; ret (with_controller b pc)
  end.

Definition bi_SendSignal (b : baseInstance) (sig : Z) : io W unit :=
  match bi_controller b with None => not_started | Some pc => pc_SendSignal pc sig end.

Definition bi_IsAlive (b : baseInstance) : io W bool :=
  match bi_controller b with None => ret false | Some pc => pc_IsAlive pc end.

Definition bi_StopWithSignal (b : baseInstance) (waitTimeout usedSignal : Z) : io W baseInstance :=
  match bi_controller b with
  | None => ret b
  | Some pc => pc <- pc_StopWithSignal pc waitTimeout usedSignal ;; ret (with_controller b pc)
  end.

(** [Stop] is the controller's, which a new instance does not have. *)
Definition bi_Stop (b : baseInstance) (waitTimeout : Z) : io W baseInstance :=
  match bi_controller b with
  | None => look (fun _ => nil_deref)
  | Some pc => pc <- pc_Stop pc waitTimeout ;; ret (with_controller b pc)
  end.

(** *** Sockets *)
Definition maxSocketPathLinux : nat := 108.
Definition maxSocketPathMac : nat := 104.
Definition maxSocketPath : nat := if decide (GOOS = "darwin") then maxSocketPathMac else maxSocketPathLinux.

Definition verifySocketLength (socketPath : string) : option error :=
  if bool_decide (socketPath <> "") && bool_decide (maxSocketPath <= String.length socketPath)%nat then
    Some (Errorf "socket path is longer than %d symbols: %q"
            [FormatInt (Z.of_nat maxSocketPath - 1); socketPath])
  else None.

Definition shortenSocketPath (socketPath basePath : string) : result string :=
  match verifySocketLength socketPath with
  | None => Ok socketPath
  | Some _ =>
      match Rel basePath socketPath with
      | Err e => Err e
      | Ok relativeSocketPath =>
          match verifySocketLength relativeSocketPath with
          | None => Ok relativeSocketPath
          | Some e => Err e
          end
      end
  end.

(** *** Instances that run a script *)
Definition HashesFileName : string := "".
Definition defaultDirPerms : Z := 504.

Context (Read : W -> string -> option error) (instanceLauncher : string).

Definition read_checked (path : string) : io W unit := fun w =>
  match Read w path with Some e => (Err e, w) | None => (Ok tt, w) end.

Definition newScriptInstance (tarantoolPath : string) (i : InstanceCtx) (opts : list InstanceOption)
    : io W baseInstance :=
  look (fun w => LookPath w tarantoolPath) ;;;
  look (fun w => Stat w (run_InstanceScript i)) ;;;
  ret (newBaseInstance tarantoolPath i opts).

(** The environment of a script: later settings of a variable override. *)
Definition console_env (consoleSocket : string) : list string :=
  [ "TT_CLI_CONSOLE_SOCKET=unix/:./" +:+ path_Base consoleSocket;
    "TT_CLI_CONSOLE_SOCKET_DIR=" +:+ path_Dir consoleSocket ].

Definition setTarantoolLog (b : baseInstance) : list string :=
  if decide (bi_logDir b <> "") then ["TARANTOOL_LOG="] else [].

Definition script_env (b : baseInstance) (environ : list string) (listenSet : bool) (workDir : string)
    (console : list string) : list string :=
  environ
  ++ [ "TT_CLI_INSTANCE=" +:+ bi_appPath b; "PWD=" +:+ workDir ]
  ++ (if bool_decide (bi_binaryPort b <> "") && bool_decide (bi_instName b <> stateBoardInstName)
         && negb listenSet
      then ["TT_LISTEN=" +:+ bi_binaryPort b] else [])
  ++ console
  ++ [ "TT_CLI_INSTANCE=" +:+ bi_appPath b; "TT_CLI_WORK_DIR=" +:+ workDir; "TARANTOOLCTL=true"; "TT_CLI=true";
       "TT_VINYL_DIR=" +:+ bi_vinylDir b; "TT_WAL_DIR=" +:+ bi_walDir b; "TT_MEMTX_DIR=" +:+ bi_memtxDir b;
       "TARANTOOL_WORKDIR=" +:+ bi_walDir b ]
  ++ (if decide (bi_instName b <> stateBoardInstName)
      then [ "TARANTOOL_APP_NAME=" +:+ bi_appName b; "TARANTOOL_INSTANCE_NAME=" +:+ bi_instName b ]
      else [ "TARANTOOL_APP_NAME=" +:+ bi_appName b +:+ "-" +:+ bi_instName b ])
  ++ (if decide (bi_appName b <> bi_instName b)
      then [ "TARANTOOL_CFG=" +:+ path_Dir (bi_appPath b) +:+ "/instances.yml" ] else [])
  ++ setTarantoolLog b.

Definition script_Start (b : baseInstance) : io W baseInstance :=
  (if bi_integrityChecks b then read_checked (bi_tarantoolPath b) else ret tt) ;;;
  let cmdArgs :=
    (if bi_integrityChecks b then ["--integrity-check"; HashesFileName] else []) ++ ["-"] in
  exec_StdinPipe ;;;
  let appDir := if decide (bi_appDir b = "") then path_Dir (bi_appPath b) else bi_appDir b in
  there <- ask (fun w => IsDir w appDir) ;;
  (if there : bool then ret tt
   else io_wrap "failed to create application directory %q: %w" [appDir] (os_MkdirAll appDir defaultDirPerms)) ;;;
  listenSet <- ask (fun w => bool_decide (is_Some (LookupEnv w "TT_LISTEN"))) ;;
  console <- look (fun _ => if decide (bi_consoleSocket b <> "")
                            then rmap console_env (shortenSocketPath (bi_consoleSocket b) appDir) else Ok []) ;;
  environ <- ask os_Environ ;;
  pc <- newProcessController
          (mkCmd (bi_tarantoolPath b) cmdArgs (script_env b environ listenSet appDir console) appDir
             instanceLauncher (bi_stdOut b) (bi_stdErr b) false) ;;
  ret (set_controller b appDir pc).

(** *** Instances of a cluster configuration *)
Definition newClusterInstance (cached : Version) (executable : string) (i : InstanceCtx)
    (opts : list InstanceOption) : io W baseInstance :=
  look (fun w => LookPath w executable) ;;;
  tntVersion <- look (TarantoolCli_GetVersion cached executable) ;;
  if Major tntVersion <? 3 then throw (Errorf "cluster config is supported starting from Tarantool 3.0" [])
  else ret (newBaseInstance executable i opts).

Definition appendEnvIfNotEmpty (env : list string) (envVarName value : string) : list string :=
  if decide (value <> "") then env ++ [envVarName +:+ "=" +:+ value] else env.

Definition cluster_dirs_env (b : baseInstance) (runDir : string) (environ : list string) : list string :=
  let env := appendEnvIfNotEmpty environ "TT_VINYL_DIR_DEFAULT" (bi_vinylDir b) in
  let env := appendEnvIfNotEmpty env "TT_WAL_DIR_DEFAULT" (bi_walDir b) in
  let env := appendEnvIfNotEmpty env "TT_SNAPSHOT_DIR_DEFAULT" (bi_memtxDir b) in
  if decide (runDir <> "")
  then env ++ ["TT_PROCESS_PID_FILE_DEFAULT=" +:+ filepath_Join [runDir; "tarantool.pid"]] else env.

Definition cluster_env (b : baseInstance) (runDir consoleSocket : string) (environ : list string) : list string :=
  cluster_dirs_env b runDir environ
  ++ [ "PWD=" +:+ bi_appDir b; "TT_CONSOLE_SOCKET_DEFAULT=" +:+ consoleSocket;
       "TT_IPROTO_LISTEN_DEFAULT=[{" +:+ quote +:+ "uri" +:+ quote +:+ ":" +:+ quote +:+ bi_binaryPort b
         +:+ quote +:+ "}]" ].

Definition cluster_Start (clusterConfigPath runDir : string) (b : baseInstance) : io W baseInstance :=
  let cmdArgs :=
    ["-n"; bi_instName b; "-c"; clusterConfigPath]
    ++ (if bi_integrityChecks b
        then ["--integrity-check"; filepath_Join [bi_appDir b; HashesFileName]] else []) in
  there <- ask (fun w => IsDir w (bi_appDir b)) ;;
  if negb there then throw (Errorf "application %q is not a directory" [bi_appDir b])
  else
    consoleSocket <- look (fun _ => shortenSocketPath (bi_consoleSocket b) (bi_appDir b)) ;;
    environ <- ask os_Environ ;;
    pc <- newProcessController
            (mkCmd (bi_tarantoolPath b) cmdArgs (cluster_env b runDir consoleSocket environ) (bi_appDir b)
               "" (bi_stdOut b) (bi_stdErr b) false) ;;
    ret (with_controller b pc).

(** *** Either *)
Inductive Instance :=
| scriptInstance (b : baseInstance)
| clusterInstance (clusterConfigPath runDir : string) (b : baseInstance).

Definition base_of (i : Instance) : baseInstance :=
  match i with scriptInstance b | clusterInstance _ _ b => b end.
Definition set_base (i : Instance) (b : baseInstance) : Instance :=
  match i with scriptInstance _ => scriptInstance b | clusterInstance c r _ => clusterInstance c r b end.

Definition inst_Start (i : Instance) : io W Instance :=
  b <- match i with
       | scriptInstance b => script_Start b
       | clusterInstance c r b => cluster_Start c r b
       end ;;
  ret (set_base i b).

Definition inst_Wait (i : Instance) : io W Instance := b <- bi_Wait (base_of i) ;; ret (set_base i b).

Definition createInstance (cached : Version) (executable : string) (i : InstanceCtx) (opts : list InstanceOption)
    : io W Instance :=
  if decide (run_ClusterConfigPath i <> "") then
    b <- newClusterInstance cached executable i opts ;;
    ret (clusterInstance (run_ClusterConfigPath i) (run_RunDir i) b)
  else b <- newScriptInstance executable i opts ;; ret (scriptInstance b).

(** [Run] replaces the process by Tarantool. *)
Definition bi_Run (tarantoolPath : string) (RunArgs : list string) : io W unit :=
  read_checked tarantoolPath ;;;
  environ <- ask os_Environ ;;
  syscall_Exec tarantoolPath (tarantoolPath :: RunArgs) environ.
End Instances.
