(* ===== verification/Control.v ===== *)
(** * Starting and stopping instances ([cli/running/running.go])

    The provider of the watchdog, and what [tt] does to an instance: starting it
    under a watchdog or in the foreground, stopping, killing, rotating its logs,
    checking its script.  The signals that the watchdog handles meanwhile are in
    [Watchdog]; here the flag they set is read from the world. *)
From S2P Require Import Prelude GoStrings GoPath Regexp GoOs GoFs Value Config Cluster Sources Tarantool.
From S2P Require Import Version ClusterGet Configure ProcessUtils Install Running Instances.
Local Open Scope Z_scope.
Local Open Scope io_scope.

(** [cmdcontext.CmdCtx]; [ctx_Version] is the version that [TarantoolCli] caches. *)
Record CmdCtx := mkCmdCtx {
  ctx_Cli : CliCtx; ctx_ConfigDir : string; ctx_CommandName : string; ctx_Version : Version
}.

Definition ctx_Executable (c : CmdCtx) : string := cli_TarantoolExecutable (ctx_Cli c).

Section Control.
Context {W : Type} `{OS W, Files W, Host W, Processes W, PidFiles W}.
Context `{Yaml} `{!Services W} `{GoMapOrder}.
Context (Read : W -> string -> option error) (instanceLauncher checkSyntax : string).
Context (unmarshal : string -> result (gmap string value)) (collectors : CollectorFactory W).
Context (decode : W -> string -> CliOpts -> result (option CliOpts)).
(** [wd.shouldStop], which the handler of signals sets. *)
Context (shouldStop : W -> bool) (clear_shouldStop : W -> W) (time_Sleep : Z -> W -> W).

(** [running.FillCtx] of a command. *)
Definition fill (cliOpts : CliOpts) (ctx : CmdCtx) (args : list string) : io W (list InstanceCtx) :=
  Running.FillCtx Read unmarshal collectors cliOpts (ctx_CommandName ctx) (cli_ConfigPath (ctx_Cli ctx))
    (ctx_ConfigDir ctx) args.

(** ** The provider *)
Definition updateCtx (ctx : CmdCtx) (i : InstanceCtx) : io W InstanceCtx :=
  opts <- look (fun w => GetCliOpts Read decode w (cli_ConfigPath (ctx_Cli ctx))) ;;
  instances <- fill opts.1 ctx [GetAppInstanceName i] ;;
  match instances with
  | i :: _ => ret i
  | [] => throw (Errorf "panic: index out of range" [])
  end.

Definition integrity_opts (ctx : CmdCtx) : list InstanceOption :=
  if decide (cli_IntegrityCheck (ctx_Cli ctx) <> "") then [IntegrityOpt] else [].

Definition CreateInstance (ctx : CmdCtx) (i : InstanceCtx) (logger : Logger) : io W (Instance * InstanceCtx) :=
  i <- updateCtx ctx i ;;
  inst <- createInstance (ctx_Version ctx) (ctx_Executable ctx) i (StdLoggerOpt logger :: integrity_opts ctx) ;;
  ret (inst, i).

Definition isLoggerChanged (logger : option Logger) (i : option InstanceCtx) : result bool :=
  match logger, i with
  | None, _ => Ok true
  | Some _, None => Err (Errorf "logger changed check failed: passing null as an instance context" [])
  | Some logger, Some i => Ok (bool_decide (log_Filename logger <> run_Log i))
  end.

(** The old logger is closed, also one that is nil. *)
Definition UpdateLogger (logger : option Logger) (i : option InstanceCtx) : io W (option Logger) :=
  changed <- look (fun _ => isLoggerChanged logger i) ;;
  if changed : bool then
    look (fun _ => deref logger) ;;;
    match i with
    | Some i => l <- createLogger i ;; ret (Some l)
    | None => look (fun _ => nil_deref)
    end
  else ret logger.

Definition IsRestartable (ctx : CmdCtx) (i : InstanceCtx) : io W (bool * InstanceCtx) :=
  i <- updateCtx ctx i ;; ret (run_Restartable i, i).

(** ** Files of an instance *)
Definition remove_if_there (path : string) : io W unit :=
  stat <- ask (fun w => Stat w path) ;;
  if is_ok stat then attempt (os_Remove path) ;;; ret tt else ret tt.

Definition cleanup (run : InstanceCtx) : io W unit :=
  remove_if_there (run_PIDFile run) ;;;
  remove_if_there (run_ConsoleSocket run) ;;;
  remove_if_there (run_BinaryPort run).

Definition createInstanceDataDirectories (i : InstanceCtx) : io W unit :=
  io_for (fun dataDir => CreateDirectory dataDir defaultDirPerms)
    [run_WalDir i; run_VinylDir i; run_MemtxDir i; run_RunDir i; run_LogDir i].

(** ** The foreground *)
Definition launch_instance (ctx : CmdCtx) (i : InstanceCtx) (stdOut stdErr : writer) : io W Instance :=
  io_for (fun dataDir => CreateDirectory dataDir defaultDirPerms)
    [run_WalDir i; run_VinylDir i; run_MemtxDir i; run_RunDir i] ;;;
  let logger := NewCustomLogger stdOut "" in
  let opts := [StdLoggerOpt logger; StdOutOpt stdOut; StdErrOpt stdErr] ++ integrity_opts ctx in
  inst <- io_wrap "failed to create the instance %q: %s" [run_InstName i]
            (createInstance (ctx_Version ctx) (ctx_Executable ctx) i opts) ;;
  io_wrap "failed to start the instance %q: %s" [run_InstName i] (inst_Start Read instanceLauncher inst).

Definition RunInstance (ctx : CmdCtx) (i : InstanceCtx) (stdOut stdErr : writer) : io W unit :=
  inst <- launch_instance ctx i stdOut stdErr ;;
  finally (cleanup i) (
    pid <- look (fun _ => rmap pc_pid (deref (bi_controller (base_of inst)))) ;;
    created <- attempt (pu_CreatePIDFile (run_PIDFile i) pid) ;;
    match created with
    | Err e =>
        attempt (bi_Stop (base_of inst) 10) ;;;
        throw (Wrapf "cannot create the pid file %q: %s" [run_PIDFile i] e)
    | Ok _ => inst_Wait inst ;;; ret tt
    end).

(** ** The watchdog

    The main goroutine of [Watchdog.Start]; [None]: it has not returned after
    [fuel] starts of the instance. *)
Fixpoint wd_loop (fuel : nat) (ctx : CmdCtx) (i : InstanceCtx) (logger : option Logger) (inst : Instance) (w : W)
    : option (result unit * W) :=
  match fuel with
  | O => None
  | S fuel =>
      if shouldStop w then Some (Ok tt, w)
      else
        match inst_Start Read instanceLauncher inst w with
        | (Err _, w) => Some (Ok tt, w)
        | (Ok inst, w) =>
            let w := (inst_Wait inst w).2 in
            match IsRestartable ctx i w with
            | (Err _, w) => Some (Ok tt, w)
            | (Ok (restartable, i), w) =>
                if shouldStop w || negb restartable then Some (Ok tt, w)
                else
                  match UpdateLogger logger (Some i) w with
                  | (Err _, w) => Some (Ok tt, w)
                  | (Ok logger, w) =>
                      let w := clear_shouldStop (time_Sleep 5 w) in
                      match (l <- look (fun _ => deref logger) ;; CreateInstance ctx i l) w with
                      | (Err e, w) => Some (Err e, w)
                      | (Ok (inst, i), w) => wd_loop fuel ctx i logger inst w
                      end
                  end
            end
        end
  end.

Definition wd_Start (fuel : nat) (ctx : CmdCtx) (i : InstanceCtx) (logger : Logger) (preStartAction : io W unit)
    (w : W) : option (result unit * W) :=
  match CreateInstance ctx i logger w with
  | (Err e, w) => Some (Err e, w)
  | (Ok (inst, i), w) =>
      match preStartAction w with
      | (Err e, w) => Some (Err e, w)
      | (Ok _, w) => wd_loop fuel ctx i (Some logger) inst w
      end
  end.

Definition prepare (i : InstanceCtx) : io W Logger :=
  io_wrap "failed to create a directory: %s" [] (createInstanceDataDirectories i) ;;;
  io_wrap "cannot create a logger: %s" [] (createLogger i).

Definition Start (fuel : nat) (ctx : CmdCtx) (i : InstanceCtx) (w : W) : option (result unit * W) :=
  match prepare i w with
  | (Err e, w) => Some (Err e, w)
  | (Ok logger, w) =>
      let preStartAction := fun w => pu_CreatePIDFile (run_PIDFile i) (os_Getpid w) w in
      match wd_Start fuel ctx i logger preStartAction w with
      | None => None
      | Some (_, w) => Some (Ok tt, (cleanup i w).2)
      end
  end.

(** ** Stopping *)
Definition Stop (run : InstanceCtx) : io W unit :=
  stopped <- attempt (pu_StopProcess (run_PIDFile run)) ;;
  match stopped with
  | Err e => if Is_ErrNotExist e then ret tt else throw e
  | Ok _ => remove_if_there (run_ConsoleSocket run)
  end.

Definition Kill (run : InstanceCtx) : io W unit :=
  io_wrap "failed to kill the processes: %s" [] (pu_KillProcessGroup (run_PIDFile run)) ;;;
  cleanup run.

Definition Quit (run : InstanceCtx) : io W unit :=
  io_wrap "failed to quit the process: %s" [] (pu_QuitProcess (run_PIDFile run)) ;;;
  remove_if_there (run_ConsoleSocket run).

Definition Run (ctx : CmdCtx) (RunArgs : list string) : io W unit := bi_Run Read (ctx_Executable ctx) RunArgs.

Definition Status (w : W) (run : InstanceCtx) : ProcessState := pu_ProcessStatus w (run_PIDFile run).

(** ** Logs and scripts *)
Definition SIGHUP : Z := 1.

Definition Logrotate (run : InstanceCtx) : io W string :=
  pid <- ask (fun w => pu_GetPIDFromFile w (run_PIDFile run)) ;;
  match pid with
  | Err _ => throw (Errorf (ProcessState_String ProcStateStopped) [])
  | Ok pid =>
      alive <- ask (fun w => pu_IsProcessAlive w pid) ;;
      if negb alive then throw (Errorf (ProcessState_String ProcStateDead) [])
      else
        io_wrap ("can't rotate logs: " +:+ quote +:+ "%v" +:+ quote) [] (syscall_Kill pid SIGHUP) ;;;
        ret (GetAppInstanceName run +:+ ": logs has been rotated. PID: " +:+ FormatInt pid +:+ ".")
  end.

Definition Check (ctx : CmdCtx) (run : InstanceCtx) : io W unit :=
  attempt (os_Setenv "TT_CLI_INSTANCE" (run_InstanceScript run)) ;;;
  fun w =>
    match exec_Run (ctx_Executable ctx) ["-e"; checkSyntax] w with
    | (Some stderr, w) => (Err (Errorf stderr []), w)
    | (None, w) => (Ok tt, w)
    end.

(** ** [StartWatchdog]: another [tt] that watches the instance. *)
Definition StartWatchdog (ctx : CmdCtx) (ttExecutable : string) (i : InstanceCtx) (args : list string)
    : io W unit :=
  procStatus <- ask (fun w => pu_ProcessStatus w (run_PIDFile i)) ;;
  if decide (ps_Code procStatus = ProcessRunningCode) then ret tt
  else
    read_checked Read ttExecutable ;;;
    environ <- ask os_Environ ;;
    exec_Start (mkCmd ttExecutable
                  (watchdog_args (cli_IntegrityCheck (ctx_Cli ctx)) (ctx_Cli ctx) args (GetAppInstanceName i))
                  environ "" "" DevNull DevNull true) ;;;
    ret tt.

(** ** Filters *)
Definition IsInstanceActive (w : W) (run : InstanceCtx) : bool :=
  bool_decide (ps_Code (Status w run) = ProcessRunningCode).
Definition IsInstanceInactive (w : W) (run : InstanceCtx) : bool := negb (IsInstanceActive w run).

Definition ExtractActiveInstanceNames (w : W) (l : list InstanceCtx) : list string :=
  extractInstanceNames l (IsInstanceActive w).
Definition ExtractInactiveInstanceNames (w : W) (l : list InstanceCtx) : list string :=
  extractInstanceNames l (IsInstanceInactive w).
Definition ExtractActiveAppNames (w : W) (l : list InstanceCtx) : list string :=
  extractAppNames l (IsInstanceActive w).
Definition ExtractInactiveAppNames (w : W) (l : list InstanceCtx) : list string :=
  extractAppNames l (IsInstanceInactive w).
Definition ExtractInstanceNames (l : list InstanceCtx) : list string := extractInstanceNames l (fun _ => true).
Definition ExtractAppNames (l : list InstanceCtx) : list string := extractAppNames l (fun _ => true).
End Control.
