(* ===== verification/InstanceCmds.v ===== *)
(** * The commands on instances ([cli/cmd/start.go], [stop.go], [kill.go],
    [restart.go], [status.go], [logrotate.go], [check.go], [clean.go], [run.go],
    [common.go], [cli/status/status.go])

    The flags of a command are arguments of its module.  Messages, and how a
    table is drawn, are left out. *)
From S2P Require Import Prelude GoStrings GoPath Regexp GoOs GoFs Value Config Cluster Sources Tarantool.
From S2P Require Import Version ClusterGet Configure ProcessUtils Install Running Instances Control.
Local Open Scope Z_scope.
Local Open Scope io_scope.

Definition errNoConfig : error :=
  Errorf (ConfigName +:+ " not found, you need to create tt environment config with 'tt init' or provide exact config location with --cfg option") [].

Definition isConfigExist (ctx : CmdCtx) : bool := bool_decide (cli_ConfigPath (ctx_Cli ctx) <> "").

(** A row of the table of [tt status]: after the name and the status, the PID and
    the mode, where they are known. *)
Inductive cell := CText (s : string) | CNumber (n : Z).

(** The instances of [tt check]: one for each script. *)
Definition unique_scripts (instances : list InstanceCtx) : list InstanceCtx :=
  fold_left (fun uniqueInst inst =>
    if existsb (fun unique => bool_decide (run_InstanceScript inst = run_InstanceScript unique)) uniqueInst
    then uniqueInst else uniqueInst ++ [inst]) instances [].

Section InstanceCmds.
Context {W : Type} `{OS W, Files W, Host W, Processes W, PidFiles W}.
Context `{Yaml} `{!Services W} `{GoMapOrder}.
Context (Read : W -> string -> option error) (instanceLauncher checkSyntax : string).
Context (unmarshal : string -> result (gmap string value)) (collectors : CollectorFactory W).
Context (decode : W -> string -> CliOpts -> result (option CliOpts)).
Context (shouldStop : W -> bool) (clear_shouldStop : W -> W) (time_Sleep : Z -> W -> W).
(** Instances in the foreground, which run side by side. *)
Context (startInstancesInteractive : CmdCtx -> list InstanceCtx -> io W unit).
(** [filepath.Walk]: the paths it visits and whether they are directories. *)
Context (filepath_Walk : W -> string -> result (list (string * bool))).
(** The answer of the console of an instance, when there is one. *)
Context (eval_ro : InstanceCtx -> W -> option (list value) * W).

Notation fill := (fill Read unmarshal collectors).
Notation CmdStart := (Start Read instanceLauncher unmarshal collectors decode shouldStop clear_shouldStop time_Sleep).

(** The instances that a command is about. *)
Definition command_instances (cliOpts : CliOpts) (ctx : CmdCtx) (args : list string) : io W (list InstanceCtx) :=
  if negb (isConfigExist ctx) then throw errNoConfig else fill cliOpts ctx args.

(** Every instance in turn; a failure is reported and the others follow. *)
Definition each_reported {A} (body : A -> io W unit) (l : list A) : io W unit :=
  io_for (fun x => attempt (body x) ;;; ret tt) l.

(** ** [tt start] *)
Definition startInstancesUnderWatchdog (ctx : CmdCtx) (instances : list InstanceCtx) : io W unit :=
  ttBin <- look Executable ;;
  let startArgs :=
    if decide (cli_IntegrityCheck (ctx_Cli ctx) <> "")
    then ["--integrity-check-period"; FormatUint (cli_IntegrityCheckPeriod (ctx_Cli ctx) mod 2 ^ 64)] else [] in
  io_for (fun i => StartWatchdog Read ctx ttBin i startArgs) instances.

Definition startInstances (interactive : bool) (ctx : CmdCtx) (instances : list InstanceCtx) : io W unit :=
  if interactive then startInstancesInteractive ctx instances
  else startInstancesUnderWatchdog ctx instances.

(** What every start checks. *)
Definition start_checks (cliOpts : CliOpts) (ctx : CmdCtx) (args : list string) : io W (list InstanceCtx) :=
  if negb (isConfigExist ctx) then throw errNoConfig
  else if decide (ctx_Executable ctx = "") then throw (Errorf "cannot start: tarantool binary is not found" [])
  else
    instances <- fill cliOpts ctx args ;;
    reason <- ask (fun w =>
      IsAbleToStartInstances (TarantoolCli_GetVersion (ctx_Version ctx) (ctx_Executable ctx) w) instances) ;;
    match reason with Some e => throw e | None => ret instances end.

Definition internalStartModule (interactive : bool) (cliOpts : CliOpts) (ctx : CmdCtx) (args : list string)
    : io W unit :=
  instances <- start_checks cliOpts ctx args ;; startInstances interactive ctx instances.

(** With [--watchdog]: [None] while the watchdog runs. *)
Definition day : Z := 24 * 60 * 60.

Definition with_period (ctx : CmdCtx) : CmdCtx :=
  let c := ctx_Cli ctx in
  if bool_decide (cli_IntegrityCheck c <> "") && (cli_IntegrityCheckPeriod c =? 0) then
    mkCmdCtx (mkCliCtx (cli_IsSystem c) (cli_LocalLaunchDir c) (cli_ConfigPath c) (cli_DaemonCfgPath c)
      (cli_IsTarantoolBinFromRepo c) (cli_TarantoolExecutable c) (cli_IntegrityCheck c) day (cli_IsSelfExec c))
      (ctx_ConfigDir ctx) (ctx_CommandName ctx) (ctx_Version ctx)
  else ctx.

Definition internalStartModule_watchdog (fuel : nat) (cliOpts : CliOpts) (ctx : CmdCtx) (args : list string) (w : W)
    : option (result unit * W) :=
  match start_checks cliOpts ctx args w with
  | (Err e, w) => Some (Err e, w)
  | (Ok [], w) => Some (Err (Errorf "panic: index out of range" []), w)
  | (Ok (i :: _), w) => CmdStart fuel (with_period ctx) i w
  end.

(** ** [tt stop], [tt restart], [tt kill] *)
Definition internalStopModule (cliOpts : CliOpts) (ctx : CmdCtx) (args : list string) : io W unit :=
  instances <- command_instances cliOpts ctx args ;; each_reported Stop instances.

Definition internalRestartModule (autoYes : bool) (cliOpts : CliOpts) (ctx : CmdCtx) (args : list string)
    : io W unit :=
  if negb (isConfigExist ctx) then throw errNoConfig
  else if decide (ctx_Executable ctx = "") then throw (Errorf "tarantool binary is not found" [])
  else
    confirmed <- (if autoYes then ret true
                  else confirm ("Confirm restart of " +:+
                         match args with [] => "all instances" | arg :: _ => "'" +:+ arg +:+ "'" end)) ;;
    if negb confirmed then ret tt
    else internalStopModule cliOpts ctx args ;;; internalStartModule false cliOpts ctx args.

Definition askConfirmation (forceKill : bool) (args : list string) : io W bool :=
  if forceKill then ret true
  else confirm match args with
               | [] => "Kill all instances?"
               | arg :: _ =>
                   if Contains arg (String InstanceDelimiter "") then "Kill " +:+ arg +:+ " instance?"
                   else "Kill instances of " +:+ arg +:+ "?"
               end.

Definition internalKillModule (forceKill dumpQuit : bool) (cliOpts : CliOpts) (ctx : CmdCtx) (args : list string)
    : io W unit :=
  if negb (isConfigExist ctx) then throw errNoConfig
  else
    confirmed <- io_wrap "error asking for confirmation: %s" [] (askConfirmation forceKill args) ;;
    if confirmed : bool then
      instances <- fill cliOpts ctx args ;;
      each_reported (if dumpQuit then Quit else Kill) instances
    else ret tt.

(** ** [tt status] *)
Definition status_row (run : InstanceCtx) : io W (list cell) := fun w =>
  let procStatus := Status w run in
  let row := [CText (GetAppInstanceName run); CText (ps_Status procStatus)]
             ++ (if decide (ps_Code procStatus = ProcessRunningCode) then [CNumber (ps_PID procStatus)] else []) in
  match eval_ro run w with
  | (Some (VBool ro :: _), w) => (Ok (row ++ [CText (if ro then "RO" else "RW")]), w)
  | (Some (_ :: _), w) => (Err (Errorf "panic: interface conversion" []), w)
  | (_, w) => (Ok row, w)
  end.

Fixpoint status_rows (l : list InstanceCtx) : io W (list (list cell)) :=
  match l with
  | [] => ret []
  | run :: l => row <- status_row run ;; rows <- status_rows l ;; ret (row :: rows)
  end.

Definition internalStatusModule (cliOpts : CliOpts) (ctx : CmdCtx) (args : list string) : io W (list (list cell)) :=
  instances <- command_instances cliOpts ctx args ;; status_rows instances.

(** ** [tt logrotate], [tt check], [tt run] *)
Definition internalLogrotateModule (cliOpts : CliOpts) (ctx : CmdCtx) (args : list string) : io W unit :=
  instances <- command_instances cliOpts ctx args ;;
  io_for (fun run => Logrotate run ;;; ret tt) instances.

Definition internalCheckModule (cliOpts : CliOpts) (ctx : CmdCtx) (args : list string) : io W unit :=
  instances <- command_instances cliOpts ctx args ;;
  io_for (Check checkSyntax ctx) (unique_scripts instances).

Definition internalRunModule (ctx : CmdCtx) (args : list string) : io W unit :=
  if negb (isConfigExist ctx) then throw errNoConfig else Run Read ctx args.

(** ** [tt clean] *)
Definition collectFiles (w : W) (files : gmap string bool) (dirname : string) : result (gmap string bool) :=
  rmap (fun visited =>
    fold_left (fun files (v : string * bool) => if v.2 then files else <[v.1 := true]> files) visited files)
    (filepath_Walk w dirname).

Definition files_to_clean (w : W) (run : InstanceCtx) : result (gmap string bool) :=
  for_each (collectFiles w) [run_LogDir run; run_WalDir run; run_VinylDir run; run_MemtxDir run] ∅.

Definition clean (forceRemove : bool) (run : InstanceCtx) : io W unit :=
  removeFiles <- look (fun w => files_to_clean w run) ;;
  if decide (removeFiles = ∅) then ret tt
  else
    confirmed <- (if forceRemove then ret true else confirm "Confirm") ;;
    if confirmed : bool then io_for os_Remove (map fst (range_map removeFiles))
    else throw (Errorf "canceled by user" []).

Definition internalCleanModule (forceRemove : bool) (cliOpts : CliOpts) (ctx : CmdCtx) (args : list string)
    : io W unit :=
  instances <- command_instances cliOpts ctx args ;;
  each_reported (fun run =>
    status <- ask (fun w => Status w run) ;;
    if decide (ps_Code status = ProcessStoppedCode) then clean forceRemove run else ret tt) instances.
End InstanceCmds.
