(* ===== verification/Build.v ===== *)
(** * Building applications ([cli/build]) and LuaRocks ([cli/rocks])

    [build.go] and [local.go]: the directory to build, the hooks before and after
    the build, and the run of LuaRocks between them in that directory.
    [rocks.go]: the arguments, the environment and the modules that LuaRocks gets.
    The Lua interpreter and the embedded files are parameters. *)
From S2P Require Import Prelude GoStrings GoPath Regexp GoOs GoFs Value Cluster Configure Version.
From S2P Require Import ProcessUtils Install Running Instances Control InstanceCmds.
Local Open Scope Z_scope.
Local Open Scope io_scope.
Local Open Scope go_scope.

Record BuildCtx := mkBuildCtx { BuildDir : string; SpecFile : string }.

Definition cmakeIncludePathEnvVar : string := "CMAKE_INCLUDE_PATH".
Definition PreBuildScripts : list string := ["tt.pre-build"; "cartridge.pre-build"].
Definition PostBuildScripts : list string := ["tt.post-build"; "cartridge.post-build"].

(** ** LuaRocks: arguments *)
Definition rocksRepoManifestName : string := "manifest".
Definition repoRocksPathEnvVarName : string := "TT_CLI_REPO_ROCKS".
Definition tarantoolPrefixEnvVarName : string := "TT_CLI_TARANTOOL_PREFIX".
Definition tarantoolDefaultPrefixDir : string := "/usr".

Definition is_only_server (opt : string) : bool :=
  bool_decide (opt = "--only-server") || HasPrefix opt "--only-server=".

(** The loop over the arguments: [--server] changes the argument after it, which
    the next round then reads ([pending]); there is none after the last one. *)
Fixpoint add_server (rocks : string) (pending : bool) (args : list string) : result (list string * bool) :=
  match args with
  | [] => if pending then Err (Errorf "panic: index out of range" []) else Ok ([], false)
  | opt :: args =>
      let opt := if pending then opt +:+ " " +:+ rocks else opt in
      let next := bool_decide (opt = "--server") in
      let opt' := if HasPrefix opt "--server=" then opt +:+ " " +:+ rocks else opt in
      rest <-? add_server rocks next args;;
      Ok (opt' :: rest.1, next || HasPrefix opt "--server=" || rest.2)
  end.

Definition addLuarocksRepoOpts (cliOpts : CliOpts) (args : list string) : result (list string) :=
  if existsb is_only_server args then Ok args
  else
    match opts_Repo cliOpts with
    | Some repo =>
        if decide (repo_Rocks repo <> "") then
          res <-? add_server (repo_Rocks repo) false args;;
          Ok (if res.2 : bool then res.1 else res.1 ++ ["--server"; repo_Rocks repo])
        else Ok args
    | None => Ok args
    end.

(** The arguments in the text of a Lua call. *)
Fixpoint lua_args (args : list string) : string :=
  match args with
  | [] => ""
  | [arg] => "'" +:+ arg +:+ "'"
  | arg :: args => "'" +:+ arg +:+ "', " +:+ lua_args args
  end.

Definition rocks_command (argv0 : string) (args : list string) : string :=
  match args with
  | [] => "t=require('extra.wrapper').exec('" +:+ argv0 +:+ "')"
  | _ => "t=require('extra.wrapper').exec('" +:+ argv0 +:+ "', " +:+ lua_args args +:+ ")"
  end.

(** Any text, a space, [-DCMAKE_INSTALL_PREFIX=], a group [prefix] of a slash and any
    text, a space and any text, each as long as it can be. *)
Definition prefix_re : re := (
  RStar (RUnit any_char) @@ RUnit perl_space @@ lit "-DCMAKE_INSTALL_PREFIX="
  @@ RGroup "prefix" (lit "/" @@ RStar (RUnit any_char)) @@ RUnit perl_space @@ RStar (RUnit any_char))%re.

Definition extra_path : string := "extra/".
Definition rocks_path : string := "third_party/luarocks/src/".

(** The modules LuaRocks may require, with their files. *)
Definition rocks_preload : list (string * string) := [
  ("extra.wrapper", extra_path +:+ "wrapper.lua"); ("luarocks.core.hardcoded", extra_path +:+ "hardcoded.lua");
  ("luarocks.core.util", rocks_path +:+ "luarocks/core/util.lua");
  ("luarocks.core.persist", rocks_path +:+ "luarocks/core/persist.lua");
  ("luarocks.core.sysdetect", rocks_path +:+ "luarocks/core/sysdetect.lua");
  ("luarocks.core.cfg", rocks_path +:+ "luarocks/core/cfg.lua");
  ("luarocks.core.dir", rocks_path +:+ "luarocks/core/dir.lua");
  ("luarocks.core.path", rocks_path +:+ "luarocks/core/path.lua");
  ("luarocks.core.manif", rocks_path +:+ "luarocks/core/manif.lua");
  ("luarocks.core.vers", rocks_path +:+ "luarocks/core/vers.lua");
  ("luarocks.util", rocks_path +:+ "luarocks/util.lua"); ("luarocks.loader", rocks_path +:+ "luarocks/loader.lua");
  ("luarocks.dir", rocks_path +:+ "luarocks/dir.lua"); ("luarocks.path", rocks_path +:+ "luarocks/path.lua");
  ("luarocks.fs", rocks_path +:+ "luarocks/fs.lua"); ("luarocks.persist", rocks_path +:+ "luarocks/persist.lua");
  ("luarocks.fun", rocks_path +:+ "luarocks/fun.lua");
  ("luarocks.tools.patch", rocks_path +:+ "luarocks/tools/patch.lua");
  ("luarocks.tools.zip", rocks_path +:+ "luarocks/tools/zip.lua");
  ("luarocks.tools.tar", rocks_path +:+ "luarocks/tools/tar.lua");
  ("luarocks.fs.unix", rocks_path +:+ "luarocks/fs/unix.lua"); ("luarocks.fs.macosx", extra_path +:+ "macosx.lua");
  ("luarocks.fs.unix.tools", rocks_path +:+ "luarocks/fs/unix/tools.lua");
  ("luarocks.fs.lua", rocks_path +:+ "luarocks/fs/lua.lua");
  ("luarocks.fs.tools", rocks_path +:+ "luarocks/fs/tools.lua");
  ("luarocks.queries", rocks_path +:+ "luarocks/queries.lua");
  ("luarocks.type_check", rocks_path +:+ "luarocks/type_check.lua");
  ("luarocks.type.rockspec", rocks_path +:+ "luarocks/type/rockspec.lua");
  ("luarocks.rockspecs", rocks_path +:+ "luarocks/rockspecs.lua");
  ("luarocks.signing", rocks_path +:+ "luarocks/signing.lua");
  ("luarocks.fetch", rocks_path +:+ "luarocks/fetch.lua");
  ("luarocks.type.manifest", rocks_path +:+ "luarocks/type/manifest.lua");
  ("luarocks.manif", rocks_path +:+ "luarocks/manif.lua");
  ("luarocks.build.builtin", rocks_path +:+ "luarocks/build/builtin.lua");
  ("luarocks.deps", rocks_path +:+ "luarocks/deps.lua");
  ("luarocks.deplocks", rocks_path +:+ "luarocks/deplocks.lua"); ("luarocks.cmd", rocks_path +:+ "luarocks/cmd.lua");
  ("luarocks.argparse", rocks_path +:+ "luarocks/argparse.lua");
  ("luarocks.test.busted", rocks_path +:+ "luarocks/test/busted.lua");
  ("luarocks.test.command", rocks_path +:+ "luarocks/test/command.lua");
  ("luarocks.results", rocks_path +:+ "luarocks/results.lua");
  ("luarocks.search", rocks_path +:+ "luarocks/search.lua"); ("luarocks.repos", rocks_path +:+ "luarocks/repos.lua");
  ("luarocks.cmd.show", rocks_path +:+ "luarocks/cmd/show.lua");
  ("luarocks.cmd.path", rocks_path +:+ "luarocks/cmd/path.lua");
  ("luarocks.cmd.write_rockspec", rocks_path +:+ "luarocks/cmd/write_rockspec.lua");
  ("luarocks.manif.writer", rocks_path +:+ "luarocks/manif/writer.lua");
  ("luarocks.remove", rocks_path +:+ "luarocks/remove.lua"); ("luarocks.pack", rocks_path +:+ "luarocks/pack.lua");
  ("luarocks.build", rocks_path +:+ "luarocks/build.lua");
  ("luarocks.cmd.make", rocks_path +:+ "luarocks/cmd/make.lua");
  ("luarocks.cmd.build", rocks_path +:+ "luarocks/cmd/build.lua");
  ("luarocks.cmd.install", rocks_path +:+ "luarocks/cmd/install.lua");
  ("luarocks.cmd.list", rocks_path +:+ "luarocks/cmd/list.lua");
  ("luarocks.download", rocks_path +:+ "luarocks/download.lua");
  ("luarocks.cmd.download", rocks_path +:+ "luarocks/cmd/download.lua");
  ("luarocks.cmd.search", rocks_path +:+ "luarocks/cmd/search.lua");
  ("luarocks.cmd.pack", rocks_path +:+ "luarocks/cmd/pack.lua");
  ("luarocks.cmd.new_version", rocks_path +:+ "luarocks/cmd/new_version.lua");
  ("luarocks.cmd.purge", rocks_path +:+ "luarocks/cmd/purge.lua");
  ("luarocks.cmd.init", rocks_path +:+ "luarocks/cmd/init.lua");
  ("luarocks.cmd.lint", rocks_path +:+ "luarocks/cmd/lint.lua");
  ("luarocks.test", rocks_path +:+ "luarocks/test.lua");
  ("luarocks.cmd.test", rocks_path +:+ "luarocks/cmd/test.lua");
  ("luarocks.cmd.which", rocks_path +:+ "luarocks/cmd/which.lua");
  ("luarocks.cmd.remove", rocks_path +:+ "luarocks/cmd/remove.lua");
  ("luarocks.upload.multipart", rocks_path +:+ "luarocks/upload/multipart.lua");
  ("luarocks.upload.api", rocks_path +:+ "luarocks/upload/api.lua");
  ("luarocks.cmd.upload", rocks_path +:+ "luarocks/cmd/upload.lua");
  ("luarocks.cmd.doc", rocks_path +:+ "luarocks/cmd/doc.lua");
  ("luarocks.cmd.unpack", rocks_path +:+ "luarocks/cmd/unpack.lua");
  ("luarocks.cmd.config", rocks_path +:+ "luarocks/cmd/config.lua");
  ("luarocks.require", rocks_path +:+ "luarocks/require.lua");
  ("luarocks.build.cmake", rocks_path +:+ "luarocks/build/cmake.lua");
  ("luarocks.build.make", rocks_path +:+ "luarocks/build/make.lua");
  ("luarocks.build.command", rocks_path +:+ "luarocks/build/command.lua");
  ("luarocks.fetch.cvs", rocks_path +:+ "luarocks/fetch/cvs.lua");
  ("luarocks.fetch.svn", rocks_path +:+ "luarocks/fetch/svn.lua");
  ("luarocks.fetch.sscm", rocks_path +:+ "luarocks/fetch/sscm.lua");
  ("luarocks.fetch.git", rocks_path +:+ "luarocks/fetch/git.lua");
  ("luarocks.fetch.git_file", rocks_path +:+ "luarocks/fetch/git_file.lua");
  ("luarocks.fetch.git_http", rocks_path +:+ "luarocks/fetch/git_http.lua");
  ("luarocks.fetch.git_https", rocks_path +:+ "luarocks/fetch/git_https.lua");
  ("luarocks.fetch.git_ssh", rocks_path +:+ "luarocks/fetch/git_ssh.lua");
  ("luarocks.fetch.hg", rocks_path +:+ "luarocks/fetch/hg.lua");
  ("luarocks.fetch.hg_http", rocks_path +:+ "luarocks/fetch/hg_http.lua");
  ("luarocks.fetch.hg_https", rocks_path +:+ "luarocks/fetch/hg_https.lua");
  ("luarocks.fetch.hg_ssh", rocks_path +:+ "luarocks/fetch/hg_ssh.lua");
  ("luarocks.admin.cache", rocks_path +:+ "luarocks/admin/cache.lua");
  ("luarocks.admin.cmd.refresh_cache", rocks_path +:+ "luarocks/admin/cmd/refresh_cache.lua");
  ("luarocks.admin.index", rocks_path +:+ "luarocks/admin/index.lua");
  ("luarocks.admin.cmd.add", rocks_path +:+ "luarocks/admin/cmd/add.lua");
  ("luarocks.admin.cmd.remove", rocks_path +:+ "luarocks/admin/cmd/remove.lua");
  ("luarocks.admin.cmd.make_manifest", rocks_path +:+ "luarocks/admin/cmd/make_manifest.lua")
].

Definition set_repo_rocks (rocks : string) (cliOpts : CliOpts) : result CliOpts :=
  repo <-? deref (opts_Repo cliOpts);;
  Ok (mkCliOpts (opts_Env cliOpts) (opts_Modules cliOpts) (opts_App cliOpts) (opts_EE cliOpts)
        (opts_Templates cliOpts) (Some (mkRepoOpts rocks (repo_Install repo)))).

Section Build.
Context {W : Type} `{OS W, Files W, Host W, Processes W}.
(** The embedded files, the Lua interpreter with its preloaded modules, and [os.Args[0]]. *)
Context (luarocks : string -> result string) {chunk : Type} (LoadString : string -> result chunk).
Context (DoString : list (string * chunk) -> string -> io W unit) (argv0 : string).

(** ** Directories and hooks ([cli/util]) *)
Definition os_Chdir (path : string) : io W unit := fun w =>
  match Chdir w path with Ok w => (Ok tt, w) | Err e => (Err e, w) end.

Definition cancel_Chdir (cwd : string) : io W unit :=
  io_wrap "failed to change directory back: %w" [] (os_Chdir cwd) ;;;
  io_wrap "failed to change PWD environment variable: %w" [] (os_Setenv "PWD" cwd).

(** The function that goes back is nil when the current directory is unknown. *)
Definition Chdir_PWD (newPath : string) : io W (option (io W unit)) :=
  cwd <- ask (fun w => Getwd w) ;;
  match cwd with
  | Err _ => ret None
  | Ok cwd =>
      io_wrap "failed to change directory: %s" [] (os_Chdir newPath) ;;;
      set <- attempt (os_Setenv "PWD" newPath) ;;
      match set with
      | Ok _ => ret (Some (cancel_Chdir cwd))
      | Err _ =>
          io_wrap "failed to change directory back: %w" [] (os_Chdir cwd) ;;;
          attempt (os_Setenv "PWD" cwd) ;;;
          throw (Errorf "failed to change PWD environment variable: %w" ["%!w(<nil>)"])
      end
  end.

(** [defer cancel()]: a nil function panics when it is called. *)
Definition defer_cancel {A} (cancel : option (io W unit)) (body : io W A) : io W A :=
  match cancel with
  | Some cancel => finally cancel body
  | None => attempt body ;;; throw (Errorf "panic: invalid memory address or nil pointer dereference" [])
  end.

(** The output of the command goes to a temporary file. *)
Definition RunHook (hookPath : string) : io W unit :=
  let hookName := path_Base hookPath in
  isExec <- io_wrap "failed go check hook file `%s`: %s" [hookName] (look (fun w => IsExecOwner w hookPath)) ;;
  if negb isExec then throw (Errorf "hook `%s` should be executable" [hookName])
  else
    io_wrap "failed to run hook `%s`: %s" [hookName]
      (io_wrap "failed to run %s %s" [hookPath] (run_program hookPath (path_Dir hookPath) [] "")).

(** ** LuaRocks: the run *)
Definition getRocksRepoPath (w : W) (rocksRepoPath : string) : string :=
  let fromEnv := Getenv w repoRocksPathEnvVarName in
  if bool_decide (rocksRepoPath = "")
     || (bool_decide (rocksRepoPath <> "")
         && negb (IsRegularFile w (filepath_Join [rocksRepoPath; rocksRepoManifestName]))) then
    if decide (fromEnv <> "") then fromEnv else rocksRepoPath
  else rocksRepoPath.

Definition GetTarantoolPrefix (c : CliCtx) (cliOpts : CliOpts) (w : W) : result string :=
  if cli_IsTarantoolBinFromRepo c then
    env <-? deref (opts_Env cliOpts);;
    JoinAbspath w [env_IncludeDir env]
  else
    let prefixPathFromEnv := Getenv w tarantoolPrefixEnvVarName in
    if decide (prefixPathFromEnv <> "") then Ok prefixPathFromEnv
    else
      output <-? rwrap "failed to get tarantool version: %s" []
                   (program_output w (cli_TarantoolExecutable c) "" ["--version"]);;
      match Split (TrimSpace output) newline !! 2%nat with
      | None => Err (Errorf "failed to get prefix path: expected more data" [])
      | Some line =>
          match FindNamedMatches prefix_re line with
          | None => Err (Errorf "failed to get prefix path: regexp does not match" [])
          | Some matches =>
              let prefixDir := matches "prefix" in
              Ok (if IsDir w prefixDir then prefixDir else tarantoolDefaultPrefixDir)
          end
      end.

Fixpoint load_modules (l : list (string * string)) : result (list (string * chunk)) :=
  match l with
  | [] => Ok []
  | (modname, path) :: l =>
      text <-? luarocks path;;
      loaded <-? LoadString text;;
      rmap (cons (modname, loaded)) (load_modules l)
  end.

(** The options get the path of the repository; the version is the one that
    [TarantoolCli] has or asks the executable for. *)
Definition rocks_Exec (ctx : CmdCtx) (cliOpts : CliOpts) (args : list string) : io W CliOpts :=
  repo <- look (fun _ => deref (opts_Repo cliOpts)) ;;
  rocks <- ask (fun w => getRocksRepoPath w (repo_Rocks repo)) ;;
  cliOpts <- look (fun _ => set_repo_rocks rocks cliOpts) ;;
  args <- look (fun _ => addLuarocksRepoOpts cliOpts args) ;;
  version <- look (fun w => TarantoolCli_GetVersion (ctx_Version ctx) (ctx_Executable ctx) w) ;;
  tarantoolPrefixDir <- look (GetTarantoolPrefix (ctx_Cli ctx) cliOpts) ;;
  tarantoolIncludeDir <- look (fun w => JoinAbspath w [tarantoolPrefixDir; "include"; "tarantool"]) ;;
  attempt (os_Setenv "TT_CLI_TARANTOOL_VERSION" (Str version)) ;;;
  attempt (os_Setenv "TT_CLI_TARANTOOL_PREFIX" tarantoolPrefixDir) ;;;
  attempt (os_Setenv "TT_CLI_TARANTOOL_INCLUDE" tarantoolIncludeDir) ;;;
  attempt (os_Setenv "TARANTOOL_DIR" (path_Dir tarantoolIncludeDir)) ;;;
  attempt (os_Setenv "TT_CLI_TARANTOOL_PATH" (path_Dir (ctx_Executable ctx))) ;;;
  modules <- look (fun _ => load_modules rocks_preload) ;;
  DoString modules (rocks_command argv0 args) ;;;
  ret cliOpts.

(** ** The build *)
Fixpoint runBuildHook (buildDir : string) (hookNames : list string) : io W unit :=
  match hookNames with
  | [] => ret tt
  | hookName :: hookNames =>
      let buildHookPath := filepath_Join [buildDir; hookName] in
      stat <- ask (fun w => Stat w buildHookPath) ;;
      match stat with
      | Ok _ => io_wrap "failed to run build hook: %s" [] (RunHook buildHookPath)
      | Err err =>
          if IsNotExist err then runBuildHook buildDir hookNames
          else throw (Wrapf "failed to run build hook: %s" [] err)
      end
  end.

(** Where the standard output goes meanwhile is left out. *)
Definition buildLocal (ctx : CmdCtx) (cliOpts : CliOpts) (buildCtx : BuildCtx) : io W CliOpts :=
  cancelChdir <- Chdir_PWD (BuildDir buildCtx) ;;
  defer_cancel cancelChdir (
    io_wrap "run pre-build hook failed: %s" [] (runBuildHook (BuildDir buildCtx) PreBuildScripts) ;;;
    env <- look (fun _ => deref (opts_Env cliOpts)) ;;
    isDir <- ask (fun w => IsDir w (filepath_Join [env_IncludeDir env; "include"])) ;;
    (if isDir : bool then attempt (os_Setenv cmakeIncludePathEnvVar (env_IncludeDir env)) ;;; ret tt
     else ret tt) ;;;
    let rocksMakeCmd := "make" :: if decide (SpecFile buildCtx <> "") then [SpecFile buildCtx] else [] in
    cliOpts <- rocks_Exec ctx cliOpts rocksMakeCmd ;;
    io_wrap "run post-build hook failed: %s" [] (runBuildHook (BuildDir buildCtx) PostBuildScripts) ;;;
    ret cliOpts).

Definition build_Run : CmdCtx -> CliOpts -> BuildCtx -> io W CliOpts := buildLocal.

Definition build_FillCtx (w : W) (cliOpts : CliOpts) (args : list string) : result string :=
  workingDir <-? Getwd w;;
  match args with
  | [] => Ok workingDir
  | [appPath] =>
      let appName := path_Base appPath in
      appPath <-? (if IsAbs appPath then Ok appPath else Abs w (filepath_Join [workingDir; appPath]));;
      found <-? match Stat w appPath with
                | Ok fileInfo => Ok (appPath, fileInfo)
                | Err err =>
                    if IsNotExist err then
                      env <-? deref (opts_Env cliOpts);;
                      appPath <-? ResolveSymlink w (filepath_Join [env_InstancesEnabled env; appName]);;
                      rmap (pair appPath) (Stat w appPath)
                    else Err err
                end;;
      if IsDir_info found.2 then Ok found.1 else Err (Errorf "%s is not a directory" [found.1])
  | _ => Err (Errorf "too many args" [])
  end.

Definition internalBuildModule (ctx : CmdCtx) (cliOpts : CliOpts) (specFile : string) (args : list string)
    : io W unit :=
  if negb (isConfigExist ctx) then throw errNoConfig
  else
    buildDir <- look (fun w => build_FillCtx w cliOpts args) ;;
    build_Run ctx cliOpts (mkBuildCtx buildDir specFile) ;;; ret tt.
End Build.

Example add_server_samples :
  add_server "r" false ["install"; "--server"; "s"; "x"] = Ok (["install"; "--server"; "s r"; "x"], true) /\
  add_server "r" false ["--server=s"] = Ok (["--server=s r"], true) /\
  is_ok (add_server "r" false ["install"; "--server"]) = false.
Proof. split_and!; vm_compute; reflexivity. Qed.

Example prefix_samples :
  option_map (fun m => m "prefix") (FindNamedMatches prefix_re "cmake . -DCMAKE_INSTALL_PREFIX=/opt/tnt -DENABLE=1 x")
  = Some "/opt/tnt -DENABLE=1".
Proof. vm_compute. reflexivity. Qed.
