(* ===== verification/Bundle.v ===== *)
(** * Packing: the bundle and the packages ([cli/pack], [cli/cmd/pack.go])

    The temporary directory with the applications, binaries, modules and options of
    the new environment ([common.go]), and what makes it an archive, a Debian
    package or an RPM package ([archive.go], [tgz.go], [deb.go],
    [deb_control_dir.go], [systemd_dir.go], [rpm.go]), also in a container
    ([docker.go]).  [copy.Copy] and the encoders are parameters. *)
From S2P Require Import Prelude GoStrings GoPath Regexp GoOs GoFs Value Cluster Configure Version.
From S2P Require Import ProcessUtils Install Running Instances Control InstanceCmds Build Pack RpmTags Rpm.
Local Open Scope Z_scope.
Local Open Scope io_scope.
Local Open Scope go_scope.

Definition dirPermissions : Z := 488.
Definition filePermissions : Z := 438.
Definition versionFileName : string := "VERSION".
Definition versionLuaFileName : string := "VERSION.lua".
Definition rocksManifestPath : string := ".rocks/share/tarantool/rocks/manifest".
Definition dataDirName : string := "data".
Definition controlDirName : string := "control_dir".
Definition dataArchiveName : string := "data.tar.gz".
Definition controlArchiveName : string := "control.tar.gz".
Definition debianBinaryFileName : string := "debian-binary".
Definition debianBinaryFileContent : string := "2.0" +:+ nl.
Definition PreInstScriptName : string := "preinst".
Definition PostInstScriptName : string := "postinst".
Definition defaultMaintainer : string := "Tarantool developer".
Definition defaultEnvPrefix : string := filepath_Join ["usr"; "share"; "tarantool"].

(** ** Texts of files *)

(** [controlFileContent] with its five values. *)
Definition control_text (name version architecture depends : string) : string :=
  Join ["Package: " +:+ name; "Version: " +:+ version; "Maintainer: " +:+ defaultMaintainer;
        "Architecture: " +:+ architecture; "Description: Tarantool environment: " +:+ name;
        "Depends: " +:+ depends; ""; ""] nl.

Definition debPreInstScriptContent : string :=
  Join ["#!/bin/sh"; ""; "set -e"; ""; "SYSUSER=tarantool"; "";
        "if ! id " +:+ quote +:+ "$SYSUSER" +:+ quote +:+ " >/dev/null 2>&1; then";
        "    /usr/sbin/groupadd -r $SYSUSER >/dev/null 2>&1"; "";
        "    /usr/sbin/useradd -M -N -g $SYSUSER -r -d /var/lib/tarantool -s /sbin/nologin \";
        "    -c " +:+ quote +:+ "Tarantool Server" +:+ quote +:+ " $SYSUSER >/dev/null 2>&1";
        "fi"; ""] nl.
Definition postInstScriptContent : string := "".

(** [appInstUnitContentTemplate]; a template ranges over a map in the order of its
    keys. *)
Definition unit_text `{GoSort} (p : systemdUnitParams) : string :=
  Join ["[Unit]"; "Description=Tarantool application " +:+ up_AppName p; "After=network.target"; "";
        "[Service]"; "Type=forking";
        "ExecStart=" +:+ up_TT p +:+ " -L " +:+ up_ConfigPath p +:+ " start " +:+ up_ExecArgs p;
        "ExecStop=" +:+ up_TT p +:+ " -L " +:+ up_ConfigPath p +:+ " stop " +:+ up_ExecArgs p;
        "Restart=on-failure"; "RestartSec=2"; "User=tarantool"; "Group=tarantool"; "";
        "LimitCORE=infinity"; "# Disable OOM killer"; "OOMScoreAdjust=-1000";
        "# Increase fd limit for Vinyl"; "LimitNOFILE=" +:+ FormatUint (up_FdLimit p); "";
        "# Systemd waits until all xlogs are recovered"; "TimeoutStartSec=86400s";
        "# Give a reasonable amount of time to close xlogs"; "TimeoutStopSec=10s"; "";
        "# Environment variables"; ""] nl
  +:+ String.concat "" (map (fun kv => "Environment=" +:+ kv.1 +:+ "=" +:+ kv.2 +:+ nl)
        (sort_slice (fun a b : string * string => String.ltb a.1 b.1) (map_to_list (up_InstanceEnv p))))
  +:+ Join [""; "[Install]"; "WantedBy=multi-user.target"; ""] nl.

(** [buildDockerfile] with its three values. *)
Definition dockerfile_text (tt_version tnt_version env_dir : string) : string :=
  Join ["# Install tt"; "FROM --platform=linux/amd64 ubuntu:20.04 as tt-builder"; "";
        "RUN apt-get update && apt-get install -y curl"; "";
        "RUN curl -L https://tarantool.io/release/2/installer.sh | bash"; "";
        "RUN apt-get update && apt-get install -y tt=" +:+ tt_version +:+ " || \";
        "  apt-get install -y tt"; "";
        "# Install Tarantool"; "FROM --platform=linux/amd64 ubuntu:18.04 as tarantool-builder"; "";
        "COPY --from=tt-builder /usr/bin/tt /usr/bin"; ""; "WORKDIR /usr/src/tarantool"; "";
        "RUN apt update"; "";
        "RUN apt install -y git build-essential cmake make zlib1g-dev \";
        "  libreadline-dev libncurses5-dev libssl-dev libunwind-dev libicu-dev \";
        "  python3 python3-yaml python3-six python3-gevent autoconf libtool"; "";
        "RUN tt init"; ""; "RUN tt install tarantool " +:+ tnt_version; "";
        "RUN cp /usr/src/tarantool/bin/* /usr/bin"; "";
        "FROM --platform=linux/amd64 ubuntu:20.04"; "";
        "COPY --from=tt-builder /usr/bin/tt /usr/bin"; "";
        "COPY --from=tarantool-builder /usr/bin/tarantool /usr/bin";
        "COPY --from=tarantool-builder /usr/src/tarantool/include /usr/local/"; "";
        "WORKDIR /usr/src/" +:+ env_dir; "";
        "ENV DEBIAN_FRONTEND=" +:+ quote +:+ "noninteractive" +:+ quote; "";
        "RUN apt update && apt install -y git build-essential cmake make cpio binutils curl unzip"; ""] nl.

(** ** Tar archives ([tgz.go]) *)
Record tar_header := mkTarHeader {
  th_Name : string; th_Linkname : string; th_Uname : string; th_Gname : string; th_info : FileInfo
}.
(** An entry; the content of a file that is not regular or cannot be read is missing. *)
Record tar_entry := mkTarEntry { te_header : tar_header; te_content : option string }.

(** [tar.FileInfoHeader]: the name and the owner are set later. *)
Definition FileInfoHeader (info : FileInfo) (link : string) : result tar_header :=
  match fi_Kind info with
  | Socket => Err (Errorf "archive/tar: sockets not supported" [])
  | Symlink => Ok (mkTarHeader (fi_Name info) link "" "" info)
  | _ => Ok (mkTarHeader (fi_Name info) "" "" "" info)
  end.

(** ** Tables of Lua *)
Inductive lua_value := LTable (fields : list (string * lua_value)) | LOther.

Definition rocks_of (deps : list (string * lua_value)) : gmap string (list string) :=
  fold_left (fun versions dep =>
    match dep.2 with
    | LOther => versions
    | LTable infos =>
        fold_left (fun versions info => <[dep.1 := default [] (versions !! dep.1) ++ [info.1]]> versions)
          infos versions
    end) deps ∅.

(** ** Changes of the context *)
Definition set_AppList (l : list string) (p : PackCtx) : PackCtx :=
  set_Apps l (pk_AppsInfo p) p.

Definition set_pkgFilesInfo (m : gmap string packFileInfo) (p : PackCtx) : PackCtx :=
  let rd := pk_RpmDeb p in
  mkPackCtx (pk_Type p) (pk_Name p) (pk_Version p) (pk_AppList p) (pk_FileName p) (pk_WithBinaries p)
    (pk_WithoutBinaries p) (pk_WithoutModules p) (pk_TarantoolExecutable p) (pk_TarantoolIsSystem p)
    (pk_Archive_All p)
    (mkRpmDebCtx (rd_WithTarantoolDeps rd) (rd_PreInst rd) (rd_PostInst rd) (rd_Deps rd)
       (rd_DepsFile rd) (rd_SystemdUnitParamsFile rd) m)
    (pk_UseDocker p) (pk_CartridgeCompat p) (pk_TarantoolVersion p) (pk_IntegrityPrivateKey p)
    (pk_AppsInfo p) (pk_configFilePath p).

(** The context of the bundle for a container: no binaries. *)
Definition docker_ctx (p : PackCtx) : PackCtx :=
  mkPackCtx (pk_Type p) (pk_Name p) (pk_Version p) (pk_AppList p) (pk_FileName p) false true
    (pk_WithoutModules p) (pk_TarantoolExecutable p) (pk_TarantoolIsSystem p) (pk_Archive_All p)
    (pk_RpmDeb p) (pk_UseDocker p) (pk_CartridgeCompat p) (pk_TarantoolVersion p)
    (pk_IntegrityPrivateKey p) (pk_AppsInfo p) (pk_configFilePath p).

(** [integrity.NewSigner] *)
Definition NewSigner (path : string) : result unit :=
  Err (Errorf "integrity signer should never be created in ce" []).

(** The calls that packing makes beside those of the other components. *)
Class Bundling (W : Type) := {
  (** [copy.Copy] with a function that says which files to skip. *)
  copy_Skip : (FileInfo -> string -> bool) -> string -> string -> io W unit;
  (** [L.DoFile] and the globals it leaves. *)
  lua_DoFile : W -> string -> result (string -> lua_value);
  (** [yaml.NewEncoder.Encode] and [template.Parse]. *)
  yaml_Encode : CliOpts -> result string;
  template_Parse : string -> option error;
  (** The bytes of a compressed archive. *)
  tgz_bytes : list tar_entry -> string
}.

Section Bundle.
Context {W : Type} `{OS W, Files W, Trees W, Host W, Processes W, Bundling W} `{GoMapOrder} `{GoSort}.
Context (luarocks : string -> result string) {chunk : Type} (LoadString : string -> result chunk).
Context (DoString : list (string * chunk) -> string -> io W unit) (argv0 : string).

Definition no_skip : FileInfo -> string -> bool := fun _ _ => false.

(** The body may leave things behind when it fails; [defer] with a look at the error. *)
Definition on_error {A} (cleanup : io W unit) (body : io W A) : io W A := fun w =>
  match body w with
  | (Err e, w) => (Err e, (cleanup w).2)
  | r => r
  end.

(** [util.CheckVersionFromGit]: the directory is changed for the call of git. *)
Definition CheckVersionFromGit (basePath : string) : io W string :=
  if decide (basePath = "") then throw (Errorf "empty path is passed" [])
  else
    startPath <- ask (fun w => match Getwd w with Ok wd => wd | Err _ => "" end) ;;
    finally (os_Chdir startPath) (
      os_Chdir basePath ;;;
      out <- ask (fun w => program_output w "git" "" ["describe"; "--tags"; "--long"]) ;;
      match out with
      | Err _ => throw (Errorf "no git version found" [])
      | Ok out => ret (TrimSpace out)
      end).

(** [util.CopyFileDeep] *)
Definition CopyFileDeep (src dst : string) : io W unit :=
  src <- look (fun w => EvalSymlinks w src) ;;
  copy_Skip no_skip src dst.

(** ** The bundle ([common.go]) *)
Definition getAppNamesToPack (packCtx : PackCtx) : list string :=
  map fst (range_map (pk_AppsInfo packCtx)).

(** Whether the environment is in a directory of its own name in the bundle. *)
Definition env_in_subdir (packCtx : PackCtx) (env : TtEnvOpts) : bool :=
  bool_decide (env_InstancesEnabled env = ".") || pk_CartridgeCompat packCtx.

Definition updateEnvPath (basePath : string) (packCtx : PackCtx) (env : TtEnvOpts) : io W string :=
  if env_in_subdir packCtx env then
    let basePath := JoinPaths [basePath; pk_Name packCtx] in
    io_wrap "cannot create bundle directory %q: %s" [basePath] (os_MkdirAll basePath dirPermissions) ;;;
    ret basePath
  else ret basePath.

(** A directory that cannot be opened has no files. *)
Definition copyEnvModules (bundleEnvPath : string) (packCtx : PackCtx) (cliOpts newOpts : CliOpts) : io W unit :=
  match opts_Modules cliOpts with
  | Some modules =>
      if pk_WithoutModules packCtx || pk_CartridgeCompat packCtx || bool_decide (mod_Directory modules = "")
      then ret tt
      else
        isDir <- ask (fun w => IsDir w (mod_Directory modules)) ;;
        if negb isDir then ret tt
        else
          files <- ask (fun w => GoOs.ReadDir w (mod_Directory modules)) ;;
          match files with
          | Ok (_ :: _) =>
              newModules <- look (fun _ => deref (opts_Modules newOpts)) ;;
              attempt (copy_Skip no_skip (mod_Directory modules)
                         (JoinPaths [bundleEnvPath; mod_Directory newModules])) ;;; ret tt
          | _ => ret tt
          end
  | None => ret tt
  end.

Definition copyBinaries (bundleEnvPath : string) (packCtx : PackCtx) (executable : string) (newEnv : TtEnvOpts)
    : io W unit :=
  if pk_WithoutBinaries packCtx then ret tt
  else
    let pkgBin := if pk_CartridgeCompat packCtx then bundleEnvPath
                  else JoinPaths [bundleEnvPath; env_BinDir newEnv] in
    io_wrap "failed to create binaries directory in bundle: %s" [] (os_MkdirAll pkgBin dirPermissions) ;;;
    (if negb (pk_TarantoolIsSystem packCtx) || pk_WithBinaries packCtx then
       if decide (executable = "") then ret tt
       else io_wrap "failed copying tarantool: %s" []
              (CopyFileDeep executable (JoinPaths [pkgBin; "tarantool"]))
     else ret tt) ;;;
    ttExecutable <- look (fun w => Executable w) ;;
    io_wrap "failed copying tt: %s" [] (CopyFileDeep ttExecutable (JoinPaths [pkgBin; "tt"])).

(** The filters are made before the first file is copied. *)
Definition copyAppSrc (packCtx : PackCtx) (cliOpts : CliOpts) (srcAppPath dstAppPath : string) : io W unit :=
  resolvedAppPath <- look (fun w => EvalSymlinks w srcAppPath) ;;
  look (fun w => Stat w resolvedAppPath) ;;;
  skipFunc <- ask (fun w => appSrcCopySkip w packCtx cliOpts resolvedAppPath) ;;
  copy_Skip skipFunc resolvedAppPath dstAppPath.

Definition createAppSymlink (appPath appName instancesEnabledDir : string) : io W unit :=
  appPath <- look (fun w => EvalSymlinks w appPath) ;;
  os_Symlink (filepath_Join [".."; path_Base appPath]) (filepath_Join [instancesEnabledDir; appName]).

Definition copy_application (bundleEnvPath : string) (packCtx : PackCtx) (cliOpts : CliOpts)
    (env newEnv : TtEnvOpts) (app : string * list InstanceCtx) : io W unit :=
  match app.2 with
  | [] => throw (Errorf "application %q does not have any instances" [app.1])
  | inst :: _ =>
      let appPath := if run_IsFileApp inst then run_InstanceScript inst else run_AppDir inst in
      (if run_IsFileApp inst then
         resolvedAppPath <- look (fun w => EvalSymlinks w appPath) ;;
         io_wrap "failed to copy application %q: %s" [resolvedAppPath]
           (copy_Skip no_skip resolvedAppPath (JoinPaths [bundleEnvPath; path_Base resolvedAppPath]))
       else copyAppSrc packCtx cliOpts appPath (getDestAppDir bundleEnvPath app.1 packCtx env)) ;;;
      if negb (pk_CartridgeCompat packCtx) && bool_decide (env_InstancesEnabled newEnv <> ".") then
        let packagingInstEnabledDir := JoinPaths [bundleEnvPath; env_InstancesEnabled newEnv] in
        io_wrap "cannot create instances.enabled directory: %s" []
          (os_MkdirAll packagingInstEnabledDir dirPermissions) ;;;
        createAppSymlink appPath (path_Base appPath) packagingInstEnabledDir ;;;
        if run_IsFileApp inst then
          let workingDir := JoinPaths [packagingInstEnabledDir; path_Base (run_AppDir inst)] in
          io_wrap "cannot create working directory %q for application: %s" [workingDir]
            (os_Mkdir workingDir dirPermissions)
        else ret tt
      else ret tt
  end.

Definition copyApplications (bundleEnvPath : string) (packCtx : PackCtx) (cliOpts : CliOpts)
    (env newEnv : TtEnvOpts) : io W unit :=
  io_for (copy_application bundleEnvPath packCtx cliOpts env newEnv) (range_map (pk_AppsInfo packCtx)).

(** What is copied where for an instance. *)
Definition artifacts (packCtx : PackCtx) (basePath : string) (newEnv : TtEnvOpts) (newApp : AppOpts)
    (inst : InstanceCtx) : list (string * string) :=
  let destAppDir :=
    if pk_CartridgeCompat packCtx || bool_decide (env_InstancesEnabled newEnv = ".") then basePath
    else JoinPaths [basePath; env_InstancesEnabled newEnv; path_Base (run_AppDir inst)] in
  let ctl := env_TarantoolctlLayout newEnv && run_SingleApp inst in
  let dstDir dir := if ctl then JoinPaths [basePath; dir] else JoinPaths [destAppDir; dir] in
  let copyInfo :=
    [if ctl then (run_Log inst, JoinPaths [dstDir (app_LogDir newApp); path_Base (run_Log inst)])
     else (path_Dir (run_LogDir inst), dstDir (app_LogDir newApp));
     (path_Dir (run_WalDir inst), dstDir (app_WalDir newApp));
     (path_Dir (run_MemtxDir inst), dstDir (app_MemtxDir newApp));
     (path_Dir (run_VinylDir inst), dstDir (app_VinylDir newApp))] in
  if decide (app_WalDir newApp = app_VinylDir newApp) then take 2 copyInfo else copyInfo.

(** Copies that fail are only reported. *)
Definition copyArtifacts (packCtx : PackCtx) (basePath : string) (newEnv : TtEnvOpts) (newApp : AppOpts)
    : io W unit :=
  io_for (fun appName =>
    io_for (fun inst =>
      io_for (fun toCopy => attempt (copy_Skip no_skip toCopy.1 toCopy.2) ;;; ret tt)
        (artifacts packCtx basePath newEnv newApp inst))
      (default [] (pk_AppsInfo packCtx !! appName)))
    (default [] (pk_AppList packCtx)).

Definition writeEnv (cliOpts : CliOpts) (destPath : string) : io W unit :=
  let path := filepath_Join [destPath; ConfigName] in
  os_WriteFile path "" filePermissions ;;;
  text <- look (fun _ => yaml_Encode cliOpts) ;;
  os_WriteFile path text filePermissions.

Definition rockspecs (w : W) (root : string) : list string :=
  match Glob w (filepath_Join [root; "*.rockspec"]) with Ok l => l | Err _ => [] end.

Definition rockspecExists (w : W) (root : string) : bool :=
  bool_decide (0 < length (rockspecs w root))%nat.

Definition buildAppInBundle (ctx : CmdCtx) (cliOpts : CliOpts) (appDir : string) : io W CliOpts :=
  exists_ <- ask (fun w => rockspecExists w appDir) ;;
  if negb exists_ then ret cliOpts
  else io_wrap "failed to build app %s: %s" [path_Base appDir]
         (build_Run luarocks LoadString DoString argv0 ctx cliOpts (mkBuildCtx appDir "")).

Definition cleanupAfterBuild (appDir : string) : io W unit :=
  specs <- ask (fun w => rockspecs w appDir) ;;
  io_for (fun rockspec => attempt (os_Remove rockspec) ;;; ret tt) specs ;;;
  io_for (fun buildScript =>
    let scriptPath := filepath_Join [appDir; buildScript] in
    isFile <- ask (fun w => IsRegularFile w scriptPath) ;;
    if isFile : bool then attempt (os_Remove scriptPath) ;;; ret tt else ret tt)
    (PreBuildScripts ++ PostBuildScripts).

Fixpoint build_apps (ctx : CmdCtx) (cliOpts : CliOpts) (bundlePath : string) (apps : list string) : io W CliOpts :=
  match apps with
  | [] => ret cliOpts
  | appName :: apps =>
      let appDir := filepath_Join [bundlePath; appName] in
      isDir <- ask (fun w => IsDir w appDir) ;;
      if isDir : bool then
        cliOpts <- buildAppInBundle ctx cliOpts appDir ;;
        cleanupAfterBuild appDir ;;;
        build_apps ctx cliOpts bundlePath apps
      else build_apps ctx cliOpts bundlePath apps
  end.

Definition buildAppRocks (ctx : CmdCtx) (packCtx : PackCtx) (cliOpts : CliOpts) (env : TtEnvOpts)
    (bundlePath : string) : io W CliOpts :=
  cliOpts <- (if env_in_subdir packCtx env then
                cliOpts <- buildAppInBundle ctx cliOpts bundlePath ;;
                cleanupAfterBuild bundlePath ;;; ret cliOpts
              else ret cliOpts) ;;
  build_apps ctx cliOpts bundlePath (getAppNamesToPack packCtx).

(** The steps in the temporary directory.  The error of [writeEnv] is not looked
    at; an error of the build for a missing file stays in [err] and is returned
    after it. *)
Definition fill_bundle (ctx : CmdCtx) (packCtx : PackCtx) (cliOpts : CliOpts) (env : TtEnvOpts)
    (buildRocks : bool) (tmpDir : string) : io W unit :=
  bundleEnvPath <- updateEnvPath tmpDir packCtx env ;;
  newOpts <- look (fun _ => createNewOpts cliOpts packCtx) ;;
  newEnv <- look (fun _ => deref (opts_Env newOpts)) ;;
  newApp <- look (fun _ => deref (opts_App newOpts)) ;;
  copyEnvModules bundleEnvPath packCtx cliOpts newOpts ;;;
  io_wrap "error copying binaries: %s" [] (copyBinaries bundleEnvPath packCtx (ctx_Executable ctx) newEnv) ;;;
  io_wrap "error copying applications: %s" [] (copyApplications bundleEnvPath packCtx cliOpts env newEnv) ;;;
  (if pk_Archive_All packCtx then
     io_wrap "failed copying artifacts: %s" [] (copyArtifacts packCtx bundleEnvPath newEnv newApp)
   else ret tt) ;;;
  built <- attempt (if buildRocks then
                      buildAppRocks ctx packCtx cliOpts env bundleEnvPath ;;; ret tt
                    else ret tt) ;;
  match built with
  | Err err => if IsNotExist err then attempt (writeEnv newOpts bundleEnvPath) ;;; throw err else throw err
  | Ok _ =>
      attempt (writeEnv newOpts bundleEnvPath) ;;;
      if decide (pk_IntegrityPrivateKey packCtx <> "") then look (fun _ => nil_deref) else ret tt
  end.

(** The temporary directory, and the context with the list of applications.  The directory is
    removed when an error is returned; a panic is an error here, while in Go the deferred
    function would find no error and leave the directory to the program that crashes. *)
Definition prepareBundle (ctx : CmdCtx) (packCtx : PackCtx) (cliOpts : CliOpts) (env : TtEnvOpts)
    (buildRocks : bool) : io W (string * PackCtx) :=
  (if decide (pk_IntegrityPrivateKey packCtx <> "") then
     look (fun _ => NewSigner (pk_IntegrityPrivateKey packCtx))
   else ret tt) ;;;
  tmpDir <- os_MkdirTemp "tt_pack" ;;
  on_error (os_RemoveAll tmpDir) (
    let packCtx := set_AppList (getAppNamesToPack packCtx) packCtx in
    fill_bundle ctx packCtx cliOpts env buildRocks tmpDir ;;;
    ret (tmpDir, packCtx)).

(** ** Walks *)

(** [fs.WalkDir] below [baseDir], with a function that never fails: it is called
    again for a directory that cannot be read. *)
Fixpoint walk_dir (fuel : nat) (fn : string -> bool -> io W unit) (baseDir name : string) (isDir : bool)
    : io W unit :=
  fn name isDir ;;;
  match fuel with
  | O => ret tt
  | S fuel =>
      if isDir then
        entries <- ask (fun w => os_ReadDir w (filepath_Join [baseDir; name])) ;;
        match entries with
        | Err _ => fn name isDir
        | Ok entries =>
            io_for (fun e => walk_dir fuel fn baseDir (filepath_Join [name; entry_Name e]) (entry_IsDir e))
              entries
        end
      else ret tt
  end.

Definition updatePermissions (baseDir path : string) (isDir : bool) : io W unit :=
  if isDir then attempt (os_Chmod (filepath_Join [baseDir; path]) 493) ;;; ret tt else ret tt.

(** [fs.WalkDir(os.DirFS(dir), ".", updatePermissions(dir))]; without a root the
    function gets no entry. *)
Definition update_tree (dir : string) : io W unit :=
  root <- ask (fun w => Stat w dir) ;;
  match root with
  | Err _ => throw (Errorf "panic: invalid memory address or nil pointer dereference" [])
  | Ok info => walk_dir max_depth (updatePermissions dir) dir "." (IsDir_info info)
  end.

(** [filepath.Walk] with a function that only reads: the paths with what it gets for
    them. *)
Fixpoint walk_from (fuel : nat) (w : W) (path : string) (info : FileInfo) : list (string * result FileInfo) :=
  if IsDir_info info then
    match fuel, os_ReadDir w path with
    | S fuel, Ok entries =>
        (path, Ok info) ::
        concat (map (fun e =>
          let filename := filepath_Join [path; entry_Name e] in
          match os_Lstat w filename with
          | Err err => [(filename, Err err)]
          | Ok info => walk_from fuel w filename info
          end) entries)
    | O, _ => [(path, Err (Errorf "file name too long" []))]
    | _, Err err => [(path, Err err)]
    end
  else [(path, Ok info)].

Definition walk_visits (w : W) (root : string) : list (string * result FileInfo) :=
  match os_Lstat w root with
  | Err err => [(root, Err err)]
  | Ok info => walk_from max_depth w root info
  end.

(** ** Archives *)
Definition link_of (w : W) (filePath : string) (info : FileInfo) : string :=
  if bool_decide (fi_Kind info = Symlink) && Contains filePath InstancesEnabledDirName then
    let srcPath := match EvalSymlinks w filePath with Ok p => p | Err _ => "" end in
    filepath_Join [".."; path_Base srcPath]
  else filePath.

Definition tar_header_of (w : W) (srcDirPath : string) (pkgFiles : gmap string packFileInfo) (filePath : string)
    (info : FileInfo) : result tar_header :=
  header <-? FileInfoHeader info (link_of w filePath info);;
  relPath <-? rwrap "failed to get relative path of %q: %s" [filePath] (Rel srcDirPath filePath);;
  let owner := default (mkPackFileInfo defaultFileUser defaultFileGroup) (pkgFiles !! relPath) in
  Ok (mkTarHeader relPath (th_Linkname header) (pf_owner owner) (pf_group owner) info).

(** The entries that are written, up to the first error. *)
Fixpoint write_entries (w : W) (srcDirPath : string) (pkgFiles : gmap string packFileInfo)
    (visits : list (string * result FileInfo)) : list tar_entry * option error :=
  match visits with
  | [] => ([], None)
  | (_, Err err) :: _ => ([], Some err)
  | (filePath, Ok info) :: visits =>
      match tar_header_of w srcDirPath pkgFiles filePath info with
      | Err err => ([], Some err)
      | Ok header =>
          if decide (fi_Kind info = RegularFile) then
            match GoOs.ReadFile w filePath with
            | Err err => ([mkTarEntry header None], Some err)
            | Ok content =>
                let '(l, err) := write_entries w srcDirPath pkgFiles visits in
                (mkTarEntry header (Some content) :: l, err)
            end
          else
            let '(l, err) := write_entries w srcDirPath pkgFiles visits in
            (mkTarEntry header None :: l, err)
      end
  end.

Definition WriteTarArchive (w : W) (srcDirPath : string) (pkgFiles : gmap string packFileInfo)
    : list tar_entry * option error :=
  write_entries w srcDirPath pkgFiles (walk_visits w srcDirPath).

(** What was written before an error stays in the file. *)
Definition writeTgzArchive (srcDirPath destFilePath : string) (packCtx : PackCtx) : io W unit :=
  io_wrap "failed to create result TGZ file %s: %s" [destFilePath]
    (os_WriteFile destFilePath "" filePermissions) ;;;
  written <- ask (fun w => WriteTarArchive w srcDirPath (rd_pkgFilesInfo (pk_RpmDeb packCtx))) ;;
  os_WriteFile destFilePath (tgz_bytes written.1) filePermissions ;;;
  match written.2 with Some err => throw err | None => ret tt end.

(** ** Units of systemd ([systemd_dir.go]) *)
Context (decode_params : W -> string -> systemdUnitParams -> result systemdUnitParams).

(** [util.InstantiateFileFromTemplate] of a text that is rendered already. *)
Definition InstantiateFileFromTemplate (templatePath unitContent : string) : io W unit :=
  os_WriteFile templatePath "" filePermissions ;;;
  match template_Parse unitContent with
  | Some err => throw (Wrapf "error parsing %s: %s" [templatePath] err)
  | None =>
      written <- attempt (os_WriteFile templatePath unitContent filePermissions) ;;
      match written with
      | Err err => attempt (os_Remove templatePath) ;;; throw err
      | Ok _ => ret tt
      end
  end.

Definition initSystemdDir (packCtx : PackCtx) (baseDirPath pathToEnv : string) : io W unit :=
  let systemdBaseDir := filepath_Join [baseDirPath; "usr"; "lib"; "systemd"; "system"] in
  os_MkdirAll systemdBaseDir dirPermissions ;;;
  io_for (fun app : string * list InstanceCtx =>
    match app.2 with
    | [] => throw (Errorf "missing instances list for %q application" [app.1])
    | inst :: _ =>
        let appInstUnitPath := filepath_Join [systemdBaseDir; systemdUnitFileName inst] in
        unitParams <- look (fun w => getUnitParams decode_params w packCtx pathToEnv inst) ;;
        io_wrap "failed to create systemd unit file: %s" []
          (InstantiateFileFromTemplate appInstUnitPath (unit_text unitParams))
    end) (range_map (pk_AppsInfo packCtx)).

Definition createArtifactsDirs (pkgDataDir : string) (packCtx : PackCtx) : io W PackCtx :=
  io_for (fun dirToCreate =>
    let artifactEnvDir := filepath_Join [pkgDataDir; dirToCreate; "tarantool"] in
    io_wrap "cannot create %q: %s" [artifactEnvDir] (os_MkdirAll artifactEnvDir dirPermissions))
    [VarDataPath; VarLogPath; VarRunPath] ;;;
  let owned := mkPackFileInfo "tarantool" "tarantool" in
  ret (set_pkgFilesInfo
         (fold_left (fun m dir => <["var/" +:+ dir +:+ "/tarantool" := owned]> m) ["lib"; "log"; "run"]
            (rd_pkgFilesInfo (pk_RpmDeb packCtx))) packCtx).

(** ** Archives for [tt] and cartridge-cli ([archive.go]) *)
Definition LuaGetRocksVersions (w : W) (appDirPath : string) : result (gmap string (list string)) :=
  let manifestFilePath := filepath_Join [appDirPath; rocksManifestPath] in
  match Stat w manifestFilePath with
  | Ok _ =>
      env <-? rwrap "failed to read manifest file %s: %s" [manifestFilePath] (lua_DoFile w manifestFilePath);;
      match env "dependencies" with
      | LTable deps => Ok (sort_slice String.ltb <$> rocks_of deps)
      | LOther => Err (Errorf "failed to read manifest file: dependencies is not a table" [])
      end
  | Err err =>
      if IsNotExist err then Ok ∅
      else Err (Wrapf "failed to read manifest file %s: %s" [manifestFilePath] err)
  end.

Definition generateVersionLuaFile (bundlePath : string) (packCtx : PackCtx) : io W unit :=
  let versionLuaFilePath := filepath_Join [bundlePath; pk_Name packCtx; versionLuaFileName] in
  io_wrap "failed to write VERSION.lua file %s: %s" [versionLuaFilePath]
    (os_WriteFile versionLuaFilePath (version_lua packCtx) 420).

(** Without the versions of the rocks the file is written without them. *)
Definition generateVersionFile (bundlePath : string) (ctx : CmdCtx) (packCtx : PackCtx) : io W unit :=
  tntVersion <- look (fun w => TarantoolCli_GetVersion (ctx_Version ctx) (ctx_Executable ctx) w) ;;
  rocks <- ask (fun w => LuaGetRocksVersions w (filepath_Join [bundlePath; pk_Name packCtx])) ;;
  let versionFilePath := filepath_Join [bundlePath; pk_Name packCtx; versionFileName] in
  let rocks := match rocks with Ok m => Some (range_map m) | Err _ => None end in
  io_wrap "failed to write VERSION file %s: %s" [versionFilePath]
    (os_WriteFile versionFilePath (version_file packCtx tntVersion rocks) 420).

(** The version in git as [getVersion] asks for it; afterwards the directory is the
    same again. *)
Definition git_version (w : W) (path : string) : result string := (CheckVersionFromGit path w).1.

Definition package_file (packCtx : PackCtx) (env : TtEnvOpts) (suffix : string) : io W (string * PackCtx) :=
  look (fun w => getPackageFileName (git_version w) (Getwd w) packCtx env suffix true).

Definition archive_Run (ctx : CmdCtx) (packCtx : PackCtx) (opts : CliOpts) (env : TtEnvOpts) : io W unit :=
  bundle <- prepareBundle ctx packCtx opts env true ;;
  let '(bundlePath, packCtx) := bundle in
  finally (os_RemoveAll bundlePath) (
    arch <- look GetArch ;;
    named <- package_file packCtx env (getTgzSuffix arch) ;;
    let '(tarName, packCtx) := named in
    (if pk_CartridgeCompat packCtx then
       attempt (generateVersionFile bundlePath ctx packCtx) ;;;
       attempt (generateVersionLuaFile bundlePath packCtx) ;;; ret tt
     else ret tt) ;;;
    currentDir <- look (fun w => Getwd w) ;;
    let tarName := filepath_Join [currentDir; tarName] in
    written <- attempt (writeTgzArchive bundlePath tarName packCtx) ;;
    match written with
    | Err err => attempt (os_Remove tarName) ;;; throw err
    | Ok _ => ret tt
    end).

(** ** Debian packages ([deb.go], [deb_control_dir.go]) *)
Context (ParseString : string -> result PackDependency) (ttVersion GOARCH : string).

Definition package_deps (ctx : CmdCtx) (packCtx : PackCtx) (w : W) : result PackDependencies :=
  parseAllDependencies ParseString w (TarantoolCli_GetVersion (ctx_Version ctx) (ctx_Executable ctx) w) ttVersion
    (pk_RpmDeb packCtx).

Definition createControlFile (basePath : string) (text : string) : io W unit :=
  os_WriteFile (filepath_Join [basePath; "control"]) text filePermissions.

Definition initScript (destDirPath scriptName : string) : io W unit :=
  let text := if decide (scriptName = PostInstScriptName) then postInstScriptContent
              else if decide (scriptName = PreInstScriptName) then debPreInstScriptContent else "" in
  os_WriteFile (filepath_Join [destDirPath; scriptName]) text filePermissions.

Definition control_script (destDirPath scriptName path : string) : io W unit :=
  if decide (path = "") then initScript destDirPath scriptName
  else copy_Skip no_skip path (filepath_Join [destDirPath; scriptName]).

(** The context is a copy: the version it gets is not kept. *)
Definition createControlDir (ctx : CmdCtx) (packCtx : PackCtx) (env : TtEnvOpts) (destDirPath : string)
    : io W unit :=
  os_MkdirAll destDirPath dirPermissions ;;;
  version <- ask (fun w => (getVersion (git_version w) packCtx env defaultVersion).1) ;;
  deps <- look (package_deps ctx packCtx) ;;
  createControlFile destDirPath (control_text (pk_Name packCtx) version GOARCH (addDependenciesDeb deps)) ;;;
  control_script destDirPath PreInstScriptName (rd_PreInst (pk_RpmDeb packCtx)) ;;;
  control_script destDirPath PostInstScriptName (rd_PostInst (pk_RpmDeb packCtx)).

Definition createDebianBinary (packageDir : string) : io W unit :=
  os_WriteFile (filepath_Join [packageDir; debianBinaryFileName]) debianBinaryFileContent filePermissions.

(** Where the bundle goes in the tree of a package, and where it is on the system
    that the package is installed on. *)
Definition env_dir (packCtx : PackCtx) (env : TtEnvOpts) (root : string) : string :=
  let path := filepath_Join [root; defaultEnvPrefix; pk_Name packCtx] in
  if env_in_subdir packCtx env then path_Dir path else path.

Definition envSystemPath (packCtx : PackCtx) : string := filepath_Join ["/"; defaultEnvPrefix; pk_Name packCtx].

Definition deb_Run (ctx : CmdCtx) (packCtx : PackCtx) (opts : CliOpts) (env : TtEnvOpts) : io W unit :=
  missing <- ask (fun w => CheckRequiredBinaries w ["ar"]) ;;
  match missing with
  | Some err => throw err
  | None =>
      packageDir <- os_MkdirTemp "tt_pack" ;;
      finally (os_RemoveAll packageDir) (
        bundle <- prepareBundle ctx packCtx opts env true ;;
        let '(bundlePath, packCtx) := bundle in
        finally (os_RemoveAll bundlePath) (
          let packageDataDir := filepath_Join [packageDir; dataDirName] in
          let packagePrefixedPath := filepath_Join [packageDir; env_dir packCtx env dataDirName] in
          os_MkdirAll packagePrefixedPath dirPermissions ;;;
          initSystemdDir packCtx packageDataDir (envSystemPath packCtx) ;;;
          packCtx <- createArtifactsDirs packageDataDir packCtx ;;
          copy_Skip no_skip bundlePath packagePrefixedPath ;;;
          update_tree packagePrefixedPath ;;;
          let dataArchivePath := filepath_Join [packageDir; dataArchiveName] in
          writeTgzArchive packageDataDir dataArchivePath packCtx ;;;
          let controlDirPath := filepath_Join [packageDir; controlDirName] in
          createControlDir ctx packCtx env controlDirPath ;;;
          let controlArchivePath := filepath_Join [packageDir; controlArchiveName] in
          writeTgzArchive controlDirPath controlArchivePath packCtx ;;;
          createDebianBinary packageDir ;;;
          arch <- look GetArch ;;
          named <- package_file packCtx env (getDebSuffix arch) ;;
          io_wrap "failed to pack DEB: %s" []
            (run_program "ar" "" ["r"; named.1; filepath_Join [packageDir; debianBinaryFileName];
                                  controlArchivePath; dataArchivePath] "")))
  end.

(** ** RPM packages ([rpm.go])

    [Rpm.packRpm] works on the files of the world. *)
Context (rpm_files : W -> gmap string (list Z)) (set_rpm_files : gmap string (list Z) -> W -> W).
Context (rpm_Lstat : W -> string -> result file_stat) (FileMD5Hex : W -> string -> result string).
Context (EvalSymlinksFrom : W -> string -> result string).
Context (cpio : W -> string -> list string -> result (list Z)) (gzip : list Z -> result (list Z)).
Context (sha256 sha1 : list Z -> string) (md5 : list Z -> list Z) (rpmPreInstScriptContent : string).
Context (create_error : W -> string -> option error).

(** The paths that [getSortedRelPaths] collects. *)
Fixpoint rel_paths (srcDir : string) (visits : list (string * result FileInfo)) : result (list string) :=
  match visits with
  | [] => Ok []
  | (_, Err err) :: _ => Err err
  | (filePath, Ok _) :: visits =>
      filePath <-? Rel srcDir filePath;;
      rmap (cons filePath) (rel_paths srcDir visits)
  end.

(** The files of a package that was not finished are removed with its directory. *)
Definition run_packRpm (ctx : CmdCtx) (packCtx : PackCtx) (env : TtEnvOpts) (packageDir resPackagePath : string)
    : io W unit := fun w =>
  match packRpm (git_version w) (Getwd w) (rpm_Lstat w) (FileMD5Hex w) (EvalSymlinksFrom w) (GoOs.ReadFile w)
          (cpio w) gzip sha256 sha1 md5 rpmPreInstScriptContent postInstScriptContent GOARCH (create_error w)
          (package_deps ctx packCtx w) (rpm_files w) (rel_paths packageDir (walk_visits w packageDir))
          packageDir resPackagePath packCtx env with
  | Ok d => (Ok tt, set_rpm_files d w)
  | Err e => (Err e, w)
  end.

Definition rpm_Run (ctx : CmdCtx) (packCtx : PackCtx) (opts : CliOpts) (env : TtEnvOpts) : io W unit :=
  missing <- ask (fun w => CheckRequiredBinaries w ["cpio"]) ;;
  match missing with
  | Some err => throw err
  | None =>
      packageDir <- os_MkdirTemp "" ;;
      finally (os_RemoveAll packageDir) (
        bundle <- prepareBundle ctx packCtx opts env true ;;
        let '(bundlePath, packCtx) := bundle in
        finally (os_RemoveAll bundlePath) (
          let packagingEnvInstallPath := env_dir packCtx env packageDir in
          copy_Skip no_skip bundlePath packagingEnvInstallPath ;;;
          update_tree packagingEnvInstallPath ;;;
          arch <- look GetArch ;;
          named <- package_file packCtx env (getRPMSuffix arch) ;;
          let '(resPackagePath, packCtx) := named in
          initSystemdDir packCtx packageDir (envSystemPath packCtx) ;;;
          packCtx <- createArtifactsDirs packageDir packCtx ;;
          io_wrap "failed to create RPM package: %s" []
            (run_packRpm ctx packCtx env packageDir resPackagePath)))
  end.

(** ** Packing in a container ([docker.go]) *)
Context `{!Docker W}.

Definition getTarantoolVersionForInstall (ctx : CmdCtx) (packCtx : PackCtx) (w : W) : result Version :=
  if decide (pk_TarantoolVersion packCtx <> "") then Version.Parse (pk_TarantoolVersion packCtx)
  else TarantoolCli_GetVersion (ctx_Version ctx) (ctx_Executable ctx) w.

Definition container_command (ttPackCommandLine : list string) : list string :=
  let bin := BinPath in
  let tab := String (ascii_of_nat 9) "" in
  ["/bin/bash"; "-c";
   "mkdir ./" +:+ bin +:+ " && cp $(which tarantool) ./" +:+ bin +:+ "/ && \" +:+ nl
   +:+ tab +:+ "cp $(which tt) ./" +:+ bin +:+ "/ && mkdir ./include/ && \" +:+ nl
   +:+ tab +:+ "cp -r /usr/local/include ./include/ && \" +:+ nl
   +:+ tab +:+ Join ttPackCommandLine " "].

Definition skip_regular_files (srcInfo : FileInfo) (_ : string) : bool :=
  negb (bool_decide (path_Ext (fi_Name srcInfo) ∈ [".deb"; ".rpm"; ".gz"])).

Definition container_args (cmdArgs : list string) : result (list string) :=
  match docker_args (length cmdArgs) 0 cmdArgs with
  | Some (Ok (_ :: args)) => Ok args
  | Some (Ok []) => Err (Errorf "panic: slice bounds out of range" [])
  | Some (Err e) => Err e
  | None => Err (Errorf "unreachable" [])
  end.

Definition PackInDocker (ctx : CmdCtx) (packCtx : PackCtx) (opts : CliOpts) (env : TtEnvOpts)
    (cmdArgs : list string) : io W unit :=
  tmpDir <- os_MkdirTemp "docker_pack_ctx" ;;
  finally (os_RemoveAll tmpDir) (
    let envDir := path_Dir (cli_ConfigPath (ctx_Cli ctx)) in
    tntVersion <- io_wrap "failed to get tarantool version: %w" []
                    (look (getTarantoolVersionForInstall ctx packCtx)) ;;
    os_WriteFile (filepath_Join [tmpDir; "Dockerfile"])
      (dockerfile_text ttVersion (getVersionStringForInstall tntVersion) (path_Base envDir)) 436 ;;;
    args <- look (fun _ => container_args cmdArgs) ;;
    bundle <- prepareBundle ctx (docker_ctx packCtx) opts env false ;;
    let tempEnvDir := bundle.1 in
    finally (os_RemoveAll tempEnvDir) (
      RunContainer (mkRunOptions tmpDir "ubuntu:tt_pack" (container_command ("tt" :: args))
                      [tempEnvDir +:+ ":" +:+ filepath_Join ["/"; "usr"; "src"; path_Base envDir]] true) ;;;
      curDir <- look (fun w => Getwd w) ;;
      copy_Skip skip_regular_files tempEnvDir curDir)).

(** ** The command ([cli/cmd/pack.go]) *)
Context (CollectInstances : list string -> W -> result (gmap string (list InstanceCtx)) * W).

Definition packer_Run (packer : Packer) : CmdCtx -> PackCtx -> CliOpts -> TtEnvOpts -> io W unit :=
  match packer with
  | archivePacker => archive_Run
  | debPacker => deb_Run
  | rpmPacker => rpm_Run
  end.

Definition internalPackModule (ctx : CmdCtx) (packCtx : PackCtx) (cliOpts : CliOpts) (osArgs args : list string)
    : io W unit :=
  if negb (isConfigExist ctx) then throw errNoConfig
  else
    env <- look (fun _ => deref (opts_Env cliOpts)) ;;
    packCtx <- pack_FillCtx CollectInstances (ctx_Cli ctx) (ctx_ConfigDir ctx) env packCtx args ;;
    match checkFlags packCtx with
    | Some err => throw err
    | None =>
        if pk_UseDocker packCtx then PackInDocker ctx packCtx cliOpts env osArgs
        else
          match CreatePacker packCtx with
          | None => throw (Errorf "incorrect type of package. Available types: rpm, deb, tgz" [])
          | Some packer => io_wrap "failed to pack: %v" [] (packer_Run packer ctx packCtx cliOpts env)
          end
    end.
End Bundle.
