(* ===== verification/TempDirs.v ===== *)
(** * Temporary directories

    A system knows the directories that [os.MkdirTemp] has made and nobody has
    removed.  Only [os.MkdirTemp] adds one, and [os.RemoveAll] of one that is not
    refused takes it away: the laws say so for every call, and the lemmas follow
    the calls through computations. *)
From S2P Require Import Prelude GoStrings GoPath GoOs GoFs Regexp Value Cluster Configure Version.
From S2P Require Import ProcessUtils Install.
Local Open Scope Z_scope.
Local Open Scope io_scope.

Section temps.
Context {W : Type} (temps : W -> gset string).

Definition keeps {A} (m : io W A) : Prop := forall w, temps (m w).2 ⊆ temps w.

Lemma keeps_ret {A} (a : A) : keeps (ret a).
Proof. by intros w. Qed.
Lemma keeps_throw {A} e : keeps (A:=A) (throw e).
Proof. by intros w. Qed.
Lemma keeps_look {A} (f : W -> result A) : keeps (look f).
Proof. by intros w. Qed.
Lemma keeps_ask {A} (f : W -> A) : keeps (ask f).
Proof. by intros w. Qed.
Lemma keeps_bind {A B} (m : io W A) (f : A -> io W B) : keeps m -> (forall a, keeps (f a)) -> keeps (io_bind f m).
Proof.
  intros Hm Hf w. unfold io_bind. specialize (Hm w). destruct (m w) as [[a|e] w1]; [|done].
  specialize (Hf a w1). set_solver.
Qed.
(** The values of the first computation are of a certain form. *)
Lemma keeps_bind_val {A B} (P : A -> Prop) (m : io W A) (f : A -> io W B) :
  keeps m -> (forall w a w', m w = (Ok a, w') -> P a) -> (forall a, P a -> keeps (f a)) -> keeps (io_bind f m).
Proof.
  intros Hm HP Hf w. unfold io_bind. specialize (Hm w). destruct (m w) as [[a|e] w1] eqn:E; [|done].
  specialize (Hf a (HP _ _ _ E) w1). set_solver.
Qed.
Lemma keeps_attempt {A} (m : io W A) : keeps m -> keeps (attempt m).
Proof. intros Hm w. unfold attempt. specialize (Hm w). by destruct (m w). Qed.
Lemma keeps_wrap {A} f args (m : io W A) : keeps m -> keeps (io_wrap f args m).
Proof. intros Hm w. unfold io_wrap. specialize (Hm w). by destruct (m w). Qed.
Lemma keeps_finally {A} c (m : io W A) : keeps c -> keeps m -> keeps (finally c m).
Proof.
  intros Hc Hm w. unfold finally. specialize (Hm w). destruct (m w) as [r w1]. specialize (Hc w1). set_solver.
Qed.
Lemma keeps_for {A} (body : A -> io W unit) xs : (forall x, keeps (body x)) -> keeps (io_for body xs).
Proof. intros Hb. induction xs as [|x xs IH]; cbn [io_for]; [apply keeps_ret|by apply keeps_bind]. Qed.
End temps.

Create HintDb temps discriminated.
#[export] Hint Constants Opaque : temps.
#[export] Hint Resolve keeps_ret keeps_throw keeps_look keeps_ask : temps.

(** Goes through a computation step by step; what calls are made of is in the hints. *)
Ltac keeps :=
  repeat first
    [ progress intros
    | solve [eauto with temps]
    | apply keeps_bind | apply keeps_attempt | apply keeps_wrap | apply keeps_finally | apply keeps_for
    | match goal with
      | |- keeps _ (if ?b then _ else _) => destruct b
      | |- keeps _ (match ?x with _ => _ end) => destruct x
      end
    | progress cbn beta iota zeta ].

(** What a system promises about them. *)
Class TempDirs (W : Type) `{OS W, Files W, Trees W, Host W} := {
  temps : W -> gset string;
  temps_made pattern w : match os_MkdirTemp pattern w with
                         | (Ok dir, w') => dir <> "" /\ temps w' ⊆ {[dir]} ∪ temps w
                         | (Err _, w') => temps w' ⊆ temps w
                         end;
  temps_RemoveAll dir : keeps temps (os_RemoveAll dir);
  temps_removed dir w : is_ok (os_RemoveAll dir w).1 = true -> dir ∉ temps (os_RemoveAll dir w).2;
  temps_Chdir dir w w' : Chdir w dir = Ok w' -> temps w' ⊆ temps w;
  temps_stdin lines w : temps (set_stdin lines w) ⊆ temps w;
  temps_Remove path : keeps temps (os_Remove path);
  temps_Symlink o n : keeps temps (os_Symlink o n);
  temps_MkdirAll path mode : keeps temps (os_MkdirAll path mode);
  temps_WriteFile path text mode : keeps temps (os_WriteFile path text mode);
  temps_Mkdir path mode : keeps temps (os_Mkdir path mode);
  temps_Chmod path mode : keeps temps (os_Chmod path mode);
  temps_Rename o n : keeps temps (os_Rename o n);
  temps_run program dir args input : keeps temps (run_program program dir args input);
  temps_copy_Copy src dst : keeps temps (copy_Copy src dst)
}.
#[export] Hint Resolve temps_RemoveAll temps_Remove temps_Symlink temps_MkdirAll temps_WriteFile temps_run
  temps_Mkdir temps_Chmod temps_Rename temps_copy_Copy : temps.

(** ** Directories that are made and removed again *)
Section made.
Context {W : Type} `{OS W, Files W, Trees W, Host W, !TempDirs W}.
Definition makes {A} (dir_of : A -> string) (m : io W A) : Prop := forall w,
  match m w with
  | (Ok a, w') => temps w' ⊆ {[dir_of a]} ∪ temps w
  | (Err _, w') => temps w' ⊆ temps w
  end.

Lemma makes_MkdirTemp pattern : makes id (os_MkdirTemp pattern).
Proof. intros w. pose proof (temps_made pattern w) as Hm. destruct (os_MkdirTemp pattern w) as [[dir|e] w1]; [by destruct Hm|done]. Qed.

Definition closes {A} (dir : string) (m : io W A) : Prop := forall w, temps (m w).2 ⊆ temps w ∖ {[dir]}.

Lemma keeps_closed {A B} (dir_of : A -> string) (m : io W A) (f : A -> io W B) :
  makes dir_of m -> (forall a, closes (dir_of a) (f a)) -> keeps temps (io_bind f m).
Proof.
  intros Hm Hf w. unfold io_bind. specialize (Hm w). destruct (m w) as [[a|e] w1]; [|done].
  specialize (Hf a w1). set_solver.
Qed.
(** Nothing keeps a directory from being removed. *)
Context (Hremovable : forall dir (w : W), is_ok (os_RemoveAll dir w).1 = true).

Lemma removed_again dir (w w' : W) :
  temps w ⊆ {[dir]} ∪ temps w' -> temps (os_RemoveAll dir w).2 ⊆ temps w'.
Proof.
  intros Hw. pose proof (temps_RemoveAll dir w). pose proof (temps_removed dir w (Hremovable dir w)). set_solver.
Qed.

Lemma closes_finally {A} dir (body : io W A) : keeps temps body -> closes dir (finally (os_RemoveAll dir) body).
Proof.
  intros Hb w. unfold finally. specialize (Hb w). destruct (body w) as [r w1]. cbn in *.
  pose proof (temps_RemoveAll dir w1). pose proof (temps_removed dir w1 (Hremovable dir w1)). set_solver.
Qed.

End made.

(** ** Walks *)
Lemma keeps_fold {W A B} (obs : W -> gset string) (body : B -> A -> io W A) xs a :
  (forall x a, keeps obs (body x a)) -> keeps obs (io_fold body xs a).
Proof.
  intros Hb. revert a. induction xs as [|x xs IH]; intros a; cbn [io_fold]; [apply keeps_ret|by apply keeps_bind].
Qed.

Section walks.
Context {W A : Type} `{Files W, Trees W} (obs : W -> gset string) (fn : string -> FileInfo -> A -> io W A).
Context (Hfn : forall path info a, keeps obs (fn path info a)).

Lemma keeps_walk_tree fuel path info a : keeps obs (walk_tree fn fuel path info a).
Proof.
  revert path info a. induction fuel as [|fuel IH]; intros path info a; cbn [walk_tree];
    destruct (IsDir_info info); keeps.
  apply keeps_fold. keeps.
Qed.

Lemma keeps_filepath_Walk root a : keeps obs (filepath_Walk fn root a).
Proof. unfold filepath_Walk. apply keeps_bind; [keeps|]. intros info. apply keeps_walk_tree. Qed.
End walks.

(** * A system for packing and creating

    The classes that [Bundle] and [Create] use, on a small system: written files,
    the copies that were made, and the temporary directories. *)
From S2P Require Import Instances Pack Bundle.
Local Open Scope Z_scope.

Record depot := mkDepot {
  dp_files : gmap string string; dp_copies : list (string * string); dp_temps : gset string; dp_next : nat
}.

Definition dp_write (path text : string) (w : depot) : depot :=
  mkDepot (<[path := text]> (dp_files w)) (dp_copies w) (dp_temps w) (dp_next w).

Definition dp_kind (path : string) : FileKind :=
  if HasSuffix path ".lua" then RegularFile else if HasSuffix path ".link" then Symlink else Directory.

#[export] Instance depot_OS : OS depot := {
  Getwd _ := Ok "/home/u";
  Chdir w _ := Ok w;
  Getenv _ _ := "";
  Stat _ path := Ok (mkFileInfo (path_Base path) (dp_kind path) (Zpos (encode path)));
  Glob _ _ := Ok [];
  ReadDir _ _ := Ok ["app.lua"];
  ReadFile w path := Ok (default "" (dp_files w !! path));
  LookPath _ p := Ok p;
  EvalSymlinks _ p := Ok p;
  Executable _ := Ok "/usr/bin/tt"
}.

#[export] Instance depot_Files : Files depot := {
  os_Readlink _ _ := Err ErrNotExist;
  os_ReadDir _ path :=
    Ok (if decide (path = "/app") then [mkDirEntry "a.link" false; mkDirEntry "init.lua" false] else []);
  os_Perm _ _ := Ok 420;
  os_Remove path w := (Ok tt, mkDepot (delete path (dp_files w)) (dp_copies w) (dp_temps w) (dp_next w));
  os_RemoveAll path w := (Ok tt, mkDepot (dp_files w) (dp_copies w) (dp_temps w ∖ {[path]}) (dp_next w));
  os_Symlink _ newName w := (Ok tt, dp_write newName "" w);
  os_MkdirAll _ _ w := (Ok tt, w);
  os_WriteFile path text _ w := (Ok tt, dp_write path text w)
}.

#[export] Instance depot_Host : Host depot := {
  run_program program _ args _ w := (Ok tt, dp_write (Join (program :: args) " ") "" w);
  program_output _ program _ _ := if decide (program = "uname") then Ok "x86_64" else Ok "Tarantool 3.1.0-0-g1";
  os_MkdirTemp pattern w :=
    let dir := "/tmp/" +:+ pattern +:+ FormatInt (Z.of_nat (dp_next w)) in
    (Ok dir, mkDepot (dp_files w) (dp_copies w) ({[dir]} ∪ dp_temps w) (S (dp_next w)));
  os_CreateTemp _ w := (Ok "/tmp/file", w);
  stdin _ := [];
  set_stdin _ w := w;
  LookupEnv _ _ := None;
  unix_Writable _ _ := true;
  copy_Copy _ _ w := (Ok tt, w);
  GOOS := "linux";
  NumCPU := 1;
  fetch_jobs_supported _ := false
}.

#[export] Instance depot_Processes : Processes depot := {
  os_Environ _ := [];
  os_Setenv _ _ w := (Ok tt, w);
  os_Getpid _ := 1;
  open_append _ _ w := (Ok tt, w);
  exec_StdinPipe w := (Ok tt, w);
  exec_Start _ w := (Ok 2, w);
  exec_Wait _ w := (Ok tt, w);
  exec_Run _ _ w := (None, w);
  process_Signal _ _ w := (Ok tt, w);
  wait_timeout _ _ w := (Ok false, w);
  syscall_Exec _ _ _ w := (Ok tt, w);
  syscall_Kill _ _ w := (Ok tt, w)
}.

#[export] Instance depot_Trees : Trees depot := {
  os_Lstat _ path := Ok (mkFileInfo (path_Base path) (dp_kind path) (Zpos (encode path)));
  os_Mkdir _ _ w := (Ok tt, w);
  os_Chmod _ _ w := (Ok tt, w);
  os_Rename _ _ w := (Ok tt, w)
}.

#[export] Instance depot_Bundling : Bundling depot := {
  copy_Skip _ src dst w :=
    (Ok tt, mkDepot (dp_files w) (dp_copies w ++ [(src, dst)]) (dp_temps w) (dp_next w));
  lua_DoFile _ _ := Err (Errorf "no Lua" []);
  yaml_Encode _ := Ok "env:";
  template_Parse _ := None;
  tgz_bytes l := Join (map (fun e => th_Name (te_header e)) l) ","
}.

#[export] Instance depot_Docker : Docker depot := {
  docker_NewClient w := (Ok tt, w);
  docker_Tar _ w := (Ok tt, w);
  docker_ImageBuild _ _ w := (Ok true, w);
  docker_Display _ w := (Ok tt, w);
  docker_Canceled _ := false;
  user_Current _ := Ok ("1000", "1000");
  docker_ContainerCreate _ _ _ _ w := (Err (Errorf "no space left on device" []), w);
  docker_ContainerStart _ w := (Ok tt, w);
  docker_ContainerLogs _ w := (Ok tt, w);
  docker_ContainerWait _ w := (Ok (WaitStatus 0), w);
  docker_ContainerStop _ w := (Ok tt, w);
  docker_ContainerRemove _ w := (Ok tt, w)
}.

#[export] Instance depot_TempDirs : TempDirs depot.
Proof.
  refine {| temps := dp_temps |}; try (intros ** ; intros w; done); cbn; try set_solver.
  intros dir w. cbn. set_solver.
Defined.


Definition depot0 : depot := mkDepot ∅ [] ∅ 0.
