(* ===== verification/BundleProps.v ===== *)
(** * What holds of packing

    Temporary directories on every path of the command, the contents of archives,
    and where units of systemd find the environment of a package. *)
From S2P Require Import Prelude GoStrings GoPath Regexp GoOs GoFs Value Cluster Configure Version.
From S2P Require Import ProcessUtils Install Running Instances Control InstanceCmds Build Pack RpmTags Rpm TempDirs Bundle.
Local Open Scope Z_scope.
Local Open Scope io_scope.

(** ** Temporary directories: what the other calls of packing promise *)
Class PackTempDirs (W : Type) `{TempDirs W, !Processes W, !Bundling W, !Docker W} := {
  temps_Setenv k v : keeps temps (os_Setenv k v);
  temps_copy skip src dst : keeps temps (copy_Skip skip src dst);
  temps_NewClient : keeps temps docker_NewClient;
  temps_Tar dir : keeps temps (docker_Tar dir);
  temps_ImageBuild file tag : keeps temps (docker_ImageBuild file tag);
  temps_Display v : keeps temps (docker_Display v);
  temps_Create image cmd user binds : keeps temps (docker_ContainerCreate image cmd user binds);
  temps_Start id : keeps temps (docker_ContainerStart id);
  temps_Logs id : keeps temps (docker_ContainerLogs id);
  temps_Wait id : keeps temps (docker_ContainerWait id);
  temps_Stop id : keeps temps (docker_ContainerStop id);
  temps_ContainerRemove id : keeps temps (docker_ContainerRemove id)
}.
#[export] Hint Resolve temps_Setenv temps_copy temps_NewClient temps_Tar temps_ImageBuild temps_Display temps_Create
  temps_Start temps_Logs temps_Wait temps_Stop temps_ContainerRemove : temps.

Section packing.
Context {W : Type} `{OS W, Files W, Trees W, Host W, Processes W, Bundling W, Docker W}.
Context `{!TempDirs W, !PackTempDirs W}.
Context `{GoMapOrder} `{GoSort}.
Context (luarocks : string -> result string) {chunk : Type} (LoadString : string -> result chunk).
Context (DoString : list (string * chunk) -> string -> io W unit) (argv0 : string).
Context (Hlua : forall modules text, keeps temps (DoString modules text)).

Notation keep m := (keeps (temps (W:=W)) m).

Lemma keeps_Chdir path : keep (os_Chdir path).
Proof. intros w. unfold os_Chdir. destruct (Chdir w path) eqn:E; [by eapply temps_Chdir|done]. Qed.
Local Hint Resolve keeps_Chdir Hlua : temps.

(** *** The build *)
Lemma keeps_RunHook path : keep (RunHook path).
Proof. unfold RunHook. keeps. Qed.
Local Hint Resolve keeps_RunHook : temps.

Lemma keeps_runBuildHook dir names : keep (runBuildHook dir names).
Proof. induction names as [|n names IH]; cbn [runBuildHook]; keeps. Qed.
Local Hint Resolve keeps_runBuildHook : temps.

Lemma keeps_rocks_Exec ctx opts args : keep (rocks_Exec luarocks LoadString DoString argv0 ctx opts args).
Proof. unfold rocks_Exec. keeps. Qed.
Local Hint Resolve keeps_rocks_Exec : temps.

Lemma keeps_cancel cwd : keep (cancel_Chdir cwd).
Proof. unfold cancel_Chdir. keeps. Qed.
Local Hint Resolve keeps_cancel : temps.

Lemma Chdir_PWD_cancel path w c w' :
  Chdir_PWD path w = (Ok c, w') -> c = None \/ exists cwd, c = Some (cancel_Chdir cwd).
Proof.
  unfold Chdir_PWD. rewrite io_bind_ask. destruct (Getwd w) as [cwd|e].
  - intros (_ & w1 & _ & Hs)%io_bind_Ok. apply io_bind_Ok in Hs as (r & w2 & _ & Hr).
    destruct r as [u|e]; [injection Hr as <- _; eauto|].
    apply io_bind_Ok in Hr as (? & ? & _ & Hr). by apply io_bind_Ok in Hr as (? & ? & _ & ?).
  - intros [= <- _]. by left.
Qed.

Lemma keeps_Chdir_PWD path : keep (Chdir_PWD path).
Proof. unfold Chdir_PWD. keeps. Qed.

Lemma keeps_buildLocal ctx opts b : keep (buildLocal luarocks LoadString DoString argv0 ctx opts b).
Proof.
  unfold buildLocal. eapply keeps_bind_val; [apply keeps_Chdir_PWD|intros w c w'; apply Chdir_PWD_cancel|].
  intros c [->|[cwd ->]]; unfold defer_cancel; keeps.
Qed.
Local Hint Resolve keeps_buildLocal : temps.

(** *** The bundle *)
Lemma keeps_updateEnvPath base p env : keep (updateEnvPath base p env).
Proof. unfold updateEnvPath. keeps. Qed.
Lemma keeps_copyEnvModules path p o n : keep (copyEnvModules path p o n).
Proof. unfold copyEnvModules. keeps. Qed.
Lemma keeps_CopyFileDeep src dst : keep (CopyFileDeep src dst).
Proof. unfold CopyFileDeep. keeps. Qed.
Local Hint Resolve keeps_updateEnvPath keeps_copyEnvModules keeps_CopyFileDeep : temps.
Lemma keeps_copyBinaries path p x e : keep (copyBinaries path p x e).
Proof. unfold copyBinaries. keeps. Qed.
Lemma keeps_copyApplications path p o e n : keep (copyApplications path p o e n).
Proof. unfold copyApplications, copy_application, copyAppSrc, createAppSymlink. keeps. Qed.
Lemma keeps_copyArtifacts p path e a : keep (copyArtifacts p path e a).
Proof. unfold copyArtifacts. keeps. Qed.
Lemma keeps_buildAppInBundle ctx o dir : keep (buildAppInBundle luarocks LoadString DoString argv0 ctx o dir).
Proof. unfold buildAppInBundle, build_Run. keeps. Qed.
Lemma keeps_cleanupAfterBuild dir : keep (cleanupAfterBuild dir).
Proof. unfold cleanupAfterBuild. keeps. Qed.
Lemma keeps_writeEnv o path : keep (writeEnv o path).
Proof. unfold writeEnv. keeps. Qed.
Local Hint Resolve keeps_copyBinaries keeps_copyApplications keeps_copyArtifacts keeps_buildAppInBundle
  keeps_cleanupAfterBuild keeps_writeEnv : temps.

Lemma keeps_build_apps ctx o path apps : keep (build_apps luarocks LoadString DoString argv0 ctx o path apps).
Proof. revert o. induction apps as [|a apps IH]; intros o; cbn [build_apps]; keeps. Qed.
Local Hint Resolve keeps_build_apps : temps.

Lemma keeps_fill_bundle ctx p o env b dir :
  keep (fill_bundle luarocks LoadString DoString argv0 ctx p o env b dir).
Proof. unfold fill_bundle, buildAppRocks. keeps. Qed.

(** *** Nothing keeps a directory from being removed *)
Context (Hremovable : forall dir (w : W), is_ok (os_RemoveAll dir w).1 = true).

Lemma makes_prepareBundle ctx p o env b :
  makes fst (prepareBundle luarocks LoadString DoString argv0 ctx p o env b).
Proof.
  intros w. unfold prepareBundle, io_bind at 1. case_decide; [cbn; set_solver|]. cbn. unfold io_bind at 1.
  pose proof (makes_MkdirTemp "tt_pack" w) as Ht. destruct (os_MkdirTemp "tt_pack" w) as [[dir|e] w1]; [|done].
  unfold on_error, io_bind. set (p' := set_AppList _ p).
  pose proof (keeps_fill_bundle ctx p' o env b dir w1) as Hf.
  destruct (fill_bundle luarocks LoadString DoString argv0 ctx p' o env b dir w1) as [[u|e] w2]; cbn in *.
  - set_solver.
  - apply (removed_again Hremovable). set_solver.
Qed.

(** *** Packages *)
Lemma keeps_walk_dir fuel fn base name isDir :
  (forall n d, keep (fn n d)) -> keep (walk_dir fuel fn base name isDir).
Proof. intros Hfn. revert name isDir. induction fuel as [|fuel IH]; intros name isDir; cbn [walk_dir]; keeps. Qed.

Lemma keeps_update_tree dir : keep (update_tree dir).
Proof.
  unfold update_tree. apply keeps_bind; [keeps|]. intros [info|e]; [|keeps].
  apply keeps_walk_dir. unfold updatePermissions. keeps.
Qed.

Lemma keeps_writeTgzArchive src dst p : keep (writeTgzArchive src dst p).
Proof. unfold writeTgzArchive. keeps. Qed.

Context (decode_params : W -> string -> systemdUnitParams -> result systemdUnitParams).

Lemma keeps_initSystemdDir p base path : keep (initSystemdDir decode_params p base path).
Proof. unfold initSystemdDir, InstantiateFileFromTemplate. keeps. Qed.

Lemma keeps_createArtifactsDirs dir p : keep (createArtifactsDirs dir p).
Proof. unfold createArtifactsDirs. keeps. Qed.
Local Hint Resolve keeps_update_tree keeps_writeTgzArchive keeps_initSystemdDir keeps_createArtifactsDirs : temps.

Context (ParseString : string -> result PackDependency) (ttVersion GOARCH : string).

Lemma keeps_createControlDir ctx p env dir :
  keep (createControlDir ParseString ttVersion GOARCH ctx p env dir).
Proof. unfold createControlDir, createControlFile, control_script, initScript. keeps. Qed.

Lemma keeps_generateVersionFile dir ctx p : keep (generateVersionFile dir ctx p).
Proof. unfold generateVersionFile. keeps. Qed.
Lemma keeps_package_file p env suffix : keep (package_file p env suffix).
Proof. apply keeps_look. Qed.
Local Hint Resolve keeps_createControlDir keeps_generateVersionFile keeps_package_file : temps.

Lemma keeps_archive_Run ctx p o env : keep (archive_Run luarocks LoadString DoString argv0 ctx p o env).
Proof.
  unfold archive_Run. apply (keeps_closed fst); [apply makes_prepareBundle|].
  intros [dir p']. apply (closes_finally Hremovable). unfold generateVersionLuaFile. keeps.
Qed.

Lemma keeps_deb_Run ctx p o env :
  keep (deb_Run luarocks LoadString DoString argv0 decode_params ParseString ttVersion GOARCH ctx p o env).
Proof.
  unfold deb_Run. apply keeps_bind; [keeps|]. intros [e|]; [keeps|].
  apply (keeps_closed id); [apply makes_MkdirTemp|]. intros dir. apply (closes_finally Hremovable).
  apply (keeps_closed fst); [apply makes_prepareBundle|]. intros [bundle p']. apply (closes_finally Hremovable).
  unfold createDebianBinary. keeps.
Qed.

Context (rpm_files : W -> gmap string (list Z)) (set_rpm_files : gmap string (list Z) -> W -> W).
Context (rpm_Lstat : W -> string -> result file_stat) (FileMD5Hex : W -> string -> result string).
Context (EvalSymlinksFrom : W -> string -> result string).
Context (cpio : W -> string -> list string -> result (list Z)) (gzip : list Z -> result (list Z)).
Context (sha256 sha1 : list Z -> string) (md5 : list Z -> list Z) (rpmPreInstScriptContent : string).
Context (create_error : W -> string -> option error).
Context (Hfiles : forall d w, temps (set_rpm_files d w) ⊆ temps w).

Lemma keeps_rpm_Run ctx p o env :
  keep (rpm_Run luarocks LoadString DoString argv0 decode_params ParseString ttVersion GOARCH rpm_files
          set_rpm_files rpm_Lstat FileMD5Hex EvalSymlinksFrom cpio gzip sha256 sha1 md5 rpmPreInstScriptContent
          create_error ctx p o env).
Proof.
  unfold rpm_Run. apply keeps_bind; [keeps|]. intros [e|]; [keeps|].
  apply (keeps_closed id); [apply makes_MkdirTemp|]. intros dir. apply (closes_finally Hremovable).
  apply (keeps_closed fst); [apply makes_prepareBundle|]. intros [bundle p']. apply (closes_finally Hremovable).
  keeps. intros w. unfold run_packRpm. 
  match goal with |- context [match ?r with _ => _ end] => destruct r end; [apply Hfiles|done].
Qed.

Lemma keeps_RunContainer opts : keep (RunContainer opts).
Proof. unfold RunContainer, buildDockerImage, createContainer, wait_container. keeps. Qed.
Local Hint Resolve keeps_RunContainer : temps.

Lemma keeps_PackInDocker ctx p o env args :
  keep (PackInDocker luarocks LoadString DoString argv0 ttVersion ctx p o env args).
Proof.
  unfold PackInDocker. apply (keeps_closed id); [apply makes_MkdirTemp|]. intros dir. apply (closes_finally Hremovable).
  apply keeps_bind; [keeps|]. intros v. apply keeps_bind; [keeps|]. intros _. apply keeps_bind; [keeps|]. intros l.
  apply (keeps_closed fst); [apply makes_prepareBundle|]. intros bundle. apply (closes_finally Hremovable). keeps.
Qed.

Context (CollectInstances : list string -> W -> result (gmap string (list InstanceCtx)) * W).
Context (Hcollect : forall apps, keep (CollectInstances apps)).

Lemma keeps_pack_FillCtx c dir env p args : keep (pack_FillCtx CollectInstances c dir env p args).
Proof.
  intros w. unfold pack_FillCtx. destruct args as [|type args]; [done|].
  destruct (bool_decide _ && _); [done|].
  match goal with |- context [initAppsInfo _ _ _ ?q] => generalize q; intros q' end.
  assert (keep (initAppsInfo CollectInstances env dir q')) as Hi.
  { intros w1. unfold initAppsInfo.
    match goal with |- context [match ?r with _ => _ end] => destruct r as [[|a l]|e] end; [done| |done].
    specialize (Hcollect (a :: l) w1). by destruct (CollectInstances (a :: l) w1) as [[apps|e] w2]. }
  specialize (Hi w). destruct (initAppsInfo CollectInstances env dir q' w) as [[p1|e] w1]; [|done].
  destruct (setBundleName _ p1 env) as [p2|e]; [|done]. by destruct (_ && _).
Qed.
Local Hint Resolve keeps_pack_FillCtx keeps_archive_Run keeps_deb_Run keeps_rpm_Run keeps_PackInDocker : temps.

Lemma keeps_pack ctx p o osArgs args :
  keep (internalPackModule luarocks LoadString DoString argv0 decode_params ParseString ttVersion GOARCH rpm_files
          set_rpm_files rpm_Lstat FileMD5Hex EvalSymlinksFrom cpio gzip sha256 sha1 md5 rpmPreInstScriptContent
          create_error CollectInstances ctx p o osArgs args).
Proof.
  unfold internalPackModule. destruct (negb _); [keeps|]. apply keeps_bind; [keeps|]. intros env.
  apply keeps_bind; [keeps|]. intros p'. destruct (checkFlags p'); [keeps|]. destruct (pk_UseDocker p'); [keeps|].
  destruct (CreatePacker p') as [packer|]; [|keeps]. apply keeps_wrap. destruct packer; cbn [packer_Run]; keeps.
Qed.

(** C16: Whatever tt pack is asked for and wherever it fails, when temporary
    directories can be removed it leaves none that was not there before: those
    of the package, of the bundle and of the Dockerfile are removed on every
    path of the archive, Debian, RPM and container packers. *)
Theorem pack_leaves_no_directory ctx p o osArgs args w :
  temps (internalPackModule luarocks LoadString DoString argv0 decode_params ParseString ttVersion GOARCH rpm_files
           set_rpm_files rpm_Lstat FileMD5Hex EvalSymlinksFrom cpio gzip sha256 sha1 md5 rpmPreInstScriptContent
           create_error CollectInstances ctx p o osArgs args w).2 ⊆ temps w.
Proof. apply keeps_pack. Qed.
End packing.

#[export] Instance depot_PackTempDirs : PackTempDirs depot.
Proof. constructor; intros; by intros w. Qed.

Definition depot_env : TtEnvOpts := mkTtEnvOpts "bin" "include" "/env/instances.enabled" false false.
Definition depot_opts : CliOpts :=
  mkCliOpts (Some depot_env) None (Some getDefaultAppOpts) None [] (Some (mkRepoOpts "" "")).
Definition depot_ctx : CmdCtx :=
  mkCmdCtx (mkCliCtx false "" "/env/tt.yaml" "" false "/usr/bin/tarantool" "" 0 false) "/env" "pack" zero_version.
Definition depot_inst : InstanceCtx :=
  found_ctx "/env/instances.enabled/app" "/env/instances.enabled/app.lua" "app" "app" true true "" (mkInstance None).
Definition depot_pack (docker : bool) : PackCtx :=
  mkPackCtx "" "bundle" "1.0.0" None "" false false false "" false false
    (mkRpmDebCtx false "" "" [] "" "" ∅) docker false "3.1.0" "" ∅ "".

Definition depot_run (docker : bool) (type : string) : result unit * depot :=
  internalPackModule (fun _ => Ok "") (fun _ => Ok tt) (fun _ _ w => (Ok tt, w)) "tt"
    (fun _ _ p => Ok p) (fun _ => Err (Errorf "no dependency" [])) "2.0.0" "amd64"
    (fun _ => ∅) (fun _ w => w) (fun _ _ => Err ErrNotExist) (fun _ _ => Ok "") (fun _ p => Ok p)
    (fun _ _ _ => Err (Errorf "cpio failed" [])) (fun l => Ok l) (fun _ => "") (fun _ => "") (fun l => l) "" (fun _ _ => None)
    (fun _ w => (Ok {["app" := [depot_inst]]}, w)) depot_ctx (depot_pack docker) depot_opts
    ["tt"; "pack"; type; "--use-docker"] [type] depot0.

Lemma pack_leaves_no_directory_witness :
  is_ok (depot_run false "deb").1 = true /\ dp_next (depot_run false "deb").2 = 2%nat /\
  temps (depot_run false "deb").2 ⊆ temps depot0 /\
  is_ok (depot_run false "rpm").1 = false /\ temps (depot_run false "rpm").2 ⊆ temps depot0.
Proof.
  split; [vm_compute; reflexivity|]. split; [vm_compute; reflexivity|].
  split; [|split; [vm_compute; reflexivity|]].
  - unfold depot_run. apply pack_leaves_no_directory; by repeat intro.
  - unfold depot_run. apply pack_leaves_no_directory; by repeat intro.
Defined.

(** ** Where a package has its environment *)
Lemma Join_rel d : d <> "" -> filepath_Join [d; ""] = Clean d.
Proof. intros Hd. rewrite Join_elems, Clean_render by done. done. Qed.

Lemma JoinPaths_name d n : IsAbs d = true -> name n -> JoinPaths [d; n] = filepath_Join [d; n].
Proof. intros Hd Hn. unfold JoinPaths. cbn [fold_left]. by rewrite Hd, name_relative. Qed.

(** The elements of the environment in a tree, the last first. *)
Lemma env_elems root n :
  root <> "" -> name n ->
  filepath_Join [root; defaultEnvPrefix; n]
  = render (HasPrefix root "/") (n :: "tarantool" :: "share" :: "usr" :: elems root).
Proof.
  intros Hr Hn. assert (filepath_Join [root; defaultEnvPrefix; n]
                        = filepath_Join [root; "usr/share/tarantool/" +:+ n]) as ->
    by (cbn [filepath_Join]; by rewrite !decide_False by done).
  rewrite Join_elems by done. change ("usr/share/tarantool/" +:+ n) with ("usr/share/tarantool" +:+ String "/" n).
  rewrite Split_app_last, (Split_no_char n) by by destruct Hn as (_ & _ & _ & ?).
  assert (Split "usr/share/tarantool" "/" = ["usr"; "share"; "tarantool"]) as -> by done.
  cbn [fold_left Datatypes.app]. by rewrite !clean_step_name by (done || by split_and!).
Qed.

Lemma env_system_elems root n :
  root <> "" -> name n ->
  filepath_Join [root; filepath_Join ["/"; defaultEnvPrefix; n]]
  = render (HasPrefix root "/") (n :: "tarantool" :: "share" :: "usr" :: elems root).
Proof.
  intros Hr Hn. rewrite (env_elems "/") by done.
  assert (render (HasPrefix "/" "/") (n :: "tarantool" :: "share" :: "usr" :: elems "/")
          = "/usr/share/tarantool" +:+ String "/" n) as -> by done.
  rewrite Join_elems, Split_app_last, (Split_no_char n) by (done || by destruct Hn as (_ & _ & _ & ?)).
  assert (Split "/usr/share/tarantool" "/" = [""; "usr"; "share"; "tarantool"]) as -> by done.
  cbn [fold_left Datatypes.app]. rewrite !clean_step_name by (done || by split_and!).
  unfold clean_step at 1. by rewrite decide_True by auto.
Qed.

Section units.
Context {W : Type} `{OS W, Files W}.

(** C20: The environment of a bundle lands where the units of systemd look for
    it: in both layouts of the bundle, what updateEnvPath chooses, put where
    the deb and rpm packers copy the bundle, is /usr/share/tarantool/<name>
    below the root of the package. *)
Theorem environment_where_units_look packCtx env root bundleDir (w : W) bundleEnvPath w' :
  name (pk_Name packCtx) -> root <> "" -> IsAbs bundleDir = true -> Clean bundleDir = bundleDir ->
  updateEnvPath bundleDir packCtx env w = (Ok bundleEnvPath, w') ->
  exists rel, bundleEnvPath = filepath_Join [bundleDir; rel] /\
    filepath_Join [env_dir packCtx env root; rel] = filepath_Join [root; envSystemPath packCtx].
Proof.
  intros Hn Hr Habs Hclean. unfold updateEnvPath, env_dir, envSystemPath.
  pose proof (elems_normal root) as Hnorm.
  assert (normal (HasPrefix root "/") ("tarantool" :: "share" :: "usr" :: elems root)) as Hbase
    by (repeat apply normal_cons; done).
  rewrite env_elems, env_system_elems by done. destruct (env_in_subdir packCtx env).
  - intros (_ & w1 & _ & [= <- _])%io_bind_Ok. exists (pk_Name packCtx). split; [by apply JoinPaths_name|].
    by rewrite path_Dir_render, Join_name_render.
  - intros [= <- _]. exists "". rewrite Join_rel by by intros ->. split; [done|].
    rewrite Join_rel by by apply render_ne, normal_cons. rewrite Clean_render by by apply render_ne, normal_cons.
    by rewrite render_prefix, elems_render by by apply normal_cons.
Qed.
End units.

Lemma environment_where_units_look_witness :
  exists rel, "/tmp/tt_pack0" = filepath_Join ["/tmp/tt_pack0"; rel] /\
    filepath_Join [env_dir (depot_pack false) depot_env "/tmp/tt_pack1/data"; rel]
    = filepath_Join ["/tmp/tt_pack1/data"; envSystemPath (depot_pack false)].
Proof.
  eapply (environment_where_units_look (depot_pack false) depot_env "/tmp/tt_pack1/data" "/tmp/tt_pack0" depot0);
    [|done|reflexivity|reflexivity|reflexivity].
  by split_and!.
Defined.

(** ** The entries of an archive *)
Section archives.
Context {W : Type} `{OS W, Files W, Trees W, Bundling W}.

(** An entry for a file that was visited. *)
Record entry_of (w : W) (srcDirPath : string) (pkgFiles : gmap string packFileInfo)
    (visit : string * result FileInfo) (e : tar_entry) : Prop := {
  entry_info : visit.2 = Ok (th_info (te_header e));
  entry_name : Rel srcDirPath visit.1 = Ok (th_Name (te_header e));
  entry_owner : mkPackFileInfo (th_Uname (te_header e)) (th_Gname (te_header e))
    = default (mkPackFileInfo "root" "root") (pkgFiles !! th_Name (te_header e));
  entry_content : if decide (fi_Kind (th_info (te_header e)) = RegularFile)
    then exists content, te_content e = Some content /\ GoOs.ReadFile w visit.1 = Ok content
    else te_content e = None;
  entry_link : th_Linkname (te_header e)
    = if decide (fi_Kind (th_info (te_header e)) = Symlink) then link_of w visit.1 (th_info (te_header e)) else ""
}.

Lemma tar_header_entry w src pkg path info h :
  tar_header_of w src pkg path info = Ok h ->
  th_info h = info /\ Rel src path = Ok (th_Name h) /\
  mkPackFileInfo (th_Uname h) (th_Gname h) = default (mkPackFileInfo "root" "root") (pkg !! th_Name h) /\
  th_Linkname h = (if decide (fi_Kind info = Symlink) then link_of w path info else "").
Proof.
  unfold tar_header_of. intros (h0 & Hh0 & Hrel)%rbind_Ok. apply rbind_Ok in Hrel as (rel & Hrel & [= <-]).
  destruct (Rel src path) as [r|e]; [|done]. injection Hrel as ->. cbn. split_and!; [done..| |].
  - by destruct (pkg !! rel) as [[o g]|].
  - unfold FileInfoHeader in Hh0. destruct (fi_Kind info); by simplify_eq/=.
Qed.

(** A written archive has exactly one entry for each file of the walk
    through the directory, in its order, under its relative path, with the
    owner the package asks for, the content of a regular file and the text
    that the code gives a link. *)
Theorem archive_entries w srcDirPath pkgFiles entries :
  WriteTarArchive w srcDirPath pkgFiles = (entries, None) ->
  Forall2 (entry_of w srcDirPath pkgFiles) (walk_visits w srcDirPath) entries.
Proof.
  unfold WriteTarArchive. generalize (walk_visits w srcDirPath) as visits. intros visits.
  revert entries. induction visits as [|[path [info|err]] visits IH]; intros entries; cbn [write_entries]; [|..].
  - by intros [= <-].
  - destruct (tar_header_of w srcDirPath pkgFiles path info) as [h|err] eqn:Eh; [|done].
    apply tar_header_entry in Eh as (Hi & Hrel & Hown & Hl). subst info.
    destruct (decide (fi_Kind (th_info h) = RegularFile)) as [Hk|Hk].
    + destruct (GoOs.ReadFile w path) as [content|err] eqn:Ec; [|done].
      destruct (write_entries w srcDirPath pkgFiles visits) as [l e] eqn:El. intros [= <- ->].
      constructor; [|by apply IH]. constructor; cbn; try done. rewrite decide_True by done. eauto.
    + destruct (write_entries w srcDirPath pkgFiles visits) as [l e] eqn:El. intros [= <- ->].
      constructor; [|by apply IH]. constructor; cbn; try done. by rewrite decide_False.
  - done.
Qed.

(** The text of a link outside the directory of enabled instances is its own path in the
    temporary directory. *)
Lemma link_to_itself w path info :
  Contains path InstancesEnabledDirName = false -> link_of w path info = path.
Proof. intros Hc. unfold link_of. by rewrite Hc, andb_false_r. Qed.
End archives.

Lemma archive_entries_witness :
  Forall2 (entry_of depot0 "/app" {["init.lua" := mkPackFileInfo "tarantool" "tarantool"]})
    (walk_visits depot0 "/app")
    (WriteTarArchive depot0 "/app" {["init.lua" := mkPackFileInfo "tarantool" "tarantool"]}).1 /\
  map (fun e => (th_Name (te_header e), th_Uname (te_header e)))
    (WriteTarArchive depot0 "/app" {["init.lua" := mkPackFileInfo "tarantool" "tarantool"]}).1
  = [(".", "root"); ("a.link", "root"); ("init.lua", "tarantool")].
Proof. split; [apply archive_entries; vm_compute; reflexivity|vm_compute; reflexivity]. Defined.

(** A link in an application is archived as a link to its own path on the machine that
    packs. *)
Example archived_link_broken :
  map (fun e => th_Linkname (te_header e)) (WriteTarArchive depot0 "/app" ∅).1 = [""; "/app/a.link"; ""].
Proof. vm_compute. reflexivity. Qed.

(** ** Errors that are lost *)

(** A container that cannot be created is no error. *)
Theorem container_error_hidden {W} `{OS W, Files W, Docker W} opts (w w1 w2 w3 : W) e :
  docker_NewClient w = (Ok tt, w1) ->
  buildDockerImage (ImageTag opts) (BuildCtxDir opts) (docker_Verbose opts) w1 = (Ok tt, w2) ->
  createContainer opts w2 = (Err e, w3) -> RunContainer opts w = (Ok tt, w3).
Proof.
  intros Hc Hb He. unfold RunContainer, io_bind. rewrite Hc, Hb. unfold attempt. by rewrite He.
Qed.

(** Packing in a container that is never created succeeds without a package. *)
Example docker_pack_without_package :
  is_ok (depot_run true "deb").1 = true /\ size (dp_files (depot_run true "deb").2) = 3%nat.
Proof. split; vm_compute; reflexivity. Qed.
