(* ===== verification/Create.v ===== *)
(** * Creating applications from templates ([cli/create], [cli/templates],
    [cli/cmd/create.go])

    The chain of steps of [create.go]: variables, a temporary directory, the
    template, its manifest, hooks, rendering, removal of what the manifest does not
    keep, the move to the destination and the link in the directory of enabled
    instances.  Templates of Go's [text/template], regular expressions of manifests
    and the embedded templates are parameters. *)
From S2P Require Import Prelude GoStrings GoPath GoOs GoFs Regexp Value Cluster Configure Version.
From S2P Require Import History ProcessUtils Install Running Instances Control InstanceCmds.
Local Open Scope Z_scope.
Local Open Scope io_scope.
Local Open Scope go_scope.

(** ** Contexts and manifests *)
Record CreateCtx := mkCreateCtx {
  AppName : string; WorkDir : string; DestinationDir : string; TemplateSearchPaths : list string;
  TemplateName : string; VarsFromCli : list string; ForceMode : bool; SilentMode : bool; VarsFile : string;
  create_CliOpts : option CliOpts
}.

Record UserPrompt := mkUserPrompt { Prompt : string; var_Name : string; var_Default : string; var_Re : string }.

Record TemplateManifest := mkTemplateManifest {
  Description : string; manifest_Vars : list UserPrompt; PreHook : string; PostHook : string;
  Include : list string; FollowUpMessage : string
}.

(** [tc_Manifest] is missing when [IsManifestPresent] is false. *)
Record TemplateCtx := mkTemplateCtx {
  AppPath : string; TargetAppPath : string; tc_Manifest : option TemplateManifest; tc_Vars : gmap string string
}.

Definition NewTemplateContext : TemplateCtx := mkTemplateCtx "" "" None ∅.
Definition set_vars (vars : gmap string string) (t : TemplateCtx) : TemplateCtx :=
  mkTemplateCtx (AppPath t) (TargetAppPath t) (tc_Manifest t) vars.
Definition set_manifest (m : option TemplateManifest) (t : TemplateCtx) : TemplateCtx :=
  mkTemplateCtx (AppPath t) (TargetAppPath t) m (tc_Vars t).

Definition DefaultManifestName : string := "MANIFEST.yaml".

Fixpoint validate_vars (vars : list UserPrompt) : option error :=
  match vars with
  | [] => None
  | v :: vars =>
      if decide (Prompt v = "") then Some (Errorf "missing user prompt" [])
      else if decide (var_Name v = "") then Some (Errorf "missing variable name" [])
      else validate_vars vars
  end.
Definition validateManifest (manifest : TemplateManifest) : option error := validate_vars (manifest_Vars manifest).

(** ** Definitions of variables *)
Definition parseVarDefinition (varDefText : string) : result (string * string) :=
  let varDefinition := TrimSpace (TrimSuffix varDefText nl) in
  let bad := Err (Errorf "wrong variable definition format: %s
Format: var-name=value" [varDefText]) in
  match split2 varDefinition "=" with
  | Some (varName, value) =>
      if bool_decide (varName = "") || bool_decide (value = "") then bad else Ok (varName, value)
  | None => bad
  end.

Fixpoint define_vars (defs : list string) (vars : gmap string string) : result (gmap string string) :=
  match defs with
  | [] => Ok vars
  | def :: defs =>
      d <-? parseVarDefinition def;;
      define_vars defs (<[d.1 := d.2]> vars)
  end.

(** ** Functions of templates ([builtin_funcs.go]) *)
Definition genPort (port : Z) : Z * Z := (port, port + 1).

Definition maxReplicasetsNumber : Z := 1000.
Definition maxReplicasetSize : Z := 32.

(** [%03d] of a positive number. *)
Definition pad3 (n : Z) : string :=
  let s := FormatInt n in
  String.concat "" (repeat "0" (3 - String.length s)) +:+ s.

Definition inst_name (replicasetName : string) (replicasetSize j : Z) : string :=
  if replicasetSize <=? 26 then replicasetName +:+ "-" +:+ String (ascii_of_nat (97 + Z.to_nat j)) ""
  else replicasetName +:+ "-" +:+ pad3 (j + 1).

Definition genReplicasets (baseName : string) (replicasetsNumber replicasetSize : Z)
    : result (list (string * list string)) :=
  if (replicasetsNumber <=? 0) || (maxReplicasetsNumber <? replicasetsNumber) then
    Err (Errorf "replicasetsNumber must be in [%d, %d]" ["0"; FormatInt maxReplicasetsNumber])
  else if (replicasetSize <=? 0) || (maxReplicasetSize <? replicasetSize) then
    Err (Errorf "replicasetSize must be in [%d, %d]" ["0"; FormatInt maxReplicasetSize])
  else
    Ok (map (fun i =>
      let replicasetName := baseName +:+ "-" +:+ pad3 (Z.of_nat i + 1) in
      (replicasetName, map (fun j => inst_name replicasetName replicasetSize (Z.of_nat j))
                         (seq 0 (Z.to_nat replicasetSize))))
      (seq 0 (Z.to_nat replicasetsNumber))).

(** An entry of a [tar.gz] archive. *)
Inductive archive_entry :=
| ADir (name : string)
| AFile (name : string) (perm : Z) (content : string)
| ALink (name target : string)
| AOther (name : string).

(** Any text before [.tt.template]. *)
Definition templateFileNamePattern : re :=
  (RGroup "1" (RStar (RUnit any_char)) @@ lit ".tt.template")%re.

Section Create.
Context {W : Type} `{OS W, Files W, Trees W, Host W}.
(** [text/template]: a text that was parsed, and what executing it writes with the error
    that ends it. *)
Context {template : Type} (parse_template : string -> result template).
Context (execute : template -> gmap string string -> string * option error).
(** [regexp.MatchString] with the pattern of a manifest. *)
Context (MatchPattern : string -> string -> result bool).
Context (unmarshal : string -> result (gmap string value)).
Context (decode_manifest : gmap string value -> result TemplateManifest).
(** Entries of an archive with the error that ends it; the embedded templates, each with
    its files in the order of the walk ([None] for a directory), and their modes. *)
Context (read_archive : W -> string -> result (list archive_entry * option error)).
Context (TemplatesFs : list (string * list (string * option string))).
Context (FileModes : gmap string (gmap string Z)).

(** ** The engine ([go_text_engine.go]) *)
Definition RenderText (text : string) (vars : gmap string string) : result string :=
  t <-? rwrap "failed to parse %s: %s" [text] (parse_template text);;
  match execute t vars with
  | (out, None) => Ok out
  | (_, Some err) => Err (Wrapf "template execution failed: %s" [] err)
  end.

(** What was written before an error stays; the mode is set at the end. *)
Definition RenderFile (srcPath dstPath : string) (vars : gmap string string) : io W unit :=
  mode <- io_wrap "error getting file info %s: %s" [srcPath] (look (fun w => os_Perm w srcPath)) ;;
  content <- io_wrap "error reading file %s: %s" [srcPath] (look (fun w => GoOs.ReadFile w srcPath)) ;;
  parsed <- io_wrap "error parsing %s: %s" [srcPath] (look (fun _ => parse_template content)) ;;
  io_wrap "error creating %s: %s" [dstPath] (os_WriteFile dstPath "" 438) ;;;
  finally (os_Chmod dstPath mode) (
    let '(out, err) := execute parsed vars in
    os_WriteFile dstPath out 438 ;;;
    match err with
    | None => ret tt
    | Some err => throw (Wrapf "template execution failed: %s" [] err)
    end).

(** ** Files ([cli/util]) *)

(** [os.O_CREATE|os.O_WRONLY]: a longer file keeps its end. *)
Definition overwrite (path content : string) (mode : Z) : io W unit :=
  old <- ask (fun w => match GoOs.ReadFile w path with Ok old => old | Err _ => "" end) ;;
  os_WriteFile path
    (content +:+ String.string_of_list_ascii (drop (String.length content) (String.list_ascii_of_string old))) mode.

Definition extract_entry (dstDir : string) (e : archive_entry) : io W unit :=
  match e with
  | ADir _ => ret tt
  | AFile name perm content =>
      let dir := filepath_Join [dstDir; path_Dir name] in
      stat <- ask (fun w => Stat w dir) ;;
      (match stat with
       | Err err => if IsNotExist err then attempt (os_MkdirAll dir 493) ;;; ret tt else ret tt
       | Ok _ => ret tt
       end) ;;;
      overwrite (filepath_Join [dstDir; name]) content perm
  | ALink name target => os_Symlink target (filepath_Join [dstDir; name])
  | AOther name => throw (Errorf "unknown type: %b in %s" [name])
  end.

Definition ExtractTarGz (tarName dstDir : string) : io W unit :=
  archive <- look (fun w => read_archive w tarName) ;;
  io_for (extract_entry dstDir) archive.1 ;;;
  match archive.2 with Some err => throw err | None => ret tt end.

Definition RelativeToCurrentWorkingDir (w : W) (fullpath : string) : string :=
  match Getwd w with
  | Err _ => fullpath
  | Ok cwd => match Rel cwd fullpath with Ok relPath => relPath | Err _ => fullpath end
  end.

(** ** The steps *)
Definition SetPredefinedVariables (c : CreateCtx) (t : TemplateCtx) : io W TemplateCtx :=
  let vars := <["name" := AppName c]> (tc_Vars t) in
  match create_CliOpts c ≫= opts_App with
  | Some app =>
      rundir <- ask (fun w => RelativeToCurrentWorkingDir w (app_RunDir app)) ;;
      ret (set_vars (<["rundir" := rundir]> vars) t)
  | None => ret (set_vars vars t)
  end.

(** A line that is too long ends the scan with an error. *)
Definition too_long (parts : list string) : bool :=
  existsb (fun p => 65536 <=? Z.of_nat (String.length p)) parts.

Definition LoadVarsFile (c : CreateCtx) (t : TemplateCtx) : io W TemplateCtx :=
  if decide (VarsFile c = "") then ret t
  else
    let path := filepath_Join [AppPath t; VarsFile c] in
    io_wrap "vars file loading error: %s" [] (look (fun w => Stat w path)) ;;;
    content <- io_wrap "vars file loading error: %s" [] (look (fun w => GoOs.ReadFile w path)) ;;
    let parts := raw_lines content in
    vars <- io_wrap "failed to load vars from %s: %s" [path]
              (look (fun _ => define_vars (scan_lines parts) (tc_Vars t))) ;;
    if too_long parts then throw (Errorf "bufio.Scanner: token too long" []) else ret (set_vars vars t).

Definition FillTemplateVarsFromCli (c : CreateCtx) (t : TemplateCtx) : io W TemplateCtx :=
  vars <- look (fun _ => define_vars (VarsFromCli c) (tc_Vars t)) ;;
  ret (set_vars vars t).

Definition CreateTemporaryAppDirectory (c : CreateCtx) (t : TemplateCtx) : io W TemplateCtx :=
  if decide (AppName c = "") then throw (Errorf "application name cannot be empty" [])
  else
    let appDirectory := if decide (DestinationDir c <> "") then filepath_Join [DestinationDir c; AppName c]
                        else filepath_Join [WorkDir c; AppName c] in
    stat <- ask (fun w => Stat w appDirectory) ;;
    if is_ok stat && negb (ForceMode c) then
      throw (Errorf "application %s already exists: %s" [AppName c; appDirectory])
    else
      appDirectory <- look (fun w => Abs w appDirectory) ;;
      appPath <- io_wrap "failed to create temporary application directory: %s" []
                   (os_MkdirTemp (AppName c +:+ "*")) ;;
      ret (mkTemplateCtx appPath appDirectory (tc_Manifest t) (tc_Vars t)).

Definition getFileMode (path : string) (isDir : bool) (fileModes : gmap string Z) : Z :=
  if isDir then 493 else default 432 (fileModes !! path).

Definition copyEmbedFs (files : list (string * option string)) (dst : string) (fileModes : gmap string Z)
    : io W unit :=
  io_for (fun f =>
    match f.2 with
    | None => CreateDirectory (filepath_Join [dst; f.1]) (getFileMode f.1 true fileModes)
    | Some content => overwrite (filepath_Join [dst; f.1]) content (getFileMode f.1 false fileModes)
    end) files.

Fixpoint copy_found (templateName appPath : string) (locations : list string) : io W bool :=
  match locations with
  | [] => ret false
  | location :: locations =>
      let templatePath := filepath_Join [location; templateName] in
      isDir <- ask (fun w => IsDir w templatePath) ;;
      if isDir : bool then
        io_wrap "template copying failed: %s" [] (copy_Copy templatePath appPath) ;;; ret true
      else
        let tgz := filepath_Join [location; templateName +:+ ".tgz"] in
        let tarGz := filepath_Join [location; templateName +:+ ".tar.gz"] in
        isTgz <- ask (fun w => IsRegularFile w tgz) ;;
        isTarGz <- ask (fun w => IsRegularFile w tarGz) ;;
        if isTgz : bool then ExtractTarGz tgz appPath ;;; ret true
        else if isTarGz : bool then ExtractTarGz tarGz appPath ;;; ret true
        else copy_found templateName appPath locations
  end.

Definition CopyAppTemplate (c : CreateCtx) (t : TemplateCtx) : io W TemplateCtx :=
  found <- copy_found (TemplateName c) (AppPath t) (TemplateSearchPaths c) ;;
  if found : bool then ret t
  else
    match List.find (fun dir => bool_decide (dir.1 = TemplateName c)) TemplatesFs with
    | Some dir => copyEmbedFs dir.2 (AppPath t) (default ∅ (FileModes !! TemplateName c)) ;;; ret t
    | None => throw (Errorf "template '%s' is not found" [TemplateName c])
    end.

Definition load_manifest (w : W) (manifestPath : string) : result TemplateManifest :=
  _ <-? rwrap "failed to get access to manifest file: %s" [] (Stat w manifestPath);;
  raw <-? ParseYAML unmarshal w manifestPath;;
  manifest <-? rwrap "failed to decode template manifest: %s" [] (decode_manifest raw);;
  match validateManifest manifest with
  | Some err => Err (Wrapf "invalid manifest format: %s" [] err)
  | None => Ok manifest
  end.

Definition LoadManifest (_ : CreateCtx) (t : TemplateCtx) : io W TemplateCtx :=
  found <- ask (fun w => GetYamlFileName w (filepath_Join [AppPath t; DefaultManifestName]) true) ;;
  match found with
  | Err err => if IsNotExist err then ret (set_manifest None t) else throw err
  | Ok manifestPath =>
      manifest <- io_wrap "failed to load manifest file: %s" [] (look (fun w => load_manifest w manifestPath)) ;;
      io_wrap "failed to remove manifest %s: %s" [manifestPath] (os_Remove manifestPath) ;;;
      ret (set_manifest (Some manifest) t)
  end.

(** *** Values from the user *)

(** The pattern of a variable; without one every value fits. *)
Definition fits (v : UserPrompt) (value : string) : result bool :=
  if decide (var_Re v = "") then Ok true
  else rwrap "failed to validate user input: %s" [] (MatchPattern (var_Re v) value).

(** Lines until one fits; an empty line stands for the default. *)
Fixpoint prompt (v : UserPrompt) (lines : list string) : result string * list string :=
  match lines with
  | [] => (Err (Wrapf "error reading user input: %s" [] ErrEOF), [])
  | line :: lines =>
      let input := if decide (line = "") then var_Default v else line in
      if decide (input = "") then prompt v lines
      else
        match fits v input with
        | Err e => (Err e, lines)
        | Ok true => (Ok input, lines)
        | Ok false => prompt v lines
        end
  end.

Definition default_value (v : UserPrompt) : result string :=
  if decide (var_Default v = "") then Err (Errorf "%s variable value is not set" [var_Name v])
  else
    matched <-? fits v (var_Default v);;
    if matched : bool then Ok (var_Default v) else Err (Errorf "invalid format of %s variable" [var_Name v]).

Definition new_value (silent : bool) (v : UserPrompt) : io W string :=
  if silent then look (fun _ => default_value v)
  else fun w => let '(r, rest) := prompt v (stdin w) in (r, set_stdin rest w).

Definition collect_var (silent : bool) (v : UserPrompt) (vars : gmap string string) : io W (gmap string string) :=
  known <- look (fun _ => match vars !! var_Name v with
                          | None => Ok false
                          | Some value => fits v value
                          end) ;;
  if known : bool then ret vars
  else if silent && bool_decide (is_Some (vars !! var_Name v)) then
    throw (Errorf "invalid format of %s variable" [var_Name v])
  else
    value <- new_value silent v ;;
    ret (<[var_Name v := value]> vars).

Definition CollectTemplateVarsFromUser (c : CreateCtx) (t : TemplateCtx) : io W TemplateCtx :=
  match tc_Manifest t with
  | None => ret t
  | Some manifest =>
      vars <- io_fold (collect_var (SilentMode c)) (manifest_Vars manifest) (tc_Vars t) ;;
      ret (set_vars vars t)
  end.

(** *** Hooks *)
Definition create_RunHook (pre : bool) (_ : CreateCtx) (t : TemplateCtx) : io W TemplateCtx :=
  match tc_Manifest t with
  | None => ret t
  | Some manifest =>
      let hookPath := if pre then PreHook manifest else PostHook manifest in
      if decide (hookPath = "") then ret t
      else
        let executablePath := filepath_Join [AppPath t; hookPath] in
        io_wrap "error access to %s: %s" [executablePath] (look (fun w => Stat w executablePath)) ;;;
        io_wrap "error executing %s: %s" [executablePath] (run_program executablePath "" [AppPath t] "") ;;;
        attempt (os_Remove executablePath) ;;; ret t
  end.

(** *** Rendering *)
Definition render (t : TemplateCtx) (filePath : string) (info : FileInfo) : io W unit :=
  if IsDir_info info then ret tt
  else
    filePath <- (match FindNamedMatches templateFileNamePattern (fi_Name info) with
                 | Some matches =>
                     let resultFilePath := filepath_Join [path_Dir filePath; matches "1"] in
                     RenderFile filePath resultFilePath (tc_Vars t) ;;;
                     io_wrap "error removing %s: %s" [filePath] (os_Remove filePath) ;;;
                     ret resultFilePath
                 | None => ret filePath
                 end) ;;
    newFileName <- io_wrap "failed file name processing %s: %s" [filePath]
                     (look (fun _ => RenderText filePath (tc_Vars t))) ;;
    if decide (newFileName <> filePath) then
      io_wrap "error renaming %s to %s: %s" [filePath; newFileName] (os_Rename filePath newFileName)
    else ret tt.

Definition RenderTemplate (_ : CreateCtx) (t : TemplateCtx) : io W TemplateCtx :=
  io_wrap "template instantiation error: %s" []
    (filepath_Walk (fun path info _ => render t path info) (AppPath t) tt) ;;;
  ret t.

(** *** What is kept *)
Fixpoint files_to_keep (t : TemplateCtx) (include : list string) : result (gset string) :=
  match include with
  | [] => Ok ∅
  | fileName :: include =>
      fileName <-? rwrap "file name rendering error: %s" [] (RenderText fileName (tc_Vars t));;
      rmap (fun keep => {[filepath_Join [AppPath t; fileName]]} ∪ keep) (files_to_keep t include)
  end.

(** Regular files are removed at once, directories are collected. *)
Definition clean_file (appPath : string) (keep : gset string) (filePath : string) (info : FileInfo)
    (dirsToRemove : list string) : io W (list string) :=
  if decide (filePath ∈ keep) then ret dirsToRemove
  else if IsDir_info info then
    ret (if decide (filePath <> appPath) then dirsToRemove ++ [filePath] else dirsToRemove)
  else if decide (fi_Kind info = RegularFile) then attempt (os_Remove filePath) ;;; ret dirsToRemove
  else ret dirsToRemove.

Definition Cleanup (_ : CreateCtx) (t : TemplateCtx) : io W TemplateCtx :=
  match tc_Manifest t with
  | None => ret t
  | Some manifest =>
      if decide (length (Include manifest) = 0%nat) then ret t
      else
        keep <- look (fun _ => files_to_keep t (Include manifest)) ;;
        dirsToRemove <- io_wrap "cleanup failed: %s" []
                          (filepath_Walk (clean_file (AppPath t) keep) (AppPath t) []) ;;
        io_for (fun dir => attempt (os_Remove dir) ;;; ret tt) dirsToRemove ;;;
        ret t
  end.

(** *** The end *)
Definition MoveAppDirectory (c : CreateCtx) (t : TemplateCtx) : io W TemplateCtx :=
  if decide (TargetAppPath t = "") then ret t
  else
    stat <- ask (fun w => Stat w (TargetAppPath t)) ;;
    (if is_ok stat then
       if negb (ForceMode c) then throw (Errorf "'%s' already exists" [TargetAppPath t])
       else io_wrap "failed to remove %s: %s" [TargetAppPath t] (os_RemoveAll (TargetAppPath t))
     else ret tt) ;;;
    copy_Copy (AppPath t) (TargetAppPath t) ;;;
    attempt (os_RemoveAll (AppPath t)) ;;;
    ret t.

(** A directory that cannot be made is no error, a link that cannot be made a warning. *)
Definition CreateAppSymlink (symlinkDir : string) (c : CreateCtx) (t : TemplateCtx) : io W TemplateCtx :=
  if decide (symlinkDir = ".") then ret t
  else
    relativeAppPath <- look (fun _ => Rel symlinkDir (TargetAppPath t)) ;;
    made <- attempt (CreateDirectory symlinkDir 488) ;;
    match made with
    | Err _ => ret t
    | Ok _ =>
        attempt (CreateSymlink relativeAppPath (filepath_Join [symlinkDir; AppName c]) (ForceMode c)) ;;; ret t
    end.

Definition PrintFollowUpMessage (c : CreateCtx) (t : TemplateCtx) : io W TemplateCtx :=
  match tc_Manifest t with
  | Some manifest =>
      if bool_decide (FollowUpMessage manifest <> "") && negb (SilentMode c) then
        look (fun _ => RenderText (FollowUpMessage manifest) (tc_Vars t)) ;;; ret t
      else ret t
  | None => ret t
  end.

(** ** [create.go] *)
Definition rollbackOnErr (t : TemplateCtx) : io W unit :=
  if decide (AppPath t <> "") then os_RemoveAll (AppPath t) else ret tt.

(** No step that fails has changed the path of the temporary directory. *)
Fixpoint run_steps (steps : list (TemplateCtx -> io W TemplateCtx)) (t : TemplateCtx) : io W unit :=
  match steps with
  | [] => ret tt
  | step :: steps => fun w =>
      match step t w with
      | (Err e, w) => (Err e, (rollbackOnErr t w).2)
      | (Ok t, w) => run_steps steps t w
      end
  end.

Definition checkCtx (c : CreateCtx) : option error :=
  if decide (TemplateName c = "") then Some (Errorf "template name is missing" []) else None.

Definition stepsChain (c : CreateCtx) (symlinkDir : string) : list (TemplateCtx -> io W TemplateCtx) :=
  [SetPredefinedVariables c; LoadVarsFile c; FillTemplateVarsFromCli c; CreateTemporaryAppDirectory c;
   CopyAppTemplate c; LoadManifest c; CollectTemplateVarsFromUser c; create_RunHook true c; RenderTemplate c;
   create_RunHook false c; Cleanup c; MoveAppDirectory c; CreateAppSymlink symlinkDir c;
   PrintFollowUpMessage c].

Definition create_Run (cliOpts : CliOpts) (c : CreateCtx) : io W unit :=
  match checkCtx c with
  | Some err => throw (Wrapf "Create context check failed: %s" [] err)
  | None =>
      env <- look (fun _ => deref (opts_Env cliOpts)) ;;
      run_steps (stepsChain c (env_InstancesEnabled env)) NewTemplateContext
  end.

Definition create_FillCtx (cliOpts : CliOpts) (c : CreateCtx) (args : list string) (w : W) : result CreateCtx :=
  match args with
  | [] => Err (Errorf "missing template name argument. Try `tt create --help` for more information" [])
  | template :: _ =>
      workingDir <-? Getwd w;;
      Ok (mkCreateCtx (AppName c) workingDir (DestinationDir c)
            (TemplateSearchPaths c ++ map tmpl_Path (opts_Templates cliOpts)) template (VarsFromCli c) (ForceMode c)
            (SilentMode c) (VarsFile c) (create_CliOpts c))
  end.

(** ** The command ([cli/cmd/create.go]) *)
Definition errNoAppName : error :=
  Errorf "application name is required: specify it with the --name option." [].

(** The flags are in the context. *)
Definition internalCreateModule (ctx : CmdCtx) (cliOpts : CliOpts) (flags : CreateCtx) (args : list string)
    : io W unit :=
  if negb (isConfigExist ctx) then throw errNoConfig
  else if decide (AppName flags = "") then throw errNoAppName
  else
    c <- look (create_FillCtx cliOpts flags args) ;;
    create_Run cliOpts c.

(** The templates that completion offers. *)
Definition builtin_names : list string := ["cartridge"; "vshard_cluster"; "single_instance"].

Definition template_name (e : DirEntry) : option string :=
  let eName := entry_Name e in
  let ext := path_Ext eName in
  if entry_IsDir e then Some eName
  else if decide (ext = ".tgz") then Some (TrimSuffix eName ".tgz")
  else if decide (ext = ".gz") then
    let rest := TrimSuffix eName ".gz" in
    if decide (path_Ext rest = ".tar") then Some (TrimSuffix rest ".tar") else None
  else None.

Definition createValidArgs (w : W) (cliOpts : CliOpts) (args : list string) : list string :=
  match args with
  | [] =>
      builtin_names
      ++ concat (map (fun templateDir =>
           match os_ReadDir w (tmpl_Path templateDir) with
           | Err _ => []
           | Ok entries => omap template_name entries
           end) (opts_Templates cliOpts))
  | _ => []
  end.
End Create.

Example genReplicasets_samples :
  genReplicasets "s" 2 2 = Ok [("s-001", ["s-001-a"; "s-001-b"]); ("s-002", ["s-002-a"; "s-002-b"])] /\
  is_ok (genReplicasets "s" 0 1) = false /\ is_ok (genReplicasets "s" 1 33) = false.
Proof. split_and!; vm_compute; reflexivity. Qed.

Example parseVarDefinition_samples :
  parseVarDefinition "a=b=c" = Ok ("a", "b=c") /\ is_ok (parseVarDefinition "a=") = false /\
  is_ok (parseVarDefinition "=b") = false.
Proof. split_and!; vm_compute; reflexivity. Qed.
