(* ===== verification/CreateProps.v ===== *)
(** * What holds of creating applications *)
From S2P Require Import Prelude GoStrings GoPath GoOs GoFs Regexp Value Cluster Configure.
From S2P Require Import Version History ProcessUtils Install Running Instances Control InstanceCmds TempDirs Create Disk Pack Bundle.
Local Open Scope Z_scope.
Local Open Scope io_scope.

Section create.
Context {W : Type} `{OS W, Files W, Trees W, Host W}.
Context {template : Type} (parse_template : string -> result template).
Context (execute : template -> gmap string string -> string * option error).
Context (MatchPattern : string -> string -> result bool).
Context (unmarshal : string -> result (gmap string value)).
Context (decode_manifest : gmap string value -> result TemplateManifest).
Context (read_archive : W -> string -> result (list archive_entry * option error)).
Context (TemplatesFs : list (string * list (string * option string))).
Context (FileModes : gmap string (gmap string Z)).

Notation create_Run :=
  (create_Run parse_template execute MatchPattern unmarshal decode_manifest read_archive TemplatesFs FileModes).

(** ** An application that is there *)
Definition app_dir (c : CreateCtx) : string :=
  if decide (DestinationDir c <> "") then filepath_Join [DestinationDir c; AppName c]
  else filepath_Join [WorkDir c; AppName c].

(** A step that only looks. *)
Definition pure_step (step : TemplateCtx -> io W TemplateCtx) : Prop :=
  forall t w, (step t w).2 = w /\ (AppPath t = "" -> forall t', (step t w).1 = Ok t' -> AppPath t' = "").

Lemma SetPredefinedVariables_pure c : pure_step (SetPredefinedVariables c).
Proof.
  intros t w. unfold SetPredefinedVariables. destruct (create_CliOpts c ≫= opts_App); cbn; split; try done;
    by intros Ht t' [= <-].
Qed.

Lemma FillTemplateVarsFromCli_pure c : pure_step (FillTemplateVarsFromCli c).
Proof.
  intros t w. unfold FillTemplateVarsFromCli. rewrite io_bind_look.
  destruct (define_vars (VarsFromCli c) (tc_Vars t)); cbn; split; try done. by intros Ht t' [= <-].
Qed.

Lemma LoadVarsFile_pure c : pure_step (LoadVarsFile c).
Proof.
  intros t w. unfold LoadVarsFile. case_decide; [cbn; split; [done|by intros Ht t' [= <-]]|].
  unfold io_bind, io_wrap, look. set (path := filepath_Join _).
  destruct (Stat w path) as [i|e]; cbn [rwrap]; [|done]. destruct (GoOs.ReadFile w path) as [text|e]; cbn [rwrap]; [|done].
  destruct (define_vars _ _) as [vars|e]; cbn [rwrap]; [|done].
  destruct (too_long _); cbn; [done|]. split; [done|]. by intros Ht t' [= <-].
Qed.

Lemma run_pure step steps t w :
  pure_step step -> AppPath t = "" ->
  (exists e, run_steps (step :: steps) t w = (Err e, w)) \/
  (exists t', AppPath t' = "" /\ run_steps (step :: steps) t w = run_steps steps t' w).
Proof.
  intros Hp Ht. cbn [run_steps]. destruct (Hp t w) as [Hw Ha]. specialize (Ha Ht).
  destruct (step t w) as [[t'|e] w1]; cbn in *; subst w1; [right; eauto|].
  left. exists e. unfold rollbackOnErr. by rewrite Ht.
Qed.

(** C40: Without the flag that forces it, an application that exists makes tt
    create fail before anything is changed: the world afterwards is the world
    before, whatever the template and the variables. *)
Theorem existing_app_untouched cliOpts c w :
  ForceMode c = false -> is_ok (Stat w (app_dir c)) = true -> opts_Env cliOpts <> None ->
  exists e, create_Run cliOpts c w = (Err e, w).
Proof.
  intros Hf Hs Henv. unfold Create.create_Run. destruct (checkCtx c) as [err|]; [eexists; reflexivity|].
  rewrite io_bind_look. destruct (opts_Env cliOpts) as [env|]; [|done]. cbn [deref].
  unfold stepsChain.
  edestruct (run_pure (SetPredefinedVariables c)) as [[e He]|(t1 & Ht1 & ->)];
    [apply SetPredefinedVariables_pure|reflexivity|eauto|].
  edestruct (run_pure (LoadVarsFile c)) as [[e He]|(t2 & Ht2 & ->)]; [apply LoadVarsFile_pure|exact Ht1|eauto|].
  edestruct (run_pure (FillTemplateVarsFromCli c)) as [[e He]|(t3 & Ht3 & ->)];
    [apply FillTemplateVarsFromCli_pure|exact Ht2|eauto|].
  cbn [run_steps]. unfold CreateTemporaryAppDirectory at 1, rollbackOnErr.
  case_decide; [cbn; rewrite Ht3; eauto|]. unfold io_bind at 1, ask. fold (app_dir c). rewrite Hs, Hf. cbn.
  rewrite Ht3. eauto.
Qed.

(** ** Values of variables *)
Definition value_fits (v : UserPrompt) (value : string) : Prop := fits MatchPattern v value = Ok true.

Lemma prompt_fits v lines value rest :
  prompt MatchPattern v lines = (Ok value, rest) -> value_fits v value /\ value <> "".
Proof.
  induction lines as [|line lines IH]; cbn [prompt]; [done|]. set (input := if decide (line = "") then var_Default v else line).
  destruct (decide (input = "")) as [Hi|Hi]; [done|]. destruct (fits MatchPattern v input) as [[]|e] eqn:Ef; [|done|done].
  intros [= <- _]. done.
Qed.

Lemma new_value_fits silent v w value w' :
  new_value MatchPattern silent v w = (Ok value, w') -> value_fits v value /\ value <> "".
Proof.
  destruct silent; cbn.
  - intros [Hd _]%look_Ok. unfold default_value in Hd. case_decide as He; [done|].
    apply rbind_Ok in Hd as ([] & Hf & [= <-]); done.
  - destruct (prompt MatchPattern v (stdin w)) as [r rest] eqn:Ep. intros [= -> _]. by eapply prompt_fits.
Qed.

(** One variable: its value fits, and no other is changed; one that fits is kept. *)
Lemma collect_var_spec silent v vars w vars' w' :
  collect_var MatchPattern silent v vars w = (Ok vars', w') ->
  (exists value, vars' !! var_Name v = Some value /\ value_fits v value) /\
  (forall n, n <> var_Name v -> vars' !! n = vars !! n) /\
  (forall value, vars !! var_Name v = Some value -> value_fits v value -> vars' = vars).
Proof.
  unfold collect_var. rewrite io_bind_look. unfold value_fits.
  destruct (vars !! var_Name v) as [value|] eqn:Ev.
  - destruct (fits MatchPattern v value) as [[]|e] eqn:Ef; [|..].
    + intros [= <- _]. split_and!; eauto.
    + destruct (silent && _); [done|]. intros (x & w1 & Hx%new_value_fits & [= <- _])%io_bind_Ok.
      split_and!; [exists x; split; [apply lookup_insert_eq|apply Hx]|by intros; apply lookup_insert_ne|].
      intros ? [= <-]. congruence.
    + done.
  - destruct (silent && _); [done|]. intros (x & w1 & Hx%new_value_fits & [= <- _])%io_bind_Ok.
    split_and!; [exists x; split; [apply lookup_insert_eq|apply Hx]|by intros; apply lookup_insert_ne|done].
Qed.

Lemma collect_vars_spec silent vs vars w vars' w' :
  NoDup (map var_Name vs) -> io_fold (collect_var MatchPattern silent) vs vars w = (Ok vars', w') ->
  (forall v, v ∈ vs -> exists value, vars' !! var_Name v = Some value /\ value_fits v value) /\
  (forall n, n ∉ map var_Name vs -> vars' !! n = vars !! n) /\
  (forall v value, v ∈ vs -> vars !! var_Name v = Some value -> value_fits v value ->
     vars' !! var_Name v = Some value).
Proof.
  revert vars w. induction vs as [|v vs IH]; intros vars w Hnd; cbn [io_fold].
  { intros [= <- _]. split_and!; [by intros ? ?%not_elem_of_nil|done|by intros ?? ?%not_elem_of_nil]. }
  cbn in Hnd. apply NoDup_cons in Hnd as [Hv Hnd].
  intros (vars1 & w1 & (Hval & Hother & Hkept)%collect_var_spec & Hrest)%io_bind_Ok.
  apply (IH _ _ Hnd) in Hrest as (Hvals & Hothers & Hkepts).
  assert (forall u, u ∈ vs -> var_Name u <> var_Name v) as Hne.
  { intros u Hu E. apply Hv. rewrite <- E. by apply list_elem_of_fmap_2. }
  split_and!.
  - intros u [->|Hu]%elem_of_cons; [|by apply Hvals]. by rewrite Hothers.
  - intros n Hn. cbn in Hn. rewrite not_elem_of_cons in Hn. destruct Hn as [Hn1 Hn2]. by rewrite Hothers, Hother.
  - intros u value [->|Hu]%elem_of_cons Hval' Hfit.
    + by rewrite Hothers, (Hkept value).
    + apply Hkepts; [done| |done]. by rewrite Hother by by apply Hne.
Qed.

(** Without interaction the input is not read. *)
Lemma collect_silent vs vars w vars' w' :
  io_fold (collect_var MatchPattern true) vs vars w = (Ok vars', w') -> w' = w.
Proof.
  revert vars w. induction vs as [|v vs IH]; intros vars w; cbn [io_fold]; [by intros [= _ <-]|].
  intros (x & w2 & Hx & Hr)%io_bind_Ok. apply IH in Hr as ->. clear IH. revert Hx. unfold collect_var.
  rewrite io_bind_look. 
  match goal with |- context [match ?r with Ok _ => _ | Err _ => _ end] => destruct r as [[]|e] end;
    [by intros [= _ <-]| |done].
  destruct (true && _); [done|]. intros (y & w3 & Hy & [= _ <-])%io_bind_Ok. cbn in Hy.
  by apply look_Ok in Hy as [_ <-].
Qed.

(** C21: After the variables of a manifest are collected each of them has a
    value that its pattern matches, whether it came from the command line, a
    file, the default or the answers of the user, and variables that the
    manifest does not name keep their values. *)
Theorem collected_vars_fit c t m w t' w' :
  tc_Manifest t = Some m -> NoDup (map var_Name (manifest_Vars m)) ->
  CollectTemplateVarsFromUser MatchPattern c t w = (Ok t', w') ->
  (forall v, v ∈ manifest_Vars m ->
     exists value, tc_Vars t' !! var_Name v = Some value /\ value_fits v value) /\
  (forall v value, v ∈ manifest_Vars m -> tc_Vars t !! var_Name v = Some value -> value_fits v value ->
     tc_Vars t' !! var_Name v = Some value) /\
  (forall n, n ∉ map var_Name (manifest_Vars m) -> tc_Vars t' !! n = tc_Vars t !! n) /\
  (SilentMode c = true -> w' = w).
Proof.
  intros Hm Hnd. unfold CollectTemplateVarsFromUser. rewrite Hm.
  intros (vars & w1 & Hf & [= <- <-])%io_bind_Ok. destruct (collect_vars_spec _ _ _ _ _ _ Hnd Hf) as (H3 & H4 & H5).
  split_and!; [exact H3|exact H5|exact H4|].
  intros Hs. rewrite Hs in Hf. by eapply collect_silent.
Qed.

(** ** Temporary directories *)
Context `{!TempDirs W}.
Notation keep m := (keeps (temps (W:=W)) m).

(** What a step ends with. *)
Definition ends_in (t : TemplateCtx) (m : io W TemplateCtx) : Prop := forall w t' w', m w = (Ok t', w') ->
  AppPath t' = AppPath t /\ TargetAppPath t' = TargetAppPath t.

(** A step between the creation of the directory and its removal. *)
Definition inner_step (step : TemplateCtx -> io W TemplateCtx) : Prop := forall t,
  keep (step t) /\ ends_in t (step t).

Lemma ends_ret t t' : AppPath t' = AppPath t -> TargetAppPath t' = TargetAppPath t -> ends_in t (ret t').
Proof. by intros ? ? w t1 w1 [= <- _]. Qed.
Lemma ends_throw t e : ends_in t (throw e).
Proof. by intros w t' w' [=]. Qed.
Lemma ends_bind {A} t (m : io W A) f : (forall a, ends_in t (f a)) -> ends_in t (io_bind f m).
Proof. intros Hf w t' w' (a & w1 & _ & Ha)%io_bind_Ok. by eapply Hf. Qed.

Ltac ends :=
  repeat first
    [ progress intros | apply ends_bind | apply ends_throw | (apply ends_ret; reflexivity)
    | match goal with
      | |- ends_in _ (if ?b then _ else _) => destruct b
      | |- ends_in _ (match ?x with _ => _ end) => destruct x
      end ].

Lemma keeps_overwrite path text mode : keep (overwrite path text mode).
Proof. unfold overwrite. keeps. Qed.
Local Hint Resolve keeps_overwrite : temps.
Lemma keeps_CreateDirectory dir mode : keep (CreateDirectory dir mode).
Proof. unfold CreateDirectory. keeps. Qed.
Lemma keeps_CreateSymlink o n b : keep (CreateSymlink o n b).
Proof. unfold CreateSymlink. keeps. Qed.
Lemma keeps_ExtractTarGz tar dst : keep (ExtractTarGz read_archive tar dst).
Proof. unfold ExtractTarGz, extract_entry. keeps. Qed.
Local Hint Resolve keeps_CreateDirectory keeps_CreateSymlink keeps_ExtractTarGz : temps.
Lemma keeps_copy_found name path locations : keep (copy_found read_archive name path locations).
Proof. induction locations as [|l locations IH]; cbn [copy_found]; keeps. Qed.
Local Hint Resolve keeps_copy_found : temps.
Lemma keeps_RenderFile src dst vars : keep (RenderFile parse_template execute src dst vars).
Proof. unfold RenderFile. keeps. Qed.
Local Hint Resolve keeps_RenderFile : temps.

Lemma CopyAppTemplate_inner c : inner_step (CopyAppTemplate read_archive TemplatesFs FileModes c).
Proof. intros t. unfold CopyAppTemplate, copyEmbedFs. split; [keeps|ends]. Qed.

Lemma LoadManifest_inner c : inner_step (LoadManifest unmarshal decode_manifest c).
Proof. intros t. unfold LoadManifest. split; [keeps|ends]. Qed.

Lemma keeps_new_value silent v : keep (new_value MatchPattern silent v).
Proof.
  destruct silent; cbn; [keeps|]. intros w. destruct (prompt MatchPattern v (stdin w)) as [r rest].
  apply temps_stdin.
Qed.
Local Hint Resolve keeps_new_value : temps.

Lemma CollectTemplateVars_inner c : inner_step (CollectTemplateVarsFromUser MatchPattern c).
Proof.
  intros t. unfold CollectTemplateVarsFromUser. split; [|ends]. destruct (tc_Manifest t); [|keeps].
  apply keeps_bind; [|keeps]. apply keeps_fold. intros v vars. unfold collect_var. keeps.
Qed.

Lemma create_RunHook_inner pre c : inner_step (create_RunHook pre c).
Proof. intros t. unfold create_RunHook. split; [keeps|ends]. Qed.

Lemma RenderTemplate_inner c : inner_step (RenderTemplate parse_template execute c).
Proof.
  intros t. unfold RenderTemplate. split; [|ends]. apply keeps_bind; [|keeps]. apply keeps_wrap.
  apply keeps_filepath_Walk. intros path info a. unfold render. destruct (IsDir_info info); [keeps|].
  apply keeps_bind; keeps.
Qed.

Lemma Cleanup_inner c : inner_step (Cleanup parse_template execute c).
Proof.
  intros t. unfold Cleanup. split; [|ends]. destruct (tc_Manifest t) as [m|]; [|keeps]. case_decide; [keeps|].
  apply keeps_bind; [keeps|]. intros keep. apply keeps_bind; [|keeps]. apply keeps_wrap.
  apply keeps_filepath_Walk. intros path info a. unfold clean_file. keeps.
Qed.

Lemma CreateAppSymlink_inner dir c : inner_step (CreateAppSymlink dir c).
Proof. intros t. unfold CreateAppSymlink. split; [keeps|ends]. Qed.

Lemma PrintFollowUpMessage_inner c : inner_step (PrintFollowUpMessage parse_template execute c).
Proof. intros t. unfold PrintFollowUpMessage. split; [keeps|ends]. Qed.

Lemma keeps_rollback t : keep (rollbackOnErr t).
Proof. unfold rollbackOnErr. keeps. Qed.

Lemma keeps_run_steps steps t : Forall inner_step steps -> keep (run_steps steps t).
Proof.
  intros Hs. revert t. induction Hs as [|step steps Hstep Hs IH]; intros t w; cbn [run_steps]; [done|].
  destruct (Hstep t) as [Hk _]. specialize (Hk w). destruct (step t w) as [[t'|e] w1]; cbn in *.
  - specialize (IH t' w1). set_solver.
  - pose proof (keeps_rollback t w1). set_solver.
Qed.

Context (Hremovable : forall dir (w : W), is_ok (os_RemoveAll dir w).1 = true).

Lemma closes_rollback t w : AppPath t <> "" -> temps (rollbackOnErr t w).2 ⊆ temps w ∖ {[AppPath t]}.
Proof.
  intros Ht. unfold rollbackOnErr. rewrite decide_True by done.
  pose proof (temps_RemoveAll (AppPath t) w). pose proof (temps_removed _ w (Hremovable (AppPath t) w)). set_solver.
Qed.

Lemma closes_move c t : TargetAppPath t <> "" ->
  keep (MoveAppDirectory c t) /\
  forall w t' w', MoveAppDirectory c t w = (Ok t', w') -> temps w' ⊆ temps w ∖ {[AppPath t]}.
Proof.
  intros Ht. unfold MoveAppDirectory. rewrite decide_False by done. split; [keeps|]. intros w t' w'.
  rewrite io_bind_ask.
  intros ([] & w1 & Hx & (u & w2 & Hy & (r & w3 & Hz & [= _ <-])%io_bind_Ok)%io_bind_Ok)%io_bind_Ok.
  assert (temps w1 ⊆ temps w) as Hw1.
  { match type of Hx with ?m w = _ => assert (keep m) as Hm by keeps end. specialize (Hm w). by rewrite Hx in Hm. }
  pose proof (temps_copy_Copy (AppPath t) (TargetAppPath t) w1) as Hw2. rewrite Hy in Hw2.
  unfold attempt in Hz. pose proof (temps_RemoveAll (AppPath t) w2) as Hr.
  pose proof (temps_removed (AppPath t) w2 (Hremovable _ _)) as Hd.
  destruct (os_RemoveAll (AppPath t) w2) as [r' w4]. injection Hz as _ <-. cbn in *. set_solver.
Qed.

(** From the creation of the directory on. *)
Lemma closes_steps c before after t :
  Forall inner_step before -> Forall inner_step after -> AppPath t <> "" -> TargetAppPath t <> "" ->
  closes (AppPath t) (run_steps (before ++ MoveAppDirectory c :: after) t).
Proof.
  intros Hb Ha. revert t. induction Hb as [|step before Hstep Hb IH]; intros t Hp Ht w; cbn [app run_steps].
  - destruct (closes_move c t Ht) as [Hk Hc]. specialize (Hk w). specialize (Hc w).
    destruct (MoveAppDirectory c t w) as [[t'|e] w1]; cbn in *.
    + specialize (Hc _ _ eq_refl). pose proof (keeps_run_steps after t' Ha w1). set_solver.
    + pose proof (closes_rollback t w1 Hp). set_solver.
  - destruct (Hstep t) as [Hk He]. specialize (Hk w). specialize (He w).
    destruct (step t w) as [[t'|e] w1]; cbn in *.
    + destruct (He _ _ eq_refl) as [Ep Et]. rewrite <- Ep, <- Et in *. specialize (IH t' Hp Ht w1). set_solver.
    + pose proof (closes_rollback t w1 Hp). set_solver.
Qed.

Definition steps_before (c : CreateCtx) : list (TemplateCtx -> io W TemplateCtx) :=
  [CopyAppTemplate read_archive TemplatesFs FileModes c; LoadManifest unmarshal decode_manifest c;
   CollectTemplateVarsFromUser MatchPattern c; create_RunHook true c; RenderTemplate parse_template execute c;
   create_RunHook false c; Cleanup parse_template execute c].
Definition steps_after (dir : string) (c : CreateCtx) : list (TemplateCtx -> io W TemplateCtx) :=
  [CreateAppSymlink dir c; PrintFollowUpMessage parse_template execute c].

Lemma steps_before_inner c : Forall inner_step (steps_before c).
Proof.
  repeat (apply Forall_cons_2;
    [first [apply CopyAppTemplate_inner|apply LoadManifest_inner|apply CollectTemplateVars_inner
           |apply create_RunHook_inner|apply RenderTemplate_inner|apply Cleanup_inner]|]).
  apply Forall_nil_2.
Qed.

Lemma steps_after_inner dir c : Forall inner_step (steps_after dir c).
Proof.
  apply Forall_cons_2; [apply CreateAppSymlink_inner|]. apply Forall_cons_2; [apply PrintFollowUpMessage_inner|].
  apply Forall_nil_2.
Qed.

Lemma Abs_ne w path dir : path <> "" -> Abs w path = Ok dir -> dir <> "".
Proof.
  intros Hp. unfold Abs. destruct (IsAbs path); [intros [= <-]; apply Clean_ne|].
  destruct (Getwd w) as [wd|e]; [|done]. intros [= <-]. by apply Join_ne.
Qed.

Lemma temp_step c t w :
  match CreateTemporaryAppDirectory c t w with
  | (Ok t', w') => AppPath t' <> "" /\ TargetAppPath t' <> "" /\ temps w' ⊆ {[AppPath t']} ∪ temps w
  | (Err _, w') => temps w' ⊆ temps w
  end.
Proof.
  unfold CreateTemporaryAppDirectory. destruct (decide (AppName c = "")) as [Hn|Hn]; [by cbn|].
  rewrite io_bind_ask. fold (app_dir c). destruct (is_ok _ && _); [by cbn|]. rewrite io_bind_look. destruct (Abs w (app_dir c)) as [dir|e] eqn:Ea; [|by cbn].
  assert (dir <> "") as Hd.
  { eapply Abs_ne; [|exact Ea]. unfold app_dir. case_decide; by apply Join_ne. }
  unfold io_bind, io_wrap. pose proof (temps_made (AppName c +:+ "*") w) as Hm.
  destruct (os_MkdirTemp (AppName c +:+ "*") w) as [[tmp|e] w1]; cbn in *; [|by cbn].
  by destruct Hm as [Htmp Hw].
Qed.

(** C17: Whatever template tt create is given and at whatever step it fails,
    when temporary directories can be removed it leaves none that was not
    there before. *)
Theorem create_leaves_no_directory cliOpts c w : temps (create_Run cliOpts c w).2 ⊆ temps w.
Proof.
  unfold Create.create_Run. destruct (checkCtx c) as [err|]; [done|]. rewrite io_bind_look.
  destruct (opts_Env cliOpts) as [env|]; [|done]. cbn [deref]. unfold stepsChain.
  edestruct (run_pure (SetPredefinedVariables c)) as [[e ->]|(t1 & Ht1 & ->)];
    [apply SetPredefinedVariables_pure|reflexivity|done|].
  edestruct (run_pure (LoadVarsFile c)) as [[e ->]|(t2 & Ht2 & ->)]; [apply LoadVarsFile_pure|exact Ht1|done|].
  edestruct (run_pure (FillTemplateVarsFromCli c)) as [[e ->]|(t3 & Ht3 & ->)];
    [apply FillTemplateVarsFromCli_pure|exact Ht2|done|].
  cbn [run_steps]. pose proof (temp_step c t3 w) as Ht.
  destruct (CreateTemporaryAppDirectory c t3 w) as [[t|e] w1].
  - destruct Ht as (Hp & Htp & Hw).
    pose proof (closes_steps c (steps_before c) (steps_after (env_InstancesEnabled env) c) t
                  (steps_before_inner c) (steps_after_inner _ c) Hp Htp w1) as Hc.
    unfold steps_before, steps_after in Hc. cbn [app] in Hc. set_solver.
  - cbn. unfold rollbackOnErr. rewrite Ht3. done.
Qed.
End create.

(** ** Samples

    Templates are texts without actions, patterns are texts to be equal to. *)
Definition plain_execute (text : string) (_ : gmap string string) : string * option error := (text, None).
Definition equal_pattern (pattern value : string) : result bool := Ok (bool_decide (pattern = value)).

Definition sample_create (force : bool) : CreateCtx :=
  mkCreateCtx "app" "/home/u" "" ["/templates"] "cartridge" ["size=3"] force true "" None.

Definition sample_opts : CliOpts :=
  mkCliOpts (Some (mkTtEnvOpts "bin" "include" "/home/u/instances.enabled" false false)) None None None [] None.

Definition sample_run (force : bool) : result unit * depot :=
  create_Run Ok plain_execute equal_pattern (fun _ => Ok ∅) (fun _ => Err ErrNotExist) (fun _ _ => Err ErrNotExist)
    [] ∅ sample_opts (sample_create force) depot0.

Lemma existing_app_untouched_witness : exists e, sample_run false = (Err e, depot0).
Proof.
  exact (existing_app_untouched Ok plain_execute equal_pattern (fun _ => Ok ∅) (fun _ => Err ErrNotExist)
    (fun _ _ => Err ErrNotExist) [] ∅ sample_opts (sample_create false) depot0 eq_refl eq_refl
    ltac:(discriminate)).
Defined.

Lemma create_leaves_no_directory_witness :
  is_ok (sample_run true).1 = true /\ dp_next (sample_run true).2 = 1%nat /\
  temps (sample_run true).2 ⊆ temps depot0.
Proof.
  split; [vm_compute; reflexivity|]. split; [vm_compute; reflexivity|].
  apply (create_leaves_no_directory Ok plain_execute equal_pattern (fun _ => Ok ∅) (fun _ => Err ErrNotExist)
    (fun _ _ => Err ErrNotExist) [] ∅). done.
Defined.

Definition sample_manifest : TemplateManifest :=
  mkTemplateManifest "" [mkUserPrompt "Size" "size" "" "3"; mkUserPrompt "Mode" "mode" "rw" "rw"] "" "" ["keep.lua"] "".

Lemma collected_vars_fit_witness :
  exists t' w', CollectTemplateVarsFromUser equal_pattern (sample_create true)
      (mkTemplateCtx "/tmp/a" "/home/u/app" (Some sample_manifest) {["size" := "3"; "name" := "app"]}) depot0
    = (Ok t', w') /\ tc_Vars t' !! "size" = Some "3" /\ tc_Vars t' !! "name" = Some "app" /\ w' = depot0.
Proof.
  eexists _, _. split; [reflexivity|].
  destruct (collected_vars_fit equal_pattern (sample_create true)
    (mkTemplateCtx "/tmp/a" "/home/u/app" (Some sample_manifest) {["size" := "3"; "name" := "app"]}) sample_manifest
    depot0 _ _ eq_refl ltac:(repeat constructor; set_solver) eq_refl) as (_ & Hkept & Hother & Hw).
  split; [|split].
  - apply (Hkept (mkUserPrompt "Size" "size" "" "3")); [by left|reflexivity|reflexivity].
  - rewrite Hother; [reflexivity|]. set_solver.
  - by apply Hw.
Defined.

(** ** Directories that are left empty

    [os.Remove] refuses a directory that is not empty, and the directories are removed in
    the order of the walk, the outer one first: of two nested directories that lose their
    files the outer one stays. *)
#[local] Instance sample_trees : Trees machine := {
  os_Lstat m path := rmap (info path) (find_node m "lstat" false path);
  os_Mkdir path _ m := mkdir m path;
  os_Chmod _ _ m := (Ok tt, m);
  os_Rename _ _ m := (Err EINVAL, m)
}.

Definition nested : machine :=
  mkMachine (list_to_map [(["app"], NDir); (["app"; "keep.lua"], NFile "" 420); (["app"; "a"], NDir);
                          (["app"; "a"; "b"], NDir); (["app"; "a"; "b"; "f"], NFile "" 420)])
    "/" (fun _ => "") (fun p => Ok p) (Ok "/tt") (fun _ _ => None) (fun _ => false).

Theorem cleanup_leaves_empty_directory :
  let m := (Cleanup Ok plain_execute (sample_create false) (mkTemplateCtx "/app" "" (Some sample_manifest) ∅) nested).2 in
  m_disk m !! ["app"; "a"] = Some NDir /\ m_disk m !! ["app"; "a"; "b"] = None /\
  m_disk m !! ["app"; "a"; "b"; "f"] = None /\ m_disk m !! ["app"; "keep.lua"] = Some (NFile "" 420).
Proof. split_and!; vm_compute; reflexivity. Qed.

(** An archive may write outside of the directory it is extracted to. *)
Theorem extraction_escapes :
  dp_files (ExtractTarGz (fun _ _ => Ok ([AFile "../../etc/passwd" 420 "x"], None)) "t.tgz" "/tmp/app" depot0).2
    !! "/etc/passwd" = Some "x".
Proof. vm_compute. reflexivity. Qed.
