(* ===== verification/Commands.v ===== *)
(** * Initialising an environment ([cli/init/init.go], [cli/cmd/init.go])

    The configuration of a cartridge application or of tarantoolctl in the current
    directory, the [tt.yaml] that is written, and the directories it names.  The
    decoder of the cartridge configuration, the run of tarantool and the template
    of [tt.yaml] are parameters. *)
From S2P Require Import Prelude GoStrings GoPath GoOs GoFs Regexp Value Cluster Configure Version.
From S2P Require Import ProcessUtils Install Running Instances Control.
Local Open Scope Z_scope.
Local Open Scope io_scope.
Local Open Scope go_scope.

Record InitCtx := mkInitCtx { SkipConfig : bool; init_ForceMode : bool; init_TarantoolExecutable : string }.

Record cartridgeOpts := mkCartridgeOpts { cart_LogDir : string; cart_RunDir : string; cart_DataDir : string }.

Record configData := mkConfigData {
  instancesEnabled : string; logDir : string; runDir : string; walDir : string; vinylDir : string;
  memtxDir : string; tarantoolctlLayout : bool
}.
Definition no_config : configData := mkConfigData "" "" "" "" "" "" false.

Section Init.
Context {W : Type} `{OS W, Files W, Host W}.
Context (unmarshal : string -> result (gmap string value)).
Context (decode_cartridge : gmap string value -> result cartridgeOpts).
(** A run of a program with its input and arguments: what it writes and how it ends. *)
Context (run_output : W -> string -> string -> string -> list string -> string * option error).
Context (printTarantoolctlCfgLua : string) (render_tt_yaml : CliOpts -> result string).

Definition loadCartridgeConfig (w : W) (configPath : string) : result configData :=
  raw <-? rwrap "failed to parse cartridge app configuration: %s" [] (ParseYAML unmarshal w configPath);;
  c <-? rwrap "failed to parse cartridge app configuration: %s" [] (decode_cartridge raw);;
  Ok (mkConfigData "" (cart_LogDir c) (cart_RunDir c) (cart_DataDir c) (cart_DataDir c) (cart_DataDir c) false).

(** [util.ExecuteCommandGetOutput] in the current directory. *)
Definition ExecuteCommandGetOutput (w : W) (program stdinData : string) (args : list string)
    : string * option error :=
  match Getwd w with
  | Err e => ("", Some e)
  | Ok workDir => run_output w program workDir stdinData args
  end.

(** A value that is not a string panics. *)
Definition dir_value (raw : gmap string value) (varName : string) : result string :=
  match raw !! varName with
  | None | Some VNil => Ok ""
  | Some (VStr s) => Ok s
  | Some _ => Err (Errorf "panic: interface conversion" [])
  end.

Definition loadTarantoolctlConfig (w : W) (executable configPath : string) : result configData :=
  if decide (executable = "") then Err (Errorf "tarantool executable is not set" [])
  else
    match ExecuteCommandGetOutput w executable printTarantoolctlCfgLua ["-"; configPath] with
    | (out, Some _) => Err (Errorf "tarantoolctl config loading error: %s" [out])
    | (out, None) =>
        raw <-? rwrap "failed to parse YAML: %s" [] (unmarshal out);;
        wal <-? dir_value raw "wal_dir";;
        vinyl <-? dir_value raw "vinyl_dir";;
        memtx <-? dir_value raw "memtx_dir";;
        log <-? dir_value raw "log_dir";;
        run <-? dir_value raw "pid_file";;
        enabled <-? dir_value raw "instance_dir";;
        Ok (mkConfigData enabled log run wal vinyl memtx true)
    end.

Definition createDirectories (dirList : list string) : io W unit :=
  io_for (fun dirName => if decide (dirName = "") then ret tt else CreateDirectory dirName 488) dirList.

(** The default options with what the old configuration sets. *)
Definition env_of (sourceCfg : configData) : CliOpts :=
  let or new old := if decide (new <> "") then new else old in
  let d := GetDefaultCliOpts in
  mkCliOpts
    ((fun e => mkTtEnvOpts (env_BinDir e) (env_IncludeDir e) (or (instancesEnabled sourceCfg) (env_InstancesEnabled e))
                 (env_Restartable e) (tarantoolctlLayout sourceCfg)) <$> opts_Env d)
    (opts_Modules d)
    ((fun a => mkAppOpts (or (runDir sourceCfg) (app_RunDir a)) (or (logDir sourceCfg) (app_LogDir a))
                 (or (walDir sourceCfg) (app_WalDir a)) (or (memtxDir sourceCfg) (app_MemtxDir a))
                 (or (vinylDir sourceCfg) (app_VinylDir a))) <$> opts_App d)
    (opts_EE d) (opts_Templates d) (opts_Repo d).

Definition env_directories (cfg : CliOpts) : result (list string) :=
  env <-? deref (opts_Env cfg);;
  modules <-? deref (opts_Modules cfg);;
  repo <-? deref (opts_Repo cfg);;
  Ok ([env_InstancesEnabled env; mod_Directory modules; env_IncludeDir env; env_BinDir env; repo_Install repo]
      ++ map tmpl_Path (opts_Templates cfg)).

Definition generateTtEnv (configPath : string) (sourceCfg : configData) : io W unit :=
  let cfg := env_of sourceCfg in
  ttYamlContent <- look (fun _ => render_tt_yaml cfg) ;;
  os_WriteFile configPath ttYamlContent 420 ;;;
  directoriesToCreate <- look (fun _ => env_directories cfg) ;;
  createDirectories directoriesToCreate.

(** The name of the file to write; empty when the user does not want it. *)
Definition checkExistingConfig (initCtx : InitCtx) : io W string :=
  configName <- look (fun w => GetYamlFileName w ConfigName false) ;;
  if decide (configName = "") then ret ConfigName
  else
    stat <- ask (fun w => Stat w configName) ;;
    match stat with
    | Ok _ =>
        if init_ForceMode initCtx then os_Remove configName ;;; ret configName
        else
          confirmed <- confirm (configName +:+ " already exists. Overwrite?") ;;
          if confirmed : bool then os_Remove configName ;;; ret configName else ret ""
    | Err err => if IsNotExist err then ret configName else throw err
    end.

(** The first configuration that is there; a file that cannot be looked at counts as
    one. *)
Fixpoint load_existing (loaders : list (string * (W -> string -> result configData))) (w : W) : result configData :=
  match loaders with
  | [] => Ok no_config
  | (name, load) :: loaders =>
      match Stat w name with
      | Err err => if IsNotExist err then load_existing loaders w else load w name
      | Ok _ => load w name
      end
  end.

Definition init_Run (initCtx : InitCtx) : io W unit :=
  configName <- checkExistingConfig initCtx ;;
  if decide (configName = "") then ret tt
  else
    sourceCfg <- look (fun w =>
      if SkipConfig initCtx then Ok no_config
      else load_existing
             [(".cartridge.yml", loadCartridgeConfig);
              (".tarantoolctl", fun w => loadTarantoolctlConfig w (init_TarantoolExecutable initCtx))] w) ;;
    isApp <- ask (fun w => IsApp w ".") ;;
    let sourceCfg :=
      if negb isApp && bool_decide (instancesEnabled sourceCfg = "")
      then mkConfigData InstancesEnabledDirName (logDir sourceCfg) (runDir sourceCfg) (walDir sourceCfg)
             (vinylDir sourceCfg) (memtxDir sourceCfg) (tarantoolctlLayout sourceCfg)
      else sourceCfg in
    generateTtEnv configName sourceCfg.

Definition internalInitModule (ctx : CmdCtx) (skipConfig force : bool) : io W unit :=
  init_Run (mkInitCtx skipConfig force (ctx_Executable ctx)).

(** An answer that declines leaves everything but the input as it is. *)
Lemma init_declined initCtx w name line rest :
  GetYamlFileName w ConfigName false = Ok name -> name <> "" -> is_ok (Stat w name) = true ->
  init_ForceMode initCtx = false -> stdin w = line :: rest -> AskConfirm (stdin w) = (Ok false, rest) ->
  init_Run initCtx w = (Ok tt, set_stdin rest w).
Proof.
  intros Hn Hne Hs Hf Hin Ha. unfold init_Run, checkExistingConfig. unfold io_bind at 1. rewrite io_bind_look, Hn.
  rewrite decide_False by done. rewrite io_bind_ask. destruct (Stat w name); [|done]. rewrite Hf.
  unfold io_bind, confirm. by rewrite Ha.
Qed.

(** The old configuration is removed before the one of the application is read: when that
    fails it is gone. *)
Lemma init_loses_config initCtx w name w1 e :
  GetYamlFileName w ConfigName false = Ok name -> name <> "" -> is_ok (Stat w name) = true ->
  init_ForceMode initCtx = true -> SkipConfig initCtx = false -> os_Remove name w = (Ok tt, w1) ->
  is_ok (Stat w1 ".cartridge.yml") = true -> loadCartridgeConfig w1 ".cartridge.yml" = Err e ->
  init_Run initCtx w = (Err e, w1).
Proof.
  intros Hn Hne Hs Hf Hk Hr Hc Hl. unfold init_Run, checkExistingConfig. unfold io_bind at 1. rewrite io_bind_look, Hn.
  rewrite decide_False by done. rewrite io_bind_ask. destruct (Stat w name); [|done]. rewrite Hf.
  unfold io_bind at 1. rewrite Hr. cbn [ret]. rewrite decide_False by done. rewrite io_bind_look, Hk.
  cbn [load_existing]. destruct (Stat w1 ".cartridge.yml"); [|done]. by rewrite Hl.
Qed.
End Init.

(** * Smaller commands: coredump, cat, play, enable, instances, env, and modules
    ([cli/coredump], [cli/checkpoint], [cli/enable], [cli/instances], [cli/env],
    [cli/modules], [cli/cmd/cat.go], [play.go], [enable.go], [instances.go],
    [env.go])

    The embedded scripts, the runs of programs that write to the terminal and the
    encoder of JSON are parameters. *)
From S2P Require Import Tarantool ClusterGet Uri History InstanceCmds Create.
Local Open Scope Z_scope.
Local Open Scope io_scope.
Local Open Scope go_scope.

Section Commands.
Context {W : Type} `{OS W, Files W, Trees W, Host W, Processes W} `{Yaml, !Services W, GoMapOrder}.
(** What an integrity check reads, the parser of YAML and the collectors of configurations. *)
Context (Read : W -> string -> option error).
Context (unmarshal : string -> result (gmap string value)) (collectors : CollectorFactory W).

(** ** Core dumps ([coredump.go]) *)
Definition packEmbedPath : string := "scripts/tarabrt.sh".
Definition inspectEmbedPath : string := "scripts/gdb.sh".

Context (corescripts : string -> result string) (extensions : result (list (string * string))).
Context (read_archive : W -> string -> result (list archive_entry * option error)).

(** [util.FsCopyFileChangePerms] of a file that was read. *)
Definition FsCopyFileChangePerms (data : result string) (dst : string) (perms : Z) : io W unit :=
  data <- look (fun _ => data) ;;
  os_WriteFile dst data perms.

Fixpoint put_extensions (tmpDir : string) (l : list (string * string)) : io W (list string) :=
  match l with
  | [] => ret []
  | (name, content) :: l =>
      let extDst := filepath_Join [tmpDir; name] in
      io_wrap "failed to put GDB-extension into the archive: %v" [] (FsCopyFileChangePerms (Ok content) extDst 420) ;;;
      args <- put_extensions tmpDir l ;;
      ret ("-x" :: extDst :: args)
  end.

Definition coredump_Pack (corePath : string) : io W unit :=
  tmpDir <- io_wrap "cannot create a temporary directory for archiving: %v" [] (os_MkdirTemp "tt-coredump-*") ;;
  finally (os_RemoveAll tmpDir) (
    let inspectPath := filepath_Join [tmpDir; path_Base inspectEmbedPath] in
    io_wrap "failed to put the inspecting script into the archive: %v" []
      (FsCopyFileChangePerms (corescripts inspectEmbedPath) inspectPath 493) ;;;
    extEntries <- io_wrap "failed to find embedded GDB-extensions: %v" [] (look (fun _ => extensions)) ;;
    extArgs <- put_extensions tmpDir extEntries ;;
    script <- io_wrap "failed to open pack script: %v" [] (look (fun _ => corescripts packEmbedPath)) ;;
    io_wrap "pack script execution failed: %v" []
      (run_program "bash" "" (["-s"; "--"; "-c"; corePath; "-g"; inspectPath] ++ extArgs) script)).

Definition coredump_Unpack (archivePath : string) : io W unit :=
  io_wrap "failed to unpack: %v" [] (ExtractTarGz read_archive archivePath ".").

(** The script of the directory, or the embedded one. *)
Definition run_inspect (dir sourceDir : string) : io W unit :=
  let scriptPath := filepath_Join [dir; path_Base inspectEmbedPath] in
  stat <- ask (fun w => Stat w scriptPath) ;;
  io_wrap "failed to find inspect script: %v" []
    match stat with
    | Ok _ => ret tt
    | Err err => if Is_ErrNotExist err then FsCopyFileChangePerms (corescripts inspectEmbedPath) scriptPath 493
                 else throw err
    end ;;;
  io_wrap "inspect script execution failed: %v" []
    (run_program scriptPath "" (if decide (sourceDir = "") then [] else ["-s"; sourceDir]) "").

Definition coredump_Inspect (archiveOrDir sourceDir : string) : io W unit :=
  stat <- io_wrap "failed to inspect: %v" [] (look (fun w => Stat w archiveOrDir)) ;;
  if IsDir_info stat then run_inspect archiveOrDir sourceDir
  else
    tmpDir <- io_wrap "cannot create a temporary directory for unpacking: %v" [] (os_MkdirTemp "tt-coredump-*") ;;
    finally (os_RemoveAll tmpDir) (
      io_wrap "failed to unpack: %v" [] (ExtractTarGz read_archive archiveOrDir tmpDir) ;;;
      let dir := List.hd "" (Split (path_Base archiveOrDir) ".") in
      run_inspect (filepath_Join [tmpDir; dir]) sourceDir).

(** ** Files of checkpoints ([checkpoint.go], [cat.go], [play.go]) *)
Record Opts := mkOpts {
  To : Z; From : Z; Space : option (list Z); Format : string; Replica : option (list Z); ShowSystem : bool
}.

(** Tarantool with a script on its input, and what it writes to the standard error of
    a [play]. *)
Context (catFile playFile : string) (run_play : string -> io W string).
Context (json_strings : list string -> string) (json_ints : list Z -> string).

Definition Cat (executable : string) : io W unit :=
  io_wrap "result of cat: %w" [] (run_program executable "" ["-"] catFile).

(** The status of the process is not looked at. *)
Definition Play (executable : string) : io W unit :=
  errbuff <- attempt (run_play executable) ;;
  match errbuff with
  | Err _ => throw (Errorf "result of play: %s" [""])
  | Ok errbuff =>
      if decide (0 < String.length errbuff)%nat then throw (Errorf "result of play: %s" [errbuff]) else ret tt
  end.

Definition FormatBool (b : bool) : string := if b then "true" else "false".

Definition setenv (k v : string) : io W unit := attempt (os_Setenv k v) ;;; ret tt.
Definition setenv_ints (k : string) (l : option (list Z)) : io W unit :=
  match l with Some l => setenv k (json_ints l) | None => ret tt end.

Definition internalCatModule (ctx : CmdCtx) (flags : Opts) (args : list string) : io W unit :=
  match args with
  | [] => throw (Errorf "it is required to specify at least one .xlog or .snap file" [])
  | _ =>
      setenv "TT_CLI_CAT_FILES" (json_strings args) ;;;
      setenv "TT_CLI_CAT_SHOW_SYS" (FormatBool (ShowSystem flags)) ;;;
      setenv "TT_CLI_CAT_FORMAT" (Format flags) ;;;
      setenv_ints "TT_CLI_CAT_SPACES" (Space flags) ;;;
      setenv "TT_CLI_CAT_FROM" (FormatUint (From flags)) ;;;
      setenv "TT_CLI_CAT_TO" (FormatUint (To flags)) ;;;
      setenv_ints "TT_CLI_CAT_REPLICAS" (Replica flags) ;;;
      Cat (ctx_Executable ctx)
  end.

(** The credentials of [play]: the flags, or the environment for a target without any. *)
Definition play_credentials (w : W) (uri username password : string) : result (string * string) :=
  if IsCredentialsURI uri then
    if bool_decide (username <> "") || bool_decide (password <> "") then
      Err (Errorf "username and password are specified with flags and a URI" [])
    else Ok (username, password)
  else
    Ok (if decide (username = "") then Getenv w "TT_CLI_USERNAME" else username,
        if decide (password = "") then Getenv w "TT_CLI_PASSWORD" else password).

Definition internalPlayModule (ctx : CmdCtx) (flags : Opts) (username password : string) (args : list string)
    : io W unit :=
  match args with
  | uri :: _ :: _ =>
      creds <- look (fun w => play_credentials w uri username password) ;;
      setenv "TT_CLI_PLAY_FILES_AND_URI" (json_strings args) ;;;
      (if decide (creds.1 <> "") then setenv "TT_CLI_PLAY_USERNAME" creds.1 else ret tt) ;;;
      (if decide (creds.2 <> "") then setenv "TT_CLI_PLAY_PASSWORD" creds.2 else ret tt) ;;;
      setenv "TT_CLI_PLAY_SHOW_SYS" (FormatBool (ShowSystem flags)) ;;;
      setenv_ints "TT_CLI_PLAY_SPACES" (Space flags) ;;;
      setenv "TT_CLI_PLAY_FROM" (FormatUint (From flags)) ;;;
      setenv "TT_CLI_PLAY_TO" (FormatUint (To flags)) ;;;
      setenv_ints "TT_CLI_PLAY_REPLICAS" (Replica flags) ;;;
      Play (ctx_Executable ctx)
  | _ => throw (Errorf "it is required to specify an URI and at least one .xlog or .snap file" [])
  end.

(** ** Enabling ([enable.go]) *)
Definition Enable (path : string) (enabled : string) : io W unit :=
  stat <- ask (fun w => Stat w enabled) ;;
  (match stat with
   | Err err => if IsNotExist err
                then io_wrap "unable to create %q
 Error: %s" [enabled] (os_MkdirAll enabled 493) else ret tt
   | Ok _ => ret tt
   end) ;;;
  path <- look (fun w => Abs w path) ;;
  pathInfo <- io_wrap "cannot get info of %q: %s" [path] (look (fun w => Stat w path)) ;;
  isApp <- ask (fun w => IsApp w path) ;;
  if IsDir_info pathInfo && negb isApp then throw (Errorf "directory %q is not an application" [path])
  else if negb (IsDir_info pathInfo) && bool_decide (path_Ext path <> ".lua") then
    throw (Errorf "script %q does not have '.lua' extension" [path])
  else CreateSymlink path (filepath_Join [enabled; path_Base path]) true.

Definition internalEnableModule (cliOpts : CliOpts) (args : list string) : io W unit :=
  match args with
  | [path] =>
      env <- look (fun _ => deref (opts_Env cliOpts)) ;;
      if decide (env_InstancesEnabled env = ".") then
        throw (Errorf "enabling application for instances enabled '.' is not supported" [])
      else Enable path (env_InstancesEnabled env)
  | _ => throw (Errorf "provide the path to a script or application directory" [])
  end.

(** ** The list of applications ([list.go]) *)

(** An application with its location, and its instances with their scripts. *)
Definition list_app (app : string * list InstanceCtx) : option (string * string * list (string * string)) :=
  match app.2 with
  | [] => None
  | inst :: _ =>
      let appLocation := path_Base (GetAppPath inst) +:+ if run_IsFileApp inst then "/" else "" in
      Some (app.1, appLocation,
            omap (fun i =>
              if decide (GetAppInstanceName i <> app.1)
              then Some (run_InstName i, if decide (run_InstanceScript i <> "") then path_Base (run_InstanceScript i)
                                         else "")
              else None) app.2)
  end.

Definition ListInstances (ctx : CmdCtx) (cliOpts : CliOpts) : io W (list (string * string * list (string * string))) :=
  env <- look (fun _ => deref (opts_Env cliOpts)) ;;
  isDir <- ask (fun w => IsDir w (env_InstancesEnabled env)) ;;
  if negb isDir then throw (Errorf "instances enabled directory doesn't exist" [])
  else
    appList <- io_wrap "can't collect applications list: %s" []
                 (look (fun w => CollectAppList w (ctx_ConfigDir ctx) (env_InstancesEnabled env))) ;;
    applications <- CollectInstancesForApps Read unmarshal collectors appList cliOpts (ctx_ConfigDir ctx) ;;
    ret (omap list_app (range_map applications)).

Definition internalInstancesModule (ctx : CmdCtx) (cliOpts : CliOpts)
    : io W (list (string * string * list (string * string))) :=
  if negb (isConfigExist ctx) then throw errNoConfig else ListInstances ctx cliOpts.

(** ** The environment of a shell ([env.go]) *)
Definition CreateEnvString (w : W) (env : TtEnvOpts) : string :=
  let path := Getenv w "PATH" in
  let path := if Contains path (env_BinDir env) then path else env_BinDir env +:+ ":" +:+ path in
  "export PATH=" +:+ path +:+ nl +:+ "export TARANTOOL_DIR=" +:+ filepath_Join [env_IncludeDir env; "include"] +:+ nl.

(** ** Modules ([modules.go], [run.go]) *)
Record ModuleInfo := mkModuleInfo { IsInternal : bool; ExternalPath : string }.

(** A command with its subcommands; their paths are those of cobra. *)
Inductive command := mkCommand (path : string) (subCommands : list command).

Fixpoint fillSubCommandsInfo (cmd : command) (modulesInfo : gmap string ModuleInfo) : gmap string ModuleInfo :=
  match cmd with
  | mkCommand _ subCommands =>
      fold_left (fun modulesInfo subCmd =>
        match subCmd with
        | mkCommand commandPath _ =>
            match modulesInfo !! commandPath with
            | Some _ => modulesInfo
            | None => fillSubCommandsInfo subCmd (<[commandPath := mkModuleInfo true ""]> modulesInfo)
            end
        end) subCommands modulesInfo
  end.

Definition getExternalModulesDir (w : W) (configPath : string) (cliOpts : CliOpts) : result string :=
  match Stat w configPath with
  | Err err =>
      if IsNotExist err then Ok "" else Err (Wrapf "failed to get access to configuration file: %s" [] err)
  | Ok _ =>
      match opts_Modules cliOpts with
      | None => Ok ""
      | Some modules =>
          match Stat w (mod_Directory modules) with
          | Ok info => if IsDir_info info then Ok (mod_Directory modules)
                       else Err (Errorf "specified path in configuration file is not a directory" [])
          | Err _ => Ok (mod_Directory modules)
          end
      end
  end.

Definition getExternalModules (w : W) (path : string) : result (gmap string string) :=
  let failed err := Err (Wrapf "failed to read %s directory: %s" [path] err) in
  match Stat w path with
  | Err err => if IsNotExist err then Ok ∅ else failed err
  | Ok _ =>
      match GoOs.ReadDir w path with
      | Err err => failed err
      | Ok files =>
          Ok (fold_left (fun modules f =>
            match LookPath w (filepath_Join [path; f]) with
            | Ok path => <[List.hd "" (Split f ".") := path]> modules
            | Err _ => modules
            end) files ∅)
      end
  end.

Definition GetModulesInfo (w : W) (configPath : string) (cliOpts : CliOpts) (rootName : string) (rootCmd : command)
    : result (gmap string ModuleInfo) :=
  modulesDir <-? getExternalModulesDir w configPath cliOpts;;
  externalModules <-? rwrap "failed to get available external modules information: %s" []
                        (getExternalModules w modulesDir);;
  Ok (fillSubCommandsInfo rootCmd
        (fold_left (fun m e => <[rootName +:+ " " +:+ e.1 := mkModuleInfo false e.2]> m)
           (range_map externalModules) ∅)).

(** How a command ends: with what the internal module returns, or with the code that tt
    exits with. *)
Inductive run_outcome := Returned (r : result unit) | Exited (code : Z).

(** How a run of a program on the terminal of tt ends: [None] without an error. *)
Inductive exec_error := ExitError (code : Z) | OtherError (err : error).
Context (exec_Run : string -> list string -> W -> option exec_error * W).

Definition RunExec (command : string) (args : list string) (w : W) : Z * W :=
  let '(err, w) := exec_Run command args w in
  match err with
  | None => (0, w)
  | Some (ExitError code) => (code, w)
  | Some (OtherError _) => (1, w)
  end.

(** What a module writes about itself. *)
Context (exec_Output : string -> list string -> W -> string * option error).
Definition GetExternalModuleHelp (modulePath : string) (w : W) : string * option error :=
  exec_Output modulePath ["--help"] w.
Definition GetExternalModuleDescription (modulePath : string) (w : W) : string * option error :=
  exec_Output modulePath ["--description"] w.

Definition RunCmd (forceInternal : bool) (cmdPath : string) (modulesInfo : gmap string ModuleInfo)
    (internal : list string -> io W unit) (args : list string) (w : W) : run_outcome * W :=
  match modulesInfo !! cmdPath with
  | None => (Returned (Err (Errorf "module with specified name %s isn't found" [cmdPath])), w)
  | Some info =>
      if IsInternal info || forceInternal then
        let '(r, w) := internal args w in (Returned r, w)
      else
        match Read w (ExternalPath info) with
        | Some err => (Returned (Err (Wrapf "integrity check failed for %q: %w" [ExternalPath info] err)), w)
        | None =>
            let '(rc, w) := RunExec (ExternalPath info) args w in
            if rc =? 0 then (Returned (Ok tt), w) else (Exited rc, w)
        end
  end.

(** The arguments after the name of the command; all of them when it is not there. *)
Definition GetDefaultCmdArgs (osArgs : list string) (cmdName : string) : list string :=
  drop (Z.to_nat (Find osArgs cmdName + 1)) osArgs.

(** ** Facts on modules *)

(** Registering subcommands keeps what is registered. *)
Fixpoint fillSubCommandsInfo_keeps (cmd : command) :
  forall m k i, m !! k = Some i -> fillSubCommandsInfo cmd m !! k = Some i.
Proof.
  destruct cmd as [path subs]. cbn [fillSubCommandsInfo]. induction subs as [|sub subs IH]; [done|].
  intros m k i Hk. cbn [fold_left]. apply IH. pose proof (fillSubCommandsInfo_keeps sub) as Hsub.
  destruct sub as [p l]. destruct (m !! p) eqn:Hp; [done|].
  apply Hsub. rewrite lookup_insert_ne; [done|congruence].
Qed.

Lemma module_names_differ rootName (modules : gmap string string) :
  NoDup ((fun e => rootName +:+ " " +:+ e.1) <$> range_map modules).
Proof.
  change (fun e : string * string => rootName +:+ " " +:+ e.1)
    with ((fun n => rootName +:+ " " +:+ n) ∘ (fst : string * string -> string)).
  rewrite list_fmap_compose. apply NoDup_fmap_2.
  - intros x y Hxy. apply (inj (String.append rootName)) in Hxy; by injection Hxy.
  - rewrite (range_map_perm modules : _ ≡ₚ _). apply NoDup_fst_map_to_list.
Qed.

(** An external module takes the place of the command of its name. *)
Theorem external_module_first w configPath cliOpts rootName rootCmd dir modules name path info :
  getExternalModulesDir w configPath cliOpts = Ok dir -> getExternalModules w dir = Ok modules ->
  modules !! name = Some path -> GetModulesInfo w configPath cliOpts rootName rootCmd = Ok info ->
  info !! (rootName +:+ " " +:+ name) = Some (mkModuleInfo false path).
Proof.
  unfold GetModulesInfo. intros -> Hm Hn. cbn [rbind]. rewrite Hm. cbn [rwrap rbind]. intros [= <-].
  apply fillSubCommandsInfo_keeps.
  apply (proj1 (fold_insert_lookup (fun e => rootName +:+ " " +:+ e.1) (fun e => mkModuleInfo false e.2)
                  (range_map modules) ∅ (module_names_differ rootName modules)) (name, path)).
  by apply elem_of_range_map.
Qed.

(** The commands of tt under a root are all registered, unless an external module hides
    the command they belong to. *)
Lemma subcommands_registered root subs m :
  forall sub l, In (mkCommand sub l) subs -> is_Some (fillSubCommandsInfo (mkCommand root subs) m !! sub).
Proof.
  cbn [fillSubCommandsInfo]. revert m. induction subs as [|[p l'] subs IH]; intros m sub l Hin; [done|].
  cbn [fold_left]. destruct Hin as [[= -> ->]|Hin]; [|by eapply IH].
  set (m' := match m !! sub with Some _ => m | None => _ end).
  assert (exists i, m' !! sub = Some i) as [i Hi].
  { subst m'. destruct (m !! sub) eqn:Hs; [by eexists|].
    eexists. apply fillSubCommandsInfo_keeps, lookup_insert_eq. }
  exists i. apply (fillSubCommandsInfo_keeps (mkCommand root subs) m' sub i Hi).
Qed.
End Commands.
