(* ===== verification/ConnectCmd.v ===== *)
(** * Connecting to an instance ([cli/cmd/connect.go], [cli/connect/connect.go])

    What the argument of [tt connect] names, with which credentials, and the
    evaluation of a script.  The connection is a parameter (see [Connector]), and
    so is the interactive console (see [Console]). *)
From S2P Require Import Prelude GoStrings GoPath Regexp GoOs GoFs Value Config Cluster Sources Tarantool.
From S2P Require Import ClusterCmd Validators Version Uri ClusterGet Configure Install Running Replicaset Connector Formatter Console.
From S2P Require Import ProcessUtils Instances Control.
Local Open Scope Z_scope.
Local Open Scope io_scope.

Record ConnectCtx := mkConnectCtx {
  cc_Username : string; cc_Password : string; cc_SrcFile : string; cc_Language : Language; cc_Format : Format;
  cc_Ssl : SslOpts; cc_Interactive : bool; cc_ConnectTarget : string; cc_Binary : bool
}.

Definition set_credentials (user password : string) (c : ConnectCtx) : ConnectCtx :=
  mkConnectCtx user password (cc_SrcFile c) (cc_Language c) (cc_Format c) (cc_Ssl c) (cc_Interactive c)
    (cc_ConnectTarget c) (cc_Binary c).
Definition set_target (target : string) (c : ConnectCtx) : ConnectCtx :=
  mkConnectCtx (cc_Username c) (cc_Password c) (cc_SrcFile c) (cc_Language c) (cc_Format c) (cc_Ssl c)
    (cc_Interactive c) target (cc_Binary c).

Definition makeConnOpts (network address : string) (c : ConnectCtx) : ConnectOpts :=
  mkConnectOpts network address (cc_Username c) (cc_Password c) (cc_Ssl c).

Definition has_credentials (c : ConnectCtx) : bool :=
  bool_decide (cc_Username c <> "") || bool_decide (cc_Password c <> "").

Definition index_panic : error := Errorf "panic: index out of range" [].

Section ConnectCmd.
Context {W : Type} `{OS W, Yaml, !Services W, GoMapOrder, GoText}.
Context (Read : W -> string -> option error).
Context (unmarshal : string -> result (gmap string value)) (collectors : CollectorFactory W).
Context (UserHomeDir : result string).
(** A connection, its end, and the terminal. *)
Context (dial : ConnectOpts -> io W (Evaler W)) (hang_up : io W unit).
Context (is_terminal : W -> bool) (read_stdin : io W string).
Context (evalFuncBody consoleEvalFuncBody : string) (yaml_any : string -> result value).
Context (run_console : ConnectOpts -> ConnectCtx -> io W unit).

Notation fill := (fill Read unmarshal collectors).

(** ** [resolveConnectOpts] *)

(** The target is the argument unless it had credentials. *)
Definition with_target (arg : string) (c : ConnectCtx) : ConnectCtx :=
  if decide (cc_ConnectTarget c = "") then set_target arg c else c.

Definition resolve_instance (instances : list Running.InstanceCtx) (c : ConnectCtx) : result ConnectOpts :=
  match instances with
  | _ :: _ :: _ => Err (Errorf "specify instance name" [])
  | l =>
      if has_credentials c && negb (cc_Binary c) then
        Err (Errorf "username and password are not supported with a connection via a control socket" [])
      else match l with
           | i :: _ => Ok (makeConnOpts UnixNetwork (if cc_Binary c then run_BinaryPort i else run_ConsoleSocket i) c)
           | [] => Err index_panic
           end
  end.

Definition resolve_uri (w : W) (arg : string) (c : ConnectCtx) : option (result (ConnectOpts * ConnectCtx)) :=
  if IsCredentialsURI arg then
    Some (if has_credentials c then Err (Errorf "username and password are specified with flags and a URI" [])
          else
            let '(newURI, user, pass) := ParseCredentialsURI arg in
            let '(network, address) := ParseBaseURI UserHomeDir newURI in
            let c := set_credentials user pass c in
            Ok (makeConnOpts network address c, set_target newURI c))
  else if IsBaseURI arg then
    let user := if decide (cc_Username c = "") then GoOs.Getenv w TarantoolUsernameEnv else cc_Username c in
    let password := if decide (cc_Password c = "") then GoOs.Getenv w TarantoolPasswordEnv else cc_Password c in
    let '(network, address) := ParseBaseURI UserHomeDir arg in
    let c := set_credentials user password c in
    Some (Ok (makeConnOpts network address c, c))
  else None.

Definition resolveConnectOpts (cliOpts : CliOpts) (ctx : CmdCtx) (c : ConnectCtx) (args : list string)
    : io W (ConnectOpts * list string * ConnectCtx) :=
  match args with
  | [] => throw index_panic
  | arg :: newArgs =>
      filled <- attempt (fill cliOpts ctx args) ;;
      match filled with
      | Ok instances =>
          connOpts <- look (fun _ => resolve_instance instances c) ;;
          ret (connOpts, newArgs, with_target arg c)
      | Err fillErr =>
          uri <- ask (fun w => resolve_uri w arg c) ;;
          match uri with
          | Some r => oc <- look (fun _ => r) ;; ret (oc.1, newArgs, with_target arg oc.2)
          | None => throw fillErr
          end
      end
  end.

(** ** [getEvalCmd] and [Eval] *)
Definition getEvalCmd (c : ConnectCtx) : io W string :=
  if decide (cc_SrcFile c = "-") then
    terminal <- ask is_terminal ;;
    if negb terminal then read_stdin
    else throw (Errorf "can't use interactive input as a source file" [])
  else
    let cmdPath := Clean (cc_SrcFile c) in
    stat <- ask (fun w => Stat w cmdPath) ;;
    match stat with
    | Ok _ => look (fun w => GoOs.ReadFile w cmdPath)
    | Err _ => ret ""
    end.

Definition change_language (evaler : Evaler W) (lang : Language) : io W unit := fun w =>
  match ChangeLanguage (fun w cmd => evaler consoleEvalFuncBody [VStr cmd] w) yaml_any w lang with
  | (Some e, w) => (Err e, w)
  | (None, w) => (Ok tt, w)
  end.

(** The arguments of the function that evaluates the script. *)
Definition eval_args (command : string) (c : ConnectCtx) (args : list string) : list value :=
  [VStr command; VBool (bool_decide (cc_Language c = SQLLanguage))]
  ++ (if decide (cc_Language c <> DefaultLanguage) then [VBool false]
      else VBool (match cc_Format c with TableFormat | TTableFormat => true | _ => false end) :: map VStr args).

Definition connect_Eval (c : ConnectCtx) (connOpts : ConnectOpts) (args : list string) : io W string :=
  command <- getEvalCmd c ;;
  conn <- io_wrap "unable to establish connection: %s" [] (dial connOpts) ;;
  finally hang_up (
    (if decide (cc_Language c <> DefaultLanguage)
     then io_wrap "unable to change a language: %s" [] (change_language conn (cc_Language c)) else ret tt) ;;;
    response <- conn evalFuncBody (eval_args command c args) ;;
    match response with
    | VStr resYAML :: _ => look (fun _ => yaml_any resYAML) ;;; ret resYAML
    | _ :: _ => throw (Errorf "panic: interface conversion" [])
    | [] => throw index_panic
    end).

(** ** [internalConnectModule]: what it prints. *)
Definition internalConnectModule (cliOpts : CliOpts) (ctx : CmdCtx) (flags : ConnectCtx)
    (connectLanguage connectFormat : string) (args : list string) : io W (option string) :=
  match ParseLanguage connectLanguage with
  | (_, false) => throw (Errorf "unsupported language: %s" [connectLanguage])
  | (lang, true) =>
      match ParseFormat connectFormat with
      | (_, false) => throw (Errorf "unsupported output format: %s" [connectFormat])
      | (format, true) =>
          let c := mkConnectCtx (cc_Username flags) (cc_Password flags) (cc_SrcFile flags) lang format (cc_Ssl flags)
                     (cc_Interactive flags) "" (cc_Binary flags) in
          resolved <- resolveConnectOpts cliOpts ctx c args ;;
          let '(connOpts, newArgs, c) := resolved in
          terminal <- ask is_terminal ;;
          let console printed :=
            io_wrap "failed to run interactive console: %s" [] (run_console connOpts c) ;;; ret printed in
          if decide (cc_SrcFile flags <> "") then
            res <- connect_Eval c connOpts newArgs ;;
            if negb (cc_Interactive flags) || negb terminal then ret (Some res) else console (Some res)
          else match newArgs with
               | _ :: _ => throw (Errorf "should be specified one connection string" [])
               | [] => console None
               end
      end
  end.
End ConnectCmd.
