(* ===== verification/ReplicasetCmd.v ===== *)
(** * The replicaset commands ([cli/cmd/replicaset.go], [cli/replicaset/cmd],
    [cli/replicaset/rebootstrap.go])

    Which instances or which connection a command is about, the choice of an
    orchestrator, and the operation it then performs.  The orchestrators are those
    of [CConfigApp], [Cartridge] and [Custom] behind one interface. *)
From S2P Require Import Prelude GoStrings GoPath Regexp GoOs GoFs Value Config Cluster Sources Tarantool.
From S2P Require Import Validators Version Uri ClusterGet Configure ProcessUtils Install Running.
From S2P Require Import CConfigSource Replicaset Topology CConfigApp Cartridge Connector Formatter Console.
From S2P Require Import Instances Control ConnectCmd.
Local Open Scope Z_scope.
Local Open Scope io_scope.

(** ** [status.go] *)
Definition Master_String (m : Master) : string :=
  match m with MasterUnknown => "unknown" | MasterNo => "no" | MasterSingle => "single" | MasterMulti => "multi" end.
Definition Mode_String (m : Mode) : string :=
  match m with ModeUnknown => "unknown" | ModeRead => "read" | ModeRW => "rw" end.
Definition State_String (s : State) : string :=
  match s with
  | StateUnknown => "unknown" | StateUninitialized => "uninitialized" | StateBootstrapped => "bootstrapped"
  end.

Definition fill_alias (i : Instance_) : Instance_ := if decide (Alias i = "") then set_alias i (UUID i) else i.

Definition set_rs_alias (r : Replicaset) (alias : string) (instances : list Instance_) : Replicaset :=
  mkReplicaset_ (rs_UUID r) (LeaderUUID r) alias (Roles r) (rs_Master r) (rs_Failover r) (rs_StateProvider r) instances.

Definition map_replicasets (f : list Replicaset -> list Replicaset) (rs : Replicasets) : Replicasets :=
  mkReplicasets (rss_State rs) (rss_Orchestrator rs) (f (rss_Replicasets rs)).

Definition fillAliases : Replicasets -> Replicasets := map_replicasets (map (fun r =>
  set_rs_alias r (if decide (rs_Alias r = "") then rs_UUID r else rs_Alias r) (map fill_alias (rs_Instances r)))).

Definition sortAliases `{GoSort} : Replicasets -> Replicasets := map_replicasets (fun rs =>
  sort_slice (fun a b => String.ltb (rs_Alias a) (rs_Alias b))
    (map (fun r => with_instances r (sort_slice (fun a b => String.ltb (Alias a) (Alias b)) (rs_Instances r))) rs)).

Definition instanceToString (i : Instance_) : string :=
  Alias i +:+ " " +:+ URI i +:+ " " +:+ Mode_String (InstMode i).

Definition replicasetToString (r : Replicaset) : string :=
  "• " +:+ rs_Alias r +:+ nl
  +:+ "  Failover: " +:+ Failover_String (rs_Failover r) +:+ nl
  +:+ (if decide (rs_StateProvider r <> StateProviderUnknown)
       then "  Provider: " +:+ StateProvider_String (rs_StateProvider r) +:+ nl else "")
  +:+ match rs_Master r with
      | MasterUnknown => ""
      | m => "  Master:   " +:+ Master_String m +:+ nl
      end
  +:+ match Roles r with [] => "" | roles => "  Roles:    " +:+ Join roles ", " +:+ nl end
  +:+ Join (map (fun i =>
        (if bool_decide (LeaderUUID r <> "") && bool_decide (LeaderUUID r = UUID i) then "    ★ " else "    • ")
        +:+ instanceToString i +:+ nl) (rs_Instances r)) "".

(** What it prints. *)
Definition statusReplicasets `{GoSort} (rs : Replicasets) : result string :=
  if decide (rss_State rs = StateUnknown) then Err (Errorf "unknown or empty replicasets configuration" [])
  else
    let rs' := sortAliases (fillAliases rs) in
    Ok ("Orchestrator:      " +:+ Orchestrator_String (rss_Orchestrator rs) +:+ nl
        +:+ "Replicasets state: " +:+ State_String (rss_State rs) +:+ nl
        +:+ (match rss_Replicasets rs' with [] => "" | _ => nl end)
        +:+ Join (map replicasetToString (rss_Replicasets rs')) "").

(** ** [common.go]: orchestrators *)
Definition cached_op (W A : Type) : Type := A -> cachedDiscoverer -> W -> option error * cachedDiscoverer * W.

Record replicasetOrchestrator (W : Type) := mkOrchestrator {
  ro_discovery : W -> Replicasets * option error * W;
  ro_Promote : cached_op W InstanceOpCtx;
  ro_Demote : cached_op W InstanceOpCtx;
  ro_Expel : cached_op W InstanceOpCtx;
  ro_BootstrapVShard : cached_op W Z;
  ro_Bootstrap : cached_op W BootstrapCtx
}.
Arguments mkOrchestrator {W}.
Arguments ro_discovery {W}.
Arguments ro_Promote {W}.
Arguments ro_Demote {W}.
Arguments ro_Expel {W}.
Arguments ro_BootstrapVShard {W}.
Arguments ro_Bootstrap {W}.

Definition refused {W A} (e : option error) : cached_op W A := fun _ cache w => (e, cache, w).
Definition uncached {W A} (f : A -> W -> option error * W) : cached_op W A := fun a cache w =>
  let '(e, w) := f a w in (e, cache, w).

Definition no_replicasets : Replicasets := mkReplicasets StateUnknown OrchestratorUnknown [].

(** The part of the context of an instance that the orchestrators read. *)
Definition rs_ctx (i : Running.InstanceCtx) : Replicaset.InstanceCtx :=
  mkInstanceCtx (run_AppName i) (run_InstName i) (run_ConsoleSocket i) (run_ClusterConfigPath i).

(** The embedded Lua bodies and the decoding of the answers. *)
Record Lua := mkLua {
  lua_orchestrator : string; lua_cc_topology : string; lua_cc_promote : string; lua_cc_vshard : string;
  lua_waitRW : string; lua_waitRO : string;
  lua_ca_topology : string; lua_ca_info : string; lua_ca_edit_replicasets : string; lua_ca_edit_instances : string;
  lua_ca_promote : string; lua_ca_healthy : string; lua_ca_vshard : string; lua_cu_topology : string;
  decode_cc : value -> result cconfigTopology; decode_ca : value -> result cartridgeTopology;
  decode_ca_info : list value -> result (list (string * bool)); decode_cu : value -> result customTopology;
  print_values : list value -> string; err_text : error -> string;
  parse_ca_replicasets : string -> result (gmap string cartridgeReplicasetConfig);
  parse_ca_instances : string -> result (gmap string cartridgeInstanceConfig)
}.

Section ReplicasetCmd.
Context {W : Type} `{OS W, Files W, !Host W, !Processes W, !PidFiles W}.
Context `{Yaml, !Services W, GoMapOrder, GoText, GoSort, !Replicaset.Connector W}.
Context (Read : W -> string -> option error).
Context (unmarshal : string -> result (gmap string value)) (collectors : CollectorFactory W).
Context (UserHomeDir : result string).
Context (dial : ConnectOpts -> io W (Evaler W)) (hang_up : io W unit).
Context (lua : Lua) (new_uuid : W -> string * W) (Println : error -> W -> W) (log_Warn : string -> W -> W).
(** [createDataCollectorsAndDataPublishers]. *)
Context (factories : result (DataCollectorFactory W * DataPublisherFactory W)).
(** The factories of an operation that got none. *)
Context (nil_collectors : DataCollectorFactory W) (nil_publishers : DataPublisherFactory W).

Notation fill := (fill Read unmarshal collectors).

Definition NewCConfigApplication (instances : list Running.InstanceCtx) (cs : DataCollectorFactory W)
    (ps : DataPublisherFactory W) : replicasetOrchestrator W :=
  let app := mkApp (map rs_ctx instances) cs ps in
  mkOrchestrator
    (app_discovery (lua_cc_topology lua) (decode_cc lua) (print_values lua) app)
    (CConfigApp.Promote (lua_cc_topology lua) (lua_cc_promote lua) (lua_waitRW lua) (decode_cc lua) (print_values lua)
       Println log_Warn app)
    (CConfigApp.Demote (lua_cc_topology lua) (lua_waitRO lua) (decode_cc lua) (print_values lua) Println log_Warn app)
    (CConfigApp.Expel (lua_cc_topology lua) (decode_cc lua) (print_values lua) (err_text lua) Println log_Warn app)
    (uncached (CConfigApp.BootstrapVShard (lua_cc_vshard lua) app))
    (refused Bootstrap_app).

Definition NewCConfigInstance (conn : Evaler W) : replicasetOrchestrator W :=
  mkOrchestrator
    (fun w => match instance_discovery (lua_cc_topology lua) (decode_cc lua) (print_values lua) conn w with
              | (Ok rs, w) => (rs, None, w)
              | (Err e, w) => (no_replicasets, Some e, w)
              end)
    (uncached (Promote_instance (lua_cc_promote lua) (lua_waitRW lua) conn))
    (refused Demote_instance) (refused Expel_instance)
    (uncached (BootstrapVShard_instance (lua_cc_vshard lua) conn))
    (refused Bootstrap_instance).

Definition NewCartridgeApplication (instances : list Running.InstanceCtx) : replicasetOrchestrator W :=
  let l := map rs_ctx instances in
  let appDir (_ : Replicaset.InstanceCtx) := match instances with i :: _ => run_AppDir i | [] => "" end in
  mkOrchestrator
    (CartridgeApplication_discovery (lua_ca_topology lua) (lua_ca_info lua) (decode_ca lua) (decode_ca_info lua)
       (print_values lua) l)
    (CartridgeApplication_Promote (lua_ca_topology lua) (lua_ca_info lua) (lua_ca_edit_replicasets lua)
       (lua_ca_promote lua) (lua_ca_healthy lua) (lua_waitRW lua) (decode_ca lua) (decode_ca_info lua)
       (print_values lua) l)
    (refused CartridgeApplication_Demote)
    (CartridgeApplication_Expel (lua_ca_topology lua) (lua_ca_info lua) (lua_ca_edit_instances lua)
       (lua_ca_healthy lua) (decode_ca lua) (decode_ca_info lua) (print_values lua) l)
    (CartridgeApplication_BootstrapVShard (lua_ca_topology lua) (lua_ca_info lua) (lua_ca_vshard lua) (decode_ca lua)
       (decode_ca_info lua) (print_values lua) (err_text lua) l)
    (CartridgeApplication_Bootstrap (lua_ca_topology lua) (lua_ca_info lua) (lua_ca_edit_replicasets lua)
       (lua_ca_healthy lua) (lua_ca_vshard lua) (decode_ca lua) (decode_ca_info lua) (print_values lua) (err_text lua)
       new_uuid (parse_ca_replicasets lua) (parse_ca_instances lua) appDir l).

Definition NewCartridgeInstance (conn : Evaler W) : replicasetOrchestrator W :=
  mkOrchestrator
    (CartridgeInstance_discovery (lua_ca_topology lua) (lua_ca_info lua) (decode_ca lua) (decode_ca_info lua)
       (print_values lua) conn)
    (CartridgeInstance_Promote (lua_ca_topology lua) (lua_ca_info lua) (lua_ca_edit_replicasets lua)
       (lua_ca_promote lua) (lua_ca_healthy lua) (lua_waitRW lua) (decode_ca lua) (decode_ca_info lua)
       (print_values lua) conn)
    (refused CartridgeInstance_Demote) (refused CartridgeInstance_Expel)
    (uncached (CartridgeInstance_BootstrapVShard (lua_ca_vshard lua) (err_text lua) conn))
    (refused CartridgeInstance_Bootstrap).

Definition NewCustomApplication (instances : list Running.InstanceCtx) : replicasetOrchestrator W :=
  let no operation := (Custom_not_supported operation).2 in
  mkOrchestrator
    (CustomApplication_discovery (lua_cu_topology lua) (decode_cu lua) (print_values lua) (map rs_ctx instances))
    (refused (no "promote")) (refused (no "demote")) (refused (no "expel")) (refused (no "bootstrap vshard"))
    (refused (no "bootstrap")).

Definition NewCustomInstance (conn : Evaler W) : replicasetOrchestrator W :=
  let no operation := (Custom_not_supported operation).1 in
  mkOrchestrator
    (CustomInstance_discovery (lua_cu_topology lua) (decode_cu lua) (print_values lua) conn)
    (refused (no "promote")) (refused (no "demote")) (refused (no "expel")) (refused (no "bootstrap vshard"))
    (refused (no "bootstrap")).

Definition unsupported (o : Orchestrator) : error := Errorf "unsupported orchestrator: %s" [Orchestrator_String o].

Definition makeApplicationOrchestrator (o : Orchestrator) (instances : list Running.InstanceCtx)
    (cs : DataCollectorFactory W) (ps : DataPublisherFactory W) : result (replicasetOrchestrator W) :=
  match o with
  | OrchestratorCentralizedConfig => Ok (NewCConfigApplication instances cs ps)
  | OrchestratorCartridge => Ok (NewCartridgeApplication instances)
  | OrchestratorCustom => Ok (NewCustomApplication instances)
  | OrchestratorUnknown => Err (unsupported o)
  end.

Definition makeInstanceOrchestrator (o : Orchestrator) (conn : Evaler W) : result (replicasetOrchestrator W) :=
  match o with
  | OrchestratorCentralizedConfig => Ok (NewCConfigInstance conn)
  | OrchestratorCartridge => Ok (NewCartridgeInstance conn)
  | OrchestratorCustom => Ok (NewCustomInstance conn)
  | OrchestratorUnknown => Err (unsupported o)
  end.

Definition getInstanceOrchestrator (manual : Orchestrator) (conn : Evaler W) : io W Orchestrator :=
  if decide (manual <> OrchestratorUnknown) then ret manual
  else fun w =>
    match EvalOrchestrator (lua_orchestrator lua) (err_text lua) conn w with
    | (o, None, w) => (Ok o, w)
    | (_, Some e, w) => (Err e, w)
    end.

Definition getApplicationOrchestrator (manual : Orchestrator) (instances : list Running.InstanceCtx)
    : io W Orchestrator :=
  if decide (manual <> OrchestratorUnknown) then ret manual
  else fun w =>
    match EvalAny (map rs_ctx instances) (fun _ evaler (o : Orchestrator) w =>
            match EvalOrchestrator (lua_orchestrator lua) (err_text lua) evaler w with
            | (o', None, w) => (Ok true, o', w)
            | (_, Some e, w) => (Err e, o, w)
            end) OrchestratorUnknown w with
    | (None, o, w) => (Ok o, w)
    | (Some e, _, w) => (Err (Wrapf "unable to determinate an orchestrator type: %w" [] e), w)
    end.

Definition getOrchestratorType (manual : Orchestrator) (conn : option (Evaler W))
    (instances : list Running.InstanceCtx) : io W Orchestrator :=
  match conn with
  | Some conn => getInstanceOrchestrator manual conn
  | None => getApplicationOrchestrator manual instances
  end.

(** ** The operations *)
Definition discover (o : replicasetOrchestrator W) (cache : cachedDiscoverer)
    : io W (Replicasets * cachedDiscoverer) := fun w =>
  match Replicaset.Discovery (ro_discovery o) true cache w with
  | ((rs, None), cache, w) => (Ok (rs, cache), w)
  | ((_, Some e), _, w) => (Err e, w)
  end.

Definition perform {A} (op : cached_op W A) (a : A) (cache : cachedDiscoverer) : io W unit := fun w =>
  match op a cache w with
  | (None, _, w) => (Ok tt, w)
  | (Some e, _, w) => (Err e, w)
  end.

Definition new_cache : cachedDiscoverer := mkCached false no_replicasets.

(** A discovery, and then the operation. *)
Definition discover_and {A} (o : replicasetOrchestrator W) (op : replicasetOrchestrator W -> cached_op W A) (a : A)
    : io W unit :=
  d <- discover o new_cache ;; perform (op o) a d.2.

Definition make_orchestrator (isApplication : bool) (o : Orchestrator) (instances : list Running.InstanceCtx)
    (conn : option (Evaler W)) (cs : DataCollectorFactory W) (ps : DataPublisherFactory W)
    : result (replicasetOrchestrator W) :=
  if isApplication then makeApplicationOrchestrator o instances cs ps
  else match conn with
       | Some conn => makeInstanceOrchestrator o conn
       | None => nil_deref
       end.

(** [replicasetCtx] of [cli/cmd/replicaset.go]. *)
Record replicasetCtx := mkReplicasetCtx {
  rc_IsApplication : bool; rc_IsInstanceConnect : bool; rc_InstName : string;
  rc_RunningCtx : list Running.InstanceCtx; rc_Conn : option (Evaler W); rc_Orchestrator : Orchestrator
}.

Definition cmd_Promote (ctx : replicasetCtx) (cs : DataCollectorFactory W) (ps : DataPublisherFactory W)
    (force : bool) (timeout : Z) : io W unit :=
  conn <- look (fun _ => deref (rc_Conn ctx)) ;;
  o <- getInstanceOrchestrator (rc_Orchestrator ctx) conn ;;
  orchestrator <- look (fun _ => make_orchestrator (rc_IsApplication ctx) o (rc_RunningCtx ctx) (Some conn) cs ps) ;;
  discover_and orchestrator ro_Promote (mkInstanceOpCtx (rc_InstName ctx) force timeout).

Definition cmd_Demote (ctx : replicasetCtx) (cs : DataCollectorFactory W) (ps : DataPublisherFactory W)
    (force : bool) (timeout : Z) : io W unit :=
  conn <- look (fun _ => deref (rc_Conn ctx)) ;;
  o <- getInstanceOrchestrator (rc_Orchestrator ctx) conn ;;
  orchestrator <- look (fun _ => makeApplicationOrchestrator o (rc_RunningCtx ctx) cs ps) ;;
  discover_and orchestrator ro_Demote (mkInstanceOpCtx (rc_InstName ctx) force timeout).

Definition cmd_Expel (ctx : replicasetCtx) (cs : DataCollectorFactory W) (ps : DataPublisherFactory W)
    (force : bool) (timeout : Z) : io W unit :=
  o <- getApplicationOrchestrator (rc_Orchestrator ctx) (rc_RunningCtx ctx) ;;
  orchestrator <- look (fun _ => makeApplicationOrchestrator o (rc_RunningCtx ctx) cs ps) ;;
  discover_and orchestrator ro_Expel (mkInstanceOpCtx (rc_InstName ctx) force timeout).

Definition cmd_Status (ctx : replicasetCtx) : io W string :=
  o <- getOrchestratorType (rc_Orchestrator ctx) (rc_Conn ctx) (rc_RunningCtx ctx) ;;
  orchestrator <- look (fun _ => make_orchestrator (rc_IsApplication ctx) o (rc_RunningCtx ctx) (rc_Conn ctx)
                                   nil_collectors nil_publishers) ;;
  d <- discover orchestrator new_cache ;;
  look (fun _ => statusReplicasets d.1).

Definition cmd_BootstrapVShard (ctx : replicasetCtx) (cs : DataCollectorFactory W) (ps : DataPublisherFactory W)
    (timeout : Z) : io W unit :=
  o <- getOrchestratorType (rc_Orchestrator ctx) (rc_Conn ctx) (rc_RunningCtx ctx) ;;
  orchestrator <- look (fun _ => make_orchestrator (rc_IsApplication ctx) o (rc_RunningCtx ctx) (rc_Conn ctx) cs ps) ;;
  discover_and orchestrator ro_BootstrapVShard timeout.

Definition cmd_Bootstrap (ctx : replicasetCtx) (b : BootstrapCtx) : io W unit :=
  if decide (bc_Instance b <> "" /\ bc_Replicaset b = "") then
    throw (Errorf "the replicaset must be specified to bootstrap an instance" [])
  else if decide (bc_Instance b = "" /\ bc_Replicaset b <> "") then
    throw (Errorf "the replicaset can not be specified in the case of application bootstrapping" [])
  else
    o <- getApplicationOrchestrator (rc_Orchestrator ctx) (rc_RunningCtx ctx) ;;
    orchestrator <- look (fun _ => makeApplicationOrchestrator o (rc_RunningCtx ctx) nil_collectors nil_publishers) ;;
    fun w =>
      match ro_Bootstrap orchestrator b new_cache w with
      | (Some e, _, w) => (Err e, w)
      | (None, cache, w) => (discover orchestrator cache ;;; ret tt) w
      end.

(** ** [cli/cmd/replicaset.go] *)

(** The flags that force an orchestrator. *)
Definition getOrchestrator (config cartridge custom : bool) : result Orchestrator :=
  match (if config then [OrchestratorCentralizedConfig] else [])
        ++ (if cartridge then [OrchestratorCartridge] else [])
        ++ (if custom then [OrchestratorCustom] else []) with
  | [] => Ok OrchestratorUnknown
  | [o] => Ok o
  | _ => Err (Errorf "only one type of orchestrator can be forced" [])
  end.

(** The instances of an application; [FillCtx] adds to those that are there. *)
Definition refill (cliOpts : CliOpts) (ctx : CmdCtx) (args : list string) (instances : list Running.InstanceCtx)
    : io W (list Running.InstanceCtx) :=
  more <- fill cliOpts ctx args ;; ret (instances ++ more).

(** What a name that was found stands for. *)
Definition fill_application (cliOpts : CliOpts) (ctx : CmdCtx) (c : ConnectCtx) (arg : string)
    (instances : list Running.InstanceCtx)
    : io W (string * list Running.InstanceCtx * option ConnectOpts) :=
  match instances with
  | [i] =>
      if has_credentials c then
        throw (Errorf "username and password are not supported with a connection via a control socket" [])
      else
        let connOpts := makeConnOpts UnixNetwork (run_ConsoleSocket i) c in
        match split2 arg InstanceDelimiter with
        | None => ret ("", instances, Some connOpts)
        | Some (appName, instName) =>
            if decide (instName <> run_InstName i) then throw (Errorf "instance %q not found" [instName])
            else
              l <- refill cliOpts ctx [appName] instances ;;
              ret (instName, l, Some connOpts)
        end
  | _ => ret ("", instances, None)
  end.

Definition replicasetFillCtx (cliOpts : CliOpts) (ctx : CmdCtx) (forced : result Orchestrator) (c : ConnectCtx)
    (arg : string) (isRunningCtxRequired : bool) : io W replicasetCtx :=
  orchestrator <- look (fun _ => forced) ;;
  filled <- attempt (refill cliOpts ctx [arg] []) ;;
  target <-
    match filled with
    | Ok instances => r <- fill_application cliOpts ctx c arg instances ;; ret (true, r)
    | Err e =>
        if isRunningCtxRequired then throw e
        else
          resolved <- resolveConnectOpts Read unmarshal collectors UserHomeDir cliOpts ctx c [arg] ;;
          ret (false, ("", [], Some resolved.1.1))
    end ;;
  let '(isApplication, (instName, instances, connOpts)) := target in
  match connOpts with
  | None => ret (mkReplicasetCtx isApplication false instName instances None orchestrator)
  | Some opts =>
      conn <- io_wrap "unable to establish connection: %s" [] (dial opts) ;;
      ret (mkReplicasetCtx isApplication true instName instances (Some conn) orchestrator)
  end.

(** The connection, if there is one, is closed in the end. *)
Definition closing {A} (ctx : replicasetCtx) (body : io W A) : io W A :=
  if rc_IsInstanceConnect ctx then finally hang_up body else body.

Definition internalReplicasetPromoteModule (cliOpts : CliOpts) (cmd : CmdCtx) (forced : result Orchestrator)
    (c : ConnectCtx) (arg : string) (force : bool) (timeout : Z) : io W unit :=
  ctx <- replicasetFillCtx cliOpts cmd forced c arg false ;;
  if negb (rc_IsInstanceConnect ctx) then throw (Errorf "specify an instance to promote" [])
  else closing ctx (cp <- look (fun _ => factories) ;; cmd_Promote ctx cp.1 cp.2 force timeout).

Definition internalReplicasetDemoteModule (cliOpts : CliOpts) (cmd : CmdCtx) (forced : result Orchestrator)
    (c : ConnectCtx) (arg : string) (force : bool) (timeout : Z) : io W unit :=
  ctx <- replicasetFillCtx cliOpts cmd forced c arg true ;;
  if negb (rc_IsApplication ctx) then throw (Errorf "remote instance demoting is not supported" [])
  else if negb (rc_IsInstanceConnect ctx) then throw (Errorf "specify an instance to demote" [])
  else closing ctx (cp <- look (fun _ => factories) ;; cmd_Demote ctx cp.1 cp.2 force timeout).

Definition internalReplicasetStatusModule (cliOpts : CliOpts) (cmd : CmdCtx) (forced : result Orchestrator)
    (c : ConnectCtx) (arg : string) : io W string :=
  ctx <- replicasetFillCtx cliOpts cmd forced c arg false ;; closing ctx (cmd_Status ctx).

Definition internalReplicasetExpelModule (cliOpts : CliOpts) (cmd : CmdCtx) (forced : result Orchestrator)
    (c : ConnectCtx) (arg : string) (force : bool) (timeout : Z) : io W unit :=
  match split2 arg InstanceDelimiter with
  | None => throw (Errorf "the command expects argument application_name:instance_name" [])
  | Some _ =>
      ctx <- replicasetFillCtx cliOpts cmd forced c arg true ;;
      closing ctx (cp <- look (fun _ => factories) ;; cmd_Expel ctx cp.1 cp.2 force timeout)
  end.

Definition internalReplicasetBootstrapVShardModule (cliOpts : CliOpts) (cmd : CmdCtx) (forced : result Orchestrator)
    (c : ConnectCtx) (arg : string) (timeout : Z) : io W unit :=
  ctx <- replicasetFillCtx cliOpts cmd forced c arg false ;;
  closing ctx (cp <- look (fun _ => factories) ;; cmd_BootstrapVShard ctx cp.1 cp.2 timeout).

Definition internalReplicasetBootstrapModule (cliOpts : CliOpts) (cmd : CmdCtx) (forced : result Orchestrator)
    (c : ConnectCtx) (arg file replicaset : string) (vshard : bool) (timeout : Z) : io W unit :=
  ctx <- replicasetFillCtx cliOpts cmd forced c arg true ;;
  closing ctx (cmd_Bootstrap ctx
    (mkBootstrapCtx file timeout vshard replicaset
       (match split2 arg InstanceDelimiter with Some (_, instName) => instName | None => "" end))).

(** ** [rebootstrap.go] *)
Fixpoint glob_all (w : W) (patterns : list string) : result (list string) :=
  match patterns with
  | [] => Ok []
  | p :: patterns => rbind (fun found => rmap (app found) (glob_all w patterns)) (Glob w p)
  end.

Definition data_patterns (i : Running.InstanceCtx) : list string :=
  [ filepath_Join [run_MemtxDir i; "*.snap"]; filepath_Join [run_WalDir i; "*.xlog"];
    filepath_Join [run_VinylDir i; "*.vylog"] ].

Definition remove_data_file (fileToRemove : string) : io W unit :=
  stat <- ask (fun w => Stat w fileToRemove) ;;
  match stat with
  | Err e => if IsNotExist e then ret tt else throw (Wrapf "cannot get info of %q: %s" [fileToRemove] e)
  | Ok info =>
      if decide (fi_Kind info = RegularFile)
      then io_wrap "cannot remove %q: %s" [fileToRemove] (os_Remove fileToRemove) else ret tt
  end.

Definition cleanDataFiles (i : Running.InstanceCtx) : io W unit :=
  files <- look (fun w => glob_all w (data_patterns i)) ;; io_for remove_data_file files.

Definition Rebootstrap (cliOpts : CliOpts) (ctx : CmdCtx) (appName instName : string) (confirmed : bool) : io W unit :=
  apps <- io_wrap "cannot collect application instances info: %s" []
            (CollectInstancesForApps Read unmarshal collectors [appName] cliOpts (ctx_ConfigDir ctx)) ;;
  match List.find (fun i => bool_decide (run_InstName i = instName)) (default [] (apps !! appName)) with
  | None => throw (Errorf "instance %q is not found" [instName])
  | Some i =>
      yes <- (if confirmed then ret true
              else confirm ("Rebootstrap will stop the instance " +:+ instName
                     +:+ " and remove all its data files. Do you want to continue?")) ;;
      if negb yes then ret tt
      else
        io_wrap "failed to stop the instance %s: %s" [instName] (Control.Stop i) ;;;
        io_wrap "failed to remove instance's artifacts: %s" [] (cleanDataFiles i) ;;;
        ttBin <- look Executable ;;
        io_wrap "failed to start the instance: %s" [] (StartWatchdog Read ctx ttBin i [])
  end.

Definition internalReplicasetRebootstrapModule (cliOpts : CliOpts) (ctx : CmdCtx) (confirmed : bool)
    (args : list string) : io W unit :=
  match args with
  | _ :: _ :: _ => throw (Errorf "only one instance supported for re-bootstrap" [])
  | [] => throw (Errorf "instance for rebootstrap is not specified" [])
  | [arg] =>
      match split2 arg InstanceDelimiter with
      | None => throw (Errorf "an instance name is not specified. Please use app:instance format." [])
      | Some (appName, instName) => Rebootstrap cliOpts ctx appName instName confirmed
      end
  end.
End ReplicasetCmd.

(** * What holds of the replicaset commands and of connecting *)
Local Close Scope Z_scope.
From S2P Require Import CConfigProps.
From S2P Require Import ConfigureProps RunningProps.
Local Open Scope io_scope.

(** ** The status

    Sorting by a key. *)
Definition by_key {A} (key : A -> string) (a b : A) : bool := String.ltb (key a) (key b).

#[export] Instance by_key_order {A} (key : A -> string) : StrictWeakOrder (by_key key).
Proof.
  split; unfold by_key.
  - intros x. apply string_ltb_irrefl.
  - intros x y z. apply string_ltb_trans.
  - intros x y z Hxy Hyz. destruct (String.ltb (key x) (key z)) eqn:Hxz; [|done].
    destruct (String.ltb (key y) (key x)) eqn:Hyx.
    + by rewrite (string_ltb_trans _ _ _ Hyx Hxz) in Hyz.
    + by rewrite (string_ltb_total _ _ Hxy Hyx), Hyz in Hxz.
Qed.

(** With distinct keys every sort gives the same list. *)
Lemma sorts_agree {A} (s1 s2 : GoSort) (key : A -> string) (l1 l2 : list A) :
  l1 ≡ₚ l2 -> NoDup (map key l1) -> @sort_slice s1 A (by_key key) l1 = @sort_slice s2 A (by_key key) l2.
Proof.
  intros Hp Hnd. apply (StronglySorted_unique_strong (fun x y => by_key key y x = false)).
  - intros x y Hx Hy Hyx Hxy. rewrite sort_slice_perm in Hx. rewrite sort_slice_perm, <- Hp in Hy.
    pose proof (string_ltb_total _ _ Hyx Hxy) as Hk.
    apply list_elem_of_lookup in Hx as [i Hi], Hy as [j Hj].
    assert (i = j) as ->; [|congruence].
    eapply (NoDup_lookup (map key l1) i j); [done|..]; rewrite list_lookup_fmap; [by rewrite Hi|].
    rewrite Hj. cbn. by rewrite Hk.
  - apply sort_slice_sorted, _.
  - apply sort_slice_sorted, _.
  - by rewrite !sort_slice_perm.
Qed.

(** The same replicaset, with its instances in another order. *)
Definition same_replicaset (r1 r2 : Replicaset) : Prop :=
  with_instances r1 [] = with_instances r2 [] /\ rs_Instances r1 ≡ₚ rs_Instances r2.

(** The same replicasets, in another order. *)
Definition same_topology (rs1 rs2 : Replicasets) : Prop :=
  rss_State rs1 = rss_State rs2 /\ rss_Orchestrator rs1 = rss_Orchestrator rs2 /\
  exists l, Forall2 same_replicaset (rss_Replicasets rs1) l /\ l ≡ₚ rss_Replicasets rs2.

Definition shown_alias (alias uuid : string) : string := if decide (alias = "") then uuid else alias.

(** The names under which replicasets and instances are shown are all different. *)
Definition names_differ (rs : Replicasets) : Prop :=
  NoDup (map (fun r => shown_alias (rs_Alias r) (rs_UUID r)) (rss_Replicasets rs)) /\
  Forall (fun r => NoDup (map (fun i => shown_alias (Alias i) (UUID i)) (rs_Instances r))) (rss_Replicasets rs).

Definition shown (s : GoSort) (r : Replicaset) : Replicaset :=
  let r := set_rs_alias r (if decide (rs_Alias r = "") then rs_UUID r else rs_Alias r) (map fill_alias (rs_Instances r)) in
  with_instances r (@sort_slice s _ (by_key Alias) (rs_Instances r)).

Lemma fill_alias_names l : map Alias (map fill_alias l) = map (fun i => shown_alias (Alias i) (UUID i)) l.
Proof.
  rewrite map_map. apply map_ext. intros i. unfold fill_alias, shown_alias. by destruct (decide (Alias i = "")).
Qed.

Lemma shown_same s1 s2 r1 r2 :
  same_replicaset r1 r2 -> NoDup (map (fun i => shown_alias (Alias i) (UUID i)) (rs_Instances r1)) ->
  shown s1 r1 = shown s2 r2.
Proof.
  intros [Hr Hi] Hnd. destruct r1 as [u1 l1 a1 ro1 m1 f1 p1 i1], r2 as [u2 l2 a2 ro2 m2 f2 p2 i2].
  cbn in *. injection Hr as -> -> -> -> -> -> ->. unfold shown, with_instances, set_rs_alias. cbn.
  f_equal. apply sorts_agree; [by rewrite Hi|]. by rewrite fill_alias_names.
Qed.

Lemma sortAliases_shown (s : GoSort) rs :
  sortAliases (fillAliases rs) =
  map_replicasets (fun l => @sort_slice s _ (by_key rs_Alias) (map (shown s) l)) rs.
Proof.
  unfold sortAliases, fillAliases, map_replicasets. cbn. f_equal. unfold by_key at 1. f_equal.
  rewrite map_map. apply map_ext. done.
Qed.

(** The status of replicasets does not depend on the order in which
    instances were discovered, nor on how the sort arranges equal elements:
    with different names, every order of the same replicasets and instances
    gives the same text. *)
Theorem status_order_irrelevant (s1 s2 : GoSort) rs1 rs2 :
  same_topology rs1 rs2 -> names_differ rs1 ->
  @statusReplicasets s1 rs1 = @statusReplicasets s2 rs2.
Proof.
  intros (Hs & Ho & l & Hl & Hp) [Hrs His]. unfold statusReplicasets. rewrite <- Hs, <- Ho.
  destruct (decide (rss_State rs1 = StateUnknown)); [done|].
  rewrite !sortAliases_shown. unfold map_replicasets. cbn [rss_Replicasets].
  assert (map (shown s1) (rss_Replicasets rs1) = map (shown s2) l) as Hm.
  { clear Hrs Hp. induction Hl as [|r1 r2 t1 t2 Hr Ht IH]; [done|].
    apply Forall_cons in His as [Hi His]. cbn [map]. f_equal; [by apply shown_same|by apply IH]. }
  assert (@sort_slice s1 _ (by_key rs_Alias) (map (shown s1) (rss_Replicasets rs1)) =
          @sort_slice s2 _ (by_key rs_Alias) (map (shown s2) (rss_Replicasets rs2))) as Hsort.
  { apply sorts_agree; [by rewrite Hm, Hp|]. rewrite map_map.
    by replace (map (fun x => rs_Alias (shown s1 x)) (rss_Replicasets rs1))
      with (map (fun r => shown_alias (rs_Alias r) (rs_UUID r)) (rss_Replicasets rs1)) by (by apply map_ext). }
  by rewrite Hsort.
Qed.

Definition sample_inst (alias uuid : string) : Instance_ :=
  mkInst alias uuid "localhost:3301" ModeRead zero_ctx false.
Definition sample_rs (l : list Instance_) : Replicaset :=
  mkReplicaset_ "u" "2" "r" [] MasterSingle FailoverOff StateProviderUnknown l.
Definition sample_report (l : list Instance_) : Replicasets :=
  mkReplicasets StateBootstrapped OrchestratorCustom [sample_rs l].

Lemma status_order_irrelevant_witness :
  statusReplicasets (sample_report [sample_inst "b" "1"; sample_inst "" "2"]) =
  statusReplicasets (sample_report [sample_inst "" "2"; sample_inst "b" "1"]).
Proof.
  apply (status_order_irrelevant insertion_go_sort insertion_go_sort).
  - split_and!; [done..|]. exists [sample_rs [sample_inst "" "2"; sample_inst "b" "1"]]. split; [|done].
    constructor; [|constructor]. split; [done|]. apply Permutation_swap.
  - split; [apply NoDup_singleton|]. constructor; [|constructor]. eapply bool_decide_unpack. by vm_compute.
Defined.

(** ** Which instances and which connection *)
Section targets.
Context {W : Type} `{OS W, Files W, !Host W, !Processes W, !PidFiles W}.
Context `{Yaml, !Services W, GoMapOrder, GoText, GoSort, !Replicaset.Connector W}.
Context (Read : W -> string -> option error).
Context (unmarshal : string -> result (gmap string value)) (collectors : CollectorFactory W).
Context (UserHomeDir : result string).
Context (dial : ConnectOpts -> io W (Evaler W)) (hang_up : io W unit).
Context (is_terminal : W -> bool) (read_stdin : io W string).

Notation fill := (fill Read unmarshal collectors).
Notation resolve := (resolveConnectOpts Read unmarshal collectors UserHomeDir).
Notation fill_ctx := (replicasetFillCtx Read unmarshal collectors UserHomeDir dial).

Lemma refill_first cliOpts ctx args (w : W) :
  refill Read unmarshal collectors cliOpts ctx args [] w = fill cliOpts ctx args w.
Proof. unfold refill, io_bind, ret. by destruct (fill cliOpts ctx args w) as [[l|e] w']. Qed.

(** The context of a replicaset command on one instance of an application
    has that instance twice: the second FillCtx, which is to replace the
    instance by the instances of the application, appends them to it. *)
Theorem refill_repeats cliOpts cmd forced c arg required (w : W) ctx w' app inst :
  fill_ctx cliOpts cmd forced c arg required w = (Ok ctx, w') ->
  split2 arg InstanceDelimiter = Some (app, inst) ->
  rc_IsApplication ctx = true -> rc_IsInstanceConnect ctx = true ->
  exists i w1 all w2,
    fill cliOpts cmd [arg] w = (Ok [i], w1) /\ run_InstName i = inst /\
    fill cliOpts cmd [app] w1 = (Ok all, w2) /\ rc_InstName ctx = inst /\ rc_RunningCtx ctx = i :: all /\
    (i ∈ all -> 2 <= length (List.filter (fun j => bool_decide (run_InstName j = inst)) (rc_RunningCtx ctx))).
Proof.
  intros Hf Hs Happ Hconn. unfold replicasetFillCtx in Hf. apply io_bind_Ok in Hf as (o & w0 & Ho & Hf).
  apply look_Ok in Ho as [_ ->]. apply io_bind_Ok in Hf as (filled & w1 & Hfill & Hf).
  unfold attempt in Hfill. rewrite refill_first in Hfill.
  destruct (fill cliOpts cmd [arg] w) as [r w1'] eqn:Efill. injection Hfill as <- <-.
  apply io_bind_Ok in Hf as ([isApp [[instName instances] connOpts]] & w2 & Ht & Hf).
  assert (isApp = true) as ->.
  { destruct connOpts; [apply io_bind_Ok in Hf as (? & ? & _ & Hf)|]; cbv [ret] in Hf; by injection Hf as <- _. }
  destruct r as [l|e]; [|destruct required; [done|];
    apply io_bind_Ok in Ht as (? & ? & _ & Ht); cbv [ret] in Ht; by injection Ht].
  apply io_bind_Ok in Ht as ([[n l'] co] & w3 & Ha & Ht). cbv [ret] in Ht. injection Ht as -> -> -> ->.
  destruct l as [|i [|i2 l]]; cbn [fill_application] in Ha.
  - cbv [ret] in Ha. injection Ha as <- <- <- _. cbv [ret] in Hf. by injection Hf as <- _.
  - destruct (has_credentials c); [done|]. rewrite Hs in Ha. destruct (decide (inst <> run_InstName i)) as [|Hi]; [done|].
    apply io_bind_Ok in Ha as (l & w4 & Hr & Ha). cbv [ret] in Ha. injection Ha as <- <- <- <-.
    unfold refill in Hr. apply io_bind_Ok in Hr as (all & w5 & Hall & Hr). cbv [ret] in Hr. injection Hr as <- <-.
    apply io_bind_Ok in Hf as (conn & w6 & _ & Hf). cbv [ret] in Hf. injection Hf as <- _.
    apply dec_stable in Hi. exists i, w1', all, w5. split_and!; [done..|]. cbn [rc_RunningCtx Datatypes.app List.filter].
    rewrite bool_decide_true by done. intros Hin. cbn [length]. apply le_n_S.
    apply list_elem_of_In in Hin. assert (In i (List.filter (fun j => bool_decide (run_InstName j = inst)) all)) as Hin'.
    { apply filter_In. split; [done|]. by rewrite bool_decide_true. }
    destruct (List.filter _ all); [done|]. cbn. lia.
  - cbv [ret] in Ha. injection Ha as <- <- <- _. cbv [ret] in Hf. by injection Hf as <- _.
Qed.

(** Credentials given with flags are those of the connection: a URI that
    has credentials too is refused, a control socket takes none, and the
    environment only fills in what the flags leave out; the options of SSL are
    those of the flags. *)
Theorem flags_not_overridden cliOpts ctx c arg args (w : W) opts rest c' w' :
  resolve cliOpts ctx c (arg :: args) w = (Ok (opts, rest, c'), w') ->
  rest = args /\ Ssl opts = cc_Ssl c /\
  (cc_Username c <> "" -> Username opts = cc_Username c) /\
  (cc_Password c <> "" -> Password opts = cc_Password c) /\
  (is_ok (fill cliOpts ctx (arg :: args) w).1 = false -> IsCredentialsURI arg = true -> has_credentials c = false /\
     exists newURI, ParseCredentialsURI arg = (newURI, Username opts, Password opts) /\
       (newURI <> "" -> cc_ConnectTarget c' = newURI)).
Proof.
  intros Hr. unfold resolveConnectOpts in Hr. apply io_bind_Ok in Hr as (filled & w1 & Hfill & Hr).
  unfold attempt in Hfill. destruct (fill cliOpts ctx (arg :: args) w) as [[l|e] w2] eqn:Ef; injection Hfill as <- <-.
  - apply io_bind_Ok in Hr as (o & w3 & Ho & Hr). apply look_Ok in Ho as [Ho ->]. cbv [ret] in Hr.
    injection Hr as <- <- _ _. unfold resolve_instance in Ho.
    destruct l as [|i [|i2 l]]; [by destruct (has_credentials c && _)| |done].
    destruct (has_credentials c && _); [done|]. injection Ho as <-. cbn. by split_and!.
  - apply io_bind_Ok in Hr as (u & w3 & Hu & Hr). unfold ask in Hu. injection Hu as Hu <-.
    destruct u as [r|]; [|done]. apply io_bind_Ok in Hr as ([o c1] & w4 & Ho & Hr). apply look_Ok in Ho as [-> ->].
    cbv [ret] in Hr. injection Hr as <- <- <- _. unfold resolve_uri in Hu.
    destruct (IsCredentialsURI arg) eqn:Ec.
    + destruct (has_credentials c) eqn:Hc; [done|]. unfold has_credentials in Hc.
      apply orb_false_iff in Hc as [Hcu Hcp]. apply bool_decide_eq_false in Hcu, Hcp.
      destruct (ParseCredentialsURI arg) as [[newURI user] pass] eqn:Ep.
      destruct (ParseBaseURI UserHomeDir newURI) as [network address]. injection Hu as <- <-.
      cbn. split_and!; try done. intros _ _. split; [done|]. exists newURI. split; [done|].
      unfold with_target. cbn. intros Hne. by rewrite decide_False.
    + destruct (IsBaseURI arg); [|done]. destruct (ParseBaseURI UserHomeDir arg) as [network address].
      injection Hu as <- <-. cbn. split_and!; try done; intros Hne; by rewrite decide_False.
Qed.

(** A script that does not exist is an empty command. *)
Theorem missing_script_empty c (w : W) :
  cc_SrcFile c <> "-" -> is_ok (Stat w (Clean (cc_SrcFile c))) = false ->
  getEvalCmd is_terminal read_stdin c w = (Ok "", w).
Proof.
  intros Hm Hs. unfold getEvalCmd. rewrite decide_False by done. rewrite io_bind_ask.
  by destruct (Stat w (Clean (cc_SrcFile c))).
Qed.
End targets.

(** With a language the arguments of a script are dropped. *)
Theorem language_drops_arguments command c args :
  cc_Language c <> DefaultLanguage ->
  eval_args command c args = eval_args command c [].
Proof. intros Hl. unfold eval_args. by rewrite !decide_True by done. Qed.

(** ** Samples: an application with two instances in a toy system. *)
Definition no_collectors {W} : CollectorFactory W :=
  mkCollectorFactory (fun _ => Err ErrNotExist) (fun _ _ _ _ => Err ErrNotExist) (fun _ _ _ _ => Err ErrNotExist).
Definition two_instances (_ : string) : result (gmap string value) := Ok {["app.m" := VNil; "app.r" := VNil]}.
Definition no_flags : ConnectCtx :=
  mkConnectCtx "" "" "" DefaultLanguage YamlFormat (Connector.mkSslOpts "" "" "" "") false "" false.
Definition user_flag : ConnectCtx := set_credentials "admin" "" no_flags.
Definition toy_ctx (config : string) : CmdCtx :=
  mkCmdCtx (mkCliCtx false "" config "" false "/usr/bin/tarantool" "" 0 false) "/env" "promote" zero_version.
Definition silent : ConnectOpts -> io toy (Evaler toy) := fun _ w => (Ok (fun _ _ w => (Ok [], w)), w).
#[local] Instance toy_yaml : Yaml := two_documents.
#[local] Instance toy_services : Services toy := sample_services (fun _ => None).

Lemma refill_repeats_witness :
  exists ctx w' i all w1 w2,
    replicasetFillCtx (fun _ _ => None) two_instances no_collectors (Err ErrNotExist) silent GetDefaultCliOpts
      (toy_ctx "/env/tt.yaml") (Ok OrchestratorUnknown) no_flags "app:m" true sample_app = (Ok ctx, w') /\
    fill (fun _ _ => None) two_instances no_collectors GetDefaultCliOpts (toy_ctx "/env/tt.yaml") ["app"] w1 = (Ok all, w2) /\
    length all = 2 /\ rc_RunningCtx ctx = i :: all /\
    2 <= length (List.filter (fun j => bool_decide (run_InstName j = "m")) (rc_RunningCtx ctx)).
Proof.
  destruct (replicasetFillCtx (fun _ _ => None) two_instances no_collectors (Err ErrNotExist) silent GetDefaultCliOpts
      (toy_ctx "/env/tt.yaml") (Ok OrchestratorUnknown) no_flags "app:m" true sample_app) as [[ctx|e] w'] eqn:E;
    [|exfalso; vm_compute in E; discriminate E].
  assert (rc_IsApplication ctx = true /\ rc_IsInstanceConnect ctx = true) as [Ha Hc].
  { vm_compute in E. injection E as <- _. split; reflexivity. }
  destruct (refill_repeats (fun _ _ => None) two_instances no_collectors (Err ErrNotExist) silent GetDefaultCliOpts
    (toy_ctx "/env/tt.yaml") (Ok OrchestratorUnknown) no_flags "app:m" true sample_app ctx w' "app" "m" E eq_refl Ha Hc)
    as (i & w1 & all & w2 & H1 & Hi & H2 & Hn & Hl & Htwice).
  exists ctx, w', i, all, w1, w2.
  assert (length all = 2 /\ i ∈ all) as [Hlen Hin].
  { vm_compute in H1. injection H1 as <- <-. vm_compute in H2. injection H2 as <- _.
    split; [reflexivity|]. rewrite !elem_of_cons. auto. }
  split; [exact (eq_refl _)|]. split_and!; auto.
Defined.

Lemma flags_not_overridden_witness :
  exists opts rest c' w',
    resolveConnectOpts (fun _ _ => None) two_instances no_collectors (Err ErrNotExist) GetDefaultCliOpts (toy_ctx "")
      user_flag ["localhost:3301"] sample_app = (Ok (opts, rest, c'), w') /\ Username opts = "admin".
Proof.
  destruct (resolveConnectOpts (fun _ _ => None) two_instances no_collectors (Err ErrNotExist) GetDefaultCliOpts
    (toy_ctx "") user_flag ["localhost:3301"] sample_app) as [[[[opts rest] c']|e] w'] eqn:E;
    [|exfalso; vm_compute in E; discriminate E].
  exists opts, rest, c', w'. split; [reflexivity|].
  apply (flags_not_overridden (fun _ _ => None) two_instances no_collectors (Err ErrNotExist) GetDefaultCliOpts
    (toy_ctx "") user_flag "localhost:3301" [] sample_app opts rest c' w' E). discriminate.
Defined.
