(* ===== verification/InstancesProps.v ===== *)
(** * A system with processes and PID files

    The classes that [Instances] uses, on a small system: files and directories
    are those of [ProcessUtils], on which its functions work, and processes are a
    table.  A process ends on the signals it obeys and removes its files then;
    SIGKILL ends it at once. *)
From S2P Require Import Prelude GoStrings GoPath Regexp GoOs GoFs ProcessUtils Install Instances.
Local Open Scope Z_scope.

Record proc := mkProc {
  p_group : Z; p_obeys : Z -> bool; p_in_time : bool; p_exit : result unit; p_files : list string
}.

(** [st_new]: how the processes that are started behave. *)
Record station := mkStation {
  st_sys : sys; st_procs : gmap Z proc; st_next : Z; st_self : Z; st_environ : list string;
  st_programs : list string; st_stdin : list string; st_new : Cmd -> proc
}.

Definition with_sys (w : station) (s : sys) : station :=
  mkStation s (st_procs w) (st_next w) (st_self w) (st_environ w) (st_programs w) (st_stdin w) (st_new w).
Definition with_procs (w : station) (ps : gmap Z proc) : station :=
  mkStation (st_sys w) ps (st_next w) (st_self w) (st_environ w) (st_programs w) (st_stdin w) (st_new w).

Definition ESRCH : error := Errorf "no such process" [].
Definition ENOENT_exec : error := Errorf "executable file not found" [].

(** ** Signals *)
Definition end_process (pid : Z) (files : list string) (w : station) : station :=
  with_procs (with_sys w (fold_left unlink files (st_sys w))) (delete pid (st_procs w)).

Definition signal_one (pid sig : Z) (w : station) : station :=
  match st_procs w !! pid with
  | None => w
  | Some p =>
      if decide (sig = 0) then w
      else if decide (sig = SIGKILL) then end_process pid [] w
      else if p_obeys p sig then end_process pid (p_files p) w else w
  end.

Definition st_kill (w : station) (pid sig : Z) : option error :=
  if decide (pid < 0) then
    if decide (map_Forall (fun _ p => p_group p <> - pid) (st_procs w)) then Some ESRCH else None
  else if decide (is_Some (st_procs w !! pid)) then None else Some ESRCH.

Definition kill_group (group : Z) (w : station) : station :=
  with_procs w (filter (fun kv => p_group kv.2 <> group) (st_procs w)).

Definition no_error (_ : string) : option error := None.

Definition lift (m : option error * sys) (w : station) : result unit * station :=
  match m with (None, s) => (Ok tt, with_sys w s) | (Some e, s) => (Err e, with_sys w s) end.

Definition obeys (w : station) (sig pid : Z) : bool :=
  match st_procs w !! pid with Some p => p_obeys p sig | None => true end.

Definition stat_path (s : sys) (path : string) : result FileInfo :=
  if decide (is_Some (links s !! path)) then Ok (mkFileInfo (path_Base path) RegularFile (Zpos (encode path)))
  else if decide (path ∈ dirs s) then Ok (mkFileInfo (path_Base path) Directory (Zpos (encode path)))
  else Err ErrNotExist.

#[export] Instance station_OS : OS station := {
  Getwd _ := Ok "/";
  Chdir w _ := Ok w;
  Getenv _ _ := "";
  Stat w := stat_path (st_sys w);
  Glob _ _ := Ok [];
  ReadDir _ _ := Err ErrNotExist;
  ReadFile w path := match file_at (st_sys w) path with Some s => Ok s | None => Err ErrNotExist end;
  LookPath w p := if decide (p ∈ st_programs w) then Ok p else Err ENOENT_exec;
  EvalSymlinks _ p := Ok p;
  Executable _ := Ok "/usr/bin/tt"
}.

Definition drop_path (s : sys) (path : string) : sys :=
  mkSys (delete path (links s)) (contents s) (next_file s) (dirs s ∖ {[path]}).

Definition remove_file (path : string) (w : station) : result unit * station :=
  if is_ok (stat_path (st_sys w) path) then (Ok tt, with_sys w (drop_path (st_sys w) path))
  else (Err ErrNotExist, w).

#[export] Instance station_Files : Files station := {
  os_Readlink _ _ := Err ErrNotExist;
  os_ReadDir _ _ := Err ErrNotExist;
  os_Perm _ _ := Ok 420;
  os_Remove := remove_file;
  os_RemoveAll path w := (Ok tt, with_sys w (drop_path (st_sys w) path));
  os_Symlink _ newName w := (Ok tt, with_sys w (create_file (st_sys w) newName));
  os_MkdirAll path _ w := (Ok tt, with_sys w (add_dir (st_sys w) path));
  os_WriteFile path data _ w :=
    (Ok tt, with_sys w (write_file (create_file (st_sys w) path) (next_file (st_sys w)) data))
}.

#[export] Instance station_Host : Host station := {
  run_program _ _ _ _ w := (Ok tt, w);
  program_output _ _ _ _ := Ok "Tarantool 3.1.0";
  os_MkdirTemp _ w := (Ok "/tmp/1", w);
  os_CreateTemp _ w := (Ok "/tmp/2", w);
  stdin := st_stdin;
  set_stdin l w := mkStation (st_sys w) (st_procs w) (st_next w) (st_self w) (st_environ w) (st_programs w) l
                     (st_new w);
  LookupEnv _ _ := None;
  unix_Writable _ _ := true;
  copy_Copy _ _ w := (Ok tt, w);
  GOOS := "linux";
  NumCPU := 1;
  fetch_jobs_supported _ := false
}.

(** A new process gets the next free number. *)
Definition start_process (cmd : Cmd) (w : station) : result Z * station :=
  let pid := st_next w in
  (Ok pid, mkStation (st_sys w) (<[pid := st_new w cmd]> (st_procs w)) (pid + 1) (st_self w) (st_environ w)
             (st_programs w) (st_stdin w) (st_new w)).

(** Waiting for a process that is not there gives an error; otherwise it ends. *)
Definition wait_process (pid : Z) (w : station) : result unit * station :=
  match st_procs w !! pid with
  | None => (Err (Errorf "signal: terminated" []), w)
  | Some p => (p_exit p, end_process pid (p_files p) w)
  end.

Definition signal_pid (pid sig : Z) (w : station) : result unit * station :=
  match st_kill w pid sig with
  | Some e => (Err e, w)
  | None => (Ok tt, if decide (pid < 0) then kill_group (- pid) w else signal_one pid sig w)
  end.

#[export] Instance station_Processes : Processes station := {
  os_Environ := st_environ;
  os_Setenv _ _ w := (Ok tt, w);
  os_Getpid := st_self;
  open_append path _ w :=
    (Ok tt, if decide (is_Some (links (st_sys w) !! path)) then w else with_sys w (create_file (st_sys w) path));
  exec_StdinPipe w := (Ok tt, w);
  exec_Start := start_process;
  exec_Wait := wait_process;
  exec_Run _ _ w := (None, w);
  process_Signal := signal_pid;
  wait_timeout pid _ w :=
    (Ok match st_procs w !! pid with Some p => negb (p_in_time p) | None => false end, w);
  syscall_Exec _ _ _ w := (Ok tt, w);
  syscall_Kill := signal_pid
}.

(** ** PID files: the functions of [ProcessUtils] *)
Definition stop_with (sig : Z) (stop : (Z -> bool) -> sys -> string -> result Z) (pidFile : string) (w : station)
    : result Z * station :=
  match stop (obeys w sig) (st_sys w) pidFile with
  | Err e => (Err e, w)
  | Ok pid => (Ok pid, signal_one pid sig w)
  end.

#[export] Instance station_PidFiles : PidFiles station := {
  pu_CheckPIDFile f w := lift (CheckPIDFile (st_kill w) no_error no_error f (st_sys w)) w;
  pu_CreatePIDFile f pid w :=
    lift (CreatePIDFile (st_kill w) no_error no_error no_error no_error no_error f pid (st_sys w)) w;
  pu_GetPIDFromFile w := GetPIDFromFile no_error no_error (st_sys w);
  pu_IsProcessAlive w pid := (IsProcessAlive (st_kill w) pid).1;
  pu_ProcessStatus w := ProcessStatus (st_kill w) no_error no_error (st_sys w);
  pu_StopProcess f w := stop_with SIGINT (StopProcess (st_kill w) no_error no_error) f w;
  pu_QuitProcess f w := stop_with SIGQUIT (QuitProcess (st_kill w) no_error no_error) f w;
  pu_KillProcessGroup f w :=
    match KillProcessGroup (st_kill w)
            (fun pid => match st_procs w !! pid with Some p => Ok (p_group p) | None => Err ESRCH end)
            no_error no_error (st_sys w) f with
    | Err e => (Err e, w)
    | Ok pid => (Ok pid, match st_procs w !! pid with Some p => kill_group (p_group p) w | None => w end)
    end
}.

(** * What holds of instances and of the commands on them

    The theorems are about every system that keeps the laws of [SystemLaws];
    [station] is one. *)
From S2P Require Import Value Config Cluster Sources.
From S2P Require Import Tarantool Version ClusterGet Configure Running.
From S2P Require Import Control InstanceCmds.
Local Open Scope Z_scope.
Local Open Scope io_scope.

(** ** The laws *)
Class SystemLaws (W : Type) `{OS W, Files W, Processes W, PidFiles W} : Prop := {
  (** A PID file: without it the status is NOT RUNNING, a running process keeps a
      second file from being created, nothing is stopped. *)
  law_status_missing w f : is_ok (Stat w f) = false -> pu_ProcessStatus w f = ProcStateStopped;
  law_status_alive w f : ps_Code (pu_ProcessStatus w f) = ProcessRunningCode ->
    pu_IsProcessAlive w (ps_PID (pu_ProcessStatus w f)) = true;
  law_create_running w f pid : ps_Code (pu_ProcessStatus w f) = ProcessRunningCode ->
    exists e, pu_CreatePIDFile f pid w = (Err e, w);
  law_check_running w f : ps_Code (pu_ProcessStatus w f) = ProcessRunningCode ->
    exists e, pu_CheckPIDFile f w = (Err e, w);
  law_stop_missing w f : Stat w f = Err ErrNotExist ->
    exists e, pu_StopProcess f w = (Err e, w) /\ Is_ErrNotExist e = true;
  (** Removing a file. *)
  law_remove w f r w' : os_Remove f w = (r, w') ->
    (is_ok r = true -> is_ok (Stat w' f) = false) /\
    (forall g, is_ok (Stat w g) = false -> is_ok (Stat w' g) = false) /\
    (forall pid, pu_IsProcessAlive w' pid = pu_IsProcessAlive w pid);
  (** Signalling a process and waiting for it leave the others alone. *)
  law_signal w pid sig r w' : 0 <= pid -> process_Signal pid sig w = (r, w') ->
    forall q, q <> pid -> 0 <= q -> pu_IsProcessAlive w' q = pu_IsProcessAlive w q;
  law_signal_zero w pid : 0 <= pid -> (process_Signal pid 0 w).2 = w;
  law_wait w pid r w' : 0 <= pid -> exec_Wait pid w = (r, w') ->
    is_ok (process_Signal pid 0 w').1 = false /\
    forall q, q <> pid -> 0 <= q -> pu_IsProcessAlive w' q = pu_IsProcessAlive w q;
  law_timeout w pid t r w' : wait_timeout pid t w = (r, w') ->
    forall q, q <> pid -> 0 <= q -> pu_IsProcessAlive w' q = pu_IsProcessAlive w q
}.

Section props.
Context {W : Type} `{OS W, Files W, !Host W, !Processes W, !PidFiles W, !SystemLaws W}.
Context `{Yaml} `{!Services W} `{GoMapOrder}.
Context (Read : W -> string -> option error) (instanceLauncher checkSyntax : string).
Context (unmarshal : string -> result (gmap string value)) (collectors : CollectorFactory W).
Context (decode : W -> string -> CliOpts -> result (option CliOpts)).
Context (shouldStop : W -> bool) (clear_shouldStop : W -> W) (time_Sleep : Z -> W -> W).

(** Nothing keeps a file from being removed. *)
Definition removable (f : string) : Prop :=
  forall w : W, is_ok (Stat w f) = true -> is_ok (os_Remove f w).1 = true.

(** ** The controller of a process *)
Lemma pc_IsAlive_world pc (w : W) : 0 <= pc_pid pc -> (pc_IsAlive pc w).2 = w /\ is_ok (pc_IsAlive pc w).1 = true.
Proof.
  intros Hp. unfold pc_IsAlive. destruct (pc_done pc); [done|].
  unfold io_bind, attempt, pc_SendSignal. pose proof (law_signal_zero w _ Hp) as Hz.
  destruct (process_Signal (pc_pid pc) 0 w) as [r w1]. cbn in *. by subst.
Qed.

Lemma not_alive pc (w : W) :
  0 <= pc_pid pc -> pc_done pc = true \/ is_ok (process_Signal (pc_pid pc) 0 w).1 = false ->
  pc_IsAlive pc w = (Ok false, w).
Proof.
  intros Hp Ha. unfold pc_IsAlive. destruct (pc_done pc); [done|]. destruct Ha as [?|Ha]; [done|].
  unfold io_bind, attempt, pc_SendSignal. pose proof (law_signal_zero w _ Hp) as Hz.
  destruct (process_Signal (pc_pid pc) 0 w) as [r w1]. cbn in *. subst. by rewrite Ha.
Qed.

Lemma pc_Wait_ended pc (w : W) r w' :
  0 <= pc_pid pc -> pc_done pc = false -> pc_Wait pc w = (r, w') ->
  (forall pc', r = Ok pc' -> pc_done pc' = true /\ pc_pid pc' = pc_pid pc) /\
  is_ok (process_Signal (pc_pid pc) 0 w').1 = false.
Proof.
  intros Hp Hd. unfold pc_Wait. rewrite Hd. unfold io_bind.
  destruct (exec_Wait (pc_pid pc) w) as [[u|e] w1] eqn:Hw; intros [= <- <-];
    destruct (law_wait _ _ _ _ Hp Hw) as [Hs _]; (split; [|done]); by intros pc' [= <-].
Qed.

(** C15: Stopping an instance is final: when StopWithSignal returns without an
    error the process of the instance is not alive any more, whether it ended
    on the signal, was killed when the time was over, or had ended before; the
    controller stays that of the same process. *)
Theorem StopWithSignal_ends pc timeout sig (w : W) pc' w' :
  0 <= pc_pid pc -> pc_StopWithSignal pc timeout sig w = (Ok pc', w') ->
  pc_pid pc' = pc_pid pc /\ pc_IsAlive pc' w' = (Ok false, w').
Proof.
  intros Hp Hs. unfold pc_StopWithSignal in Hs. apply io_bind_Ok in Hs as (alive & w1 & Ha & Hs).
  destruct (pc_IsAlive_world pc w Hp) as [Hw _]. rewrite Ha in Hw. cbn in Hw. subst w1.
  destruct alive; cbn [negb] in Hs; [|cbv [ret] in Hs; by injection Hs as <- <-].
  assert (pc_done pc = false) as Hd by (revert Ha; unfold pc_IsAlive; by destruct (pc_done pc)).
  apply io_bind_Ok in Hs as ([] & w2 & _ & Hs). apply io_bind_Ok in Hs as (over & w3 & _ & Hs).
  destruct over.
  - apply io_bind_Ok in Hs as ([] & w4 & _ & Hs). apply io_bind_Ok in Hs as (waited & w5 & Hw & Hs).
    unfold attempt in Hw. destruct (pc_Wait pc w4) as [r w6] eqn:Hwait. injection Hw as <- <-.
    destruct (pc_Wait_ended _ _ _ _ Hp Hd Hwait) as [Hok Hgone].
    destruct r as [pc1|e]; cbv [ret] in Hs; injection Hs as <- <-.
    + destruct (Hok _ eq_refl) as [Hdone Hpid]. split; [done|]. apply not_alive; [lia|auto].
    + split; [done|]. apply not_alive; auto.
  - destruct (pc_Wait_ended _ _ _ _ Hp Hd Hs) as [Hok _]. destruct (Hok _ eq_refl) as [Hdone Hpid].
    split; [done|]. apply not_alive; [lia|auto].
Qed.

(** Stopping leaves other processes alone. *)
Lemma StopWithSignal_others pc timeout sig (w : W) q :
  0 <= pc_pid pc -> q <> pc_pid pc -> 0 <= q ->
  pu_IsProcessAlive (pc_StopWithSignal pc timeout sig w).2 q = pu_IsProcessAlive w q.
Proof.
  intros Hp Hq Hq0. unfold pc_StopWithSignal. destruct (pc_IsAlive_world pc w Hp) as [Hw Ho].
  assert (forall w1, pu_IsProcessAlive (pc_Wait pc w1).2 q = pu_IsProcessAlive w1 q) as Hwait.
  { intros w1. unfold pc_Wait, io_bind. destruct (pc_done pc); [done|].
    destruct (exec_Wait (pc_pid pc) w1) as [[u|e] w2] eqn:E;
      by apply (law_wait _ _ _ _ Hp E). }
  unfold io_bind at 1. destruct (pc_IsAlive pc w) as [[a|e] w1]; [|done]. cbn in Hw. subst w1.
  destruct a; [|done]. cbn [negb]. unfold io_bind, io_wrap, attempt, pc_SendSignal.
  destruct (process_Signal (pc_pid pc) sig w) as [[[]|e] w1] eqn:E1; cbn [rwrap];
    rewrite <- (law_signal _ _ _ _ _ Hp E1 q) by done; [|done].
  destruct (wait_timeout (pc_pid pc) timeout w1) as [[over|e] w2] eqn:E2;
    rewrite <- (law_timeout _ _ _ _ _ E2 q) by done; [|done].
  destruct over; [|apply Hwait].
  destruct (process_Signal (pc_pid pc) SIGKILL w2) as [[[]|e] w3] eqn:E3; cbn [rwrap];
    rewrite <- (law_signal _ _ _ _ _ Hp E3 q) by done; [|done].
  rewrite <- (Hwait w3). destruct (pc_Wait pc w3) as [[pc1|e] w4]; done.
Qed.

(** ** Files of an instance *)
Lemma remove_if_there_spec f (w : W) :
  exists w', remove_if_there f w = (Ok tt, w') /\ (removable f -> is_ok (Stat w' f) = false) /\
    (forall g, is_ok (Stat w g) = false -> is_ok (Stat w' g) = false) /\
    (forall pid, pu_IsProcessAlive w' pid = pu_IsProcessAlive w pid).
Proof.
  unfold remove_if_there. rewrite io_bind_ask. destruct (is_ok (Stat w f)) eqn:Hs.
  - unfold io_bind, attempt. destruct (os_Remove f w) as [r w1] eqn:Hr.
    destruct (law_remove _ _ _ _ Hr) as (Hr1 & Hr2 & Hr3). exists w1. split_and!; [done|..|done|done].
    intros Hrm. apply Hr1. specialize (Hrm w Hs). by rewrite Hr in Hrm.
  - exists w. by split_and!.
Qed.

Lemma cleanup_spec run (w : W) :
  exists w', cleanup run w = (Ok tt, w') /\
    (forall f, f ∈ [run_PIDFile run; run_ConsoleSocket run; run_BinaryPort run] -> removable f ->
       is_ok (Stat w' f) = false) /\
    (forall pid, pu_IsProcessAlive w' pid = pu_IsProcessAlive w pid).
Proof.
  unfold cleanup.
  destruct (remove_if_there_spec (run_PIDFile run) w) as (w1 & E1 & G1 & K1 & A1).
  destruct (remove_if_there_spec (run_ConsoleSocket run) w1) as (w2 & E2 & G2 & K2 & A2).
  destruct (remove_if_there_spec (run_BinaryPort run) w2) as (w3 & E3 & G3 & K3 & A3).
  exists w3. unfold io_bind. rewrite E1, E2, E3. split_and!; [done|..].
  - intros f Hf Hrm. rewrite !elem_of_cons in Hf. destruct Hf as [->|[->|[->|[]%not_elem_of_nil]]]; auto.
  - intros pid. by rewrite A3, A2, A1.
Qed.

Lemma cleanup_status run (w : W) :
  removable (run_PIDFile run) -> Status (cleanup run w).2 run = ProcStateStopped.
Proof.
  intros Hrm. destruct (cleanup_spec run w) as (w' & -> & Hg & _). cbn [snd].
  apply law_status_missing, Hg; [left|done].
Qed.

(** Killing an instance that is running removes its files. *)
Theorem Kill_cleans run (w : W) w' :
  Kill run w = (Ok tt, w') -> removable (run_PIDFile run) ->
  Status w' run = ProcStateStopped /\
  forall f, f ∈ [run_PIDFile run; run_ConsoleSocket run; run_BinaryPort run] -> removable f ->
    is_ok (Stat w' f) = false.
Proof.
  intros Hk Hrm. unfold Kill in Hk. apply io_bind_Ok in Hk as (pid & w1 & _ & Hc).
  pose proof (cleanup_status run w1 Hrm) as Hst. destruct (cleanup_spec run w1) as (w2 & E & Hg & _).
  rewrite E in *. injection Hc as ->. done.
Qed.

(** Stopping what does not run does nothing. *)
Theorem Stop_stopped run (w : W) : Stat w (run_PIDFile run) = Err ErrNotExist -> Stop run w = (Ok tt, w).
Proof.
  intros Hs. destruct (law_stop_missing w _ Hs) as (e & He & Hn). unfold Stop, io_bind, attempt.
  by rewrite He, Hn.
Qed.

(** ** A second start *)
Notation launch := (launch_instance Read instanceLauncher).
Notation RunInstance := (Control.RunInstance Read instanceLauncher).

Lemma launch_controller ctx i out err (w : W) inst w' :
  launch ctx i out err w = (Ok inst, w') -> exists pc, bi_controller (base_of inst) = Some pc.
Proof.
  intros Hl. unfold launch_instance in Hl. apply io_bind_Ok in Hl as ([] & w1 & _ & Hl).
  apply io_bind_Ok in Hl as (inst0 & w2 & _ & Hl). apply io_wrap_Ok in Hl.
  unfold inst_Start in Hl. apply io_bind_Ok in Hl as (b & w3 & Hb & Hl).
  assert (exists pc, bi_controller b = Some pc) as Hpc.
  { destruct inst0 as [b0|c r b0].
    - unfold script_Start in Hb. repeat (apply io_bind_Ok in Hb as (? & ? & _ & Hb)).
      cbv [ret] in Hb. injection Hb as <- _. cbn. eauto.
    - unfold cluster_Start in Hb. apply io_bind_Ok in Hb as (there & ? & _ & Hb).
      destruct (negb there); [done|]. repeat (apply io_bind_Ok in Hb as (? & ? & _ & Hb)).
      cbv [ret] in Hb. injection Hb as <- _. cbn. eauto. }
  destruct Hpc as [pc Hpc]. exists pc. cbv [ret] in Hl. injection Hl as <- _. by destruct inst0.
Qed.

(** When a foreground instance could be launched, its files are removed in the end,
    whatever happened. *)
Lemma RunInstance_cleans ctx i out err (w : W) inst w1 :
  launch ctx i out err w = (Ok inst, w1) -> removable (run_PIDFile i) ->
  Status (RunInstance ctx i out err w).2 i = ProcStateStopped.
Proof.
  intros Hl Hrm. unfold Control.RunInstance, io_bind at 1. rewrite Hl. unfold finally.
  match goal with |- context [let '(r, w) := ?x in _] => destruct x as [r w2] end.
  cbn [snd]. by apply cleanup_status.
Qed.

(** A start in the foreground hides an instance that is running: the
    second process finds the PID file of the first and gives up, and then
    removes it, so that the first one, which is still alive, has the status
    NOT RUNNING and tt stop has nothing to stop. *)
Theorem foreground_start_hides ctx i out err (w : W) inst pc w1 :
  launch ctx i out err w = (Ok inst, w1) -> bi_controller (base_of inst) = Some pc -> 0 <= pc_pid pc ->
  let running := Status w1 i in
  ps_Code running = ProcessRunningCode -> 0 <= ps_PID running -> ps_PID running <> pc_pid pc ->
  removable (run_PIDFile i) ->
  exists e w', RunInstance ctx i out err w = (Err e, w') /\
    pu_IsProcessAlive w' (ps_PID running) = true /\ Status w' i = ProcStateStopped.
Proof.
  intros Hl Hpc Hp running Hrun Hq0 Hne Hrm.
  pose proof (RunInstance_cleans ctx i out err w inst w1 Hl Hrm) as Hst.
  unfold Control.RunInstance in *. unfold io_bind at 1 in Hst. unfold io_bind at 1. rewrite Hl in *.
  destruct (law_create_running w1 (run_PIDFile i) (pc_pid pc) Hrun) as [e He].
  unfold finally, io_bind, look, attempt in *. rewrite Hpc in *. cbn [deref rmap] in *. rewrite He in *.
  unfold bi_Stop, pc_Stop, io_bind in *. rewrite Hpc in *.
  pose proof (StopWithSignal_others pc 10 SIGINT w1 (ps_PID running) Hp Hne Hq0) as Hothers.
  assert (pu_IsProcessAlive w1 (ps_PID running) = true) as Hal by exact (law_status_alive w1 (run_PIDFile i) Hrun).
  rewrite Hal in Hothers.
  destruct (pc_StopWithSignal pc 10 SIGINT w1) as [[pc2|e2] w2]; cbn [snd] in Hothers; unfold ret, throw in *;
    destruct (cleanup_spec i w2) as (w3 & Ec & _ & Ha); rewrite Ec in *; cbn [snd] in *;
    (do 2 eexists; split_and!; [reflexivity|by rewrite Ha|done]).
Qed.

(** The same of a second watchdog, which two starts at once may leave behind: what
    its status said is alive loses its PID file. *)
Theorem second_watchdog_hides fuel ctx i (w : W) logger w1 inst i' w2 :
  prepare i w = (Ok logger, w1) ->
  CreateInstance Read unmarshal collectors decode ctx i logger w1 = (Ok (inst, i'), w2) ->
  ps_Code (Status w2 i) = ProcessRunningCode -> removable (run_PIDFile i) ->
  exists w', Start Read instanceLauncher unmarshal collectors decode shouldStop clear_shouldStop time_Sleep
               fuel ctx i w = Some (Ok tt, w') /\
    pu_IsProcessAlive w' (ps_PID (Status w2 i)) = true /\ Status w' i = ProcStateStopped.
Proof.
  intros Hp Hc Hrun Hrm. unfold Start, wd_Start. rewrite Hp, Hc.
  destruct (law_create_running w2 (run_PIDFile i) (os_Getpid w2) Hrun) as [e He]. rewrite He.
  destruct (cleanup_spec i w2) as (w3 & Ec & _ & Ha). exists w3.
  pose proof (cleanup_status i w2 Hrm) as Hst. rewrite Ec in *. split_and!; [done| |done].
  rewrite Ha. by apply law_status_alive.
Qed.
End props.

(** ** Console sockets *)
Section sockets.
Context {W : Type} `{!Host W}.

Lemma verifySocketLength_ok s : verifySocketLength s = None -> (String.length s < maxSocketPath)%nat.
Proof.
  unfold verifySocketLength. case_bool_decide as Hs; cbn [andb].
  - case_bool_decide; [done|]. intros _. lia.
  - intros _. subst. unfold maxSocketPath, maxSocketPathMac, maxSocketPathLinux.
    destruct (decide _); cbn; lia.
Qed.

(** C22: The path of a console socket that an instance gets fits into the
    address of a socket, and from the working directory of the instance it
    leads to the socket: it is the path itself, or a relative one that joined
    to the directory gives it. *)
Theorem shortenSocketPath_leads socketPath basePath r :
  IsAbs socketPath = true -> IsAbs basePath = true -> shortenSocketPath socketPath basePath = Ok r ->
  (String.length r < maxSocketPath)%nat /\
  (r = socketPath \/ filepath_Join [basePath; r] = Clean socketPath).
Proof.
  intros Hs Hb. unfold shortenSocketPath. destruct (verifySocketLength socketPath) eqn:Hv.
  - destruct (Rel basePath socketPath) as [rel|] eqn:Hr; [|done].
    destruct (verifySocketLength rel) eqn:Hv2; [done|]. intros [= <-].
    split; [by apply verifySocketLength_ok|]. right. by apply Rel_Join.
  - intros [= <-]. split; [by apply verifySocketLength_ok|auto].
Qed.
End sockets.

Definition long_dir : string := "/home/tarantool/environments/production/instances.enabled/an_application_with_a_long_name".
Definition long_socket : string := long_dir +:+ "/var/run/an_instance/tarantool.control".

Lemma shortenSocketPath_leads_witness :
  String.length long_socket = 127%nat /\
  shortenSocketPath (W := station) long_socket long_dir = Ok "var/run/an_instance/tarantool.control" /\
  filepath_Join [long_dir; "var/run/an_instance/tarantool.control"] = Clean long_socket.
Proof.
  split; [reflexivity|].
  assert (shortenSocketPath (W := station) long_socket long_dir = Ok "var/run/an_instance/tarantool.control") as Hr
    by (vm_compute; reflexivity).
  split; [exact Hr|].
  destruct (shortenSocketPath_leads long_socket long_dir _ eq_refl eq_refl Hr) as [_ [Hx|Hx]];
    [discriminate Hx|exact Hx].
Defined.

(** ** The environment of an instance

    A program sees the last setting of a variable. *)
Definition env_value (env : list string) (x : string) : option string :=
  fold_left (fun acc e => match CutPrefix e (x +:+ "=") with Some v => Some v | None => acc end) env None.

Lemma env_value_acc env x acc :
  fold_left (fun acc e => match CutPrefix e (x +:+ "=") with Some v => Some v | None => acc end) env acc =
  match env_value env x with Some v => Some v | None => acc end.
Proof.
  unfold env_value. revert acc. induction env as [|e env IH]; intros acc; [done|]. cbn [fold_left].
  destruct (CutPrefix e (x +:+ "=")); [|apply IH]. rewrite IH.
  by destruct (fold_left _ env None).
Qed.

Lemma env_value_app env env' x :
  env_value (env ++ env') x = match env_value env' x with Some v => Some v | None => env_value env x end.
Proof. unfold env_value at 1. rewrite fold_left_app, env_value_acc. done. Qed.

Lemma CutPrefix_entry n x v :
  no_char "=" n = true -> no_char "=" x = true ->
  CutPrefix (n +:+ "=" +:+ v) (x +:+ "=") = if decide (x = n) then Some v else None.
Proof.
  revert n. induction x as [|c x IH]; intros n Hn Hx.
  - destruct n as [|d n]; [done|]. cbn [no_char] in Hn. destruct (decide (d = "="%char)) as [|Hd]; [done|].
    rewrite (decide_False (P := "" = String d n)) by done. cbn. by rewrite decide_False.
  - cbn [no_char] in Hx. destruct (decide (c = "="%char)) as [|Hc]; [done|]. destruct n as [|d n].
    + rewrite (decide_False (P := String c x = "")) by done. cbn. by rewrite decide_False.
    + cbn [no_char] in Hn. destruct (decide (d = "="%char)) as [|Hd]; [done|].
      cbn [String.append CutPrefix]. destruct (decide (c = d)) as [->|Hcd].
      * rewrite IH by done. by destruct (decide (x = n)) as [->|Hx']; [rewrite decide_True|rewrite decide_False by congruence].
      * by rewrite decide_False by congruence.
Qed.

Lemma env_value_cons n v env x :
  no_char "=" n = true -> no_char "=" x = true ->
  env_value ((n +:+ "=" +:+ v) :: env) x =
  match env_value env x with Some v => Some v | None => if decide (x = n) then Some v else None end.
Proof.
  intros Hn Hx. change ((n +:+ "=" +:+ v) :: env) with ([n +:+ "=" +:+ v] ++ env).
  rewrite env_value_app. destruct (env_value env x); [done|]. unfold env_value. cbn [fold_left].
  rewrite CutPrefix_entry by done. by destruct (decide (x = n)).
Qed.

(** The names that [tt] sets for a script. *)
Definition script_names : list string :=
  ["TT_CLI_INSTANCE"; "PWD"; "TT_LISTEN"; "TT_CLI_CONSOLE_SOCKET"; "TT_CLI_CONSOLE_SOCKET_DIR"; "TT_CLI_WORK_DIR";
   "TARANTOOLCTL"; "TT_CLI"; "TT_VINYL_DIR"; "TT_WAL_DIR"; "TT_MEMTX_DIR"; "TARANTOOL_WORKDIR"; "TARANTOOL_APP_NAME";
   "TARANTOOL_INSTANCE_NAME"; "TARANTOOL_CFG"; "TARANTOOL_LOG"].

(** The settings of [script_env], as names and values. *)
Definition script_settings (b : baseInstance) (listenSet : bool) (workDir : string) (console : option string)
    : list (string * string) :=
  [("TT_CLI_INSTANCE", bi_appPath b); ("PWD", workDir)]
  ++ (if bool_decide (bi_binaryPort b <> "") && bool_decide (bi_instName b <> stateBoardInstName) && negb listenSet
      then [("TT_LISTEN", bi_binaryPort b)] else [])
  ++ match console with
     | Some c => [("TT_CLI_CONSOLE_SOCKET", "unix/:./" +:+ path_Base c); ("TT_CLI_CONSOLE_SOCKET_DIR", path_Dir c)]
     | None => []
     end
  ++ [("TT_CLI_INSTANCE", bi_appPath b); ("TT_CLI_WORK_DIR", workDir); ("TARANTOOLCTL", "true"); ("TT_CLI", "true");
      ("TT_VINYL_DIR", bi_vinylDir b); ("TT_WAL_DIR", bi_walDir b); ("TT_MEMTX_DIR", bi_memtxDir b);
      ("TARANTOOL_WORKDIR", bi_walDir b)]
  ++ (if decide (bi_instName b <> stateBoardInstName)
      then [("TARANTOOL_APP_NAME", bi_appName b); ("TARANTOOL_INSTANCE_NAME", bi_instName b)]
      else [("TARANTOOL_APP_NAME", bi_appName b +:+ "-" +:+ bi_instName b)])
  ++ (if decide (bi_appName b <> bi_instName b)
      then [("TARANTOOL_CFG", path_Dir (bi_appPath b) +:+ "/instances.yml")] else [])
  ++ (if decide (bi_logDir b <> "") then [("TARANTOOL_LOG", "")] else []).

Definition setting (kv : string * string) : string := kv.1 +:+ "=" +:+ kv.2.

Lemma script_env_settings b environ listenSet workDir console :
  script_env b environ listenSet workDir (match console with Some c => console_env c | None => [] end) =
  environ ++ map setting (script_settings b listenSet workDir console).
Proof.
  unfold script_env, script_settings, setTarantoolLog. rewrite !map_app. f_equal. f_equal. f_equal; [by case_match|].
  f_equal; [by destruct console|]. f_equal. f_equal; [by case_match|]. f_equal; by case_match.
Qed.

Fixpoint last_of (l : list (string * string)) (x : string) : option string :=
  match l with
  | [] => None
  | (n, v) :: l => match last_of l x with Some v => Some v | None => if decide (x = n) then Some v else None end
  end.

Lemma env_value_settings l x :
  Forall (fun kv => no_char "=" kv.1 = true) l -> no_char "=" x = true ->
  env_value (map setting l) x = last_of l x.
Proof.
  intros Hl Hx. induction Hl as [|[n v] l Hn Hl IH]; [done|]. cbn [map last_of]. unfold setting at 1. cbn [fst snd].
  by rewrite env_value_cons, IH.
Qed.

Lemma script_settings_names b listenSet workDir console :
  Forall (fun kv => no_char "=" kv.1 = true /\ kv.1 ∈ script_names) (script_settings b listenSet workDir console).
Proof.
  assert (forall n, bool_decide (n ∈ script_names) = true -> n ∈ script_names) as Hn
    by (intros n; apply bool_decide_eq_true_1).
  unfold script_settings. repeat (apply Forall_app; split); repeat case_match; repeat (apply Forall_cons; split);
    try apply Forall_nil; try done; (split; [done|apply Hn; by vm_compute]).
Qed.

Lemma last_of_None l x : x ∉ l.*1 -> last_of l x = None.
Proof.
  induction l as [|[n v] l IH]; [done|]. cbn. rewrite not_elem_of_cons. intros [Hn Hl].
  by rewrite IH, decide_False.
Qed.

(** The environment of an instance that runs a script: every variable
    that tt does not set is the one of the caller; a binary port is announced
    with TT_LISTEN unless the caller has set it or the instance is a
    stateboard; the console socket is given as its directory and its name;
    directories and names are those of the instance. *)
Theorem script_environment b environ listenSet workDir console x :
  no_char "=" x = true ->
  let env := script_env b environ listenSet workDir (match console with Some c => console_env c | None => [] end) in
  (x ∉ script_names -> env_value env x = env_value environ x) /\
  env_value env "PWD" = Some workDir /\ env_value env "TT_CLI_INSTANCE" = Some (bi_appPath b) /\
  env_value env "TT_WAL_DIR" = Some (bi_walDir b) /\ env_value env "TT_MEMTX_DIR" = Some (bi_memtxDir b) /\
  env_value env "TT_VINYL_DIR" = Some (bi_vinylDir b) /\
  env_value env "TARANTOOL_APP_NAME" =
    Some (if decide (bi_instName b = stateBoardInstName) then bi_appName b +:+ "-" +:+ bi_instName b
          else bi_appName b) /\
  env_value env "TT_LISTEN" =
    (if decide (bi_binaryPort b <> "" /\ bi_instName b <> stateBoardInstName /\ listenSet = false)
     then Some (bi_binaryPort b) else env_value environ "TT_LISTEN") /\
  (forall c, console = Some c ->
     env_value env "TT_CLI_CONSOLE_SOCKET" = Some ("unix/:./" +:+ path_Base c) /\
     env_value env "TT_CLI_CONSOLE_SOCKET_DIR" = Some (path_Dir c)).
Proof.
  intros Hx env. unfold env. rewrite script_env_settings.
  assert (forall y, no_char "=" y = true ->
    env_value (environ ++ map setting (script_settings b listenSet workDir console)) y =
    match last_of (script_settings b listenSet workDir console) y with
    | Some v => Some v | None => env_value environ y end) as Hv.
  { intros y Hy. rewrite env_value_app, env_value_settings; [done| |done].
    eapply Forall_impl; [apply script_settings_names|]. by intros kv []. }
  split.
  { intros Hn. rewrite Hv by done. rewrite last_of_None; [done|]. intros Hin. apply Hn.
    apply list_elem_of_fmap in Hin as (kv & -> & Hin).
    pose proof (script_settings_names b listenSet workDir console) as Hf. rewrite Forall_forall in Hf.
    by apply Hf. }
  rewrite !Hv by done. unfold script_settings.
  assert (bool_decide (bi_binaryPort b <> "") && bool_decide (bi_instName b <> stateBoardInstName) && negb listenSet =
          bool_decide (bi_binaryPort b <> "" /\ bi_instName b <> stateBoardInstName /\ listenSet = false)) as ->
    by (repeat case_bool_decide; destruct listenSet; naive_solver).
  destruct (decide (bi_instName b = stateBoardInstName)) as [Hi|Hi];
    [rewrite (decide_False (P := bi_instName b <> _)) by auto|rewrite (decide_True (P := bi_instName b <> _)) by done];
    destruct (decide (bi_appName b <> bi_instName b)), (decide (bi_logDir b <> "")), console as [c|];
    case_bool_decide as Hl;
    split_and!; try reflexivity; try (by intros c' [= <-]; split);
    try (by rewrite (decide_True (P := _ /\ _)) by done);
    try (by rewrite (decide_False (P := _ /\ _)) by done).
Qed.

(** A caller that sets TT_LISTEN, and an instance of an application. *)
Definition sample_base : baseInstance :=
  mkBase None None "/usr/bin/tarantool" "/app/init.lua" "/app" "app" "master" "/app/wal" "/app/memtx" "/app/vinyl"
    "/app/run/c" "/app/run/b" "/app/log" false Stdout Stderr.

Lemma script_environment_witness :
  env_value (script_env sample_base ["HOME=/root"; "TT_LISTEN=3301"; "PWD=/"] true "/app" (console_env "run/c")) "HOME"
    = Some "/root" /\
  env_value (script_env sample_base ["HOME=/root"; "TT_LISTEN=3301"; "PWD=/"] true "/app" (console_env "run/c"))
    "TT_LISTEN" = Some "3301".
Proof.
  destruct (script_environment sample_base ["HOME=/root"; "TT_LISTEN=3301"; "PWD=/"] true "/app" (Some "run/c") "HOME"
    eq_refl) as (Hh & _ & _ & _ & _ & _ & _ & Hl & _).
  assert ("HOME" ∉ script_names) as Hn by (eapply bool_decide_unpack; by vm_compute).
  split; [rewrite (Hh Hn)|rewrite Hl]; vm_compute; reflexivity.
Defined.

(** ** The station keeps the laws *)
Lemma status_code (Kill : Z -> Z -> option error) s f :
  ps_Code (ProcessStatus Kill no_error no_error s f) = ProcessRunningCode ->
  exists pid, GetPIDFromFile no_error no_error s f = Ok pid /\ Kill pid 0 = None /\
    ps_PID (ProcessStatus Kill no_error no_error s f) = pid.
Proof.
  unfold ProcessStatus, IsProcessAlive. destruct (GetPIDFromFile no_error no_error s f) as [pid|]; [|done].
  destruct (Kill pid 0) eqn:Hk; [done|]. cbn. by exists pid.
Qed.

Lemma GetPID_missing s f : links s !! f = None ->
  exists e, GetPIDFromFile no_error no_error s f = Err (Wrapf "can't stat the PID file. Error: %w" [] e) /\ e = ErrNotExist.
Proof.
  intros Hl. unfold GetPIDFromFile, stat_file. cbn [no_error]. rewrite decide_False by (rewrite Hl; by intros [? ?]).
  eauto.
Qed.

Lemma stat_missing s f : is_ok (stat_path s f) = false -> links s !! f = None.
Proof.
  unfold stat_path. destruct (links s !! f) eqn:Hl; [|done]. by rewrite decide_True by eauto.
Qed.

Lemma signal_one_others pid sig w q : q <> pid -> st_procs (signal_one pid sig w) !! q = st_procs w !! q.
Proof.
  intros Hq. unfold signal_one. destruct (st_procs w !! pid); [|done]. repeat case_match; try done;
    cbn; by rewrite lookup_delete_ne.
Qed.

Lemma station_alive w q : 0 <= q -> pu_IsProcessAlive w q = bool_decide (is_Some (st_procs w !! q)).
Proof.
  intros Hq. cbn. unfold IsProcessAlive, st_kill. rewrite decide_False by lia.
  case_bool_decide; [by rewrite decide_True|by rewrite decide_False].
Qed.

Lemma check_running (Kill : Z -> Z -> option error) s f :
  ps_Code (ProcessStatus Kill no_error no_error s f) = ProcessRunningCode ->
  exists e, CheckPIDFile Kill no_error no_error f s = (Some e, s).
Proof.
  intros (old & Hg & Hk & _)%status_code. unfold CheckPIDFile.
  assert (stat_file no_error s f = None) as ->.
  { revert Hg. unfold GetPIDFromFile. by destruct (stat_file no_error s f). }
  rewrite Hg. unfold IsProcessAlive. rewrite Hk. cbn. by eexists.
Qed.

#[export] Instance station_laws : SystemLaws station.
Proof.
  split.
  - intros w f Hs%stat_missing. cbn. destruct (GetPID_missing _ _ Hs) as (e & He & _).
    unfold ProcessStatus. by rewrite He.
  - intros w f (pid & Hg & Hk & Hp)%status_code. cbn. rewrite Hp. unfold IsProcessAlive. by rewrite Hk.
  - intros w f pid [e He]%check_running. cbn. unfold CreatePIDFile. rewrite He. cbn.
    eexists. unfold with_sys. by destruct w.
  - intros w f [e He]%check_running. cbn. rewrite He. cbn. eexists. unfold with_sys. by destruct w.
  - intros w f Hs. assert (links (st_sys w) !! f = None) as Hl by (apply stat_missing; by cbn in Hs; rewrite Hs).
    cbn. destruct (GetPID_missing _ _ Hl) as (e & He & ->). unfold stop_with, StopProcess, getRunningPid.
    rewrite He. by eexists.
  - intros w f r w'. cbn. unfold remove_file. destruct (is_ok (stat_path (st_sys w) f)) eqn:Hs; intros [= <- <-];
      [|by split_and!].
    split_and!; [intros _|intros g|done].
    + cbn. unfold stat_path, drop_path. cbn. rewrite lookup_delete_eq.
      rewrite decide_False by (by intros [? ?]). by rewrite decide_False by set_solver.
    + cbn. unfold stat_path, drop_path. cbn. destruct (decide (g = f)) as [->|Hg].
      { intros _. rewrite lookup_delete_eq, decide_False by (by intros [? ?]). by rewrite decide_False by set_solver. }
      rewrite lookup_delete_ne by done. destruct (decide (is_Some _)); [done|].
      destruct (decide (g ∈ dirs (st_sys w))); [done|]. intros _. by rewrite decide_False by set_solver.
  - intros w pid sig r w' Hp Hs q Hq Hq0. rewrite !station_alive by done. revert Hs. cbn. unfold signal_pid.
    destruct (st_kill w pid sig); [by intros [= _ <-]|].
    rewrite decide_False by lia. intros [= _ <-]. by rewrite signal_one_others.
  - intros w pid Hp. cbn. unfold signal_pid. destruct (st_kill w pid 0); [done|]. rewrite decide_False by lia.
    cbn. unfold signal_one. destruct (st_procs w !! pid); [|done]. by rewrite decide_True.
  - intros w pid r w' Hp Hw. cbn in Hw. unfold wait_process in Hw.
    assert (forall w1, st_procs w1 !! pid = None -> is_ok (signal_pid pid 0 w1).1 = false) as Hgone.
    { intros w1 H1. unfold signal_pid, st_kill. rewrite (decide_False (P := pid < 0)) by lia.
      by rewrite decide_False by (rewrite H1; by intros [? ?]). }
    destruct (st_procs w !! pid) as [p|] eqn:E; injection Hw as <- <-.
    + split; [apply Hgone; cbn; apply lookup_delete_eq|]. intros q Hq Hq0. rewrite !station_alive by done.
      cbn. by rewrite lookup_delete_ne.
    + split; [by apply Hgone|done].
  - intros w pid t r w'. cbn. by intros [= _ <-].
Qed.

Lemma station_removable f : removable (W := station) f.
Proof. intros w. cbn. unfold remove_file. by intros ->. Qed.

(** Process 7 runs the instance [app:master]. *)
Definition sample_run : InstanceCtx :=
  mkRunCtx "/app" "/app/init.lua" "app" "master" "/app/run" "/app/log" "/app/log/tt.log" "/app/wal" "/app/memtx"
    "/app/vinyl" "/app/run/tt.pid" false "/app/run/c" "/app/run/b" false false "" (mkInstance None).

Definition sample_station : station :=
  mkStation
    (mkSys (list_to_map [("/app/run/tt.pid", 0%nat); ("/app/init.lua", 1%nat)]) (list_to_map [(0%nat, "7"); (1%nat, "")])
       2 (list_to_set ["/app"; "/app/run"; "/app/log"; "/app/wal"; "/app/memtx"; "/app/vinyl"]))
    {[7 := mkProc 7 (fun _ => true) true (Ok tt) []]} 8 5 [] ["/usr/bin/tarantool"] []
    (fun _ => mkProc 5 (fun sig => bool_decide (sig = SIGKILL)) false (Err (Errorf "signal: killed" [])) []).

Definition sample_ctx : CmdCtx :=
  mkCmdCtx (mkCliCtx false "" "/app/tt.yaml" "" false "/usr/bin/tarantool" "" 0 false) "/app" "start" zero_version.

(** It does not obey signals and does not end in time. *)
Definition slow_station : station :=
  with_procs sample_station {[7 := mkProc 7 (fun _ => false) false (Ok tt) []]}.

Lemma StopWithSignal_ends_witness :
  exists pc' w', pc_StopWithSignal (mkController 7 false) 30 SIGINT slow_station = (Ok pc', w') /\
    pc_IsAlive pc' w' = (Ok false, w').
Proof.
  destruct (pc_StopWithSignal (mkController 7 false) 30 SIGINT slow_station) as [[pc'|e] w'] eqn:E.
  - exists pc', w'. split; [done|].
    apply (StopWithSignal_ends (mkController 7 false) 30 SIGINT slow_station pc' w'); [cbn; lia|exact E].
  - exfalso. vm_compute in E. discriminate E.
Defined.

Lemma foreground_start_hides_witness :
  exists e w', RunInstance (fun _ _ => None) "" sample_ctx sample_run Stdout Stderr sample_station = (Err e, w') /\
    pu_IsProcessAlive w' 7 = true /\ Status w' sample_run = ProcStateStopped.
Proof.
  destruct (launch_instance (fun _ _ => None) "" sample_ctx sample_run Stdout Stderr sample_station) as [[inst|e] w1] eqn:E;
    [|exfalso; vm_compute in E; discriminate E].
  assert (bi_controller (base_of inst) = Some (mkController 8 false) /\
          Status w1 sample_run = mkProcessState ProcessRunningCode "RUNNING" 7) as [Hc Hs].
  { vm_compute in E. injection E as <- <-. split; vm_compute; reflexivity. }
  destruct (foreground_start_hides (fun _ _ => None) "" sample_ctx sample_run Stdout Stderr sample_station inst
    (mkController 8 false) w1 E Hc) as (e & w' & Hr & Ha & Ht).
  - cbn. lia.
  - rewrite Hs. reflexivity.
  - rewrite Hs. cbn. lia.
  - rewrite Hs. cbn. lia.
  - apply station_removable.
  - exists e, w'. rewrite Hs in Ha. split_and!; [exact Hr|exact Ha|exact Ht].
Defined.

(** ** Commands *)

(** [tt check] checks every script once. *)
Theorem unique_scripts_once l :
  NoDup (map run_InstanceScript (unique_scripts l)) /\
  (forall s, s ∈ map run_InstanceScript (unique_scripts l) <-> s ∈ map run_InstanceScript l).
Proof.
  unfold unique_scripts.
  set (step := fun uniqueInst inst => if existsb _ uniqueInst then uniqueInst else uniqueInst ++ [inst]).
  assert (forall l acc, NoDup (map run_InstanceScript acc) ->
    NoDup (map run_InstanceScript (fold_left step l acc)) /\
    (forall s, s ∈ map run_InstanceScript (fold_left step l acc) <->
       s ∈ map run_InstanceScript acc \/ s ∈ map run_InstanceScript l)) as Hgen.
  { clear l. induction l as [|i l IH]; intros acc Hacc; cbn [fold_left map].
    { split; [done|]. intros s. rewrite elem_of_nil. naive_solver. }
    assert (existsb (fun u => bool_decide (run_InstanceScript i = run_InstanceScript u)) acc = true <->
            run_InstanceScript i ∈ map run_InstanceScript acc) as Hex.
    { rewrite existsb_exists, list_elem_of_fmap. setoid_rewrite bool_decide_eq_true.
      setoid_rewrite list_elem_of_In. naive_solver. }
    unfold step at 2 4. destruct (existsb _ acc) eqn:E.
    - destruct (IH acc Hacc) as [Hnd Hin]. split; [done|]. intros s. rewrite Hin, elem_of_cons.
      destruct Hex as [Hex _]. naive_solver.
    - assert (run_InstanceScript i ∉ map run_InstanceScript acc) as Hni by (rewrite <- Hex; done).
      destruct (IH (acc ++ [i])) as [Hnd Hin].
      { rewrite map_app. apply NoDup_app. split_and!; [done| |apply NoDup_singleton].
        intros s Hs ->%list_elem_of_singleton. done. }
      split; [done|]. intros s. rewrite Hin, map_app, elem_of_app, elem_of_cons. cbn.
      rewrite list_elem_of_singleton. naive_solver. }
  destruct (Hgen l [] (NoDup_nil_2)) as [Hnd Hin]. split; [done|]. intros s. rewrite Hin. cbn.
  rewrite elem_of_nil. naive_solver.
Qed.

(** An instance whose PID file is lost and whose console still answers has its mode
    in the column of the PID. *)
Theorem status_row_shifted {W} `{PidFiles W} (eval_ro : InstanceCtx -> W -> option (list value) * W) run (w : W) ro w' :
  Status w run = ProcStateStopped -> eval_ro run w = (Some [VBool ro], w') ->
  status_row eval_ro run w =
    (Ok [CText (GetAppInstanceName run); CText "NOT RUNNING"; CText (if ro then "RO" else "RW")], w').
Proof. intros Hs He. unfold status_row. by rewrite Hs, He. Qed.

(** Without a logger a new one is not created, as the comment on [UpdateLogger]
    says, but a nil logger is closed. *)
Theorem UpdateLogger_nil {W} `{OS W, Files W, !Processes W} (i : InstanceCtx) (w : W) :
  UpdateLogger None (Some i) w = (nil_deref, w).
Proof. done. Qed.
