(* ===== verification/Daemon.v ===== *)
(** * The daemon ([cli/daemon], [cli/daemon/api], [cli/cmd/daemon.go])

    A process in the background that answers HTTP requests by running [tt]: how it
    is started and stopped through its PID file, the address it listens on and
    the handler of a request.  Sockets, the network interfaces, the encoder and
    decoder of JSON and runs of programs are parameters.  [log.Fatal] and the
    [Fatal] of a logger end the process: here they are errors. *)
From S2P Require Import Prelude GoStrings GoPath Regexp GoOs GoFs Configure Version.
From S2P Require Import ProcessUtils Install Running Instances Control InstancesProps.
Local Open Scope Z_scope.
Local Open Scope io_scope.

(** ** Contexts *)
Record DaemonCtx := mkDaemonCtx {
  dc_Port : Z; dc_PIDFile : string; dc_LogPath : string; dc_ListenInterface : string
}.

Definition NewDaemonCtx (opts : DaemonOpts) : DaemonCtx :=
  mkDaemonCtx (daemon_Port opts) (filepath_Join [daemon_RunDir opts; daemon_PIDFile opts])
    (filepath_Join [daemon_LogDir opts; daemon_LogFile opts]) "".

(** ** The server ([httpserver.go]) *)
Record HTTPServer := mkHTTPServer {
  srv_listenIface : string; srv_port : Z; srv_timeout : Z; srv_logger : option Logger
}.

(** In milliseconds. *)
Definition defaultStopTimeout : Z := 100.

Definition NewHTTPServer (listenInterface : string) (port : Z) : HTTPServer :=
  mkHTTPServer listenInterface port defaultStopTimeout None.
Definition Timeout (timeout : Z) (s : HTTPServer) : HTTPServer :=
  mkHTTPServer (srv_listenIface s) (srv_port s) timeout (srv_logger s).
Definition SetLogger (logger : Logger) (s : HTTPServer) : HTTPServer :=
  mkHTTPServer (srv_listenIface s) (srv_port s) (srv_timeout s) (Some logger).

(** An address of an interface: its text and whether it has four bytes. *)
Record IP := mkIP { ip_text : string; ip_is4 : bool }.
Inductive Addr := IPNet (ip : option IP) | IPAddr (ip : option IP) | OtherAddr.
Record Iface := mkIface { if_up : bool; if_Addrs : result (list Addr) }.

Definition addr_ip (a : Addr) : option IP :=
  match a with IPNet ip | IPAddr ip => ip | OtherAddr => None end.

Fixpoint first_ip4 (addrs : list Addr) : result string :=
  match addrs with
  | [] => Err (Errorf "listen IP is not available" [])
  | a :: addrs =>
      match addr_ip a with
      | Some ip => if ip_is4 ip then Ok (ip_text ip) else first_ip4 addrs
      | None => first_ip4 addrs
      end
  end.

(** ** Requests ([api/http.go], [api/parser.go]) *)
Record request := mkRequest { req_Header : string -> string; req_RemoteAddr : string; req_Body : result string }.
Record command := mkCommand { cmd_Name : string; cmd_Params : list string }.
Inductive response := resResult (res : string) | errorResult (err : string).

Record DaemonHandler := mkDaemonHandler { h_cmdPath : string; h_logger : option Logger }.
Definition NewDaemonHandler (cmdPath : string) : DaemonHandler := mkDaemonHandler cmdPath None.
Definition set_Logger (logger : Logger) (h : DaemonHandler) : DaemonHandler :=
  mkDaemonHandler (h_cmdPath h) (Some logger).

Definition StatusOK : Z := 200.
Definition StatusBadRequest : Z := 400.

Section Api.
Context {W : Type}.
(** The text of an error, [net.ParseIP] (whether it is one) and the host of
    [net.SplitHostPort]. *)
Context (err_text : error -> string) (ParseIP : string -> bool) (SplitHostPort : string -> result string).
(** The decoder of [commandJSON], which refuses unknown fields, and mapstructure. *)
Context (decode_json : string -> result (string * list string)).
Context (mapstructure_Decode : string * list string -> result command).
Context (json_Marshal : response -> result string).
(** A run of a program: its output, what it writes to the standard error and how it
    ends. *)
Context (exec_output : string -> list string -> W -> string * string * option error * W).

(** The text of the command's failure is used as a format. *)
Definition callCommand (h : DaemonHandler) (ttCmd : command) (w : W) : result string * W :=
  let '(stdout, stderr, err, w) := exec_output (h_cmdPath h) (cmd_Name ttCmd :: cmd_Params ttCmd) w in
  match err with
  | None => (Ok (stdout +:+ stderr), w)
  | Some err => (Err (Errorf (err_text err +:+ ": " +:+ stderr) []), w)
  end.

Definition getClientIP (req : request) : result string :=
  let ip := req_Header req "X-REAL-IP" in
  if ParseIP ip then Ok ip
  else
    match List.find ParseIP (Split (req_Header req "X-FORWARDED-FOR") ",") with
    | Some ip => Ok ip
    | None =>
        ip <-? SplitHostPort (req_RemoteAddr req);;
        if ParseIP ip then Ok (req_RemoteAddr req) else Err (Errorf "no valid IP found" [])
    end.

(** The body for the log, and the command. *)
Definition parseCommand (body : result string) : string * result command :=
  match body with
  | Err err => (err_text err, Err (Errorf "failed to read request body: %s" [err_text err]))
  | Ok rawBody =>
      (rawBody,
       cmdJSON <-? decode_json rawBody;;
       match mapstructure_Decode cmdJSON with
       | Err err => Err (Errorf "failed to parse command params: '%v'" [err_text err])
       | Ok cmd => Ok cmd
       end)
  end.

(** The line of the log, the status and the answer. *)
Definition ServeHTTP (h : DaemonHandler) (req : request) (w : W) : string * Z * response * W :=
  let clientIpMsg := match getClientIP req with Ok ip => ip | Err err => err_text err end in
  let '(rawBody, parsed) := parseCommand (req_Body req) in
  let '(status, res, w) :=
    match parsed with
    | Err err => (StatusBadRequest, errorResult (err_text err), w)
    | Ok cmd =>
        let '(r, w) := callCommand h cmd w in
        (StatusOK, match r with Ok out => resResult out | Err err => errorResult (err_text err) end, w)
    end in
  let jsonResMsg := match json_Marshal res with Ok text => text | Err err => err_text err end in
  ("Client IP: " +:+ clientIpMsg +:+ "; Request body: " +:+ rawBody +:+ "; Response body: " +:+ jsonResMsg,
   status, res, w).
End Api.

Section Daemon.
Context {W : Type} `{OS W, Files W, Host W, Processes W, PidFiles W}.
Context (InterfaceByName : W -> string -> result Iface).
(** [net.Listen]; [srv.Serve] with the error that ends it ([None] when the server was
    closed); [srv.Shutdown] of a server that runs, within a time. *)
Context (net_Listen : string -> io W unit) (srv_Serve : string -> DaemonHandler -> W -> option error * W).
Context (srv_running : W -> bool) (srv_Shutdown : Z -> io W unit).
Context (decode_daemon : W -> string -> result (option DaemonOpts)).
Context (os_Args : list string).

Definition listenIP (s : HTTPServer) (w : W) : result string :=
  if decide (srv_listenIface s = "") then Ok "0.0.0.0"
  else
    iface <-? InterfaceByName w (srv_listenIface s);;
    if negb (if_up iface) then Err (Errorf "interface down" [])
    else addrs <-? if_Addrs iface;; first_ip4 addrs.

Definition HTTPServer_Start (s : HTTPServer) (ttPath : string) : io W unit :=
  ip <- io_wrap "Can't get IP" [] (look (listenIP s)) ;;
  let addr := ip +:+ ":" +:+ FormatInt (srv_port s) in
  let handler := mkDaemonHandler ttPath (srv_logger s) in
  net_Listen addr ;;;
  fun w => match srv_Serve addr handler w with
           | (None, w) => (Ok tt, w)
           | (Some _, w) => (Err (Errorf "Can't start HTTP server" []), w)
           end.

Definition HTTPServer_Stop (s : HTTPServer) : io W unit :=
  running <- ask srv_running ;;
  if negb running then throw (Errorf "server is not started" []) else srv_Shutdown (srv_timeout s).

(** ** The process ([process.go]) *)
Definition EnvName : string := "TT_CLI_DAEMON".

Record Process := mkProcess {
  pr_logFile : string; pr_pidFileName : string; pr_cmdPath : string; pr_cmdArgs : list string;
  pr_worker : HTTPServer; pr_DaemonTag : string
}.

Definition NewProcess (worker : HTTPServer) (pidFileName logFile : string) : Process :=
  mkProcess logFile pidFileName (List.hd "" os_Args) (List.tl os_Args) worker EnvName.
Definition CmdPath (cmdPath : string) (p : Process) : Process :=
  mkProcess (pr_logFile p) (pr_pidFileName p) cmdPath (pr_cmdArgs p) (pr_worker p) (pr_DaemonTag p).
Definition CmdArgs (cmdArgs : list string) (p : Process) : Process :=
  mkProcess (pr_logFile p) (pr_pidFileName p) (pr_cmdPath p) cmdArgs (pr_worker p) (pr_DaemonTag p).

Definition IsChild (p : Process) (w : W) : bool := bool_decide (Getenv w (pr_DaemonTag p) = "true").

(** A child has its worker running and waits for a signal, a parent has started the
    child. *)
Inductive started := Serving (worker : HTTPServer) | Released (pid : Z).

Definition Process_Start (p : Process) : io W started :=
  child <- ask (IsChild p) ;;
  if child : bool then
    logger <- io_wrap "failed to create log: %s" [] (NewFileLogger (pr_logFile p) "") ;;
    pid <- ask os_Getpid ;;
    pu_CreatePIDFile (pr_pidFileName p) pid ;;;
    ret (Serving (SetLogger logger (pr_worker p)))
  else
    pu_CheckPIDFile (pr_pidFileName p) ;;;
    environ <- ask os_Environ ;;
    pid <- exec_Start (mkCmd (pr_cmdPath p) (pr_cmdArgs p) (environ ++ [pr_DaemonTag p +:+ "=true"]) "" ""
                         DevNull DevNull false) ;;
    ret (Released pid).

(** On SIGINT or SIGTERM: the code that the process exits with.  The server is stopped
    beside the removal of the file. *)
Context (os_Unsetenv : string -> io W unit).
Definition Process_Stop (p : Process) (worker : HTTPServer) (w : W) : Z * W :=
  let '(_, w) := os_Remove (pr_pidFileName p) w in
  let '(_, w) := os_Unsetenv (pr_DaemonTag p) w in
  let '(r, w) := HTTPServer_Stop worker w in
  (if is_ok r then 0 else 1, w).

(** ** The commands *)
Definition daemon_process (c : DaemonCtx) : Process :=
  CmdArgs ["daemon"; "start"] (CmdPath (List.hd "" os_Args)
    (NewProcess (NewHTTPServer (dc_ListenInterface c) (dc_Port c)) (dc_PIDFile c) (dc_LogPath c))).

Definition RunHTTPServerOnBackground (c : DaemonCtx) : io W started := Process_Start (daemon_process c).

Definition StopDaemon (c : DaemonCtx) : io W unit := pu_StopProcess (dc_PIDFile c) ;;; ret tt.

Definition daemon_ctx (cfgPath : string) (w : W) : result DaemonCtx :=
  rmap NewDaemonCtx (GetDaemonOpts decode_daemon w cfgPath).

Definition internalDaemonStartModule (cfgPath : string) : io W started :=
  c <- look (daemon_ctx cfgPath) ;; RunHTTPServerOnBackground c.

Definition internalDaemonStopModule (cfgPath : string) : io W unit :=
  c <- look (daemon_ctx cfgPath) ;; StopDaemon c.

Definition internalDaemonRestartModule (cfgPath : string) : io W started :=
  internalDaemonStopModule cfgPath ;;; internalDaemonStartModule cfgPath.

Definition internalDaemonStatusModule (cfgPath : string) : io W string :=
  c <- look (daemon_ctx cfgPath) ;; ask (fun w => ProcessState_String (pu_ProcessStatus w (dc_PIDFile c))).
End Daemon.

(** ** What holds *)

(** The interface of the configuration never reaches the server: it listens on all of
    them. *)
Theorem listen_interface_ignored {W} (InterfaceByName : W -> string -> result Iface) opts w :
  listenIP InterfaceByName
    (NewHTTPServer (dc_ListenInterface (NewDaemonCtx opts)) (dc_Port (NewDaemonCtx opts))) w = Ok "0.0.0.0".
Proof. done. Qed.

Section answers.
Context {W : Type} (err_text : error -> string) (ParseIP : string -> bool) (SplitHostPort : string -> result string).
Context (decode_json : string -> result (string * list string)).
Context (mapstructure_Decode : string * list string -> result command).
Context (json_Marshal : response -> result string).
Context (exec_output : string -> list string -> W -> string * string * option error * W).

Notation serve := (ServeHTTP err_text ParseIP SplitHostPort decode_json mapstructure_Decode json_Marshal exec_output).

(** A request that cannot be parsed is answered with 400 and runs nothing; any other
    is answered with 200 after exactly one run of [tt] with the name and the
    parameters of the request, whatever command that is. *)
Theorem ServeHTTP_runs h req (w : W) :
  let '(line, status, res, w') := serve h req w in
  match (parseCommand err_text decode_json mapstructure_Decode (req_Body req)).2 with
  | Err e => status = StatusBadRequest /\ res = errorResult (err_text e) /\ w' = w
  | Ok cmd =>
      status = StatusOK /\
      let '(stdout, stderr, err, w1) := exec_output (h_cmdPath h) (cmd_Name cmd :: cmd_Params cmd) w in
      w' = w1 /\ (err = None -> res = resResult (stdout +:+ stderr))
  end.
Proof.
  unfold ServeHTTP. destruct (parseCommand _ _ _ (req_Body req)) as [rawBody [cmd|e]]; [|done].
  cbn [snd]. unfold callCommand.
  destruct (exec_output (h_cmdPath h) (cmd_Name cmd :: cmd_Params cmd) w) as [[[out err] [e|]] w1]; [done|].
  split_and!; [done..|]. by intros _.
Qed.
End answers.

(** Addresses after the first one of a list with blanks are not recognised. *)
Example forwarded_with_blank :
  let ParseIP s := bool_decide (s = "10.0.0.1") in
  let req := mkRequest (fun h => if decide (h = "X-FORWARDED-FOR") then "unknown, 10.0.0.1" else "") "peer:1" (Ok "") in
  getClientIP ParseIP (fun _ => Ok "10.0.0.1") req = Ok "peer:1".
Proof. vm_compute. reflexivity. Qed.

Section exclusive.
Context {W : Type} `{OS W, Files W, !Host W, !Processes W, !PidFiles W, !SystemLaws W}.
Context (decode_daemon : W -> string -> result (option DaemonOpts)) (os_Args : list string).

(** While the daemon runs another start fails and changes nothing. *)
Theorem daemon_not_started_twice cfgPath (w : W) c :
  daemon_ctx decode_daemon cfgPath w = Ok c ->
  ps_Code (pu_ProcessStatus w (dc_PIDFile c)) = ProcessRunningCode ->
  IsChild (daemon_process os_Args c) w = false ->
  exists e, internalDaemonStartModule decode_daemon os_Args cfgPath w = (Err e, w).
Proof.
  intros Hc Hr Hp. unfold internalDaemonStartModule. rewrite io_bind_look, Hc.
  unfold RunHTTPServerOnBackground, Process_Start. rewrite io_bind_ask, Hp.
  destruct (law_check_running w (dc_PIDFile c) Hr) as [e He]. exists e.
  unfold io_bind at 1. cbn [daemon_process pr_pidFileName CmdArgs CmdPath NewProcess]. by rewrite He.
Qed.

(** A restart of a daemon that was stopped before, whose file is gone, fails and starts
    nothing. *)
Theorem restart_needs_daemon cfgPath (w : W) c :
  daemon_ctx decode_daemon cfgPath w = Ok c -> Stat w (dc_PIDFile c) = Err ErrNotExist ->
  exists e, internalDaemonRestartModule decode_daemon os_Args cfgPath w = (Err e, w).
Proof.
  intros Hc Hs. unfold internalDaemonRestartModule, internalDaemonStopModule.
  unfold io_bind at 1. rewrite io_bind_look, Hc. unfold StopDaemon, io_bind.
  destruct (law_stop_missing w (dc_PIDFile c) Hs) as (e & -> & _). by exists e.
Qed.
End exclusive.
