(* ===== verification/Watchdog.v ===== *)
(** * The watchdog of an instance ([cli/running/watchdog.go])

    A watchdog starts an instance, waits for it and restarts it; a goroutine
    handles the signals it gets and another one checks the integrity of files
    from time to time.  The goroutines and their environment are a step
    function: a [choice] says which of them moves and how the calls it makes
    turn out, so that a run is a list of choices. *)
From S2P Require Import Prelude.

Inductive signal := SIGINT | SIGTERM | SIGQUIT | SIGHUP | OtherSignal (n : nat).

(** Where the goroutine of [Start] is. *)
Inductive main_pc :=
| Create         (* [wd.provider.CreateInstance] *)
| PreStart       (* [wd.preStartAction()] *)
| PreStartFailed (* [watchdogCancel()] done, [wd.doneBarrier.Wait()] *)
| LoopLock       (* [wd.stopMutex.Lock()] *)
| LoopStart      (* under the mutex: the flag and [wd.instance.Start] *)
| WaitInstance   (* [wd.instance.Wait()] *)
| CancelCtx      (* [watchdogCancel()] *)
| Barrier        (* [wd.doneBarrier.Wait()] *)
| CheckRestart   (* [wd.provider.IsRestartable()] and the flag *)
| UpdateLogger   (* [wd.provider.UpdateLogger] *)
| Sleep          (* [time.Sleep(wd.restartTimeout)] *)
| ResetFlag      (* [wd.shouldStop = false] *)
| Recreate       (* [wd.provider.CreateInstance] *)
| Rearm          (* the new context, integrity checks and signal handling *)
| Returned (failed : bool).

(** Where the goroutine that handles signals is. *)
Inductive handler_pc :=
| HOff                   (* not running *)
| HSelect                (* the [select] *)
| HLock (sig : signal)   (* [wd.stopMutex.Lock()] *)
| HSet (sig : signal)    (* under the mutex: [wd.shouldStop = true] *)
| HStop (sig : signal)   (* [IsAlive], then [Stop] or [StopWithSignal] *)
| HForward (sig : signal). (* [IsAlive], then [SendSignal] *)

Inductive owner := OMain | OHandler.

(** What the watchdog does to the instance and to its logger. *)
Inductive event := EStart | EStop (sig : signal) | ESend (sig : signal) | ERotate | EIntegrity.

(** [pending] is the buffer of the channel that [signal.Notify] fills;
    [cancelled] is the state of the current context; [checking] says whether
    the goroutine of the integrity checks runs; [alive] is the process of the
    instance.  [events] has the latest first. *)
Record watchdog := mkWatchdog {
  pc : main_pc;
  handler : handler_pc;
  checking : bool;
  mutex : option owner;
  shouldStop : bool;
  cancelled : bool;
  alive : bool;
  pending : option signal;
  events : list event
}.

Definition with_pc (s : watchdog) (p : main_pc) : watchdog :=
  mkWatchdog p (handler s) (checking s) (mutex s) (shouldStop s) (cancelled s) (alive s)
    (pending s) (events s).
Definition with_handler (s : watchdog) (h : handler_pc) : watchdog :=
  mkWatchdog (pc s) h (checking s) (mutex s) (shouldStop s) (cancelled s) (alive s)
    (pending s) (events s).
Definition with_mutex (s : watchdog) (o : option owner) : watchdog :=
  mkWatchdog (pc s) (handler s) (checking s) o (shouldStop s) (cancelled s) (alive s)
    (pending s) (events s).
Definition with_flag (s : watchdog) (b : bool) : watchdog :=
  mkWatchdog (pc s) (handler s) (checking s) (mutex s) b (cancelled s) (alive s)
    (pending s) (events s).
Definition with_alive (s : watchdog) (b : bool) : watchdog :=
  mkWatchdog (pc s) (handler s) (checking s) (mutex s) (shouldStop s) (cancelled s) b
    (pending s) (events s).
Definition with_pending (s : watchdog) (p : option signal) : watchdog :=
  mkWatchdog (pc s) (handler s) (checking s) (mutex s) (shouldStop s) (cancelled s) (alive s)
    p (events s).
Definition cancel (s : watchdog) : watchdog :=
  mkWatchdog (pc s) (handler s) (checking s) (mutex s) (shouldStop s) true (alive s)
    (pending s) (events s).
Definition stop_checking (s : watchdog) : watchdog :=
  mkWatchdog (pc s) (handler s) false (mutex s) (shouldStop s) (cancelled s) (alive s)
    (pending s) (events s).
Definition record (s : watchdog) (e : event) : watchdog :=
  mkWatchdog (pc s) (handler s) (checking s) (mutex s) (shouldStop s) (cancelled s) (alive s)
    (pending s) (e :: events s).

(** ** [NewWatchdog] *)
Definition NewWatchdog : watchdog :=
  mkWatchdog Create HOff false None false false false None [].

Section Step.
(** [wd.integrityCheckPeriod != 0] *)
Variable integrityChecks : bool.

(** A new context, [startSignalHandling] with a new channel and, when they are
    on, [startIntegrityChecks]. *)
Definition start_goroutines (s : watchdog) : watchdog :=
  mkWatchdog (pc s) HSelect integrityChecks (mutex s) (shouldStop s) false (alive s) None (events s).

(** How a call of the main goroutine turns out; [No] is the answer false of
    [IsRestartable]. *)
Inductive answer := Yes | No | Error.

(** [wd.doneBarrier.Wait()] *)
Definition barrier_open (s : watchdog) : bool :=
  match handler s with HOff => negb (checking s) | _ => false end.

(** [None]: the goroutine is blocked. *)
Definition main_step (a : answer) (s : watchdog) : option watchdog :=
  match pc s with
  | Create =>
      match a with
      | Error => Some (with_pc s (Returned true))
      | _ => Some (with_pc (start_goroutines s) PreStart)
      end
  | PreStart =>
      match a with
      | Error => Some (with_pc (cancel s) PreStartFailed)
      | _ => Some (with_pc s LoopLock)
      end
  | PreStartFailed => if barrier_open s then Some (with_pc s (Returned true)) else None
  | LoopLock =>
      match mutex s with
      | None => Some (with_pc (with_mutex s (Some OMain)) LoopStart)
      | Some _ => None
      end
  | LoopStart =>
      if shouldStop s then Some (with_pc (with_mutex s None) (Returned false))
      else
        match a with
        | Error => Some (with_pc (with_mutex s None) (Returned false))
        | _ => Some (with_pc (with_mutex (with_alive (record s EStart) true) None) WaitInstance)
        end
  | WaitInstance => if alive s then None else Some (with_pc s CancelCtx)
  | CancelCtx => Some (with_pc (cancel s) Barrier)
  | Barrier => if barrier_open s then Some (with_pc s CheckRestart) else None
  | CheckRestart =>
      match a with
      | Error => Some (with_pc s (Returned false))
      | No => Some (with_pc s (Returned false))
      | Yes => Some (with_pc s (if shouldStop s then Returned false else UpdateLogger))
      end
  | UpdateLogger =>
      match a with
      | Error => Some (with_pc s (Returned false))
      | _ => Some (with_pc s Sleep)
      end
  | Sleep => Some (with_pc s ResetFlag)
  | ResetFlag => Some (with_pc (with_flag s false) Recreate)
  | Recreate =>
      match a with
      | Error => Some (with_pc s (Returned true))
      | _ => Some (with_pc s Rearm)
      end
  | Rearm => Some (with_pc (start_goroutines s) LoopLock)
  | Returned _ => None
  end.

Definition is_stop_signal (sig : signal) : bool :=
  match sig with SIGINT | SIGTERM | SIGQUIT => true | _ => false end.

(** [from_channel]: which ready case of the [select] is taken; [stopped]: whether the
    process has ended when [Stop] or [StopWithSignal] returns.  Their errors are ignored, so
    that a process may outlive them. *)
Definition handler_step (from_channel stopped : bool) (s : watchdog) : option watchdog :=
  match handler s with
  | HOff => None
  | HSelect =>
      if from_channel then
        match pending s with
        | None => None
        | Some sig =>
            Some (with_pending
              (with_handler s (if is_stop_signal sig then HLock sig else HForward sig)) None)
        end
      else if cancelled s then Some (with_handler s HOff) else None
  | HLock sig =>
      match mutex s with
      | None => Some (with_handler (with_mutex s (Some OHandler)) (HSet sig))
      | Some _ => None
      end
  | HSet sig => Some (with_handler (with_mutex (with_flag s true) None) (HStop sig))
  | HStop sig =>
      Some (with_handler
        (if alive s then with_alive (record s (EStop sig)) (negb stopped) else s) HSelect)
  | HForward sig =>
      let s := match sig with SIGHUP => record s ERotate | _ => s end in
      Some (with_handler (if alive s then record s (ESend sig) else s) HSelect)
  end.

(** A tick of the timer, with the outcome of [ValidateAll], or the end of the
    context. *)
Definition integrity_step (tick : option bool) (s : watchdog) : option watchdog :=
  if checking s then
    match tick with
    | Some true => Some s
    | Some false => Some (stop_checking (record s EIntegrity))
    | None => if cancelled s then Some (stop_checking s) else None
    end
  else None.

(** The channel has room for one signal; [signal.Notify] drops what does not
    fit.  Before [Create] has started the handling no channel exists. *)
Definition deliver (sig : signal) (s : watchdog) : option watchdog :=
  match pc s with
  | Create => None
  | _ =>
      match pending s with
      | None => Some (with_pending s (Some sig))
      | Some _ => Some s
      end
  end.

Inductive choice :=
| Main (a : answer)
| Handler (from_channel stopped : bool)
| Integrity (tick : option bool)
| Deliver (sig : signal)
| InstanceExits.

Definition step (ch : choice) (s : watchdog) : option watchdog :=
  match ch with
  | Main a => main_step a s
  | Handler b stopped => handler_step b stopped s
  | Integrity t => integrity_step t s
  | Deliver sig => deliver sig s
  | InstanceExits => if alive s then Some (with_alive s false) else None
  end.

Fixpoint run (chs : list choice) (s : watchdog) : option watchdog :=
  match chs with
  | [] => Some s
  | ch :: rest => match step ch s with Some s' => run rest s' | None => None end
  end.

(** ** Runs as a relation *)
Definition steps_to (s s' : watchdog) : Prop := exists ch, step ch s = Some s'.
Definition reachable (s : watchdog) : Prop := rtc steps_to NewWatchdog s.

Definition is_start (e : event) : bool := match e with EStart => true | _ => false end.

(** Whether the instance was asked to stop since it was started last. *)
Fixpoint stop_tried (l : list event) : bool :=
  match l with
  | [] | EStart :: _ => false
  | EStop _ :: _ => true
  | _ :: l => stop_tried l
  end.

(** How often the instance was started. *)
Definition starts (s : watchdog) : nat := length (List.filter is_start (events s)).
End Step.

(** * What the watchdog guarantees, whatever the order of its goroutines *)

Section Watchdog.
Context (integrityChecks : bool).
Notation step := (step integrityChecks).
Notation steps_to := (steps_to integrityChecks).
Notation reachable := (reachable integrityChecks).

(** ** The invariant *)

(** Between the barrier and the next start of the goroutines. *)
Definition alone (p : main_pc) : bool :=
  match p with
  | CheckRestart | UpdateLogger | Sleep | ResetFlag | Recreate | Rearm => true
  | _ => false
  end.

(** After the flag was found false. *)
Definition restarting (p : main_pc) : bool :=
  match p with UpdateLogger | Sleep | ResetFlag | Recreate | Rearm => true | _ => false end.

(** Who holds the mutex, from where the goroutines are. *)
Definition holder (p : main_pc) (h : handler_pc) : option owner :=
  match p, h with
  | LoopStart, _ => Some OMain
  | _, HSet _ => Some OHandler
  | _, _ => None
  end.

Record inv (s : watchdog) : Prop := {
  inv_mutex : mutex s = holder (pc s) (handler s);
  inv_exclusive : pc s = LoopStart -> forall sig, handler s <> HSet sig;
  inv_alone : alone (pc s) = true -> handler s = HOff /\ checking s = false;
  inv_restarting : restarting (pc s) = true -> shouldStop s = false;
  inv_alive : alive s = true -> pc s = WaitInstance;
  inv_stopped : shouldStop s = true -> alive s = true ->
    (exists sig, handler s = HStop sig) \/ stop_tried (events s) = true;
  inv_create : pc s = Create -> handler s = HOff /\ shouldStop s = false
}.

Lemma inv_init : inv NewWatchdog.
Proof. by split. Qed.

Ltac step_cases :=
  repeat match goal with
  | H : context [match ?x with _ => _ end] |- _ =>
      lazymatch x with context [match _ with _ => _ end] => fail | _ => destruct x eqn:? end
  | H : Some _ = Some _ |- _ => injection H as <-
  | H : None = Some _ |- _ => discriminate H
  end.

Ltac solve_inv := constructor; cbn in *; intros; subst; try congruence; try discriminate; eauto.

Lemma inv_main a s s' : inv s -> main_step integrityChecks a s = Some s' -> inv s'.
Proof.
  intros [Hm Hx Ha Hr Hal Hsd Hc] Hs. destruct s as [p h k m f cn al pd ev].
  unfold main_step, barrier_open in Hs. cbn in *. destruct p; cbn in *; subst m;
    try (destruct (Ha eq_refl) as [Eh Ek]; clear Ha; subst h k);
    try (destruct (Hc eq_refl) as [Eh Ef]; clear Hc; subst h f);
    try (specialize (Hr eq_refl)); try (destruct al; [discriminate (Hal eq_refl)|]);
    step_cases; subst; solve_inv.
  all: try (destruct h; [done..|by destruct (Hx eq_refl sig)|done|done]).
  by destruct k.
Qed.

Lemma inv_handler b stopped s s' : inv s -> handler_step b stopped s = Some s' -> inv s'.
Proof.
  intros [Hm Hx Ha Hr Hal Hsd Hc] Hs. destruct s as [p h k m f cn al pd ev].
  assert (alone p = true -> h = HOff) as Ha' by (intros; by apply Ha).
  unfold handler_step in Hs. cbn in *. destruct h; cbn in *; try discriminate;
    assert (alone p = false) as Hp by (destruct (alone p); [discriminate (Ha' eq_refl)|done]);
    assert (p <> Create) as Hcr by (intros ->; by destruct (Hc eq_refl));
    subst m; step_cases; subst; solve_inv.
  all: try (by destruct p); try (destruct p; try done; by destruct (Hx eq_refl sig)).
  all: destruct Hsd as [[? Hd]|Hd]; [done..|discriminate Hd|by right].
Qed.

Lemma inv_step ch s s' : inv s -> step ch s = Some s' -> inv s'.
Proof.
  intros Hi. destruct ch as [a|b stopped|tick|sig|]; cbn [Watchdog.step].
  - by apply inv_main.
  - by apply inv_handler.
  - destruct Hi, s. unfold integrity_step. intros Hs. cbn in *. step_cases; solve_inv.
    all: destruct (inv_alone0 ltac:(done)); split; done || congruence.
  - destruct Hi, s. unfold deliver. intros Hs. cbn in *. step_cases; solve_inv.
  - destruct Hi, s. intros Hs. cbn in *. step_cases; solve_inv.
Qed.

Lemma reachable_inv s : reachable s -> inv s.
Proof.
  intros Hr. assert (forall s0, rtc steps_to s0 s -> inv s0 -> inv s) as Hall.
  { clear Hr. induction 1 as [|x y z [ch Hs] _ IH]; [done|]. intros Hi. apply IH.
    by eapply inv_step. }
  by apply (Hall _ Hr inv_init).
Qed.
(** ** Stopping *)
Lemma stopped_step ch s s' :
  inv s -> shouldStop s = true -> step ch s = Some s' ->
  shouldStop s' = true /\ starts s' = starts s.
Proof.
  intros [Hm Hx Ha Hr Hal Hsd Hc] Hf Hs. destruct s as [p h k m f cn al pd ev]. cbn in *. subst f.
  destruct ch; cbn in Hs; unfold main_step, handler_step, integrity_step, deliver in Hs; cbn in Hs;
    step_cases; try (by split); try discriminate (Hr eq_refl).
Qed.

Lemma run_steps chs s s' : run integrityChecks chs s = Some s' -> rtc steps_to s s'.
Proof.
  revert s. induction chs as [|ch chs IH]; intros s; cbn [run]; [by intros [= ->]|].
  destruct (step ch s) as [s1|] eqn:E; [|done]. intros Hr. eapply rtc_l; [by exists ch|]. by apply IH.
Qed.


(** A signal that arrives while the watchdog waits to restart the
    instance is lost: it stays in the channel of the finished handler, the new
    handler gets a new channel, and the instance is started again. *)
Theorem pause_signal_lost s sig :
  reachable s -> pc s = Sleep ->
  exists s', run integrityChecks
      [Deliver sig; Main Yes; Main Yes; Main Yes; Main Yes; Main Yes; Main Yes] s = Some s' /\
    alive s' = true /\ starts s' = S (starts s) /\ pending s' = None /\ shouldStop s' = false.
Proof.
  intros [Hm Hx Ha Hr Hal Hsd Hc]%reachable_inv Hp. destruct s as [p h k m f cn al pd ev].
  cbn in *. subst p m. destruct (Ha eq_refl) as [-> ->]. specialize (Hr eq_refl) as ->.
  exists (mkWatchdog WaitInstance HSelect integrityChecks None false false true None (EStart :: ev)).
  split; [by destruct pd|]. done.
Qed.
End Watchdog.

(** ** Samples *)

(** The instance ran once and exited; the watchdog waits to restart it. *)
Definition sample_pause : list choice :=
  [Main Yes; Main Yes; Main Yes; Main Yes; InstanceExits; Main Yes; Main Yes; Handler false true;
   Main Yes; Main Yes; Main Yes].
Definition sample_paused : watchdog :=
  mkWatchdog Sleep HOff false None false true false None [EStart].

Lemma pause_signal_lost_witness :
  run false sample_pause NewWatchdog = Some sample_paused /\
  exists s', run false
      [Deliver SIGTERM; Main Yes; Main Yes; Main Yes; Main Yes; Main Yes; Main Yes] sample_paused = Some s' /\
    alive s' = true /\ starts s' = 2.
Proof.
  assert (run false sample_pause NewWatchdog = Some sample_paused) as E by reflexivity.
  split; [exact E|].
  destruct (pause_signal_lost false sample_paused SIGTERM) as (s' & Hr & Ha & Hs & _);
    [exact (run_steps false _ _ _ E)|reflexivity|].
  exists s'. split; [exact Hr|]. split; [exact Ha|]. exact Hs.
Defined.

(** A stop signal is taken while the instance runs. *)
Definition sample_stop : list choice :=
  [Main Yes; Main Yes; Main Yes; Main Yes; Deliver SIGTERM; Handler true true; Handler true true; Handler true true].
Definition sample_stopping : watchdog :=
  mkWatchdog WaitInstance (HStop SIGTERM) false None true false true None [EStart].

(** The stop fails: the instance lives on, and the watchdog waits for it. *)
Definition sample_outlived : watchdog :=
  mkWatchdog WaitInstance HSelect false None true false true None [EStop SIGTERM; EStart].

