(* ===== verification/Tail.v ===== *)
(** * Last lines of a log ([cli/tail/tail.go])

    [newTailReader] looks for the beginning of the last lines of a file by
    reading blocks from its end. *)
From S2P Require Import Prelude GoStrings.

Definition blockSize : Z := 8192.

(** The calls that may fail, by the number of the iteration: [Seek] to the end,
    the context, [Seek] to a block and [Read] of it. *)
Record faults := mkFaults {
  end_fault : option error;
  ctx_fault : nat -> option error;
  seek_fault : nat -> option error;
  read_fault : nat -> option error
}.

Definition no_faults : faults :=
  mkFaults None (fun _ => None) (fun _ => None) (fun _ => None).

Section Tail.
Variable data : list ascii.
Variable fs : faults.
Variable err_text : error -> string.
Variable count : Z.

Definition newline : ascii := ascii_of_nat 10.
Definition file_end : Z := Z.of_nat (length data).

(** Reading [n] bytes at an offset; a limit that is not positive is EOF. *)
Definition read_at (offset n : Z) : list ascii := take (Z.to_nat n) (drop (Z.to_nat offset) data).

Definition is_newline (c : option ascii) : bool := bool_decide (c = Some newline).

(** The new start of the tail for a newline at [pos]. *)
Definition move_start (startPos pos : Z) : Z :=
  if (startPos - pos =? 1)%Z then pos else (pos + 1)%Z.

(** [for i := readBytes - 1; i > 0; i--]: the position and the lines found. *)
Fixpoint scan_block (buf : list ascii) (readOffset : Z) (i : nat) (startPos linesFound : Z)
    : Z * Z :=
  match i with
  | O => (startPos, linesFound)
  | S i' =>
      if is_newline (buf !! i) then
        let startPos := move_start startPos (readOffset + Z.of_nat i) in
        let linesFound := (linesFound + 1)%Z in
        if (linesFound =? count)%Z then (startPos, linesFound)
        else scan_block buf readOffset i' startPos linesFound
      else scan_block buf readOffset i' startPos linesFound
  end.

(** The offset and the length of the block before [readOffset]. *)
Definition prev_block (readOffset : Z) : Z * Z :=
  let readOffset := (readOffset - blockSize)%Z in
  if (readOffset <? 0)%Z then (0%Z, (blockSize + readOffset)%Z) else (readOffset, blockSize).

(** [for readOffset != 0 && linesFound != count]; [fuel] bounds the iterations
    ([newTailReader] gives enough), [k] counts them. *)
Fixpoint tail_loop (fuel k : nat) (readOffset startPos linesFound : Z) : result (Z * Z) :=
  if ((readOffset =? 0) || (linesFound =? count))%Z then Ok (startPos, linesFound)
  else
    match fuel with
    | O => Err (Errorf "loop bound" [])
    | S fuel' =>
        match ctx_fault fs k with
        | Some err => Err err
        | None =>
            let '(offset, n) := prev_block readOffset in
            match seek_fault fs k with
            | Some err => Err err
            | None =>
                match read_fault fs k with
                | Some err => Err (Errorf "failed to read: %s" [err_text err])
                | None =>
                    let buf := read_at offset n in
                    let '(startPos, linesFound) :=
                      scan_block buf offset (length buf - 1) startPos linesFound in
                    tail_loop fuel' (S k) offset startPos linesFound
                end
            end
        end
    end.

(** The bytes the returned reader gives, and the start position. *)
Definition newTailReader : result (list ascii * Z) :=
  match end_fault fs with
  | Some err => Err err
  | None =>
      if (count <=? 0)%Z then Ok ([], file_end)
      else
        match tail_loop (S (Z.to_nat (file_end / blockSize))) 0 (file_end - 1) file_end 0 with
        | Err e => Err e
        | Ok (startPos, linesFound) =>
            if (linesFound =? count)%Z
            then Ok (read_at startPos (file_end - startPos), startPos)
            else Ok (data, 0%Z)
        end
  end.
End Tail.

Definition bytes (s : string) : list ascii := String.list_ascii_of_string s.
Definition nl : string := String newline "".

Example tail_last :
  newTailReader (bytes ("a" +:+ nl +:+ "b" +:+ nl)) no_faults (fun _ => "") 1
  = Ok (bytes ("b" +:+ nl), 2%Z).
Proof. vm_compute. reflexivity. Qed.

(** A newline at the first offset of a block is not seen. *)
Example tail_first_newline :
  newTailReader (bytes (nl +:+ "abc")) no_faults (fun _ => "") 1
  = Ok (bytes (nl +:+ "abc"), 0%Z).
Proof. vm_compute. reflexivity. Qed.

(** * Which lines the tail reader gives

    The newlines that the scan sees are those inside a block; the first offset
    of a block is never looked at. *)

Section Tail.
Context (data : list ascii) (count : Z).

Definition newline_at (p : Z) : bool := is_newline (data !! Z.to_nat p).

(** ** A scan of positions, from the end *)
Fixpoint visit (ps : list Z) (startPos linesFound : Z) : Z * Z :=
  match ps with
  | [] => (startPos, linesFound)
  | p :: ps' =>
      if newline_at p then
        if (linesFound + 1 =? count)%Z then (move_start startPos p, (linesFound + 1)%Z)
        else visit ps' (move_start startPos p) (linesFound + 1)
      else visit ps' startPos linesFound
  end.

(** Positions [offset + i], ..., [offset + 1]. *)
Fixpoint positions_below (offset : Z) (i : nat) : list Z :=
  match i with
  | O => []
  | S i' => (offset + Z.of_nat i)%Z :: positions_below offset i'
  end.

Lemma scan_visit buf offset i startPos linesFound :
  (forall j, j <= i -> is_newline (buf !! j) = newline_at (offset + Z.of_nat j)) ->
  scan_block count buf offset i startPos linesFound =
  visit (positions_below offset i) startPos linesFound.
Proof.
  revert startPos linesFound. induction i as [|i IH]; intros sp lf Hb; [done|].
  cbn [scan_block positions_below visit]. rewrite Hb by lia.
  destruct (newline_at _); rewrite ?IH by (intros; apply Hb; lia); done.
Qed.

(** Positions that decrease, all at least two below [sp]. *)
Fixpoint descending (sp : Z) (ps : list Z) : Prop :=
  match ps with
  | [] => True
  | p :: ps' => (p + 2 <= sp)%Z /\ descending (p + 1) ps'
  end.

Lemma descending_weaken sp sp' ps : (sp <= sp')%Z -> descending sp ps -> descending sp' ps.
Proof. destruct ps; [done|]. cbn. intros ? [? ?]. split; [lia|done]. Qed.

Definition seen (ps : list Z) : list Z := List.filter newline_at ps.

Definition start_after (sp : Z) (L : list Z) : Z := List.last (map Z.succ L) sp.

(** What a scan finds: the start of the tail at the newline that completes the
    count, or how far it came. *)
Definition found_in (L : list Z) (sp lf : Z) : Z * Z :=
  match L !! Z.to_nat (count - lf - 1) with
  | Some p => ((p + 1)%Z, count)
  | None => (start_after sp L, (lf + Z.of_nat (length L))%Z)
  end.

Lemma start_after_cons sp p L : start_after sp (p :: L) = start_after (p + 1) L.
Proof. unfold start_after. cbn [map]. apply last_cons_default. Qed.

Lemma visit_found ps sp lf :
  (lf < count)%Z -> descending sp ps -> visit ps sp lf = found_in (seen ps) sp lf.
Proof.
  revert sp lf. induction ps as [|p ps IH]; intros sp lf Hlf Hd.
  { unfold found_in. cbn. f_equal. lia. }
  destruct Hd as [Hp Hd]. cbn [visit seen List.filter].
  assert (move_start sp p = (p + 1)%Z) as Hm
    by (unfold move_start; destruct (Z.eqb_spec (sp - p) 1); [lia|done]).
  destruct (newline_at p); [|apply IH; [done|]; eapply descending_weaken; [|exact Hd]; lia].
  rewrite Hm. fold (seen ps). unfold found_in. destruct (Z.eqb_spec (lf + 1) count) as [E|E].
  - replace (Z.to_nat (count - lf - 1)) with 0 by lia. cbn. by rewrite E.
  - rewrite IH by (done || lia). unfold found_in.
    replace (Z.to_nat (count - lf - 1)) with (S (Z.to_nat (count - (lf + 1) - 1))) by lia.
    cbn [lookup list_lookup length]. destruct (seen ps !! _); [done|].
    rewrite start_after_cons. f_equal. lia.
Qed.

Lemma start_after_app sp L1 L2 : start_after sp (L1 ++ L2) = start_after (start_after sp L1) L2.
Proof.
  revert sp. induction L1 as [|p L1 IH]; intros sp; [done|].
  cbn [app]. by rewrite !start_after_cons, IH.
Qed.

Lemma found_in_app L1 L2 sp lf :
  (lf < count)%Z ->
  found_in (L1 ++ L2) sp lf =
  if (lf + Z.of_nat (length L1) <? count)%Z
  then found_in L2 (start_after sp L1) (lf + Z.of_nat (length L1))
  else found_in L1 sp lf.
Proof.
  intros Hlf. unfold found_in. destruct (Z.ltb_spec (lf + Z.of_nat (length L1)) count) as [H1|H1].
  - rewrite lookup_app_r by lia.
    replace (Z.to_nat (count - lf - 1) - length L1)
      with (Z.to_nat (count - (lf + Z.of_nat (length L1)) - 1)) by lia.
    destruct (L2 !! _); [done|]. rewrite start_after_app, length_app. f_equal. lia.
  - rewrite lookup_app_l by lia.
    destruct (lookup_lt_is_Some_2 L1 (Z.to_nat (count - lf - 1))) as [p ->]; [lia|done].
Qed.

Lemma found_in_bounds L sp lf :
  (lf < count)%Z ->
  if (lf + Z.of_nat (length L) <? count)%Z
  then found_in L sp lf = (start_after sp L, (lf + Z.of_nat (length L))%Z)
  else (found_in L sp lf).2 = count.
Proof.
  intros Hlf. unfold found_in. destruct (Z.ltb_spec (lf + Z.of_nat (length L)) count) as [H1|H1].
  - by rewrite lookup_ge_None_2 by lia.
  - destruct (lookup_lt_is_Some_2 L (Z.to_nat (count - lf - 1))) as [p ->]; [lia|done].
Qed.

Lemma seen_app ps1 ps2 : seen (ps1 ++ ps2) = seen ps1 ++ seen ps2.
Proof. apply List.filter_app. Qed.

Lemma seen_descending sp ps : descending sp ps -> descending sp (seen ps).
Proof.
  revert sp. induction ps as [|p ps IH]; intros sp; [done|]. intros [Hp Hd]. cbn [seen List.filter].
  destruct (newline_at p); fold (seen ps); [split; [done|by apply IH]|].
  apply IH. eapply descending_weaken; [|exact Hd]. lia.
Qed.

(** ** The positions that the blocks cover *)
Fixpoint examined (fuel : nat) (r : Z) : list Z :=
  if (r =? 0)%Z then []
  else
    match fuel with
    | O => []
    | S fuel' =>
        let '(offset, n) := prev_block r in
        positions_below offset (length (read_at data offset n) - 1) ++ examined fuel' offset
    end.

Lemma elem_of_positions_below offset i p :
  p ∈ positions_below offset i <-> (offset < p <= offset + Z.of_nat i)%Z.
Proof.
  induction i as [|i IH]; cbn [positions_below].
  - split; [by intros ?%not_elem_of_nil|lia].
  - rewrite elem_of_cons, IH. lia.
Qed.

Lemma read_at_length offset n :
  (0 <= offset)%Z -> (offset + n <= file_end data)%Z ->
  length (read_at data offset n) = Z.to_nat n.
Proof. intros Ho Hn. unfold read_at, file_end in *. rewrite length_take, length_drop. lia. Qed.

Lemma read_at_lookup offset n j :
  (0 <= offset)%Z -> j < Z.to_nat n ->
  is_newline (read_at data offset n !! j) = newline_at (offset + Z.of_nat j).
Proof.
  intros Ho Hj. unfold read_at, newline_at. rewrite lookup_take_lt, lookup_drop by done.
  by replace (Z.to_nat (offset + Z.of_nat j)) with (Z.to_nat offset + j) by lia.
Qed.
Lemma positions_descending offset i ps sp :
  (offset + Z.of_nat i + 2 <= sp)%Z -> descending (offset + 2) ps ->
  descending sp (positions_below offset i ++ ps).
Proof.
  revert sp. induction i as [|i IH]; intros sp Hsp Hd; cbn [positions_below app].
  - eapply descending_weaken; [|exact Hd]. lia.
  - split; [lia|]. apply IH; [lia|done].
Qed.

(** One block: the positions of its bytes but the first. *)
Lemma prev_block_spec r offset n :
  prev_block r = (offset, n) -> (0 < r <= file_end data)%Z ->
  (0 <= offset /\ offset + n = r /\ 0 < n <= blockSize)%Z /\
  length (read_at data offset n) = Z.to_nat n /\ (offset = 0 \/ n = blockSize)%Z.
Proof.
  unfold prev_block. intros Hp Hr. assert (0 < blockSize)%Z by done.
  destruct (Z.ltb_spec (r - blockSize) 0); injection Hp as <- <-;
    (split; [lia|]); (split; [apply read_at_length; lia|lia]).
Qed.

Lemma examined_spec fuel r :
  (0 <= r <= file_end data)%Z -> (r <= Z.of_nat fuel * blockSize)%Z ->
  descending (r + 1) (examined fuel r) /\
  forall p, p ∈ examined fuel r <-> (0 < p < r /\ (r - p) mod blockSize <> 0)%Z.
Proof.
  assert (0 < blockSize)%Z as HB by done.
  revert r. induction fuel as [|fuel IH]; intros r Hr Hf; cbn [examined];
    destruct (Z.eqb_spec r 0) as [->|Hne]; try lia;
    try (split; [done|]; intros p; split; [by intros ?%not_elem_of_nil|lia]).
  destruct (prev_block r) as [offset n] eqn:Ep.
  apply prev_block_spec in Ep as ((Ho & <- & Hn) & Hlen & Hc); [|lia]. rewrite Hlen.
  destruct (IH offset) as [Hd Hin]; [lia|destruct Hc; nia|]. split.
  - apply positions_descending; [lia|]. eapply descending_weaken; [|exact Hd]. lia.
  - intros p. rewrite elem_of_app, elem_of_positions_below, Hin. split.
    + intros [Hp|[Hp Hm]]; [rewrite Z.mod_small by lia; lia|].
      destruct Hc as [->| ->]; [lia|].
      replace (offset + blockSize - p)%Z with (offset - p + 1 * blockSize)%Z by lia.
      rewrite Z.mod_add by lia. lia.
    + intros [Hp Hm]. destruct (Z.lt_trichotomy p offset) as [Hlt|[->|Hgt]].
      * right. destruct Hc as [->| ->]; [lia|]. split; [lia|].
        replace (offset + blockSize - p)%Z with (offset - p + 1 * blockSize)%Z in Hm by lia.
        by rewrite Z.mod_add in Hm by lia.
      * exfalso. destruct Hc as [->| ->]; [lia|]. apply Hm.
        replace (offset + blockSize - offset)%Z with blockSize by lia. by apply Z.mod_same.
      * left. lia.
Qed.

Lemma tail_loop_found err_text fuel k r sp lf :
  (0 <= r <= file_end data)%Z -> (r <= Z.of_nat fuel * blockSize)%Z -> (r < sp)%Z ->
  (lf < count)%Z ->
  tail_loop data no_faults err_text count fuel k r sp lf =
  Ok (found_in (seen (examined fuel r)) sp lf).
Proof.
  assert (0 < blockSize)%Z as HB by done.
  revert k r sp lf. induction fuel as [|fuel IH]; intros k r sp lf Hr Hf Hsp Hlf; cbn [tail_loop examined];
    destruct (Z.eqb_spec r 0) as [->|Hne]; try lia;
    try (by unfold found_in; cbn; rewrite Z.add_0_r).
  destruct (Z.eqb_spec lf count) as [|_]; [lia|]. cbn [orb no_faults ctx_fault seek_fault read_fault].
  destruct (prev_block r) as [offset n] eqn:Ep.
  apply prev_block_spec in Ep as ((Ho & <- & Hn) & Hlen & Hc); [|lia]. rewrite Hlen.
  rewrite scan_visit by (intros j Hj; apply read_at_lookup; lia).
  rewrite visit_found; [|done|].
  2:{ rewrite <-(app_nil_r (positions_below _ _)). apply positions_descending; [lia|done]. }
  rewrite seen_app, found_in_app by done.
  set (L1 := seen (positions_below _ _)). pose proof (found_in_bounds L1 sp lf Hlf) as Hb.
  destruct (Z.ltb_spec (lf + Z.of_nat (length L1)) count).
  - rewrite Hb. apply IH; [lia|destruct Hc; nia| |lia].
    assert (forall L, (forall p, p ∈ L -> offset < p)%Z -> (offset < sp)%Z -> (offset < start_after sp L)%Z) as Hs.
    { intros L. generalize sp. induction L as [|q L IHL]; intros sp0 HL H0; [done|].
      rewrite start_after_cons. apply IHL; [intros; apply HL; by right|].
      assert (offset < q)%Z by (apply HL; left). lia. }
    apply Hs; [|lia]. intros p Hp. apply list_elem_of_In, filter_In in Hp as [Hp _].
    apply list_elem_of_In, elem_of_positions_below in Hp. lia.
  - destruct (found_in L1 sp lf) as [sp1 lf1]. cbn [snd] in Hb. subst lf1.
    destruct fuel; cbn [tail_loop]; by rewrite Z.eqb_refl, orb_true_r.
Qed.

(** newTailReader gives the bytes after the count-th last newline of a
    file (its last byte apart), or the whole file when there are fewer, where
    the newlines that count are exactly those not at the first offset of a
    block; its loop ends for every file. *)
Theorem newTailReader_lines err_text :
  exists L, descending (file_end data) L /\
    (forall p, p ∈ L <-> (0 < p < file_end data - 1 /\ (file_end data - 1 - p) mod blockSize <> 0)%Z
                         /\ newline_at p = true) /\
    newTailReader data no_faults err_text count =
    if (count <=? 0)%Z then Ok ([], file_end data)
    else
      match L !! Z.to_nat (count - 1) with
      | Some p => Ok (drop (Z.to_nat (p + 1)) data, (p + 1)%Z)
      | None => Ok (data, 0%Z)
      end.
Proof.
  destruct data as [|c0 rest] eqn:Ed.
  { exists []. split; [done|]. split; [intros p; split; [by intros ?%not_elem_of_nil|]|].
    { unfold file_end. cbn [length]. intros [[Hp _] _]. lia. }
    unfold newTailReader. cbn [end_fault no_faults]. destruct (Z.leb_spec count 0); [done|].
    by destruct count; try lia. }
  rewrite <-Ed. assert (0 < blockSize)%Z as HB by done.
  assert (0 < file_end data)%Z as He by (rewrite Ed; unfold file_end; cbn [length]; lia). clear Ed c0 rest.
  set (fuel := S (Z.to_nat (file_end data / blockSize))).
  assert (file_end data - 1 <= Z.of_nat fuel * blockSize)%Z as Hf.
  { unfold fuel. pose proof (Z.div_mod (file_end data) blockSize).
    pose proof (Z.mod_pos_bound (file_end data) blockSize). nia. }
  destruct (examined_spec fuel (file_end data - 1)) as [Hd Hin]; [lia|done|].
  exists (seen (examined fuel (file_end data - 1))). split; [|split].
  - apply seen_descending. by replace (file_end data - 1 + 1)%Z with (file_end data) in Hd by lia.
  - intros p. unfold seen. rewrite list_elem_of_In, filter_In, <-list_elem_of_In, Hin. done.
  - unfold newTailReader. cbn [end_fault no_faults]. destruct (Z.leb_spec count 0) as [|Hc]; [done|].
    fold fuel. rewrite tail_loop_found by lia. unfold found_in. rewrite Z.sub_0_r.
    destruct (_ !! Z.to_nat (count - 1)) as [p|] eqn:El.
    + rewrite Z.eqb_refl. do 2 f_equal. unfold read_at. apply take_ge. rewrite length_drop.
      unfold file_end. lia.
    + apply lookup_ge_None in El. destruct (Z.eqb_spec (0 + Z.of_nat (length (seen (examined fuel (file_end data - 1))))) count); [lia|done].
Qed.
End Tail.

Example newTailReader_two :
  newTailReader (bytes ("a" +:+ nl +:+ nl +:+ "b" +:+ nl)) no_faults (fun _ => "") 2
  = Ok (bytes (nl +:+ "b" +:+ nl), 2%Z).
Proof. vm_compute. reflexivity. Qed.
