(* ===== verification/Programs.v ===== *)
(** * Commands on programs and logs ([cli/install_ee], [cli/download], [cli/search],
    [cli/binary], [cli/cfg], [cli/tail], [cli/running/writer.go],
    [cli/util/crypto.go] and the entry points of [cli/cmd])

    Credentials and the download of bundles, the lists of versions, the choice of an
    installed binary, the dump of the configuration, the last lines of logs.  The
    network, the menus of the terminal, the encoder of YAML and the hash functions
    are parameters.  [log.Fatalf] ends the process: here it is an error.  Printed
    lines are values. *)
From S2P Require Import Prelude GoStrings GoPath Regexp GoOs GoFs Value Cluster Tarantool ClusterGet Configure.
From S2P Require Import Version Search ProcessUtils Install Uninstall Running Instances Control InstanceCmds History Tail.
From S2P Require Import Create.
Local Open Scope Z_scope.
Local Open Scope io_scope.
Local Open Scope go_scope.

(** ** Colors of a log ([writer.go], [color.go]) *)
Definition is_level (c : ascii) : bool := bool_decide (c ∈ ["F"; "!"; "E"; "W"]%char).

(** The first [ ([F!EW])> ] of a line. *)
Fixpoint log_level (line : string) : option ascii :=
  match line with
  | String " " ((String c (String ">" (String " " _))) as rest) => if is_level c then Some c else log_level rest
  | String _ rest => log_level rest
  | EmptyString => None
  end.

(** What [NewColorizedPrefixWriter] writes for a message: the lines that are not empty,
    each with the level that colors it. *)
Definition colored_lines (msg : string) : list (option ascii * string) :=
  map (fun line => (log_level line, line))
    (List.filter (fun line => negb (bool_decide (line = ""))) (Split msg (ascii_of_nat 10))).

(** The colors of [DefaultColorPicker], in turn. *)
Definition colorTable : list string := ["HiBlue"; "HiCyan"; "HiMagenta"; "Blue"; "Cyan"; "Magenta"].
Definition nextColor (i : nat) : string := default "" (colorTable !! (i mod length colorTable)%nat).

(** ** Hashes ([crypto.go]) *)
Definition hex_digit (n : nat) : ascii :=
  ascii_of_nat (if decide (n < 10)%nat then 48 + n else 87 + n).
Fixpoint hex (s : string) : string :=
  match s with
  | EmptyString => ""
  | String c s => String (hex_digit (nat_of_ascii c / 16)) (String (hex_digit (nat_of_ascii c mod 16)) (hex s))
  end.

Section Hashes.
Context {W : Type} `{OS W} (sha256 sha1 md5 : string -> string).
Definition FileSHA256Hex (w : W) (path : string) : result string := rmap (fun s => hex (sha256 s)) (GoOs.ReadFile w path).
Definition FileSHA1Hex (w : W) (path : string) : result string := rmap (fun s => hex (sha1 s)) (GoOs.ReadFile w path).
Definition FileMD5 (w : W) (path : string) : result string := rmap md5 (GoOs.ReadFile w path).
Definition FileMD5Hex (w : W) (path : string) : result string := rmap hex (FileMD5 w path).
Definition StringSHA1Hex (source : string) : string := hex (sha1 source).
End Hashes.

(** ** Credentials ([credentials.go]) *)
Definition EnvSdkUsername : string := "TT_CLI_EE_USERNAME".
Definition EnvSdkPassword : string := "TT_CLI_EE_PASSWORD".

Record UserCredentials := mkUserCredentials { Username : string; Password : string }.

Section Programs.
Context {W : Type} `{OS W, Files W, Trees W, Host W} `{GoMapOrder, GoSort}.
(** [term.ReadPassword] of the standard input, the text of a mode. *)
Context (ReadPassword : io W string) (FileMode_String : Z -> string).

Definition getCredsInteractive : io W UserCredentials := fun w =>
  match stdin w with
  | [] => (Err ErrEOF, w)
  | resp :: rest =>
      (bytePass <- ReadPassword ;; ret (mkUserCredentials (TrimSpace resp) (TrimSpace bytePass))) (set_stdin rest w)
  end.

(** The first two lines of a file that only its owner may access. *)
Definition getCredsFromFile (path : string) (w : W) : result UserCredentials :=
  content <-? GoOs.ReadFile w path;;
  mode <-? os_Perm w path;;
  if decide (Z.land mode 63 <> 0) then
    Err (Errorf "permissions %q for %q are too open.
	%s
	%s %s'"
           [FileMode_String mode; path; "It is required that the credential file is NOT accessible by others.";
            "Can be fixed by running: 'chmod 0600"; path])
  else
    let parts := take 2 (raw_lines content) in
    if too_long parts then Err (Errorf "bufio.Scanner: token too long" [])
    else
      let lines := scan_lines parts in
      let username := default "" (lines !! 0%nat) in
      let password := default "" (lines !! 1%nat) in
      if decide (username = "") then Err (Errorf "login not set" [])
      else if decide (password = "") then Err (Errorf "password not set" [])
      else Ok (mkUserCredentials username password).

Definition getCredsFromEnvVars (w : W) : result UserCredentials :=
  let username := Getenv w EnvSdkUsername in
  let password := Getenv w EnvSdkPassword in
  if bool_decide (username = "") || bool_decide (password = "") then
    Err (Errorf "no credentials in environment variables were found" [])
  else Ok (mkUserCredentials username password).

Definition GetCreds (cliOpts : CliOpts) : io W UserCredentials :=
  match opts_EE cliOpts with
  | Some ee =>
      if decide (ee_CredPath ee = "") then
        creds <- attempt (look getCredsFromEnvVars) ;;
        match creds with Ok creds => ret creds | Err _ => getCredsInteractive end
      else look (getCredsFromFile (ee_CredPath ee))
  | None =>
      creds <- attempt (look getCredsFromEnvVars) ;;
      match creds with Ok creds => ret creds | Err _ => getCredsInteractive end
  end.

(** ** The download ([install_ee.go], [download.go]) *)

(** A GET request with the cookie of a session: the status and the body. *)
Context (http_Get : W -> string -> string -> result (Z * result string)) (StatusText : Z -> string).
(** The request for the list of packages. *)
Context (request : W -> string -> string -> string -> result (gmap string (list string) * string)).

Definition GetTarantoolEE (bundleName bundleSource token dst : string) : io W unit :=
  stat <- ask (fun w => Stat w dst) ;;
  isDir <- ask (fun w => IsDir w dst) ;;
  if match stat with Err e => IsNotExist e | Ok _ => false end then
    throw (Errorf "directory doesn't exist: %s" [dst])
  else if negb isDir then throw (Errorf "incorrect path: %s" [dst])
  else
    res <- look (fun w => http_Get w bundleSource token) ;;
    if negb (res.1 =? 200) then throw (Errorf "HTTP request error: %s" [StatusText res.1])
    else
      resBody <- look (fun _ => res.2) ;;
      let path := filepath_Join [dst; bundleName] in
      os_WriteFile path "" 438 ;;;
      attempt (os_WriteFile path resBody 438) ;;; ret tt.

Definition GetOs (w : W) : result OsType :=
  rmap (fun out =>
    let osStr := TrimSpace out in
    if decide (osStr = "Linux") then OsLinux else if decide (osStr = "Darwin") then OsMacos else OsUnknown)
    (program_output w "uname" "" ["-s"]).

(** Credentials are asked for when the system is known. *)
Definition needs_creds (w : W) : bool :=
  match Install.GetArch w, GetOs w with
  | Ok _, Ok os => bool_decide (is_Some (os_name os))
  | _, _ => false
  end.

(** A query to the service with the credentials of the user. *)
Definition with_creds {A} (cliOpts : CliOpts) (query : result string -> result OsType -> result (string * string) ->
    (string -> string -> string -> result (gmap string (list string) * string)) -> result A) : io W A := fun w =>
  let '(creds, w') :=
    if needs_creds w then GetCreds cliOpts w else (Err (Errorf "no credentials" []), w) in
  (query (Install.GetArch w) (GetOs w) (rmap (fun c => (Username c, Password c)) creds) (request w'), w').

Record DownloadCtx := mkDownloadCtx { dl_version : string; DirectoryPrefix : string; dl_DevBuild : bool }.

Definition DownloadSDK (ctx : DownloadCtx) (cliOpts : CliOpts) : io W unit :=
  prefix <- (if decide (DirectoryPrefix ctx = "") then io_wrap "can't get current dir: %s" [] (look Getwd)
             else ret (DirectoryPrefix ctx)) ;;
  writable <- ask (fun w => unix_Writable w prefix) ;;
  if negb writable then throw (Errorf "bad directory prefix: %s" [])
  else
    ver <- io_wrap "cannot get SDK bundle info: %s" []
             (with_creds cliOpts (fun arch os creds request =>
                GetTarantoolBundleInfo arch os creds request false (dl_DevBuild ctx) [] (dl_version ctx))) ;;
    let bundleName := Tarball (bundle_Version ver) in
    let bundlePath := filepath_Join [prefix; bundleName] in
    stat <- ask (fun w => Stat w bundlePath) ;;
    confirmed <- (if is_ok stat then confirm ("Confirm overwrite " +:+ bundlePath) else ret true) ;;
    if negb confirmed then ret tt
    else
      bundleSource <- io_wrap "failed to make URI for downloading: %s" []
                        (look (fun w => TntIoMakePkgURI (Install.GetArch w) (GetOs w) (bundle_Package ver)
                                          (bundle_Release ver) bundleName (dl_DevBuild ctx))) ;;
      io_wrap "download error: %s" [] (GetTarantoolEE bundleName bundleSource (bundle_Token ver) prefix).

Definition download_FillCtx (ctx : DownloadCtx) (args : list string) : result DownloadCtx :=
  match args with
  | [] => Err (Errorf "to download Tarantool SDK, you need to specify the version" [])
  | [version] => Ok (mkDownloadCtx version (DirectoryPrefix ctx) (dl_DevBuild ctx))
  | _ => Err (Errorf "invalid number of parameters" [])
  end.

Definition internalDownloadModule (flags : DownloadCtx) (cliOpts : CliOpts) (args : list string) : io W unit :=
  ctx <- look (fun _ => download_FillCtx flags args) ;; DownloadSDK ctx cliOpts.

(** ** The lists of versions ([search.go]) *)
Definition git_missing (w : W) : option error :=
  match GoOs.LookPath w "git" with Ok _ => None | Err e => Some e end.
Definition git_output (w : W) (args : list string) : result string := program_output w "git" "" args.

Definition version_line (w : W) (binDir program versionStr : string) : string :=
  printVersion (fun p => is_ok (Stat w p)) (ResolveSymlink w) binDir program versionStr.

Definition version_lines (w : W) (binDir program : string) (versions : list Version) : list string :=
  map (fun v => version_line w binDir program (Str v)) versions ++ [version_line w binDir program "master"].

Definition SearchVersions (searchCtx : SearchCtx) (cliOpts : CliOpts) (program : string) : io W (list string) :=
  if decide (program = ProgramEe) then
    bundles <- with_creds cliOpts (fun arch os creds request =>
                 FetchBundlesInfo arch os creds request
                   (mkSearchCtx (Filter searchCtx) "enterprise" (ReleaseVersion searchCtx) (ProgramName searchCtx)
                      (DevBuilds searchCtx))) ;;
    env <- look (fun _ => deref (opts_Env cliOpts)) ;;
    ask (fun w => map (fun b => version_line w (env_BinDir env) program (Str (bundle_Version b))) bundles.1)
  else
    let repo := if decide (program = ProgramCe) then GitRepoTarantool
                else if decide (program = ProgramTt) then GitRepoTT else "" in
    versions <- look (fun w => GetVersionsFromGitRemote (git_missing w) (git_output w) repo) ;;
    env <- look (fun _ => deref (opts_Env cliOpts)) ;;
    ask (fun w => version_lines w (env_BinDir env) program versions).

Definition local_repo (configPath : string) (cliOpts : CliOpts) : string :=
  match opts_Repo cliOpts with
  | Some repo => if decide (repo_Install repo = "") then filepath_Join [path_Dir configPath; "distfiles"]
                 else repo_Install repo
  | None => filepath_Join [path_Dir configPath; "distfiles"]
  end.

(** The versions of a repository in the directory; a repository that is missing gives the
    error of [os.Stat]. *)
Definition search_repo (localDir binDir program : string) (w : W) : result (list string) :=
  let repo := localDir +:+ "/" +:+ program in
  let list_repo := rmap (version_lines w binDir program) (GetVersionsFromGitLocal (git_missing w) (git_output w) repo) in
  match Stat w repo with
  | Ok _ => list_repo
  | Err e => if IsNotExist e then Err e else _ <-? list_repo;; Err e
  end.

Definition SearchVersionsLocal (configPath : string) (cliOpts : CliOpts) (program : string) (w : W)
    : result (list string) :=
  let localDir := local_repo configPath cliOpts in
  localFiles <-? os_ReadDir w localDir;;
  env <-? deref (opts_Env cliOpts);;
  if decide (program = ProgramCe \/ program = ProgramTt) then search_repo localDir (env_BinDir env) program w
  else if decide (program = ProgramEe) then
    let files := map entry_Name (List.filter (fun f =>
                   Contains (entry_Name f) "tarantool-enterprise-sdk" && negb (entry_IsDir f)) localFiles) in
    bundles <-? FetchBundlesInfoLocal files;;
    Ok (map (fun b => version_line w (env_BinDir env) program (Str (bundle_Version b))) bundles)
  else Err (Errorf "search supports only tarantool/tarantool-ee/tt" []).

Definition internalSearchModule (local debug : bool) (searchCtx : SearchCtx) (configPath : string) (cliOpts : CliOpts)
    : io W (list string) :=
  if local then look (SearchVersionsLocal configPath cliOpts (ProgramName searchCtx))
  else
    let filter := if debug then SearchDebug else Filter searchCtx in
    SearchVersions (mkSearchCtx filter (search_Package searchCtx) (ReleaseVersion searchCtx) (ProgramName searchCtx)
                      (DevBuilds searchCtx)) cliOpts (ProgramName searchCtx).

(** ** Installed binaries ([list.go], [switch.go], [cli/cmd/binaries.go]) *)

(** A directory that cannot be opened has no entries. *)
Definition installed_files (w : W) (binDir : string) : result (list string) :=
  match GoOs.ReadDir w binDir with
  | Ok (f :: files) => Ok (f :: files)
  | _ => Err (Errorf "there are no binaries installed in this environment of 'tt'" [])
  end.

Definition lstat_kind (w : W) (path : string) : lstat_result :=
  match os_Lstat w path with
  | Err _ => NoFile
  | Ok info => if decide (fi_Kind info = GoOs.Symlink) then Search.Symlink else NotSymlink
  end.

Definition link_target (w : W) (path : string) : result (option string) :=
  match ResolveSymlink w path with
  | Ok target => Ok (Some target)
  | Err e => if IsNotExist e then Ok None else Err e
  end.

Definition installed_versions (w : W) (files : list string) (programName binDir : string) : result (list Version) :=
  ParseBinaries (lstat_kind w) (Install.IsTarantoolDev w)
    (fun path => TarantoolCli_GetVersion zero_version path w) (link_target w) files programName binDir.

Definition listed_programs : list string := [ProgramTt; ProgramCe; ProgramDev; ProgramEe].

Fixpoint list_programs (w : W) (binDir : string) (files programs : list string) : result (list (string * list string)) :=
  match programs with
  | [] => Ok []
  | programName :: programs =>
      versions <-? installed_versions w files programName binDir;;
      rest <-? list_programs w binDir files programs;;
      Ok (if decide (versions = []) then rest else (programName, map Str (sort_versions_reverse versions)) :: rest)
  end.

Definition ListBinaries (cliOpts : CliOpts) (w : W) : result (list (string * list string)) :=
  env <-? deref (opts_Env cliOpts);;
  files <-? installed_files w (env_BinDir env);;
  list_programs w (env_BinDir env) files listed_programs.

Definition internalListModule (ctx : CmdCtx) (cliOpts : CliOpts) : io W (list (string * list string)) :=
  if negb (isConfigExist ctx) then throw errNoConfig else look (ListBinaries cliOpts).

(** A menu of the terminal: one of the items.  The colors of the items are left out, as
    [cleanString] removes them. *)
Context (select : string -> list string -> io W string).

Definition ChooseProgram (supportedPrograms : list string) : io W string := select "Select program" supportedPrograms.

Definition ChooseVersion (binDir programName : string) : io W string :=
  files <- look (fun w => installed_files w binDir) ;;
  versions <- look (fun w => installed_versions w files programName binDir) ;;
  if decide (versions = []) then throw (Errorf "there are no %s installed in this environment of 'tt'" [programName])
  else version <- select "Select version" (map Str versions) ;; ret (TrimSuffix version " [active]").

Definition supportedPrograms : list string := [ProgramCe; ProgramEe; ProgramTt].

Definition choose_switch (binDir : string) (args : list string) : io W (string * string) :=
  let supported program := bool_decide (program ∈ supportedPrograms) in
  let unsupported program := throw (Errorf "not supported program: %s" [program]) in
  match args with
  | [program; version] => if supported program then ret (program, version) else unsupported program
  | [program] =>
      if supported program then version <- ChooseVersion binDir program ;; ret (program, version)
      else unsupported program
  | [] =>
      program <- ChooseProgram supportedPrograms ;;
      version <- ChooseVersion binDir program ;;
      ret (program, version)
  | _ => throw (Errorf "invalid number of arguments" [])
  end.

Definition internalSwitchModule (ctx : CmdCtx) (cliOpts : CliOpts) (args : list string) : io W unit :=
  if negb (isConfigExist ctx) then throw errNoConfig
  else
    env <- look (fun _ => deref (opts_Env cliOpts)) ;;
    choice <- choose_switch (env_BinDir env) args ;;
    binary_Switch (mkSwitchCtx (env_BinDir env) (env_IncludeDir env) choice.1 choice.2).

(** ** The dump of the configuration ([dump.go]) *)
Context (yaml_Encode : CliOpts -> result string).

(** A part of the text may be written before an error. *)
Definition dumpRaw (configPath : string) (w : W) : result string :=
  if decide (configPath <> "") then
    _ <-? Stat w configPath;;
    content <-? GoOs.ReadFile w configPath;;
    Ok (configPath +:+ ":" +:+ Tail.nl +:+ content)
  else Err (Errorf "tt configuration file is not found" []).

Definition dumpConfiguration (configPath : string) (cliOpts : CliOpts) (w : W) : string * option error :=
  let header := if bool_decide (configPath <> "") && is_ok (Stat w configPath)
                then configPath +:+ ":" +:+ Tail.nl else "" in
  match yaml_Encode cliOpts with
  | Ok text => (header +:+ text, None)
  | Err e => (header, Some e)
  end.

Definition RunDump (rawDump : bool) (configPath : string) (cliOpts : CliOpts) (w : W) : string * option error :=
  if rawDump then match dumpRaw configPath w with Ok text => (text, None) | Err e => ("", Some e) end
  else dumpConfiguration configPath cliOpts w.

(** ** Logs ([tail.go], [cli/cmd/log.go]) *)

(** The lines of [TailN] without their prefix; the run is not interrupted. *)
Definition TailN (w : W) (fileName : string) (n : Z) : result (list string) :=
  if n <? 0 then Err (Errorf "negative lines count is not supported" [])
  else
    data <-? rwrap "cannot open %q: %w" [fileName] (GoOs.ReadFile w fileName);;
    tail <-? newTailReader (String.list_ascii_of_string data) no_faults (fun _ => "") n;;
    Ok (scan_lines (raw_lines (String.string_of_list_ascii tail.1))).

(** The offset that the file is followed from. *)
Definition follow_from (w : W) (fileName : string) (n : Z) : result Z :=
  data <-? rwrap "cannot open %q: %w" [fileName] (GoOs.ReadFile w fileName);;
  rmap snd (newTailReader (String.list_ascii_of_string data) no_faults (fun _ => "") n).

(** Something of each log in turn, with the prefix and the color of its instance; a log
    that does not exist is skipped. *)
Fixpoint each_log {A} (f : string -> result A) (color : nat) (instances : list InstanceCtx)
    : result (list (string * string * A)) :=
  match instances with
  | [] => Ok []
  | inst :: instances =>
      match f (run_Log inst) with
      | Err e => if Is_ErrNotExist e then each_log f color instances
                 else Err (Wrapf "cannot read log file %q: %s" [run_Log inst] e)
      | Ok x =>
          rest <-? each_log f (S color) instances;;
          Ok ((GetAppInstanceName inst +:+ ": ", nextColor color, x) :: rest)
      end
  end.

Definition printLastN (instances : list InstanceCtx) (n : Z) (w : W) : result (list (string * string * list string)) :=
  each_log (fun log => TailN w log n) 0 instances.

Definition follow (instances : list InstanceCtx) (n : Z) (w : W) : result (list (string * string * Z)) :=
  each_log (fun log => follow_from w log n) 0 instances.

(** ** Installing ([cli/cmd/install.go]) *)
Context (patch_text : patch -> string) (tarantoolBuildDockerfile : string) (user_Uid : W -> result string).
Context (render_dockerfile : string -> gmap string string -> result string) (write_yaml : string -> CliOpts -> io W unit).
Context `{!Docker W} (bundle_info : W -> bool -> bool -> list string -> string -> result BundleInfo).
Context (ExtractTar : string -> io W unit).

Definition internalInstallModule (ctx : CmdCtx) (cliOpts : CliOpts) (verbose noPrompt : bool) (flags : InstallCtx)
    (args : list string) : io W unit :=
  if negb (isConfigExist ctx) then throw errNoConfig
  else
    installCtx <- look (fun _ => Install.FillCtx verbose noPrompt (ctx_CommandName ctx) flags args) ;;
    env <- look (fun _ => deref (opts_Env cliOpts)) ;;
    repo <- look (fun _ => deref (opts_Repo cliOpts)) ;;
    Install.Install patch_text tarantoolBuildDockerfile user_Uid render_dockerfile write_yaml bundle_info
      (fun w => TntIoMakePkgURI (Install.GetArch w) (GetOs w)) GetTarantoolEE ExtractTar
      (env_BinDir env) (env_IncludeDir env) installCtx (repo_Install repo) (repo_Install repo).

(** ** What holds *)

(** Credentials from a file are complete, and the file is accessible to its owner only. *)
Theorem file_credentials_private path w c :
  getCredsFromFile path w = Ok c ->
  (exists mode, os_Perm w path = Ok mode /\ Z.land mode 63 = 0) /\ Username c <> "" /\ Password c <> "".
Proof.
  unfold getCredsFromFile. intros (content & _ & (mode & Hm & Hc)%rbind_Ok)%rbind_Ok.
  destruct (decide (Z.land mode 63 <> 0)) as [|Hz]; [done|]. cbv zeta in Hc.
  destruct (too_long _); [done|]. destruct (decide _); [done|]. destruct (decide _); [done|].
  injection Hc as <-. split; [|done]. exists mode. split; [done|]. by destruct (decide (Z.land mode 63 = 0)).
Qed.

(** A bundle that is there is only replaced after a confirmation: a download that is
    declined changes nothing but what was read from the terminal. *)
Theorem declined_download_changes_nothing ctx cliOpts prefix w ver w1 w2 :
  DirectoryPrefix ctx = prefix -> prefix <> "" -> unix_Writable w prefix = true ->
  with_creds cliOpts (fun arch os creds request =>
    GetTarantoolBundleInfo arch os creds request false (dl_DevBuild ctx) [] (dl_version ctx)) w = (Ok ver, w1) ->
  is_ok (Stat w1 (filepath_Join [prefix; Tarball (bundle_Version ver)])) = true ->
  confirm ("Confirm overwrite " +:+ filepath_Join [prefix; Tarball (bundle_Version ver)]) w1 = (Ok false, w2) ->
  DownloadSDK ctx cliOpts w = (Ok tt, w2).
Proof.
  intros Hp Hne Hw Hb Hs Hc. unfold DownloadSDK. rewrite Hp, decide_False by done.
  unfold io_bind at 1. cbn [ret]. rewrite io_bind_ask, Hw. cbn [negb].
  unfold io_bind at 1, io_wrap. rewrite Hb. cbn [rwrap]. cbv zeta. rewrite io_bind_ask, Hs.
  unfold io_bind at 1. by rewrite Hc.
Qed.

(** An error while the bundle is written is lost: the download is reported as done. *)
Theorem bundle_write_error_lost name source token dst w body w1 w2 e :
  IsDir w dst = true -> http_Get w source token = Ok (200, Ok body) ->
  os_WriteFile (filepath_Join [dst; name]) "" 438 w = (Ok tt, w1) ->
  os_WriteFile (filepath_Join [dst; name]) body 438 w1 = (Err e, w2) ->
  GetTarantoolEE name source token dst w = (Ok tt, w2).
Proof.
  intros Hd Hg Hempty Hfull. unfold GetTarantoolEE. rewrite !io_bind_ask.
  assert (match Stat w dst with Err e0 => IsNotExist e0 | Ok _ => false end = false) as ->.
  { unfold IsDir in Hd. by destruct (Stat w dst). }
  rewrite Hd. cbn [negb]. rewrite io_bind_look, Hg. cbn [fst snd negb Z.eqb Pos.eqb].
  rewrite io_bind_look. cbv zeta. unfold io_bind at 1. rewrite Hempty. unfold io_bind, attempt. by rewrite Hfull.
Qed.

(** The menu offers an installed master build of [tt], and choosing it fails. *)
Theorem master_not_switched binDir incDir w :
  add_binary "" "tt_" [] "tt_master" = Ok [with_str (with_major zero_version MaxUint64) "master"] /\
  (IsRegularFile w (filepath_Join [binDir; "tt_vmaster"]) = false ->
   binary_Switch (mkSwitchCtx binDir incDir "tt" "master") w =
     (Err (not_installed (mkSwitchCtx binDir incDir "tt" "master")), w)).
Proof.
  split; [vm_compute; reflexivity|]. intros Hf. unfold binary_Switch, switchTt. cbn [sw_ProgramName sw_Version sw_BinDir].
  rewrite decide_True by done. change (HasPrefix "master" "v") with false. cbv iota zeta.
  change (ProgramTt +:+ FsSeparator +:+ ("v" +:+ "master")) with "tt_vmaster". by rewrite io_bind_ask, Hf.
Qed.

(** The logs that exist are shown in the order of the instances, each under its name. *)
Theorem each_log_order {A} (f : string -> result A) color instances out :
  each_log f color instances = Ok out ->
  map (fun o => o.1.1) out = map (fun i => GetAppInstanceName i +:+ ": ")
                               (List.filter (fun i => is_ok (f (run_Log i))) instances) /\
  map (fun o => Ok o.2) out = map (fun i => f (run_Log i))
                               (List.filter (fun i => is_ok (f (run_Log i))) instances).
Proof.
  revert color out. induction instances as [|i instances IH]; intros color out; cbn [each_log List.filter].
  { by intros [= <-]. }
  destruct (f (run_Log i)) as [x|e] eqn:Hf; cbn [is_ok].
  - intros (rest & Hr & [= <-])%rbind_Ok. apply IH in Hr as [Hn Hv]. cbn [map fst snd]. by rewrite Hn, Hv, Hf.
  - destruct (Is_ErrNotExist e); [apply IH|done].
Qed.
End Programs.

Example log_levels :
  map fst (colored_lines ("a 2 E> x" +:+ Tail.nl +:+ Tail.nl +:+ "b I> y W> z" +:+ Tail.nl +:+ "c" +:+ Tail.nl))
  = [Some "E"%char; Some "W"%char; None].
Proof. vm_compute. reflexivity. Qed.
