(* ===== verification/Cobra.v ===== *)
(** * Commands and flags ([cobra] and [pflag] as [cli/cmd] uses them)

    A command is what the literals of [cobra.Command] in [cli/cmd] say of it, with the
    flags that its constructor defines, in that order, and the commands that are added
    to it.  The packages themselves are not part of the repository: what the
    constructors rely on is the class [FlagPackage], and the tree is data that the
    theorems inspect.  The stubs of integrity checks ([lib/integrity]) are here too,
    because commands register their flags with them. *)
From S2P Require Import Prelude GoStrings.
Local Open Scope go_scope.

Definition dq : string := String (ascii_of_nat 34) "".
Definition tab : string := String (ascii_of_nat 9) "".
Definition lines (l : list string) : string := Join l (String (ascii_of_nat 10) "").

(** ** Flags *)
Inductive flag_value :=
| FBool (b : bool) | FString (s : string) | FInt (n : Z) | FUint64 (n : Z)
| FIntSlice (l : list Z) | FStringSlice (l : list string).

#[export] Instance flag_value_eq_dec : EqDecision flag_value.
Proof. solve_decision. Defined.

(** The default of a flag: a constant, or a variable that is read when the flag is
    defined. *)
Inductive flag_default := Lit (v : flag_value) | Global (x : string).
Coercion FBool : bool >-> flag_value.
Coercion FString : string >-> flag_value.
Coercion Lit : flag_value >-> flag_default.

(** A flag with the variable that keeps its value. *)
Record flag := mkFlag {
  flag_dest : string; flag_name : string; flag_shorthand : string; flag_value_of : flag_default;
  flag_usage : string; flag_hidden : bool
}.

Record FlagSet := mkFlagSet { formal : list flag; interspersed : bool }.

Definition VarP (p name shorthand : string) (value : flag_default) (usage : string) (f : FlagSet) : FlagSet :=
  mkFlagSet (formal f ++ [mkFlag p name shorthand value usage false]) (interspersed f).

Definition BoolVarP := VarP.
Definition StringVarP := VarP.
Definition IntVarP := VarP.
Definition Uint64VarP := VarP.
Definition BoolVar (p name : string) := VarP p name "".
Definition StringVar (p name : string) := VarP p name "".
Definition Uint64Var (p name : string) := VarP p name "".
Definition IntSliceVar (p name : string) := VarP p name "".
Definition StringSliceVar (p name : string) := VarP p name "".
(** The variable behind the pointer that is returned. *)
Definition StringArray (p name : string) := VarP p name "".

Definition MarkHidden (name : string) (f : FlagSet) : FlagSet :=
  mkFlagSet (map (fun g => if decide (flag_name g = name)
                           then mkFlag (flag_dest g) (flag_name g) (flag_shorthand g) (flag_value_of g)
                                  (flag_usage g) true
                           else g) (formal f)) (interspersed f).

Definition SetInterspersed (b : bool) (f : FlagSet) : FlagSet := mkFlagSet (formal f) b.

(** ** Integrity ([lib/integrity]): the stubs of the open version *)
Section Integrity.
Context {W : Type} (os_Open : W -> string -> result string).

Definition RegisterWithIntegrityFlag (dst : string) (flagset : FlagSet) : FlagSet := flagset.
Definition RegisterIntegrityCheckFlag (dst : string) (flagset : FlagSet) : FlagSet := flagset.
Definition RegisterIntegrityCheckPeriodFlag (dst : string) (flagset : FlagSet) : FlagSet := flagset.

(** A repository reads a file after it checked it, and checks all its files. *)
Record Repository := mkRepository {
  repo_Read : W -> string -> result string;
  repo_ValidateAll : option error
}.

Definition dummy_Read (w : W) (path : string) : result string := os_Open w path.
Definition dummy_ValidateAll : option error := None.
Definition dummy_Add (path : string) : option error := None.
Definition dummyRepository : Repository := mkRepository dummy_Read dummy_ValidateAll.

Record IntegrityCtx := mkIntegrityCtx { int_Repository : Repository }.

Definition ErrNotConfigured : error := Errorf "integrity check is not configured" [].

(** What signs a package: it exists only in the other version. *)
Record Signer := mkSigner { Sign : string -> list string -> option error }.
Definition NewSigner (path : string) : result Signer :=
  Err (Errorf "integrity signer should never be created in ce" []).

Definition InitializeIntegrityCheck (publicKeyPath configDir : string) : result IntegrityCtx :=
  if decide (publicKeyPath <> "") then
    Err (Errorf "integrity checks should never be initialized in ce" [])
  else Ok (mkIntegrityCtx dummyRepository).

Definition GetCheckFunction (ctx : IntegrityCtx)
    : result (string -> gmap string string -> string -> option error) := Err ErrNotConfigured.

Definition GetSignFunction (privateKeyPath : string)
    : result (string -> result (gmap string string * string)) :=
  Err (Errorf "sign function should never be created in ce" []).
End Integrity.

(** ** Commands *)

(** The functions that run the modules of tt, by their names in [cli/cmd]. *)
Module Fn.
Inductive InternalFunc :=
| internalVersionModule | internalCompletionCmd | internalStartModule | internalStopModule
| internalStatusModule | internalRestartModule | internalLogrotateModule | internalCheckModule
| internalConnectModule | internalRocksModule | internalCatModule | internalPlayModule
| internalClusterShowModule | internalClusterPublishModule | internalClusterReplicasetPromoteModule
| internalClusterReplicasetDemoteModule | internalClusterReplicasetExpelModule
| internalClusterReplicasetRolesAddModule | internalClusterFailoverSwitchModule
| internalClusterFailoverSwitchStatusModule | internalReplicasetStatusModule
| internalReplicasetPromoteModule | internalReplicasetDemoteModule | internalReplicasetExpelModule
| internalReplicasetBootstrapVShardModule | internalReplicasetBootstrapModule
| internalReplicasetRebootstrapModule | internalRunModule | internalSearchModule | internalCleanModule
| internalCreateModule | internalBuildModule | internalInstallModule | InternalUninstallModule
| internalPackModule | internalInitModule | internalDaemonStartModule | internalDaemonStopModule
| internalDaemonStatusModule | internalDaemonRestartModule | internalDumpModule | internalInstancesModule
| internalSwitchModule | internalListModule | internalEnvModule | internalDownloadModule
| internalKillModule | internalLogModule | internalEnableModule.

#[export] Instance InternalFunc_eq_dec : EqDecision InternalFunc.
Proof. solve_decision. Defined.
End Fn.

Inductive coredump_func := coredump_Pack | coredump_Unpack | coredump_Inspect.

(** What [Run] does: print the help; run a module, after the name of the command, or of
    the program it is for, was stored, with the arguments that cobra passes or with those
    of the process; the forms of single commands; an external module. *)
Inductive action :=
| NoRun
| Help
| Module (sets_name : bool) (program : option string) (default_args : bool) (internal : Fn.InternalFunc)
| ModuleNoArgs (internal : Fn.InternalFunc)
| ModulePack (internal : Fn.InternalFunc)
| ModuleScript (internal : Fn.InternalFunc)
| Coredump (f : coredump_func)
| External (cmdPath : string) (addArgs : list string).

Definition module (f : Fn.InternalFunc) : action := Module true None false f.
Definition unnamed_module (f : Fn.InternalFunc) : action := Module false None false f.

Inductive args_check :=
| ExactArgs (n : nat) | MinimumNArgs (n : nat) | MaximumNArgs (n : nat) | RangeArgs (min max : nat)
| OnlyValidArgs | MatchAll (l : list args_check) | TemplateArgs.

(** Which instances a completion proposes. *)
Inductive picker := PickAll | PickActive | PickInactive.
Inductive completion :=
| ModulesCompletion
| InstancesCompletion (first_only files : bool) (p : picker)
| AppsCompletion | TemplatesCompletion | InstalledCompletion.

(** A field of a literal; those that are not there are zero. *)
Inductive field :=
| Use (s : string) | Short (s : string) | Long (s : string) | Example (s : string)
| Aliases (l : list string) | ValidArgs (l : list string) | Args (c : args_check)
| ValidArgsFunction (c : completion) | Run (a : action) | PersistentPreRunE
| DisableFlagParsing (b : bool) | DisableFlagsInUseLine (b : bool) | TraverseChildren (b : bool).

Record info := mkInfo {
  cmd_Use : string; cmd_Short : string; cmd_Long : string; cmd_Example : string; cmd_Aliases : list string;
  cmd_ValidArgs : list string; cmd_Args : option args_check; cmd_ValidArgsFunction : option completion;
  cmd_Run : action; cmd_PreRun : bool; cmd_DisableFlagParsing : bool;
  cmd_DisableFlagsInUseLine : bool; cmd_TraverseChildren : bool
}.
Definition zero_info : info := mkInfo "" "" "" "" [] [] None None NoRun false false false false.

Definition set_field (i : info) (f : field) : info :=
  let 'mkInfo u s l e al va ar vf r p dp du tc := i in
  match f with
  | Use u => mkInfo u s l e al va ar vf r p dp du tc
  | Short s => mkInfo u s l e al va ar vf r p dp du tc
  | Long l => mkInfo u s l e al va ar vf r p dp du tc
  | Example e => mkInfo u s l e al va ar vf r p dp du tc
  | Aliases al => mkInfo u s l e al va ar vf r p dp du tc
  | ValidArgs va => mkInfo u s l e al va ar vf r p dp du tc
  | Args a => mkInfo u s l e al va (Some a) vf r p dp du tc
  | ValidArgsFunction f => mkInfo u s l e al va ar (Some f) r p dp du tc
  | Run r => mkInfo u s l e al va ar vf r p dp du tc
  | PersistentPreRunE => mkInfo u s l e al va ar vf r true dp du tc
  | DisableFlagParsing dp => mkInfo u s l e al va ar vf r p dp du tc
  | DisableFlagsInUseLine du => mkInfo u s l e al va ar vf r p dp du tc
  | TraverseChildren tc => mkInfo u s l e al va ar vf r p dp du tc
  end.

Inductive Command := mkCmd (i : info) (flags : FlagSet) (commands : list Command).
Definition cmd_info (c : Command) : info := let 'mkCmd i _ _ := c in i.
Definition cmd_flags (c : Command) : list flag := let 'mkCmd _ f _ := c in formal f.
Definition Commands (c : Command) : list Command := let 'mkCmd _ _ l := c in l.

(** [&cobra.Command{...}], calls on its flags, and commands that are added to it. *)
Definition Literal (fs : list field) : Command := mkCmd (fold_left set_field fs zero_info) (mkFlagSet [] true) [].
Definition Flags (calls : list (FlagSet -> FlagSet)) (c : Command) : Command :=
  let 'mkCmd i f l := c in mkCmd i (fold_left (fun f call => call f) calls f) l.
Definition AddCommand (cmds : list Command) (c : Command) : Command :=
  let 'mkCmd i f l := c in mkCmd i f (l ++ cmds).

(** The name of a command is the first word of its use line. *)
Definition Name (c : Command) : string := List.hd "" (Split (cmd_Use (cmd_info c)) " ").

(** ** The tree of commands *)

(** The commands of a tree below a path, parents first, each with the paths from the
    command below the root down to its own. *)
Fixpoint walk (above : list string) (path : string) (c : Command) : list (list string * Command) :=
  let 'mkCmd _ _ l := c in
  concat (map (fun s => let p := path +:+ " " +:+ Name s in
                        (above ++ [p], s) :: walk (above ++ [p]) p s) l).
Definition all_commands (root : Command) : list (list string * Command) := walk [] (Name root) root.
Definition CommandPath (e : list string * Command) : string := List.last e.1 "".

(** The flags in the order in which the constructors define them. *)
Definition defined_flags (root : Command) : list flag :=
  cmd_flags root ++ concat (map (fun e => cmd_flags e.2) (all_commands root)).

(** What the constructors rely on: defining a flag stores its default in its variable and
    leaves the other variables alone. *)
Class FlagPackage (S : Type) := {
  variable : S -> string -> option flag_value;
  define : string -> flag_value -> S -> S;
  define_same : forall x v s, variable (define x v s) x = Some v;
  define_other : forall x y v s, y <> x -> variable (define x v s) y = variable s y
}.

Definition default_value (variables : string -> option flag_value) (d : flag_default) : option flag_value :=
  match d with Lit v => Some v | Global x => variables x end.

Definition define_flag {S} `{FlagPackage S} (s : S) (f : flag) : S :=
  match default_value (variable s) (flag_value_of f) with
  | Some v => define (flag_dest f) v s
  | None => s
  end.
Definition define_flags {S} `{FlagPackage S} (fs : list flag) (s : S) : S := fold_left define_flag fs s.

(** Variables as a map: every package agrees with it. *)
#[export] Program Instance map_package : FlagPackage (gmap string flag_value) :=
  {| variable m x := m !! x; define x v m := <[x := v]> m |}.
Next Obligation. intros x v m. apply lookup_insert_eq. Qed.
Next Obligation. intros x y v m Hne. by apply lookup_insert_ne, not_eq_sym. Qed.

(** What is known of the variables is known after the flags are defined, when it covers the
    variables that defaults are read from. *)
Definition known_defaults (m : gmap string flag_value) (fs : list flag) : Prop :=
  Forall (fun f => is_Some (default_value (fun x => m !! x) (flag_value_of f))) fs.

Lemma define_flags_agree {S} `{FlagPackage S} fs (s : S) (m : gmap string flag_value) :
  known_defaults m fs -> (forall x v, m !! x = Some v -> variable s x = Some v) ->
  forall x v, define_flags fs m !! x = Some v -> variable (define_flags fs s) x = Some v.
Proof.
  unfold define_flags. revert s m. induction fs as [|f fs IH]; intros s m Hk Hs; [done|]. cbn [fold_left].
  apply Forall_cons in Hk as [[v Hv] Hk].
  assert (define_flag m f = <[flag_dest f := v]> m) as ->.
  { unfold define_flag. change (variable m) with (fun x => m !! x). by rewrite Hv. }
  assert (define_flag s f = define (flag_dest f) v s) as ->.
  { unfold define_flag. assert (default_value (variable s) (flag_value_of f) = Some v) as ->; [|done].
    destruct (flag_value_of f); [done|by apply Hs]. }
  apply IH.
  - eapply Forall_impl; [exact Hk|]. intros g [u Hu]. destruct (flag_value_of g) as [|x]; [by eexists|].
    cbn in *. destruct (decide (x = flag_dest f)) as [->|]; [rewrite lookup_insert_eq|rewrite lookup_insert_ne by done];
      by eexists.
  - intros x u. destruct (decide (x = flag_dest f)) as [->|Hne].
    + rewrite lookup_insert_eq, (define_same (S := S)). done.
    + rewrite lookup_insert_ne, (define_other (S := S)) by done. apply Hs.
Qed.

(** What the packages refuse with a panic: two flags of a command with one name or one
    shorthand, the flag [help] and its shorthand included, which every command gets. *)
Definition flags_distinct (c : Command) : bool :=
  bool_decide (NoDup ("help" :: map flag_name (cmd_flags c))) &&
  bool_decide (NoDup ("h" :: filter (fun s => s <> "") (map flag_shorthand (cmd_flags c)))) &&
  forallb (fun f => bool_decide (String.length (flag_shorthand f) <= 1)%nat) (cmd_flags c).

(** The words that name the commands below one. *)
Definition names_of (c : Command) : list string := Name c :: cmd_Aliases (cmd_info c).
Definition names_distinct (c : Command) : bool := bool_decide (NoDup (concat (map names_of (Commands c)))).

(** ** Words of help texts *)
Definition word_char (c : ascii) : bool :=
  let n := nat_of_ascii c in
  ((97 <=? n) && (n <=? 122) || (65 <=? n) && (n <=? 90) || (48 <=? n) && (n <=? 57) || (n =? 45) || (n =? 95))%nat.
Fixpoint words (s : string) : list string :=
  match s with
  | EmptyString => [""]
  | String c s =>
      match words s with
      | w :: ws => if word_char c then String c w :: ws else "" :: w :: ws
      | [] => []
      end
  end.
(** The long flags that a text mentions. *)
Definition mentioned (text : string) : list string :=
  filter (fun w => w <> "") (omap (fun w => CutPrefix w "--") (words text)).
Definition help_text (c : Command) : string :=
  let i := cmd_info c in cmd_Use i +:+ " " +:+ cmd_Long i +:+ " " +:+ cmd_Example i.
Definition unknown_mentions (c : Command) : list string :=
  filter (fun w => w ∉ "help" :: map flag_name (cmd_flags c)) (mentioned (help_text c)).
