(* ===== verification/Root.v ===== *)
(** * The root command ([cli/cmd/root.go], [help.go], [completion.go], [cartridge.go],
    [cli/configure/configure.go: ExternalCmd], [cli/cmd/internal/completion.go])

    How the tree of commands is completed when tt starts, with injected and external
    commands; how a command runs and what tt exits with; help and completion of arguments.
    The packages behind the commands are those of the other files: a module is run through
    [Commands.RunCmd].  Parsing of the command line is cobra's. *)
From S2P Require Import Prelude GoStrings GoPath GoOs GoFs Regexp Value Cluster Configure Version ClusterGet Tarantool.
From S2P Require Import ProcessUtils Install Uninstall Running Instances Control Create InstanceCmds Build Commands Programs.
From S2P Require Import Cobra CmdTree.
Local Open Scope Z_scope.
Local Open Scope io_scope.
Local Open Scope go_scope.

(** ** The tree *)

(** The command that [modules] walks over: paths instead of names. *)
Fixpoint to_command (path : string) (c : Command) : command :=
  let 'Cobra.mkCmd _ _ l := c in mkCommand path (map (fun s => to_command (path +:+ " " +:+ Name s) s) l).

Fixpoint remove_command (name : string) (l : list Command) : list Command :=
  match l with
  | [] => []
  | c :: l => if decide (name = Name c) then l else c :: remove_command name l
  end.

Definition RemoveCommand (name : string) (root : Command) : Command :=
  let 'Cobra.mkCmd i f l := root in Cobra.mkCmd i f (remove_command name l).

Definition injectCmds (root : option Command) (InjectedCmds : list Command) : result Command :=
  match root with
  | None => Err (Errorf "can't inject commands. The root is nil" [])
  | Some root => Ok (fold_left (fun root cmd => AddCommand [cmd] (RemoveCommand (Name cmd) root)) InjectedCmds root)
  end.

(** The command that cobra adds for help. *)
Definition InitDefaultHelpCmd (helpCmd root : Command) : Command := AddCommand [helpCmd] root.

Definition NewCmdRoot (cartCliCmds InjectedCmds : list Command) (helpCmd : Command) : result Command :=
  root <-? injectCmds (Some (rootCommand cartCliCmds)) InjectedCmds;;
  Ok (InitDefaultHelpCmd helpCmd root).

Definition GetHelpCommand (cmd : Command) : option Command :=
  List.find (fun subcmd => bool_decide (Name subcmd = "help")) (Commands cmd).

(** ** External commands ([configure.go]) *)
Definition set_flag_parsing_off (c : Command) : Command :=
  let 'Cobra.mkCmd i f l := c in Cobra.mkCmd (set_field i (DisableFlagParsing true)) f l.

Definition configureExistsCmd (modulesInfo : gmap string ModuleInfo) (root : Command) : Command :=
  let 'Cobra.mkCmd i f l := root in
  Cobra.mkCmd i f (map (fun cmd =>
    match modulesInfo !! (Name root +:+ " " +:+ Name cmd) with
    | Some m => if IsInternal m then cmd else set_flag_parsing_off cmd
    | None => cmd
    end) l).

Definition newExternalCommand (cmdName cmdPath : string) (addArgs : list string) : Command :=
  set_flag_parsing_off (Literal [Use cmdName; Cobra.Run (External cmdPath addArgs)]).

(** The first argument that does not look like a flag; the first one when all do. *)
Definition external_name (args : list string) : result string :=
  match args with
  | [] => Err (Errorf "panic: index out of range" [])
  | arg :: _ => Ok (default arg (List.find (fun name => negb (HasPrefix name "-") && bool_decide (name <> "help")) args))
  end.

(** [helpCmd.AddCommand] on the help command of the root. *)
Fixpoint add_to_help (cmd : Command) (l : list Command) : result (list Command) :=
  match l with
  | [] => nil_deref
  | c :: l => if decide (Name c = "help") then Ok (AddCommand [cmd] c :: l)
              else rmap (cons c) (add_to_help cmd l)
  end.

Definition configureNonExistentCmd (modulesInfo : gmap string ModuleInfo) (args : list string) (root : Command)
    : result Command :=
  externalCmd <-? external_name args;;
  if existsb (fun cmd => bool_decide (Name cmd = externalCmd)) (Commands root) then Ok root
  else
    let externalCmdPath := Name root +:+ " " +:+ externalCmd in
    match modulesInfo !! externalCmdPath with
    | Some m =>
        if IsInternal m then Ok root
        else
          let 'Cobra.mkCmd i f l := AddCommand [newExternalCommand externalCmd externalCmdPath []] root in
          l <-? add_to_help (newExternalCommand externalCmd externalCmdPath ["--help"]) l;;
          Ok (Cobra.mkCmd i f l)
    | None => Ok root
    end.

Definition ExternalCmd (modulesInfo : gmap string ModuleInfo) (args : list string) (root : Command) : result Command :=
  configureNonExistentCmd modulesInfo args (configureExistsCmd modulesInfo root).

(** ** Errors of commands ([util.go: HandleCmdErr]) *)
(** [errors.Is(err, ErrCmdAbort)]: only errors wrapped with [%w] are looked into. *)
Fixpoint is_abort (e : error) : bool :=
  match e with
  | Errorf f args => bool_decide (f = "aborted by user") && bool_decide (args = [])
  | Wrapf f _ w => Contains f "%w" && is_abort w
  | ErrJoin es => existsb is_abort es
  | NotExistError _ => false
  | ValidateError _ es => existsb is_abort es
  end.

(** How a run of tt ends: with a message about a wrong argument and the usage, with a code
    and without a word, with a fatal error, with the help, or normally. *)
Inductive cmd_end := Finished | Helped | UsageExit (e : error) | Exit (code : Z) | Fatal (e : error).
Definition exit_code (e : cmd_end) : Z :=
  match e with Finished | Helped => 0 | UsageExit _ | Fatal _ => 1 | Exit code => code end.

Section Errors.
(** [errors.As(err, &argError)]. *)
Context (is_arg_error : error -> bool).

Definition HandleCmdErr (r : result unit) : cmd_end :=
  match r with
  | Ok _ => Finished
  | Err err =>
      if is_arg_error err then UsageExit err else if is_abort err then Exit 1 else Fatal err
  end.

(** What [rootCmd.Execute] returns. *)
Definition Execute (err : option error) : cmd_end :=
  match err with
  | None => Finished
  | Some err => if is_arg_error err then UsageExit err else Exit 1
  end.
End Errors.

(** [strings.Trim(s, nl)] *)
Fixpoint TrimLeft (s : string) (c : ascii) : string :=
  match s with
  | String c' s' => if decide (c' = c) then TrimLeft s' c else s
  | EmptyString => ""
  end.
Definition trim_newlines (s : string) : string := TrimRight (TrimLeft s (ascii_of_nat 10)) (ascii_of_nat 10).

(** [bytes.Index]: what is before the first occurrence of a text, and what follows from it
    on. *)
Fixpoint cut_at (s sub : string) : option (string * string) :=
  if HasPrefix s sub then Some ("", s)
  else
    match s with
    | EmptyString => None
    | String c s' => match cut_at s' sub with Some (a, b) => Some (String c a, b) | None => None end
    end.

(** ** Running commands *)

(** The variables that a command stores before its module runs: [cmdCtx.CommandName] and
    the names of programs. *)
Record run_vars := mkRunVars { var_CommandName : string; var_Program : gmap string string }.

(** The flags of [tt pack] that are checked before its module runs. *)
Record pack_flags := mkPackFlags { pf_CartridgeCompat : bool; pf_TarantoolVersion : string; pf_UseDocker : bool }.

Section Root.
Context {W : Type} `{OS W, Files W, Trees W, Host W, Processes W, PidFiles W}.
Context `{Yaml} `{!Services W} `{GoMapOrder}.
Context (Read : W -> string -> option error).
Context (unmarshal : string -> result (gmap string value)) (collectors : CollectorFactory W).
Context (decode : W -> string -> CliOpts -> result (option CliOpts)).
Context (exec_Run : string -> list string -> W -> option exec_error * W).
Context (exec_Output : string -> list string -> W -> string * option error).
Context (is_arg_error : error -> bool).
(** The internal modules and the functions of [coredump]; the checks of cobra. *)
Context (internal : Fn.InternalFunc -> run_vars -> list string -> io W unit).
Context (coredump : coredump_func -> string -> io W unit).
Context (check_args : args_check -> info -> list string -> option error).

Section run.
Context (forceInternal : bool) (modulesInfo : gmap string ModuleInfo) (osArgs : list string).

Definition run_module (path : string) (vars : run_vars) (f : Fn.InternalFunc) (args : list string) (w : W)
    : cmd_end * W :=
  match RunCmd Read exec_Run forceInternal path modulesInfo (internal f vars) args w with
  | (Returned r, w) => (HandleCmdErr is_arg_error r, w)
  | (Exited code, w) => (Exit code, w)
  end.

Definition pack_error (i : info) (flags : pack_flags) (args : list string) : option error :=
  let incorrect err := Wrapf "incorrect combination of command parameters: %s" [] err in
  match check_args (ExactArgs 1) i args with
  | Some err => Some (incorrect err)
  | None =>
      match check_args OnlyValidArgs i args with
      | Some err => Some (incorrect err)
      | None =>
          if pf_CartridgeCompat flags && bool_decide (List.hd "" args <> "tgz") then
            Some (Errorf "cartridge-compat flag can only be used while packing tgz bundle" [])
          else if bool_decide (pf_TarantoolVersion flags <> "") && negb (pf_UseDocker flags) then
            Some (Errorf "tarantool-version argument can only be used while packing in docker" [])
          else None
      end
  end.

(** The [Run] of the command at a path. *)
Definition run_command (path : string) (c : Command) (flags : pack_flags) (vars : run_vars) (args : list string) (w : W)
    : cmd_end * W :=
  let named := mkRunVars (Name c) (var_Program vars) in
  match cmd_Run (cmd_info c) with
  | NoRun | Help => (Helped, w)
  | Module sets_name program default_args f =>
      let vars := if sets_name : bool then named else vars in
      let vars := match program with
                  | Some x => mkRunVars (var_CommandName vars) (<[x := Name c]> (var_Program vars))
                  | None => vars
                  end in
      run_module path vars f (if default_args : bool then GetDefaultCmdArgs osArgs (Name c) else args) w
  | ModuleNoArgs f =>
      if decide (args <> []) then (Fatal (Errorf "Wrong number of arguments" []), w)
      else run_module path vars f args w
  | ModulePack f =>
      match pack_error (cmd_info c) flags args with
      | Some err => (Fatal err, w)
      | None => run_module path named f args w
      end
  | ModuleScript f =>
      if existsb (fun opt => bool_decide (opt = "-h") || bool_decide (opt = "--help")) args then (Helped, w)
      else run_module path named f args w
  | Coredump f =>
      match args with
      | [] => (Fatal (Errorf "panic: index out of range" []), w)
      | arg :: _ => let '(r, w) := coredump f arg w in (HandleCmdErr is_arg_error r, w)
      end
  | External cmdPath addArgs =>
      match RunCmd Read exec_Run false cmdPath modulesInfo (fun _ => throw (Errorf "panic: nil function" []))
              (args ++ addArgs) w with
      | (Returned (Ok _), w) => (Finished, w)
      | (Returned (Err err), w) => (Fatal err, w)
      | (Exited code, w) => (Exit code, w)
      end
  end.

(** ** Help ([help.go]) *)

(** The help that cobra prints for a command, and a text. *)
Context (default_help : string -> io W unit) (print : string -> io W unit).

(** The module of a command that is not registered is a nil pointer. *)
Definition getInternalHelpFunc (name path : string) (args : list string) : io W unit :=
  if decide (name = "tt") then default_help path
  else
    match modulesInfo !! path with
    | None => look (fun _ => nil_deref)
    | Some m =>
        if IsInternal m then default_help path
        else
          helpMsg <- look (fun w =>
            match GetExternalModuleHelp exec_Output (ExternalPath m) w with
            | (_, Some err) => Err err
            | (helpMsg, None) => Ok helpMsg
            end) ;;
          print helpMsg
    end.

(** The function that prints the help of a command. *)
Definition help_function (name path : string) (args : list string) (w : W) : cmd_end * W :=
  if bool_decide (length osArgs = 1%nat) || (0 <=? Find args "-h") || (0 <=? Find args "--help") then
    match default_help path w with
    | (Ok _, w) => (Helped, w)
    | (Err err, w) => (Fatal err, w)
    end
  else
    match RunCmd Read exec_Run forceInternal "tt help" modulesInfo (getInternalHelpFunc name path)
            (GetDefaultCmdArgs osArgs "help") w with
    | (Returned (Ok _), w) => (Helped, w)
    | (Returned (Err err), w) => (Fatal err, w)
    | (Exited code, w) => (Exit code, w)
    end.

(** The arguments that complete [tt help]. *)
Definition help_ValidArgs : list string := map fst (range_map modulesInfo).

Definition getExternalCommandsString (bold : string -> string) (w : W) : string :=
  let str := fold_left (fun str e =>
    if IsInternal e.2 then str
    else
      let helpMsg := match GetExternalModuleDescription exec_Output (ExternalPath e.2) w with
                     | (helpMsg, None) => helpMsg
                     | (_, Some _) => "description is absent"
                     end in
      str +:+ "  " +:+ default "" (Split e.1 " " !! 1%nat) +:+ tab +:+ helpMsg +:+ Install.nl) (range_map modulesInfo) "" in
  if decide (str <> "") then trim_newlines (bold (Install.nl +:+ "EXTERNAL COMMANDS" +:+ Install.nl) +:+ str) else "".

(** ** Completion ([completion.go], [internal/completion.go]) *)
Inductive directive := CompDefault | CompNoFileComp.

Definition RootShellCompletionCommands (w : W) : list string * directive :=
  (omap (fun e =>
     if IsInternal e.2 then None
     else
       let description := match GetExternalModuleDescription exec_Output (ExternalPath e.2) w with
                          | (description, None) => description
                          | (_, Some _) => "Failed to get description"
                          end in
       Some (e.1 +:+ tab +:+ description)) (range_map modulesInfo), CompDefault).
End run.

(** [internal.ValidArgsFunction]: instances once the word has the delimiter. *)
Definition internal_ValidArgsFunction (cliOpts : CliOpts) (ctx : CmdCtx) (toComplete : string)
    (appPicker instPicker : W -> list InstanceCtx -> list string) : io W (list string * directive) :=
  filled <- attempt (fill Read unmarshal collectors cliOpts ctx []) ;;
  ask (fun w =>
    (match filled with
     | Err _ => []
     | Ok instances => if Contains toComplete ":" then instPicker w instances else appPicker w instances
     end, CompNoFileComp)).

Definition pick_apps (p : picker) (w : W) (l : list InstanceCtx) : list string :=
  match p with
  | PickAll => ExtractAppNames l
  | PickActive => ExtractActiveAppNames w l
  | PickInactive => ExtractInactiveAppNames w l
  end.
Definition pick_instances (p : picker) (w : W) (l : list InstanceCtx) : list string :=
  match p with
  | PickAll => ExtractInstanceNames l
  | PickActive => ExtractActiveInstanceNames w l
  | PickInactive => ExtractInactiveInstanceNames w l
  end.

(** What completes the arguments of a command. *)
Definition complete (modulesInfo : gmap string ModuleInfo) (cliOpts : CliOpts) (ctx : CmdCtx) (name : string)
    (args : list string) (toComplete : string) (c : completion) : io W (list string * directive) :=
  match c with
  | ModulesCompletion => ask (RootShellCompletionCommands modulesInfo)
  | InstancesCompletion first_only files p =>
      if first_only && negb (bool_decide (args = [])) then ret ([], CompNoFileComp)
      else
        r <- internal_ValidArgsFunction cliOpts ctx toComplete (pick_apps p) (pick_instances p) ;;
        ret (r.1, if files : bool then CompDefault else r.2)
  | AppsCompletion =>
      filled <- attempt (fill Read unmarshal collectors cliOpts ctx []) ;;
      ret (match filled with Ok instances => ExtractAppNames instances | Err _ => [] end, CompNoFileComp)
  | TemplatesCompletion =>
      if decide (args <> []) then ret ([], CompDefault)
      else ask (fun w => (createValidArgs w cliOpts args, CompNoFileComp))
  | InstalledCompletion =>
      if decide (args <> []) then ret ([], CompNoFileComp)
      else
        env <- look (fun _ => deref (opts_Env cliOpts)) ;;
        ask (fun w => (GetList (env_BinDir env) name w, CompNoFileComp))
  end.

(** The embedded completions of LuaRocks, and the script that cobra generates. *)
Context (EmbedCompletions : string -> result string) (gen_completion : string -> result string).

Definition label : string := "    # The user could have moved the cursor backwards on the command-line.".

Definition injectRocksCompletion (shell completion : string) : result string :=
  injection <-? EmbedCompletions ("completions/" +:+ shell +:+ "_injection");;
  rocks <-? EmbedCompletions ("completions/" +:+ shell +:+ "_rocks");;
  match cut_at completion label with
  | None => Err (Errorf "failed to inject LuaRocks completions" [])
  | Some (before, after) => Ok (before +:+ injection +:+ after +:+ rocks)
  end.

(** What is printed. *)
Definition internalCompletionCmd (args : list string) : result string :=
  match args with
  | [] => Err (Errorf "panic: index out of range" [])
  | shell :: _ =>
      if bool_decide (shell = "bash") || bool_decide (shell = "zsh") then
        buf <-? gen_completion shell;; injectRocksCompletion shell buf
      else Err (Errorf "specified shell type is not is not supported. Available: bash | zsh" [])
  end.

(** ** Cartridge ([cartridge.go]) *)
Definition generateRunDirForCartridge (w : W) (env : TtEnvOpts) (configDir runDir appName : string) : result string :=
  if IsAbs runDir then JoinAbspath w [runDir; appName]
  else if decide (runDir = "") then Err (Errorf "empty run directory path" [])
  else if decide (env_InstancesEnabled env = ".") then
    if IsApp w configDir then JoinAbspath w [configDir; runDir]
    else JoinAbspath w [configDir; appName; runDir]
  else JoinAbspath w [env_InstancesEnabled env; appName; runDir].

(** The hook before a command of cartridge-cli; [parsed] is what parsing its arguments
    gives: the value of the flag [name], when the command has it.  A directory that cannot
    be set is only warned about. *)
Definition cartridge_PersistentPreRunE (cliOpts : CliOpts) (configDir : string) (parsed : result (option string))
    : io W unit :=
  match parsed with
  | Err err => throw err
  | Ok None => ret tt
  | Ok (Some appName) =>
      match opts_Env cliOpts with
      | None => throw (Errorf "config 'env' section is uninitialized" [])
      | Some env =>
          attempt (os_Setenv "TT_INST_ENABLED" (env_InstancesEnabled env)) ;;;
          app <- look (fun _ => deref (opts_App cliOpts)) ;;
          runDir <- ask (fun w => generateRunDirForCartridge w env configDir (app_RunDir app) appName) ;;
          match runDir with
          | Ok runDir => attempt (os_Setenv "TT_RUN_DIR" runDir) ;;; ret tt
          | Err _ => ret tt
          end
      end
  end.

(** ** The start of tt ([root.go: InitRoot])

    [cli] is what the flags of the root say.  Another tt may take over. *)
Record started := mkStarted {
  st_Cli : CliCtx; st_ConfigDir : string; st_Opts : CliOpts; st_Modules : gmap string ModuleInfo; st_Root : Command
}.
Inductive init_outcome := Started (s : started) | TakenOver (program : string) (args : list string).

Definition configPath_from_env (w : W) (cli : CliCtx) : result CliCtx :=
  match LookupEnv w "TT_CLI_CFG" with
  | Some v =>
      if decide (cli_ConfigPath cli = "") then
        p <-? rwrap "failed getting config path from environment variable: %s" [] (Abs w v);;
        Ok (set_ConfigPath p cli)
      else Ok cli
  | None => Ok cli
  end.

Definition InitRoot (w : W) (root : Command) (defaultConfigPath : string) (osArgs : list string) (cli : CliCtx)
    : result init_outcome :=
  cli <-? configPath_from_env w cli;;
  _ <-? match ValidateCliOpts cli with Some e => Err e | None => Ok tt end;;
  currentDir <-? rwrap "can't get current dir: %s" [] (Getwd w);;
  let configPath := match GetYamlFileName w (filepath_Join [currentDir; ConfigName]) false with
                    | Ok p => p | Err _ => "" end in
  _ <-? rwrap "integrity check failed: %s" []
          (InitializeIntegrityCheck (fun w => GoOs.ReadFile (w : W)) (cli_IntegrityCheck cli) (path_Dir configPath));;
  outcome <-? rwrap "Failed to configure Tarantool CLI: %s" [] (Cli Read decode w defaultConfigPath osArgs cli);;
  match outcome with
  | Exec program args => Ok (TakenOver program args)
  | Configured cli =>
      opts <-? rwrap "Failed to get Tarantool CLI configuration: %s" [] (GetCliOpts Read decode w (cli_ConfigPath cli));;
      let cli := set_ConfigPath opts.2 cli in
      configDir <-? (if decide (cli_ConfigPath cli = "") then Getwd w else Ok (path_Dir (cli_ConfigPath cli)));;
      modulesInfo <-? rwrap "Failed to configure Tarantool CLI command: %s" []
                        (GetModulesInfo w (cli_ConfigPath cli) opts.1 (Name root) (to_command (Name root) root));;
      root <-? (if decide (1 < length osArgs)%nat then ExternalCmd modulesInfo (List.tl osArgs) root else Ok root);;
      _ <-? deref (GetHelpCommand root);;
      Ok (Started (mkStarted cli configDir opts.1 modulesInfo root))
  end.
End Root.
