(* ===== verification/RootProps.v ===== *)
(** * The root command: facts

    The tree of tt is one that cobra accepts, every variable of a flag holds the default
    of the flag (one variable apart), and a command is run by the module that is named
    like it; the commands of a group that an external module is named like are lost. *)
From S2P Require Import Prelude GoStrings GoPath GoOs GoFs Regexp Value Cluster Configure Version ClusterGet Tarantool.
From S2P Require Import ProcessUtils Install Uninstall Running Instances Control Create InstanceCmds Build Commands Programs.
From S2P Require Import Cobra CmdTree Root.
Local Open Scope Z_scope.
Local Open Scope io_scope.
Local Open Scope go_scope.

(** ** Induction on trees *)
Lemma command_tree_ind (P : command -> Prop) :
  (forall p subs, Forall P subs -> P (mkCommand p subs)) -> forall c, P c.
Proof.
  intros HP. fix IH 1. intros [p subs]. apply HP. induction subs as [|c subs IHs]; constructor; auto.
Qed.

Lemma Command_tree_ind (P : Command -> Prop) :
  (forall i f subs, Forall P subs -> P (Cobra.mkCmd i f subs)) -> forall c, P c.
Proof.
  intros HP. fix IH 1. intros [i f subs]. apply HP. induction subs as [|c subs IHs]; constructor; auto.
Qed.

(** ** Registered paths *)
Definition path_of (c : command) : string := let 'mkCommand p _ := c in p.

Fixpoint paths (c : command) : list string :=
  let 'mkCommand _ subs := c in concat (map (fun s => path_of s :: paths s) subs).

(** The paths below a command that are registered as internal: not those below a path
    that is taken. *)
Fixpoint visible (m : gmap string ModuleInfo) (c : command) : list string :=
  let 'mkCommand _ subs := c in
  concat (map (fun s => match m !! path_of s with Some _ => [] | None => path_of s :: visible m s end) subs).

Lemma visible_agree m m' c :
  (forall p, p ∈ paths c -> m !! p = m' !! p) -> visible m c = visible m' c.
Proof.
  induction c as [p subs IH] using command_tree_ind. cbn [visible paths]. intros Hm. f_equal.
  induction IH as [|s subs Hs _ IHs]; [done|]. cbn [map concat] in *.
  rewrite <-Hm by (apply elem_of_app; left; left).
  rewrite Hs by (intros q Hq; apply Hm, elem_of_app; left; by right).
  f_equal. apply IHs. intros q Hq. apply Hm, elem_of_app. by right.
Qed.

Lemma visible_paths m c k : k ∈ visible m c -> k ∈ paths c.
Proof.
  induction c as [p subs IH] using command_tree_ind. cbn [visible paths].
  induction IH as [|s subs Hs _ IHs]; [done|]. cbn [map concat]. rewrite !elem_of_app.
  intros [Hk|Hk]; [left|right; auto]. destruct (m !! path_of s); [by apply not_elem_of_nil in Hk|].
  apply elem_of_cons in Hk as [->|Hk]; [left|right; auto].
Qed.

Definition registered (m : gmap string ModuleInfo) (l : list string) (k : string) : option ModuleInfo :=
  match m !! k with
  | Some i => Some i
  | None => if bool_decide (k ∈ l) then Some (mkModuleInfo true "") else None
  end.

(** Registering one command with what is below it. *)
Lemma register_one s m :
  NoDup (path_of s :: paths s) ->
  (forall m, NoDup (paths s) -> forall k, fillSubCommandsInfo s m !! k = registered m (visible m s) k) ->
  forall k,
    match m !! path_of s with
    | Some _ => m
    | None => fillSubCommandsInfo s (<[path_of s := mkModuleInfo true ""]> m)
    end !! k
    = registered m (match m !! path_of s with Some _ => [] | None => path_of s :: visible m s end) k.
Proof.
  intros [Hp Hnd]%NoDup_cons IH k. unfold registered. destruct (m !! path_of s) eqn:Hs.
  { destruct (m !! k); [done|]. by rewrite bool_decide_eq_false_2 by apply not_elem_of_nil. }
  rewrite IH by done. unfold registered. destruct (decide (k = path_of s)) as [->|Hne].
  - rewrite lookup_insert_eq, Hs. by rewrite bool_decide_eq_true_2 by left.
  - rewrite lookup_insert_ne by done. destruct (m !! k); [done|].
    rewrite (visible_agree _ m).
    + rewrite (bool_decide_ext (k ∈ path_of s :: visible m s) (k ∈ visible m s)); [done|].
      rewrite elem_of_cons. naive_solver.
    + intros q Hq. rewrite lookup_insert_ne; [done|]. by intros <-.
Qed.

(** With paths that differ, exactly the visible paths are added. *)
Lemma fillSubCommandsInfo_lookup c :
  forall m, NoDup (paths c) -> forall k, fillSubCommandsInfo c m !! k = registered m (visible m c) k.
Proof.
  induction c as [p subs IH] using command_tree_ind. cbn [fillSubCommandsInfo visible paths].
  induction IH as [|s subs Hs _ IHs]; intros m Hnd k.
  { unfold registered. cbn. destruct (m !! k); [done|]. by rewrite bool_decide_eq_false_2 by apply not_elem_of_nil. }
  cbn [map concat fold_left] in *. apply NoDup_app in Hnd as (Hnd1 & Hdis & Hnd2).
  pose proof (register_one s m Hnd1 Hs) as Hone.
  destruct s as [p' l']. cbn [path_of] in *.
  set (m1 := match m !! p' with Some _ => m | None => _ end) in *.
  rewrite IHs by done.
  assert (forall q, q ∈ concat (map (fun s => path_of s :: paths s) subs) -> m1 !! q = m !! q) as Hsame.
  { intros q Hq. rewrite Hone. unfold registered. destruct (m !! q) eqn:?; [done|].
    rewrite bool_decide_eq_false_2; [done|]. intros Hin. apply (Hdis q); [|done].
    destruct (m !! p'); [by apply not_elem_of_nil in Hin|].
    apply elem_of_cons in Hin as [->|Hin]; [left|right; by eapply visible_paths]. }
  pose proof (visible_agree m1 m (mkCommand p' subs) Hsame) as Hvis. cbn [visible] in Hvis. rewrite Hvis.
  unfold registered at 1. rewrite Hone. unfold registered. destruct (m !! k) eqn:Hk; [done|].
  set (l1 := match m !! p' with Some _ => [] | None => _ end). set (l2 := concat _).
  rewrite (bool_decide_ext (k ∈ l1 ++ l2) (k ∈ l1 \/ k ∈ l2)) by apply elem_of_app.
  destruct (decide (k ∈ l1)); [by rewrite !bool_decide_eq_true_2 by auto|].
  rewrite (bool_decide_eq_false_2 (k ∈ l1)) by done.
  by rewrite (bool_decide_ext (k ∈ l1 \/ k ∈ l2) (k ∈ l2)) by naive_solver.
Qed.

(** ** Paths of the tree of cobra *)
Lemma path_of_to_command p c : path_of (to_command p c) = p.
Proof. by destruct c. Qed.

Lemma CommandPath_snoc above p c : CommandPath (above ++ [p], c) = p.
Proof. apply List.last_last. Qed.

Lemma paths_walk c : forall above path, paths (to_command path c) = map CommandPath (walk above path c).
Proof.
  induction c as [i f subs IH] using Command_tree_ind. intros above path. cbn [to_command paths walk].
  rewrite map_map. induction IH as [|s subs Hs _ IHs]; [done|].
  cbn [map concat]. rewrite map_app, <-IHs. f_equal.
  by rewrite path_of_to_command, (Hs (above ++ [path +:+ " " +:+ Name s])), map_cons, CommandPath_snoc.
Qed.

Lemma walk_above c : forall above path e, e ∈ walk above path c -> above `prefix_of` e.1.
Proof.
  induction c as [i f subs IH] using Command_tree_ind. intros above path e. cbn [walk].
  induction IH as [|s subs Hs _ IHs]; cbn [map concat]; [by intros ?%not_elem_of_nil|].
  intros [[->|He]%elem_of_cons|He]%elem_of_app; [|apply Hs in He as [k ->]; eexists; by rewrite <-app_assoc|auto].
  by eexists.
Qed.

Lemma walk_CommandPath c : forall above path e, e ∈ walk above path c -> CommandPath e ∈ e.1.
Proof.
  induction c as [i f subs IH] using Command_tree_ind. intros above path e. cbn [walk].
  induction IH as [|s subs Hs _ IHs]; cbn [map concat]; [by intros ?%not_elem_of_nil|].
  intros [[->|He]%elem_of_cons|He]%elem_of_app; [|by eapply Hs|auto].
  rewrite CommandPath_snoc. apply elem_of_app. right. left.
Qed.

(** No path from the root to the command is taken. *)
Definition free (m : gmap string ModuleInfo) (e : list string * Command) : Prop := Forall (fun q => m !! q = None) e.1.
#[local] Instance free_dec m e : Decision (free m e).
Proof. unfold free. apply _. Defined.

Lemma visible_walk m c : forall above path,
  Forall (fun q => m !! q = None) above ->
  visible m (to_command path c) = map CommandPath (filter (free m) (walk above path c)).
Proof.
  induction c as [i f subs IH] using Command_tree_ind. intros above path Ha. cbn [to_command visible walk].
  rewrite map_map. induction IH as [|s subs Hs _ IHs]; [done|].
  cbn [map concat]. rewrite filter_app, map_app, <-IHs, path_of_to_command. f_equal. clear IHs.
  set (p := path +:+ " " +:+ Name s). rewrite filter_cons.
  assert (free m (above ++ [p], s) <-> m !! p = None) as Hfree.
  { unfold free. cbn. rewrite Forall_app, Forall_singleton. naive_solver. }
  destruct (m !! p) eqn:Hp.
  - rewrite decide_False by naive_solver.
    assert (filter (free m) (walk (above ++ [p]) p s) = []) as ->; [|done].
    apply elem_of_nil_inv. intros e [He Hw]%list_elem_of_filter. apply walk_above in Hw as [k Hk].
    unfold free in He. rewrite Hk, !Forall_app, Forall_singleton in He. naive_solver.
  - rewrite decide_True by naive_solver. rewrite map_cons, CommandPath_snoc. f_equal.
    apply Hs. apply Forall_app. by rewrite Forall_singleton.
Qed.

(** What is registered for a command of the tree: what was there, nothing when a group
    that it belongs to was there, and otherwise the internal module. *)
Lemma command_lookup root m e :
  NoDup (map CommandPath (all_commands root)) -> e ∈ all_commands root ->
  fillSubCommandsInfo (to_command (Name root) root) m !! CommandPath e
  = match m !! CommandPath e with
    | Some i => Some i
    | None => if bool_decide (free m e) then Some (mkModuleInfo true "") else None
    end.
Proof.
  intros Hnd He. rewrite fillSubCommandsInfo_lookup by by rewrite (paths_walk root []).
  unfold registered. destruct (m !! CommandPath e); [done|].
  rewrite (visible_walk m root []) by done.
  rewrite (bool_decide_ext _ (free m e)); [done|]. rewrite list_elem_of_fmap. split.
  - intros (e' & Hp & [Hf He']%list_elem_of_filter).
    assert (e = e') as ->; [|done].
    change (walk [] (Name root) root) with (all_commands root) in He'.
    destruct (list_elem_of_lookup_1 _ _ He) as [a Ha], (list_elem_of_lookup_1 _ _ He') as [b Hb].
    assert (a = b) as ->; [|congruence].
    apply (NoDup_lookup _ a b (CommandPath e) Hnd); rewrite (list_lookup_fmap CommandPath);
      [by rewrite Ha|by rewrite Hb, Hp].
  - intros Hf. exists e. split; [done|]. by apply list_elem_of_filter.
Qed.

(** ** Modules of commands *)
Section dispatch.
Context `{GoMapOrder}.

Lemma external_map_lookup rootName (modules : gmap string string) :
  let ext : gmap string ModuleInfo :=
    fold_left (fun m e => <[rootName +:+ " " +:+ e.1 := mkModuleInfo false e.2]> m) (range_map modules) ∅ in
  (forall n path, modules !! n = Some path -> ext !! (rootName +:+ " " +:+ n) = Some (mkModuleInfo false path)) /\
  (forall q, (forall n path, q = rootName +:+ " " +:+ n -> modules !! n <> Some path) -> ext !! q = None).
Proof.
  destruct (fold_insert_lookup (fun e => rootName +:+ " " +:+ e.1) (fun e => mkModuleInfo false e.2)
              (range_map modules) ∅ (module_names_differ rootName modules)) as [Hin Hout].
  split.
  - intros n path Hn. by apply (Hin (n, path)), elem_of_range_map.
  - intros q Hq. rewrite Hout, lookup_empty; [done|].
    intros ([n path] & -> & Hn%elem_of_range_map)%list_elem_of_fmap. by eapply Hq.
Qed.

(** A path that an external module is named by. *)
Definition taken (root : Command) (modules : gmap string string) (q : string) : Prop :=
  exists n path, q = Name root +:+ " " +:+ n /\ modules !! n = Some path.

Context {W : Type} `{OS W}.

(** C34: A command of the tree runs its internal module when no external
    module is named like it or like a group it belongs to; it runs the
    external module of its name, unless internal modules are asked for; and
    when only a group it belongs to is named like an external module, it is
    not found, also when internal modules are asked for. *)
Theorem command_dispatch (w : W) configPath opts root dir modules :
  NoDup (map CommandPath (all_commands root)) ->
  getExternalModulesDir w configPath opts = Ok dir -> getExternalModules w dir = Ok modules ->
  exists info, GetModulesInfo w configPath opts (Name root) (to_command (Name root) root) = Ok info /\
  forall e, e ∈ all_commands root ->
  forall Read exec_Run forceInternal internal args (w' : W),
  let run := RunCmd Read exec_Run forceInternal (CommandPath e) info internal args w' in
  ((forall q, q ∈ e.1 -> ~ taken root modules q) ->
   run = let '(r, w) := internal args w' in (Returned r, w)) /\
  (forall n path, CommandPath e = Name root +:+ " " +:+ n -> modules !! n = Some path ->
   forceInternal = false -> Read w' path = None ->
   run = let '(rc, w) := RunExec exec_Run path args w' in
         if rc =? 0 then (Returned (Ok tt), w) else (Exited rc, w)) /\
  (~ taken root modules (CommandPath e) -> (exists q, q ∈ e.1 /\ taken root modules q) ->
   run = (Returned (Err (Errorf "module with specified name %s isn't found" [CommandPath e])), w')).
Proof.
  intros Hnd Hdir Hmod. unfold GetModulesInfo. rewrite Hdir. cbn [rbind]. rewrite Hmod. cbn [rwrap rbind].
  eexists. split; [done|]. intros e He Read exec_Run force internal args w'.
  destruct (external_map_lookup (Name root) modules) as [Hin Hout].
  set (ext := fold_left _ _ _) in *. pose proof (command_lookup root ext e Hnd He) as Hlook.
  assert (forall q, ~ taken root modules q -> ext !! q = None) as Hfree.
  { intros q Hq. apply Hout. intros n path -> Hn. apply Hq. by exists n, path. }
  unfold RunCmd. rewrite Hlook. split_and!.
  - intros Hall. rewrite Hfree by by apply Hall, (walk_CommandPath _ _ _ _ He).
    rewrite bool_decide_eq_true_2 by (apply Forall_forall; auto). done.
  - intros n path Hp Hn -> HR. rewrite Hp, (Hin n path Hn). cbn. by rewrite HR.
  - intros Hn (q & Hq & n & path & -> & Hm). rewrite (Hfree _ Hn), bool_decide_eq_false_2; [done|].
    intros HF. apply (proj1 (Forall_forall _ _) HF) in Hq. by rewrite (Hin n path Hm) in Hq.
Qed.
End dispatch.

(** A world with a configuration file and two external modules. *)
#[export] Instance shelf_OS : OS (list string) := {|
  GoOs.Getwd _ := Ok "/app";
  GoOs.Chdir w _ := Ok w;
  GoOs.Getenv _ _ := "";
  GoOs.Stat w p := if decide (p = "/app/modules") then Ok (mkFileInfo p Directory 1)
              else if decide (p = "/app/tt.yaml") then Ok (mkFileInfo p RegularFile 2) else Err ErrNotExist;
  GoOs.Glob _ _ := Ok [];
  GoOs.ReadDir w _ := Ok w;
  GoOs.ReadFile _ _ := Err ErrNotExist;
  GoOs.LookPath _ p := Ok p;
  GoOs.EvalSymlinks _ p := Ok p;
  GoOs.Executable _ := Ok "/usr/bin/tt"
|}.

Definition shelf_opts : CliOpts :=
  mkCliOpts None (Some (mkModulesOpts "/app/modules")) None None [] None.

(** ** The tree of tt *)

(** The commands of tt with their root; those of cartridge-cli are not among them. *)
Definition tt_commands : list Command := rootCommand [] :: map snd (all_commands (rootCommand [])).

(** A check over all commands, and over all flags, that can be evaluated. *)
Lemma tt_commands_forall (P : Command -> bool) :
  forallb P tt_commands = true -> forall c, c ∈ tt_commands -> P c = true.
Proof. intros HP c Hc. by apply (proj1 (List.forallb_forall P tt_commands) HP), list_elem_of_In. Qed.

Lemma tt_paths_distinct : NoDup (map CommandPath (all_commands (rootCommand []))).
Proof. apply (bool_decide_unpack _). vm_compute. exact I. Qed.

Lemma version_in_tree : (["tt version"], NewVersionCmd) ∈ all_commands (rootCommand []).
Proof. apply (list_elem_of_lookup_2 _ 0). vm_compute. reflexivity. Qed.
Lemma cluster_show_in_tree : (["tt cluster"; "tt cluster show"], NewClusterCmd_show) ∈ all_commands (rootCommand []).
Proof. apply (list_elem_of_lookup_2 _ 14). vm_compute. reflexivity. Qed.

(** With a module [cluster], [tt version] runs its own module and [tt cluster show] is not
    found, with the flag for internal modules too. *)
Lemma command_dispatch_witness :
  exists info,
    GetModulesInfo ["cluster.sh"] "/app/tt.yaml" shelf_opts "tt" (to_command "tt" (rootCommand [])) = Ok info /\
    forall internal args,
    RunCmd (fun _ _ => None) (fun _ _ w => (None, w)) false "tt version" info internal args ["cluster.sh"]
    = (let '(r, w) := internal args ["cluster.sh"] in (Returned r, w)) /\
    RunCmd (fun _ _ => None) (fun _ _ w => (None, w)) true "tt cluster show" info internal args ["cluster.sh"]
    = (Returned (Err (Errorf "module with specified name %s isn't found" ["tt cluster show"])), ["cluster.sh"]).
Proof.
  destruct (@command_dispatch canonical_order (list string) shelf_OS ["cluster.sh"] "/app/tt.yaml" shelf_opts (rootCommand []) "/app/modules"
              {["cluster" := "/app/modules/cluster.sh"]} tt_paths_distinct ltac:(vm_compute; reflexivity)
              ltac:(vm_compute; reflexivity)) as (info & Hinfo & Hrun).
  exists info. split; [exact Hinfo|]. intros internal args. split.
  - apply (Hrun _ version_in_tree (fun _ _ => None) (fun _ _ w => (None, w)) false internal args ["cluster.sh"]).
    intros q ->%list_elem_of_singleton (n & path & Hq & Hn). vm_compute in Hq. injection Hq as <-.
    by vm_compute in Hn.
  - apply (Hrun _ cluster_show_in_tree (fun _ _ => None) (fun _ _ w => (None, w)) true internal args ["cluster.sh"]).
    + intros (n & path & Hq & Hn). vm_compute in Hq. injection Hq as <-. by vm_compute in Hn.
    + exists "tt cluster". split; [left|]. exists "cluster", "/app/modules/cluster.sh". split; vm_compute; reflexivity.
Defined.

(** No command of tt has two flags with one name or one shorthand, the flag for help
    included, and no two commands below one share a name or an alias. *)
Theorem tree_accepted c :
  c ∈ tt_commands ->
  NoDup ("help" :: map flag_name (cmd_flags c)) /\
  NoDup ("h" :: filter (fun s => s <> "") (map flag_shorthand (cmd_flags c))) /\
  NoDup (concat (map names_of (Commands c))).
Proof.
  intros Hc. pose proof (tt_commands_forall (fun c => flags_distinct c && names_distinct c)) as Hall.
  specialize (Hall ltac:(vm_compute; reflexivity) c Hc). cbn beta in Hall. unfold flags_distinct, names_distinct in Hall.
  rewrite !andb_true_iff, !bool_decide_eq_true in Hall. tauto.
Qed.

Lemma tree_accepted_witness : NoDup (concat (map names_of (Commands NewClusterCmd))).
Proof.
  apply (tree_accepted NewClusterCmd). apply (list_elem_of_lookup_2 _ 14). vm_compute. reflexivity.
Defined.

(** The check that the variable of a flag holds the default of the flag after all flags
    are defined, some flags apart. *)
Definition default_check (fs : list flag) (m : gmap string flag_value) (apart : flag -> flag_value -> bool) (f : flag)
    : bool :=
  match default_value (fun x => m !! x) (flag_value_of f), define_flags fs m !! flag_dest f with
  | Some declared, Some now => Bool.eqb (bool_decide (now = declared)) (negb (apart f declared))
  | _, _ => false
  end.

Lemma checked_defaults {S} `{FlagPackage S} fs m apart (s : S) :
  forallb (default_check fs m apart) fs = true ->
  (forall x v, m !! x = Some v -> variable s x = Some v) ->
  forall f, f ∈ fs ->
  exists declared now,
    default_value (fun x => m !! x) (flag_value_of f) = Some declared /\
    variable (define_flags fs s) (flag_dest f) = Some now /\
    (now = declared <-> apart f declared = false).
Proof.
  intros Hall Hs f Hf. pose proof (proj1 (List.forallb_forall _ _) Hall) as Hc. clear Hall.
  assert (known_defaults m fs) as Hk.
  { apply Forall_forall. intros g Hg%list_elem_of_In. specialize (Hc g Hg). unfold default_check in Hc.
    by destruct (default_value _ (flag_value_of g)). }
  specialize (Hc f (proj1 (list_elem_of_In _ _) Hf)). unfold default_check in Hc.
  destruct (default_value _ (flag_value_of f)) as [declared|] eqn:Hd; [|done].
  destruct (define_flags fs m !! flag_dest f) as [now|] eqn:Hn; [|done].
  exists declared, now. split_and!; [done|exact (define_flags_agree _ s m Hk Hs _ _ Hn)|].
  apply Bool.eqb_prop in Hc. by rewrite <-(bool_decide_eq_true (now = declared)), Hc, negb_true_iff.
Qed.

(** The one variable whose flags have different defaults. *)
Definition overwritten (f : flag) (declared : flag_value) : bool :=
  bool_decide (flag_dest f = "replicasetTimeout") && bool_decide (declared = FInt DefaultTimeout).

(** C35: After all flags of tt are defined, in the order of the constructors,
    the variable of each flag holds the default that the flag declares, except
    that of the flag timeout of the commands that promote, demote and expel,
    which holds the default of a later command with the same variable. *)
Theorem flag_defaults {S} `{FlagPackage S} (s : S) :
  (forall x v, globals !! x = Some v -> variable s x = Some v) ->
  forall f, f ∈ defined_flags (rootCommand []) ->
  exists declared now,
    default_value (fun x => globals !! x) (flag_value_of f) = Some declared /\
    variable (define_flags (defined_flags (rootCommand [])) s) (flag_dest f) = Some now /\
    (now = declared <-> ~ (flag_dest f = "replicasetTimeout" /\ declared = FInt DefaultTimeout)).
Proof.
  assert (forallb (default_check (defined_flags (rootCommand [])) globals overwritten)
            (defined_flags (rootCommand [])) = true) as Hc by (vm_compute; reflexivity).
  intros Hs f Hf. destruct (checked_defaults _ _ _ s Hc Hs f Hf) as (declared & now & Hd & Hn & Hi).
  exists declared, now. split_and!; [done|done|]. rewrite Hi. unfold overwritten.
  by rewrite <-not_true_iff_false, andb_true_iff, !bool_decide_eq_true.
Qed.

Lemma flag_defaults_witness :
  exists declared now,
    default_value (fun x => globals !! x) (FInt 3) = Some declared /\
    variable (define_flags (defined_flags (rootCommand [])) globals) "replicasetTimeout" = Some now /\
    (now = declared <-> ~ ("replicasetTimeout" = "replicasetTimeout" /\ declared = FInt DefaultTimeout)).
Proof.
  refine (@flag_defaults (gmap string flag_value) map_package globals (fun x v H => H)
            (mkFlag "replicasetTimeout" "timeout" "" (FInt 3) "promoting timeout" false) _).
  apply (list_elem_of_lookup_2 _ 85). vm_compute. reflexivity.
Defined.

(** The flag [timeout] of [tt replicaset promote], [demote] and [expel] is documented with
    3 seconds, and is 10. *)
Example promote_timeout :
  map flag_value_of (filter (fun f => flag_name f = "timeout") (cmd_flags newPromoteCmd)) = [Lit (FInt 3)] /\
  define_flags (defined_flags (rootCommand [])) globals !! "replicasetTimeout" = Some (FInt 10).
Proof. split; vm_compute; reflexivity. Qed.

(** The help of a command that parses flags mentions flags that it, or a command below it,
    has; the example of [tt cluster replicaset roles add] apart. *)
Definition known_mentions (c : Command) : bool :=
  cmd_DisableFlagParsing (cmd_info c) ||
  bool_decide (filter (fun w => w ∉ concat (map (fun e => map flag_name (cmd_flags e.2)) (all_commands c)))
                 (unknown_mentions c) = []).

Theorem help_mentions_flags e :
  e ∈ all_commands (rootCommand []) ->
  known_mentions e.2 = bool_decide (CommandPath e <> "tt cluster replicaset roles add").
Proof.
  assert (forallb (fun e => Bool.eqb (known_mentions e.2)
            (bool_decide (CommandPath e <> "tt cluster replicaset roles add"))) (all_commands (rootCommand [])) = true)
    as Hall by (vm_compute; reflexivity).
  intros He. apply Bool.eqb_prop. exact (proj1 (List.forallb_forall _ _) Hall e (proj1 (list_elem_of_In _ _) He)).
Qed.

(** ** Injected commands *)

Lemma filter_all_kept {A} (P : A -> Prop) `{forall x, Decision (P x)} l : Forall P l -> filter P l = l.
Proof.
  induction 1 as [|x l Hx _ IH]; [done|]. by rewrite filter_cons, decide_True, IH.
Qed.

Lemma remove_command_filter name l :
  NoDup (map Name l) -> remove_command name l = filter (fun c => Name c <> name) l.
Proof.
  induction l as [|c l IH]; [done|]. cbn [map remove_command]. intros [Hc Hnd]%NoDup_cons.
  rewrite filter_cons. destruct (decide (name = Name c)) as [->|Hne].
  - rewrite decide_False by (intros Hn; by apply Hn). symmetry. apply filter_all_kept, Forall_forall.
    intros c' Hc' Heq. apply Hc. rewrite <-Heq. by apply (list_elem_of_fmap_2 Name).
  - rewrite decide_True by auto. by rewrite IH.
Qed.

Lemma filter_Name_NoDup (P : Command -> Prop) `{forall c, Decision (P c)} l :
  NoDup (map Name l) -> NoDup (map Name (filter P l)).
Proof.
  induction l as [|c l IH]; [done|]. cbn [map]. intros [Hc Hnd]%NoDup_cons. rewrite filter_cons.
  destruct (decide (P c)); [|auto]. cbn [map]. apply NoDup_cons. split; [|auto].
  intros (c' & Heq & [_ Hc']%list_elem_of_filter)%list_elem_of_fmap. apply Hc. rewrite Heq.
  by apply (list_elem_of_fmap_2 Name).
Qed.

(** An injected command takes the place of the command of its name, the others stay. *)
Theorem injectCmds_overrides InjectedCmds : forall root root',
  NoDup (map Name (Commands root)) -> NoDup (map Name InjectedCmds) -> injectCmds (Some root) InjectedCmds = Ok root' ->
  Commands root' = filter (fun c => Name c ∉ map Name InjectedCmds) (Commands root) ++ InjectedCmds.
Proof.
  cbn [injectCmds]. induction InjectedCmds as [|cmd cmds IH]; intros [i f l] root' Hnd Hi [= <-].
  - cbn [fold_left Commands map]. rewrite app_nil_r. symmetry. apply filter_all_kept, Forall_forall.
    intros c _. apply not_elem_of_nil.
  - cbn [fold_left map]. apply NoDup_cons in Hi as [Hcmd Hi].
    cbn [Commands RemoveCommand AddCommand] in *. rewrite remove_command_filter by done.
    rewrite (IH (Cobra.mkCmd i f (filter (fun c => Name c <> Name cmd) l ++ [cmd])) _ ); [|cbn [Commands]|done|done].
    + cbn [Commands]. rewrite filter_app, list_filter_filter, <-app_assoc.
      rewrite (filter_cons_True _ cmd) by done. cbn [filter list_filter app].
      f_equal. apply list_filter_iff. intros c. rewrite not_elem_of_cons. naive_solver.
    + rewrite map_app. apply NoDup_app. split_and!.
      * by apply filter_Name_NoDup.
      * intros n (c & -> & [Hc _]%list_elem_of_filter)%list_elem_of_fmap Hn%list_elem_of_singleton. done.
      * apply NoDup_singleton.
Qed.

(** ** External commands *)
Lemma add_to_help_Ok cmd l :
  "help" ∈ map Name l ->
  exists l', add_to_help cmd l = Ok l' /\ forall c, c ∈ l -> Name c <> "help" -> c ∈ l'.
Proof.
  induction l as [|c l IH]; cbn [map]; [by intros ?%not_elem_of_nil|]. intros Hh. cbn [add_to_help].
  destruct (decide (Name c = "help")) as [Hc|Hc].
  - eexists. split; [done|]. intros c' [->|Hc']%elem_of_cons Hne; [done|by right].
  - apply elem_of_cons in Hh as [Hh|Hh]; [congruence|]. destruct (IH Hh) as (l' & -> & Hl').
    eexists. split; [done|]. intros c' [->|Hc']%elem_of_cons Hne; [left|right; auto].
Qed.

(** A module that no command is named like gets a command, which runs it with the
    arguments as they are, also with the flag for internal modules. *)
Theorem external_command_runs {W} modulesInfo args root n path Read exec_Run is_arg_error internal coredump check_args :
  external_name args = Ok n -> n ∉ map Name (Commands root) -> "help" ∈ map Name (Commands root) ->
  modulesInfo !! (Name root +:+ " " +:+ n) = Some (mkModuleInfo false path) ->
  no_char " " n = true ->
  exists root' c, configureNonExistentCmd modulesInfo args root = Ok root' /\ c ∈ Commands root' /\ Name c = n /\
  forall forceInternal osArgs cmdPath flags vars cmdArgs (w : W), Read w path = None ->
  run_command Read exec_Run is_arg_error internal coredump check_args forceInternal modulesInfo osArgs cmdPath c
    flags vars cmdArgs w
  = let '(rc, w) := RunExec exec_Run path cmdArgs w in ((if rc =? 0 then Finished else Exit rc), w).
Proof.
  intros Hname Hn Hh Hm Hsp. unfold configureNonExistentCmd. rewrite Hname. cbn [rbind].
  assert (existsb (fun cmd => bool_decide (Name cmd = n)) (Commands root) = false) as ->.
  { apply not_true_is_false. intros (c & Hc & Heq)%existsb_exists. apply bool_decide_eq_true in Heq. subst n.
    apply Hn, (list_elem_of_fmap_2 Name). by apply list_elem_of_In. }
  rewrite Hm. cbn [IsInternal]. remember (Name root +:+ " " +:+ n) as path' eqn:Hpath. clear Hpath Hname.
  set (ext := newExternalCommand n path' []).
  assert (Name ext = n) as HN.
  { unfold Name. cbn [ext newExternalCommand set_flag_parsing_off Literal fold_left set_field zero_info cmd_info cmd_Use].
    by rewrite Split_no_char. }
  destruct root as [i f l]. cbn [AddCommand Commands] in *.
  destruct (add_to_help_Ok (newExternalCommand n path' ["--help"]) (l ++ [ext])) as (l' & Hl' & Hkeep).
  { rewrite map_app. apply elem_of_app. by left. }
  rewrite Hl'. cbn [rbind]. exists (Cobra.mkCmd i f l'), ext. split_and!; [done| |done|].
  { apply Hkeep; [apply elem_of_app; right; left|]. rewrite HN. by intros ->. }
  intros forceInternal osArgs cmdPath flags vars cmdArgs w HR. unfold run_command.
  assert (cmd_Run (cmd_info ext) = External path' []) as -> by reflexivity. unfold RunCmd.
  rewrite Hm. cbn [IsInternal ExternalPath orb]. rewrite HR, app_nil_r.
  destruct (RunExec exec_Run path cmdArgs w) as [rc w1]. by destruct (rc =? 0).
Qed.

(** The value of a flag of tt is taken for the name of the command. *)
Lemma external_name_of_flag_value flag dir name :
  HasPrefix flag "-" = true -> HasPrefix dir "-" = false -> dir <> "help" ->
  external_name [flag; dir; name] = Ok dir.
Proof.
  intros Hf Hd Hh. unfold external_name. cbn [List.find]. rewrite Hf, Hd. cbn [negb andb].
  by rewrite bool_decide_eq_true_2.
Qed.

(** The help of a command that is not registered reads through a nil pointer. *)
Lemma hidden_help_panics {W} exec_Output modulesInfo default_help print name path args (w : W) :
  modulesInfo !! path = None -> name <> "tt" ->
  getInternalHelpFunc exec_Output modulesInfo default_help print name path args w = (nil_deref, w).
Proof. intros Hp Hn. unfold getInternalHelpFunc. by rewrite decide_False, Hp. Qed.

(** The words that complete the command line are paths, with the name of the root, and not
    names of modules. *)
Lemma root_completion_proposes_paths {W} `{GoMapOrder} exec_Output modulesInfo (w : W) path m :
  modulesInfo !! path = Some m -> IsInternal m = false ->
  exists description, path +:+ tab +:+ description ∈ (RootShellCompletionCommands exec_Output modulesInfo w).1.
Proof.
  intros Hp Hm. unfold RootShellCompletionCommands. cbn [fst].
  destruct (GetExternalModuleDescription exec_Output (ExternalPath m) w) as [d [err|]] eqn:Hd.
  - exists "Failed to get description". apply list_elem_of_omap. exists (path, m).
    split; [by apply elem_of_range_map|]. cbn. by rewrite Hm, Hd.
  - exists d. apply list_elem_of_omap. exists (path, m).
    split; [by apply elem_of_range_map|]. cbn. by rewrite Hm, Hd.
Qed.

(** ** Ends of runs *)

(** tt exits with zero exactly when a command returned no error. *)
Lemma HandleCmdErr_exit is_arg_error r : exit_code (HandleCmdErr is_arg_error r) = 0 <-> is_ok r = true.
Proof. destruct r as [|e]; cbn; [done|]. by destruct (is_arg_error e), (is_abort e). Qed.

(** ** Completion scripts *)
Lemma cut_at_Some s sub a b : cut_at s sub = Some (a, b) -> s = a +:+ b /\ HasPrefix b sub = true.
Proof.
  revert a b. induction s as [|c s IH]; intros a b; cbn [cut_at].
  - destruct (HasPrefix "" sub) eqn:Hp; [|done]. by intros [= <- <-].
  - destruct (HasPrefix (String c s) sub) eqn:Hp; [by intros [= <- <-]|].
    destruct (cut_at s sub) as [[a' b']|]; [|done]. intros [= <- <-].
    destruct (IH a' b' eq_refl) as [-> Hb]. by split.
Qed.

(** The script of cobra is kept, in two parts: the injection stands before the label. *)
Lemma injectRocksCompletion_keeps EmbedCompletions shell completion script :
  injectRocksCompletion EmbedCompletions shell completion = Ok script ->
  exists before after injection rocks,
    completion = before +:+ after /\ HasPrefix after label = true /\
    script = before +:+ injection +:+ after +:+ rocks.
Proof.
  unfold injectRocksCompletion. intros (injection & _ & (rocks & _ & Hs)%rbind_Ok)%rbind_Ok.
  destruct (cut_at completion label) as [[before after]|] eqn:Hc; [|done]. injection Hs as <-.
  apply cut_at_Some in Hc as [-> Hp]. by exists before, after, injection, rocks.
Qed.

(** ** The start of tt *)
Section start.
Context {W : Type} `{OS W, Host W, GoMapOrder}.
Context (Read : W -> string -> option error) (decode : W -> string -> CliOpts -> result (option CliOpts)).

Lemma configPath_from_env_set w cli v :
  LookupEnv w "TT_CLI_CFG" = Some v -> cli_ConfigPath cli = "" ->
  configPath_from_env w cli
  = (p <-? rwrap "failed getting config path from environment variable: %s" [] (Abs w v);; Ok (set_ConfigPath p cli)).
Proof. intros Hv Hc. unfold configPath_from_env. by rewrite Hv, decide_True. Qed.

(** A configuration file and a launch directory, or a system launch, exclude each other,
    also when the file comes from the environment. *)
Theorem start_conflict w root defaultConfigPath osArgs cli v p :
  LookupEnv w "TT_CLI_CFG" = Some v -> Abs w v = Ok p -> p <> "" -> cli_ConfigPath cli = "" ->
  cli_LocalLaunchDir cli <> "" \/ cli_IsSystem cli = true ->
  is_ok (InitRoot Read decode w root defaultConfigPath osArgs cli) = false.
Proof.
  intros Hv Hp Hne Hc Hcli. unfold InitRoot. rewrite (configPath_from_env_set w cli v Hv Hc), Hp. cbn [rwrap rbind].
  assert (exists e, ValidateCliOpts (set_ConfigPath p cli) = Some e) as [e ->]; [|done].
  unfold ValidateCliOpts. cbn [cli_LocalLaunchDir cli_IsSystem cli_ConfigPath set_ConfigPath].
  destruct (decide (cli_LocalLaunchDir cli <> "")).
  - destruct (cli_IsSystem cli); [by eexists|]. rewrite decide_True by done. by eexists.
  - destruct Hcli as [?| ->]; [done|]. rewrite bool_decide_eq_true_2 by done. by eexists.
Qed.

(** What tt starts with: the options of the file it found, and the modules of the tree. *)
Theorem started_modules w root defaultConfigPath osArgs cli s :
  InitRoot Read decode w root defaultConfigPath osArgs cli = Ok (Started s) ->
  GetModulesInfo w (cli_ConfigPath (st_Cli s)) (st_Opts s) (Name root) (to_command (Name root) root)
  = Ok (st_Modules s) /\
  (exists configPath, GetCliOpts Read decode w configPath = Ok (st_Opts s, cli_ConfigPath (st_Cli s))) /\
  is_Some (GetHelpCommand (st_Root s)).
Proof.
  unfold InitRoot. intros (cli1 & _ & (? & _ & (dir & _ & (? & _ & (out & _ & Hout)%rbind_Ok)%rbind_Ok)%rbind_Ok)%rbind_Ok)%rbind_Ok.
  destruct out as [cli2|]; [|done].
  apply rbind_Ok in Hout as (opts & Hopts & (configDir & _ & (modules & Hmod & (root' & _ & (h & Hhelp & [= <-])%rbind_Ok)%rbind_Ok)%rbind_Ok)%rbind_Ok).
  cbn [st_Modules st_Cli st_Opts st_Root cli_ConfigPath set_ConfigPath] in *. split_and!.
  - by destruct (GetModulesInfo _ _ _ _ _); cbn in *; simplify_eq.
  - exists (cli_ConfigPath cli2). destruct (GetCliOpts _ _ _ _) as [[]|]; cbn in *; by simplify_eq.
  - destruct (GetHelpCommand root'); [by eexists|done].
Qed.
End start.
