(* ===== verification/Helpers.v ===== *)
(** * Smaller helpers ([cli/util/util.go], [cli/util/execute.go], [cli/pack/tgz.go],
    [cli/ttlog/logger.go], [cli/cmd/log.go])

    Unpacking of bundles, files and buffers, the run of a program with a spinner, the
    rotation of a log file, and the module of [tt log]. *)
From S2P Require Import Prelude GoStrings GoPath GoOs GoFs Regexp Value Cluster Configure Version ClusterGet Tarantool.
From S2P Require Import ProcessUtils Install Running Instances Control Create InstanceCmds Tail Programs.
From S2P Require Import Disk TempDirs Build Commands.
Local Open Scope Z_scope.
Local Open Scope io_scope.

(** ** Values *)
Definition Min (a b : Z) : Z := if a <? b then a else b.

(** [ConcatBuffers]: the contents of the buffers after the call; the sources are drained. *)
Definition ConcatBuffers {A} (dest : list A) (sources : list (list A)) : list A * list (list A) :=
  fold_left (fun r src => (r.1 ++ src, r.2 ++ [[]])) sources (dest, []).

Lemma ConcatBuffers_appends {A} (dest : list A) sources :
  ConcatBuffers dest sources = (dest ++ concat sources, map (fun _ => []) sources).
Proof.
  assert (forall sources dest drained,
    fold_left (fun r (src : list A) => (r.1 ++ src, r.2 ++ [[]])) sources (dest, drained)
    = (dest ++ concat sources, drained ++ map (fun _ => @nil A) sources)) as Hgen; [|apply (Hgen sources dest [])].
  induction sources0 as [|src l IH]; intros d drained; cbn [fold_left concat map]; [by rewrite !app_nil_r|].
  cbn [fst snd]. by rewrite IH, <-!app_assoc.
Qed.

Section Helpers.
Context {W : Type} `{OS W, Files W, Trees W, Host W}.

(** ** Files *)
Definition GetFileContentBytes (w : W) (path : string) : result string := GoOs.ReadFile w path.
Definition GetFileContent (w : W) (path : string) : result string :=
  match GetFileContentBytes w path with Ok content => Ok content | Err err => Err err end.

(** The message that warns about programs that are not there. *)
Definition CheckRecommendedBinaries (w : W) (binaries : list string) : option string :=
  let missedBinaries := getMissedBinaries w binaries in
  if decide (0 < length missedBinaries)%nat then Some ("Missed recommended binaries " +:+ Join missedBinaries ", ")
  else None.

(** What an encoder wrote before it failed stays in the file. *)
Definition WriteYaml {A} (encode : A -> string * option error) (fileName : string) (o : A) : io W unit :=
  os_WriteFile fileName "" 438 ;;;
  os_WriteFile fileName (encode o).1 438 ;;;
  match (encode o).2 with Some err => throw err | None => ret tt end.

(** ** Archives ([util.go: ExtractTar]) *)
Context (read_archive : W -> string -> result (list archive_entry * option error)).

(** The name up to its last slash; empty without one. *)
Definition name_dir (name : string) : string :=
  match cut_last name "/" with Some (dir, _) => dir | None => "" end.

(** Directories come with their files; a name is appended to the directory as it is. *)
Definition unpack_entry (dir : string) (e : archive_entry) : io W unit :=
  match e with
  | ADir _ => ret tt
  | AFile name _ content =>
      stat <- ask (fun w => Stat w (dir +:+ name_dir name)) ;;
      (match stat with
       | Err err => if IsNotExist err then attempt (os_MkdirAll (dir +:+ name_dir name) 493) ;;; ret tt else ret tt
       | Ok _ => ret tt
       end) ;;;
      os_WriteFile (dir +:+ name) content 438
  | ALink name _ | AOther name => throw (Errorf "unknown type: %b in %s" [name])
  end.

Definition ExtractTar (tarName : string) : io W unit :=
  path <- look (fun w => Abs w tarName) ;;
  archive <- look (fun w => read_archive w path) ;;
  io_for (unpack_entry (path_Dir path +:+ "/")) archive.1 ;;;
  match archive.2 with Some err => throw err | None => ret tt end.

(** ** Compression ([tgz.go]) *)

(** Opening a file gives a reader; reading it may fail. *)
Context (os_Open : W -> string -> result (result string)).
(** What a gzip writer has written after [Flush]: the trailer follows only on [Close]. *)
Context (gzip_flushed : string -> string).

Definition writeFileToWriter (filePath : string) (write : string -> io W unit) : io W unit :=
  reader <- look (fun w => os_Open w filePath) ;;
  content <- look (fun _ => reader) ;;
  write content.

Definition CompressGzip (srcFilePath destFilePath : string) : io W unit :=
  reader <- io_wrap "failed to open source file %s: %s" [srcFilePath] (look (fun w => os_Open w srcFilePath)) ;;
  io_wrap "failed to create result GZIP file %s: %s" [destFilePath] (os_WriteFile destFilePath "" 438) ;;;
  copied <- attempt (content <- look (fun _ => reader) ;; os_WriteFile destFilePath (gzip_flushed content) 438) ;;
  match copied with
  | Ok _ => ret tt
  | Err err => attempt (os_Remove destFilePath) ;;; throw err
  end.

(** ** Programs *)
Definition RunCommandAndGetOutputInDir (w : W) (program dir : string) (args : list string) : result string :=
  match program_output w program dir args with Err err => Err err | Ok out => Ok (TrimSpace out) end.

(** A program with its output on the terminal or in a file, and the terminal. *)
Context (run_in : string -> option string -> io W unit) (print : string -> io W unit).

(** A file that cannot be read is only warned about. *)
Definition PrintFromStart (file : string) : io W unit :=
  content <- ask (fun w => GoOs.ReadFile w file) ;;
  match content with Ok content => attempt (print content) ;;; ret tt | Err _ => ret tt end.

(** Without a temporary file the name of a nil file is read. *)
Definition RunCommand (cmd : string) (workingDir : string) (showOutput : bool) : io W unit :=
  if showOutput then io_wrap "failed to run 
%s

%s" [cmd] (run_in workingDir None)
  else
    outputBuf <- attempt (os_CreateTemp "out") ;;
    match outputBuf with
    | Err _ => look (fun _ => nil_deref)
    | Ok outputBuf =>
        finally (os_Remove outputBuf) (
          err <- attempt (run_in workingDir (Some outputBuf)) ;;
          match err with
          | Ok _ => ret tt
          | Err err => attempt (PrintFromStart outputBuf) ;;; throw (Wrapf "failed to run 
%s

%s" [cmd] err)
          end)
    end.

(** ** Commands that only print ([version.go], [env.go], [cfg_dump.go]) *)
Definition internalVersionModule (NewVersion : string -> result (list Z)) (info : BuildInfo) (showShort needCommit : bool)
    : io W unit := attempt (print (GetVersion NewVersion info showShort needCommit +:+ Tail.nl)) ;;; ret tt.

Definition internalEnvModule (cliOpts : CliOpts) : io W unit :=
  env <- look (fun _ => deref (opts_Env cliOpts)) ;;
  text <- ask (fun w => CreateEnvString w env) ;;
  print text.

(** An output that cannot be written to is not considered here. *)
Definition internalDumpModule (yaml_Encode : CliOpts -> result string) (rawDump : bool) (ctx : CmdCtx) (cliOpts : CliOpts)
    : io W unit :=
  out <- ask (RunDump yaml_Encode rawDump (cli_ConfigPath (ctx_Cli ctx)) cliOpts) ;;
  print out.1 ;;;
  match out.2 with Some err => throw err | None => ret tt end.

(** ** A cpio archive ([cpio.go])

    The program gets the names on its input and is run in the directory of the files;
    what it printed before it failed stays in the archive. *)
Context (run_cpio : W -> string -> string -> list string -> string * string * option error).

Definition packCpio (relPaths : list string) (resFileName packageFilesDir : string) : io W unit :=
  os_WriteFile resFileName "" 438 ;;;
  out <- ask (fun w => run_cpio w packageFilesDir (Join relPaths Tail.nl) ["cpio"; "-o"; "-H"; "newc"]) ;;
  let '(stdout, stderr, err) := out in
  os_WriteFile resFileName stdout 438 ;;;
  match err with
  | Some _ => throw (Errorf "failed to run 
%s

Stderr: %s" ["cpio -o -H newc"; stderr])
  | None => ret tt
  end.

(** ** The log of instances ([cli/cmd/log.go]) *)
Context `{Processes W, PidFiles W, Yaml, !Services W, GoMapOrder}.
Context (Read : W -> string -> option error) (unmarshal : string -> result (gmap string value)).
Context (collectors : CollectorFactory W).

(** What is printed, or where the logs are followed from. *)
Inductive log_output := LastLines (l : list (string * string * list string)) | Followed (l : list (string * string * Z)).

Definition internalLogModule (nLines : Z) (follows : bool) (cliOpts : CliOpts) (ctx : CmdCtx) (args : list string)
    : io W log_output :=
  if negb (isConfigExist ctx) then throw errNoConfig
  else
    instances <- fill Read unmarshal collectors cliOpts ctx args ;;
    if follows then l <- look (follow instances nLines) ;; ret (Followed l)
    else l <- look (printLastN instances nLines) ;; ret (LastLines l).
End Helpers.

(** An archive with a name that goes up writes outside of its directory. *)
Example extraction_goes_up :
  let m := mkMachine {[ ["d"] := NDir ]} "/d" (fun _ => "") (fun _ => Err ErrNotExist) (Ok "/d/tt")
             (fun _ _ => None) (fun _ => false) in
  let '(r, m) := ExtractTar (fun _ _ => Ok ([AFile "../x" 420 "1"], None)) "b.tgz" m in
  is_ok r = true /\ m_disk m !! ["x"] = Some (NFile "1" 438).
Proof. vm_compute. done. Qed.

(** ** The run of a program ([execute.go])

    [RunCommand] waits for two goroutines: one runs the program and sends to the channel
    that it is done, the other one, which is there on a terminal, shows a spinner until it
    receives that.  [spinning] is [None] when there is no spinner. *)
Inductive runner := Starting | Waiting | Sending | Leaving | Left.
Inductive spinner := Receiving | Stopping | Stopped.

Record run_state := mkRun {
  rs_runner : runner; rs_err : option error; rs_channel : nat; rs_spinner : option spinner; rs_group : nat
}.

Section run.
(** What [cmd.Start] and [cmd.Wait] return, and the capacity of the channel. *)
Context (start_err wait_err : option error) (capacity : nat).

Inductive run_step : run_state -> run_state -> Prop :=
| step_start e c sp g :
    run_step (mkRun Starting e c sp g)
      (mkRun (match start_err with Some _ => Sending | None => Waiting end) start_err c sp g)
| step_wait e c sp g : run_step (mkRun Waiting e c sp g) (mkRun Sending wait_err c sp g)
| step_send e c sp g : (c < capacity)%nat -> run_step (mkRun Sending e c sp g) (mkRun Leaving e (S c) sp g)
| step_leave e c sp g : run_step (mkRun Leaving e c sp (S g)) (mkRun Left e c sp g)
| step_receive r e c g : run_step (mkRun r e (S c) (Some Receiving) g) (mkRun r e c (Some Stopping) g)
| step_stop r e c g : run_step (mkRun r e c (Some Stopping) (S g)) (mkRun r e c (Some Stopped) g).

Definition run_begin (tty : bool) : run_state :=
  mkRun Starting None 0 (if tty then Some Receiving else None) (if tty then 2 else 1).

(** The goroutines that are still running, and what is in the channel. *)
Definition runner_left (r : runner) : nat := match r with Left => 0 | _ => 1 end.
Definition spinner_left (s : option spinner) : nat := match s with None | Some Stopped => 0 | _ => 1 end.
Definition sent (r : runner) : nat := match r with Leaving | Left => 1 | _ => 0 end.
Definition received (s : option spinner) : nat := match s with None | Some Receiving => 0 | _ => 1 end.
Definition run_result : option error := match start_err with Some e => Some e | None => wait_err end.

Record run_inv (s : run_state) : Prop := {
  inv_group : rs_group s = (runner_left (rs_runner s) + spinner_left (rs_spinner s))%nat;
  inv_channel : (rs_channel s + received (rs_spinner s))%nat = sent (rs_runner s);
  inv_start : rs_runner s = Waiting -> start_err = None;
  inv_err : rs_runner s <> Starting -> rs_runner s <> Waiting -> rs_err s = run_result
}.

Lemma run_begin_inv tty : run_inv (run_begin tty).
Proof. by split; destruct tty. Qed.

Lemma run_step_inv s s' : run_inv s -> run_step s s' -> run_inv s'.
Proof.
  intros [Hg Hc Hs He] Hstep. unfold run_result in *.
  destruct Hstep; cbn in *; split; cbn in *; try lia; try (by auto).
  all: unfold run_result; destruct start_err; cbn; (lia || naive_solver).
Qed.

(** Every step uses something up, so that no run is endless. *)
Definition run_measure (s : run_state) : nat :=
  (match rs_runner s with Starting => 4 | Waiting => 3 | Sending => 2 | Leaving => 1 | Left => 0 end +
   match rs_spinner s with Some Receiving => 2 | Some Stopping => 1 | _ => 0 end)%nat.

Lemma run_step_decreases s s' : run_step s s' -> (run_measure s' < run_measure s)%nat.
Proof. destruct 1; unfold run_measure; cbn; try destruct start_err; lia. Qed.

(** With room for one message in the channel the run goes on until nobody is left, and
    then the error is that of the program. *)
Theorem run_finishes tty s :
  (0 < capacity)%nat -> rtc run_step (run_begin tty) s ->
  (rs_group s = 0%nat /\ rs_err s = run_result) \/ exists s', run_step s s'.
Proof.
  intros Hcap Hrun. assert (run_inv s) as [Hg Hc Hs He].
  { pose proof (run_begin_inv tty) as Hi. induction Hrun as [|x y z Hxy _ IH]; [done|]. by apply IH, (run_step_inv x). }
  destruct s as [r e c sp g]. cbn in *. destruct r.
  - right. eexists. constructor.
  - right. eexists. constructor.
  - right. eexists. constructor. cbn in Hc. lia.
  - right. destruct g as [|g]; [cbn in Hg; lia|]. eexists. constructor.
  - destruct sp as [[| |]|]; cbn in *.
    + right. destruct c as [|c]; [lia|]. eexists. constructor.
    + right. destruct g as [|g]; [lia|]. eexists. constructor.
    + left. split; [lia|]. by apply He.
    + left. split; [lia|]. by apply He.
Qed.

(** Without room, and without a spinner, the program is waited for forever. *)
Lemma run_blocks : capacity = 0%nat -> start_err = None ->
  exists s, rtc run_step (run_begin false) s /\ rs_group s <> 0%nat /\ forall s', ~ run_step s s'.
Proof.
  intros Hcap Hstart. exists (mkRun Sending wait_err 0 None 1). split_and!; [|done|].
  - eapply rtc_l; [apply step_start|]. rewrite Hstart. eapply rtc_l; [apply step_wait|]. apply rtc_refl.
  - intros s' Hs. inversion Hs. lia.
Qed.
End run.

(** ** The lines of a log ([tail.go: TailN], [log.go: printLines])

    A goroutine sends the lines of the file to a channel of eight and closes it; the
    command prints what it receives, until the channel is closed or the context is done.
    An interrupt may come at any time; a [select] with both cases ready takes either. *)
Inductive printer := Printing | PrintedAll | Interrupted.
Record lines_state := mkLines {
  ls_todo : option (list string); ls_out : list string; ls_printed : list string;
  ls_done : bool; ls_printer : printer
}.

Definition out_capacity : nat := 8.

(** The goroutine of [TailN]; [ls_todo] is [None] once it has closed the channel. *)
Inductive send_step : lines_state -> lines_state -> Prop :=
| step_send_line line todo out printed d pr :
    (length out < out_capacity)%nat ->
    send_step (mkLines (Some (line :: todo)) out printed d pr) (mkLines (Some todo) (out ++ [line]) printed d pr)
| step_abandon line todo out printed pr :
    send_step (mkLines (Some (line :: todo)) out printed true pr) (mkLines None out printed true pr)
| step_close out printed d pr :
    send_step (mkLines (Some []) out printed d pr) (mkLines None out printed d pr).

(** The loop of [printLines]. *)
Inductive print_step : lines_state -> lines_state -> Prop :=
| step_print todo line out printed d :
    print_step (mkLines todo (line :: out) printed d Printing) (mkLines todo out (printed ++ [line]) d Printing)
| step_end printed d :
    print_step (mkLines None [] printed d Printing) (mkLines None [] printed d PrintedAll)
| step_cancelled todo out printed :
    print_step (mkLines todo out printed true Printing) (mkLines todo out printed true Interrupted).

Definition lines_step (s s' : lines_state) : Prop := send_step s s' \/ print_step s s'.

Inductive signal_step : lines_state -> lines_state -> Prop :=
| step_interrupt todo out printed d pr :
    signal_step (mkLines todo out printed d pr) (mkLines todo out printed true pr).

Definition lines_begin (lines : list string) : lines_state := mkLines (Some lines) [] [] false Printing.

Record lines_inv (lines : list string) (s : lines_state) : Prop := {
  linv_prefix : ls_printed s ++ ls_out s ++ default [] (ls_todo s) `prefix_of` lines;
  linv_all : ls_done s = false -> ls_printed s ++ ls_out s ++ default [] (ls_todo s) = lines;
  linv_end : ls_printer s = PrintedAll -> ls_out s = [] /\ ls_todo s = None;
  linv_cancelled : ls_printer s = Interrupted -> ls_done s = true
}.

Lemma lines_step_inv lines s s' : lines_inv lines s -> lines_step s s' \/ signal_step s s' -> lines_inv lines s'.
Proof.
  intros [Hp Ha He Hc] [[Hstep|Hstep]|Hstep]; destruct Hstep; cbn in *; split; cbn in *; try done.
  all: try rewrite <-(assoc_L (++)) in *; cbn in *; try done; try naive_solver.
  etrans; [|exact Hp]. rewrite app_nil_r. rewrite (assoc_L (++)). apply prefix_app_r. done.
Qed.

Lemma lines_run_inv lines s :
  rtc (fun s s' => lines_step s s' \/ signal_step s s') (lines_begin lines) s -> lines_inv lines s.
Proof.
  assert (lines_inv lines (lines_begin lines)) as Hi by by split.
  induction 1 as [|x y z Hxy _ IH]; [done|]. by apply IH, (lines_step_inv _ x).
Qed.

(** Every step of the two uses something up, so that the command ends. *)
Definition lines_measure (s : lines_state) : nat :=
  (match ls_todo s with None => 0 | Some todo => 1 + 2 * length todo end + length (ls_out s)
   + match ls_printer s with Printing => 1 | _ => 0 end)%nat.

Lemma lines_step_decreases s s' : lines_step s s' -> (lines_measure s' < lines_measure s)%nat.
Proof. intros [Hs|Hs]; destruct Hs; unfold lines_measure; cbn; rewrite ?length_app; cbn; lia. Qed.

Lemma lines_step_ends s : Acc (fun s' s => lines_step s s') s.
Proof.
  induction (Wf_nat.well_founded_ltof _ lines_measure s) as [s _ IH].
  constructor. intros s' Hs. apply IH. by apply lines_step_decreases.
Qed.

(** C36: However the goroutine that sends the last lines of a log, the command
    that prints them and an interrupt interleave, what is printed is at any
    time a beginning of the lines in their order; a command that ends because
    the channel is closed has printed all of them, unless it was interrupted,
    and one that gives up was interrupted; until it ends some step is always
    possible, and without further interrupts there are only finitely many, so
    that it ends. *)
Theorem printLines_prints lines s :
  rtc (fun s s' => lines_step s s' \/ signal_step s s') (lines_begin lines) s ->
  ls_printed s `prefix_of` lines /\
  (ls_printer s = PrintedAll -> ls_done s = false -> ls_printed s = lines) /\
  (ls_printer s = Interrupted -> ls_done s = true) /\
  (ls_printer s = Printing -> exists s', lines_step s s') /\
  Acc (fun s' s => lines_step s s') s.
Proof.
  intros [Hp Ha He Hc]%lines_run_inv. split_and!; [| |done| |].
  - etrans; [|exact Hp]. by apply prefix_app_r.
  - intros Hpr Hd. destruct (He Hpr) as [Ho Ht]. rewrite <-(Ha Hd), Ho, Ht. cbn. by rewrite app_nil_r.
  - destruct s as [todo [|line out] printed d pr]; cbn in *; intros ->; [|eexists; right; apply step_print].
    destruct todo as [[|line todo]|].
    + eexists. left. apply step_close.
    + eexists. left. apply step_send_line. cbn. unfold out_capacity. lia.
    + eexists. right. apply step_end.
  - apply lines_step_ends.
Qed.

(** Two lines are printed and the channel is closed. *)
Lemma printLines_prints_witness :
  let s := mkLines None [] ["a"; "b"] false PrintedAll in
  rtc (fun s s' => lines_step s s' \/ signal_step s s') (lines_begin ["a"; "b"]) s /\ ls_printed s = ["a"; "b"].
Proof.
  cbv zeta. assert (rtc (fun s s' => lines_step s s' \/ signal_step s s') (lines_begin ["a"; "b"])
    (mkLines None [] ["a"; "b"] false PrintedAll)) as Hrun.
  { eapply rtc_l; [left; left; apply step_send_line; vm_compute; lia|]. eapply rtc_l; [left; right; apply step_print|].
    eapply rtc_l; [left; left; apply step_send_line; vm_compute; lia|]. eapply rtc_l; [left; left; apply step_close|].
    eapply rtc_l; [left; right; apply step_print|]. eapply rtc_l; [left; right; apply step_end|]. apply rtc_refl. }
  split; [exact Hrun|].
  exact (proj1 (proj2 (printLines_prints ["a"; "b"] _ Hrun)) eq_refl eq_refl).
Defined.

(** ** Instances side by side ([start.go: startInstancesInteractive])

    The command starts a goroutine for each instance, with a prefix and the next color,
    and waits for all of them.  A run of an instance is any program [P] whose steps change
    the world that all share; what it returns is dropped. *)
Section Interactive.
Context {W P : Type} (RunInstance : InstanceCtx -> string -> string -> P).
Context (run_moves : P -> W -> P -> W -> Prop) (run_ended : P -> bool).

(** [it_wait]: the counter of the group; a goroutine that called [Done] is [None]. *)
Record interactive := mkInteractive {
  it_left : list InstanceCtx; it_color : nat; it_started : list (option P); it_wait : nat; it_returned : bool
}.

Inductive interactive_step : interactive * W -> interactive * W -> Prop :=
| it_go inst l c started n w :
    interactive_step (mkInteractive (inst :: l) c started n false, w)
      (mkInteractive l (S c) (started ++ [Some (RunInstance inst (nextColor c) (GetAppInstanceName inst +:+ " "))])
         (S n) false, w)
| it_move l c started n r w i p p' w' :
    started !! i = Some (Some p) -> run_moves p w p' w' ->
    interactive_step (mkInteractive l c started n r, w) (mkInteractive l c (<[i := Some p']> started) n r, w')
| it_finish l c started n r w i p :
    started !! i = Some (Some p) -> run_ended p = true ->
    interactive_step (mkInteractive l c started (S n) r, w) (mkInteractive l c (<[i := None]> started) n r, w)
| it_return c started w :
    interactive_step (mkInteractive [] c started 0 false, w) (mkInteractive [] c started 0 true, w).

Definition interactive_begin (instances : list InstanceCtx) : interactive := mkInteractive instances 0 [] 0 false.

Definition unfinished (started : list (option P)) : nat := length (omap id started).

Lemma unfinished_replace started i p (o : option P) :
  started !! i = Some (Some p) ->
  (unfinished (<[i := o]> started) + 1)%nat = (unfinished started + match o with Some _ => 1 | None => 0 end)%nat.
Proof.
  unfold unfinished. revert i. induction started as [|x l IH]; intros [|i] Hi; try done.
  - injection Hi as ->. destruct o; cbn; lia.
  - specialize (IH _ Hi). destruct x; cbn in *; unfold insert in *; lia.
Qed.

Lemma unfinished_none started : unfinished started = 0%nat -> Forall (fun o => o = None) started.
Proof.
  unfold unfinished. induction started as [|[p|] l IH]; cbn; [|done|]; intros H0.
  - apply Forall_nil_2.
  - apply Forall_cons. split; [done|]. by apply IH.
Qed.

Lemma unfinished_some started : unfinished started <> 0%nat -> exists i p, started !! i = Some (Some p).
Proof.
  unfold unfinished. induction started as [|[p|] l IH]; cbn; [done|by exists 0%nat, p|].
  intros (i & p & Hi)%IH. by exists (S i), p.
Qed.

Record interactive_inv (instances : list InstanceCtx) (s : interactive) : Prop := {
  iinv_wait : it_wait s = unfinished (it_started s);
  iinv_all : (length (it_started s) + length (it_left s))%nat = length instances;
  iinv_returned : it_returned s = true -> it_left s = [] /\ it_wait s = 0%nat
}.

Lemma interactive_step_inv instances s w s' w' :
  interactive_inv instances s -> interactive_step (s, w) (s', w') -> interactive_inv instances s'.
Proof.
  intros [Hw Ha Hr] Hstep. inversion Hstep; subst; cbn in *; split; cbn; rewrite ?length_app, ?length_insert; cbn; try done; try lia.
  - unfold unfinished in *. rewrite omap_app, length_app. cbn. lia.
  - pose proof (unfinished_replace _ _ _ (Some p') ltac:(eassumption)). unfold unfinished in *. lia.
  - pose proof (unfinished_replace _ _ _ None ltac:(eassumption)). unfold unfinished in *. lia.
  - intros ->. destruct (Hr eq_refl). lia.
Qed.

Lemma interactive_run_inv instances x y :
  rtc interactive_step x y -> interactive_inv instances x.1 -> interactive_inv instances y.1.
Proof.
  induction 1 as [|[b w] [b' w'] z Hxy _ IH]; [done|]. intros Hi. by apply IH, (interactive_step_inv _ b w b' w').
Qed.

(** The command returns only when every instance was started and every run has ended; and
    while it has not returned, either some run has not ended or the command goes on. *)
Theorem interactive_waits instances w0 s w :
  rtc interactive_step (interactive_begin instances, w0) (s, w) ->
  (it_returned s = true -> length (it_started s) = length instances /\ Forall (fun o => o = None) (it_started s)) /\
  (it_returned s = false ->
    (exists i p, it_started s !! i = Some (Some p) /\ run_ended p = false) \/ exists s', interactive_step (s, w) (s', w)).
Proof.
  intros Hrun. assert (interactive_inv instances s) as [Hw Ha Hr].
  { by apply (interactive_run_inv _ _ _ Hrun). }
  split.
  - intros [Hl Hz]%Hr. rewrite Hl in Ha. cbn in Ha. split; [lia|]. apply unfinished_none. lia.
  - intros Hret. destruct s as [[|inst l] c started n r]; cbn in *; subst r; [|right; eexists; apply it_go].
    destruct n as [|n]; [right; eexists; apply it_return|].
    destruct (unfinished_some started) as (i & p & Hi); [unfold unfinished in *; lia|].
    destruct (run_ended p) eqn:Hend; [right; eexists; by eapply it_finish|by left; exists i, p].
Qed.
End Interactive.

(** ** Log files ([logger.go])

    The file of a logger is an interface: nil, a file, or the nil file that a failed
    [os.OpenFile] returns, which is not nil. *)
Inductive log_file := NoFile | OpenFile (fd : Z) | NilFile.

(** [fl_out]: the file that messages are written to. *)
Record fileLogger := mkFileLogger { fl_out : Z; fl_logFile : log_file; fl_Filename : string; fl_Prefix : string }.

Definition fl_GetOpts (l : fileLogger) : string * string := (fl_Filename l, fl_Prefix l).

(** Descriptors: opening gives one that is not in use. *)
Class Descriptors (W : Type) := {
  in_use : W -> gset Z;
  fd_open : string -> W -> result Z * W;
  fd_close : Z -> W -> option error * W;
  fd_write : Z -> string -> W -> W;
  fd_open_Ok : forall path w fd w', fd_open path w = (Ok fd, w') -> fd ∉ in_use w /\ in_use w' = {[fd]} ∪ in_use w;
  fd_open_Err : forall path w e w', fd_open path w = (Err e, w') -> in_use w' = in_use w;
  fd_close_frees : forall fd w, in_use (fd_close fd w).2 = in_use w ∖ {[fd]};
  fd_write_keeps : forall fd text w, in_use (fd_write fd text w) = in_use w
}.

Definition ErrInvalid : error := Errorf "invalid argument" [].

Section Logger.
Context {W : Type} `{Descriptors W}.

Definition close_log_file (f : log_file) (w : W) : option error * W :=
  match f with
  | NoFile => (None, w)
  | OpenFile fd => fd_close fd w
  | NilFile => (Some ErrInvalid, w)
  end.

Definition Rotate (l : fileLogger) (w : W) : option error * fileLogger * W :=
  match fl_logFile l with
  | NoFile => (None, l, w)
  | savedFile =>
      match fd_open (fl_Filename l) w with
      | (Err err, w) =>
          (Some (Wrapf "cannot open the log file %q: %s" [fl_Filename l] err),
           mkFileLogger (fl_out l) NilFile (fl_Filename l) (fl_Prefix l), w)
      | (Ok fd, w) =>
          let w := fd_write fd (fl_Prefix l +:+ "(INFO) log file has been reopened") w in
          let '(err, w) := close_log_file savedFile w in
          let w := match err with
                   | Some _ => fd_write fd (fl_Prefix l +:+ "(ERROR) failed to close previous log file: %s") w
                   | None => w
                   end in
          (None, mkFileLogger fd (OpenFile fd) (fl_Filename l) (fl_Prefix l), w)
      end
  end.

Definition logger_Close (l : fileLogger) (w : W) : option error * W := close_log_file (fl_logFile l) w.

(** A rotation that succeeds puts a new file in the place of the old one. *)
Theorem rotation_replaces l w fd l' w' :
  fl_logFile l = OpenFile fd -> fl_out l = fd -> fd ∈ in_use w -> Rotate l w = (None, l', w') ->
  exists fd', fl_logFile l' = OpenFile fd' /\ fl_out l' = fd' /\ fd' ∉ in_use w /\
              in_use w' = {[fd']} ∪ (in_use w ∖ {[fd]}) /\ fl_GetOpts l' = fl_GetOpts l.
Proof.
  intros Hf Ho Hin. unfold Rotate. rewrite Hf. destruct (fd_open (fl_Filename l) w) as [[fd'|e] w1] eqn:Hopen; [|done].
  apply fd_open_Ok in Hopen as [Hnew Huse]. cbn [close_log_file].
  set (w2 := fd_write fd' _ w1). destruct (fd_close fd w2) as [err w3] eqn:Hclose. intros [= <- <-].
  exists fd'. split_and!; try done.
  assert (in_use w3 = ({[fd']} ∪ in_use w) ∖ {[fd]}) as H3.
  { pose proof (fd_close_frees fd w2) as Hfree. rewrite Hclose in Hfree. cbn in Hfree.
    rewrite Hfree. unfold w2. by rewrite fd_write_keeps, Huse. }
  assert (({[fd']} ∪ in_use w) ∖ {[fd]} = {[fd']} ∪ in_use w ∖ {[fd]}) as Heq.
  { apply set_eq. intros x. destruct (decide (x = fd')) as [->|]; set_solver. }
  destruct err; [rewrite fd_write_keeps|]; by rewrite H3, Heq.
Qed.

(** After a rotation that failed the old file stays in use, also when the logger is closed,
    which reports an error, and when a later rotation succeeds. *)
Theorem failed_rotation_leaks l w fd err l1 w1 :
  fl_logFile l = OpenFile fd -> fl_out l = fd -> fd ∈ in_use w -> Rotate l w = (Some err, l1, w1) ->
  fl_out l1 = fd /\ in_use w1 = in_use w /\ logger_Close l1 w1 = (Some ErrInvalid, w1) /\
  forall w2 l3 w3, fd ∈ in_use w2 -> Rotate l1 w2 = (None, l3, w3) -> fd ∈ in_use w3 /\ fl_out l3 <> fd.
Proof.
  intros Hf Ho Hin. unfold Rotate at 1. rewrite Hf.
  destruct (fd_open (fl_Filename l) w) as [[fd'|e] wa] eqn:Hopen.
  { cbn [close_log_file]. destruct (fd_close fd _); done. }
  apply fd_open_Err in Hopen. intros [= <- <- <-]. cbn. split_and!; [done..|].
  intros w2 l3 w3 Hin2. unfold Rotate. cbn.
  destruct (fd_open (fl_Filename l) w2) as [[fd'|e'] wb] eqn:Hopen2; [|done].
  apply fd_open_Ok in Hopen2 as [Hnew Huse]. intros [= <- <-]. cbn.
  rewrite !fd_write_keeps, Huse. set_solver.
Qed.
End Logger.

(** A table of descriptors, on a machine where opening can be made to fail. *)
#[global, program] Instance table_descriptors : Descriptors (gset Z * bool) := {|
  in_use w := w.1;
  fd_open path w := if w.2 then (Err ErrNotExist, w) else (Ok (fresh w.1), ({[fresh w.1]} ∪ w.1, false));
  fd_close fd w := (None, (w.1 ∖ {[fd]}, w.2));
  fd_write fd text w := w
|}.
Next Obligation. intros path [used []] fd w'; cbn; [done|]. intros [= <- <-]. cbn. split; [apply is_fresh|done]. Qed.
Next Obligation. intros path [used []] e w'; cbn; [by intros [= _ <-]|done]. Qed.
Next Obligation. done. Qed.
Next Obligation. done. Qed.

Example rotation_on_a_table :
  let l := mkFileLogger 3 (OpenFile 3) "app.log" "" in
  let '(err, l', w) := Rotate l ({[3]}, false) in
  err = None /\ size w.1 = 1%nat /\ 3 ∉ w.1 /\ (Rotate l ({[3]}, true)).1.2 = mkFileLogger 3 NilFile "app.log" "".
Proof. vm_compute. split_and!; done. Qed.
